(* ===== verification/_CoqProject ===== *)
-Q . S2P
Prelude.v
Kernel.v
Spinlock.v
CString.v
Format.v
Kalloc.v
Vm.v
Kvm.v
Proc.v
ProcSpec.v
Wakeup.v
Pipe.v
Bytes.v
Bio.v
Log.v
BlockIO.v
Fs.v
FsSpec.v
File.v
Syscall.v
Sysfile.v
Exec.v
Sysproc.v
Console.v
User.v
Grep.v
Utils.v
Umalloc.v
UmallocSpec.v
Sh.v
ShSpec.v
ShPrint.v
Mkfs.v
MkfsSpec.v
MkfsTree.v
Segments.v
Mp.v
Devices.v
Ide.v
Boot.v
Frame.v
FileFrame.v
FileRefs.v
Machine.v
Main.v
