(* ===== verification/Prelude.v ===== *)
(** * Verification of xv6-pdx

    xv6-pdx (src/xv6-pdx) is the teaching kernel xv6 for 32-bit x86
    multiprocessors with the extensions of a course: a boot loader, a kernel with
    processes, virtual memory, a logging file system and device drivers, a user
    library with a shell and small programs, and the host program mkfs.  This
    library models the configuration CS333_PROJECT = 2 of the Makefile (CS333_P1,
    CS333_P2 and USE_BUILTINS are defined, CS333_P3P4 and CS333_P5 are not).

    ** How the code is modelled

    A function of the kernel is a computation [M S A] (Kernel.v): it takes the
    state [S] of its component and returns, panics, or gives up the processor.
    Giving up the processor ([Swtch], the swtch of sched) carries the rest of the
    computation as a function of the state found on return, so that theorems about
    code that sleeps quantify over what other processes do meanwhile.  A component
    that uses another contains its state, and [zoom] runs the operations of the
    one on the state of the other:

      kst (memory, free list, locks)  in  core (process table)  in
      bst (buffer cache, disk)  in  lst (log)  in  fsst (inodes)  in
      filest (open files).

    Machine integers are [Z] with the wrap-around written out ([u32], [s32], ...,
    below); memory is a function from addresses to bytes; page tables, pipes, the
    free list and the headers of malloc live in that memory at the offsets of the
    C structures.  Tables of structures are lists of records and pointers into
    them are indices.  A spin lock is, for the components, membership in the list
    of held locks; Spinlock.v shows that spinlock.c implements this interface.

    User programs are computations over a class of system calls ([Sys] in User.v).

    ** Files

    Foundations
      - Prelude: integers of fixed width, list and function updates, tactics
      - Kernel: the monad, its reasoning rules, channels and locks
      - CString: string.c, with stosb and stosl of x86.h
      - Format: the conversion of printf formats, shared by cprintf and printf
      - Bytes: little-endian fields of blocks
    Kernel
      - Spinlock: spinlock.c, sequentially and interleaved on several CPUs
      - Kalloc: kalloc.c;  Vm: vm.c (loaduvm is in Exec);  Kvm: setupkvm
      - Proc, ProcSpec: proc.c;  Wakeup: the statements of sleep and wakeup
        interleaved on several processors
      - Pipe: pipe.c (pipealloc is in File)
      - Bio: bio.c and the memory disk of memide.c;  Ide: ide.c
      - Log: log.c;  BlockIO: what fs.c uses of the two, as a class
      - Fs, FsSpec: fs.c;  File: file.c;  Sysfile: sysfile.c;  Exec: exec.c
      - Syscall: the arguments of system calls (syscall.c);  Sysproc: sysproc.c,
        the dispatch of syscall.c, trap of trap.c, cmostime of lapic.c
      - Frame, FileFrame: what the layers leave alone;  FileRefs: the counts of
        open files;  Machine: the scheduler, processes and traps together
      - Console: console.c, kbd.c and the output half of uart.c
    Machine
      - Segments: the descriptors of mmu.h, seginit of vm.c, tvinit of trap.c
      - Mp: mp.c;  Devices: ioapic.c, picirq.c, timer.c, lapic.c, uartinit
      - Boot: bootmain.c and the boot page table of main.c;  Main: main.c, consoleinit
    User level and host
      - User: ulib.c and printf.c;  Umalloc, UmallocSpec: umalloc.c
      - Sh, ShSpec, ShPrint: sh.c;  Grep: grep.c;  Utils: the small programs
      - Mkfs, MkfsSpec, MkfsTree: mkfs.c

    ** What the theorems show

    Concurrency.  acquire and release give mutual exclusion under every
    interleaving of their instructions (Spinlock), and processes that wait for a
    condition under a lock miss no wakeup, while without a lock they can
    (Wakeup).  Pipes deliver the bytes in order across
    every sleep of the reader and the writer (Pipe).  Every system call keeps the
    reference counts of open files equal to the number of descriptors, with the
    other processes running wherever it waits (FileRefs); while exit waits the file
    it has closed and not yet cleared is accounted for by a ghost value.

    The whole kernel.  main reaches the scheduler, with the first process ready to
    run the initcode in its own address space (Main).  From there, whatever the
    processes do in user mode, whichever of them the scheduler picks, and wherever
    devices interrupt user code or the idle scheduler, the tables stay well formed
    and the panics of filedup and fileclose are not reached (Machine, one processor
    that takes no interrupt while a process runs in the kernel).

    Storage.  The buffer cache refines a map from block numbers to blocks (Bio);
    the interrupt-driven disk driver, with any number of queued requests,
    implements a queue of requests to the memory disk (Ide).  A transaction
    of the log is atomic: a crash between any two block writes leaves a disk that
    recovers to the state before or after it, and recovery may itself be
    interrupted (Log).  Path names resolve as in the tree of directories on the
    disk, and readi returns the bytes of the file (FsSpec), both proved against the
    class of BlockIO, which the log implements.  mkfs writes an image in which the
    kernel's own path lookup and reads find every file (MkfsTree).

    Memory and processes.  A page is handed out to one owner at a time (Kalloc);
    allocuvm, freevm and copyout change the translation the processor performs as
    they should and take and return exactly the pages they report (Vm); setupkvm
    builds the documented kernel page table from 65 pages, and leaks what it took
    when there are fewer (Kvm); the life
    cycle of a process from allocproc to wait (ProcSpec); the checks of user
    pointers accept exactly what lies in the process, with the stated exception of
    negative sizes (Syscall); exec leaves the arguments in the memory of the
    process, where main looks for them (Exec).

    Machine.  Every trap enters the kernel at its vector and privilege level, and
    user programs can only invoke the system call gate (Segments); the processors
    of the tables are numbered in order (Mp), interrupts are routed to the chosen
    processor (Devices), and the boot loader puts the kernel where its headers say
    (Boot).

    Programs.  malloc returns memory nobody else has and free gives it back
    (UmallocSpec); the shell's parser terminates on every line and reads back what
    the printer of ShPrint prints for any command; the matcher of grep decides the
    language of the expression, and grep selects the matching lines as long as no
    read stops within a line (Grep); the day of the week, computed in 32-bit ints,
    agrees with the calendar (Utils); atoi inverts printf (User).

    Some theorems show what the code does where it differs from its intent:
    allocuvm_ignores_mappages_failure, deallocuvm_skips_mapped_page (Vm),
    kill_zero_dooms_next_process, getproc_misses_later_processes (ProcSpec),
    null_lock_loses_wakeup (Wakeup), begin_op_overcommits (Log), mpinit_loop_stuck (Mp), mkfs_root_unmapped
    (MkfsTree), and argptr_checks (Syscall) for negative sizes.

    ** Bounds

    Recursion that is not structural takes fuel.  Where the code's loop is bounded
    by its data the fuel is computed from it (the pages of a range, the length of a
    path or a line, the entries of a table) and the theorems show that it is
    enough.  Loops that wait for another process or a device take a bound [waits],
    [polls] or [fuel] as an argument and end in [NoFuel] when it is used up;
    theorems about them hold for every bound, or for the bounds for which the
    device answers.

    ** Not modelled

      - assembly (bootasm.S, entry.S, entryother.S, initcode.S, swtch.S,
        trapasm.S, usys.S): the switch of stacks is the outcome [Swtch]
      - the other processors during start-up: startothers reads their started flags
        from a parameter; Machine has one processor
      - interrupts while a process runs in the kernel: trap.c handles them there too,
        and yields at a clock tick, wherever no lock is held.  A process in the
        kernel runs, in Machine and in the theorems about system calls, from one of
        its own calls of swtch to the next; a preemption in between (say in sys_close,
        after the descriptor is cleared and before fileclose) is not a step, and the
        invariants are not claimed there
      - the signal of the end of an interrupt (lapiceoi) in trap, and the port
        sys_halt writes to; the task descriptor switchuvm loads
      - the lock cprintf takes: its output is a list of messages
      - the text panic prints before the processor stops
      - the processor's caches and the order of its memory accesses: a step of the
        interleaved models is one access to memory that others see, or several that
        only its own processor or the holder of a lock can see
      - the test programs (usertests.c, forktest.c, stressfs.c, p2test.c,
        testsetuid.c, testSched.c, zombie.c, halt.c), which exercise the system calls
      - the code of later course projects (CS333_P3P4, CS333_P5: the lists of
        proc.c, p5-test.c, print_mode.c, chmod.c, chown.c, chgrp.c), which the
        configured build leaves out. *)
From Stdlib Require Export ZArith Lia.
From stdpp Require Export base gmap strings numbers functions list.
Export list.

Declare Scope kernel_scope.
Delimit Scope kernel_scope with K.

Local Open Scope Z_scope.

(** ** Tactics of the development *)

(** Split every boolean conjunction, comparison and equality in the context
    into propositions over [Z] and [nat]. *)
Ltac bools :=
  repeat match goal with
  | H : (_ && _)%bool = true |- _ => apply andb_prop in H; destruct H
  | H : (_ || _)%bool = false |- _ => apply orb_false_elim in H; destruct H
  | H : (_ && _)%bool = false |- _ => apply andb_false_iff in H; destruct H
  | H : (_ || _)%bool = true |- _ => apply orb_prop in H; destruct H
  | H : negb _ = true |- _ => apply negb_true_iff in H
  | H : negb _ = false |- _ => apply negb_false_iff in H
  | H : (_ =? _) = true |- _ => apply Z.eqb_eq in H
  | H : (_ =? _) = false |- _ => apply Z.eqb_neq in H
  | H : (_ <? _) = true |- _ => apply Z.ltb_lt in H
  | H : (_ <? _) = false |- _ => apply Z.ltb_ge in H
  | H : (_ <=? _) = true |- _ => apply Z.leb_le in H
  | H : (_ <=? _) = false |- _ => apply Z.leb_gt in H
  | H : (_ >? _) = true |- _ => rewrite Z.gtb_ltb in H
  | H : (_ >? _) = false |- _ => rewrite Z.gtb_ltb in H
  | H : (_ =? _)%nat = true |- _ => apply Nat.eqb_eq in H
  | H : (_ =? _)%nat = false |- _ => apply Nat.eqb_neq in H
  | H : (_ <? _)%nat = true |- _ => apply Nat.ltb_lt in H
  | H : (_ <? _)%nat = false |- _ => apply Nat.ltb_ge in H
  | H : bool_decide _ = true |- _ => apply bool_decide_eq_true_1 in H
  | H : bool_decide _ = false |- _ => apply bool_decide_eq_false_1 in H
  end.

(** Case analysis on the first test that blocks the evaluation of the goal. *)
Ltac case_test :=
  match goal with
  | |- context [if ?b then _ else _] =>
      lazymatch type of b with
      | bool => let E := fresh "Hb" in destruct b eqn:E; bools
      | _ => case_decide
      end
  end.

(** Membership in a list built with cons and append. *)
Ltac in_list := rewrite ?elem_of_app, ?elem_of_cons; tauto.

(** Non-membership in an explicit list. *)
Ltac not_in :=
  repeat (apply not_elem_of_cons; split); first [apply not_elem_of_nil | congruence | done].

Ltac deex :=
  repeat match goal with
  | H : ∃ _, _ |- _ => destruct H
  | H : _ ∧ _ |- _ => destruct H
  end.

(** ** Machine integers *)

(** [uint] and [int] of types.h: 32-bit words with their wrap-around. *)
Definition W32 : Z := 4294967296.
Definition u32 (z : Z) : Z := z mod W32.
Definition s32 (z : Z) : Z := let w := u32 z in if w <? 2147483648 then w else w - W32.
Definition u8 (z : Z) : Z := z mod 256.
Definition u16 (z : Z) : Z := z mod 65536.
Definition s8 (z : Z) : Z := let w := u8 z in if w <? 128 then w else w - 256.
Definition s16 (z : Z) : Z := let w := u16 z in if w <? 32768 then w else w - 65536.

Notation "x +u y" := (u32 (x + y)) (at level 50, left associativity) : kernel_scope.
Notation "x -u y" := (u32 (x - y)) (at level 50, left associativity) : kernel_scope.

Lemma u32_range z : 0 ≤ u32 z < W32.
Proof. unfold u32, W32. apply Z.mod_pos_bound. lia. Qed.

Lemma u32_small z : 0 ≤ z < W32 → u32 z = z.
Proof. intros. unfold u32. by apply Z.mod_small. Qed.

Lemma u32_idemp z : u32 (u32 z) = u32 z.
Proof. apply u32_small, u32_range. Qed.

Lemma u8_range z : 0 ≤ u8 z < 256.
Proof. unfold u8. apply Z.mod_pos_bound. lia. Qed.

Lemma u8_small z : 0 ≤ z < 256 → u8 z = z.
Proof. intros. unfold u8. by apply Z.mod_small. Qed.

Lemma s32_u32 z : s32 (u32 z) = s32 z.
Proof. unfold s32. by rewrite u32_idemp. Qed.

Lemma s32_small z : -2147483648 ≤ z < 2147483648 → s32 z = z.
Proof.
  intros H. unfold s32, u32, W32.
  destruct (Z.ltb_spec (z mod 4294967296) 2147483648);
    Z.div_mod_to_equations; lia.
Qed.

Lemma u32_s32 z : u32 (s32 z) = u32 z.
Proof.
  unfold s32, u32, W32.
  destruct (Z.ltb_spec (z mod 4294967296) 2147483648);
    Z.div_mod_to_equations; lia.
Qed.

Lemma u32_add_l a b : u32 (u32 a + b) = u32 (a + b).
Proof. unfold u32. by rewrite Zplus_mod_idemp_l. Qed.

Lemma u32_add_r a b : u32 (a + u32 b) = u32 (a + b).
Proof. unfold u32. by rewrite Zplus_mod_idemp_r. Qed.

Lemma u32_sub_l a b : u32 (u32 a - b) = u32 (a - b).
Proof. unfold u32. by rewrite Zminus_mod_idemp_l. Qed.

Lemma u32_sub_r a b : u32 (a - u32 b) = u32 (a - b).
Proof. unfold u32. by rewrite Zminus_mod_idemp_r. Qed.

Create HintDb word discriminated.
Create Rewrite HintDb word.
#[export] Hint Resolve u32_range u8_range : word.
#[export] Hint Rewrite u32_idemp s32_u32 u32_s32 u32_add_l u32_add_r u32_sub_l u32_sub_r : word.
