(* ===== verification/Kernel.v ===== *)
(** * Kernel execution: the monad of kernel threads and the shared interfaces

    A kernel thread runs on a state [S] until it returns, calls [panic]
    (console.c, never returns), or gives up the processor with [swtch]
    (proc.c's sched).  A [Swtch] outcome carries the rest of the computation
    as a function of the state the thread finds when it runs again, so the
    other processes may do anything in between.  Loops that wait for a condition
    take a bound on the number of wakeups ([NoFuel] when it is used up).

    The file also names the kernel objects that are used as sleep channels
    and as lock identities, and states the lock interface the components
    use; [Spinlock] shows that spinlock.c implements it. *)
From S2P Require Import Prelude.

Local Open Scope Z_scope.

(** ** Kernel objects *)

(** Sleep channels: the addresses the code passes to [sleep] and [wakeup]. *)
Inductive chan :=
| ChProc (i : nat)        (* a struct proc: wait() sleeps on proc *)
| ChBuf (i : nat)         (* a struct buf *)
| ChInode (i : nat)       (* a struct inode of icache *)
| ChLog                   (* &log *)
| ChPipeR (p : Z)         (* &p->nread *)
| ChPipeW (p : Z)         (* &p->nwrite *)
| ChTicks                 (* &ticks *)
| ChInput.                (* &input.r *)

#[export] Instance chan_eq_dec : EqDecision chan.
Proof. solve_decision. Defined.

(** The spin locks of the kernel. *)
Inductive lockid :=
| Lptable | Lkmem | Lbcache | Llog | Licache | Lftable | Lcons | Lide
| Lpipe (p : Z).

#[export] Instance lockid_eq_dec : EqDecision lockid.
Proof. solve_decision. Defined.

(** ** Outcomes and the kernel monad *)

Inductive outcome (S A : Type) : Type :=
| Ret (a : A) (s : S)
| Panic (msg : string) (s : S)
| Swtch (s : S) (k : S → outcome S A)
| NoFuel (s : S).
Arguments Ret {S A} a s.
Arguments Panic {S A} msg s.
Arguments Swtch {S A} s k.
Arguments NoFuel {S A} s.

Definition M (S A : Type) : Type := S → outcome S A.

Fixpoint obind {S A B : Type} (o : outcome S A) (f : A → M S B) : outcome S B :=
  match o with
  | Ret a s => f a s
  | Panic msg s => Panic msg s
  | Swtch s k => Swtch s (λ s', obind (k s') f)
  | NoFuel s => NoFuel s
  end.

Definition ret {S A} (a : A) : M S A := λ s, Ret a s.
Definition bind {S A B} (m : M S A) (f : A → M S B) : M S B := λ s, obind (m s) f.
Definition panic {S A} (msg : string) : M S A := λ s, Panic msg s.
Definition nofuel {S A} : M S A := λ s, NoFuel s.
Definition gets {S A} (f : S → A) : M S A := λ s, Ret (f s) s.
Definition modify {S} (f : S → S) : M S unit := λ s, Ret tt (f s).

Notation "x <- m ;; k" := (bind m (λ x, k))
  (at level 20, m at level 99, k at level 200, only parsing) : kernel_scope.
Notation "' p <- m ;; k" := (bind m (λ x, match x with p => k end))
  (at level 20, p pattern, m at level 99, k at level 200, only parsing) : kernel_scope.
Notation "m ;; k" := (bind m (λ _, k))
  (at level 100, k at level 200, only parsing) : kernel_scope.
Notation "'when' b 'do' m" := (if b then m else ret tt)
  (at level 60, b at level 59, m at level 60, only parsing) : kernel_scope.

(** Running a computation of a component on the part of a larger state. *)
Fixpoint ozoom {S T A} (get : S → T) (set : T → S → S) (s : S) (o : outcome T A)
  : outcome S A :=
  match o with
  | Ret a t => Ret a (set t s)
  | Panic msg t => Panic msg (set t s)
  | Swtch t k => Swtch (set t s) (λ s', ozoom get set s' (k (get s')))
  | NoFuel t => NoFuel (set t s)
  end.

Definition zoom {S T A} (get : S → T) (set : T → S → S) (m : M T A) : M S A :=
  λ s, ozoom get set s (m (get s)).

(** ** Reasoning about runs *)

(** The run returns (it neither panics, nor sleeps, nor runs out of fuel) and
    its result and final state satisfy [Q]. *)
Definition returns {S A} (m : M S A) (s : S) (Q : A → S → Prop) : Prop :=
  ∃ a s', m s = Ret a s' ∧ Q a s'.

Lemma returns_bind {S A B} (m : M S A) (f : A → M S B) s Q :
  returns m s (λ a s', returns (f a) s' Q) → returns (bind m f) s Q.
Proof.
  intros (a & s1 & E & b & s2 & E2 & HQ). exists b, s2.
  unfold bind. by rewrite E.
Qed.

Lemma returns_mono {S A} (m : M S A) s (Q Q' : A → S → Prop) :
  returns m s Q → (∀ a s', Q a s' → Q' a s') → returns m s Q'.
Proof. intros (a & s' & E & H) HQ. exists a, s'. eauto. Qed.

Lemma returns_zoom {S T A} (get : S → T) (set : T → S → S) (m : M T A) s Q :
  returns m (get s) (λ a t, Q a (set t s)) → returns (zoom get set m) s Q.
Proof. intros (a & t & E & H). exists a, (set t s). unfold zoom. by rewrite E. Qed.

Lemma bind_Ret {S A B} (m : M S A) (f : A → M S B) s a s' :
  m s = Ret a s' → bind m f s = f a s'.
Proof. intros E. unfold bind. by rewrite E. Qed.

Lemma bind_Panic {S A B} (m : M S A) (f : A → M S B) s msg s' :
  m s = Panic msg s' → bind m f s = Panic msg s'.
Proof. intros E. unfold bind. by rewrite E. Qed.

Lemma bind_Ret_inv {S A B} (m : M S A) (f : A → M S B) s b s' :
  bind m f s = Ret b s' → ∃ a s1, m s = Ret a s1 ∧ f a s1 = Ret b s'.
Proof. unfold bind. destruct (m s) eqn:E; intros H; simplify_eq/=; eauto. Qed.

Lemma bind_seq_Ret {S A B C} (m1 : M S A) (m2 : M S B) (k : B → M S C) s b s' :
  bind m1 (λ _, m2) s = Ret b s' → bind m1 (λ _, bind m2 k) s = k b s'.
Proof.
  intros (a & s1 & E1 & E2)%bind_Ret_inv. rewrite (bind_Ret _ _ _ _ _ E1). by rewrite (bind_Ret _ _ _ _ _ E2).
Qed.

Lemma zoom_Ret {S T A} (get : S → T) (set : T → S → S) (m : M T A) s a t :
  m (get s) = Ret a t → zoom get set m s = Ret a (set t s).
Proof. intros E. unfold zoom. by rewrite E. Qed.

(** A run interleaved with steps of the other processes: at each [Swtch] the
    state changes by the rely relation [R]. *)
Inductive reaches {S A} (R : S → S → Prop) : outcome S A → A → S → Prop :=
| reaches_ret a s : reaches R (Ret a s) a s
| reaches_swtch s s' k a sf :
    R s s' → reaches R (k s') a sf → reaches R (Swtch s k) a sf.

(** A run interleaved with the other processes, with a ghost value [t] that is
    brought up to date each time it gives up the processor: [give t s0 s t']
    relates the state [s0] in which it last got it with the state [s] it leaves
    behind, [R] is what the others may do meanwhile, and [Q] holds of the
    ghost value, the state of the last resumption, the result and the final
    state.  The run does not panic. *)
Fixpoint rgwp {S A T} (give : T → S → S → T → Prop) (R : S → S → Prop)
  (o : outcome S A) (t : T) (s0 : S) (Q : T → S → A → S → Prop) : Prop :=
  match o with
  | Ret a s => Q t s0 a s
  | Panic _ _ => False
  | NoFuel _ => True
  | Swtch s k => ∃ t', give t s0 s t' ∧ ∀ s', R s s' → rgwp give R (k s') t' s' Q
  end.

Lemma rgwp_bind {S A B T} give R (m : M S A) (f : A → M S B) s (t : T) s0 Q :
  rgwp give R (m s) t s0 (λ t b a s', rgwp give R (f a s') t b Q) → rgwp give R (bind m f s) t s0 Q.
Proof.
  unfold bind. generalize (m s). intros o. revert t s0.
  induction o as [a s1|msg s1|s1 k IH|s1]; intros t s0; cbn; try done.
  intros (t' & Hg & HR). exists t'. split; [done|]. intros s' Hs'. apply IH. by apply HR.
Qed.

Lemma rgwp_mono {S A T} give R (o : outcome S A) (t : T) s0 (Q Q' : T → S → A → S → Prop) :
  (∀ t b a s, Q t b a s → Q' t b a s) → rgwp give R o t s0 Q → rgwp give R o t s0 Q'.
Proof.
  intros HQ. revert t s0. induction o as [a s|msg s|s k IH|s]; intros t s0; cbn; try by eauto.
  intros (t' & Hg & HR). exists t'. split; [done|]. intros s' Hs'. apply IH. by apply HR.
Qed.

(** ** Equal runs *)

(** Outcomes that are equal up to the equality of the functions that continue
    after a switch. *)
#[export] Instance outcome_equiv S A : Equiv (outcome S A) :=
  fix go o1 o2 :=
    match o1, o2 with
    | Ret a s, Ret a' s' => a = a' ∧ s = s'
    | Panic msg s, Panic msg' s' => msg = msg' ∧ s = s'
    | Swtch s k, Swtch s' k' => s = s' ∧ ∀ t, go (k t) (k' t)
    | NoFuel s, NoFuel s' => s = s'
    | _, _ => False
    end.

#[export] Instance outcome_equivalence S A : Equivalence (≡@{outcome S A}).
Proof.
  split.
  - intros o. induction o; cbn; done.
  - intros o. induction o as [| |s k IH|]; intros [] H; cbn in *; try done; try (by destruct H as [-> ->]). destruct H as [-> H]. split; [done|]. intros t. by apply IH.
  - intros o. induction o as [| |s k IH|]; intros [] [] H1 H2; cbn in *; try done; try (by destruct H1 as [-> ->]); try congruence.
    destruct H1 as [-> H1], H2 as [-> H2]. split; [done|]. intros t. by eapply IH.
Qed.

#[export] Instance obind_proper S A B : Proper ((≡) ==> pointwise_relation A (pointwise_relation S (≡)) ==> (≡)) (@obind S A B).
Proof.
  intros o. induction o as [a s|msg s|s k IH|s]; intros [] H f g Hfg; cbn in *; try done.
  - destruct H as [-> ->]. apply Hfg.
  - destruct H as [-> H]. split; [done|]. intros t. by apply IH.
Qed.

Lemma obind_assoc {S A B C} (o : outcome S A) (f : A → M S B) (g : B → M S C) :
  obind (obind o f) g ≡ obind o (λ a, bind (f a) g).
Proof. induction o as [a s|msg s|s k IH|s]; cbn; done. Qed.

Lemma bind_skip {S} (m : M S unit) s : m s ≡ bind m (λ _, ret tt) s.
Proof. unfold bind. induction (m s) as [[] t|msg t|t k IH|t]; cbn; done. Qed.

(** ** The lock interface *)

(** What a kernel thread sees of the spin locks: the locks its processor
    holds.  [acquire] of a held lock and [release] of a lock that is not held
    are the two panics of spinlock.c. *)
Definition lockst : Type := list lockid.

Fixpoint remove1 (lk : lockid) (h : lockst) : lockst :=
  match h with
  | [] => []
  | x :: h => if decide (x = lk) then h else x :: remove1 lk h
  end.

Definition acquire (lk : lockid) : M lockst unit := λ h,
  if decide (lk ∈ h) then Panic "acquire" h else Ret tt (lk :: h).

Definition release (lk : lockid) : M lockst unit := λ h,
  if decide (lk ∈ h) then Ret tt (remove1 lk h) else Panic "release" h.

Lemma acquire_ok lk h : lk ∉ h → acquire lk h = Ret tt (lk :: h).
Proof. intros. unfold acquire. by rewrite decide_False. Qed.

Lemma remove1_head lk h : remove1 lk (lk :: h) = h.
Proof. simpl. by rewrite decide_True. Qed.

Lemma release_head lk h : release lk (lk :: h) = Ret tt h.
Proof. unfold release. rewrite decide_True by set_solver. by rewrite remove1_head. Qed.

Lemma length_remove1 lk h : lk ∈ h → length h = S (length (remove1 lk h)).
Proof.
  induction h as [|x h IH]; [set_solver|]. simpl. intros Hin.
  case_decide; [done|]. simpl. rewrite <- IH; [done|set_solver].
Qed.

(** What an implementation of the lock interface promises: related to a set
    of held locks, it panics exactly when the interface does, and otherwise
    returns in a related state ([acquire] provided the lock is free: the code
    spins until it is). *)
Class LockLayer (S : Type) := {
  ll_acquire : lockid → M S unit;
  ll_release : lockid → M S unit;
  ll_free : lockid → S → Prop;
  ll_rel : S → lockst → Prop;
  ll_acquire_ret s h lk h' :
    ll_rel s h → ll_free lk s → acquire lk h = Ret tt h' →
    ∃ s', ll_acquire lk s = Ret tt s' ∧ ll_rel s' h';
  ll_acquire_panic s h lk msg h' :
    ll_rel s h → acquire lk h = Panic msg h' →
    ∃ s', ll_acquire lk s = Panic msg s';
  ll_release_ret s h lk h' :
    ll_rel s h → release lk h = Ret tt h' →
    ∃ s', ll_release lk s = Ret tt s' ∧ ll_rel s' h' ∧ ll_free lk s';
  ll_release_panic s h lk msg h' :
    ll_rel s h → release lk h = Panic msg h' →
    ∃ s', ll_release lk s = Panic msg s'
}.
