(* ===== verification/Spinlock.v ===== *)
(** * Spin locks (spinlock.c, spinlock.h)

    The lock words, the per-processor interrupt nesting of pushcli/popcli and
    the debugging record of the call stack, as the code keeps them; the
    operations from the point of view of one processor; a transition system
    of several processors that run them step by step (each xchg is one step;
    accesses that only the processor itself can see are joined to the next step);
    and the proof that they implement the lock interface of [Kernel]. *)
From S2P Require Import Prelude Kernel.

Local Open Scope Z_scope.
Local Open Scope kernel_scope.

(** ** State *)

Definition FL_IF : Z := 512.          (* mmu.h *)
Definition KERNBASE : Z := 2147483648. (* memlayout.h *)

(** The lock-related part of struct cpu, with the processor's EFLAGS. *)
Record cpu := mk_cpu { ncli : Z; intena : Z; eflags : Z }.

Record spinlock := mk_spinlock {
  locked : Z;
  lname : string;
  lcpu : option nat;          (* the cpu holding the lock, None for 0 *)
  pcs : list Z                (* call stack of the acquire *)
}.

(** Processors, locks, and the words of memory the stack walk reads. *)
Record mach := mk_mach {
  cpus : nat → cpu;
  locks : lockid → spinlock;
  word : Z → Z
}.

Definition set_cpu (c : nat) (x : cpu) (m : mach) : mach :=
  mk_mach (<[c:=x]> (cpus m)) (locks m) (word m).
Definition set_lock (lk : lockid) (l : spinlock) (m : mach) : mach :=
  mk_mach (cpus m) (<[lk:=l]> (locks m)) (word m).

(** ** Operations *)

Definition initlock (lk : lockid) (name : string) : M mach unit := λ m,
  Ret tt (set_lock lk (mk_spinlock 0 name None (pcs (locks m lk))) m).

(** The two loops of getcallerpcs: follow the %ebp chain, then zero fill. *)
Fixpoint walk_ebp (w : Z → Z) (n : nat) (ebp : Z) : list Z :=
  match n with
  | O => []
  | S n =>
      if (ebp =? 0) || (ebp <? KERNBASE) || (ebp =? 4294967295) then
        replicate (S n) 0
      else w (ebp +u 4) :: walk_ebp w n (w ebp)
  end%bool.

Definition getcallerpcs (w : Z → Z) (v : Z) : list Z := walk_ebp w 10 (v -u 8).
Arguments getcallerpcs : simpl never.

(** Does processor [c] hold the lock? *)
Definition holding (c : nat) (lk : lockid) (m : mach) : bool :=
  negb (locked (locks m lk) =? 0) && bool_decide (lcpu (locks m lk) = Some c).

Definition pushcli (c : nat) : M mach unit := λ m,
  let x := cpus m c in
  let e := eflags x in
  let x := mk_cpu (ncli x) (intena x) (Z.land e (Z.lnot FL_IF)) in   (* cli() *)
  let x := if ncli x =? 0 then mk_cpu (ncli x) (Z.land e FL_IF) (eflags x) else x in
  Ret tt (set_cpu c (mk_cpu (ncli x + 1) (intena x) (eflags x)) m).

Definition popcli (c : nat) : M mach unit := λ m,
  let x := cpus m c in
  if negb (Z.land (eflags x) FL_IF =? 0) then Panic "popcli - interruptible" m
  else
    let x := mk_cpu (ncli x - 1) (intena x) (eflags x) in
    if ncli x <? 0 then Panic "popcli" (set_cpu c x m)
    else if (ncli x =? 0) && negb (intena x =? 0) then
      Ret tt (set_cpu c (mk_cpu (ncli x) (intena x) (Z.lor (eflags x) FL_IF)) m)  (* sti() *)
    else Ret tt (set_cpu c x m).

(** The atomic exchange of x86.h on a lock word. *)
Definition xchg (lk : lockid) (v : Z) : M mach Z := λ m,
  let l := locks m lk in
  Ret (locked l) (set_lock lk (mk_spinlock v (lname l) (lcpu l) (pcs l)) m).

(** The spin loop; the fuel is the number of exchanges. *)
Fixpoint spin (fuel : nat) (lk : lockid) : M mach unit :=
  match fuel with
  | O => nofuel
  | S n => old <- xchg lk 1 ;; if old =? 0 then ret tt else spin n lk
  end.

(** [v] is the address of the parameter [lk] on the caller's stack. *)
Definition spin_acquire (fuel : nat) (c : nat) (lk : lockid) (v : Z) : M mach unit :=
  pushcli c ;;
  h <- gets (holding c lk) ;;
  if (h : bool) then panic "acquire"
  else
    spin fuel lk ;;
    modify (λ m, let l := locks m lk in
      set_lock lk (mk_spinlock (locked l) (lname l) (Some c) (getcallerpcs (word m) v)) m).

Definition spin_release (c : nat) (lk : lockid) : M mach unit :=
  h <- gets (holding c lk) ;;
  if negb (h : bool) then panic "release"
  else
    modify (λ m, let l := locks m lk in
      set_lock lk (mk_spinlock (locked l) (lname l) None (<[0%nat:=0]> (pcs l))) m) ;;
    xchg lk 0 ;;
    popcli c.

(** ** Several processors

    [lpc c] is where processor [c] is inside acquire/release; [mine c] is a
    history variable: the locks for which acquire has returned on [c] and
    release has not been called since. *)
Inductive lpc :=
| Run                    (* outside acquire and release *)
| AcqSpin (lk : lockid)  (* spinning on the xchg *)
| AcqGot (lk : lockid)   (* the xchg returned 0, lk->cpu not yet written *)
| RelChecked (lk : lockid)  (* holding() was true, lk->cpu not yet cleared *)
| RelCleared (lk : lockid)  (* lk->cpu cleared, before the xchg *)
| Panicked (msg : string).

Record smp := mk_smp { mc : mach; pc : nat → lpc; mine : nat → list lockid }.

Definition smp_init (m : mach) : smp := mk_smp m (λ _, Run) (λ _, []).

Inductive step : smp → smp → Prop :=
| step_acquire s c lk m' :
    pc s c = Run → pushcli c (mc s) = Ret tt m' →
    step s (mk_smp m' (<[c := if holding c lk m' then Panicked "acquire" else AcqSpin lk]> (pc s))
              (mine s))
| step_xchg1 s c lk old m' :
    pc s c = AcqSpin lk → xchg lk 1 (mc s) = Ret old m' →
    step s (mk_smp m' (<[c := if old =? 0 then AcqGot lk else AcqSpin lk]> (pc s)) (mine s))
| step_setcpu s c lk v :
    pc s c = AcqGot lk →
    let l := locks (mc s) lk in
    step s (mk_smp (set_lock lk (mk_spinlock (locked l) (lname l) (Some c)
                                   (getcallerpcs (word (mc s)) v)) (mc s))
              (<[c := Run]> (pc s)) (<[c := lk :: mine s c]> (mine s)))
| step_release s c lk :
    pc s c = Run →
    step s (if holding c lk (mc s)
            then mk_smp (mc s) (<[c := RelChecked lk]> (pc s)) (<[c := remove1 lk (mine s c)]> (mine s))
            else mk_smp (mc s) (<[c := Panicked "release"]> (pc s)) (mine s))
| step_clrcpu s c lk :
    pc s c = RelChecked lk →
    let l := locks (mc s) lk in
    step s (mk_smp (set_lock lk (mk_spinlock (locked l) (lname l) None (<[0%nat:=0]> (pcs l))) (mc s))
              (<[c := RelCleared lk]> (pc s)) (mine s))
| step_xchg0 s c lk old m' :
    pc s c = RelCleared lk → xchg lk 0 (mc s) = Ret old m' →
    step s (match popcli c m' with
            | Ret _ m'' => mk_smp m'' (<[c := Run]> (pc s)) (mine s)
            | Panic msg m'' => mk_smp m'' (<[c := Panicked msg]> (pc s)) (mine s)
            | Swtch m'' _ | NoFuel m'' => mk_smp m'' (pc s) (mine s)
            end)
| step_flags s c e :        (* cli()/sti() by the client, outside any lock *)
    pc s c = Run → ncli (cpus (mc s) c) = 0 →
    let x := cpus (mc s) c in
    step s (mk_smp (set_cpu c (mk_cpu (ncli x) (intena x) e) (mc s)) (pc s) (mine s)).

(** ** Interrupt nesting *)

Lemma land_cli e : Z.land (Z.land e (Z.lnot FL_IF)) FL_IF = 0.
Proof. rewrite <- Z.land_assoc, (Z.land_comm (Z.lnot _)), Z.land_lnot_diag. apply Z.land_0_r. Qed.

Lemma pushcli_ret c m :
  ∃ x, pushcli c m = Ret tt (set_cpu c x m) ∧
    ncli x = ncli (cpus m c) + 1 ∧ Z.land (eflags x) FL_IF = 0.
Proof.
  unfold pushcli. simpl.
  destruct (ncli (cpus m c) =? 0); eexists; repeat split; simpl; auto using land_cli.
Qed.

Lemma popcli_ret c m :
  Z.land (eflags (cpus m c)) FL_IF = 0 → 0 < ncli (cpus m c) →
  ∃ x, popcli c m = Ret tt (set_cpu c x m) ∧
    ncli x = ncli (cpus m c) - 1 ∧ (0 < ncli x → Z.land (eflags x) FL_IF = 0).
Proof.
  intros HIF Hn. unfold popcli. rewrite HIF. simpl.
  destruct (Z.ltb_spec (ncli (cpus m c) - 1) 0); [lia|].
  destruct (Z.eqb_spec (ncli (cpus m c) - 1) 0); simpl;
    [destruct (negb _)|]; eexists; repeat split; simpl; auto; lia.
Qed.

(** ** Implementation of the lock interface *)

(** What the processor [c] holds, seen through the lock words. *)
Definition lock_rel (c : nat) (m : mach) (h : lockst) : Prop :=
  NoDup h ∧ (∀ lk, holding c lk m = bool_decide (lk ∈ h)) ∧
  ncli (cpus m c) = Z.of_nat (length h) ∧
  (h ≠ [] → Z.land (eflags (cpus m c)) FL_IF = 0).

Lemma holding_set_cpu c c' lk x m : holding c lk (set_cpu c' x m) = holding c lk m.
Proof. done. Qed.

Lemma holding_set_lock_ne c lk lk' l m :
  lk' ≠ lk → holding c lk (set_lock lk' l m) = holding c lk m.
Proof. intros. unfold holding, set_lock; simpl. by rewrite fn_lookup_insert_ne. Qed.

Lemma holding_set_lock c lk l m :
  holding c lk (set_lock lk l m) = negb (locked l =? 0) && bool_decide (lcpu l = Some c).
Proof. unfold holding, set_lock; simpl. by rewrite fn_lookup_insert. Qed.

Lemma remove1_elem lk lk' (h : lockst) :
  NoDup h → lk' ∈ remove1 lk h ↔ lk' ∈ h ∧ lk' ≠ lk.
Proof.
  induction h as [|x h IH]; simpl; [set_solver|].
  intros [Hx Hnd]%NoDup_cons. case_decide; subst.
  - rewrite elem_of_cons. split; [|naive_solver].
    intros Hin. split; [by right|]. by intros ->.
  - rewrite !elem_of_cons, IH by done. naive_solver.
Qed.

Lemma remove1_NoDup lk (h : lockst) : NoDup h → NoDup (remove1 lk h).
Proof.
  induction h as [|x h IH]; simpl; [done|]. intros [Hx Hnd]%NoDup_cons.
  case_decide; [done|]. apply NoDup_cons. split; [|auto].
  rewrite remove1_elem by done. naive_solver.
Qed.

Lemma lock_rel_acquire c m h lk fuel v :
  lock_rel c m h → lk ∉ h → locked (locks m lk) = 0 →
  ∃ m', spin_acquire (S fuel) c lk v m = Ret tt m' ∧ lock_rel c m' (lk :: h) ∧
    (∀ lk', lk' ≠ lk → locks m' lk' = locks m lk').
Proof.
  intros (Hnd & Hh & Hn & HIF) Hlk Hfree.
  destruct (pushcli_ret c m) as (x & Hp & Hx1 & Hx2).
  unfold spin_acquire. rewrite (bind_Ret _ _ _ _ _ Hp). cbn.
  rewrite holding_set_cpu, Hh, bool_decide_false by done.
  unfold bind at 1. cbn. rewrite Hfree. cbn. eexists. split; [done|]. split_and!.
  - split_and!; [by apply NoDup_cons| |cbn; rewrite fn_lookup_insert; lia|].
    + intros lk'. destruct (decide (lk' = lk)) as [->|].
      * rewrite holding_set_lock. cbn. rewrite fn_lookup_insert. cbn.
        by rewrite !bool_decide_true by (done || left).
      * rewrite !holding_set_lock_ne, holding_set_cpu, Hh by done.
        apply bool_decide_ext. set_solver.
    + intros _. cbn. by rewrite fn_lookup_insert.
  - intros lk' ?. cbn. by rewrite !fn_lookup_insert_ne by done.
Qed.

Lemma lock_rel_release c m h lk :
  lock_rel c m h → lk ∈ h →
  ∃ m', spin_release c lk m = Ret tt m' ∧ lock_rel c m' (remove1 lk h) ∧
    locked (locks m' lk) = 0 ∧ (∀ lk', lk' ≠ lk → locks m' lk' = locks m lk').
Proof.
  intros (Hnd & Hh & Hn & HIF) Hlk.
  unfold spin_release, gets, bind at 1. cbn. rewrite Hh, bool_decide_true by done. cbn.
  pose proof (length_remove1 lk h Hlk) as Hlen.
  set (m1 := set_lock lk _ (set_lock lk _ m)).
  destruct (popcli_ret c m1) as (x & Hp & Hx1 & Hx2).
  { apply HIF. set_solver. }
  { cbn. lia. }
  rewrite Hp. eexists. split; [done|]. split_and!.
  - cbn in Hx1. split_and!; [by apply remove1_NoDup| |cbn; rewrite fn_lookup_insert; lia|].
    + intros lk'. rewrite holding_set_cpu. unfold m1. destruct (decide (lk' = lk)) as [->|].
      * rewrite holding_set_lock. cbn. symmetry. apply bool_decide_eq_false.
        rewrite remove1_elem by done. naive_solver.
      * rewrite !holding_set_lock_ne, Hh by done. apply bool_decide_ext.
        rewrite remove1_elem by done. naive_solver.
    + intros Hne. cbn. rewrite fn_lookup_insert. apply Hx2. cbn in Hx1.
      destruct (remove1 lk h); [done|]. cbn in *. lia.
  - cbn. by rewrite fn_lookup_insert.
  - intros lk' ?. cbn. by rewrite !fn_lookup_insert_ne by done.
Qed.

Lemma spin_acquire_held c m h lk fuel v :
  lock_rel c m h → lk ∈ h → ∃ m', spin_acquire fuel c lk v m = Panic "acquire" m'.
Proof.
  intros (_ & Hh & _ & _) Hlk. destruct (pushcli_ret c m) as (x & Hp & _).
  unfold spin_acquire. rewrite (bind_Ret _ _ _ _ _ Hp). cbn.
  rewrite holding_set_cpu, Hh, bool_decide_true by done. eauto.
Qed.

Lemma spin_release_unheld c m h lk :
  lock_rel c m h → lk ∉ h → spin_release c lk m = Panic "release" m.
Proof.
  intros (_ & Hh & _ & _) Hlk. unfold spin_release, bind, gets. cbn.
  by rewrite Hh, bool_decide_false.
Qed.

(** spinlock.c on processor [c] is an implementation of the lock interface. *)
#[export] Program Instance spinlock_layer (fuel c : nat) (v : Z) : LockLayer mach := {
  ll_acquire := λ lk, spin_acquire (S fuel) c lk v;
  ll_release := spin_release c;
  ll_free := λ lk m, locked (locks m lk) = 0;
  ll_rel := lock_rel c
}.
Next Obligation.
  intros fuel c v m h lk h' HR Hfree Ha. unfold acquire in Ha. case_decide; simplify_eq.
  destruct (lock_rel_acquire c m h lk fuel v) as (m' & ? & ? & _); eauto.
Qed.
Next Obligation.
  intros fuel c v m h lk msg h' HR Ha. unfold acquire in Ha. case_decide; simplify_eq.
  eauto using spin_acquire_held.
Qed.
Next Obligation.
  intros fuel c v m h lk h' HR Ha. unfold release in Ha. case_decide; simplify_eq.
  destruct (lock_rel_release c m h lk) as (m' & ? & ? & ? & _); eauto.
Qed.
Next Obligation.
  intros fuel c v m h lk msg h' HR Ha. unfold release in Ha. case_decide; simplify_eq.
  eauto using spin_release_unheld.
Qed.

(** ** The invariant of several processors *)

(** The share of a lock a processor has: none, or one of the stages of
    having it. *)
Inductive phase := PNone | PGot | PHeld | PChecked | PCleared.

Definition phase_of (s : smp) (c : nat) (lk : lockid) : phase :=
  if decide (lk ∈ mine s c) then PHeld
  else match pc s c with
  | AcqGot l => if decide (l = lk) then PGot else PNone
  | RelChecked l => if decide (l = lk) then PChecked else PNone
  | RelCleared l => if decide (l = lk) then PCleared else PNone
  | _ => PNone
  end.

(** The lock word is set exactly while one processor has the lock, and
    lk->cpu names that processor while acquire has returned. *)
Definition lock_inv (s : smp) (lk : lockid) : Prop :=
  if locked (locks (mc s) lk) =? 0
  then lcpu (locks (mc s) lk) = None ∧ ∀ c, phase_of s c lk = PNone
  else ∃ c, (∀ c', c' ≠ c → phase_of s c' lk = PNone) ∧
    match phase_of s c lk with
    | PHeld | PChecked => lcpu (locks (mc s) lk) = Some c
    | PGot | PCleared => lcpu (locks (mc s) lk) = None
    | PNone => False
    end.

(** Locks passed through acquire are distinct from those already held, and
    the nesting counter counts the locks a processor has or is taking. *)
Definition busy (p : lpc) : option lockid :=
  match p with
  | AcqSpin l | AcqGot l | RelChecked l | RelCleared l => Some l
  | _ => None
  end.

Definition cpu_inv (s : smp) (c : nat) : Prop :=
  NoDup (mine s c) ∧ (∀ l, busy (pc s c) = Some l → l ∉ mine s c) ∧
  match pc s c with
  | Panicked msg => msg = "acquire"%string ∨ msg = "release"%string
  | p => ncli (cpus (mc s) c) =
           Z.of_nat (length (mine s c)) + (if busy p then 1 else 0)
  end ∧
  (0 < ncli (cpus (mc s) c) → Z.land (eflags (cpus (mc s) c)) FL_IF = 0) ∧
  (0 ≤ ncli (cpus (mc s) c)) ∧
  (mine s c ≠ [] → 0 < ncli (cpus (mc s) c)).

Definition smp_inv (s : smp) : Prop :=
  (∀ lk, lock_inv s lk) ∧ (∀ c, cpu_inv s c).

Lemma lock_inv_ext s s' lk :
  (locked (locks (mc s') lk) =? 0) = (locked (locks (mc s) lk) =? 0) →
  lcpu (locks (mc s') lk) = lcpu (locks (mc s) lk) →
  (∀ c, phase_of s' c lk = phase_of s c lk) →
  lock_inv s lk → lock_inv s' lk.
Proof.
  unfold lock_inv. intros -> -> Hph. destruct (_ =? 0).
  - intros [? H]. split; [done|]. intros c. by rewrite Hph.
  - intros (c & H1 & H2). exists c. rewrite Hph. split; [|done].
    intros. rewrite Hph. auto.
Qed.

(** A processor that has a lock is the only one, and the word is set. *)
Lemma lock_inv_has s lk c :
  lock_inv s lk → phase_of s c lk ≠ PNone →
  locked (locks (mc s) lk) =? 0 = false ∧
  (∀ c', c' ≠ c → phase_of s c' lk = PNone) ∧
  lcpu (locks (mc s) lk) =
    match phase_of s c lk with PHeld | PChecked => Some c | _ => None end.
Proof.
  unfold lock_inv. intros H Hc. destruct (locked (locks (mc s) lk) =? 0).
  - destruct H as [_ H]. by rewrite H in Hc.
  - destruct H as (c0 & H1 & H2). destruct (decide (c0 = c)) as [->|Hne].
    + split_and!; [done..|]. by destruct (phase_of s c lk).
    + by rewrite H1 in Hc.
Qed.

Lemma phase_of_mine s c lk : lk ∈ mine s c → phase_of s c lk = PHeld.
Proof. intros. unfold phase_of. by rewrite decide_True. Qed.

Lemma holding_mine s c lk :
  smp_inv s → pc s c = Run → holding c lk (mc s) = bool_decide (lk ∈ mine s c).
Proof.
  intros [Hl _] Hpc. specialize (Hl lk). unfold holding.
  destruct (decide (lk ∈ mine s c)) as [Hm|Hm].
  - rewrite (bool_decide_true (lk ∈ mine s c)) by done.
    destruct (lock_inv_has s lk c) as (H1 & _ & H3); [done|by rewrite phase_of_mine|].
    rewrite H1, H3, phase_of_mine by done. simpl. by apply bool_decide_true.
  - rewrite (bool_decide_false (lk ∈ mine s c)) by done.
    assert (phase_of s c lk = PNone) as Hp.
    { unfold phase_of. by rewrite decide_False, Hpc by done. }
    unfold lock_inv in Hl. destruct (_ =? 0); [done|]. simpl.
    apply bool_decide_false. intros Hc. destruct Hl as (c0 & H1 & H2).
    rewrite Hc in H2. destruct (decide (c0 = c)) as [->|].
    + by rewrite Hp in H2.
    + destruct (phase_of s c0 lk); simplify_eq; done.
Qed.

(** Invariance under changing one processor's program point, held locks and
    cpu record, and the words of at most the lock [lk]. *)
Lemma smp_inv_update s s' c lk :
  smp_inv s →
  (∀ lk', lk' ≠ lk → locks (mc s') lk' = locks (mc s) lk') →
  (∀ c', c' ≠ c → cpus (mc s') c' = cpus (mc s) c' ∧ pc s' c' = pc s c' ∧ mine s' c' = mine s c') →
  (∀ lk', lk' ≠ lk → phase_of s' c lk' = phase_of s c lk') →
  lock_inv s' lk → cpu_inv s' c → smp_inv s'.
Proof.
  intros [Hl Hc] Hlk Hcp Hph Hi Hcpu. split.
  - intros lk'. destruct (decide (lk' = lk)) as [->|Hne]; [done|].
    apply (lock_inv_ext s); [by rewrite Hlk..| |done].
    intros c'. destruct (decide (c' = c)) as [->|Hc']; [by apply Hph|].
    unfold phase_of. by destruct (Hcp c' Hc') as (_ & -> & ->).
  - intros c'. destruct (decide (c' = c)) as [->|Hc']; [done|].
    unfold cpu_inv. destruct (Hcp c' Hc') as (-> & -> & ->). apply Hc.
Qed.

(** Other processors' share of [lk] after such a step. *)
Lemma phase_of_frame s s' c' lk :
  pc s' c' = pc s c' → mine s' c' = mine s c' → phase_of s' c' lk = phase_of s c' lk.
Proof. intros H1 H2. unfold phase_of. by rewrite H1, H2. Qed.

Ltac fn_simp :=
  repeat match goal with
  | |- context [(<[?c:=_]> _) ?c] => rewrite fn_lookup_insert
  | H : ?c' ≠ ?c |- context [(<[?c:=_]> _) ?c'] => rewrite fn_lookup_insert_ne by (clear -H; congruence)
  | H : ?c ≠ ?c' |- context [(<[?c:=_]> _) ?c'] => rewrite fn_lookup_insert_ne by (clear -H; congruence)
  end.

Lemma step_acquire_inv s c lk m' :
  smp_inv s → pc s c = Run → pushcli c (mc s) = Ret tt m' →
  smp_inv (mk_smp m' (<[c := if holding c lk m' then Panicked "acquire" else AcqSpin lk]> (pc s))
             (mine s)).
Proof.
  intros Hinv Hpc Hp. pose proof (holding_mine s c lk Hinv Hpc) as Hh.
  destruct (pushcli_ret c (mc s)) as (x & Hp' & Hx1 & Hx2). rewrite Hp in Hp'. simplify_eq.
  rewrite holding_set_cpu, Hh. pose proof Hinv as [Hl Hc].
  assert (∀ lk' m, phase_of (mk_smp m (<[c:=if bool_decide (lk ∈ mine s c) then
     Panicked "acquire" else AcqSpin lk]> (pc s)) (mine s)) c lk' = phase_of s c lk') as Hph.
  { intros. unfold phase_of. cbn. fn_simp. rewrite Hpc. by destruct (bool_decide _). }
  eapply (smp_inv_update s _ c lk); cbn; intros; fn_simp; auto.
  - apply (lock_inv_ext s); try done. intros c'.
    destruct (decide (c' = c)) as [->|]; [done|]. apply phase_of_frame; cbn; by fn_simp.
  - destruct (Hc c) as (Hnd & Hb & Hn & HIF & Hpos & Hpos2). rewrite Hpc in Hn, Hb. cbn in Hn.
    unfold cpu_inv. cbn. fn_simp. case_bool_decide; cbn;
      split_and!; auto; intros; simplify_eq; auto; lia.
Qed.

(** Solves the side conditions of [smp_inv_update] about untouched parts. *)
Ltac frame := cbn; intros; fn_simp; auto.

Lemma step_xchg1_inv s c lk old m' :
  smp_inv s → pc s c = AcqSpin lk → xchg lk 1 (mc s) = Ret old m' →
  smp_inv (mk_smp m' (<[c := if old =? 0 then AcqGot lk else AcqSpin lk]> (pc s)) (mine s)).
Proof.
  intros Hinv Hpc Hx. unfold xchg in Hx. simplify_eq. pose proof Hinv as [Hl Hc].
  specialize (Hl lk). destruct (Hc c) as (Hnd & Hb & Hn & HIF & Hpos & Hpos2).
  rewrite Hpc in Hb, Hn. specialize (Hb lk eq_refl). cbn in Hn.
  eapply (smp_inv_update s _ c lk); [done|frame|frame| | |].
  - intros lk' Hne. unfold phase_of. cbn. fn_simp. rewrite Hpc.
    case_decide; [done|]. destruct (_ =? 0); [|done]. by rewrite decide_False.
  - unfold lock_inv in *. cbn. fn_simp. cbn.
    destruct (locked (locks (mc s) lk) =? 0).
    + destruct Hl as [Hcpu Hno]. exists c. split.
      * intros c' Hne. rewrite <- (Hno c'). apply phase_of_frame; frame.
      * unfold phase_of. cbn. fn_simp. rewrite decide_False, decide_True by done. done.
    + destruct Hl as (c0 & H1 & H2).
      assert (∀ c' m, phase_of (mk_smp m (<[c:=AcqSpin lk]> (pc s)) (mine s)) c' lk
                = phase_of s c' lk) as Hph.
      { intros c'. destruct (decide (c' = c)) as [->|]; [|intros; apply phase_of_frame; frame].
        intros. unfold phase_of. cbn. fn_simp. by rewrite Hpc. }
      exists c0. rewrite Hph. split; [intros; rewrite Hph; auto|done].
  - unfold cpu_inv. cbn. fn_simp. destruct (_ =? 0); cbn;
      split_and!; auto; intros; simplify_eq; auto.
Qed.

Lemma step_setcpu_inv s c lk l :
  smp_inv s → pc s c = AcqGot lk →
  locked l = locked (locks (mc s) lk) → lcpu l = Some c →
  smp_inv (mk_smp (set_lock lk l (mc s)) (<[c := Run]> (pc s)) (<[c := lk :: mine s c]> (mine s))).
Proof.
  intros Hinv Hpc Hlk Hlc. pose proof Hinv as [Hl Hc].
  destruct (Hc c) as (Hnd & Hb & Hn & HIF & Hpos & Hpos2).
  rewrite Hpc in Hb, Hn. specialize (Hb lk eq_refl). cbn in Hn.
  destruct (lock_inv_has s lk c (Hl lk)) as (H1 & H2 & H3).
  { unfold phase_of. by rewrite decide_False, Hpc, decide_True by done. }
  eapply (smp_inv_update s _ c lk); [done|frame|frame| | |].
  - intros lk' Hne. unfold phase_of. cbn. fn_simp. rewrite Hpc.
    rewrite (decide_ext (lk' ∈ lk :: mine s c) (lk' ∈ mine s c)) by set_solver.
    case_decide; [done|]. by rewrite decide_False.
  - unfold lock_inv. cbn. fn_simp. rewrite Hlk, H1. exists c. split.
    + intros c' Hne. rewrite <- (H2 c' Hne). apply phase_of_frame; frame.
    + by rewrite phase_of_mine by (frame; left).
  - unfold cpu_inv. cbn. fn_simp. split_and!; auto; cbn in *; try lia.
    + by apply NoDup_cons.
    + done.
Qed.

Lemma step_release_inv s c lk :
  smp_inv s → pc s c = Run →
  smp_inv (if holding c lk (mc s)
           then mk_smp (mc s) (<[c := RelChecked lk]> (pc s)) (<[c := remove1 lk (mine s c)]> (mine s))
           else mk_smp (mc s) (<[c := Panicked "release"]> (pc s)) (mine s)).
Proof.
  intros Hinv Hpc. rewrite (holding_mine s c lk) by done. pose proof Hinv as [Hl Hc].
  destruct (Hc c) as (Hnd & Hb & Hn & HIF & Hpos & Hpos2).
  rewrite Hpc in Hn. cbn in Hn. case_bool_decide as Hm.
  - destruct (lock_inv_has s lk c (Hl lk)) as (H1 & H2 & H3); [by rewrite phase_of_mine|].
    rewrite phase_of_mine in H3 by done. pose proof (length_remove1 _ _ Hm) as Hlen.
    assert (lk ∉ remove1 lk (mine s c)) as Hrm by (rewrite remove1_elem by done; naive_solver).
    eapply (smp_inv_update s _ c lk); [done|frame|frame| | |].
    + intros lk' Hne. unfold phase_of. cbn. fn_simp. rewrite Hpc.
      rewrite (decide_ext (lk' ∈ remove1 lk (mine s c)) (lk' ∈ mine s c))
        by (rewrite remove1_elem by done; naive_solver).
      case_decide; [done|]. by rewrite decide_False.
    + unfold lock_inv. cbn. rewrite H1. exists c. split.
      * intros c' Hne. rewrite <- (H2 c' Hne). apply phase_of_frame; frame.
      * unfold phase_of. cbn. fn_simp. by rewrite decide_False, decide_True by done.
    + unfold cpu_inv. cbn. fn_simp. split_and!; auto; cbn; intros; simplify_eq; auto; try lia.
      by apply remove1_NoDup.
  - assert (∀ lk' : lockid, phase_of (mk_smp (mc s) (<[c:=Panicked "release"]> (pc s)) (mine s)) c lk'
              = phase_of s c lk') as Hph.
    { intros. unfold phase_of. cbn. fn_simp. by rewrite Hpc. }
    eapply (smp_inv_update s _ c lk); [done|frame|frame|done| |].
    + apply (lock_inv_ext s); try done. intros c'.
      destruct (decide (c' = c)) as [->|]; [done|]. apply phase_of_frame; frame.
    + unfold cpu_inv. cbn. fn_simp. split_and!; auto. cbn. done.
Qed.

Lemma step_clrcpu_inv s c lk l :
  smp_inv s → pc s c = RelChecked lk →
  locked l = locked (locks (mc s) lk) → lcpu l = None →
  smp_inv (mk_smp (set_lock lk l (mc s)) (<[c := RelCleared lk]> (pc s)) (mine s)).
Proof.
  intros Hinv Hpc Hlk Hlc. pose proof Hinv as [Hl Hc].
  destruct (Hc c) as (Hnd & Hb & Hn & HIF & Hpos & Hpos2).
  rewrite Hpc in Hb, Hn. specialize (Hb lk eq_refl). cbn in Hn.
  destruct (lock_inv_has s lk c (Hl lk)) as (H1 & H2 & H3).
  { unfold phase_of. by rewrite decide_False, Hpc, decide_True by done. }
  eapply (smp_inv_update s _ c lk); [done|frame|frame| | |].
  - intros lk' Hne. unfold phase_of. cbn. fn_simp. rewrite Hpc.
    case_decide; [done|]. by rewrite !decide_False.
  - unfold lock_inv. cbn. fn_simp. rewrite Hlk, H1. exists c. split.
    + intros c' Hne. rewrite <- (H2 c' Hne). apply phase_of_frame; frame.
    + unfold phase_of. cbn. fn_simp. by rewrite decide_False, decide_True by done.
  - unfold cpu_inv. cbn. fn_simp. split_and!; auto; cbn; intros; simplify_eq; auto.
Qed.

Lemma step_xchg0_inv s c lk old m' m'' :
  smp_inv s → pc s c = RelCleared lk → xchg lk 0 (mc s) = Ret old m' →
  popcli c m' = Ret tt m'' →
  smp_inv (mk_smp m'' (<[c := Run]> (pc s)) (mine s)).
Proof.
  intros Hinv Hpc Hx Hpop. unfold xchg in Hx. simplify_eq. pose proof Hinv as [Hl Hc].
  destruct (Hc c) as (Hnd & Hb & Hn & HIF & Hpos & Hpos2).
  rewrite Hpc in Hb, Hn. specialize (Hb lk eq_refl). cbn in Hn.
  destruct (lock_inv_has s lk c (Hl lk)) as (H1 & H2 & H3).
  { unfold phase_of. by rewrite decide_False, Hpc, decide_True by done. }
  destruct (popcli_ret c (set_lock lk (mk_spinlock 0 (lname (locks (mc s) lk))
     (lcpu (locks (mc s) lk)) (pcs (locks (mc s) lk))) (mc s))) as (x & Hp' & Hx1 & Hx2);
    [apply HIF; lia|cbn; lia|]. rewrite Hpop in Hp'. simplify_eq. cbn in Hx1.
  eapply (smp_inv_update s _ c lk); [done|frame|frame| | |].
  - intros lk' Hne. unfold phase_of. cbn. fn_simp. rewrite Hpc.
    case_decide; [done|]. by rewrite !decide_False.
  - unfold lock_inv. cbn. fn_simp. cbn. split.
    + rewrite H3. unfold phase_of. by rewrite decide_False, Hpc, decide_True by done.
    + intros c'. destruct (decide (c' = c)) as [->|Hne].
      * unfold phase_of. cbn. fn_simp. by rewrite decide_False.
      * rewrite <- (H2 c' Hne). apply phase_of_frame; frame.
  - unfold cpu_inv. cbn. fn_simp. split_and!; auto; cbn; try lia; try done.
    destruct (mine s c); [done|]. cbn in *. lia.
Qed.

Lemma step_inv s s' : smp_inv s → step s s' → smp_inv s'.
Proof.
  intros Hinv Hs. destruct Hs as [s c lk m' Hpc Hp|s c lk old m' Hpc Hx|s c lk v Hpc l
    |s c lk Hpc|s c lk Hpc l|s c lk old m' Hpc Hx|s c e Hpc Hn x].
  - by apply step_acquire_inv.
  - by eapply step_xchg1_inv.
  - by apply step_setcpu_inv.
  - by apply step_release_inv.
  - by apply step_clrcpu_inv.
  - pose proof Hinv as [_ Hc]. destruct (Hc c) as (_ & _ & Hn & HIF & _ & _).
    rewrite Hpc in Hn. cbn in Hn. pose proof Hx as Hx'. unfold xchg in Hx'. simplify_eq.
    edestruct (popcli_ret c) as (x & Hp' & _); [| |rewrite Hp'; by eapply step_xchg0_inv].
    + apply HIF. lia.
    + cbn. lia.
  - pose proof Hinv as [Hl Hc]. destruct (Hc c) as (Hnd & Hb & Hn' & HIF & Hpos & Hpos2).
    split.
    + intros lk. by apply (lock_inv_ext s).
    + intros c'. destruct (decide (c' = c)) as [->|].
      * rewrite Hpc in Hn'. unfold cpu_inv. cbn. fn_simp. subst x. rewrite Hpc. cbn in *.
        rewrite Hn in *. split_and!; auto; try lia. intros ? Hb'. by rewrite Hpc in Hb.
      * specialize (Hc c'). unfold cpu_inv in *. cbn. by fn_simp.
Qed.

(** Machines before any lock is taken. *)
Definition unlocked (m : mach) : Prop :=
  (∀ lk, locked (locks m lk) = 0 ∧ lcpu (locks m lk) = None) ∧ (∀ c, ncli (cpus m c) = 0).

Lemma smp_init_inv m : unlocked m → smp_inv (smp_init m).
Proof.
  intros [H1 H2]. split.
  - intros lk. destruct (H1 lk) as [Ha Hb]. unfold lock_inv. cbn. rewrite Ha. cbn.
    split; [done|]. intros c. unfold phase_of. cbn. by rewrite decide_False by set_solver.
  - intros c. unfold cpu_inv. cbn. rewrite H2. split_and!; try done.
    constructor.
Qed.

Lemma reachable_inv m s : unlocked m → rtc step (smp_init m) s → smp_inv s.
Proof.
  intros Hm Hr. remember (smp_init m) as s0 eqn:E. induction Hr; subst.
  - by apply smp_init_inv.
  - eapply rtc_ind_r; [|eauto using step_inv|eassumption].
    apply (step_inv (smp_init m)); [by apply smp_init_inv|done].
Qed.

(** ** Properties *)

(** C1: mutual exclusion. However acquire, release and the interrupt flag
    are interleaved on any number of processors, two processors never both
    stand between the return of acquire and the call of release of the same
    lock; while a processor does, the lock word is set, [holding] is true
    there, and interrupts are off on it. *)
Theorem spinlock_mutual_exclusion m s c1 c2 lk :
  unlocked m → rtc step (smp_init m) s →
  lk ∈ mine s c1 → lk ∈ mine s c2 →
  c1 = c2 ∧ locked (locks (mc s) lk) ≠ 0 ∧ lcpu (locks (mc s) lk) = Some c1 ∧
  Z.land (eflags (cpus (mc s) c1)) FL_IF = 0.
Proof.
  intros Hm Hr H1 H2. pose proof (reachable_inv m s Hm Hr) as [Hl Hc].
  destruct (lock_inv_has s lk c1 (Hl lk)) as (Hw & Hu & Hcpu); [by rewrite phase_of_mine|].
  rewrite phase_of_mine in Hcpu by done. bools. split_and!; [|done..|].
  - destruct (decide (c2 = c1)) as [|Hne]; [done|].
    specialize (Hu c2 Hne). by rewrite phase_of_mine in Hu.
  - destruct (Hc c1) as (_ & _ & _ & HIF & _ & Hpos). apply HIF, Hpos. by eapply elem_of_not_nil.
Qed.

Definition mach0 : mach :=
  mk_mach (λ _, mk_cpu 0 0 FL_IF) (λ _, mk_spinlock 0 "lock" None (replicate 10 0)) (λ _, 0).

(** Processor 0 takes the lock while processor 1 spins on it. *)
Definition run1 : smp :=
  mk_smp (set_cpu 0 (mk_cpu 1 FL_IF 0) mach0)
    (<[0%nat := AcqSpin Lptable]> (λ _, Run)) (λ _, []).
Definition run2 : smp :=
  mk_smp (set_cpu 1 (mk_cpu 1 FL_IF 0) (mc run1)) (<[1%nat := AcqSpin Lptable]> (pc run1)) (mine run1).
Definition run3 : smp :=
  mk_smp (set_lock Lptable (mk_spinlock 1 "lock" None (replicate 10 0)) (mc run2))
    (<[0%nat := AcqGot Lptable]> (pc run2)) (mine run2).
Definition run4 : smp :=
  mk_smp (set_lock Lptable (mk_spinlock 1 "lock" (Some 0%nat) (replicate 10 0)) (mc run3))
    (<[0%nat := Run]> (pc run3)) (<[0%nat := Lptable :: mine run3 0]> (mine run3)).

Lemma run4_reachable : rtc step (smp_init mach0) run4.
Proof.
  apply (rtc_l _ _ run1).
  { exact (step_acquire (smp_init mach0) 0 Lptable (mc run1) eq_refl eq_refl). }
  apply (rtc_l _ _ run2).
  { exact (step_acquire run1 1 Lptable (mc run2) eq_refl eq_refl). }
  apply (rtc_l _ _ run3).
  { exact (step_xchg1 run2 0 Lptable 0 (mc run3) eq_refl eq_refl). }
  apply rtc_once. exact (step_setcpu run3 0 Lptable 0 eq_refl).
Qed.

Lemma spinlock_mutual_exclusion_witness :
  Lptable ∈ mine run4 0 ∧ pc run4 1 = AcqSpin Lptable ∧ locked (locks (mc run4) Lptable) ≠ 0.
Proof.
  split; [left|]. split; [reflexivity|].
  refine (proj1 (proj2 (spinlock_mutual_exclusion mach0 run4 0 0 Lptable _ run4_reachable _ _))).
  - split; intros; try split; reflexivity.
  - left.
  - left.
Defined.

(** C40: spinlock.c implements the lock interface the components are verified
    against.  Related to the set [h] of locks its processor holds, acquire of
    a free lock outside [h] returns holding it as well, acquire of a held
    lock panics with "acquire", release of a held lock returns with the lock
    word clear and the others untouched, and release of a lock that is not
    held panics with "release". *)
Theorem spinlock_implements_interface c m h lk fuel v :
  lock_rel c m h →
  (lk ∉ h → locked (locks m lk) = 0 →
     ∃ m', spin_acquire (S fuel) c lk v m = Ret tt m' ∧ lock_rel c m' (lk :: h)) ∧
  (lk ∈ h → ∃ m', spin_acquire (S fuel) c lk v m = Panic "acquire" m') ∧
  (lk ∈ h → ∃ m', spin_release c lk m = Ret tt m' ∧ lock_rel c m' (remove1 lk h) ∧
     locked (locks m' lk) = 0 ∧ (∀ lk', lk' ≠ lk → locks m' lk' = locks m lk')) ∧
  (lk ∉ h → spin_release c lk m = Panic "release" m).
Proof.
  intros HR. split_and!; intros.
  - destruct (lock_rel_acquire c m h lk fuel v) as (m' & ? & ? & _); eauto.
  - eauto using spin_acquire_held.
  - eauto using lock_rel_release.
  - eauto using spin_release_unheld.
Qed.

Lemma spinlock_implements_interface_witness :
  ∃ m', spin_acquire 1 0 Lkmem 0 mach0 = Ret tt m' ∧ lock_rel 0 m' [Lkmem].
Proof.
  destruct (spinlock_implements_interface 0 mach0 [] Lkmem 0 0) as [H _].
  - split_and!; [constructor|intros lk; reflexivity|reflexivity|done].
  - apply H; [set_solver|reflexivity].
Defined.
