(* ===== verification/CString.v ===== *)
(** * Memory and the C string routines (string.c, the string instructions of x86.h)

    Memory is a total map from addresses to bytes.  Every routine is the loop
    of string.c on it, reading and writing byte by byte, so overlapping
    arguments behave as they do in the code.  Pointers are addresses that do
    not wrap around inside one object. *)
From S2P Require Import Prelude.

Local Open Scope Z_scope.

Abbreviation mem := (Z → Z).


(** Little-endian words. *)
Definition ld32 (m : mem) (a : Z) : Z :=
  m a + 256 * m (a + 1) + 65536 * m (a + 2) + 16777216 * m (a + 3).

Definition st32 (m : mem) (a v : Z) : mem :=
  <[a + 3 := u8 (v / 16777216)]> (<[a + 2 := u8 (v / 65536)]>
    (<[a + 1 := u8 (v / 256)]> (<[a := u8 v]> m))).

(** rep stosb / rep stosl *)
Fixpoint stosb (m : mem) (addr data : Z) (cnt : nat) : mem :=
  match cnt with
  | O => m
  | S k => stosb (<[addr := u8 data]> m) (addr + 1) data k
  end.

Fixpoint stosl (m : mem) (addr data : Z) (cnt : nat) : mem :=
  match cnt with
  | O => m
  | S k => stosl (st32 m addr data) (addr + 4) data k
  end.

Definition memset (m : mem) (dst c n : Z) : mem :=
  if (dst mod 4 =? 0) && (n mod 4 =? 0) then
    let c := Z.land c 255 in
    stosl m dst (Z.lor (Z.lor (Z.lor (Z.shiftl c 24) (Z.shiftl c 16)) (Z.shiftl c 8)) c)
      (Z.to_nat (n / 4))
  else stosb m dst c (Z.to_nat n).

Fixpoint memcmp_loop (m : mem) (s1 s2 : Z) (n : nat) : Z :=
  match n with
  | O => 0
  | S k => if m s1 =? m s2 then memcmp_loop m (s1 + 1) (s2 + 1) k else m s1 - m s2
  end.
Definition memcmp (m : mem) (v1 v2 n : Z) : Z := memcmp_loop m v1 v2 (Z.to_nat n).

(** The two copying loops of memmove: downwards and upwards. *)
Fixpoint move_down (m : mem) (d s : Z) (n : nat) : mem :=
  match n with
  | O => m
  | S k => move_down (<[d - 1 := m (s - 1)]> m) (d - 1) (s - 1) k
  end.
Fixpoint move_up (m : mem) (d s : Z) (n : nat) : mem :=
  match n with
  | O => m
  | S k => move_up (<[d := m s]> m) (d + 1) (s + 1) k
  end.
Definition memmove (m : mem) (dst src n : Z) : mem :=
  if (src <? dst) && (dst <? src + n) then move_down m (dst + n) (src + n) (Z.to_nat n)
  else move_up m dst src (Z.to_nat n).

Definition memcpy (m : mem) (dst src n : Z) : mem := memmove m dst src n.

Fixpoint strncmp_loop (m : mem) (p q : Z) (n : nat) : Z :=
  match n with
  | O => 0
  | S k =>
      if negb (m p =? 0) && (m p =? m q) then strncmp_loop m (p + 1) (q + 1) k
      else m p - m q
  end.
Definition strncmp (m : mem) (p q n : Z) : Z := strncmp_loop m p q (Z.to_nat n).

(** First loop of strncpy: the memory, the next byte of [s] to write and the
    count that is left for the zero filling loop. *)
Fixpoint strncpy_loop (m : mem) (s t : Z) (n : nat) : mem * Z * nat :=
  match n with
  | O => (m, s, O)
  | S k =>
      let c := m t in
      let m := <[s := c]> m in
      if c =? 0 then (m, s + 1, k) else strncpy_loop m (s + 1) (t + 1) k
  end.
Definition strncpy (m : mem) (s t n : Z) : mem :=
  let '(m, s, k) := strncpy_loop m s t (Z.to_nat n) in stosb m s 0 k.

(** The loop of safestrcpy, [n] the iterations it may still make. *)
Fixpoint safestrcpy_loop (m : mem) (s t : Z) (n : nat) : mem * Z :=
  match n with
  | O => (m, s)
  | S k =>
      let c := m t in
      let m := <[s := c]> m in
      if c =? 0 then (m, s + 1) else safestrcpy_loop m (s + 1) (t + 1) k
  end.
Definition safestrcpy (m : mem) (s t n : Z) : mem :=
  if n <=? 0 then m
  else let '(m, s) := safestrcpy_loop m s t (Z.to_nat (n - 1)) in <[s := 0]> m.

(** strlen; the fuel bounds the search for the terminating NUL. *)
Fixpoint strlen_loop (fuel : nat) (m : mem) (s n : Z) : option Z :=
  match fuel with
  | O => None
  | S k => if m (s + n) =? 0 then Some n else strlen_loop k m s (n + 1)
  end.
Definition strlen (fuel : nat) (m : mem) (s : Z) : option Z := strlen_loop fuel m s 0.

#[global] Arguments memset : simpl never.
#[global] Arguments memmove : simpl never.
#[global] Arguments strncpy : simpl never.
#[global] Arguments safestrcpy : simpl never.

(** ** Lemmas *)

Lemma mem_upd_ne (m : mem) a b v : b ≠ a → (<[a := v]> m : mem) b = m b.
Proof. intros. by rewrite fn_lookup_insert_ne. Qed.

Lemma stosb_spec m a d n x :
  stosb m a d n x = if (a <=? x) && (x <? a + Z.of_nat n) then u8 d else m x.
Proof.
  revert m a. induction n as [|n IH]; intros m a; cbn [stosb].
  - case_test; lia || done.
  - rewrite IH. repeat case_test; try lia; try done; try (apply mem_upd_ne; lia).
    assert (x = a) as -> by lia. apply fn_lookup_insert.
Qed.

Lemma st32_other m a v x : x < a ∨ a + 4 ≤ x → st32 m a v x = m x.
Proof. intros. unfold st32. rewrite !mem_upd_ne by lia. done. Qed.

Lemma st32_byte m a v i :
  0 ≤ i < 4 → st32 m a v (a + i) = u8 (v / 256 ^ i).
Proof.
  intros. unfold st32.
  assert (i = 0 ∨ i = 1 ∨ i = 2 ∨ i = 3) as [-> | [-> | [-> | ->]]] by lia.
  - rewrite Z.add_0_r, !mem_upd_ne, fn_lookup_insert, Z.pow_0_r, Z.div_1_r by lia. done.
  - by rewrite !mem_upd_ne, fn_lookup_insert by lia.
  - by rewrite !mem_upd_ne, fn_lookup_insert by lia.
  - by rewrite fn_lookup_insert.
Qed.

Lemma ld32_st32 m a v : ld32 (st32 m a v) a = u32 v.
Proof.
  unfold ld32. rewrite <- (Z.add_0_r a) at 2. rewrite !st32_byte by lia.
  unfold u8, u32, W32.
  change (256 ^ 0) with 1. change (256 ^ 1) with 256. change (256 ^ 2) with 65536.
  change (256 ^ 3) with 16777216. Z.div_mod_to_equations. lia.
Qed.

Lemma ld32_st32_ne m a b v : b + 4 ≤ a ∨ a + 4 ≤ b → ld32 (st32 m a v) b = ld32 m b.
Proof. intros. unfold ld32. rewrite !st32_other by lia. done. Qed.

Lemma stosl_spec m a d n x :
  stosl m a d n x =
    if (a <=? x) && (x <? a + 4 * Z.of_nat n) then u8 (d / 256 ^ ((x - a) mod 4)) else m x.
Proof.
  revert m a. induction n as [|n IH]; intros m a; cbn [stosl].
  - case_test; lia || done.
  - rewrite IH. repeat case_test; try lia; try done; try (apply st32_other; lia).
    + do 3 f_equal. Z.div_mod_to_equations. lia.
    + replace x with (a + (x - a)) at 1 by lia. rewrite st32_byte by lia.
      do 3 f_equal. Z.div_mod_to_equations. lia.
Qed.

(** The word memset stores holds four copies of the byte. *)
Definition splat (c : Z) : Z :=
  Z.lor (Z.lor (Z.lor (Z.shiftl c 24) (Z.shiftl c 16)) (Z.shiftl c 8)) c.

Lemma splat_eq c : 0 ≤ c < 256 → splat c = c * 16843009.
Proof.
  intros Hc.
  assert (Forall (λ c, splat c = c * 16843009) (seqZ 0 256)) as Hall.
  { apply (bool_decide_unpack _). vm_compute. exact I. }
  rewrite Forall_forall in Hall. apply Hall. apply elem_of_seqZ. lia.
Qed.

Lemma memset_spec m dst c n x :
  0 ≤ n → memset m dst c n x = if (dst <=? x) && (x <? dst + n) then u8 c else m x.
Proof.
  intros Hn. unfold memset. destruct ((dst mod 4 =? 0) && (n mod 4 =? 0)) eqn:E; bools.
  - fold (splat (Z.land c 255)). rewrite stosl_spec.
    change 255 with (Z.ones 8). rewrite Z.land_ones by lia. change (2 ^ 8) with 256.
    fold (u8 c). pose proof (u8_range c). rewrite splat_eq by lia.
    replace (4 * Z.of_nat (Z.to_nat (n / 4))) with n by (Z.div_mod_to_equations; lia).
    case_test; [|done..]. assert (0 ≤ (x - dst) mod 4 < 4) as Hi by (apply Z.mod_pos_bound; lia).
    generalize dependent ((x - dst) mod 4). intros i Hi.
    assert (i = 0 ∨ i = 1 ∨ i = 2 ∨ i = 3) as [-> | [-> | [-> | ->]]] by lia;
      [change (256 ^ 0) with 1|change (256 ^ 1) with 256|change (256 ^ 2) with 65536|
       change (256 ^ 3) with 16777216]; unfold u8 at 1; Z.div_mod_to_equations; lia.
  - rewrite stosb_spec. by rewrite Z2Nat.id.
  - rewrite stosb_spec. by rewrite Z2Nat.id.
Qed.

Lemma move_up_spec m d s n x :
  d ≤ s ∨ s + Z.of_nat n ≤ d →
  move_up m d s n x = if (d <=? x) && (x <? d + Z.of_nat n) then m (s + (x - d)) else m x.
Proof.
  revert m d s. induction n as [|n IH]; intros m d s Hd; cbn [move_up].
  - case_test; lia || done.
  - rewrite IH by lia. repeat case_test; try lia; try done.
    + rewrite mem_upd_ne by lia. f_equal. lia.
    + assert (x = d) as -> by lia. rewrite fn_lookup_insert. f_equal. lia.
    + rewrite mem_upd_ne by lia. done.
    + rewrite mem_upd_ne by lia. done.
Qed.

Lemma move_down_spec m d s n x :
  s ≤ d →
  move_down m d s n x =
    if (d - Z.of_nat n <=? x) && (x <? d) then m (s - (d - x)) else m x.
Proof.
  revert m d s. induction n as [|n IH]; intros m d s Hd; cbn [move_down].
  - case_test; lia || done.
  - rewrite IH by lia. repeat case_test; try lia; try done.
    + rewrite mem_upd_ne by lia. f_equal. lia.
    + rewrite mem_upd_ne by lia. done.
    + assert (x = d - 1) as -> by lia. rewrite fn_lookup_insert. f_equal. lia.
    + rewrite mem_upd_ne by lia. done.
Qed.

(** The string at [p], cut at [n] characters. *)
Fixpoint strn (m : mem) (p : Z) (n : nat) : list Z :=
  match n with
  | O => []
  | S k => if m p =? 0 then [] else m p :: strn m (p + 1) k
  end.

Lemma strn_ext m m' p q n :
  (∀ i, 0 ≤ i < Z.of_nat n → m' (q + i) = m (p + i)) → strn m' q n = strn m p n.
Proof.
  revert p q. induction n as [|n IH]; intros p q H; cbn [strn]; [done|].
  assert (m' q = m p) as -> by (specialize (H 0); rewrite !Z.add_0_r in H; apply H; lia).
  case_test; [done|]. f_equal. apply IH. intros i Hi.
  replace (q + 1 + i) with (q + (i + 1)) by lia. rewrite H by lia. f_equal. lia.
Qed.

Lemma strn_length m p n : (length (strn m p n) ≤ n)%nat.
Proof. revert p. induction n as [|n IH]; intros p; cbn [strn]; [done|]. case_test; cbn; [lia|]. specialize (IH (p+1)). lia. Qed.

(** After the string, before the bound, stands a NUL. *)
Lemma strn_nul m p n :
  (length (strn m p n) < n)%nat → m (p + Z.of_nat (length (strn m p n))) = 0.
Proof.
  revert p. induction n as [|n IH]; intros p; cbn [strn]; [lia|].
  case_test; cbn; intros Hl; [by rewrite Z.add_0_r|].
  rewrite <- (IH (p + 1)) by lia. f_equal. lia.
Qed.

Lemma strn_more m p n : (length (strn m p n) < n)%nat → strn m p n = strn m p (S n).
Proof.
  revert p. induction n as [|n IH]; intros p Hl; [cbn in Hl; lia|].
  change (strn m p (S (S n))) with (if m p =? 0 then [] else m p :: strn m (p + 1) (S n)).
  cbn [strn] in *. destruct (m p =? 0); [done|]. cbn in Hl. f_equal. apply IH. lia.
Qed.

Lemma strn_app m p n k :
  length (strn m p n) = n → strn m p (n + k) = strn m p n ++ strn m (p + Z.of_nat n) k.
Proof.
  revert p. induction n as [|n IH]; intros p; cbn [strn Nat.add]; [by rewrite Z.add_0_r|].
  case_test; cbn; [lia|]. intros Hl. f_equal. rewrite IH by lia. do 2 f_equal. lia.
Qed.

Lemma strncmp_loop_zero m p q n :
  strncmp_loop m p q n = 0 ↔ strn m p n = strn m q n.
Proof.
  revert p q. induction n as [|n IH]; intros p q; cbn [strncmp_loop strn]; [done|].
  destruct (Z.eqb_spec (m p) 0) as [Hp|Hp]; cbn.
  - rewrite Hp. destruct (Z.eqb_spec (m q) 0) as [->|]; [done|]. split; [lia|done].
  - destruct (Z.eqb_spec (m p) (m q)) as [Hq|Hq].
    + rewrite IH, <- Hq. destruct (Z.eqb_spec (m p) 0); [done|].
      split; [by intros ->|by intros [= ?]].
    + destruct (m q =? 0); (split; [lia|by intros [= ?]]).
Qed.

(** What strncpy leaves in memory, byte by byte. *)
Lemma strncpy_loop_spec m s t n x :
  s + Z.of_nat n ≤ t ∨ t + Z.of_nat n ≤ s →
  let '(m', s', k) := strncpy_loop m s t n in
  stosb m' s' 0 k x =
    if (s <=? x) && (x <? s + Z.of_nat n) then
      if x - s <? Z.of_nat (length (strn m t n)) then m (t + (x - s)) else 0
    else m x.
Proof.
  revert m s t. induction n as [|n IH]; intros m s t Hd; cbn [strncpy_loop strn].
  - cbn. case_test; lia || done.
  - destruct (Z.eqb_spec (m t) 0) as [E|E].
    + rewrite stosb_spec. cbn. repeat case_test; try lia; try done;
        try (rewrite mem_upd_ne by lia; done).
      assert (x = s) as -> by lia. rewrite fn_lookup_insert. done.
    + specialize (IH (<[s := m t]> m) (s + 1) (t + 1) ltac:(lia)).
      destruct (strncpy_loop _ _ _ _) as [[m' s'] k]. rewrite IH.
      rewrite (strn_ext m _ (t + 1)) by (intros; apply mem_upd_ne; lia).
      cbn [length]. repeat case_test; try lia; try done;
        try (rewrite mem_upd_ne by lia; done);
        try (rewrite mem_upd_ne by lia; f_equal; lia).
      assert (x = s) as -> by lia. rewrite fn_lookup_insert. f_equal. lia.
Qed.

Lemma strncpy_byte m s t n x :
  0 ≤ n → s + n ≤ t ∨ t + n ≤ s →
  strncpy m s t n x =
    if (s <=? x) && (x <? s + n) then
      if x - s <? Z.of_nat (length (strn m t (Z.to_nat n))) then m (t + (x - s)) else 0
    else m x.
Proof.
  intros Hn Hd. pose proof (strncpy_loop_spec m s t (Z.to_nat n) x ltac:(lia)) as H.
  unfold strncpy. destruct (strncpy_loop _ _ _ _) as [[m' s'] k]. rewrite H.
  by rewrite Z2Nat.id.
Qed.

(** Bytes equal to a string, with a NUL after it if it is short, read back as it. *)
Lemma strn_copy m m' s t n :
  let len := Z.of_nat (length (strn m t n)) in
  (∀ i, 0 ≤ i < len → m' (s + i) = m (t + i)) →
  (len < Z.of_nat n → m' (s + len) = 0) →
  strn m' s n = strn m t n.
Proof.
  cbn zeta. revert s t. induction n as [|n IH]; intros s t H Hz; cbn [strn]; [done|].
  cbn [strn] in *. destruct (Z.eqb_spec (m t) 0) as [E|E]; cbn [length] in *.
  - rewrite Z.add_0_r in Hz. by rewrite Hz by lia.
  - pose proof (H 0 ltac:(lia)) as H0. rewrite !Z.add_0_r in H0.
    rewrite H0, (proj2 (Z.eqb_neq _ _) E). f_equal. apply IH.
    + intros i Hi. specialize (H (i + 1) ltac:(lia)).
      replace (s + 1 + i) with (s + (i + 1)) by lia. rewrite H. f_equal. lia.
    + intros Hl. rewrite <- Hz by lia. f_equal. lia.
Qed.

Lemma safestrcpy_loop_spec m s t n x :
  s + Z.of_nat n < t ∨ t + Z.of_nat n ≤ s →
  let '(m', s') := safestrcpy_loop m s t n in
  let len := Z.of_nat (length (strn m t n)) in
  s' = s + len + (if len <? Z.of_nat n then 1 else 0) ∧
  (<[s' := 0]> m' : mem) x =
    if (s <=? x) && (x <=? s') then if x - s <? len then m (t + (x - s)) else 0 else m x.
Proof.
  revert m s t. induction n as [|n IH]; intros m s t Hd; cbn [safestrcpy_loop strn].
  - cbn. split; [case_test; lia|]. destruct (decide (x = s)) as [->|].
    + rewrite fn_lookup_insert. repeat case_test; lia || done.
    + rewrite mem_upd_ne by done. repeat case_test; lia || done.
  - destruct (Z.eqb_spec (m t) 0) as [E|E].
    + cbn. split; [case_test; lia|]. destruct (decide (x = s + 1)) as [->|].
      * rewrite fn_lookup_insert. repeat case_test; lia || done.
      * rewrite mem_upd_ne by done. destruct (decide (x = s)) as [->|].
        -- rewrite fn_lookup_insert. repeat case_test; lia || done.
        -- rewrite mem_upd_ne by done. repeat case_test; lia || done.
    + specialize (IH (<[s := m t]> m) (s + 1) (t + 1) ltac:(lia)).
      destruct (safestrcpy_loop _ _ _ _) as [m' s'].
      rewrite (strn_ext m _ (t + 1)) in IH by (intros; apply mem_upd_ne; lia).
      cbn zeta in IH. destruct IH as [Hs' ->]. cbn [length].
      split; [rewrite Hs'; repeat case_test; lia|].
      assert (s + 1 + Z.of_nat (length (strn m (t + 1) n)) ≤ s' ≤ s + 1 + Z.of_nat n)
        by (pose proof (strn_length m (t + 1) n); rewrite Hs'; case_test; lia).
      clear Hs'.
      destruct (decide (x = s)) as [->|].
      * rewrite fn_lookup_insert. rewrite Z.sub_diag, Z.add_0_r.
        repeat case_test; lia || done.
      * repeat case_test; try lia; try done;
          rewrite mem_upd_ne by lia; done || (f_equal; lia).
Qed.

(** Every byte of memory after memmove, overlapping regions included. *)
Lemma memmove_bytes m dst src n x :
  memmove m dst src n x =
    if (dst <=? x) && (x <? dst + n) then m (src + (x - dst)) else m x.
Proof.
  unfold memmove. destruct (_ && _) eqn:E; bools.
  - rewrite move_down_spec by lia. rewrite Z2Nat.id by lia.
    repeat case_test; try lia; try done. f_equal. lia.
  - rewrite move_up_spec by lia. repeat case_test; try lia; done.
  - destruct (decide (n ≤ 0)).
    + replace (Z.to_nat n) with 0%nat by lia. cbn. case_test; lia || done.
    + rewrite move_up_spec by lia. rewrite Z2Nat.id by lia. done.
Qed.

(** ** Properties *)

(** Memmove copies correctly whether or not the two regions overlap: each
    byte of the destination gets the byte the source had before the call, and
    no other byte of memory changes. *)
Theorem memmove_correct m dst src n x :
  memmove m dst src n x =
    if (dst <=? x) && (x <? dst + n) then m (src + (x - dst)) else m x.
Proof. apply memmove_bytes. Qed.

(** Safestrcpy never writes outside the [n] bytes of its destination,
    always leaves it NUL-terminated within them, and what it leaves there is
    the source string cut at [n - 1] characters. *)
Theorem safestrcpy_correct m s t n :
  0 < n → s + n ≤ t ∨ t + n ≤ s →
  let m' := safestrcpy m s t n in
  let k := Z.of_nat (length (strn m t (Z.to_nat (n - 1)))) in
  k < n ∧ m' (s + k) = 0 ∧
  strn m' s (Z.to_nat n) = strn m t (Z.to_nat (n - 1)) ∧
  (∀ x, x < s ∨ s + n ≤ x → m' x = m x).
Proof.
  intros Hn Hd m' k. unfold m', safestrcpy in *. destruct (Z.leb_spec n 0); [lia|].
  pose proof (λ x, safestrcpy_loop_spec m s t (Z.to_nat (n - 1)) x ltac:(lia)) as H1.
  pose proof (strn_length m t (Z.to_nat (n - 1))) as Hlen.
  destruct (safestrcpy_loop _ _ _ _) as [m1 s1]. cbn zeta in H1. fold k in H1.
  destruct (H1 0) as [Hs _]. rewrite Z2Nat.id in Hs by lia.
  assert (k < n ∧ s + k ≤ s1 ≤ s + k + 1 ∧ s1 < s + n) as (Hk & Hs1 & Hs2)
    by (destruct (Z.ltb_spec k (n - 1)); lia).
  split_and!; [done| | |].
  - destruct (H1 (s + k)) as [_ ->]. repeat case_test; lia || done.
  - assert (m1' : ∀ i, 0 ≤ i ≤ k → (<[s1:=0]> m1 : mem) (s + i) = if i <? k then m (t + i) else 0).
    { intros i Hi. destruct (H1 (s + i)) as [_ ->]. replace (s + i - s) with i by lia.
      repeat case_test; lia || done. }
    assert (strn (<[s1:=0]> m1) s (Z.to_nat (n - 1)) = strn m t (Z.to_nat (n - 1))) as Hcp.
    { apply strn_copy; fold k.
      - intros i Hi. rewrite m1' by lia. case_test; lia || done.
      - intros. rewrite m1' by lia. case_test; lia || done. }
    rewrite <- Hcp. destruct (decide (k < n - 1)).
    + replace (Z.to_nat n) with (S (Z.to_nat (n - 1))) by lia. symmetry. apply strn_more.
      rewrite Hcp. fold k. lia.
    + replace (Z.to_nat n) with (Z.to_nat (n - 1) + 1)%nat by lia.
      rewrite strn_app by (rewrite Hcp; lia). cbn [strn].
      rewrite Z2Nat.id by lia. replace (s + (n - 1)) with (s + k) by lia.
      rewrite m1' by lia. rewrite Z.ltb_irrefl. by rewrite app_nil_r.
  - intros x Hx. destruct (H1 x) as [_ ->]. repeat case_test; lia || done.
Qed.

Lemma safestrcpy_correct_witness :
  let m : mem := λ x, if (100 <=? x) && (x <? 110) then 65 else 0 in
  safestrcpy m 0 100 4 3 = 0 ∧ strn (safestrcpy m 0 100 4) 0 4 = [65; 65; 65].
Proof.
  intros m. destruct (safestrcpy_correct m 0 100 4) as (_ & H1 & H2 & _); [lia|lia|].
  split; [exact H1|exact H2].
Defined.

(** Comparing with strncmp against a name written with strncpy finds
    exactly that name: after [strncpy(s, t, n)], [strncmp(s, u, n)] is zero
    precisely for the strings [u] that agree with [t] up to the NUL or [n]
    characters. Directory entries (fs.c's dirlink and namecmp) rest on this. *)
Theorem strncpy_strncmp m s t u n :
  0 ≤ n → s + n ≤ t ∨ t + n ≤ s → s + n ≤ u ∨ u + n ≤ s →
  strncmp (strncpy m s t n) s u n = 0 ↔ strn m t (Z.to_nat n) = strn m u (Z.to_nat n).
Proof.
  intros Hn Ht Hu. unfold strncmp. rewrite strncmp_loop_zero.
  pose proof (strn_length m t (Z.to_nat n)) as Hl.
  rewrite (strn_copy m (strncpy m s t n) s t), (strn_ext m (strncpy m s t n) u u); [done| | |].
  - intros i Hi. rewrite strncpy_byte by lia. case_test; lia || done.
  - intros i Hi. rewrite strncpy_byte by lia. repeat case_test; try lia. f_equal. lia.
  - intros Hi. rewrite strncpy_byte by lia. repeat case_test; lia || done.
Qed.

Lemma strncpy_strncmp_witness :
  let m : mem := λ x, if (100 <=? x) && (x <? 103) then 65 else 0 in
  strncmp (strncpy m 0 100 14) 0 100 14 = 0 ∧ strncmp (strncpy m 0 100 14) 0 101 14 ≠ 0.
Proof.
  intros m. split.
  - apply (strncpy_strncmp m 0 100 100 14); [lia|lia|lia|done].
  - intros H. apply (strncpy_strncmp m 0 100 101 14) in H; [|lia..]. vm_compute in H. discriminate H.
Defined.
