(* ===== verification/Format.v ===== *)
(** * Formatted output of the kernel (console.c: printint, cprintf)

    [format] is the sequence of characters cprintf passes to consputc for a
    format string and the words that follow it on the stack; [cstr] gives the
    C string at an address.  [decimal] reads a number back. *)
From S2P Require Import Prelude.

Local Open Scope Z_scope.

Definition chars (s : string) : list Z :=
  (λ a, Z.of_nat (Ascii.nat_of_ascii a)) <$> String.list_ascii_of_string s.

Definition text (l : list Z) : string :=
  String.string_of_list_ascii ((λ c, Ascii.ascii_of_nat (Z.to_nat (u8 c))) <$> l).

Definition lower_digits : list Z := chars "0123456789abcdef".

(** The digits in the order they are put into [buf], which has 16 bytes. *)
Fixpoint int_digits (n : nat) (digits : list Z) (x base : Z) : list Z :=
  match n with
  | O => []
  | S n =>
      default 0 (digits !! Z.to_nat (x mod base)) ::
      (if x / base =? 0 then [] else int_digits n digits (x / base) base)
  end.

Definition printint (xx base : Z) (sign : bool) : list Z :=
  let neg := sign && (xx <? 0) in
  let x := if neg then u32 (- xx) else u32 xx in
  reverse (int_digits 16 lower_digits x base ++ if neg then [45] else []).

Section format.
  Variable cstr : Z → list Z.
  Variable argp : nat → Z.

(** [k] counts the arguments taken so far. *)
Fixpoint format (k : nat) (fmt : list Z) : list Z :=
  match fmt with
  | [] => []
  | c :: fmt =>
      if negb (c =? 37) then c :: format k fmt
      else
        match fmt with
        | [] => []
        | c :: fmt =>
            if c =? 100 then printint (s32 (argp k)) 10 true ++ format (S k) fmt                    (* %d *)
            else if (c =? 120) || (c =? 112) then printint (s32 (argp k)) 16 false ++ format (S k) fmt  (* %x %p *)
            else if c =? 115 then                                                                  (* %s *)
              (if argp k =? 0 then chars "(null)" else cstr (argp k)) ++ format (S k) fmt
            else if c =? 37 then 37 :: format k fmt
            else 37 :: c :: format k fmt
        end
  end.

End format.

(** ** Numbers *)

(** The value of a string of decimal digits, continuing from [n]. *)
Fixpoint decimal (n : Z) (l : list Z) : Z :=
  match l with
  | [] => n
  | c :: l => decimal (10 * n + (c - 48)) l
  end.

Lemma decimal_app n l1 l2 : decimal n (l1 ++ l2) = decimal (decimal n l1) l2.
Proof. revert n. induction l1 as [|c l1 IH]; intros n; cbn; [done|apply IH]. Qed.

Lemma int_digits_decimal n digits x :
  (∀ i, 0 ≤ i < 10 → digits !! Z.to_nat i = Some (48 + i)) → 0 ≤ x < 10 ^ Z.of_nat (S n) →
  let l := reverse (int_digits (S n) digits x 10) in
  decimal 0 l = x ∧ Forall (λ c, 48 ≤ c ≤ 57) l ∧ l ≠ [].
Proof.
  intros Hd. revert x. induction n as [|n IH]; intros x Hx l;
    pose proof (Z.mod_pos_bound x 10 ltac:(lia)) as Hm; pose proof (Z.div_mod x 10 ltac:(lia)) as Hdm.
  - assert (x / 10 = 0) as Hq by (apply Z.div_small; cbn in Hx; lia).
    subst l. cbn [int_digits]. rewrite Hq, Hd by done. cbn. split_and!; [lia| |done].
    constructor; [cbn; lia|constructor].
  - assert (0 ≤ x / 10 < 10 ^ Z.of_nat (S n)) as Hq.
    { rewrite (Nat2Z.inj_succ (S n)), Z.pow_succ_r in Hx by lia. split; [apply Z.div_pos; lia|].
      apply Z.div_lt_upper_bound; lia. }
    destruct (IH _ Hq) as (H1 & H2 & H3). subst l. cbn [int_digits] in H1, H2, H3 |- *. rewrite Hd by done.
    change (default 0 (Some (48 + x mod 10))) with (48 + x mod 10).
    destruct (x / 10 =? 0) eqn:E; bools.
    + cbn. split_and!; [lia| |done]. constructor; [lia|constructor].
    + rewrite reverse_cons, decimal_app. rewrite H1. cbn [decimal]. split_and!; [lia| |].
      * apply Forall_app. split; [done|]. constructor; [lia|constructor].
      * intros Hn. by apply app_eq_nil in Hn as [_ ?].
Qed.
