(* ===== verification/Kalloc.v ===== *)
(** * The physical page allocator (kalloc.c)

    The allocator's state is the memory, the [kmem] struct and the locks the
    processor holds.  The free list is threaded through the free pages
    themselves, so it is read from and written to the byte memory.  [chain]
    relates it to a list of page addresses, and the theorems show that the
    operations are the obvious ones on that list, that a page is never handed
    out twice, and that [freerange] frees exactly the whole pages of a range.
    The address of the end of the kernel image ([end] of kernel.ld) is a
    variable. *)
From S2P Require Import Prelude Kernel CString Spinlock.

Local Open Scope Z_scope.
Local Open Scope kernel_scope.

Definition PGSIZE : Z := 4096.          (* mmu.h *)
Definition PHYSTOP : Z := 234881024.    (* memlayout.h: 0xE000000 *)

Definition v2p (a : Z) : Z := u32 (a - KERNBASE).
Definition p2v (a : Z) : Z := u32 (a + KERNBASE).

Definition PGROUNDUP (sz : Z) : Z := Z.land (u32 (sz + PGSIZE - 1)) (Z.lnot (PGSIZE - 1)).
Definition PGROUNDDOWN (a : Z) : Z := Z.land a (Z.lnot (PGSIZE - 1)).

(** [kmem], the memory it manages, the locks of this processor and what
    cprintf has printed (the latest message first). *)
Record kst := mk_kst {
  kheld : lockst;
  kram : mem;
  use_lock : Z;
  freelist : Z;
  kout : list string
}.

Definition set_kheld h s := mk_kst h (kram s) (use_lock s) (freelist s) (kout s).
Definition set_kram r s := mk_kst (kheld s) r (use_lock s) (freelist s) (kout s).
Definition set_use_lock u s := mk_kst (kheld s) (kram s) u (freelist s) (kout s).
Definition set_freelist f s := mk_kst (kheld s) (kram s) (use_lock s) f (kout s).
Definition with_newline (msg : string) : string := String.append msg (String (Ascii.ascii_of_nat 10) EmptyString).
Definition cprintf (msg : string) : M kst unit :=
  modify (λ s, mk_kst (kheld s) (kram s) (use_lock s) (freelist s) (msg :: kout s)).

Definition kacquire (lk : lockid) : M kst unit := zoom kheld set_kheld (acquire lk).
Definition krelease (lk : lockid) : M kst unit := zoom kheld set_kheld (release lk).

Section kalloc.
  Variable kend : Z.   (* extern char end[] *)

Definition kfree (v : Z) : M kst unit :=
  when (negb (v mod PGSIZE =? 0) || (v <? kend) || (PHYSTOP <=? v2p v)) do panic "kfree";;
  modify (λ s, set_kram (memset (kram s) v 1 PGSIZE) s);;
  u <- gets use_lock;;
  when (negb (u =? 0)) do kacquire Lkmem;;
  modify (λ s, set_freelist v (set_kram (st32 (kram s) v (freelist s)) s));;
  u <- gets use_lock;;
  when (negb (u =? 0)) do krelease Lkmem.

Definition kalloc : M kst Z :=
  u <- gets use_lock;;
  when (negb (u =? 0)) do kacquire Lkmem;;
  r <- gets freelist;;
  when (negb (r =? 0)) do modify (λ s, set_freelist (ld32 (kram s) r) s);;
  u <- gets use_lock;;
  when (negb (u =? 0)) do krelease Lkmem;;
  ret r.

(** The loop of freerange; every iteration frees a page below [vend], so
    [vend / PGSIZE] bounds the number of iterations. *)
Fixpoint freerange_loop (fuel : nat) (p vend : Z) : M kst unit :=
  match fuel with
  | O => nofuel
  | S k =>
      if p +u PGSIZE <=? vend then kfree p;; freerange_loop k (p +u PGSIZE) vend
      else ret tt
  end.

Definition freerange (vstart vend : Z) : M kst unit :=
  freerange_loop (Z.to_nat (vend / PGSIZE + 1)) (PGROUNDUP vstart) vend.

(** [initlock] only names the lock; no processor holds it yet. *)
Definition kinit1 (vstart vend : Z) : M kst unit :=
  modify (set_use_lock 0);; freerange vstart vend.

Definition kinit2 (vstart vend : Z) : M kst unit :=
  freerange vstart vend;; modify (set_use_lock 1).

(** ** The abstract free list *)

(** The addresses kfree accepts. *)
Definition page_ok (p : Z) : Prop :=
  p mod PGSIZE = 0 ∧ kend ≤ p ∧ KERNBASE ≤ p < KERNBASE + PHYSTOP.

(** The pages linked from [a] through the first word of each. *)
Fixpoint chain (m : mem) (a : Z) (l : list Z) : Prop :=
  match l with
  | [] => a = 0
  | p :: l => a = p ∧ chain m (ld32 m p) l
  end.

Definition free_rel (s : kst) (l : list Z) : Prop :=
  chain (kram s) (freelist s) l ∧ NoDup l ∧ Forall page_ok l.

(** The lock is not held by this processor, so that it can be taken. *)
Definition kunlocked (s : kst) : Prop := use_lock s = 0 ∨ Lkmem ∉ kheld s.

Definition in_page (p x : Z) : Prop := p ≤ x < p + PGSIZE.

Lemma page_ok_check p :
  page_ok p ↔ 0 ≤ p < W32 ∧
    negb (p mod PGSIZE =? 0) || (p <? kend) || (PHYSTOP <=? v2p p) = false.
Proof.
  unfold page_ok, v2p, u32, PHYSTOP, KERNBASE, W32. split.
  - intros (Hm & Hk & Hp). split; [lia|]. rewrite Hm. cbn.
    apply orb_false_intro; [apply Z.ltb_ge; lia|]. apply Z.leb_gt. rewrite Z.mod_small; lia.
  - intros [Hr H]. bools. split_and!; [done|lia|..];
      Z.div_mod_to_equations; lia.
Qed.

Lemma page_ok_nonzero p : page_ok p → (p =? 0) = false.
Proof. unfold page_ok, KERNBASE. rewrite Z.eqb_neq. lia. Qed.

Lemma pages_disjoint p q :
  p mod PGSIZE = 0 → q mod PGSIZE = 0 → p ≠ q → p + PGSIZE ≤ q ∨ q + PGSIZE ≤ p.
Proof. unfold PGSIZE. intros. Z.div_mod_to_equations. lia. Qed.

Lemma chain_frame m m' a l :
  (∀ p, p ∈ l → ld32 m' p = ld32 m p) → chain m a l → chain m' a l.
Proof.
  revert a. induction l as [|p l IH]; intros a H; cbn; [done|].
  intros [-> Hc]. split; [done|]. rewrite H by set_solver. apply IH; set_solver.
Qed.

Lemma ld32_ext m m' a : (∀ x, a ≤ x < a + 4 → m' x = m x) → ld32 m' a = ld32 m a.
Proof. intros H. unfold ld32. by rewrite !H by lia. Qed.

(** A change of memory that leaves the free pages alone keeps the free list. *)
Lemma free_rel_frame s r l :
  (∀ p x, p ∈ l → in_page p x → r x = kram s x) →
  free_rel s l → free_rel (set_kram r s) l.
Proof.
  intros H (Hc & Hn & Hp). split_and!; [|done..]. cbn.
  eapply chain_frame; [|done]. intros p Hin. apply ld32_ext. intros x Hx.
  apply (H p); [done|]. unfold in_page, PGSIZE. lia.
Qed.

Lemma kacquire_ok lk s : lk ∉ kheld s → kacquire lk s = Ret tt (set_kheld (lk :: kheld s) s).
Proof. intros. unfold kacquire, zoom. by rewrite acquire_ok. Qed.

Lemma krelease_ok lk s h : kheld s = lk :: h → krelease lk s = Ret tt (set_kheld h s).
Proof. intros E. unfold krelease, zoom. by rewrite E, release_head. Qed.

(** The state kfree leaves: the junk-filled page pushed on the list. *)
Definition freed (v : Z) (s : kst) : kst :=
  mk_kst (kheld s) (st32 (memset (kram s) v 1 PGSIZE) v (freelist s)) (use_lock s) v (kout s).

Lemma kfree_run v s : page_ok v → kunlocked s → kfree v s = Ret tt (freed v s).
Proof.
  intros [_ Hc]%page_ok_check Hl. unfold kfree, freed, bind. rewrite Hc.
  destruct s as [h r u f o]. cbn in *.
  destruct (Z.eqb_spec u 0) as [->|Hu]; cbn; [done|].
  rewrite kacquire_ok by (destruct Hl; naive_solver). cbn.
  rewrite (proj2 (Z.eqb_neq _ _) Hu). cbn.
  by rewrite (krelease_ok _ _ h).
Qed.

Lemma kalloc_run s :
  kunlocked s →
  kalloc s = Ret (freelist s)
    (if freelist s =? 0 then s else set_freelist (ld32 (kram s) (freelist s)) s).
Proof.
  intros Hl. unfold kalloc, bind. cbn. destruct s as [h r u f o]. cbn in *.
  destruct (Z.eqb_spec u 0) as [->|Hu]; cbn.
  { by destruct (Z.eqb_spec f 0). }
  rewrite kacquire_ok by (destruct Hl; naive_solver). cbn.
  destruct (Z.eqb_spec f 0); cbn; rewrite (proj2 (Z.eqb_neq _ _) Hu); cbn;
    by rewrite (krelease_ok _ _ h).
Qed.

Lemma freed_other v s x : ¬ in_page v x → kram (freed v s) x = kram s x.
Proof.
  unfold in_page, PGSIZE. intros Hx. cbn. rewrite st32_other by lia.
  rewrite memset_spec by (unfold PGSIZE; lia). unfold PGSIZE. case_test; lia || done.
Qed.

Lemma free_rel_freed v s l :
  page_ok v → v ∉ l → freelist s < W32 → 0 ≤ freelist s →
  free_rel s l → free_rel (freed v s) (v :: l).
Proof.
  intros Hv Hnin Hf1 Hf2 (Hc & Hn & Hp). split_and!; cbn.
  - split; [done|]. rewrite ld32_st32, u32_small by lia.
    eapply chain_frame; [|done]. intros p Hin. apply ld32_ext. intros x Hx.
    change (kram (freed v s) x = kram s x). apply freed_other.
    rewrite Forall_forall in Hp. specialize (Hp _ Hin).
    destruct Hv as (Hv & _), Hp as (Hp & _).
    pose proof (pages_disjoint p v Hp Hv ltac:(set_solver)). unfold in_page, PGSIZE in *. lia.
  - by constructor.
  - by constructor.
Qed.

Lemma free_rel_head s l : free_rel s l → 0 ≤ freelist s < W32.
Proof.
  intros (Hc & _ & Hp). destruct l as [|p l]; cbn in Hc; [unfold W32; lia|].
  destruct Hc as [-> _]. inversion Hp as [|? ? H]; subst. unfold page_ok, KERNBASE, PHYSTOP, W32 in *. lia.
Qed.

(** kfree pushes on the abstract list, kalloc pops from it. *)
Lemma kfree_ok v s l :
  page_ok v → v ∉ l → kunlocked s → free_rel s l →
  kfree v s = Ret tt (freed v s) ∧ free_rel (freed v s) (v :: l).
Proof.
  intros Hv Hn Hl Hr. split; [by apply kfree_run|].
  pose proof (free_rel_head _ _ Hr). apply free_rel_freed; try done; lia.
Qed.

Lemma kalloc_ok s l :
  kunlocked s → free_rel s l →
  ∃ s', kalloc s = Ret (default 0 (head l)) s' ∧ free_rel s' (tail l) ∧
    kram s' = kram s ∧ kheld s' = kheld s ∧ use_lock s' = use_lock s.
Proof.
  intros Hl (Hc & Hn & Hp). rewrite kalloc_run by done. destruct l as [|p l]; cbn in *.
  - rewrite Hc. cbn. exists s. split_and!; done.
  - destruct Hc as [-> Hc]. inversion Hp; inversion Hn; subst.
    rewrite page_ok_nonzero by done. eexists. split_and!; done.
Qed.

(** ** Clients of the allocator *)

(** The kernel as a client: it allocates pages, writes to pages it has
    allocated and not freed, and frees such pages. *)
Inductive client_step : kst * list Z → kst * list Z → Prop :=
| cl_alloc s s' p owned :
    kalloc s = Ret p s' →
    client_step (s, owned) (s', if p =? 0 then owned else p :: owned)
| cl_free s s' p owned1 owned2 :
    kfree p s = Ret tt s' →
    client_step (s, owned1 ++ p :: owned2) (s', owned1 ++ owned2)
| cl_write s x v p owned :
    p ∈ owned → in_page p x →
    client_step (s, owned) (set_kram (<[x := v]> (kram s)) s, owned).

(** The pages of a start state are either free or owned, for ever. *)
Definition client_inv (pages : list Z) (c : kst * list Z) : Prop :=
  kunlocked c.1 ∧ NoDup pages ∧ Forall page_ok pages ∧
  ∃ l, free_rel c.1 l ∧ c.2 ++ l ≡ₚ pages.

Lemma client_inv_step pages c c' :
  client_inv pages c → client_step c c' → client_inv pages c'.
Proof.
  intros (Hl & Hn & Hp & l & Hr & Hperm) Hs. destruct Hs as [s s' p owned E|s s' p o1 o2 E|s x v p owned Hin Hx]; cbn [fst snd] in *.
  - destruct (kalloc_ok s l Hl Hr) as (s1 & E1 & Hr1 & Hm & Hh & Hu).
    rewrite E in E1. simplify_eq. split_and!; [|done|done|].
    { unfold kunlocked in *. cbn. by rewrite Hh, Hu. }
    exists (tail l). split; [done|]. cbn. destruct l as [|q l]; cbn; [done|].
    destruct Hr as (_ & _ & Hp'). inversion Hp' as [|? ? Hq]; subst.
    rewrite page_ok_nonzero by done. by rewrite <- Hperm, <- Permutation_middle.
  - assert (page_ok p) as Hpp.
    { rewrite Forall_forall in Hp. apply Hp. rewrite <- Hperm. set_solver. }
    assert (p ∉ l) as Hpl.
    { rewrite <- Hperm in Hn. rewrite NoDup_app in Hn. destruct Hn as (_ & Hd & _). apply Hd. set_solver. }
    destruct (kfree_ok p s l Hpp Hpl Hl Hr) as (E1 & Hr1). rewrite E in E1. simplify_eq.
    split_and!; [done|done|done|]. exists (p :: l). split; [done|]. rewrite <- Hperm. cbn.
    rewrite <- !app_assoc. cbn. by rewrite <- !Permutation_middle.
  - split_and!; [done..|]. exists l. split; [|done]. apply free_rel_frame; [|done].
    intros q y Hq Hy. apply mem_upd_ne. intros ->.
    rewrite <- Hperm in Hn, Hp. rewrite Forall_forall in Hp.
    rewrite NoDup_app in Hn. destruct Hn as (_ & Hd & _).
    assert (p ≠ q) as Hpq by (intros ->; exact (Hd _ Hin Hq)).
    destruct (Hp p) as (Hp1 & _); [set_solver|]. destruct (Hp q) as (Hq1 & _); [set_solver|].
    pose proof (pages_disjoint _ _ Hp1 Hq1 Hpq). unfold in_page in *. lia.
Qed.

Lemma client_inv_run pages c c' :
  client_inv pages c → rtc client_step c c' → client_inv pages c'.
Proof. intros H Hs. induction Hs; eauto using client_inv_step. Qed.

(** ** freerange *)

Lemma PGROUNDDOWN_eq a : PGROUNDDOWN a = a / PGSIZE * PGSIZE.
Proof.
  unfold PGROUNDDOWN, PGSIZE. rewrite <- Z.ldiff_land. change (4096 - 1) with (Z.ones 12).
  rewrite Z.ldiff_ones_r by lia. rewrite Z.shiftr_div_pow2, Z.shiftl_mul_pow2 by lia. done.
Qed.

Lemma PGROUNDUP_eq sz :
  0 ≤ sz → sz + PGSIZE - 1 < W32 → PGROUNDUP sz = (sz + PGSIZE - 1) / PGSIZE * PGSIZE.
Proof.
  intros. unfold PGROUNDUP. rewrite u32_small by (unfold PGSIZE in *; lia). apply PGROUNDDOWN_eq.
Qed.

(** The page addresses from [p] upwards, [n] of them. *)
Definition pages_from (p : Z) (n : nat) : list Z :=
  (λ i, p + PGSIZE * Z.of_nat i) <$> seq 0 n.

Lemma pages_from_S p n : pages_from p (S n) = p :: pages_from (p + PGSIZE) n.
Proof.
  unfold pages_from. cbn [seq fmap list_fmap]. f_equal; [lia|].
  rewrite <- seq_shift, <- list_fmap_compose. apply list_fmap_ext. intros. cbn. lia.
Qed.

Lemma elem_of_pages_from p n x :
  x ∈ pages_from p n ↔ ∃ i, (i < n)%nat ∧ x = p + PGSIZE * Z.of_nat i.
Proof.
  unfold pages_from. rewrite list_elem_of_fmap. split.
  - intros (i & -> & Hi%elem_of_seq). exists i. split; [lia|done].
  - intros (i & Hi & ->). exists i. split; [done|]. apply elem_of_seq. lia.
Qed.

Lemma freerange_loop_ok fuel n p vend s l :
  (n < fuel)%nat → p mod PGSIZE = 0 → kend ≤ p → KERNBASE ≤ p →
  vend ≤ KERNBASE + PHYSTOP → Z.of_nat n = Z.max 0 ((vend - p) / PGSIZE) →
  p ≤ KERNBASE + PHYSTOP →
  kunlocked s → free_rel s l → (∀ x, x ∈ pages_from p n → x ∉ l) →
  ∃ s', freerange_loop fuel p vend s = Ret tt s' ∧
    free_rel s' (reverse (pages_from p n) ++ l) ∧ kunlocked s' ∧
    kheld s' = kheld s ∧ use_lock s' = use_lock s ∧ ∀ x, x < p → kram s' x = kram s x.
Proof.
  revert fuel p s l. induction n as [|n IH]; intros fuel p s l Hf Hm Hk Hb Hv Hn Ht Hl Hr Hd;
    (destruct fuel as [|fuel]; [lia|]); cbn [freerange_loop];
    rewrite (u32_small (p + _)) by (unfold KERNBASE, PHYSTOP, PGSIZE, W32 in *; lia).
  - case_test; [unfold PGSIZE in *; Z.div_mod_to_equations; lia|]. exists s. split_and!; done.
  - case_test; [|unfold PGSIZE in *; Z.div_mod_to_equations; lia].
    rewrite pages_from_S in *. unfold bind.
    assert (page_ok p) as Hp
      by (unfold page_ok, PGSIZE in *; split_and!; lia).
    destruct (kfree_ok p s l) as [-> Hr']; [done|set_solver|done|done|]. cbn [obind].
    destruct (IH fuel (p + PGSIZE) (freed p s) (p :: l)) as (s' & -> & Hr'' & Hl' & Hh & Hu & Hx).
    + lia.
    + unfold PGSIZE in *. Z.div_mod_to_equations. lia.
    + unfold PGSIZE. lia.
    + unfold PGSIZE. lia.
    + done.
    + unfold PGSIZE in *. Z.div_mod_to_equations. lia.
    + unfold KERNBASE, PHYSTOP, PGSIZE in *. lia.
    + done.
    + done.
    + intros x Hx. pose proof Hx as (i & Hi & ->)%elem_of_pages_from.
      apply not_elem_of_cons. split; [unfold PGSIZE; lia|]. apply Hd. set_solver.
    + exists s'. split_and!; [done| |done|done|done|].
      * by rewrite reverse_cons, <- app_assoc.
      * intros x Hlt. rewrite Hx by (unfold PGSIZE; lia). apply freed_other. unfold in_page. lia.
Qed.

End kalloc.

#[global] Arguments kalloc : simpl never.
#[global] Arguments kfree : simpl never.
#[global] Arguments kacquire : simpl never.
#[global] Arguments krelease : simpl never.

(** ** Properties *)

Section properties.
  Variable kend : Z.

(** Freerange puts exactly the whole pages between its arguments on the
    free list (the last one first), whatever is there already, changes nothing
    below them, and returns. *)
Theorem freerange_frees_range vstart vend s l :
  KERNBASE ≤ kend ≤ vstart → vstart ≤ vend ≤ KERNBASE + PHYSTOP →
  let p := PGROUNDUP vstart in
  let n := Z.to_nat ((vend - p) / PGSIZE) in
  kunlocked s → free_rel kend s l → (∀ x, x ∈ l → x < p ∨ vend < x + PGSIZE) →
  ∃ s', freerange kend vstart vend s = Ret tt s' ∧
    free_rel kend s' (reverse (pages_from p n) ++ l) ∧ kheld s' = kheld s ∧ use_lock s' = use_lock s ∧
    ∀ x, x < p → kram s' x = kram s x.
Proof.
  intros Hk Hv p n Hl Hr Hd.
  assert (p = (vstart + PGSIZE - 1) / PGSIZE * PGSIZE) as Ep
    by (apply PGROUNDUP_eq; unfold KERNBASE, PHYSTOP, PGSIZE, W32 in *; lia).
  assert (vstart ≤ p < vstart + PGSIZE ∧ p mod PGSIZE = 0 ∧ p ≤ KERNBASE + PHYSTOP) as (? & ? & ?).
  { rewrite Ep. unfold KERNBASE, PHYSTOP, PGSIZE in *. Z.div_mod_to_equations. lia. }
  destruct (freerange_loop_ok kend (Z.to_nat (vend / PGSIZE + 1)) n p vend s l)
    as (s' & E & Hr' & _ & Hh & Hu & Hx); try done; try lia.
  - unfold n, KERNBASE, PGSIZE in *. Z.div_mod_to_equations. lia.
  - intros x (i & Hi & ->)%elem_of_pages_from Hin. apply Hd in Hin.
    unfold n, PGSIZE in *. Z.div_mod_to_equations. lia.
  - exists s'. split_and!; done.
Qed.

(** C11: a page is never handed out twice.  From any state whose free list
    holds [pages], whatever the kernel allocates, writes and frees: the pages
    it owns stay distinct pages of that list, no write of the kernel to a page
    it owns disturbs the allocator, and the next kalloc returns a page it does
    not own, or 0 exactly when it owns them all. *)
Theorem kalloc_exclusive s0 pages s owned :
  kunlocked s0 → free_rel kend s0 pages →
  rtc (client_step kend) (s0, []) (s, owned) →
  NoDup owned ∧ owned ⊆ pages ∧
  ∃ p s', kalloc s = Ret p s' ∧
    (p = 0 ∧ owned ≡ₚ pages ∨ p ≠ 0 ∧ p ∈ pages ∧ p ∉ owned).
Proof.
  intros Hl Hr Hs. pose proof Hr as (_ & Hn & Hp).
  destruct (client_inv_run kend pages (s0, []) (s, owned)) as (Hl' & _ & _ & l & Hr' & Hperm);
    [|done|].
  { split_and!; try done. exists pages. split; done. }
  cbn in *. destruct (kalloc_ok kend s l Hl' Hr') as (s' & E & _).
  assert (NoDup (owned ++ l)) as (Ho & Hd & _)%NoDup_app by by rewrite Hperm.
  split_and!; [done| |].
  - intros x Hx. rewrite <- Hperm. set_solver.
  - exists (default 0 (head l)), s'. split; [done|]. destruct l as [|p l]; cbn.
    + left. rewrite app_nil_r in Hperm. done.
    + right. destruct Hr' as (_ & _ & Hp'). inversion Hp' as [|? ? Hq]; subst.
      pose proof (page_ok_nonzero _ _ Hq). bools. split_and!; [done| |].
      * rewrite <- Hperm. set_solver.
      * intros Hin. apply (Hd _ Hin). set_solver.
Qed.

End properties.

Definition kst0 : kst := mk_kst [] (λ _, 0) 0 0 [].
Definition kst1 : kst := mk_kst [] (λ _, 0) 1 KERNBASE [].

Lemma freerange_frees_range_witness :
  ∃ s', freerange KERNBASE (KERNBASE + 1) (KERNBASE + 12288) kst0 = Ret tt s' ∧
    free_rel KERNBASE s' [KERNBASE + 8192; KERNBASE + 4096].
Proof.
  destruct (freerange_frees_range KERNBASE (KERNBASE + 1) (KERNBASE + 12288) kst0 [])
    as (s' & E & Hr & _).
  - unfold KERNBASE. lia.
  - unfold KERNBASE, PHYSTOP. lia.
  - by left.
  - split_and!; [done|constructor|constructor].
  - intros x Hx. inversion Hx.
  - exists s'. split; [exact E|exact Hr].
Defined.

Lemma kalloc_exclusive_witness :
  ∃ p s', kalloc (set_freelist 0 kst1) = Ret p s' ∧
    (p = 0 ∧ [KERNBASE] ≡ₚ [KERNBASE] ∨ p ≠ 0 ∧ p ∈ [KERNBASE] ∧ p ∉ [KERNBASE]).
Proof.
  destruct (kalloc_exclusive KERNBASE kst1 [KERNBASE] (set_freelist 0 kst1) [KERNBASE])
    as (_ & _ & H).
  - right. apply not_elem_of_nil.
  - split_and!; [done|apply NoDup_singleton|]. constructor; [|constructor].
    split_and!; [done|unfold KERNBASE; lia|unfold KERNBASE; lia|unfold KERNBASE, PHYSTOP; lia].
  - apply rtc_once. exact (cl_alloc KERNBASE kst1 (set_freelist 0 kst1) KERNBASE [] eq_refl).
  - exact H.
Defined.
