(* ===== verification/Vm.v ===== *)
(** * Page tables and user address spaces (vm.c)

    Page directories and page tables are pages of the byte memory, walked and
    written word by word as the code does.  [pte_at] is the translation the
    MMU performs.  An address space is described by the pages it owns: its
    directory, its page tables ([T], by directory index) and its user pages
    ([U], by virtual page number); [as_inv] ties them to the memory.  The
    theorems show what mappages, allocuvm, deallocuvm, freevm and copyout do
    to the translation and which pages they take from and give back to the
    allocator.  The linker symbols [end] and [data] are variables.  loaduvm
    reads an inode and is modelled with exec; switchuvm and switchkvm set
    processor registers and are modelled with the scheduler. *)
From S2P Require Import Prelude Kernel CString Spinlock Kalloc.

Local Open Scope Z_scope.
Local Open Scope kernel_scope.

Definition PTE_P : Z := 1.
Definition PTE_W : Z := 2.
Definition PTE_U : Z := 4.
Definition NPDENTRIES : Z := 1024.
Definition NPTENTRIES : Z := 1024.
Definition EXTMEM : Z := 1048576.          (* 0x100000 *)
Definition DEVSPACE : Z := 4261412864.     (* 0xFE000000 *)
Definition KERNLINK : Z := KERNBASE + EXTMEM.

Definition PDX (va : Z) : Z := Z.land (Z.shiftr va 22) 1023.
Definition PTX (va : Z) : Z := Z.land (Z.shiftr va 12) 1023.
Definition PTE_ADDR (pte : Z) : Z := Z.land pte (Z.lnot 4095).
Definition PTE_FLAGS (pte : Z) : Z := Z.land pte 4095.

Definition loadw (a : Z) : M kst Z := gets (λ s, ld32 (kram s) a).
Definition storew (a v : Z) : M kst unit := modify (λ s, set_kram (st32 (kram s) a v) s).
Definition kmemset (a c n : Z) : M kst unit := modify (λ s, set_kram (memset (kram s) a c n) s).
Definition kmemmove (d a n : Z) : M kst unit := modify (λ s, set_kram (memmove (kram s) d a n) s).

Definition has (flag e : Z) : bool := negb (Z.land e flag =? 0).

Definition walkpgdir (pgdir va alloc : Z) : M kst Z :=
  let pde := pgdir +u 4 * PDX va in
  e <- loadw pde;;
  if has PTE_P e then
    let pgtab := p2v (PTE_ADDR e) in ret (pgtab +u 4 * PTX va)
  else if alloc =? 0 then ret 0
  else
    pgtab <- kalloc;;
    if pgtab =? 0 then ret 0
    else
      kmemset pgtab 0 PGSIZE;;
      storew pde (Z.lor (Z.lor (Z.lor (v2p pgtab) PTE_P) PTE_W) PTE_U);;
      ret (pgtab +u 4 * PTX va).

(** The loop of mappages, from [a] to [last]. *)
Fixpoint mappages_loop (fuel : nat) (pgdir a last pa perm : Z) : M kst Z :=
  match fuel with
  | O => nofuel
  | S k =>
      pte <- walkpgdir pgdir a 1;;
      if pte =? 0 then ret (-1)
      else
        e <- loadw pte;;
        if has PTE_P e then panic "remap"
        else
          storew pte (Z.lor (Z.lor pa perm) PTE_P);;
          if a =? last then ret 0
          else mappages_loop k pgdir (a +u PGSIZE) last (pa +u PGSIZE) perm
  end.

(** It runs once per page, wrapping around the address space if it must. *)
Definition mappages (pgdir va size pa perm : Z) : M kst Z :=
  let a := PGROUNDDOWN va in
  let last := PGROUNDDOWN (u32 (va + size - 1)) in
  mappages_loop (Z.to_nat (u32 (last - a) / PGSIZE + 1)) pgdir a last pa perm.

Section vm.
  Variable kend : Z.   (* extern char end[] *)
  Variable data : Z.   (* extern char data[] *)

Record kmap_entry := mk_kmap { virt : Z; phys_start : Z; phys_end : Z; kperm : Z }.

Definition kmap : list kmap_entry :=
  [ mk_kmap KERNBASE 0 EXTMEM PTE_W;
    mk_kmap KERNLINK (v2p KERNLINK) (v2p data) 0;
    mk_kmap data (v2p data) PHYSTOP PTE_W;
    mk_kmap DEVSPACE DEVSPACE 0 PTE_W ].

Fixpoint setupkvm_loop (ks : list kmap_entry) (pgdir : Z) : M kst Z :=
  match ks with
  | [] => ret pgdir
  | k :: ks =>
      r <- mappages pgdir (virt k) (phys_end k -u phys_start k) (phys_start k) (kperm k);;
      if r <? 0 then ret 0 else setupkvm_loop ks pgdir
  end.

Definition setupkvm : M kst Z :=
  pgdir <- kalloc;;
  if pgdir =? 0 then ret 0
  else
    kmemset pgdir 0 PGSIZE;;
    when (DEVSPACE <? p2v PHYSTOP) do panic "PHYSTOP too high";;
    setupkvm_loop kmap pgdir.

(** [init] is the address of the initcode binary. *)
Definition inituvm (pgdir init sz : Z) : M kst unit :=
  when (PGSIZE <=? sz) do panic "inituvm: more than a page";;
  mem <- kalloc;;
  kmemset mem 0 PGSIZE;;
  mappages pgdir 0 PGSIZE (v2p mem) (Z.lor PTE_W PTE_U);;
  kmemmove mem init sz.

Fixpoint deallocuvm_loop (fuel : nat) (pgdir a oldsz : Z) : M kst unit :=
  match fuel with
  | O => nofuel
  | S k =>
      if a <? oldsz then
        pte <- walkpgdir pgdir a 0;;
        if pte =? 0 then
          deallocuvm_loop k pgdir (a +u (NPTENTRIES - 1) * PGSIZE +u PGSIZE) oldsz
        else
          e <- loadw pte;;
          (if has PTE_P e then
             let pa := PTE_ADDR e in
             when (pa =? 0) do panic "kfree";;
             kfree kend (p2v pa);;
             storew pte 0
           else ret tt);;
          deallocuvm_loop k pgdir (a +u PGSIZE) oldsz
      else ret tt
  end.

(** [a] grows by a page at least, so [oldsz / PGSIZE + 1] steps are enough. *)
Definition deallocuvm (pgdir oldsz newsz : Z) : M kst Z :=
  if oldsz <=? newsz then ret oldsz
  else
    deallocuvm_loop (Z.to_nat (oldsz / PGSIZE + 2)) pgdir (PGROUNDUP newsz) oldsz;;
    ret newsz.

Fixpoint allocuvm_loop (fuel : nat) (pgdir a oldsz newsz : Z) : M kst Z :=
  match fuel with
  | O => nofuel
  | S k =>
      if a <? newsz then
        mem <- kalloc;;
        if mem =? 0 then
          cprintf (with_newline "allocuvm out of memory");;
          deallocuvm pgdir newsz oldsz;;
          ret 0
        else
          kmemset mem 0 PGSIZE;;
          mappages pgdir a PGSIZE (v2p mem) (Z.lor PTE_W PTE_U);;
          allocuvm_loop k pgdir (a +u PGSIZE) oldsz newsz
      else ret newsz
  end.

Definition allocuvm (pgdir oldsz newsz : Z) : M kst Z :=
  if KERNBASE <=? newsz then ret 0
  else if newsz <? oldsz then ret oldsz
  else allocuvm_loop (Z.to_nat (newsz / PGSIZE + 2)) pgdir (PGROUNDUP oldsz) oldsz newsz.

Fixpoint freevm_loop (n : nat) (pgdir i : Z) : M kst unit :=
  match n with
  | O => ret tt
  | S n =>
      e <- loadw (pgdir +u 4 * i);;
      (if has PTE_P e then kfree kend (p2v (PTE_ADDR e)) else ret tt);;
      freevm_loop n pgdir (i + 1)
  end.

Definition freevm (pgdir : Z) : M kst unit :=
  when (pgdir =? 0) do panic "freevm: no pgdir";;
  deallocuvm pgdir KERNBASE 0;;
  freevm_loop (Z.to_nat NPDENTRIES) pgdir 0;;
  kfree kend pgdir.

Definition clearpteu (pgdir uva : Z) : M kst unit :=
  pte <- walkpgdir pgdir uva 0;;
  when (pte =? 0) do panic "clearpteu";;
  e <- loadw pte;;
  storew pte (Z.land e (u32 (Z.lnot PTE_U))).

(** copyuvm's loop answers whether it ran to its end; otherwise the code
    jumps to [bad]. *)
Fixpoint copyuvm_loop (fuel : nat) (pgdir d i sz : Z) : M kst bool :=
  match fuel with
  | O => nofuel
  | S k =>
      if i <? sz then
        pte <- walkpgdir pgdir i 0;;
        when (pte =? 0) do panic "copyuvm: pte should exist";;
        e <- loadw pte;;
        when (negb (has PTE_P e)) do panic "copyuvm: page not present";;
        let pa := PTE_ADDR e in
        let flags := PTE_FLAGS e in
        mem <- kalloc;;
        if mem =? 0 then ret false
        else
          kmemmove mem (p2v pa) PGSIZE;;
          r <- mappages d i PGSIZE (v2p mem) flags;;
          if r <? 0 then ret false
          else copyuvm_loop k pgdir d (i +u PGSIZE) sz
      else ret true
  end.

Definition copyuvm (pgdir sz : Z) : M kst Z :=
  d <- setupkvm;;
  if d =? 0 then ret 0
  else
    ok <- copyuvm_loop (Z.to_nat (sz / PGSIZE + 2)) pgdir d 0 sz;;
    if ok : bool then ret d else freevm d;; ret 0.

End vm.

(** A null [pte] is dereferenced as the code does: the word at address 0. *)
Definition uva2ka (pgdir uva : Z) : M kst Z :=
  pte <- walkpgdir pgdir uva 0;;
  e <- loadw pte;;
  if negb (has PTE_P e) then ret 0
  else if negb (has PTE_U e) then ret 0
  else ret (p2v (PTE_ADDR e)).

Fixpoint copyout_loop (fuel : nat) (pgdir va buf len : Z) : M kst Z :=
  match fuel with
  | O => nofuel
  | S k =>
      if 0 <? len then
        let va0 := PGROUNDDOWN va in
        pa0 <- uva2ka pgdir va0;;
        if pa0 =? 0 then ret (-1)
        else
          let n := PGSIZE -u (va - va0) in
          let n := if len <? n then len else n in
          kmemmove (pa0 +u (va - va0)) buf n;;
          copyout_loop k pgdir (va0 +u PGSIZE) (buf +u n) (len -u n)
      else ret 0
  end.

(** Each iteration but the first starts at a page boundary. *)
Definition copyout (pgdir va p len : Z) : M kst Z :=
  copyout_loop (Z.to_nat (len / PGSIZE + 3)) pgdir va p len.

#[global] Arguments walkpgdir : simpl never.
#[global] Arguments mappages : simpl never.
#[global] Arguments deallocuvm : simpl never.
#[global] Arguments uva2ka : simpl never.

#[local] Opaque memset memmove st32.

(** ** Words and addresses *)

Lemma land_ones_mod e k : 0 ≤ k → Z.land e (Z.ones k) = e mod 2 ^ k.
Proof. intros. by rewrite Z.land_ones. Qed.

Lemma PDX_eq va : 0 ≤ va < W32 → PDX va = va / 4194304.
Proof.
  intros. unfold PDX. change 1023 with (Z.ones 10). rewrite Z.land_ones, Z.shiftr_div_pow2 by lia.
  change (2 ^ 22) with 4194304. change (2 ^ 10) with 1024. unfold W32 in *.
  apply Z.mod_small. Z.div_mod_to_equations. lia.
Qed.

Lemma PTX_eq va : PTX va = va / 4096 mod 1024.
Proof.
  unfold PTX. change 1023 with (Z.ones 10). rewrite Z.land_ones, Z.shiftr_div_pow2 by lia. done.
Qed.

Lemma PTE_ADDR_eq e : PTE_ADDR e = e / 4096 * 4096.
Proof. apply PGROUNDDOWN_eq. Qed.

Lemma PTE_FLAGS_eq e : PTE_FLAGS e = e mod 4096.
Proof. unfold PTE_FLAGS. change 4095 with (Z.ones 12). by rewrite Z.land_ones. Qed.

Lemma has_P e : has PTE_P e = Z.odd e.
Proof.
  unfold has, PTE_P. change 1 with (Z.ones 1). rewrite Z.land_ones by lia.
  rewrite Zmod_odd. by destruct (Z.odd e).
Qed.

Lemma land_page_flags a f : a mod 4096 = 0 → 0 ≤ f < 4096 → Z.land a f = 0.
Proof.
  intros Ha Hf. apply Z.bits_inj'. intros k Hk. rewrite Z.land_spec, Z.bits_0.
  destruct (decide (k < 12)).
  - replace a with (a / 4096 * 2 ^ 12) by (change (2 ^ 12) with 4096; Z.div_mod_to_equations; lia).
    rewrite Z.mul_pow2_bits_low by lia. done.
  - replace f with (f mod 2 ^ 12) by (apply Z.mod_small; lia).
    rewrite Z.mod_pow2_bits_high by lia. apply andb_false_r.
Qed.

Lemma lor_flags a f : a mod 4096 = 0 → 0 ≤ f < 4096 → Z.lor a f = a + f.
Proof.
  intros. rewrite <- Z.lxor_lor, Z.add_nocarry_lxor by (by apply land_page_flags). done.
Qed.

(** ** Address spaces *)

Section spaces.
  Variable kend : Z.

Lemma v2p_page p : page_ok kend p → v2p p = p - KERNBASE.
Proof.
  unfold page_ok, v2p, KERNBASE, PHYSTOP. intros. apply u32_small. unfold W32. lia.
Qed.

Lemma page_roundtrip p f : page_ok kend p → 0 ≤ f < 4096 → p2v (PTE_ADDR (v2p p + f)) = p.
Proof.
  intros Hp Hf. rewrite v2p_page, PTE_ADDR_eq by done. unfold page_ok, PGSIZE in Hp.
  assert ((p - KERNBASE + f) / 4096 * 4096 = p - KERNBASE) as ->.
  { unfold KERNBASE in *. Z.div_mod_to_equations. lia. }
  unfold p2v. rewrite u32_small; unfold KERNBASE, PHYSTOP, W32 in *; lia.
Qed.

(** The MMU's translation of a virtual address: its page table entry, if the
    page is present. *)
Definition pte_at (m : mem) (pgdir va : Z) : option Z :=
  let e := ld32 m (pgdir + 4 * PDX va) in
  if has PTE_P e then
    let pte := ld32 m (p2v (PTE_ADDR e) + 4 * PTX va) in
    if has PTE_P pte then Some pte else None
  else None.

(** What the memory holds of a page directory: [T] gives the page table of a
    directory index, [E] the entry of a virtual page number. *)
Definition pt_rel (m : mem) (dir : Z) (T : gmap Z Z) (E : Z → Z) : Prop :=
  (∀ i, 0 ≤ i < 1024 →
    match T !! i with
    | Some t => ld32 m (dir + 4 * i) = v2p t + 7
    | None => Z.odd (ld32 m (dir + 4 * i)) = false
    end) ∧
  (∀ n, 0 ≤ n < 1048576 →
    match T !! (n / 1024) with
    | Some t => ld32 m (t + 4 * (n mod 1024)) = E n
    | None => E n = 0
    end).

(** The pages of a map, in some order. *)
Definition vals (T : gmap Z Z) : list Z := (map_to_list T).*2.

Definition pt_inv (s : kst) (l : list Z) (dir : Z) (T : gmap Z Z) (E : Z → Z) : Prop :=
  kunlocked s ∧ free_rel kend s l ∧ NoDup (dir :: vals T ++ l) ∧
  Forall (page_ok kend) (dir :: vals T) ∧ pt_rel (kram s) dir T E ∧
  (∀ i t, T !! i = Some t → 0 ≤ i < 1024).

Lemma vals_insert T i t : T !! i = None → vals (<[i := t]> T) ≡ₚ t :: vals T.
Proof. intros H. unfold vals. by rewrite map_to_list_insert. Qed.

Lemma vals_delete T i t : T !! i = Some t → vals T ≡ₚ t :: vals (delete i T).
Proof.
  intros H. rewrite <- (insert_delete_id T i t) at 1 by done.
  apply vals_insert, lookup_delete_eq.
Qed.

Lemma elem_of_vals T i t : T !! i = Some t → t ∈ vals T.
Proof. intros H. rewrite vals_delete by done. set_solver. Qed.

Lemma elem_of_vals_inv T t : t ∈ vals T → ∃ i, T !! i = Some t.
Proof.
  unfold vals. intros ([i t'] & -> & H%elem_of_map_to_list)%list_elem_of_fmap. by exists i.
Qed.

(** Memory that changed only inside the page [p]. *)
Definition only_page (p : Z) (m m' : mem) : Prop := ∀ x, ¬ in_page p x → m' x = m x.

Lemma only_page_word p q m m' k :
  only_page p m m' → p mod PGSIZE = 0 → q mod PGSIZE = 0 → p ≠ q → 0 ≤ k < 1024 →
  ld32 m' (q + 4 * k) = ld32 m (q + 4 * k).
Proof.
  intros Ho Hp Hq Hne Hk. apply ld32_ext. intros x Hx. apply Ho.
  pose proof (pages_disjoint _ _ Hp Hq Hne). unfold in_page, PGSIZE in *. lia.
Qed.

Lemma only_page_st32 m p k v :
  0 ≤ k < 1024 → only_page p m (st32 m (p + 4 * k) v).
Proof. intros Hk x Hx. apply st32_other. unfold in_page, PGSIZE in *. lia. Qed.

Lemma only_page_memset m p c : only_page p m (memset m p c PGSIZE).
Proof.
  intros x Hx. rewrite memset_spec by (unfold PGSIZE; lia).
  unfold in_page, PGSIZE in *. case_test; lia || done.
Qed.

Lemma only_page_trans p m1 m2 m3 :
  only_page p m1 m2 → only_page p m2 m3 → only_page p m1 m3.
Proof. intros H1 H2 x Hx. rewrite H2, H1; done. Qed.

(** A write to a page that is neither the directory nor a table. *)
Lemma pt_rel_frame m m' dir T E p :
  only_page p m m' → Forall (page_ok kend) (dir :: vals T) → p mod PGSIZE = 0 →
  p ≠ dir → p ∉ vals T → pt_rel m dir T E → pt_rel m' dir T E.
Proof.
  intros Ho Hok Hp Hd Ht [H1 H2]. inversion Hok as [|? ? (Hdm & _) Hokt]; subst.
  rewrite Forall_forall in Hokt. split.
  - intros i Hi. specialize (H1 i Hi). rewrite (only_page_word p dir m m') by done.
    done.
  - intros n Hn. specialize (H2 n Hn). destruct (T !! (n / 1024)) as [t|] eqn:Et; [|done].
    pose proof (elem_of_vals _ _ _ Et) as Hin.
    rewrite (only_page_word p t m m'); [done|done|done|by apply Hokt|set_solver|].
    Z.div_mod_to_equations. lia.
Qed.

Lemma free_rel_only_page s l p m' :
  only_page p (kram s) m' → p mod PGSIZE = 0 → p ∉ l →
  free_rel kend s l → free_rel kend (set_kram m' s) l.
Proof.
  intros Ho Hp Hn Hr. apply free_rel_frame; [|done]. intros q x Hq Hx. apply Ho.
  destruct Hr as (_ & _ & Hok). rewrite Forall_forall in Hok. destruct (Hok q Hq) as (Hq' & _).
  pose proof (pages_disjoint p q Hp Hq' ltac:(set_solver)). unfold in_page in *. lia.
Qed.

Lemma PDX_range va : 0 ≤ PDX va < 1024.
Proof.
  unfold PDX. change 1023 with (Z.ones 10). rewrite Z.land_ones by lia.
  apply Z.mod_pos_bound. lia.
Qed.

Lemma PTX_range va : 0 ≤ PTX va < 1024.
Proof. rewrite PTX_eq. apply Z.mod_pos_bound. lia. Qed.

Lemma page_word_u32 p k : page_ok kend p → 0 ≤ k < 1024 → p +u 4 * k = p + 4 * k.
Proof.
  intros Hp Hk. apply u32_small. unfold page_ok, KERNBASE, PHYSTOP, W32 in *. lia.
Qed.

Lemma odd_page a f : a mod PGSIZE = 0 → Z.odd (a + f) = Z.odd f.
Proof.
  intros Ha. rewrite Z.odd_add. assert (Z.odd a = false) as ->; [|by rewrite xorb_false_l].
  rewrite <- Z.negb_even. apply negb_false_iff, Z.even_spec. exists (a / 2).
  unfold PGSIZE in Ha. Z.div_mod_to_equations. lia.
Qed.

Lemma odd_lor_P f : Z.odd (Z.lor f PTE_P) = true.
Proof. rewrite <- Z.bit0_odd, Z.lor_spec. apply orb_true_r. Qed.

Lemma v2p_aligned p : page_ok kend p → v2p p mod PGSIZE = 0.
Proof.
  intros Hp. rewrite v2p_page by done. unfold page_ok, PGSIZE, KERNBASE in *.
  Z.div_mod_to_equations. lia.
Qed.

Lemma odd_pte p : page_ok kend p → Z.odd (v2p p + 7) = true.
Proof. intros Hp. by rewrite odd_page by by apply v2p_aligned. Qed.

Lemma pt_inv_dir s l dir T E : pt_inv s l dir T E → page_ok kend dir.
Proof. intros (_ & _ & _ & H & _). by inversion H. Qed.

Lemma pt_inv_tab s l dir T E i t : pt_inv s l dir T E → T !! i = Some t → page_ok kend t.
Proof.
  intros (_ & _ & _ & H & _) Ht. inversion H as [|? ? _ H']; subst.
  rewrite Forall_forall in H'. by eapply H', elem_of_vals.
Qed.

(** What walkpgdir finds without allocating. *)
Lemma walkpgdir_found s l dir T E va a t :
  pt_inv s l dir T E → T !! PDX va = Some t →
  walkpgdir dir va a s = Ret (t + 4 * PTX va) s.
Proof.
  intros Hi Ht. pose proof (pt_inv_dir _ _ _ _ _ Hi) as Hd.
  pose proof (pt_inv_tab _ _ _ _ _ _ _ Hi Ht) as Hpt.
  destruct Hi as (_ & _ & _ & _ & [H1 _] & _).
  specialize (H1 (PDX va) (PDX_range va)). rewrite Ht in H1.
  unfold walkpgdir, bind, loadw. cbn. rewrite page_word_u32 by (done || apply PDX_range).
  rewrite H1, has_P, odd_pte by done. cbn. rewrite page_roundtrip by (done || lia).
  by rewrite page_word_u32 by (done || apply PTX_range).
Qed.

Lemma walkpgdir_absent s l dir T E va :
  pt_inv s l dir T E → T !! PDX va = None → walkpgdir dir va 0 s = Ret 0 s.
Proof.
  intros Hi Ht. pose proof (pt_inv_dir _ _ _ _ _ Hi) as Hd.
  destruct Hi as (_ & _ & _ & _ & [H1 _] & _).
  specialize (H1 (PDX va) (PDX_range va)). rewrite Ht in H1.
  unfold walkpgdir, bind, loadw. cbn. rewrite page_word_u32 by (done || apply PDX_range).
  by rewrite has_P, H1.
Qed.

(** The memory after a page table [p] has been installed at index [i]. *)
Definition with_table (m : mem) (dir i p : Z) : mem :=
  st32 (memset m p 0 PGSIZE) (dir + 4 * i) (v2p p + 7).

Lemma memset_word m p k : 0 ≤ k < 1024 → ld32 (memset m p 0 PGSIZE) (p + 4 * k) = 0.
Proof.
  intros. unfold ld32. rewrite !memset_spec by (unfold PGSIZE; lia).
  unfold PGSIZE. repeat case_test; try lia. done.
Qed.

Lemma v2p_u32 p f : page_ok kend p → 0 ≤ f < 4096 → u32 (v2p p + f) = v2p p + f.
Proof.
  intros Hp Hf. rewrite v2p_page by done. apply u32_small.
  unfold page_ok, KERNBASE, PHYSTOP, W32 in *. lia.
Qed.

Lemma pt_rel_with_table m dir T E i p :
  pt_rel m dir T E → Forall (page_ok kend) (dir :: vals T) → page_ok kend p →
  p ≠ dir → p ∉ vals T → dir ∉ vals T → 0 ≤ i < 1024 → T !! i = None →
  pt_rel (with_table m dir i p) dir (<[i := p]> T) E.
Proof.
  intros Hr Hok Hp Hpd Hpt Hdt Hi Hnone.
  assert (pt_rel (memset m p 0 PGSIZE) dir T E) as [H1 H2].
  { eapply pt_rel_frame; [apply only_page_memset|done|apply Hp|done..]. }
  inversion Hok as [|? ? (Hdm & _) Hokt]; subst. rewrite Forall_forall in Hokt. split.
  - intros j Hj. unfold with_table. destruct (decide (j = i)) as [->|Hne].
    + rewrite lookup_insert_eq, ld32_st32. apply v2p_u32; [done|lia].
    + rewrite lookup_insert_ne by done. rewrite ld32_st32_ne by lia. by apply H1.
  - intros n Hn. destruct (decide (n / 1024 = i)) as [<-|Hne].
    + rewrite lookup_insert_eq. specialize (H2 n Hn). rewrite Hnone in H2. rewrite H2.
      unfold with_table. rewrite (only_page_word dir p (memset m p 0 PGSIZE));
        [|by apply only_page_st32|done|apply Hp|done|apply Z.mod_pos_bound; lia].
      apply memset_word, Z.mod_pos_bound. lia.
    + rewrite lookup_insert_ne by done. specialize (H2 n Hn).
      destruct (T !! (n / 1024)) as [t|] eqn:Et; [|done].
      pose proof (elem_of_vals _ _ _ Et) as Hin. unfold with_table.
      rewrite (only_page_word dir t (memset m p 0 PGSIZE)); [done|by apply only_page_st32|done|by apply Hokt|set_solver|].
      apply Z.mod_pos_bound. lia.
Qed.

(** Everything but the memory and the free list is as before. *)
Definition kframe (s s' : kst) : Prop :=
  kheld s' = kheld s ∧ use_lock s' = use_lock s ∧ kout s' = kout s.

Lemma kframe_refl s : kframe s s.
Proof. done. Qed.

Lemma kframe_trans s1 s2 s3 : kframe s1 s2 → kframe s2 s3 → kframe s1 s3.
Proof. intros (?&?&?) (?&?&?). split_and!; congruence. Qed.

Lemma kframe_unlocked s s' : kframe s s' → kunlocked s → kunlocked s'.
Proof. intros (E1 & E2 & _). unfold kunlocked. by rewrite E1, E2. Qed.

(** Memory that changed only inside some pages. *)
Definition only_pages (ps : list Z) (m m' : mem) : Prop :=
  ∀ x, (∀ p, p ∈ ps → ¬ in_page p x) → m' x = m x.

Lemma only_pages_refl ps m : only_pages ps m m.
Proof. done. Qed.

Lemma only_pages_trans ps m1 m2 m3 :
  only_pages ps m1 m2 → only_pages ps m2 m3 → only_pages ps m1 m3.
Proof. intros H1 H2 x Hx. rewrite H2, H1; done. Qed.

Lemma only_pages_mono ps ps' m m' : ps ⊆ ps' → only_pages ps m m' → only_pages ps' m m'.
Proof. intros Hs H x Hx. apply H. set_solver. Qed.

Lemma only_page_pages p ps m m' : p ∈ ps → only_page p m m' → only_pages ps m m'.
Proof. intros Hp H x Hx. apply H. set_solver. Qed.

Lemma kalloc_run_ok s l p :
  kunlocked s → free_rel kend s (p :: l) →
  ∃ s', kalloc s = Ret p s' ∧ free_rel kend s' l ∧ kram s' = kram s ∧ kframe s s'.
Proof.
  intros Hl (Hc & Hn & Hp). rewrite kalloc_run by done. cbn in Hc. destruct Hc as [Ef Hc].
  apply Forall_cons in Hp as [Hp1 Hp]. apply NoDup_cons in Hn as [_ Hn].
  rewrite Ef, (page_ok_nonzero kend) by done.
  eexists. split; [done|]. split_and!; done.
Qed.

Lemma kalloc_run_nil s : kunlocked s → free_rel kend s [] → kalloc s = Ret 0 s.
Proof. intros Hl (Hc & _). rewrite kalloc_run by done. cbn in Hc. by rewrite Hc. Qed.

Lemma pte_flags7 p : page_ok kend p → Z.lor (Z.lor (Z.lor (v2p p) PTE_P) PTE_W) PTE_U = v2p p + 7.
Proof.
  intros Hp. rewrite <- !Z.lor_assoc. change (Z.lor PTE_P (Z.lor PTE_W PTE_U)) with 7.
  apply lor_flags; [|lia]. rewrite v2p_page by done.
  unfold page_ok, PGSIZE, KERNBASE in *. Z.div_mod_to_equations. lia.
Qed.

Lemma NoDup_fresh (d p : Z) (vs l : list Z) :
  NoDup (d :: vs ++ p :: l) → p ≠ d ∧ p ∉ vs ∧ d ∉ vs ∧ d ∉ l ∧ p ∉ l.
Proof.
  rewrite NoDup_cons, NoDup_app, NoDup_cons, not_elem_of_app, not_elem_of_cons.
  intros ((Hd1 & Hd2 & Hd3) & _ & Hx & Hp1 & _). split_and!; try done. intros Hp.
  apply (Hx p Hp). set_solver.
Qed.

Lemma walkpgdir_alloc s p l dir T E va :
  pt_inv s (p :: l) dir T E → T !! PDX va = None →
  ∃ s', walkpgdir dir va 1 s = Ret (p + 4 * PTX va) s' ∧
    pt_inv s' l dir (<[PDX va := p]> T) E ∧ kframe s s' ∧
    only_pages [dir; p] (kram s) (kram s').
Proof.
  intros Hi Ht. pose proof (pt_inv_dir _ _ _ _ _ Hi) as Hd.
  destruct Hi as (Hl & Hf & Hn & Hok & Hr & Hdom).
  destruct (kalloc_run_ok s l p Hl Hf) as (s1 & Ek & Hf1 & Em & Hk).
  pose proof Hf as (_ & Hnl & Hpl). inversion Hpl as [|? ? Hp Hpl']; subst.
  pose proof (proj1 Hr (PDX va) (PDX_range va)) as H1. rewrite Ht in H1.
  unfold walkpgdir, bind, loadw. cbn. rewrite page_word_u32 by (done || apply PDX_range).
  rewrite has_P, H1, Ek. cbn. rewrite (page_ok_nonzero kend) by done. cbn.
  rewrite pte_flags7, Em by done. eexists. split; [by rewrite page_word_u32 by (done || apply PTX_range)|].
  assert (p ≠ dir ∧ p ∉ vals T ∧ dir ∉ vals T ∧ dir ∉ l ∧ p ∉ l) as (N1 & N2 & N3 & N4 & N5).
  { by apply NoDup_fresh. }
  assert (only_page dir (memset (kram s) p 0 PGSIZE) (with_table (kram s) dir (PDX va) p)) as Ho
    by apply only_page_st32, PDX_range.
  split_and!.
  - split_and!.
    + eapply kframe_unlocked; [|done]. done.
    + assert (free_rel kend (set_kram (memset (kram s1) p 0 PGSIZE) s1) l) as Hf2.
      { eapply free_rel_only_page; [apply only_page_memset|apply Hp|done|done]. }
      rewrite Em in Hf2. exact (free_rel_only_page (set_kram _ s1) l dir _ Ho (proj1 Hd) N4 Hf2).
    + rewrite vals_insert by done. rewrite <- app_comm_cons, Permutation_middle. done.
    + rewrite vals_insert by done. apply Forall_cons in Hok as [? ?]. by rewrite !Forall_cons.
    + change (pt_rel (with_table (kram s) dir (PDX va) p) dir (<[PDX va:=p]> T) E).
      apply pt_rel_with_table; try assumption. apply PDX_range.
    + intros i t. destruct (decide (i = PDX va)) as [->|]; [intros _; apply PDX_range|].
      rewrite lookup_insert_ne by done. apply Hdom.
  - done.
  - intros x Hx. cbn. change (with_table (kram s) dir (PDX va) p x = kram s x).
    rewrite (Ho x), only_page_memset by (apply Hx; in_list). done.
Qed.

Lemma walkpgdir_nomem s dir T E va :
  pt_inv s [] dir T E → T !! PDX va = None → walkpgdir dir va 1 s = Ret 0 s.
Proof.
  intros Hi Ht. pose proof (pt_inv_dir _ _ _ _ _ Hi) as Hd.
  destruct Hi as (Hl & Hf & _ & _ & [H1 _] & _).
  specialize (H1 (PDX va) (PDX_range va)). rewrite Ht in H1.
  unfold walkpgdir, bind, loadw. cbn. rewrite page_word_u32 by (done || apply PDX_range).
  by rewrite has_P, H1, kalloc_run_nil by done.
Qed.

(** ** mappages *)

Lemma vals_inj T i j t : NoDup (vals T) → T !! i = Some t → T !! j = Some t → i = j.
Proof.
  intros Hn Hi Hj. destruct (decide (i = j)) as [|Hne]; [done|]. exfalso.
  rewrite (vals_delete T i t) in Hn by done. apply NoDup_cons in Hn as [Hn _].
  apply Hn. apply (elem_of_vals _ j). by rewrite lookup_delete_ne.
Qed.

Lemma NoDup_vals d (T : gmap Z Z) l : NoDup (d :: vals T ++ l) → NoDup (vals T) ∧ d ∉ vals T.
Proof.
  rewrite NoDup_cons, NoDup_app, not_elem_of_app. by intros ((? & _) & ? & _).
Qed.

Lemma pt_inv_store s l dir T E n t e :
  pt_inv s l dir T E → T !! (n / 1024) = Some t → 0 ≤ n < 1048576 → 0 ≤ e < W32 →
  let m' := st32 (kram s) (t + 4 * (n mod 1024)) e in
  pt_inv (set_kram m' s) l dir T (<[n := e]> E) ∧ only_page t (kram s) m'.
Proof.
  intros Hi Ht Hn He m'. pose proof (pt_inv_tab _ _ _ _ _ _ _ Hi Ht) as Hpt.
  destruct Hi as (Hl & Hf & Hnd & Hok & Hr & Hdom).
  pose proof (NoDup_vals _ _ _ Hnd) as [Hnv Hdv].
  assert (0 ≤ n mod 1024 < 1024) as Hnm by (apply Z.mod_pos_bound; lia).
  assert (only_page t (kram s) m') as Ho by by apply only_page_st32.
  pose proof (elem_of_vals _ _ _ Ht) as Htv. split; [|done]. split_and!; [done| |done|done| |done].
  - eapply free_rel_only_page; [done|apply Hpt| |done].
    apply NoDup_cons in Hnd as [_ Hnd]. apply NoDup_app in Hnd as (_ & Hnd & _). by apply Hnd.
  - destruct Hr as [H1 H2]. split.
    + intros i Hi. rewrite (only_page_word t dir (kram s) m'); [by apply H1|done|apply Hpt| |set_solver|done].
      apply Forall_cons in Hok as [Hd _]. apply Hd.
    + intros k Hk. specialize (H2 k Hk). destruct (decide (k = n)) as [->|Hne].
      * rewrite Ht, fn_lookup_insert. cbn. unfold m'. rewrite ld32_st32. by apply u32_small.
      * rewrite fn_lookup_insert_ne by done. destruct (T !! (k / 1024)) as [t'|] eqn:Et; [|done].
        rewrite <- H2. cbn. unfold m'. destruct (decide (t' = t)) as [->|Hnt].
        -- apply ld32_st32_ne.
           pose proof (vals_inj _ _ _ _ Hnv Ht Et). Z.div_mod_to_equations. lia.
        -- apply (only_page_word t t' (kram s)); try done; [apply Hpt| |apply Z.mod_pos_bound; lia].
           apply Forall_cons in Hok as [_ Hok]. rewrite Forall_forall in Hok.
           by eapply Hok, elem_of_vals.
Qed.

(** The entries after [c] pages from page number [n] on were mapped to
    physical memory from [pa] on. *)
Definition mapped (E : Z → Z) (n c pa perm : Z) : Z → Z := λ x,
  if (n <=? x) && (x <? n + c) then Z.lor (Z.lor (pa + PGSIZE * (x - n)) perm) PTE_P else E x.

Lemma pt_inv_ext s l dir T E E' :
  (∀ x, 0 ≤ x < 1048576 → E' x = E x) → pt_inv s l dir T E → pt_inv s l dir T E'.
Proof.
  intros HE (? & ? & ? & ? & [H1 H2] & ?). split_and!; try done.
  split; [done|]. intros n Hn. rewrite HE by done. by apply H2.
Qed.

Lemma page_indices a : 0 ≤ a < W32 → PDX a = a / PGSIZE / 1024 ∧ PTX a = a / PGSIZE mod 1024.
Proof.
  intros. rewrite PDX_eq, PTX_eq by done. unfold PGSIZE. split; [|done].
  Z.div_mod_to_equations. lia.
Qed.

(** The directory got page tables, taken from the free list; nothing else
    changed but the directory and the tables. *)
Definition grew (dir : Z) (s : kst) (l : list Z) (T : gmap Z Z) (s' : kst) (l' : list Z) (T' : gmap Z Z) : Prop :=
  T ⊆ T' ∧ vals T ++ l ≡ₚ vals T' ++ l' ∧ kframe s s' ∧
  only_pages (dir :: vals T') (kram s) (kram s').

Lemma vals_mono T T' : T ⊆ T' → vals T ⊆ vals T'.
Proof.
  intros Hs x (i & Hi)%elem_of_vals_inv. eapply elem_of_vals, lookup_weaken; done.
Qed.

Lemma grew_refl dir s l T : grew dir s l T s l T.
Proof. done. Qed.

Lemma grew_trans dir s1 l1 T1 s2 l2 T2 s3 l3 T3 :
  grew dir s1 l1 T1 s2 l2 T2 → grew dir s2 l2 T2 s3 l3 T3 → grew dir s1 l1 T1 s3 l3 T3.
Proof.
  intros (A1 & A2 & A3 & A4) (B1 & B2 & B3 & B4). split_and!.
  - by etrans.
  - by rewrite A2.
  - by eapply kframe_trans.
  - eapply only_pages_trans; [|done]. eapply only_pages_mono; [|done].
    pose proof (vals_mono _ _ B1). intros x. rewrite !elem_of_cons. set_solver.
Qed.

(** walkpgdir with [alloc] finds the entry, creating its page table if there
    is memory for it, and changes no entry. *)
Lemma walkpgdir_create s l dir T E a :
  pt_inv s l dir T E → 0 ≤ a < W32 →
  let n := a / PGSIZE in
  (l = [] ∧ T !! (n / 1024) = None ∧ walkpgdir dir a 1 s = Ret 0 s) ∨
  ∃ s' l' T' t, walkpgdir dir a 1 s = Ret (t + 4 * (n mod 1024)) s' ∧
    pt_inv s' l' dir T' E ∧ T' !! (n / 1024) = Some t ∧ grew dir s l T s' l' T' ∧
    (length l ≤ S (length l'))%nat ∧ (T !! (n / 1024) ≠ None → l' = l) ∧ (∀ i, i ≠ n / 1024 → T' !! i = T !! i).
Proof.
  intros Hi Ha n. destruct (page_indices a Ha) as [Ed Et]. fold n in Ed, Et. rewrite <- Ed, <- Et.
  destruct (T !! PDX a) as [t|] eqn:E0.
  - right. exists s, l, T, t. split_and!; try done; [by eapply walkpgdir_found|lia].
  - destruct l as [|p l]; [left; split_and!; try done; by eapply walkpgdir_nomem|right].
    destruct (walkpgdir_alloc s p l dir T E a Hi E0) as (s' & Ew & Hi' & Hk & Ho).
    exists s', l, (<[PDX a := p]> T), p. split; [done|]. split; [done|].
    split; [by rewrite lookup_insert_eq|]. split; [|split_and!; [done|done|by intros i Hi2; apply lookup_insert_ne]].
    split_and!; [by apply insert_subseteq| |done|].
    + rewrite vals_insert by done. by rewrite <- app_comm_cons, Permutation_middle.
    + eapply only_pages_mono; [|done]. intros x Hx. rewrite elem_of_cons, vals_insert by done.
      rewrite !elem_of_cons in *. destruct Hx as [->|[->|Hx%elem_of_nil]]; tauto.
Qed.

Lemma lor_range a b k : 0 ≤ k → 0 ≤ a < 2 ^ k → 0 ≤ b < 2 ^ k → 0 ≤ Z.lor a b < 2 ^ k.
Proof.
  intros Hk Ha Hb. assert (0 ≤ Z.lor a b) as H0 by (apply Z.lor_nonneg; lia). split; [done|].
  destruct (decide (Z.lor a b = 0)) as [->|]; [lia|]. apply Z.log2_lt_pow2; [lia|].
  rewrite Z.log2_lor by lia.
  assert (0 < k) by (destruct (decide (k = 0)) as [->|]; [|lia]; change (2 ^ 0) with 1 in *;
    assert (a = 0) as -> by lia; assert (b = 0) as -> by lia; done).
  apply Z.max_lub_lt; [destruct (decide (a = 0)) as [->|]|destruct (decide (b = 0)) as [->|]];
    first [apply Z.log2_lt_pow2; lia | cbn; lia].
Qed.

Lemma pte_word pa perm :
  pa mod PGSIZE = 0 → 0 ≤ pa < W32 → 0 ≤ perm < 4096 →
  Z.lor (Z.lor pa perm) PTE_P = pa + Z.lor perm PTE_P ∧
  0 ≤ Z.lor perm PTE_P < 4096 ∧ 0 ≤ pa + Z.lor perm PTE_P < W32.
Proof.
  intros Hm Hpa Hp. rewrite <- Z.lor_assoc. unfold PTE_P, PGSIZE, W32 in *.
  pose proof (lor_range perm 1 12 ltac:(lia) ltac:(lia) ltac:(lia)) as Hr. change (2 ^ 12) with 4096 in Hr.
  rewrite lor_flags by done. split_and!; try lia. Z.div_mod_to_equations. lia.
Qed.

(** What one round of mappages does, [k] being the rest of the loop. *)
Lemma map_page s l dir T E a e (k : M kst Z) :
  pt_inv s l dir T E → 0 ≤ a < W32 → 0 ≤ e < W32 →
  let n := a / PGSIZE in
  Z.odd (E n) = false →
  let round :=
    (pte <- walkpgdir dir a 1;;
     if pte =? 0 then ret (-1)
     else
       o <- loadw pte;;
       if has PTE_P o then panic "remap"
       else storew pte e;; k)%K in
  (l = [] ∧ T !! (n / 1024) = None ∧ round s = Ret (-1) s) ∨
  ∃ s' l' T', round s = k s' ∧ pt_inv s' l' dir T' (<[n := e]> E) ∧
    grew dir s l T s' l' T' ∧ (length l ≤ S (length l'))%nat ∧ (∀ i, i ≠ n / 1024 → T' !! i = T !! i).
Proof.
  intros Hi Ha He n HE round.
  assert (0 ≤ n < 1048576) as Hn by (unfold n, PGSIZE, W32 in *; Z.div_mod_to_equations; lia).
  destruct (walkpgdir_create s l dir T E a Hi Ha)
    as [(-> & Hnone & Ew)|(s1 & l1 & T1 & t & Ew & Hi1 & Ht & Hg & Hlen & _ & Hdom)].
  { left. split_and!; [done|done|]. unfold round. by rewrite (bind_Ret _ _ _ _ _ Ew). }
  right. fold n in Ew, Ht. pose proof (pt_inv_tab _ _ _ _ _ _ _ Hi1 Ht) as Hpt.
  destruct (pt_inv_store s1 l1 dir T1 E n t e Hi1 Ht Hn He) as [Hi2 Ho2].
  exists (set_kram (st32 (kram s1) (t + 4 * (n mod 1024)) e) s1), l1, T1. split_and!; try done.
  - unfold round. rewrite (bind_Ret _ _ _ _ _ Ew).
    destruct (Z.eqb_spec (t + 4 * (n mod 1024)) 0) as [E0|_].
    { unfold page_ok, KERNBASE in Hpt. pose proof (Z.mod_pos_bound n 1024). lia. }
    unfold bind, loadw. cbn. destruct Hi1 as (_ & _ & _ & _ & [_ H2] & _).
    specialize (H2 n Hn). rewrite Ht in H2. by rewrite H2, has_P, HE.
  - eapply grew_trans; [done|]. split_and!; try done. eapply only_page_pages; [|done].
    apply list_elem_of_further, (elem_of_vals _ _ _ Ht).
Qed.

Lemma mapped_0 E n pa perm x : mapped E n 0 pa perm x = E x.
Proof. unfold mapped. case_test; lia || done. Qed.

Lemma mapped_S E n j pa perm x :
  0 ≤ j →
  mapped (<[n := Z.lor (Z.lor pa perm) PTE_P]> E) (n + 1) j (pa + PGSIZE) perm x =
  mapped E n (j + 1) pa perm x.
Proof.
  intros Hj. unfold mapped. destruct (decide (x = n)) as [->|Hne].
  - rewrite fn_lookup_insert, Z.sub_diag, Z.mul_0_r, Z.add_0_r. repeat case_test; lia || done.
  - rewrite fn_lookup_insert_ne by done. repeat case_test; try lia; try done. do 2 f_equal. lia.
Qed.

Lemma mappages_loop_ok c s l dir T E a pa perm fuel :
  pt_inv s l dir T E → a mod PGSIZE = 0 → 0 ≤ a → a + PGSIZE * Z.of_nat c < W32 →
  pa mod PGSIZE = 0 → 0 ≤ pa → pa + PGSIZE * Z.of_nat c < W32 → 0 ≤ perm < 4096 →
  (c < fuel)%nat →
  let n := a / PGSIZE in
  (∀ k, n ≤ k ≤ n + Z.of_nat c → Z.odd (E k) = false) →
  ∃ r s' l' T' j, mappages_loop fuel dir a (a + PGSIZE * Z.of_nat c) pa perm s = Ret r s' ∧
    pt_inv s' l' dir T' (mapped E n j pa perm) ∧ grew dir s l T s' l' T' ∧
    Z.of_nat (length l) ≤ Z.of_nat (length l') + j ∧
    (∀ i, i < n / 1024 ∨ (n + Z.of_nat c) / 1024 < i → T' !! i = T !! i) ∧
    (r = 0 ∧ j = Z.of_nat c + 1 ∨
     r = -1 ∧ 0 ≤ j ≤ Z.of_nat c ∧ l' = [] ∧ T' !! ((n + j) / 1024) = None).
Proof.
  revert s l T E a pa fuel. induction c as [|c IH];
    intros s l T E a pa fuel Hi Ha1 Ha2 Ha3 Hp1 Hp2 Hp3 Hperm Hfuel n HE;
    (destruct fuel as [|fuel]; [lia|]); cbn [mappages_loop];
    (destruct (pte_word pa perm) as (Ee & Hfl & He); [done|unfold PGSIZE in *; lia|done|]);
    rewrite <- Ee in He;
    match goal with |- context [storew _ _;; ?k] =>
      destruct (map_page s l dir T E a _ k Hi ltac:(unfold PGSIZE in *; lia) He)
        as [(-> & Hnone & ->)|(s1 & l1 & T1 & -> & Hi1 & Hg & Hlen & Hdom)]; [apply HE; lia| |]
    end.
  1, 3: exists (-1), s, [], T, 0; split_and!; [done| |done|cbn; lia|done|right; rewrite Z.add_0_r; split_and!; lia || done];
    eapply pt_inv_ext, Hi; intros; apply mapped_0.
  - rewrite Z.mul_0_r, Z.add_0_r, Z.eqb_refl. exists 0, s1, l1, T1, 1. split_and!; [done| |done|lia|intros i Hi2; apply Hdom; change (Z.of_nat 0) with 0 in Hi2; rewrite Z.add_0_r in Hi2; unfold n in *; lia|by left].
    eapply pt_inv_ext, Hi1. intros x _. rewrite <- (mapped_S E n 0 pa) by lia. apply mapped_0.
  - destruct (Z.eqb_spec a (a + PGSIZE * Z.of_nat (S c))) as [E0|_]; [unfold PGSIZE in *; lia|].
    assert ((a + PGSIZE) / PGSIZE = n + 1) as En
      by (unfold n, PGSIZE in *; Z.div_mod_to_equations; lia).
    rewrite (u32_small (a + _)), (u32_small (pa + _)) by (unfold PGSIZE in *; lia).
    destruct (IH s1 l1 T1 (<[n:=Z.lor (Z.lor pa perm) PTE_P]> E) (a + PGSIZE) (pa + PGSIZE) fuel)
      as (r & s' & l' & T' & j & Er & Hi' & Hg' & Hl' & Hdom' & Hr); try done; try (unfold PGSIZE in *; lia).
    + unfold PGSIZE in *. Z.div_mod_to_equations. lia.
    + unfold PGSIZE in *. Z.div_mod_to_equations. lia.
    + intros k Hk. rewrite En in Hk. rewrite fn_lookup_insert_ne by lia. apply HE. lia.
    + rewrite En in Hi'. exists r, s', l', T', (j + 1). split_and!.
      * rewrite <- Er. f_equal. lia.
      * eapply pt_inv_ext, Hi'. intros x _. rewrite mapped_S by lia. done.
      * by eapply grew_trans.
      * lia.
      * rewrite En in Hdom'. fold n in Hdom. intros i Hi2. rewrite Hdom', Hdom; [done|Z.div_mod_to_equations; lia..].
      * destruct Hr as [[-> ->]|(-> & Hj & -> & Hnone)]; [left; lia|right].
        rewrite En, <- Z.add_assoc, (Z.add_comm 1) in Hnone. split_and!; lia || done.
Qed.

Lemma pte_at_entries s l dir T E va :
  pt_inv s l dir T E → 0 ≤ va < W32 →
  pte_at (kram s) dir va = if Z.odd (E (va / PGSIZE)) then Some (E (va / PGSIZE)) else None.
Proof.
  intros Hi Hva. destruct (page_indices va Hva) as [Ed Et].
  assert (0 ≤ va / PGSIZE < 1048576) as Hn by (unfold PGSIZE, W32 in *; Z.div_mod_to_equations; lia).
  unfold pte_at. rewrite Ed, Et. destruct (T !! (va / PGSIZE / 1024)) as [t|] eqn:Ht.
  - pose proof (pt_inv_tab _ _ _ _ _ _ _ Hi Ht) as Hpt. destruct Hi as (_ & _ & _ & _ & [H1 H2] & _).
    specialize (H1 (va / PGSIZE / 1024) ltac:(Z.div_mod_to_equations; lia)). specialize (H2 _ Hn).
    rewrite Ht in H1, H2. by rewrite H1, has_P, odd_pte, page_roundtrip, H2, has_P by (done || lia).
  - destruct Hi as (_ & _ & _ & _ & [H1 H2] & _).
    specialize (H1 (va / PGSIZE / 1024) ltac:(Z.div_mod_to_equations; lia)). specialize (H2 _ Hn).
    rewrite Ht in H1, H2. by rewrite has_P, H1, H2.
Qed.

(** The pages [mappages] visits. *)
Definition npages (va size : Z) : nat :=
  Z.to_nat (PGROUNDDOWN (va + size - 1) / PGSIZE - va / PGSIZE).

Lemma mappages_ok s l dir T E va size pa perm :
  pt_inv s l dir T E → 0 ≤ va → 0 < size → va + size ≤ W32 →
  pa mod PGSIZE = 0 → 0 ≤ pa → pa + PGSIZE * Z.of_nat (npages va size) < W32 → 0 ≤ perm < 4096 →
  let n := va / PGSIZE in
  let c := npages va size in
  (∀ k, n ≤ k ≤ n + Z.of_nat c → Z.odd (E k) = false) →
  ∃ r s' l' T' j, mappages dir va size pa perm s = Ret r s' ∧
    pt_inv s' l' dir T' (mapped E n j pa perm) ∧ grew dir s l T s' l' T' ∧
    Z.of_nat (length l) ≤ Z.of_nat (length l') + j ∧
    (∀ i, i < n / 1024 ∨ (n + Z.of_nat c) / 1024 < i → T' !! i = T !! i) ∧
    (r = 0 ∧ j = Z.of_nat c + 1 ∨
     r = -1 ∧ 0 ≤ j ≤ Z.of_nat c ∧ l' = [] ∧ T' !! ((n + j) / 1024) = None).
Proof.
  intros Hi Hva Hs1 Hs2 Hp1 Hp2 Hp3 Hperm n c HE. unfold mappages.
  assert (0 ≤ va + size - 1 < W32) as Hlast by lia.
  rewrite (u32_small (va + size - 1)) by done.
  assert (PGROUNDDOWN (va + size - 1) = PGROUNDDOWN va + PGSIZE * Z.of_nat c ∧
    PGROUNDDOWN (va + size - 1) < W32 ∧ 0 ≤ PGROUNDDOWN va ∧
    PGROUNDDOWN va mod PGSIZE = 0 ∧ PGROUNDDOWN va / PGSIZE = n) as (E1 & E2 & E3 & E4 & E5).
  { unfold c, n, npages. rewrite !PGROUNDDOWN_eq. unfold PGSIZE in *. Z.div_mod_to_equations. lia. }
  rewrite E1. unfold n, c in *. rewrite <- E5 in *. apply mappages_loop_ok; try done; try lia.
  rewrite u32_small by (unfold PGSIZE in *; lia). unfold PGSIZE. Z.div_mod_to_equations. lia.
Qed.

End spaces.

(** Mappages maps what it is asked to and nothing else.  On a well-formed
    page directory whose pages of [va .. va+size) are not present, it returns
    0 whenever memory for page tables suffices; then the MMU translates
    exactly those pages to consecutive physical pages from [pa] on, with the
    given permissions, and every other address as before.  It returns -1 only
    when the allocator has run dry. *)
Theorem mappages_maps kend s l dir T E va size pa perm :
  pt_inv kend s l dir T E → 0 ≤ va → 0 < size → va + size ≤ W32 →
  pa mod PGSIZE = 0 → 0 ≤ pa → pa + PGSIZE * Z.of_nat (npages va size) < W32 → 0 ≤ perm < 4096 →
  (∀ x, PGROUNDDOWN va ≤ x < va + size → pte_at (kram s) dir x = None) →
  ∃ r s', mappages dir va size pa perm s = Ret r s' ∧ kframe s s' ∧
    (Z.of_nat (npages va size) < Z.of_nat (length l) → r = 0) ∧
    (r = 0 → ∀ x, 0 ≤ x < W32 → pte_at (kram s') dir x =
      if (PGROUNDDOWN va <=? x) && (PGROUNDDOWN x <? va + size) then
        Some (pa + (PGROUNDDOWN x - PGROUNDDOWN va) + Z.lor perm PTE_P)
      else pte_at (kram s) dir x) ∧
    (r ≠ 0 → r = -1 ∧ free_rel kend s' []).
Proof.
  intros Hi Hva Hs1 Hs2 Hp1 Hp2 Hp3 Hperm Hun.
  assert (Hc : va / PGSIZE + Z.of_nat (npages va size) = (va + size - 1) / PGSIZE).
  { unfold npages. rewrite PGROUNDDOWN_eq. unfold PGSIZE. Z.div_mod_to_equations. lia. }
  destruct (mappages_ok kend s l dir T E va size pa perm)
    as (r & s' & l' & T' & j & Er & Hi' & (_ & _ & Hk & _) & Hl & _ & Hr); try done.
  { intros k Hk. specialize (Hun (k * PGSIZE)).
    rewrite (pte_at_entries _ _ _ _ _ _ _ Hi), Z.div_mul in Hun
      by (unfold PGSIZE, W32 in *; Z.div_mod_to_equations; lia).
    destruct (Z.odd (E k)) eqn:Eo; [|done]. exfalso. rewrite PGROUNDDOWN_eq in Hun.
    discriminate Hun. unfold PGSIZE in *. Z.div_mod_to_equations. lia. }
  exists r, s'. split_and!; [done|done| | |].
  - intros Hlen. destruct Hr as [[-> _]|(_ & Hj & -> & _)]; [done|]. cbn in Hl. lia.
  - intros -> x Hx. destruct Hr as [[_ Ej]|[? _]]; [|done].
    rewrite (pte_at_entries _ _ _ _ _ _ _ Hi' Hx), (pte_at_entries _ _ _ _ _ _ _ Hi Hx).
    unfold mapped. rewrite !PGROUNDDOWN_eq. set (k := x / PGSIZE) in *.
    assert ((va / PGSIZE <=? k) && (k <? va / PGSIZE + j)
      = (va / PGSIZE * PGSIZE <=? x) && (k * PGSIZE <? va + size)) as ->.
    { f_equal; apply eq_true_iff_eq; rewrite ?Z.leb_le, ?Z.ltb_lt; unfold k, PGSIZE in *;
        Z.div_mod_to_equations; lia. }
    destruct (_ && _) eqn:Hb; [bools|done].
    assert (0 ≤ pa + PGSIZE * (k - va / PGSIZE) < W32 ∧ (pa + PGSIZE * (k - va / PGSIZE)) mod PGSIZE = 0) as [R1 R2]
      by (unfold k, PGSIZE in *; Z.div_mod_to_equations; lia).
    destruct (pte_word _ perm R2 R1 Hperm) as (-> & _ & _).
    rewrite odd_page, odd_lor_P by done. do 2 f_equal. lia.
  - intros Hr0. destruct Hr as [[-> _]|(-> & _ & -> & _)]; [done|]. split; [done|]. apply Hi'.
Qed.

(** ** User memory: deallocuvm, allocuvm, freevm *)

(** Virtual page numbers of user memory, below KERNBASE. *)
Definition UPAGES : Z := 524288.

Lemma NoDup_free_user d (T U : gmap Z Z) l n p :
  NoDup (d :: vals T ++ vals U ++ l) → U !! n = Some p →
  p ≠ d ∧ p ∉ vals T ∧ p ∉ l ∧ NoDup (d :: vals T ++ p :: l) ∧
  NoDup (d :: vals T ++ vals (delete n U) ++ p :: l).
Proof.
  intros Hnd HU. rewrite (vals_delete U n p) in Hnd by done.
  assert (NoDup (d :: vals T ++ vals (delete n U) ++ p :: l)) as H2.
  { by rewrite <- (Permutation_middle (vals (delete n U)) l p). }
  split_and!; [..|done].
  1-3: rewrite NoDup_cons, !NoDup_app, !not_elem_of_app, !not_elem_of_cons, NoDup_cons in Hnd; set_solver.
  rewrite !NoDup_cons, !NoDup_app in *. set_solver.
Qed.

Section user.
  Variable kend : Z.
  Hypothesis kend_high : KERNBASE < kend.

(** The user entries map exactly the pages [U]. *)
Definition user_rel (E : Z → Z) (U : gmap Z Z) : Prop :=
  (∀ n, 0 ≤ n < UPAGES →
    match U !! n with
    | Some p => ∃ f, 0 ≤ f < 4096 ∧ Z.odd f = true ∧ E n = v2p p + f
    | None => Z.odd (E n) = false
    end) ∧
  (∀ n p, U !! n = Some p → 0 ≤ n < UPAGES).

(** A user address space: its directory, tables and user pages are distinct
    pages, none of them free. *)
Definition as_inv (s : kst) (l : list Z) (dir : Z) (T : gmap Z Z) (E : Z → Z) (U : gmap Z Z) : Prop :=
  pt_inv kend s l dir T E ∧ NoDup (dir :: vals T ++ vals U ++ l) ∧
  Forall (page_ok kend) (vals U) ∧ user_rel E U.

Lemma user_rel_set E U n : user_rel E U → 0 ≤ n < UPAGES → user_rel (<[n := 0]> E) (delete n U).
Proof.
  intros [H1 H2] Hn. split.
  - intros k Hk. destruct (decide (k = n)) as [->|Hne].
    + by rewrite lookup_delete_eq, fn_lookup_insert.
    + rewrite lookup_delete_ne, fn_lookup_insert_ne by done. by apply H1.
  - intros k p. rewrite lookup_delete_Some. intros [_ ?]. by eapply H2.
Qed.

Lemma user_rel_map E U n p :
  user_rel E U → 0 ≤ n < UPAGES → user_rel (<[n := v2p p + 7]> E) (<[n := p]> U).
Proof.
  intros [H1 H2] Hn. split.
  - intros k Hk. destruct (decide (k = n)) as [->|Hne].
    + rewrite lookup_insert_eq, fn_lookup_insert. exists 7. split_and!; lia || done.
    + rewrite lookup_insert_ne, fn_lookup_insert_ne by done. by apply H1.
  - intros k q. rewrite lookup_insert_Some. intros [[<- _]|[_ ?]]; [done|]. by eapply H2.
Qed.

Lemma user_entry_table s l dir T E U n p :
  as_inv s l dir T E U → U !! n = Some p →
  ∃ t f, T !! (n / 1024) = Some t ∧ 0 ≤ f < 4096 ∧ Z.odd f = true ∧ E n = v2p p + f ∧
    ld32 (kram s) (t + 4 * (n mod 1024)) = v2p p + f.
Proof.
  intros ((_ & _ & _ & _ & [_ H2] & _) & _ & Hok & [Hu1 Hu2]) HU.
  pose proof (Hu2 _ _ HU) as Hn. specialize (Hu1 n Hn). rewrite HU in Hu1.
  destruct Hu1 as (f & Hf & Hodd & HE). unfold UPAGES in Hn. specialize (H2 n ltac:(lia)).
  destruct (T !! (n / 1024)) as [t|] eqn:Et; [exists t, f; split_and!; try done; lia || by rewrite H2|].
  exfalso. rewrite Forall_forall in Hok. pose proof (Hok p (elem_of_vals _ _ _ HU)) as Hp.
  pose proof (odd_page (v2p p) f (v2p_aligned _ _ Hp)) as Ho.
  rewrite <- HE, H2 in Ho. cbn in Ho. congruence.
Qed.

(** Freeing one user page and clearing its entry. *)
Lemma free_user_page s l dir T E U n p t :
  as_inv s l dir T E U → U !! n = Some p → T !! (n / 1024) = Some t →
  ∃ s', (kfree kend p;; storew (t + 4 * (n mod 1024)) 0)%K s = Ret tt s' ∧
    as_inv s' (p :: l) dir T (<[n := 0]> E) (delete n U) ∧ kframe s s' ∧
    only_pages (p :: dir :: vals T) (kram s) (kram s').
Proof.
  intros Hi HU Ht. pose proof Hi as (Hpt & Hnd & Hok & Hu). pose proof (proj2 Hu _ _ HU) as Hn.
  pose proof (NoDup_free_user _ _ _ _ _ _ Hnd HU) as (N1 & N2 & N3 & N4 & N5).
  assert (page_ok kend p) as Hp by (rewrite Forall_forall in Hok; by eapply Hok, elem_of_vals).
  pose proof Hpt as (Hl & Hf & _ & Hokt & Hr & Hdom).
  destruct (kfree_ok kend p s l Hp N3 Hl Hf) as [Ek Hf'].
  assert (only_page p (kram s) (kram (freed p s))) as Ho1 by (intros x Hx; by apply freed_other).
  assert (pt_inv kend (freed p s) (p :: l) dir T E) as Hpt1.
  { split_and!; try done. eapply pt_rel_frame; try done. apply Hp. }
  destruct (pt_inv_store kend (freed p s) (p :: l) dir T E n t 0 Hpt1 Ht) as [Hpt2 Ho2];
    [unfold UPAGES in *; lia|unfold W32; lia|].
  eexists. split; [by rewrite (bind_Ret _ _ _ _ _ Ek)|]. split_and!; try done.
  - split_and!; try done; [|by apply user_rel_set].
    rewrite (vals_delete U n p) in Hok by done. by apply Forall_cons in Hok as [_ ?].
  - intros x Hx. cbn [kram set_kram]. rewrite (Ho2 x), (Ho1 x); [done|apply Hx; in_list|].
    apply Hx. right. right. by eapply elem_of_vals.
Qed.

Lemma user_free_entry s l dir T E U n t :
  as_inv s l dir T E U → 0 ≤ n < UPAGES → U !! n = None → T !! (n / 1024) = Some t →
  Z.odd (ld32 (kram s) (t + 4 * (n mod 1024))) = false.
Proof.
  intros ((_ & _ & _ & _ & [_ H2] & _) & _ & _ & [Hu _]) Hn HU Ht.
  specialize (Hu n Hn). rewrite HU in Hu. specialize (H2 n ltac:(unfold UPAGES in *; lia)).
  rewrite Ht in H2. by rewrite H2.
Qed.

Lemma user_no_table s l dir T E U i n :
  as_inv s l dir T E U → T !! i = None → n / 1024 = i → U !! n = None.
Proof.
  intros Hi Ht <-. destruct (U !! n) as [p|] eqn:HU; [|done].
  destruct (user_entry_table _ _ _ _ _ _ _ _ Hi HU) as (t & _ & Et & _). congruence.
Qed.

(** User pages [U] lost those with numbers in [lo, hi), now on the free list. *)
Definition freed_range (dir lo hi : Z) (T : gmap Z Z) (s : kst) (l : list Z) (E : Z → Z) (U : gmap Z Z)
    (s' : kst) (l' : list Z) (E' : Z → Z) (U' : gmap Z Z) : Prop :=
  as_inv s' l' dir T E' U' ∧ vals U ++ l ≡ₚ vals U' ++ l' ∧ kframe s s' ∧
  only_pages (vals U ++ dir :: vals T) (kram s) (kram s') ∧
  (∀ k, U' !! k = if (lo <=? k) && (k <? hi) then None else U !! k) ∧
  (∀ k, k < lo ∨ hi ≤ k → E' k = E k).

Lemma freed_range_skip dir lo lo' hi T s l E U s' l' E' U' :
  lo ≤ lo' → (∀ k, lo ≤ k < lo' → k < hi → U !! k = None) →
  freed_range dir lo' hi T s l E U s' l' E' U' → freed_range dir lo hi T s l E U s' l' E' U'.
Proof.
  intros Hlo HU (H1 & H2 & H3 & H4 & H5 & H6). split_and!; try done.
  - intros k. rewrite H5. repeat case_test; try lia; try done. apply HU; lia.
  - intros k Hk. apply H6. lia.
Qed.

Lemma freed_range_step dir lo hi T s l E U p s1 s' l' E' U' :
  lo < hi → U !! lo = Some p → kframe s s1 →
  only_pages (p :: dir :: vals T) (kram s) (kram s1) →
  freed_range dir (lo + 1) hi T s1 (p :: l) (<[lo := 0]> E) (delete lo U) s' l' E' U' →
  freed_range dir lo hi T s l E U s' l' E' U'.
Proof.
  intros Hlo HU Hk Ho (H1 & H2 & H3 & H4 & H5 & H6).
  split_and!; try done.
  - rewrite (vals_delete U lo p) by done. by rewrite <- H2, <- Permutation_middle.
  - by eapply kframe_trans.
  - pose proof (elem_of_vals _ _ _ HU) as Hp.
    eapply only_pages_trans; eapply only_pages_mono; [|exact Ho| |exact H4]; intros x;
      rewrite (vals_delete U lo p HU), ?elem_of_app, ?elem_of_cons, ?elem_of_app, ?elem_of_cons; tauto.
  - intros k. rewrite H5. destruct (decide (k = lo)) as [->|].
    + rewrite lookup_delete_eq. repeat case_test; lia || done.
    + rewrite lookup_delete_ne by done. repeat case_test; lia || done.
  - intros k Hk'. rewrite H6, fn_lookup_insert_ne by lia. done.
Qed.

(** One round of deallocuvm's loop on a page whose table is present. *)
Lemma dealloc_round s l dir T E U n t :
  as_inv s l dir T E U → 0 ≤ n < UPAGES → T !! (n / 1024) = Some t →
  let e := ld32 (kram s) (t + 4 * (n mod 1024)) in
  let round := ((if has PTE_P e then
             let pa := PTE_ADDR e in
             when (pa =? 0) do panic "kfree";;
             kfree kend (p2v pa);;
             storew (t + 4 * (n mod 1024)) 0
           else ret tt))%K in
  match U !! n with
  | None => round s = Ret tt s
  | Some p => ∃ s', round s = Ret tt s' ∧
      as_inv s' (p :: l) dir T (<[n := 0]> E) (delete n U) ∧ kframe s s' ∧
      only_pages (p :: dir :: vals T) (kram s) (kram s')
  end.
Proof.
  intros Hi Hn Ht e round. destruct (U !! n) as [p|] eqn:HU.
  - destruct (free_user_page _ _ _ _ _ _ _ _ _ Hi HU Ht) as (s' & Ek & H).
    exists s'. split; [|done]. rewrite <- Ek.
    destruct (user_entry_table _ _ _ _ _ _ _ _ Hi HU) as (t' & f & Ht' & Hf & Ho & _ & Hld).
    rewrite Ht in Ht'. simplify_eq. unfold round, e. rewrite Hld.
    assert (page_ok kend p) as Hp
      by (destruct Hi as (_ & _ & Hok & _); rewrite Forall_forall in Hok; by eapply Hok, elem_of_vals).
    rewrite has_P, odd_page, Ho, (page_roundtrip kend) by (done || by apply (v2p_aligned kend)).
    assert (PTE_ADDR (v2p p + f) =? 0 = false) as ->; [|done].
    apply Z.eqb_neq. pose proof (page_roundtrip kend p f Hp Hf) as Hrt. intros E0. rewrite E0 in Hrt.
    unfold page_ok, p2v in *. rewrite u32_small in Hrt by (unfold KERNBASE, W32; lia). lia.
  - unfold round. pose proof (user_free_entry _ _ _ _ _ _ _ _ Hi Hn HU Ht) as Ho.
    fold e in Ho. by rewrite has_P, Ho.
Qed.

Lemma deallocuvm_loop_ok fuel s l dir T E U a oldsz :
  as_inv s l dir T E U → a mod PGSIZE = 0 → 0 ≤ a < W32 - PGSIZE * 1024 → oldsz ≤ KERNBASE →
  oldsz - a ≤ PGSIZE * (Z.of_nat fuel - 1) → (0 < fuel)%nat →
  (T !! PDX a = None → a mod 4194304 = 0) →
  let hi := (oldsz + PGSIZE - 1) / PGSIZE in
  ∃ s' l' E' U', deallocuvm_loop kend fuel dir a oldsz s = Ret tt s' ∧
    freed_range dir (a / PGSIZE) hi T s l E U s' l' E' U'.
Proof.
  revert s l E U a. induction fuel as [|fuel IH];
    intros s l E U a Hi Ha1 Ha2 Hold Hfuel Hpos Hal hi; [lia|]. cbn [deallocuvm_loop].
  destruct (Z.ltb_spec a oldsz) as [Hlt|Hge].
  2:{ exists s, l, E, U. split; [done|]. split_and!; try done.
      intros k. case_test; [|done..]. unfold hi, PGSIZE in *. Z.div_mod_to_equations. lia. }
  destruct (page_indices a ltac:(unfold KERNBASE, W32 in *; lia)) as [Ed Et].
  set (n := a / PGSIZE) in *.
  assert (0 ≤ n < UPAGES ∧ n < hi) as [Hn Hnhi]
    by (unfold n, hi, UPAGES, PGSIZE, KERNBASE in *; Z.div_mod_to_equations; lia).
  destruct (T !! PDX a) as [t|] eqn:ET.
  - rewrite (bind_Ret _ _ _ _ _ (walkpgdir_found kend s l dir T E a 0 t (proj1 Hi) ET)).
    pose proof (pt_inv_tab _ _ _ _ _ _ _ _ (proj1 Hi) ET) as Hpt.
    destruct (Z.eqb_spec (t + 4 * PTX a) 0) as [E0|_].
    { pose proof (PTX_range a). unfold page_ok, KERNBASE in Hpt. lia. }
    unfold bind at 1. unfold loadw at 1. cbn [obind gets]. rewrite Et.
    rewrite Ed in ET. pose proof (dealloc_round _ _ _ _ _ _ _ _ Hi Hn ET) as Hround. cbn zeta in Hround.
    rewrite (u32_small (a + PGSIZE)) by (unfold PGSIZE, KERNBASE, W32 in *; lia).
    assert ((a + PGSIZE) / PGSIZE = n + 1) as En by (unfold n, PGSIZE in *; Z.div_mod_to_equations; lia).
    assert (∀ s' l' E' U', as_inv s' l' dir T E' U' →
      ∃ s'' l'' E'' U'', deallocuvm_loop kend fuel dir (a + PGSIZE) oldsz s' = Ret tt s'' ∧
      freed_range dir (n + 1) hi T s' l' E' U' s'' l'' E'' U'') as IH'.
    { intros s1 l1 E1 U1 Hi1. rewrite <- En. apply IH; try done.
      - unfold PGSIZE in *. Z.div_mod_to_equations. lia.
      - unfold PGSIZE, KERNBASE, W32 in *. lia.
      - unfold PGSIZE in *. lia.
      - unfold PGSIZE in *. lia.
      - rewrite PDX_eq by (unfold PGSIZE, KERNBASE, W32 in *; lia). intros Hnone.
        unfold n, PGSIZE in *. destruct (decide ((a + 4096) / 4194304 = a / 4096 / 1024)) as [Heq|];
          [congruence|]. Z.div_mod_to_equations. lia. }
    destruct (U !! n) as [p|] eqn:HU.
    + destruct Hround as (s1 & Er & Hi1 & Hk & Ho).
      destruct (IH' _ _ _ _ Hi1) as (s' & l' & E' & U' & El & Hfr).
      exists s', l', E', U'. split; [by rewrite (bind_Ret _ _ _ _ _ Er)|].
      by eapply freed_range_step.
    + destruct (IH' _ _ _ _ Hi) as (s' & l' & E' & U' & El & Hfr).
      exists s', l', E', U'. split; [by rewrite (bind_Ret _ _ _ _ _ Hround)|].
      eapply freed_range_skip; [|..|done]; [lia|]. intros k Hk _. by assert (k = n) as -> by lia.
  - rewrite (bind_Ret _ _ _ _ _ (walkpgdir_absent kend s l dir T E a (proj1 Hi) ET)). cbn [Z.eqb].
    rewrite (u32_small (a + _)), (u32_small (a + _ + PGSIZE)) by (unfold NPTENTRIES, PGSIZE, KERNBASE, W32 in *; lia).
    specialize (Hal eq_refl).
    replace (a + (NPTENTRIES - 1) * PGSIZE + PGSIZE) with (a + 4194304) by (unfold NPTENTRIES, PGSIZE; lia).
    destruct (IH s l E U (a + 4194304)) as (s' & l' & E' & U' & El & Hfr); try done;
      try (unfold PGSIZE, KERNBASE, W32 in *; Z.div_mod_to_equations; lia).
    exists s', l', E', U'. split; [done|]. eapply freed_range_skip; [|..|done].
    + unfold n, PGSIZE. Z.div_mod_to_equations. lia.
    + intros k Hk _. eapply (user_no_table _ _ _ _ _ _ (PDX a)); [done|done|]. rewrite Ed.
      unfold n, PGSIZE in *. Z.div_mod_to_equations. lia.
Qed.

Lemma deallocuvm_ok s l dir T E U oldsz newsz :
  as_inv s l dir T E U → 0 ≤ newsz < oldsz → oldsz ≤ KERNBASE →
  (T !! PDX (PGROUNDUP newsz) = None → PGROUNDUP newsz mod 4194304 = 0) →
  ∃ s' l' E' U', deallocuvm kend dir oldsz newsz s = Ret newsz s' ∧
    freed_range dir ((newsz + PGSIZE - 1) / PGSIZE) ((oldsz + PGSIZE - 1) / PGSIZE) T s l E U s' l' E' U'.
Proof.
  intros Hi Hnew Hold Hal. unfold deallocuvm.
  destruct (Z.leb_spec oldsz newsz) as [|_]; [lia|].
  pose proof (PGROUNDUP_eq newsz ltac:(lia) ltac:(unfold PGSIZE, KERNBASE, W32 in *; lia)) as Eup.
  destruct (deallocuvm_loop_ok (Z.to_nat (oldsz / PGSIZE + 2)) s l dir T E U (PGROUNDUP newsz) oldsz)
    as (s' & l' & E' & U' & El & Hfr); try done;
    try (rewrite ?Eup; unfold PGSIZE, KERNBASE, W32 in *; Z.div_mod_to_equations; lia).
  exists s', l', E', U'. split; [by rewrite (bind_Ret _ _ _ _ _ El)|].
  rewrite Eup, Z.div_mul in Hfr by done. done.
Qed.

(** The second half of freevm: the directory's remaining tables. *)
Definition dir_rel (m : mem) (dir i : Z) (T : gmap Z Z) : Prop :=
  (∀ j, i ≤ j < 1024 →
    match T !! j with
    | Some t => ld32 m (dir + 4 * j) = v2p t + 7
    | None => Z.odd (ld32 m (dir + 4 * j)) = false
    end) ∧ (∀ j t, T !! j = Some t → i ≤ j < 1024).

Lemma freevm_loop_ok n s l dir T i :
  i + Z.of_nat n = 1024 → 0 ≤ i → kunlocked s → free_rel kend s l →
  NoDup (dir :: vals T ++ l) → page_ok kend dir → Forall (page_ok kend) (vals T) →
  dir_rel (kram s) dir i T →
  ∃ s' l', freevm_loop kend n dir i s = Ret tt s' ∧ free_rel kend s' l' ∧
    l' ≡ₚ vals T ++ l ∧ kframe s s' ∧ only_pages (vals T) (kram s) (kram s').
Proof.
  revert s l T i. induction n as [|n IH];
    intros s l T i Hin Hi0 Hl Hf Hnd Hd Hok [Hr Hdom]; cbn [freevm_loop].
  { exists s, l. split_and!; try done. assert (T = ∅) as ->; [|done].
    apply map_empty. intros j. destruct (T !! j) as [t|] eqn:Ej; [|done]. apply Hdom in Ej. lia. }
  unfold bind at 1, loadw. cbn [obind gets]. rewrite (page_word_u32 kend) by (done || lia).
  rewrite has_P. pose proof (Hr i ltac:(lia)) as Hri. destruct (T !! i) as [t|] eqn:Ei.
  - rewrite Hri. pose proof (elem_of_vals _ _ _ Ei) as Hin'.
    assert (page_ok kend t) as Ht by (rewrite Forall_forall in Hok; by apply Hok).
    rewrite (odd_pte kend), (page_roundtrip kend) by (done || lia).
    pose proof (vals_delete T i t Ei) as Hperm.
    assert (t ≠ dir ∧ t ∉ l ∧ NoDup (dir :: vals (delete i T) ++ t :: l)) as (N1 & N2 & N3).
    { rewrite Hperm, <- app_comm_cons, Permutation_middle in Hnd.
      pose proof (NoDup_fresh _ _ _ _ Hnd) as (? & _ & _ & _ & ?). done. }
    destruct (kfree_ok kend t s l Ht N2 Hl Hf) as [Ek Hf'].
    rewrite (bind_Ret _ _ _ _ _ Ek).
    assert (only_page t (kram s) (kram (freed t s))) as Ho by (intros x Hx; by apply freed_other).
    destruct (IH (freed t s) (t :: l) (delete i T) (i + 1)) as (s' & l' & El & Hf'' & Hp & Hk & Ho');
      try done; try lia.
    + rewrite Hperm in Hok. by apply Forall_cons in Hok as [_ ?].
    + split.
      * intros j Hj. rewrite lookup_delete_ne by lia.
        rewrite (only_page_word t dir _ _ j Ho (proj1 Ht) (proj1 Hd)) by (done || lia). apply Hr. lia.
      * intros j t' [Hne Ht']%lookup_delete_Some. apply Hdom in Ht'. lia.
    + exists s', l'. split_and!; try done.
      * rewrite Hp, Hperm. by rewrite <- Permutation_middle.
      * eapply only_pages_trans; [by eapply only_page_pages|].
        eapply only_pages_mono; [|done]. intros x. rewrite Hperm, elem_of_cons. tauto.
  - rewrite Hri. destruct (IH s l T (i + 1)) as (s' & l' & El & H); try done; try lia.
    + split; [intros; apply Hr; lia|]. intros j t Hj. pose proof (Hdom _ _ Hj).
      destruct (decide (j = i)) as [->|]; [congruence|lia].
    + by exists s', l'.
Qed.

Lemma freevm_ok s l dir T E U :
  as_inv s l dir T E U →
  ∃ s' l', freevm kend dir s = Ret tt s' ∧ free_rel kend s' l' ∧
    l' ≡ₚ dir :: vals T ++ vals U ++ l ∧ kframe s s' ∧
    only_pages (dir :: vals T ++ vals U) (kram s) (kram s').
Proof.
  intros Hi. pose proof (pt_inv_dir _ _ _ _ _ _ (proj1 Hi)) as Hd. unfold freevm.
  rewrite (page_ok_nonzero kend) by done.
  destruct (deallocuvm_ok s l dir T E U KERNBASE 0) as (s1 & l1 & E1 & U1 & Ed & Hi1 & Hp1 & Hk1 & Ho1 & HU & _);
    try done; try (unfold KERNBASE; lia).
  assert (U1 = ∅) as ->.
  { apply map_empty. intros k. rewrite HU. case_test; [done|..];
      (destruct (U !! k) eqn:Ek; [|done]); destruct Hi as (_ & _ & _ & _ & Hdom);
      apply Hdom in Ek; change ((0 + PGSIZE - 1) / PGSIZE) with 0 in *;
      change ((KERNBASE + PGSIZE - 1) / PGSIZE) with UPAGES in *; lia. }
  assert (vals ∅ = []) as Hv by done. rewrite Hv in Hp1. cbn in Hp1.
  destruct Hi1 as ((Hl & Hf & Hnd & Hok & Hr & Hdom) & _ & _ & _). apply Forall_cons in Hok as [_ Hok].
  destruct (freevm_loop_ok (Z.to_nat NPDENTRIES) s1 l1 dir T 0) as (s2 & l2 & El & Hf2 & Hp2 & Hk2 & Ho2);
    try done.
  { split; [apply Hr|]. intros j t Hj. by eapply Hdom. }
  assert (dir ∉ l2) as Hdl2.
  { rewrite Hp2. apply NoDup_cons in Hnd as [? _]. done. }
  destruct (kfree_ok kend dir s2 l2 Hd Hdl2) as [Ek Hf3]; [by eapply kframe_unlocked|done|].
  exists (freed dir s2), (dir :: l2). split_and!; try done.
  - unfold bind at 1. cbn [obind ret]. rewrite (bind_Ret _ _ _ _ _ Ed), (bind_Ret _ _ _ _ _ El). done.
  - by rewrite Hp2, <- Hp1.
  - eapply kframe_trans; [done|]. by eapply kframe_trans.
  - eapply only_pages_trans; [|eapply only_pages_trans].
    + eapply only_pages_mono, Ho1. intros x. rewrite !elem_of_app, !elem_of_cons, elem_of_app. tauto.
    + eapply only_pages_mono, Ho2. intros x. rewrite !elem_of_cons, elem_of_app. tauto.
    + apply (only_page_pages dir); [in_list|]. intros x Hx. by apply freed_other.
Qed.

Lemma perm_add_page (T T' U l l' : list Z) p :
  T ++ l ≡ₚ T' ++ l' → T' ++ (p :: U) ++ l' ≡ₚ T ++ U ++ p :: l.
Proof.
  intros H. rewrite (Permutation_app_swap_app T'), <- H.
  rewrite (Permutation_app_swap_app T). rewrite <- app_comm_cons.
  by rewrite <- (Permutation_middle T l p), <- Permutation_middle.
Qed.

Lemma npages_one n : 0 ≤ n → npages (n * PGSIZE) PGSIZE = 0%nat.
Proof.
  intros. unfold npages. rewrite PGROUNDDOWN_eq. unfold PGSIZE. Z.div_mod_to_equations. lia.
Qed.

Lemma pt_inv_tail s s' p l dir T E :
  pt_inv kend s (p :: l) dir T E → free_rel kend s' l → kram s' = kram s → kframe s s' →
  pt_inv kend s' l dir T E.
Proof.
  intros (Hl & Hf & Hnd & Hok & Hr & Hdom) Hf' Em Hk.
  split_and!; [by eapply kframe_unlocked|done| |done|by rewrite Em|done].
  rewrite <- Permutation_middle, Permutation_swap in Hnd. by apply NoDup_cons in Hnd as [_ ?].
Qed.

(** Taking a page and zeroing it. *)
Lemma alloc_zeroed s p l dir T E :
  pt_inv kend s (p :: l) dir T E →
  ∃ s0, kalloc s = Ret p s0 ∧ kframe s s0 ∧ kram s0 = kram s ∧ page_ok kend p ∧
    pt_inv kend (set_kram (memset (kram s0) p 0 PGSIZE) s0) l dir T E.
Proof.
  intros Hpt. pose proof Hpt as (Hl & Hf & Hndt & _).
  destruct (kalloc_run_ok kend s l p Hl Hf) as (s0 & Ek & Hf0 & Em0 & Hk0).
  pose proof Hf as (_ & _ & Hokl). apply Forall_cons in Hokl as [Hp _].
  destruct (NoDup_fresh _ _ _ _ Hndt) as (N1 & N2 & N3 & N4 & N5).
  pose proof (pt_inv_tail _ _ _ _ _ _ _ Hpt Hf0 Em0 Hk0) as (A1 & A2 & A3 & A4 & A5 & A6).
  exists s0. do 4 (split; [done|]). split_and!; try done.
  - eapply free_rel_only_page; [apply only_page_memset|apply Hp|done|done].
  - eapply pt_rel_frame; [apply only_page_memset|done|apply Hp|done..].
Qed.

Lemma mappages_nomem s dir T E n size pa perm :
  pt_inv kend s [] dir T E → 0 ≤ n < 1048576 → T !! (n / 1024) = None →
  mappages dir (n * PGSIZE) size pa perm s = Ret (-1) s.
Proof.
  intros Hpt Hn Ht. unfold mappages. rewrite (PGROUNDDOWN_eq (n * PGSIZE)), Z.div_mul by done.
  set (w := u32 (PGROUNDDOWN (u32 (n * PGSIZE + size - 1)) - n * PGSIZE)).
  assert (0 ≤ w / PGSIZE) by (apply Z.div_pos; [apply u32_range|unfold PGSIZE; lia]).
  replace (Z.to_nat (w / PGSIZE + 1)) with (S (Z.to_nat (w / PGSIZE))) by lia. cbn [mappages_loop].
  destruct (page_indices (n * PGSIZE) ltac:(unfold PGSIZE, W32; lia)) as [Ed _].
  rewrite Z.div_mul in Ed by done.
  by rewrite (bind_Ret _ _ _ _ _ (walkpgdir_nomem kend _ _ _ _ (n * PGSIZE) Hpt ltac:(by rewrite Ed))).
Qed.

(** Mapping a fresh zeroed user page [p] at page number [n]. *)
Lemma map_user_page s p l dir T E U n :
  as_inv s (p :: l) dir T E U → 0 ≤ n < UPAGES → U !! n = None →
  l ≠ [] ∨ is_Some (T !! (n / 1024)) →
  ∃ s0 s' l' T', kalloc s = Ret p s0 ∧
    (kmemset p 0 PGSIZE;; mappages dir (n * PGSIZE) PGSIZE (v2p p) (Z.lor PTE_W PTE_U))%K s0 = Ret 0 s' ∧
    as_inv s' l' dir T' (<[n := v2p p + 7]> E) (<[n := p]> U) ∧ T ⊆ T' ∧ kframe s s' ∧
    vals T ++ l ≡ₚ vals T' ++ l' ∧ (length l ≤ S (length l'))%nat ∧
    only_pages (p :: dir :: vals T') (kram s) (kram s') ∧
    (∀ x, in_page p x → kram s' x = 0).
Proof.
  intros (Hpt & Hnd & Hoku & Hu) Hn HUn Hmem.
  destruct (alloc_zeroed _ _ _ _ _ _ Hpt) as (s0 & Ek & Hk0 & Em0 & Hp & Hpt1).
  set (s1 := set_kram (memset (kram s0) p 0 PGSIZE) s0) in *.
  assert (0 ≤ v2p p < W32 ∧ v2p p mod PGSIZE = 0) as [Hv1 Hv2].
  { split; [apply u32_range|by apply (v2p_aligned kend)]. }
  destruct (mappages_ok kend s1 l dir T E (n * PGSIZE) PGSIZE (v2p p) (Z.lor PTE_W PTE_U))
    as (r & s' & l' & T' & j & Er & Hpt' & (G1 & G2 & G3 & G4) & Hlen & _ & Hr);
    rewrite ?npages_one by lia; try done; try lia;
    try (unfold PGSIZE, UPAGES, W32 in *; lia).
  { rewrite Z.div_mul by done. intros k Hk. assert (k = n) as -> by lia.
    pose proof (proj1 Hu n Hn) as Hun. by rewrite HUn in Hun. }
  rewrite Z.div_mul, npages_one in * by (done || lia).
  destruct Hr as [[-> ->]|(_ & Hj & -> & Hnone)].
  2:{ exfalso. assert (l = []) as -> by (destruct l; [done|cbn in Hlen; lia]).
      destruct Hmem as [|[t Ht]]; [done|]. replace (n + j) with n in Hnone by lia.
      by rewrite (lookup_weaken _ _ _ _ Ht G1) in Hnone. }
  assert (pt_inv kend s' l' dir T' (<[n := v2p p + 7]> E)) as Hpt''.
  { eapply pt_inv_ext, Hpt'. intros x Hx. unfold mapped. destruct (decide (x = n)) as [->|].
    - rewrite fn_lookup_insert, Z.sub_diag, Z.mul_0_r, Z.add_0_r.
      destruct (pte_word (v2p p) (Z.lor PTE_W PTE_U) Hv2 Hv1 ltac:(done)) as (-> & _).
      case_test; lia || done.
    - rewrite fn_lookup_insert_ne by done. case_test; lia || done. }
  assert (dir :: vals T' ++ (p :: vals U) ++ l' ≡ₚ dir :: vals T ++ vals U ++ p :: l) as Hperm
    by by apply Permutation_cons, perm_add_page.
  assert (only_pages (p :: dir :: vals T') (kram s) (kram s')) as Ho.
  { eapply only_pages_trans; [|eapply only_pages_mono, G4; intros x ?; by apply list_elem_of_further].
    rewrite <- Em0. apply (only_page_pages p); [in_list|apply only_page_memset]. }
  exists s0, s', l', T'. split; [done|]. split; [done|]. split_and!; try done.
  - split_and!; [done| | |by apply user_rel_map]; rewrite (vals_insert U) by done;
      [by rewrite Hperm|by constructor].
  - by eapply kframe_trans.
  - lia.
  - intros x Hx. rewrite G4.
    + cbn. rewrite memset_spec by (unfold PGSIZE; lia). unfold in_page in Hx. case_test; lia || done.
    + intros q Hq Hqx. assert (page_ok kend q) as Hqok.
      { destruct Hpt'' as (_ & _ & _ & Hok & _). rewrite Forall_forall in Hok. by apply Hok. }
      assert (q ≠ p) as Hqp.
      { intros ->. rewrite <- Hperm, app_comm_cons in Hnd. apply NoDup_app in Hnd as (_ & Hnd & _).
        apply (Hnd p Hq). in_list. }
      pose proof (pages_disjoint _ _ (proj1 Hqok) (proj1 Hp) Hqp). unfold in_page in *. lia.
Qed.

(** User memory grew by the pages numbered [lo .. hi): each is a zeroed page
    from the free list, mapped user-writable; the rest is as before. *)
Definition alloc_range (dir lo hi : Z) (s : kst) (l : list Z) (T : gmap Z Z) (E : Z → Z) (U : gmap Z Z)
    (s' : kst) (l' : list Z) (T' : gmap Z Z) (E' : Z → Z) (U' : gmap Z Z) : Prop :=
  as_inv s' l' dir T' E' U' ∧ kframe s s' ∧ T ⊆ T' ∧
  vals T ++ vals U ++ l ≡ₚ vals T' ++ vals U' ++ l' ∧
  only_pages (dir :: vals T ++ l) (kram s) (kram s') ∧
  (∀ k, lo ≤ k < hi → ∃ p, U' !! k = Some p ∧ p ∈ l ∧ E' k = v2p p + 7 ∧
    ∀ x, in_page p x → kram s' x = 0) ∧
  (∀ k, k < lo ∨ hi ≤ k → U' !! k = U !! k ∧ E' k = E k).

Lemma alloc_range_step dir lo hi p s l T E U s1 l1 T1 s' l' T' E' U' :
  as_inv s (p :: l) dir T E U → lo < hi → U !! lo = None →
  as_inv s1 l1 dir T1 (<[lo := v2p p + 7]> E) (<[lo := p]> U) → T ⊆ T1 → kframe s s1 →
  vals T ++ l ≡ₚ vals T1 ++ l1 →
  only_pages (p :: dir :: vals T1) (kram s) (kram s1) →
  (∀ x, in_page p x → kram s1 x = 0) →
  alloc_range dir (lo + 1) hi s1 l1 T1 (<[lo := v2p p + 7]> E) (<[lo := p]> U) s' l' T' E' U' →
  alloc_range dir lo hi s (p :: l) T E U s' l' T' E' U'.
Proof.
  intros Hi Hlo HU Hi1 Hsub Hk Hperm Ho Hz (A1 & A2 & A3 & A4 & A5 & A6 & A7).
  assert (∀ x, x ∈ vals T1 ∨ x ∈ l1 ↔ x ∈ vals T ∨ x ∈ l) as Hin
    by (intros x; by rewrite <- !elem_of_app, Hperm).
  split_and!; [done|by eapply kframe_trans|by etrans| | | |].
  - rewrite <- A4, (vals_insert U) by done. symmetry. by apply perm_add_page.
  - eapply only_pages_trans; eapply only_pages_mono; [|exact Ho| |exact A5]; intros x;
      specialize (Hin x); rewrite !elem_of_cons, ?elem_of_app, ?elem_of_cons; tauto.
  - intros k Hk'. destruct (decide (k = lo)) as [->|Hne].
    + exists p. destruct (A7 lo ltac:(lia)) as [-> ->].
      rewrite lookup_insert_eq, fn_lookup_insert. split_and!; [done|by left|done|].
      intros x Hx. rewrite <- (Hz x Hx). apply A5. intros q Hq Hqx.
      destruct Hi1 as ((_ & Hf1 & _ & Hok & _) & Hnd & Hoku & _).
      assert (page_ok kend p) as Hp
        by (rewrite Forall_forall in Hoku; eapply Hoku, elem_of_vals, lookup_insert_eq).
      assert (page_ok kend q) as Hqok.
      { rewrite app_comm_cons in Hq. apply elem_of_app in Hq as [Hq|Hq].
        - rewrite Forall_forall in Hok. by apply Hok.
        - destruct Hf1 as (_ & _ & Hokl). rewrite Forall_forall in Hokl. by apply Hokl. }
      assert (q ≠ p) as Hqp.
      { intros ->. rewrite (vals_insert U), <- app_comm_cons, <- Permutation_middle in Hnd by done.
        rewrite Permutation_swap in Hnd. apply NoDup_cons in Hnd as [Hnd _]. apply Hnd.
        rewrite !elem_of_cons, !elem_of_app in *. tauto. }
      pose proof (pages_disjoint _ _ (proj1 Hqok) (proj1 Hp) Hqp). unfold in_page in *. lia.
    + destruct (A6 k ltac:(lia)) as (q & B1 & B2 & B3 & B4). exists q. split_and!; try done.
      right. destruct (proj1 (Hin q) (or_intror B2)) as [Hq|]; [|done]. exfalso.
      destruct Hi1 as ((_ & _ & Hnd & _) & _). apply NoDup_cons in Hnd as [_ Hnd].
      apply NoDup_app in Hnd as (_ & Hnd & _). by apply (Hnd q (vals_mono _ _ Hsub _ Hq)).
  - intros k Hk'. destruct (A7 k ltac:(lia)) as [-> ->].
    by rewrite lookup_insert_ne, fn_lookup_insert_ne by lia.
Qed.

Lemma allocuvm_loop_ok c fuel s l dir T E U lo oldsz newsz :
  as_inv s l dir T E U → 0 ≤ lo → newsz < KERNBASE →
  lo + Z.of_nat c = Z.max lo ((newsz + PGSIZE - 1) / PGSIZE) →
  (c < fuel)%nat → (2 * c ≤ length l)%nat → (∀ k, lo ≤ k < lo + Z.of_nat c → U !! k = None) →
  ∃ s' l' T' E' U', allocuvm_loop kend fuel dir (lo * PGSIZE) oldsz newsz s = Ret newsz s' ∧
    alloc_range dir lo (lo + Z.of_nat c) s l T E U s' l' T' E' U'.
Proof.
  revert fuel s l T E U lo. induction c as [|c IH];
    intros fuel s l T E U lo Hi Hlo Hnew Hc Hfuel Hlen HU; (destruct fuel as [|fuel]; [lia|]);
    cbn [allocuvm_loop].
  - destruct (Z.ltb_spec (lo * PGSIZE) newsz);
      [unfold PGSIZE in *; Z.div_mod_to_equations; lia|].
    exists s, l, T, E, U. split; [done|]. split_and!; try done. intros k Hk. lia.
  - destruct (Z.ltb_spec (lo * PGSIZE) newsz) as [Hlt|];
      [|unfold PGSIZE in *; Z.div_mod_to_equations; lia].
    destruct l as [|p l]; [cbn in Hlen; lia|].
    assert (0 ≤ lo < UPAGES) by (unfold UPAGES, PGSIZE, KERNBASE in *; lia).
    destruct (map_user_page s p l dir T E U lo Hi) as
      (s0 & s1 & l1 & T1 & Ek & Em & Hi1 & Hsub & Hk & Hperm & Hl1 & Ho & Hz); [done|apply HU; lia|
      left; destruct l; [cbn in Hlen; lia|done]|].
    rewrite (bind_Ret _ _ _ _ _ Ek).
    assert (page_ok kend p) as Hp
      by (destruct Hi as ((_ & (_ & _ & Hok) & _) & _); by apply Forall_cons in Hok as [? _]).
    rewrite (page_ok_nonzero kend) by done.
    destruct (IH fuel s1 l1 T1 (<[lo := v2p p + 7]> E) (<[lo := p]> U) (lo + 1))
      as (s' & l' & T' & E' & U' & El & Hr); try done; try lia.
    + cbn in Hlen. lia.
    + intros k Hk'. rewrite lookup_insert_ne by lia. apply HU. lia.
    + exists s', l', T', E', U'. split.
      * unfold bind in Em |- *. cbn [obind kmemset modify] in Em |- *. rewrite Em. cbn [obind].
        rewrite u32_small by (unfold PGSIZE, KERNBASE, W32 in *; lia).
        replace (lo * PGSIZE + PGSIZE) with ((lo + 1) * PGSIZE) by lia. done.
      * replace (lo + Z.of_nat (S c)) with (lo + 1 + Z.of_nat c) by lia.
        eapply alloc_range_step; try done; [lia|apply HU; lia].
Qed.

Lemma allocuvm_ok s l dir T E U oldsz newsz :
  as_inv s l dir T E U → 0 ≤ oldsz ≤ newsz → newsz < KERNBASE →
  let lo := (oldsz + PGSIZE - 1) / PGSIZE in
  let hi := (newsz + PGSIZE - 1) / PGSIZE in
  2 * (hi - lo) ≤ Z.of_nat (length l) → (∀ k, lo ≤ k < hi → U !! k = None) →
  ∃ s' l' T' E' U', allocuvm kend dir oldsz newsz s = Ret newsz s' ∧
    alloc_range dir lo hi s l T E U s' l' T' E' U'.
Proof.
  intros Hi Hold Hnew lo hi Hlen HU. unfold allocuvm.
  destruct (Z.leb_spec KERNBASE newsz); [lia|]. destruct (Z.ltb_spec newsz oldsz); [lia|].
  rewrite PGROUNDUP_eq by (unfold PGSIZE, KERNBASE, W32 in *; lia). fold lo.
  assert (lo ≤ hi) by (apply Z.div_le_mono; unfold PGSIZE; lia).
  assert (0 ≤ lo) by (apply Z.div_pos; unfold PGSIZE; lia).
  replace hi with (lo + Z.of_nat (Z.to_nat (hi - lo))) by lia.
  apply allocuvm_loop_ok; try done; [fold hi; lia| |lia|intros k Hk; apply HU; lia].
  assert (hi ≤ newsz / PGSIZE + 1) by (unfold hi, PGSIZE; Z.div_mod_to_equations; lia). lia.
Qed.

End user.

(** ** copyout *)

Section copy.
  Variable kend : Z.

(** The kernel address of a user byte. *)
Definition uaddr (U : gmap Z Z) (va : Z) : option Z :=
  p ← U !! (va / PGSIZE); Some (p + va mod PGSIZE).

Lemma uva2ka_ok s l dir T E U n p :
  as_inv kend s l dir T E U → U !! n = Some p → has PTE_U (E n) = true →
  uva2ka dir (n * PGSIZE) s = Ret p s.
Proof.
  intros Hi HU Hus. destruct (user_entry_table _ _ _ _ _ _ _ _ _ Hi HU) as (t & f & Ht & Hf & Ho & HE & Hld).
  pose proof (proj2 (proj2 (proj2 (proj2 Hi))) _ _ HU) as Hn.
  destruct (page_indices (n * PGSIZE) ltac:(unfold UPAGES, PGSIZE, W32 in *; lia)) as [Ed Et].
  rewrite Z.div_mul in Ed, Et by done. rewrite <- Ed in Ht.
  unfold uva2ka. rewrite (bind_Ret _ _ _ _ _ (walkpgdir_found _ _ _ _ _ _ _ 0 _ (proj1 Hi) Ht)).
  unfold bind, loadw. cbn [obind gets]. rewrite Et, Hld.
  assert (page_ok kend p) as Hp
    by (destruct Hi as (_ & _ & Hok & _); rewrite Forall_forall in Hok; by eapply Hok, elem_of_vals).
  rewrite has_P, odd_page, Ho by (by apply (v2p_aligned kend)). rewrite HE in Hus. rewrite Hus.
  cbn. by rewrite (page_roundtrip kend).
Qed.

(** A write inside a user page leaves the address space as it is. *)
Lemma as_inv_user_write s l dir T E U n p m' :
  as_inv kend s l dir T E U → U !! n = Some p → only_page p (kram s) m' →
  as_inv kend (set_kram m' s) l dir T E U.
Proof.
  intros (Hpt & Hnd & Hok & Hu) HU Ho.
  destruct (NoDup_free_user _ _ _ _ _ _ Hnd HU) as (N1 & N2 & N3 & _).
  assert (page_ok kend p) as Hp by (rewrite Forall_forall in Hok; by eapply Hok, elem_of_vals).
  destruct Hpt as (A1 & A2 & A3 & A4 & A5 & A6). split_and!; try done. split_and!; try done.
  - eapply free_rel_only_page; [done|apply Hp|done|done].
  - eapply pt_rel_frame; [done|done|apply Hp|done..].
Qed.

Definition user_bytes (E : Z → Z) (U : gmap Z Z) (va len : Z) : Prop :=
  ∀ k, va / PGSIZE ≤ k ≤ (va + len - 1) / PGSIZE → is_Some (U !! k) ∧ has PTE_U (E k) = true.

Lemma uaddr_Some U k p o : U !! k = Some p → 0 ≤ o < PGSIZE → uaddr U (k * PGSIZE + o) = Some (p + o).
Proof.
  intros HU Ho. unfold uaddr.
  assert ((k * PGSIZE + o) / PGSIZE = k ∧ (k * PGSIZE + o) mod PGSIZE = o) as [-> ->]
    by (unfold PGSIZE in *; Z.div_mod_to_equations; lia).
  by rewrite HU.
Qed.

(** Bytes of different user pages have different kernel addresses. *)
Lemma uaddr_page s l dir T E U va a k p :
  as_inv kend s l dir T E U → U !! k = Some p → uaddr U va = Some a → in_page p a → va / PGSIZE = k.
Proof.
  intros (_ & Hnd & Hok & _) HU Ha Hin. unfold uaddr in Ha.
  destruct (U !! (va / PGSIZE)) as [q|] eqn:Hq; [|done]. cbn in Ha. injection Ha as <-.
  rewrite Forall_forall in Hok.
  pose proof (Hok _ (elem_of_vals _ _ _ HU)) as (Hpm & _). pose proof (Hok _ (elem_of_vals _ _ _ Hq)) as (Hqm & _).
  destruct (decide (q = p)) as [->|Hne].
  - apply NoDup_cons in Hnd as [_ Hnd]. apply NoDup_app in Hnd as (_ & _ & Hnd).
    apply NoDup_app in Hnd as (Hnd & _). by eapply vals_inj.
  - pose proof (pages_disjoint _ _ Hqm Hpm Hne). unfold in_page, PGSIZE in *.
    Z.div_mod_to_equations. lia.
Qed.

(** Copying [n] bytes to offset [o] of user page [k], then the rest. *)
Lemma copy_chunk s s' l dir T E U k p o buf n len :
  as_inv kend s l dir T E U → U !! k = Some p → 0 ≤ o → 0 < n ≤ len → n ≤ PGSIZE - o →
  n = len ∨ n = PGSIZE - o →
  (∀ p x, p ∈ vals U → in_page p x → x < buf ∨ buf + len ≤ x) →
  let m1 := memmove (kram s) (p + o) buf n in
  let va := k * PGSIZE + o in
  let va' := k * PGSIZE + PGSIZE in
  (∀ i a, 0 ≤ i < len - n → uaddr U (va' + i) = Some a → kram s' a = m1 (buf + n + i)) →
  (∀ x, (∀ i, 0 ≤ i < len - n → uaddr U (va' + i) ≠ Some x) → kram s' x = m1 x) →
  (∀ i a, 0 ≤ i < len → uaddr U (va + i) = Some a → kram s' a = kram s (buf + i)) ∧
  (∀ x, (∀ i, 0 ≤ i < len → uaddr U (va + i) ≠ Some x) → kram s' x = kram s x).
Proof.
  intros Hi HU Ho Hn1 Hn2 Hn3 Hdis m1 va va' H1 H2.
  assert (∀ x, m1 x = if (p + o <=? x) && (x <? p + o + n) then kram s (buf + (x - (p + o))) else kram s x) as Hm1.
  { intros x. unfold m1. rewrite memmove_bytes. done. }
  assert (∀ i, 0 ≤ i < n → uaddr U (va + i) = Some (p + o + i)) as Hua.
  { intros i Hin. unfold va. rewrite <- Z.add_assoc, <- Z.add_assoc. apply uaddr_Some; [done|lia]. }
  assert (∀ x j, p + o ≤ x < p + o + n → 0 ≤ j < len - n → uaddr U (va' + j) ≠ Some x) as Hne.
  { intros x j Hx Hj Hux. pose proof (uaddr_page _ _ _ _ _ _ _ _ _ _ Hi HU Hux) as Hpg.
    unfold va', in_page, PGSIZE in *. specialize (Hpg ltac:(lia)). Z.div_mod_to_equations. lia. }
  split.
  - intros i a Hi' Ha. destruct (decide (i < n)).
    + rewrite Hua in Ha by lia. simplify_eq. rewrite H2 by (intros; apply Hne; lia).
      rewrite Hm1. case_test; [f_equal; lia|lia..].
    + rewrite (H1 (i - n)); [|lia|rewrite <- Ha; f_equal; unfold va, va'; lia].
      replace (buf + n + (i - n)) with (buf + i) by lia. rewrite Hm1. case_test; [|done..].
      pose proof (Hdis p (buf + i) (elem_of_vals _ _ _ HU)) as Hd. unfold in_page in Hd. lia.
  - intros x Hx. rewrite H2.
    + rewrite Hm1. case_test; [|done..]. exfalso. apply (Hx (x - (p + o))); [lia|].
      rewrite Hua by lia. f_equal. lia.
    + intros i Hi'. destruct Hn3 as [->|Hn3]; [lia|].
      replace (va' + i) with (va + (n + i)) by (unfold va, va'; lia). apply Hx. lia.
Qed.

Lemma copyout_loop_ok fuel s l dir T E U va buf len :
  as_inv kend s l dir T E U → 0 ≤ va → 0 ≤ len → va + len ≤ KERNBASE → 0 ≤ buf → buf + len < W32 →
  (len = 0 ∨ va mod PGSIZE + len ≤ PGSIZE * (Z.of_nat fuel - 1)) → (0 < fuel)%nat →
  (0 < len → user_bytes E U va len) →
  (∀ p x, p ∈ vals U → in_page p x → x < buf ∨ buf + len ≤ x) →
  ∃ s', copyout_loop fuel dir va buf len s = Ret 0 s' ∧ as_inv kend s' l dir T E U ∧ kframe s s' ∧
    (∀ i a, 0 ≤ i < len → uaddr U (va + i) = Some a → kram s' a = kram s (buf + i)) ∧
    (∀ x, (∀ i, 0 ≤ i < len → uaddr U (va + i) ≠ Some x) → kram s' x = kram s x).
Proof.
  revert s va buf len. induction fuel as [|fuel IH];
    intros s va buf len Hi Hva Hlen Hva2 Hb Hb2 Hfuel Hpos Hus Hdis; [lia|]. cbn [copyout_loop].
  destruct (Z.ltb_spec 0 len) as [Hl|Hl].
  2:{ exists s. split_and!; try done. intros i a Hia. lia. }
  destruct Hfuel as [|Hfuel]; [lia|].
  set (k := va / PGSIZE). set (o := va mod PGSIZE).
  assert (va = k * PGSIZE + o ∧ 0 ≤ o < PGSIZE ∧ 0 ≤ k) as (Eva & Ho & Hk)
    by (unfold k, o, PGSIZE; Z.div_mod_to_equations; lia).
  rewrite PGROUNDDOWN_eq. fold k.
  destruct (Hus Hl k) as [[p HU] Hpu].
  { fold k. split; [done|]. apply Z.div_le_mono; [done|lia]. }
  rewrite (bind_Ret _ _ _ _ _ (uva2ka_ok _ _ _ _ _ _ _ _ Hi HU Hpu)).
  assert (page_ok kend p) as Hp
    by (destruct Hi as (_ & _ & Hok & _); rewrite Forall_forall in Hok; by eapply Hok, elem_of_vals).
  rewrite (page_ok_nonzero kend) by done.
  replace (va - k * PGSIZE) with o by lia. rewrite (u32_small (PGSIZE - o)) by (unfold PGSIZE, W32 in *; lia).
  set (n := if len <? PGSIZE - o then len else PGSIZE - o).
  assert (0 < n ≤ len ∧ n ≤ PGSIZE - o ∧ (n = len ∨ n = PGSIZE - o)) as (Hn1 & Hn2 & Hn3)
    by (unfold n; case_test; lia).
  rewrite (u32_small (p + o)), (u32_small (k * PGSIZE + PGSIZE)), (u32_small (buf + n)), (u32_small (len - n))
    by (unfold page_ok, KERNBASE, PHYSTOP, PGSIZE, W32 in *; lia).
  set (s1 := set_kram (memmove (kram s) (p + o) buf n) s).
  assert (as_inv kend s1 l dir T E U) as Hi1.
  { eapply as_inv_user_write; [done|done|]. intros x Hx. rewrite memmove_bytes.
    unfold in_page in Hx. case_test; lia || done. }
  destruct (IH s1 (k * PGSIZE + PGSIZE) (buf + n) (len - n)) as (s' & El & Hi' & Hk' & H1 & H2);
    try done; try (unfold KERNBASE, PGSIZE in *; lia).
  - destruct Hn3 as [->|Hn3]; [left; lia|right].
    replace (k * PGSIZE + PGSIZE) with ((k + 1) * PGSIZE) by lia. rewrite Z.mod_mul by done.
    fold o in Hfuel. unfold PGSIZE in *. lia.
  - intros Hl' j Hj. destruct Hn3 as [->|Hn3]; [lia|]. apply Hus; [done|].
    fold k. unfold PGSIZE in *. Z.div_mod_to_equations. lia.
  - intros q x Hq Hx. destruct (Hdis q x Hq Hx); lia.
  - exists s'. split; [done|]. split; [done|]. split; [by eapply kframe_trans|].
    rewrite Eva. apply (copy_chunk s s' l dir T E U k p o buf n len); try done; lia.
Qed.

End copy.

(** ** Properties of user memory *)

Lemma as_inv_user_pte kend s l dir T E U va :
  as_inv kend s l dir T E U → 0 ≤ va < KERNBASE → U !! (va / PGSIZE) = None →
  pte_at (kram s) dir va = None.
Proof.
  intros Hi Hva HU. rewrite (pte_at_entries _ _ _ _ _ _ _ (proj1 Hi)) by (unfold KERNBASE, W32 in *; lia).
  destruct Hi as (_ & _ & _ & [H1 _]). specialize (H1 (va / PGSIZE)). rewrite HU in H1.
  rewrite H1; [done|]. unfold UPAGES, KERNBASE, PGSIZE in *. Z.div_mod_to_equations. lia.
Qed.

Lemma as_inv_same_pte kend s l dir T E U s' l' T' E' U' va :
  as_inv kend s l dir T E U → as_inv kend s' l' dir T' E' U' → 0 ≤ va < W32 →
  E' (va / PGSIZE) = E (va / PGSIZE) → pte_at (kram s') dir va = pte_at (kram s) dir va.
Proof.
  intros Hi Hi' Hva HE. rewrite (pte_at_entries _ _ _ _ _ _ _ (proj1 Hi) Hva).
  by rewrite (pte_at_entries _ _ _ _ _ _ _ (proj1 Hi') Hva), HE.
Qed.

(** C22: allocuvm grows a process.  With enough free pages for the new user
    pages and the page tables they may need, it returns the new size; every
    new page is translated, user-writable, to a zeroed page that was free;
    every other address is translated as before; the bytes of the pages the
    process already had are untouched; and no page is lost. *)
Theorem allocuvm_grows kend s l dir T E U oldsz newsz :
  as_inv kend s l dir T E U → 0 ≤ oldsz ≤ newsz → newsz < KERNBASE →
  let lo := (oldsz + PGSIZE - 1) / PGSIZE in
  let hi := (newsz + PGSIZE - 1) / PGSIZE in
  2 * (hi - lo) ≤ Z.of_nat (length l) → (∀ k, lo ≤ k < hi → U !! k = None) →
  ∃ s' l' T' E' U', allocuvm kend dir oldsz newsz s = Ret newsz s' ∧
    as_inv kend s' l' dir T' E' U' ∧
    (∀ va, 0 ≤ va < W32 →
      if (lo * PGSIZE <=? va) && (va <? hi * PGSIZE) then
        ∃ p, p ∈ l ∧ pte_at (kram s') dir va = Some (v2p p + 7) ∧
          ∀ x, in_page p x → kram s' x = 0
      else pte_at (kram s') dir va = pte_at (kram s) dir va) ∧
    (∀ p x, p ∈ vals U → in_page p x → kram s' x = kram s x) ∧
    vals T ++ vals U ++ l ≡ₚ vals T' ++ vals U' ++ l'.
Proof.
  intros Hi Hold Hnew lo hi Hlen HU.
  destruct (allocuvm_ok kend s l dir T E U oldsz newsz Hi Hold Hnew Hlen HU)
    as (s' & l' & T' & E' & U' & Er & Hi' & _ & Hsub & Hperm & Ho & Hin & Hout).
  exists s', l', T', E', U'. split; [done|]. split; [done|]. split_and!; [| |done].
  - intros va Hva. destruct (_ && _) eqn:Hb; bools.
    1:{ destruct (Hin (va / PGSIZE)) as (p & _ & Hpl & HE & Hz);
          [unfold PGSIZE in *; Z.div_mod_to_equations; lia|].
        exists p. split_and!; try done. rewrite (pte_at_entries _ _ _ _ _ _ _ (proj1 Hi') Hva), HE.
        assert (page_ok kend p) as Hp.
        { destruct Hi as ((_ & (_ & _ & Hok) & _) & _). rewrite Forall_forall in Hok. by apply Hok. }
        by rewrite (odd_pte kend). }
    1-2: eapply as_inv_same_pte; try done; apply Hout; unfold PGSIZE in *; Z.div_mod_to_equations; lia.
  - intros p x Hp Hx. apply Ho. intros q Hq Hqx. destruct Hi as ((_ & (_ & _ & Hokl) & _ & Hok & _) & Hnd & Hoku & _).
    rewrite Forall_forall in Hok, Hokl, Hoku.
    assert (page_ok kend q) as Hqok.
    { rewrite app_comm_cons in Hq. apply elem_of_app in Hq as [Hq|Hq]; eauto. }
    assert (q ≠ p) as Hne.
    { intros ->. rewrite (Permutation_app_swap_app (vals T)), Permutation_middle in Hnd.
      apply NoDup_app in Hnd as (_ & Hnd & _). by apply (Hnd p Hp). }
    pose proof (pages_disjoint _ _ (proj1 Hqok) (proj1 (Hoku p Hp)) Hne). unfold in_page in *. lia.
Qed.

(** Deallocuvm shrinks a process: it returns the new size, the pages from
    there to the old size are no longer present and are back on the free
    list, and every other address is translated as before. *)
Theorem deallocuvm_shrinks kend s l dir T E U oldsz newsz :
  KERNBASE < kend → as_inv kend s l dir T E U → 0 ≤ newsz < oldsz → oldsz ≤ KERNBASE →
  (T !! PDX (PGROUNDUP newsz) = None → PGROUNDUP newsz mod 4194304 = 0) →
  let lo := (newsz + PGSIZE - 1) / PGSIZE in
  let hi := (oldsz + PGSIZE - 1) / PGSIZE in
  ∃ s' l' E' U', deallocuvm kend dir oldsz newsz s = Ret newsz s' ∧
    as_inv kend s' l' dir T E' U' ∧ vals U ++ l ≡ₚ vals U' ++ l' ∧
    (∀ k, U' !! k = if (lo <=? k) && (k <? hi) then None else U !! k) ∧
    (∀ va, 0 ≤ va < W32 → pte_at (kram s') dir va =
      if (lo * PGSIZE <=? va) && (va <? hi * PGSIZE) then None else pte_at (kram s) dir va).
Proof.
  intros Hkend Hi Hnew Hold Hal lo hi.
  destruct (deallocuvm_ok kend Hkend s l dir T E U oldsz newsz Hi Hnew Hold Hal)
    as (s' & l' & E' & U' & Er & Hi' & Hperm & _ & _ & HU & HE).
  exists s', l', E', U'. split_and!; try done. intros va Hva. destruct (_ && _) eqn:Hb; bools.
  1:{ eapply as_inv_user_pte; [done|unfold hi, KERNBASE, PGSIZE in *; Z.div_mod_to_equations; lia|].
      rewrite HU. case_test; [done|unfold lo, hi, PGSIZE in *; Z.div_mod_to_equations; lia..]. }
  all: eapply as_inv_same_pte; try done; apply HE; unfold lo, hi, PGSIZE in *; Z.div_mod_to_equations; lia.
Qed.

(** C24: freevm gives back everything: the user pages, every page table and
    the directory are all on the free list afterwards, next to the pages that
    were free before, and no memory outside them changes. *)
Theorem freevm_frees_all kend s l dir T E U :
  KERNBASE < kend → as_inv kend s l dir T E U →
  ∃ s' l', freevm kend dir s = Ret tt s' ∧ free_rel kend s' l' ∧
    l' ≡ₚ dir :: vals T ++ vals U ++ l ∧ kheld s' = kheld s ∧
    only_pages (dir :: vals T ++ vals U) (kram s) (kram s').
Proof.
  intros Hkend Hi. destruct (freevm_ok kend Hkend s l dir T E U Hi) as (s' & l' & Er & Hf & Hp & Hk & Ho).
  exists s', l'. split_and!; try done. apply Hk.
Qed.

(** C21: copyout writes user memory.  If the pages of [va .. va+len) are
    present and user-accessible it returns 0, and afterwards the process
    reads the buffer's bytes there; no other byte changes, and the address
    space stays well formed. *)
Theorem copyout_copies kend s l dir T E U va buf len :
  as_inv kend s l dir T E U → 0 ≤ va → 0 ≤ len → va + len ≤ KERNBASE →
  0 ≤ buf → buf + len < W32 → (0 < len → user_bytes E U va len) →
  (∀ p x, p ∈ vals U → in_page p x → x < buf ∨ buf + len ≤ x) →
  ∃ s', copyout dir va buf len s = Ret 0 s' ∧ as_inv kend s' l dir T E U ∧
    (∀ i a, 0 ≤ i < len → uaddr U (va + i) = Some a → kram s' a = kram s (buf + i)) ∧
    (∀ x, (∀ i, 0 ≤ i < len → uaddr U (va + i) ≠ Some x) → kram s' x = kram s x).
Proof.
  intros Hi Hva Hlen Hva2 Hb Hb2 Hus Hdis. unfold copyout.
  destruct (copyout_loop_ok kend (Z.to_nat (len / PGSIZE + 3)) s l dir T E U va buf len)
    as (s' & Er & Hi' & _ & H1 & H2); try done.
  - right. unfold PGSIZE. Z.div_mod_to_equations. lia.
  - unfold PGSIZE. Z.div_mod_to_equations. lia.
  - exists s'. done.
Qed.

(** Allocuvm does not look at mappages' result.  When the last free page
    goes to user memory and none is left for the page table it needs,
    allocuvm still returns the new size, though the page is not mapped, and
    the page is lost: it is on the free list no more. *)
Theorem allocuvm_ignores_mappages_failure kend s p dir T E U n :
  as_inv kend s [p] dir T E U → 0 ≤ n < UPAGES - 1 → T !! (n / 1024) = None →
  ∃ s', allocuvm kend dir (n * PGSIZE) ((n + 1) * PGSIZE) s = Ret ((n + 1) * PGSIZE) s' ∧
    pte_at (kram s') dir (n * PGSIZE) = None ∧ free_rel kend s' [] ∧
    p ∉ dir :: vals T ++ vals U.
Proof.
  intros (Hpt & Hnd & _ & _) Hn Ht.
  destruct (alloc_zeroed _ _ _ _ _ _ _ Hpt) as (s0 & Ek & _ & _ & Hp & Hpt1).
  set (s1 := set_kram (memset (kram s0) p 0 PGSIZE) s0) in *.
  assert (0 ≤ n * PGSIZE < W32) as Hna by (unfold UPAGES, PGSIZE, W32 in *; lia).
  assert (E n = 0) as HE.
  { destruct Hpt1 as (_ & _ & _ & _ & [_ H2] & _). specialize (H2 n ltac:(unfold UPAGES in *; lia)). by rewrite Ht in H2. }
  exists s1. split_and!.
  - unfold allocuvm. destruct (Z.leb_spec KERNBASE ((n + 1) * PGSIZE));
      [unfold UPAGES, KERNBASE, PGSIZE in *; lia|].
    destruct (Z.ltb_spec ((n + 1) * PGSIZE) (n * PGSIZE)); [unfold PGSIZE in *; lia|].
    rewrite PGROUNDUP_eq by (unfold UPAGES, PGSIZE, W32 in *; lia).
    replace ((n * PGSIZE + PGSIZE - 1) / PGSIZE) with n by (unfold PGSIZE; Z.div_mod_to_equations; lia).
    rewrite Z.div_mul by done. replace (Z.to_nat (n + 1 + 2)) with (S (S (Z.to_nat (n + 1)))) by lia.
    cbn [allocuvm_loop]. destruct (Z.ltb_spec (n * PGSIZE) ((n + 1) * PGSIZE)); [|unfold PGSIZE in *; lia].
    rewrite (bind_Ret _ _ _ _ _ Ek), (page_ok_nonzero kend) by done.
    unfold bind at 1. cbn [obind kmemset modify]. fold s1.
    rewrite (bind_Ret _ _ _ _ _ (mappages_nomem kend _ _ _ _ n _ _ _ Hpt1 ltac:(unfold UPAGES in *; lia) Ht)).
    rewrite u32_small by (unfold UPAGES, PGSIZE, W32 in *; lia).
    destruct (Z.ltb_spec (n * PGSIZE + PGSIZE) ((n + 1) * PGSIZE)); [lia|done].
  - rewrite (pte_at_entries _ _ _ _ _ _ _ Hpt1 Hna), Z.div_mul, HE by done. done.
  - apply Hpt1.
  - rewrite app_assoc, app_comm_cons in Hnd. apply NoDup_app in Hnd as (_ & Hnd & _).
    intros Hin. apply (Hnd p Hin). in_list.
Qed.

(** Deallocuvm steps over mapped pages.  If the page table of the start
    address is missing and the address is not the first of its 4MB region,
    the skip of a whole table's pages lands in the middle of the next region:
    here the page at 4MB stays mapped and allocated although the size that
    deallocuvm is asked for, and returns, is one page. *)
Theorem deallocuvm_skips_mapped_page kend s l dir T E U p :
  as_inv kend s l dir T E U → T !! 0 = None → U !! 1024 = Some p →
  deallocuvm kend dir 4198400 4096 s = Ret 4096 s ∧
  is_Some (pte_at (kram s) dir 4194304).
Proof.
  intros Hi HT HU. split.
  - unfold deallocuvm. change (4198400 <=? 4096) with false. change (PGROUNDUP 4096) with 4096.
    assert (∀ f, deallocuvm_loop kend (S (S f)) dir 4096 4198400 s = Ret tt s) as Hloop.
    { intros f. cbn [deallocuvm_loop]. change (4096 <? 4198400) with true. cbv iota.
      rewrite (bind_Ret _ _ _ _ _ (walkpgdir_absent kend s l dir T E 4096 (proj1 Hi) HT)). cbn [Z.eqb].
      change (4096 +u (NPTENTRIES - 1) * PGSIZE +u PGSIZE) with 4198400. by rewrite Z.ltb_irrefl. }
    replace (Z.to_nat (4198400 / PGSIZE + 2)) with (S (S (Z.to_nat 1025))) by done.
    cbv iota. by rewrite (bind_Ret _ _ _ _ _ (Hloop _)).
  - rewrite (pte_at_entries _ _ _ _ _ _ _ (proj1 Hi)) by (unfold W32; lia).
    change (4194304 / PGSIZE) with 1024.
    destruct (user_entry_table _ _ _ _ _ _ _ _ _ Hi HU) as (_ & f & _ & _ & Ho & HE & _).
    assert (page_ok kend p) as Hp
      by (destruct Hi as (_ & _ & Hok & _); rewrite Forall_forall in Hok; by eapply Hok, elem_of_vals).
    rewrite HE, odd_page, Ho by (by apply (v2p_aligned kend)). by eexists.
Qed.

(** ** A small address space

    A directory with one page table (at index [i]) and one user page, and
    three more pages linked into a list. *)
Definition exP (k : Z) : Z := KERNBASE + PGSIZE * k.
Definition ex_ram (i : Z) : mem :=
  st32 (st32 (st32 (st32 (λ _, 0) (exP 1 + 4 * i) (v2p (exP 2) + 7)) (exP 2) (v2p (exP 3) + 7))
    (exP 4) (exP 5)) (exP 5) (exP 6).
Definition ex_kst (i first : Z) : kst := mk_kst [] (ex_ram i) 1 first [].
Definition ex_E (i : Z) : Z → Z := λ n, if n =? 1024 * i then v2p (exP 3) + 7 else 0.

Lemma ex_page_ok k : 1 ≤ k < 100 → page_ok (exP 1) (exP k).
Proof.
  intros. unfold page_ok, exP, PGSIZE, KERNBASE, PHYSTOP. split_and!; try lia.
  Z.div_mod_to_equations. lia.
Qed.

Lemma ex_pt_rel i : 0 ≤ i < 512 → pt_rel (ex_ram i) (exP 1) {[i := exP 2]} (ex_E i).
Proof.
  intros Hi. split.
  - intros j Hj. unfold ex_ram. rewrite !ld32_st32_ne by (unfold exP, PGSIZE; lia).
    destruct (decide (j = i)) as [->|Hne].
    + rewrite lookup_singleton_eq, ld32_st32. reflexivity.
    + rewrite lookup_singleton_ne, ld32_st32_ne by (done || lia). done.
  - intros n Hn. unfold ex_E. destruct (decide (n / 1024 = i)) as [Heq|Hne].
    + rewrite Heq, lookup_singleton_eq. unfold ex_ram.
      rewrite !(ld32_st32_ne _ (exP 5)), !(ld32_st32_ne _ (exP 4))
        by (unfold exP, PGSIZE; Z.div_mod_to_equations; lia).
      destruct (Z.eqb_spec n (1024 * i)) as [->|].
      * replace ((1024 * i) mod 1024) with 0 by (Z.div_mod_to_equations; lia).
        rewrite Z.add_0_r, ld32_st32. reflexivity.
      * rewrite !ld32_st32_ne by (unfold exP, PGSIZE; Z.div_mod_to_equations; lia). done.
    + rewrite lookup_singleton_ne by done. destruct (Z.eqb_spec n (1024 * i)) as [->|]; [|done].
      exfalso. apply Hne. Z.div_mod_to_equations. lia.
Qed.

Lemma ex_user_rel i : 0 ≤ i < 512 → user_rel (ex_E i) {[1024 * i := exP 3]}.
Proof.
  intros Hi. split.
  - intros n Hn. unfold ex_E. destruct (Z.eqb_spec n (1024 * i)) as [->|].
    + rewrite lookup_singleton_eq. exists 7. split_and!; try lia; done.
    + by rewrite lookup_singleton_ne by done.
  - intros n p [<- <-]%lookup_singleton_Some. unfold UPAGES. lia.
Qed.

Lemma ex_chain i : 0 ≤ i < 512 →
  ld32 (ex_ram i) (exP 4) = exP 5 ∧ ld32 (ex_ram i) (exP 5) = exP 6 ∧ ld32 (ex_ram i) (exP 6) = 0.
Proof.
  intros Hi. unfold ex_ram. split_and!.
  - rewrite (ld32_st32_ne _ (exP 5)) by (unfold exP, PGSIZE; lia). by rewrite ld32_st32.
  - by rewrite ld32_st32.
  - rewrite !ld32_st32_ne by (unfold exP, PGSIZE; lia). done.
Qed.

Lemma ex_as_inv i first l :
  0 ≤ i < 512 → (first = exP 4 ∧ l = [exP 4; exP 5; exP 6]) ∨ (first = exP 6 ∧ l = [exP 6]) →
  as_inv (exP 1) (ex_kst i first) l (exP 1) {[i := exP 2]} (ex_E i) {[1024 * i := exP 3]}.
Proof.
  intros Hi Hl. destruct (ex_chain i Hi) as (C1 & C2 & C3).
  assert (NoDup [exP 1; exP 2; exP 3; exP 4; exP 5; exP 6]) as Hnd
    by (apply (bool_decide_unpack _); reflexivity).
  assert (l `sublist_of` [exP 4; exP 5; exP 6]) as Hsub.
  { destruct Hl as [[_ ->]|[_ ->]]; [done|]. do 2 constructor. done. }
  assert (Forall (page_ok (exP 1)) l) as Hokl.
  { destruct Hl as [[_ ->]|[_ ->]]; repeat constructor; apply ex_page_ok; lia. }
  assert (free_rel (exP 1) (ex_kst i first) l) as Hfree.
  { split_and!; [|by eapply sublist_NoDup; [|exact Hsub]; apply (bool_decide_unpack _)|done].
    cbn. destruct Hl as [[-> ->]|[-> ->]]; cbn [chain]; rewrite ?C1, ?C2, ?C3; done. }
  unfold as_inv, pt_inv, vals. rewrite !map_to_list_singleton. cbn [fmap list_fmap snd app].
  split_and!; try done.
  - right. apply not_elem_of_nil.
  - eapply sublist_NoDup; [exact Hnd|]. by do 3 constructor.
  - repeat constructor; apply ex_page_ok; lia.
  - by apply ex_pt_rel.
  - intros j t [<- _]%lookup_singleton_Some. lia.
  - eapply sublist_NoDup; [exact Hnd|]. by do 3 constructor.
  - repeat constructor; apply ex_page_ok; lia.
  - by apply ex_user_rel.
Qed.

Lemma mappages_maps_witness :
  ∃ r s', mappages (exP 1) 4096 8192 0 PTE_W (ex_kst 0 (exP 4)) = Ret r s' ∧ r = 0.
Proof.
  destruct (mappages_maps (exP 1) (ex_kst 0 (exP 4)) [exP 4; exP 5; exP 6] (exP 1) {[0 := exP 2]}
    (ex_E 0) 4096 8192 0 PTE_W) as (r & s' & Er & _ & H0 & _).
  - apply (ex_as_inv 0 (exP 4)); [lia|by left].
  - lia.
  - lia.
  - unfold W32. lia.
  - reflexivity.
  - lia.
  - reflexivity.
  - unfold PTE_W. lia.
  - intros x Hx. change (PGROUNDDOWN 4096) with 4096 in Hx.
    apply (as_inv_user_pte _ _ _ _ _ _ _ _ (ex_as_inv 0 (exP 4) _ ltac:(lia) ltac:(by left)));
      [unfold KERNBASE; lia|].
    apply lookup_singleton_ne. unfold PGSIZE. Z.div_mod_to_equations. lia.
  - exists r, s'. split; [exact Er|]. apply H0. reflexivity.
Defined.

Lemma allocuvm_grows_witness :
  ∃ s' l' T' E' U', allocuvm (exP 1) (exP 1) 4096 8000 (ex_kst 0 (exP 4)) = Ret 8000 s' ∧
    as_inv (exP 1) s' l' (exP 1) T' E' U'.
Proof.
  destruct (allocuvm_grows (exP 1) (ex_kst 0 (exP 4)) [exP 4; exP 5; exP 6] (exP 1) {[0 := exP 2]}
    (ex_E 0) {[0 := exP 3]} 4096 8000) as (s' & l' & T' & E' & U' & Er & Hi & _).
  - apply (ex_as_inv 0 (exP 4)); [lia|by left].
  - lia.
  - unfold KERNBASE. lia.
  - vm_compute. discriminate.
  - intros k Hk. change ((4096 + PGSIZE - 1) / PGSIZE) with 1 in Hk. apply lookup_singleton_ne. lia.
  - exists s', l', T', E', U'. split; [exact Er|exact Hi].
Defined.

Lemma deallocuvm_shrinks_witness :
  ∃ s' l' E' U', deallocuvm (exP 1) (exP 1) 4096 0 (ex_kst 0 (exP 4)) = Ret 0 s' ∧
    as_inv (exP 1) s' l' (exP 1) {[0 := exP 2]} E' U' ∧ vals {[0 := exP 3]} ++ [exP 4; exP 5; exP 6] ≡ₚ vals U' ++ l'.
Proof.
  destruct (deallocuvm_shrinks (exP 1) (ex_kst 0 (exP 4)) [exP 4; exP 5; exP 6] (exP 1) {[0 := exP 2]}
    (ex_E 0) {[0 := exP 3]} 4096 0) as (s' & l' & E' & U' & Er & Hi & Hp & _).
  - reflexivity.
  - apply (ex_as_inv 0 (exP 4)); [lia|by left].
  - lia.
  - unfold KERNBASE. lia.
  - intros _. reflexivity.
  - exists s', l', E', U'. split; [exact Er|]. split; [exact Hi|exact Hp].
Defined.

Lemma freevm_frees_all_witness :
  ∃ s' l', freevm (exP 1) (exP 1) (ex_kst 0 (exP 4)) = Ret tt s' ∧ free_rel (exP 1) s' l' ∧
    l' ≡ₚ [exP 1; exP 2; exP 3; exP 4; exP 5; exP 6].
Proof.
  destruct (freevm_frees_all (exP 1) (ex_kst 0 (exP 4)) [exP 4; exP 5; exP 6] (exP 1) {[0 := exP 2]}
    (ex_E 0) {[0 := exP 3]}) as (s' & l' & Er & Hf & Hp & _).
  - reflexivity.
  - apply (ex_as_inv 0 (exP 4)); [lia|by left].
  - exists s', l'. split; [exact Er|]. split; [exact Hf|exact Hp].
Defined.

Lemma copyout_copies_witness :
  ∃ s', copyout (exP 1) 4000 (exP 4) 4 (ex_kst 0 (exP 4)) = Ret 0 s' ∧
    kram s' (exP 3 + 4001) = kram (ex_kst 0 (exP 4)) (exP 4 + 1).
Proof.
  destruct (copyout_copies (exP 1) (ex_kst 0 (exP 4)) [exP 4; exP 5; exP 6] (exP 1) {[0 := exP 2]}
    (ex_E 0) {[0 := exP 3]} 4000 (exP 4) 4) as (s' & Er & _ & H1 & _).
  - apply (ex_as_inv 0 (exP 4)); [lia|by left].
  - lia.
  - lia.
  - unfold KERNBASE. lia.
  - unfold exP, KERNBASE, PGSIZE. lia.
  - unfold exP, KERNBASE, PGSIZE, W32. lia.
  - intros _ k Hk. change (4000 / PGSIZE) with 0 in Hk. change ((4000 + 4 - 1) / PGSIZE) with 0 in Hk.
    assert (k = 0) as -> by lia. split; [by eexists|reflexivity].
  - intros p x Hp Hx. unfold vals in Hp. rewrite map_to_list_singleton in Hp.
    apply list_elem_of_singleton in Hp as ->. unfold in_page, exP, PGSIZE in *. cbn [snd] in Hx. lia.
  - exists s'. split; [exact Er|]. apply (H1 1); [lia|reflexivity].
Defined.

Lemma allocuvm_ignores_mappages_failure_witness :
  ∃ s', allocuvm (exP 1) (exP 1) (2048 * PGSIZE) (2049 * PGSIZE) (ex_kst 0 (exP 6)) = Ret (2049 * PGSIZE) s' ∧
    pte_at (kram s') (exP 1) (2048 * PGSIZE) = None.
Proof.
  destruct (allocuvm_ignores_mappages_failure (exP 1) (ex_kst 0 (exP 6)) (exP 6) (exP 1) {[0 := exP 2]}
    (ex_E 0) {[0 := exP 3]} 2048) as (s' & Er & Hn & _).
  - apply (ex_as_inv 0 (exP 6)); [lia|by right].
  - unfold UPAGES. lia.
  - reflexivity.
  - exists s'. split; [exact Er|exact Hn].
Defined.

Lemma deallocuvm_skips_mapped_page_witness :
  deallocuvm (exP 1) (exP 1) 4198400 4096 (ex_kst 1 (exP 4)) = Ret 4096 (ex_kst 1 (exP 4)).
Proof.
  apply (deallocuvm_skips_mapped_page (exP 1) (ex_kst 1 (exP 4)) [exP 4; exP 5; exP 6] (exP 1)
    {[1 := exP 2]} (ex_E 1) {[1024 := exP 3]} (exP 3)).
  - apply (ex_as_inv 1 (exP 4)); [lia|by left].
  - reflexivity.
  - reflexivity.
Defined.
