(* ===== verification/Kvm.v ===== *)
(** * The kernel's page table (setupkvm of vm.c)

    [kernel_pte] is the translation that the comment before kmap describes: low
    memory and the devices, the kernel's text read only, its data and the rest of
    physical memory writable, nothing of it for user mode, and nothing below
    KERNBASE.

    The theorem: setupkvm builds exactly this, from 65 pages; with fewer it
    gives up and does not return those it took. *)
From S2P Require Import Prelude Kernel CString Spinlock Kalloc Vm.

Local Open Scope Z_scope.
Local Open Scope kernel_scope.

(** ** Specification *)

(** The page table entry of the page with [va]. *)
Definition kernel_pte (data va : Z) : option Z :=
  let pg := va / PGSIZE * PGSIZE in
  if (KERNBASE <=? va) && (va <? KERNBASE + PHYSTOP) then
    Some (pg - KERNBASE + (if (KERNLINK <=? va) && (va <? data) then PTE_P else PTE_W + PTE_P))
  else if DEVSPACE <=? va then Some (pg + (PTE_W + PTE_P))
  else None.

(** ** Page tables needed *)

(** The indices of the directory for kernel memory and for devices. *)
Definition kernel_slots : list Z := seqZ 512 56 ++ seqZ 1016 8.

Lemma kernel_slots_spec i : i ∈ kernel_slots ↔ 512 ≤ i < 568 ∨ 1016 ≤ i < 1024.
Proof. unfold kernel_slots. rewrite elem_of_app, !elem_of_seqZ. lia. Qed.

(** Tables only at these indices; [miss] is one that is missing. *)
Definition kernel_tables (T : gmap Z Z) : Prop := ∀ i, is_Some (T !! i) → i ∈ kernel_slots.

Abbreviation slot_set := (list_to_set kernel_slots : gset Z).

Lemma slot_set_size : size slot_set = 64%nat.
Proof. vm_compute. reflexivity. Qed.

Lemma kernel_tables_miss T i : kernel_tables T → i ∈ kernel_slots → T !! i = None → (size T < 64)%nat.
Proof.
  intros HT Hi Hn. rewrite <- (size_dom T), <- slot_set_size. apply subset_size. split.
  - intros j Hj%elem_of_dom. by apply elem_of_list_to_set, HT.
  - intros Hs. apply not_elem_of_dom in Hn. apply Hn, Hs. by apply elem_of_list_to_set.
Qed.

Lemma kernel_tables_all T : kernel_tables T → (∀ i, i ∈ kernel_slots → is_Some (T !! i)) → size T = 64%nat.
Proof.
  intros HT Ha. rewrite <- (size_dom T), <- slot_set_size. f_equal. apply set_eq. intros i.
  rewrite elem_of_dom, elem_of_list_to_set. split; auto.
Qed.

Lemma vals_length T : length (vals T) = size T.
Proof. unfold vals. rewrite length_fmap. apply length_map_to_list. Qed.

Ltac num := unfold KERNBASE, PHYSTOP, EXTMEM, DEVSPACE, PGSIZE, W32 in *.

Section kvm.
  Variable kend : Z.

(** ** One entry of kmap *)

Lemma kmap_entry_ok s l dir T E v n pa perm (L : list Z) :
  pt_inv kend s l dir T E → kernel_tables T → L ≡ₚ vals T ++ l →
  pa mod PGSIZE = 0 → 0 < n → 0 ≤ v → v + n ≤ 1048576 → 0 ≤ pa → pa + PGSIZE * n ≤ W32 → 0 ≤ perm < 4096 →
  (∀ k, v ≤ k < v + n → E k = 0 ∧ k / 1024 ∈ kernel_slots) →
  ∃ r s' l' T', mappages dir (PGSIZE * v) (PGSIZE * n) pa perm s = Ret r s' ∧ kernel_tables T' ∧ L ≡ₚ vals T' ++ l' ∧ kframe s s' ∧ only_pages (dir :: L) (kram s) (kram s') ∧
    (r = 0 ∧ pt_inv kend s' l' dir T' (mapped E v n pa perm) ∨ r = -1 ∧ l' = [] ∧ free_rel kend s' [] ∧ (length L < 64)%nat).
Proof.
  intros Hi HT HN Hpa Hn Hv1 Hv2 Hpa1 Hpa2 Hperm HE. assert (PGSIZE * v / PGSIZE = v) as Ev by (rewrite Z.mul_comm; by apply Z.div_mul).
  assert (Z.of_nat (npages (PGSIZE * v) (PGSIZE * n)) = n - 1) as Hc.
  { unfold npages. rewrite PGROUNDDOWN_eq. unfold PGSIZE in *. Z.div_mod_to_equations. lia. }
  destruct (mappages_ok kend s l dir T E (PGSIZE * v) (PGSIZE * n) pa perm) as (r & s' & l' & T' & j & Er & Hi' & (G1 & G2 & G3 & G4) & _ & Hdom & Hr);
    try done; rewrite ?Hc, ?Ev; try (unfold PGSIZE, W32 in *; lia).
  { intros k Hk. destruct (HE k) as [-> _]; [lia|done]. }
  rewrite Hc, Ev in *. assert (kernel_tables T') as HT'.
  { intros i Hi2. destruct (decide (i < v / 1024 ∨ (v + (n - 1)) / 1024 < i)) as [Ho|Ho]; [apply HT; by rewrite <- Hdom|].
    destruct (HE (Z.max v (1024 * i))) as [_ Hk]; [Z.div_mod_to_equations; lia|].
    replace (Z.max v (1024 * i) / 1024) with i in Hk by (Z.div_mod_to_equations; lia). done. }
  assert (L ≡ₚ vals T' ++ l') as HN' by (by etrans).
  assert (only_pages (dir :: L) (kram s) (kram s')) as Hm.
  { eapply only_pages_mono; [|exact G4]. intros x. rewrite !elem_of_cons, HN', elem_of_app. tauto. }
  exists r, s', l', T'. split_and!; [done..|]. destruct Hr as [[-> ->]|(-> & Hj & -> & Hnone)]; [left; split; [done|]|right].
  - by replace n with (n - 1 + 1) by lia.
  - split_and!; [done|done|apply Hi'|]. rewrite HN', app_nil_r, vals_length. eapply kernel_tables_miss; [done| |done]. apply HE. lia.
Qed.

(** Memory may change outside the directory and its tables. *)
Lemma pt_inv_change s s' l l' dir T E :
  (∀ p x, p ∈ dir :: vals T → in_page p x → kram s' x = kram s x) →
  kunlocked s' → free_rel kend s' l' → NoDup (dir :: vals T ++ l') →
  pt_inv kend s l dir T E → pt_inv kend s' l' dir T E.
Proof.
  intros Hm Hu Hf Hn (_ & _ & _ & Hok & [H1 H2] & Hdom).
  assert (∀ p k, p ∈ dir :: vals T → 0 ≤ k < 1024 → ld32 (kram s') (p + 4 * k) = ld32 (kram s) (p + 4 * k)) as Hw.
  { intros p k Hp Hk. apply ld32_ext. intros x Hx. apply (Hm p); [done|]. unfold in_page, PGSIZE. lia. }
  split_and!; try done. split.
  - intros i Hi. rewrite Hw by (done || in_list). by apply H1.
  - intros n Hn'. specialize (H2 n Hn'). destruct (T !! (n / 1024)) as [t|] eqn:Et; [|done].
    rewrite Hw; [done|apply elem_of_cons; right; by eapply elem_of_vals|apply Z.mod_pos_bound; lia].
Qed.

Lemma off_page p q' x : p mod PGSIZE = 0 → q' mod PGSIZE = 0 → q' ≠ p → in_page q' x → ¬ in_page p x.
Proof. intros Hp Hq Hne. pose proof (pages_disjoint _ _ Hp Hq ltac:(congruence)). unfold in_page. lia. Qed.

(** ** The whole table *)

Variable q : Z.                               (* the pages of the kernel's text *)
Hypothesis q_range : 0 < q < 57088.

Abbreviation data := (KERNLINK + PGSIZE * q).

Definition E1 : Z → Z := mapped (λ _, 0) 524288 256 0 PTE_W.
Definition E2 : Z → Z := mapped E1 524544 q EXTMEM 0.
Definition E3 : Z → Z := mapped E2 (524544 + q) (57088 - q) (EXTMEM + PGSIZE * q) PTE_W.
Definition E4 : Z → Z := mapped E3 1040384 8192 DEVSPACE PTE_W.

(** What the loop ends with, the pages [L] being free for tables at the start. *)
Definition filled (L : list Z) (dir : Z) (s : kst) (r : Z) (s' : kst) : Prop :=
  kframe s s' ∧ only_pages (dir :: L) (kram s) (kram s') ∧
  (r = dir ∧ (∃ l' T', pt_inv kend s' l' dir T' E4 ∧ kernel_tables T' ∧ L ≡ₚ vals T' ++ l') ∨
   r = 0 ∧ free_rel kend s' [] ∧ (length L < 64)%nat).

(** An entry, and the rest of the loop. *)
Lemma entry_step s l dir T E v n pa perm (L : list Z) k :
  pt_inv kend s l dir T E → kernel_tables T → L ≡ₚ vals T ++ l →
  pa mod PGSIZE = 0 → 0 < n → 524288 ≤ v → v + n ≤ 581632 ∨ 1040384 ≤ v ∧ v + n ≤ 1048576 → 0 ≤ pa → pa + PGSIZE * n ≤ W32 → 0 ≤ perm < 4096 →
  (∀ k, v ≤ k < v + n → E k = 0) →
  (∀ s' l' T', pt_inv kend s' l' dir T' (mapped E v n pa perm) → kernel_tables T' → L ≡ₚ vals T' ++ l' →
    ∃ r s'', k s' = Ret r s'' ∧ filled L dir s' r s'') →
  ∃ r s'', bind (mappages dir (PGSIZE * v) (PGSIZE * n) pa perm) (λ r, if r <? 0 then ret 0 else k) s = Ret r s'' ∧ filled L dir s r s''.
Proof.
  intros Hi HT HN Hpa Hn Hv1 Hv2 Hpa1 Hpa2 Hperm HE Hk.
  destruct (kmap_entry_ok s l dir T E v n pa perm L) as (r & s1 & l1 & T1 & R & HT1 & HN1 & K1 & M1 & C); try done; try lia.
  { intros j Hj. split; [by apply HE|]. rewrite kernel_slots_spec. Z.div_mod_to_equations. lia. }
  rewrite (bind_Ret _ _ _ _ _ R). destruct C as [[-> Hi1]|(-> & -> & Hf & HN')]; cbn [Z.ltb Z.compare].
  - destruct (Hk s1 l1 T1 Hi1 HT1 HN1) as (r & s2 & R2 & K2 & M2 & C2). exists r, s2. split; [done|]. split_and!; [by eapply kframe_trans|by eapply only_pages_trans|done].
  - exists 0, s1. split; [done|]. split_and!; [done|done|]. by right.
Qed.

Lemma setupkvm_loop_ok s l dir :
  pt_inv kend s l dir ∅ (λ _, 0) → ∃ r s', setupkvm_loop (kmap data) dir s = Ret r s' ∧ filled l dir s r s'.
Proof.
  intros Hi.
  assert (v2p data = EXTMEM + PGSIZE * q) as Ev by (unfold v2p; rewrite u32_small; unfold KERNLINK, KERNBASE, EXTMEM, PGSIZE, W32 in *; lia).
  unfold kmap. cbn [setupkvm_loop virt phys_start phys_end kperm]. rewrite Ev.
  change (v2p KERNLINK) with EXTMEM. change (EXTMEM -u 0) with (PGSIZE * 256). change (0 -u DEVSPACE) with (PGSIZE * 8192).
  replace (EXTMEM + PGSIZE * q -u EXTMEM) with (PGSIZE * q) by (rewrite u32_small; unfold EXTMEM, PGSIZE, W32 in *; lia).
  replace (PHYSTOP -u (EXTMEM + PGSIZE * q)) with (PGSIZE * (57088 - q)) by (rewrite u32_small; unfold PHYSTOP, EXTMEM, PGSIZE, W32 in *; lia).
  change KERNBASE with (PGSIZE * 524288). change (mappages dir DEVSPACE) with (mappages dir (PGSIZE * 1040384)).
  change (mappages dir KERNLINK) with (mappages dir (PGSIZE * 524544)).
  replace data with (PGSIZE * (524544 + q)) by (unfold KERNLINK, KERNBASE, EXTMEM, PGSIZE; lia).
  eapply entry_step; [exact Hi|by intros i [? [=]]|done|done|lia..|done|done|done|]. intros s1 l1 T1 Hi1 HT1 HN1.
  eapply entry_step; [exact Hi1|done|done|done|lia..|done|unfold EXTMEM, PGSIZE, W32; lia|lia| |].
  { intros k Hk. unfold mapped. repeat case_test; lia || done. }
  intros s2 l2 T2 Hi2 HT2 HN2.
  eapply entry_step; [exact Hi2|done|done|unfold EXTMEM, PGSIZE; Z.div_mod_to_equations; lia|lia..|unfold EXTMEM, PGSIZE; lia|unfold EXTMEM, PGSIZE, W32; lia|done| |].
  { intros k Hk. unfold mapped. repeat case_test; lia || done. }
  intros s3 l3 T3 Hi3 HT3 HN3.
  eapply entry_step; [exact Hi3|done|done|done|lia..|done|done|done| |].
  { intros k Hk. unfold mapped. repeat case_test; lia || done. }
  intros s4 l4 T4 Hi4 HT4 HN4. exists dir, s4. split; [done|]. split_and!; [done|done|]. left. eauto 8.
Qed.

(** A page table entry of [mapped]. *)
Lemma mapped_pte pa x n perm : pa mod PGSIZE = 0 → 0 ≤ pa + PGSIZE * (x - n) < W32 → 0 ≤ perm < 4096 →
  Z.lor (Z.lor (pa + PGSIZE * (x - n)) perm) PTE_P = pa + PGSIZE * (x - n) + Z.lor perm PTE_P ∧
  Z.odd (pa + PGSIZE * (x - n) + Z.lor perm PTE_P) = true.
Proof.
  intros Hm Hr Hp. assert ((pa + PGSIZE * (x - n)) mod PGSIZE = 0) as Hm' by (unfold PGSIZE in *; Z.div_mod_to_equations; lia).
  destruct (pte_word _ perm Hm' Hr Hp) as (-> & _ & _). split; [done|]. by rewrite odd_page, odd_lor_P.
Qed.

Lemma E4_pte va : 0 ≤ va < W32 → (if Z.odd (E4 (va / PGSIZE)) then Some (E4 (va / PGSIZE)) else None) = kernel_pte data va.
Proof.
  intros Hva. unfold kernel_pte. set (x := va / PGSIZE).
  assert (PGSIZE * x ≤ va < PGSIZE * x + PGSIZE) as Hx by (unfold x, PGSIZE; Z.div_mod_to_equations; lia). clearbody x.
  unfold E4, E3, E2, E1, mapped, KERNLINK in *.
  destruct ((1040384 <=? x) && _) eqn:B4; [|destruct ((524544 + q <=? x) && _) eqn:B3; [|destruct ((524544 <=? x) && _) eqn:B2; [|destruct ((524288 <=? x) && _) eqn:B1]]].
  - bools. destruct (mapped_pte DEVSPACE x 1040384 PTE_W) as [-> ->]; [done|unfold DEVSPACE, PGSIZE, W32 in *; lia|done|].
    change (Z.lor PTE_W PTE_P) with (PTE_W + PTE_P). num. repeat case_test; f_equal; lia.
  - clear B4. bools. destruct (mapped_pte (EXTMEM + PGSIZE * q) x (524544 + q) PTE_W) as [-> ->];
      [unfold EXTMEM, PGSIZE; Z.div_mod_to_equations; lia|unfold EXTMEM, PGSIZE, W32 in *; lia|done|].
    change (Z.lor PTE_W PTE_P) with (PTE_W + PTE_P). num. repeat case_test; f_equal; lia.
  - clear B3 B4. bools. destruct (mapped_pte EXTMEM x 524544 0) as [-> ->]; [done|unfold EXTMEM, PGSIZE, W32 in *; lia|done|].
    change (Z.lor 0 PTE_P) with PTE_P. num. repeat case_test; f_equal; lia.
  - clear B2 B3 B4. bools. destruct (mapped_pte 0 x 524288 PTE_W) as [-> ->]; [done|unfold PGSIZE, W32 in *; lia|done|].
    change (Z.lor PTE_W PTE_P) with (PTE_W + PTE_P). num. repeat case_test; f_equal; lia.
  - cbn [Z.odd]. num. repeat case_test; try done; exfalso; bools; lia.
Qed.

(** The first page becomes an empty directory. *)
Lemma empty_dir s p l : kunlocked s → free_rel kend s (p :: l) →
  ∃ s0, kalloc s = Ret p s0 ∧ kframe s s0 ∧ kram s0 = kram s ∧ page_ok kend p ∧ pt_inv kend (set_kram (memset (kram s0) p 0 PGSIZE) s0) l p ∅ (λ _, 0).
Proof.
  intros Hu Hf. destruct (kalloc_run_ok kend s l p Hu Hf) as (s0 & Ek & Hf0 & Em & Hk). exists s0.
  destruct Hf as (_ & Hnd & Hok). apply Forall_cons in Hok as [Hp Hok]. apply NoDup_cons in Hnd as [Hnp Hnd].
  split_and!; try done. split_and!.
  - by eapply kframe_unlocked.
  - eapply free_rel_only_page; [apply only_page_memset|apply Hp|done|done].
  - by constructor.
  - by constructor.
  - split; [|by intros n Hn; rewrite lookup_empty]. intros i Hi. rewrite lookup_empty. cbn [kram set_kram]. by rewrite memset_word.
  - intros i t. by rewrite lookup_empty.
Qed.

(** All tables are there at the end. *)
Lemma filled_tables s l dir T : pt_inv kend s l dir T E4 → kernel_tables T → size T = 64%nat.
Proof.
  intros Hi HT. apply kernel_tables_all; [done|]. intros i Hi2%kernel_slots_spec.
  destruct (T !! i) as [t|] eqn:Et; [by exists t|exfalso]. destruct Hi as (_ & _ & _ & _ & [_ H2] & _).
  assert (E4 (1024 * i) = 0) as E0.
  { specialize (H2 (1024 * i) ltac:(lia)). rewrite (Z.mul_comm 1024 i), Z.div_mul, Et in H2 by done. by rewrite Z.mul_comm. }
  pose proof (E4_pte (PGSIZE * (1024 * i)) ltac:(num; lia)) as Hp. rewrite (Z.mul_comm PGSIZE), Z.div_mul, E0 in Hp by done.
  cbn [Z.odd] in Hp. unfold kernel_pte in Hp. num. repeat case_match; try done; bools; lia.
Qed.

(** The kernel's part of a page directory, made of the pages [L]. *)
Definition kernel_dir (s : kst) (L l' : list Z) (dir : Z) (T : gmap Z Z) : Prop :=
  pt_inv kend s l' dir T E4 ∧ kernel_tables T ∧ size T = 64%nat ∧ L ≡ₚ dir :: vals T ++ l'.

Lemma setupkvm_ok s l :
  kunlocked s → free_rel kend s l →
  if (65 <=? length l)%nat then
    ∃ dir s' l' T, setupkvm data s = Ret dir s' ∧ kframe s s' ∧ only_pages l (kram s) (kram s') ∧ kernel_dir s' l l' dir T
  else ∃ s', setupkvm data s = Ret 0 s' ∧ kframe s s' ∧ free_rel kend s' [].
Proof.
  intros Hu Hf. destruct l as [|p l].
  { exists s. unfold setupkvm. by rewrite (bind_Ret _ _ _ _ _ (kalloc_run_nil kend s Hu Hf)). }
  destruct (empty_dir s p l Hu Hf) as (s0 & Ek & K0 & M0 & Hp & Hi). set (s1 := set_kram _ s0) in *.
  assert (setupkvm data s = setupkvm_loop (kmap data) p s1) as E.
  { unfold setupkvm. by rewrite (bind_Ret _ _ _ _ _ Ek), (page_ok_nonzero kend). }
  destruct (setupkvm_loop_ok s1 l p Hi) as (r & s' & R & K & M & C). rewrite E, R.
  assert (kframe s s') as Hk by (eapply kframe_trans; [exact K0|exact K]). clear Hi.
  destruct C as [(-> & l' & T & Hi & HT & HL)|(-> & Hf' & HN)].
  - pose proof (filled_tables _ _ _ _ Hi HT) as HS. pose proof (Permutation_length HL) as Hl. rewrite length_app, vals_length, HS in Hl.
    rewrite (proj2 (Nat.leb_le _ _)) by (cbn; lia). exists p, s', l', T. split; [done|split; [done|split; [|split_and!; [done..|by constructor]]]].
    eapply only_pages_trans; [|exact M]. eapply only_page_pages; [|rewrite <- M0; apply only_page_memset]. in_list.
  - rewrite (proj2 (Nat.leb_gt _ _)) by (cbn; lia). by exists s'.
Qed.

(** ** The page of the first process *)

(** The page with the first addresses, and the table for it. *)
Lemma first_page_mapped s l dir T pa :
  pt_inv kend s l dir T E4 → kernel_tables T → l ≠ [] → pa mod PGSIZE = 0 → 0 ≤ pa < W32 - PGSIZE →
  ∃ r s' l' T', mappages dir 0 PGSIZE pa 6 s = Ret r s' ∧ pt_inv kend s' l' dir T' (mapped E4 0 1 pa 6) ∧ grew dir s l T s' l' T'.
Proof.
  intros Hi HT Hl Hpa1 Hpa2. assert (npages 0 PGSIZE = 0%nat) as Hc by reflexivity.
  destruct (mappages_ok kend s l dir T E4 0 PGSIZE pa 6) as (r & s' & l' & T' & j & Er & Hi' & G & _ & Hdom & Hr);
    rewrite ?Hc; try done; try (unfold PGSIZE, W32 in *; lia).
  { intros k Hk. change (0 / PGSIZE) with 0 in Hk. replace k with 0 by lia. unfold E4, E3, E2, E1, mapped. repeat case_test; lia || done. }
  exists r, s', l', T'. rewrite Hc in *. destruct Hr as [[-> ->]|(-> & Hj & -> & Hnone)]; [done|exfalso].
  change (0 / PGSIZE) with 0 in *. replace ((0 + j) / 1024) with 0 in Hnone by (replace j with 0 by lia; done).
  assert (T !! 0 = None) as H0.
  { destruct (T !! 0) eqn:E0; [|done]. assert (0 ∈ kernel_slots) as H%kernel_slots_spec by (apply HT; by rewrite E0). lia. }
  assert (T' = T) as ->. { apply map_eq. intros i. destruct (decide (i = 0)) as [->|]; [by rewrite Hnone|]. apply Hdom. change (0 / 1024) with 0. change ((0 + Z.of_nat 0) / 1024) with 0. lia. }
  destruct G as (_ & G%Permutation_length & _). rewrite !length_app in G. destruct l; [done|]. cbn in G. lia.
Qed.

Lemma inituvm_ok s p l dir T init sz :
  pt_inv kend s (p :: l) dir T E4 → kernel_tables T → l ≠ [] → 0 ≤ sz < PGSIZE → init + sz ≤ kend →
  ∃ s' l' T', inituvm dir init sz s = Ret tt s' ∧ pt_inv kend s' l' dir T' (mapped E4 0 1 (v2p p) 6) ∧
    vals T ++ l ≡ₚ vals T' ++ l' ∧ kframe s s' ∧ only_pages (dir :: vals T ++ p :: l) (kram s) (kram s') ∧
    ∀ i, 0 ≤ i < PGSIZE → kram s' (p + i) = if i <? sz then kram s (init + i) else 0.
Proof.
  intros Hi HT Hl Hsz Hin. pose proof Hi as (Hu & Hf & Hnd & Hok & _).
  destruct (kalloc_run_ok kend s l p Hu Hf) as (s1 & Ek & Hf1 & Em1 & K1).
  pose proof Hf as (_ & _ & Hpl). apply Forall_cons in Hpl as [Hp Hpl]. apply NoDup_fresh in Hnd as (N1 & N2 & N3 & N4 & N5).
  set (s2 := set_kram (memset (kram s1) p 0 PGSIZE) s1).
  assert (only_page p (kram s) (kram s2)) as M2 by (unfold s2; rewrite Em1; apply only_page_memset).
  assert (pt_inv kend s2 l dir T E4) as Hi2.
  { apply (pt_inv_change s _ (p :: l)); [|by eapply kframe_unlocked|by eapply free_rel_only_page; [apply only_page_memset|apply Hp|done..]| |done].
    - intros q' x Hq Hx. apply M2. apply (off_page p q'); [apply Hp|by eapply Forall_forall in Hok as [? _]|intros <-; set_solver|done].
    - destruct Hi as (_ & _ & Hnd & _). rewrite app_comm_cons, <- Permutation_middle, NoDup_cons in Hnd. by destruct Hnd. }
  destruct (first_page_mapped s2 l dir T (v2p p)) as (r & s3 & l' & T' & E3' & Hi3 & _ & G2 & G3 & G4); [done|done|done|by eapply v2p_aligned| |].
  { rewrite (v2p_page kend) by done. unfold page_ok in Hp. num. lia. }
  set (s4 := set_kram (memmove (kram s3) p init sz) s3).
  assert (only_page p (kram s3) (kram s4)) as M4.
  { intros x Hx. unfold s4. cbn. rewrite memmove_bytes. unfold in_page, PGSIZE in *. case_test; lia || done. }
  assert (∀ q', q' ∈ dir :: vals T' → page_ok kend q' ∧ q' ≠ p ∧ q' ∈ dir :: vals T ++ l) as HV.
  { intros q' Hq. assert (q' ∈ dir :: vals T ++ l) as Hq2 by (rewrite elem_of_cons, G2; set_solver). split_and!; [|intros ->; set_solver|done].
    destruct Hi3 as (_ & _ & _ & Hok3 & _). by eapply Forall_forall in Hok3. }
  exists s4, l', T'. split_and!.
  - unfold inituvm. rewrite (proj2 (Z.leb_gt _ _)) by lia. rewrite (bind_Ret _ _ _ _ _ (eq_refl : ret tt s = Ret tt s)), (bind_Ret _ _ _ _ _ Ek).
    rewrite (bind_Ret _ _ _ _ _ (eq_refl : kmemset p 0 PGSIZE s1 = Ret tt s2)). by rewrite (bind_Ret _ _ _ _ _ E3').
  - apply (pt_inv_change s3 _ l'); [|by eapply kframe_unlocked; [|apply Hi3]| |apply Hi3|done].
    + intros q' x Hq Hx. apply M4, (off_page p q'); [apply Hp|by apply HV|by apply HV|done].
    + eapply free_rel_only_page; [exact M4|apply Hp| |apply Hi3]. intros Hin'. assert (p ∈ vals T ++ l) as Hv by (rewrite G2; set_solver). set_solver.
  - done.
  - eapply kframe_trans; [exact K1|]. by eapply kframe_trans; [|exact G3].
  - eapply only_pages_trans; [by eapply only_page_pages; [|exact M2]; set_solver|].
    eapply only_pages_trans; [|by eapply only_page_pages; [|exact M4]; set_solver]. eapply only_pages_mono; [|exact G4].
    intros x Hx%HV. set_solver.
  - intros i Hi'. unfold s4. cbn. rewrite memmove_bytes.
    destruct (Z.ltb_spec i sz); [rewrite (proj2 (Z.leb_le _ _)), (proj2 (Z.ltb_lt _ _)) by lia|rewrite (proj2 (Z.ltb_ge (p + i) _)), andb_false_r by lia].
    + cbn [andb]. replace (init + (p + i - p)) with (init + i) by lia. rewrite G4, M2; [done|unfold in_page, page_ok in *; lia|].
      intros q' Hq. apply HV in Hq as (Hok' & _). unfold in_page, page_ok in *. lia.
    + rewrite G4; [|intros q' Hq; apply (off_page q' p); [by apply HV|apply Hp|by apply not_eq_sym, HV|unfold in_page; lia]].
      unfold s2. cbn. rewrite memset_spec by (unfold PGSIZE; lia). by rewrite (proj2 (Z.leb_le _ _)), (proj2 (Z.ltb_lt _ _)) by lia.
Qed.

End kvm.

(** C23: setupkvm builds the kernel's page table.  With 65 free pages or more it
    returns a new page directory, takes exactly 65 pages, and the processor
    translates every address by it as documented: KERNBASE and up to physical
    memory from 0 on, the kernel's text read only and everything else writable,
    device addresses to themselves, no address for user mode and none below
    KERNBASE.  With fewer it returns 0; then no page is left on the free list,
    although none is in use. *)
Theorem setupkvm_maps kend data s l :
  data mod PGSIZE = 0 → KERNLINK < data < KERNBASE + PHYSTOP → kunlocked s → free_rel kend s l →
  if (65 <=? length l)%nat then
    ∃ dir s' l', setupkvm data s = Ret dir s' ∧ page_ok kend dir ∧ kframe s s' ∧ free_rel kend s' l' ∧
      length l = (65 + length l')%nat ∧ ∀ va, 0 ≤ va < W32 → pte_at (kram s') dir va = kernel_pte data va
  else ∃ s', setupkvm data s = Ret 0 s' ∧ kframe s s' ∧ free_rel kend s' [].
Proof.
  intros Hd Hr Hu Hf. assert (∃ q, data = KERNLINK + PGSIZE * q) as [q ->].
  { exists ((data - KERNLINK) / PGSIZE). unfold KERNLINK in *. num. Z.div_mod_to_equations. lia. }
  assert (0 < q < 57088) as Hq by (unfold KERNLINK in Hr; num; lia).
  pose proof (setupkvm_ok kend q Hq s l Hu Hf) as H. destruct (_ <=? _)%nat; [|done].
  destruct H as (dir & s' & l' & T & E & K & _ & Hi & _ & HS & HL). exists dir, s', l'. split_and!; [done|by eapply pt_inv_dir|done|apply Hi| |].
  - rewrite HL. cbn. rewrite length_app, vals_length. lia.
  - intros va Hva. by rewrite (pte_at_entries _ _ _ _ _ _ _ Hi Hva), E4_pte.
Qed.

(** ** Witness *)

(** 66 pages from 4 MB on, linked in order. *)
Definition ex_pages : list Z := (λ i, KERNBASE + 4194304 + PGSIZE * i) <$> seqZ 0 66.
Definition ex_next (p : Z) : Z := if p =? KERNBASE + 4194304 + PGSIZE * 65 then 0 else p + PGSIZE.
Definition ex_mem : mem := λ a,
  let o := a mod PGSIZE in
  if o <? 4 then u8 (ex_next (a - o) / 256 ^ o) else 0.
Definition ex_free : kst := mk_kst [] ex_mem 1 (KERNBASE + 4194304) [].

Lemma ex_free_rel : free_rel (KERNBASE + 2097152) ex_free ex_pages.
Proof.
  split_and!.
  - vm_compute. repeat split.
  - apply (bool_decide_unpack _). vm_compute. exact I.
  - apply (bool_decide_unpack _). vm_compute. exact I.
Qed.

Lemma setupkvm_maps_witness : ∃ dir s', setupkvm (KERNBASE + 1114112) ex_free = Ret dir s' ∧
  pte_at (kram s') dir (KERNBASE + 1052672) = Some 1052673 ∧ pte_at (kram s') dir (KERNBASE + 1114112) = Some 1114115 ∧
  pte_at (kram s') dir 4096 = None.
Proof.
  destruct (setupkvm_maps (KERNBASE + 2097152) (KERNBASE + 1114112) ex_free ex_pages) as (dir & s' & l' & E & _ & _ & _ & _ & Hp);
    [reflexivity|vm_compute; split; reflexivity|right; apply not_elem_of_nil|exact ex_free_rel|].
  exists dir, s'. split; [exact E|]. rewrite !Hp by (vm_compute; split; [discriminate|reflexivity]). vm_compute. auto.
Defined.
