(* ===== verification/Proc.v ===== *)
(** * Processes (proc.c)

    The process table is a list of NPROC records; a [struct proc *] is an
    index into it and a null pointer [None].  [core] is the state proc.c works
    on: the memory and locks of [Kalloc], the table, [initproc], [nextpid],
    [ticks] (trap.c), the current process and the page-table registers of the
    processor.  A name is kept as the C string the array holds; [CString]
    shows that safestrcpy cuts a string to one less than the array's size.

    Giving up the processor is the [Swtch] outcome: [sched] ends in it and
    goes on, when the scheduler has chosen the process again, with the state
    it finds then.  fork, exit and userinit also use the file system; they are
    defined in a section over the operations of [FileOps]. *)
From S2P Require Import Prelude Kernel CString Spinlock Kalloc Vm.

Local Open Scope Z_scope.
Local Open Scope kernel_scope.

Definition NPROC : nat := 64.
Definition KSTACKSIZE : Z := 4096.
Definition NOFILE : nat := 16.
Definition DEFAULT_UID : Z := 69.
Definition DEFAULT_GID : Z := 420.

Inductive procstate := UNUSED | EMBRYO | SLEEPING | RUNNABLE | RUNNING | ZOMBIE.

#[export] Instance procstate_eq_dec : EqDecision procstate.
Proof. solve_decision. Defined.

(** struct proc, with the fields of CS333_P1 and CS333_P2. *)
Record proc := mk_proc {
  sz : Z;
  pgdir : Z;
  kstack : Z;
  state : procstate;
  pid : Z;
  parent : option nat;
  tf : Z;
  context : Z;
  pchan : option chan;
  killed : Z;
  ofile : list (option nat);
  cwd : option nat;
  pname : list Z;
  start_ticks : Z;
  uid : Z;
  gid : Z;
  cpu_ticks_total : Z;
  cpu_ticks_in : Z
}.

Definition set_sz (v : Z) (x : proc) : proc :=
  mk_proc v (pgdir x) (kstack x) (state x) (pid x) (parent x) (tf x) (context x) (pchan x)
    (killed x) (ofile x) (cwd x) (pname x) (start_ticks x) (uid x) (gid x) (cpu_ticks_total x)
    (cpu_ticks_in x).
Definition set_pgdir (v : Z) (x : proc) : proc :=
  mk_proc (sz x) v (kstack x) (state x) (pid x) (parent x) (tf x) (context x) (pchan x)
    (killed x) (ofile x) (cwd x) (pname x) (start_ticks x) (uid x) (gid x) (cpu_ticks_total x)
    (cpu_ticks_in x).
Definition set_kstack (v : Z) (x : proc) : proc :=
  mk_proc (sz x) (pgdir x) v (state x) (pid x) (parent x) (tf x) (context x) (pchan x)
    (killed x) (ofile x) (cwd x) (pname x) (start_ticks x) (uid x) (gid x) (cpu_ticks_total x)
    (cpu_ticks_in x).
Definition set_state (v : procstate) (x : proc) : proc :=
  mk_proc (sz x) (pgdir x) (kstack x) v (pid x) (parent x) (tf x) (context x) (pchan x)
    (killed x) (ofile x) (cwd x) (pname x) (start_ticks x) (uid x) (gid x) (cpu_ticks_total x)
    (cpu_ticks_in x).
Definition set_pid (v : Z) (x : proc) : proc :=
  mk_proc (sz x) (pgdir x) (kstack x) (state x) v (parent x) (tf x) (context x) (pchan x)
    (killed x) (ofile x) (cwd x) (pname x) (start_ticks x) (uid x) (gid x) (cpu_ticks_total x)
    (cpu_ticks_in x).
Definition set_parent (v : option nat) (x : proc) : proc :=
  mk_proc (sz x) (pgdir x) (kstack x) (state x) (pid x) v (tf x) (context x) (pchan x)
    (killed x) (ofile x) (cwd x) (pname x) (start_ticks x) (uid x) (gid x) (cpu_ticks_total x)
    (cpu_ticks_in x).
Definition set_tf (v : Z) (x : proc) : proc :=
  mk_proc (sz x) (pgdir x) (kstack x) (state x) (pid x) (parent x) v (context x) (pchan x)
    (killed x) (ofile x) (cwd x) (pname x) (start_ticks x) (uid x) (gid x) (cpu_ticks_total x)
    (cpu_ticks_in x).
Definition set_context (v : Z) (x : proc) : proc :=
  mk_proc (sz x) (pgdir x) (kstack x) (state x) (pid x) (parent x) (tf x) v (pchan x) (killed x)
    (ofile x) (cwd x) (pname x) (start_ticks x) (uid x) (gid x) (cpu_ticks_total x)
    (cpu_ticks_in x).
Definition set_pchan (v : option chan) (x : proc) : proc :=
  mk_proc (sz x) (pgdir x) (kstack x) (state x) (pid x) (parent x) (tf x) (context x) v
    (killed x) (ofile x) (cwd x) (pname x) (start_ticks x) (uid x) (gid x) (cpu_ticks_total x)
    (cpu_ticks_in x).
Definition set_killed (v : Z) (x : proc) : proc :=
  mk_proc (sz x) (pgdir x) (kstack x) (state x) (pid x) (parent x) (tf x) (context x) (pchan x)
    v (ofile x) (cwd x) (pname x) (start_ticks x) (uid x) (gid x) (cpu_ticks_total x)
    (cpu_ticks_in x).
Definition set_ofile (v : list (option nat)) (x : proc) : proc :=
  mk_proc (sz x) (pgdir x) (kstack x) (state x) (pid x) (parent x) (tf x) (context x) (pchan x)
    (killed x) v (cwd x) (pname x) (start_ticks x) (uid x) (gid x) (cpu_ticks_total x)
    (cpu_ticks_in x).
Definition set_cwd (v : option nat) (x : proc) : proc :=
  mk_proc (sz x) (pgdir x) (kstack x) (state x) (pid x) (parent x) (tf x) (context x) (pchan x)
    (killed x) (ofile x) v (pname x) (start_ticks x) (uid x) (gid x) (cpu_ticks_total x)
    (cpu_ticks_in x).
Definition set_pname (v : list Z) (x : proc) : proc :=
  mk_proc (sz x) (pgdir x) (kstack x) (state x) (pid x) (parent x) (tf x) (context x) (pchan x)
    (killed x) (ofile x) (cwd x) v (start_ticks x) (uid x) (gid x) (cpu_ticks_total x)
    (cpu_ticks_in x).
Definition set_start_ticks (v : Z) (x : proc) : proc :=
  mk_proc (sz x) (pgdir x) (kstack x) (state x) (pid x) (parent x) (tf x) (context x) (pchan x)
    (killed x) (ofile x) (cwd x) (pname x) v (uid x) (gid x) (cpu_ticks_total x)
    (cpu_ticks_in x).
Definition set_uid (v : Z) (x : proc) : proc :=
  mk_proc (sz x) (pgdir x) (kstack x) (state x) (pid x) (parent x) (tf x) (context x) (pchan x)
    (killed x) (ofile x) (cwd x) (pname x) (start_ticks x) v (gid x) (cpu_ticks_total x)
    (cpu_ticks_in x).
Definition set_gid (v : Z) (x : proc) : proc :=
  mk_proc (sz x) (pgdir x) (kstack x) (state x) (pid x) (parent x) (tf x) (context x) (pchan x)
    (killed x) (ofile x) (cwd x) (pname x) (start_ticks x) (uid x) v (cpu_ticks_total x)
    (cpu_ticks_in x).
Definition set_cpu_ticks_total (v : Z) (x : proc) : proc :=
  mk_proc (sz x) (pgdir x) (kstack x) (state x) (pid x) (parent x) (tf x) (context x) (pchan x)
    (killed x) (ofile x) (cwd x) (pname x) (start_ticks x) (uid x) (gid x) v (cpu_ticks_in x).
Definition set_cpu_ticks_in (v : Z) (x : proc) : proc :=
  mk_proc (sz x) (pgdir x) (kstack x) (state x) (pid x) (parent x) (tf x) (context x) (pchan x)
    (killed x) (ofile x) (cwd x) (pname x) (start_ticks x) (uid x) (gid x) (cpu_ticks_total x) v.

Definition proc0 : proc :=
  mk_proc 0 0 0 UNUSED 0 None 0 0 None 0 (replicate NOFILE None) None [] 0 0 0 0 0.

(** The kernel's process state, with the registers switchuvm loads ([cr3] and
    the kernel stack of the task state segment) and forkret's static. *)
Record core := mk_core {
  ck : kst;
  ptable : list proc;
  initproc : option nat;
  nextpid : Z;
  ticks : Z;
  cur : option nat;
  kpgdir : Z;
  cr3 : Z;
  esp0 : Z;
  first_fork : Z
}.

Definition set_ck (v : kst) (x : core) : core :=
  mk_core v (ptable x) (initproc x) (nextpid x) (ticks x) (cur x) (kpgdir x) (cr3 x) (esp0 x)
    (first_fork x).
Definition set_ptable (v : list proc) (x : core) : core :=
  mk_core (ck x) v (initproc x) (nextpid x) (ticks x) (cur x) (kpgdir x) (cr3 x) (esp0 x)
    (first_fork x).
Definition set_initproc (v : option nat) (x : core) : core :=
  mk_core (ck x) (ptable x) v (nextpid x) (ticks x) (cur x) (kpgdir x) (cr3 x) (esp0 x)
    (first_fork x).
Definition set_nextpid (v : Z) (x : core) : core :=
  mk_core (ck x) (ptable x) (initproc x) v (ticks x) (cur x) (kpgdir x) (cr3 x) (esp0 x)
    (first_fork x).
Definition set_ticks (v : Z) (x : core) : core :=
  mk_core (ck x) (ptable x) (initproc x) (nextpid x) v (cur x) (kpgdir x) (cr3 x) (esp0 x)
    (first_fork x).
Definition set_cur (v : option nat) (x : core) : core :=
  mk_core (ck x) (ptable x) (initproc x) (nextpid x) (ticks x) v (kpgdir x) (cr3 x) (esp0 x)
    (first_fork x).
Definition set_kpgdir (v : Z) (x : core) : core :=
  mk_core (ck x) (ptable x) (initproc x) (nextpid x) (ticks x) (cur x) v (cr3 x) (esp0 x)
    (first_fork x).
Definition set_cr3 (v : Z) (x : core) : core :=
  mk_core (ck x) (ptable x) (initproc x) (nextpid x) (ticks x) (cur x) (kpgdir x) v (esp0 x)
    (first_fork x).
Definition set_esp0 (v : Z) (x : core) : core :=
  mk_core (ck x) (ptable x) (initproc x) (nextpid x) (ticks x) (cur x) (kpgdir x) (cr3 x) v
    (first_fork x).
Definition set_first_fork (v : Z) (x : core) : core :=
  mk_core (ck x) (ptable x) (initproc x) (nextpid x) (ticks x) (cur x) (kpgdir x) (cr3 x)
    (esp0 x) v.

(** ** Access *)

Definition kk {A} (m : M kst A) : M core A := zoom ck set_ck m.
Definition pacquire (lk : lockid) : M core unit := kk (kacquire lk).
Definition prelease (lk : lockid) : M core unit := kk (krelease lk).
Definition held (s : core) : lockst := kheld (ck s).

Definition getp (i : nat) (s : core) : proc := default proc0 (ptable s !! i).
Definition pget {A} (i : nat) (f : proc → A) : M core A := gets (λ s, f (getp i s)).
Definition pupd (i : nat) (f : proc → proc) : M core unit :=
  modify (λ s, set_ptable (alter f i (ptable s)) s).

(** [proc] of the current processor; using it when it is null faults. *)
Definition myproc {A} (k : nat → M core A) : M core A :=
  c <- gets cur;;
  match c with Some i => k i | None => panic "trap" end.

(** The loops that look through the table for the first match. *)
Fixpoint find_proc (f : proc → bool) (l : list proc) : option nat :=
  match l with
  | [] => None
  | p :: l => if f p then Some O else S <$> find_proc f l
  end.

Section proc.
  Variables kend data : Z.           (* linker symbols *)
  Variables forkret_addr trapret_addr : Z.

(** ** Allocation *)

Definition TF_SIZE : Z := 76.        (* sizeof(struct trapframe) *)
Definition CONTEXT_SIZE : Z := 20.   (* sizeof(struct context) *)

Definition unused (p : proc) : bool := bool_decide (state p = UNUSED).

Definition allocproc : M core (option nat) :=
  pacquire Lptable;;
  f <- gets (λ s, find_proc unused (ptable s));;
  match f with
  | None => prelease Lptable;; ret None
  | Some i =>
      pupd i (set_state EMBRYO);;
      n <- gets nextpid;;
      pupd i (set_pid (u32 n));;
      modify (set_nextpid (s32 (n + 1)));;
      prelease Lptable;;
      ks <- kk kalloc;;
      pupd i (set_kstack ks);;
      if ks =? 0 then pupd i (set_state UNUSED);; ret None
      else
        let sp := ks + KSTACKSIZE - TF_SIZE in
        pupd i (set_tf sp);;
        let sp := sp - 4 in
        kk (storew sp trapret_addr);;
        let sp := sp - CONTEXT_SIZE in
        pupd i (set_context sp);;
        kk (kmemset sp 0 CONTEXT_SIZE);;
        kk (storew (sp + 16) forkret_addr);;
        t <- gets ticks;;
        pupd i (λ p, set_cpu_ticks_in 0 (set_cpu_ticks_total 0 (set_start_ticks t p)));;
        ret (Some i)
  end.

(** ** Address space registers *)

Definition switchkvm : M core unit := modify (λ s, set_cr3 (v2p (kpgdir s)) s).

Definition kvmalloc : M core unit :=
  d <- kk (setupkvm data);; modify (set_kpgdir d);; switchkvm.

(** The page directory and the kernel stack; the descriptor of the task state, the
    stack segment in it, ltr, and pushcli and popcli around them are left out. *)
Definition switchuvm (p : nat) : M core unit :=
  myproc (λ me,
    ks <- pget me kstack;;
    modify (set_esp0 (u32 (ks + KSTACKSIZE)));;
    pg <- pget p pgdir;;
    when (pg =? 0) do panic "switchuvm: no pgdir";;
    modify (set_cr3 (v2p pg))).

Definition growproc (n : Z) : M core Z :=
  myproc (λ me,
    size <- pget me sz;;
    pg <- pget me pgdir;;
    size' <- (if 0 <? n then kk (allocuvm kend pg size (u32 (size + n)))
              else if n <? 0 then kk (deallocuvm kend pg size (u32 (size + n)))
              else ret size);;
    if negb (n =? 0) && (size' =? 0) then ret (-1)
    else pupd me (set_sz size');; switchuvm me;; ret 0).

(** ** Giving up the processor *)

Definition swtch : M core unit := λ s, Swtch s (λ s', Ret tt s').

(** Interrupts are on when no lock is held (spinlock.c's pushcli). *)
Definition intr_on (s : core) : bool := bool_decide (held s = []).

Definition sched : M core unit :=
  myproc (λ me,
    h <- gets held;;
    when (negb (bool_decide (Lptable ∈ h))) do panic "sched ptable.lock";;
    when (negb (length h =? 1)%nat) do panic "sched locks";;
    st <- pget me state;;
    when (bool_decide (st = RUNNING)) do panic "sched running";;
    i <- gets intr_on;;
    when i do panic "sched interruptible";;
    t <- gets ticks;;
    pupd me (λ p, set_cpu_ticks_total (u32 (cpu_ticks_total p + u32 (t - cpu_ticks_in p))) p);;
    swtch).

Definition yield : M core unit :=
  pacquire Lptable;;
  myproc (λ me, pupd me (set_state RUNNABLE));;
  sched;;
  prelease Lptable.

(** The lock is a null pointer for sys_sleep. *)
Definition sleep (ch : chan) (lk : option lockid) : M core unit :=
  c <- gets cur;;
  when (bool_decide (c = None)) do panic "sleep";;
  (if bool_decide (lk ≠ Some Lptable) then
     pacquire Lptable;;
     match lk with Some lk => prelease lk | None => ret tt end
   else ret tt);;
  myproc (λ me, pupd me (λ p, set_state SLEEPING (set_pchan (Some ch) p)));;
  sched;;
  myproc (λ me, pupd me (set_pchan None));;
  (if bool_decide (lk ≠ Some Lptable) then
     prelease Lptable;;
     match lk with Some lk => pacquire lk | None => ret tt end
   else ret tt).

Definition wake (ch : option chan) (p : proc) : proc :=
  if bool_decide (state p = SLEEPING) && bool_decide (pchan p = ch) then set_state RUNNABLE p else p.

Definition wakeup1 (ch : option chan) : M core unit :=
  modify (λ s, set_ptable (wake ch <$> ptable s) s).

Definition wakeup (ch : chan) : M core unit :=
  pacquire Lptable;; wakeup1 (Some ch);; prelease Lptable.

Definition kill (n : Z) : M core Z :=
  pacquire Lptable;;
  f <- gets (λ s, find_proc (λ p, pid p =? u32 n) (ptable s));;
  match f with
  | Some i =>
      pupd i (set_killed 1);;
      st <- pget i state;;
      when (bool_decide (st = SLEEPING)) do pupd i (set_state RUNNABLE);;
      prelease Lptable;; ret 0
  | None => prelease Lptable;; ret (-1)
  end.

(** ** wait *)

(** One pass over the table, from slot [i] on: the pid of the zombie child it
    found and freed (with the lock released), or whether there are children. *)
Fixpoint wait_scan (me n i : nat) (havekids : bool) : M core (Z + bool) :=
  match n with
  | O => ret (inr havekids)
  | S n =>
      pp <- pget i parent;;
      if negb (bool_decide (pp = Some me)) then wait_scan me n (S i) havekids
      else
        st <- pget i state;;
        if bool_decide (st = ZOMBIE) then
          id <- pget i pid;;
          ks <- pget i kstack;;
          kk (kfree kend ks);;
          pupd i (set_kstack 0);;
          pg <- pget i pgdir;;
          kk (freevm kend pg);;
          pupd i (λ p, set_killed 0 (set_pname [] (set_parent None (set_pid 0 (set_state UNUSED p)))));;
          prelease Lptable;;
          ret (inl id)
        else wait_scan me n (S i) true
  end.

(** The loop; the fuel bounds the number of times it is woken up. *)
Fixpoint wait_loop (fuel me : nat) : M core Z :=
  match fuel with
  | O => nofuel
  | S fuel =>
      r <- wait_scan me NPROC 0 false;;
      match r with
      | inl id => ret id
      | inr havekids =>
          kd <- pget me killed;;
          if negb havekids || negb (kd =? 0) then prelease Lptable;; ret (-1)
          else sleep (ChProc me) (Some Lptable);; wait_loop fuel me
      end
  end.

Definition wait (fuel : nat) : M core Z :=
  pacquire Lptable;; myproc (wait_loop fuel).

(** ** The scheduler *)

(** One position of the scan: what happens before and after the switch to a
    runnable process. *)
Definition scheduler_pick (i : nat) : M core bool :=
  st <- pget i state;;
  if negb (bool_decide (st = RUNNABLE)) then ret false
  else
    modify (set_cur (Some i));;
    switchuvm i;;
    pupd i (set_state RUNNING);;
    t <- gets ticks;;
    pupd i (set_cpu_ticks_in t);;
    ret true.

Definition scheduler_back : M core unit := switchkvm;; modify (set_cur None).

(** ** Process listing *)

Definition str (s : string) : list Z := (λ a, Z.of_nat (Ascii.nat_of_ascii a)) <$> String.list_ascii_of_string s.

Definition convert_state (n : Z) : list Z :=
  str (if n =? 0 then "Unused  " else if n =? 1 then "Embryo  "
       else if n =? 2 then "Sleeping" else if n =? 3 then "Runnable"
       else if n =? 4 then "Running " else if n =? 5 then "Zombie  " else "ERROR").

Definition state_num (st : procstate) : Z :=
  match st with UNUSED => 0 | EMBRYO => 1 | SLEEPING => 2 | RUNNABLE => 3 | RUNNING => 4 | ZOMBIE => 5 end.

(** struct uproc; [prio] is not written by getproc. *)
Record uproc := mk_uproc {
  up_pid : Z; up_uid : Z; up_gid : Z; up_ppid : Z;
  up_elapsed : Z; up_cpu : Z; up_state : list Z; up_size : Z; up_name : list Z
}.

(** What is read through a null parent pointer: the uid field at its offset
    from address 0. *)
Variable null_uid : Z.

Definition parent_uid (s : core) (p : proc) : Z :=
  match parent p with Some j => uid (getp j s) | None => null_uid end.

Definition to_uproc (s : core) (p : proc) : uproc :=
  mk_uproc (pid p) (uid p) (gid p)
    (if parent_uid s p =? 0 then uid p else parent_uid s p)
    (u32 (ticks s - start_ticks p)) (cpu_ticks_total p)
    (convert_state (state_num (state p))) (sz p) (take 15 (pname p)).

(** The entries written to the table, in order: the loop stops at the first
    unused slot, after NPROC slots or after [max] entries. *)
Fixpoint getproc_loop (s : core) (l : list proc) (i max : Z) : list uproc :=
  match l with
  | [] => []
  | p :: l =>
      if negb (unused p) && (i <? max) then to_uproc s p :: getproc_loop s l (i + 1) max else []
  end.

Definition getproc (max : Z) : M core (Z * list uproc) :=
  pacquire Lptable;;
  t <- gets (λ s, getproc_loop s (ptable s) 0 max);;
  prelease Lptable;;
  ret (Z.of_nat (length t), t).

End proc.

#[global] Arguments allocproc : simpl never.
#[global] Arguments sched : simpl never.
#[global] Arguments sleep : simpl never.
#[global] Arguments wakeup : simpl never.
#[global] Arguments wakeup1 : simpl never.
#[global] Arguments pacquire : simpl never.
#[global] Arguments prelease : simpl never.

(** ** Processes and files

    What fork, exit, userinit and forkret use of the file layers, on a state
    that contains the processes. *)
Class FileOps (S : Type) := {
  fo_core : S → core;
  fo_set : core → S → S;
  fo_filedup : nat → M S nat;
  fo_fileclose : nat → M S unit;
  fo_idup : nat → M S nat;
  fo_iput : nat → M S unit;
  fo_begin_op : M S unit;
  fo_end_op : M S unit;
  fo_namei : list Z → M S (option nat);
  fo_iinit : M S unit;
  fo_initlog : M S unit
}.

Section fork.
  Context {S : Type} `{FileOps S}.
  Variables kend data forkret_addr trapret_addr : Z.
  Variables initcode_start initcode_size : Z.

Definition cc {A} (m : M core A) : M S A := zoom fo_core fo_set m.

Definition st16 (m : mem) (a v : Z) : mem := <[a + 1 := u8 (v / 256)]> (<[a := u8 v]> m).
Definition storeh (a v : Z) : M kst unit := modify (λ s, set_kram (st16 (kram s) a v) s).

(** Offsets of struct trapframe (x86.h). *)
Definition tf_eax : Z := 28.
Definition tf_es : Z := 40.
Definition tf_ds : Z := 44.
Definition tf_eip : Z := 56.
Definition tf_cs : Z := 60.
Definition tf_eflags : Z := 64.
Definition tf_esp : Z := 68.
Definition tf_ss : Z := 72.
Definition SEG_UCODE : Z := 4.
Definition SEG_UDATA : Z := 5.
Definition DPL_USER : Z := 3.

Definition userinit : M S unit :=
  r <- cc (allocproc forkret_addr trapret_addr);;
  cc (modify (set_initproc r));;
  match r with
  | None => panic "trap"
  | Some p =>
      pg <- cc (kk (setupkvm data));;
      cc (pupd p (set_pgdir pg));;
      when (pg =? 0) do panic "userinit: out of memory?";;
      cc (kk (inituvm pg initcode_start initcode_size));;
      cc (pupd p (set_sz PGSIZE));;
      t <- cc (pget p tf);;
      cc (kk (kmemset t 0 TF_SIZE));;
      cc (kk (storeh (t + tf_cs) (Z.lor (Z.shiftl SEG_UCODE 3) DPL_USER)));;
      cc (kk (storeh (t + tf_ds) (Z.lor (Z.shiftl SEG_UDATA 3) DPL_USER)));;
      cc (kk (storeh (t + tf_es) (Z.lor (Z.shiftl SEG_UDATA 3) DPL_USER)));;
      cc (kk (storeh (t + tf_ss) (Z.lor (Z.shiftl SEG_UDATA 3) DPL_USER)));;
      cc (kk (storew (t + tf_eflags) FL_IF));;
      cc (kk (storew (t + tf_esp) PGSIZE));;
      cc (kk (storew (t + tf_eip) 0));;
      cc (pupd p (λ x, set_gid DEFAULT_GID (set_uid DEFAULT_UID (set_parent (Some p) x))));;
      cc (pupd p (set_pname (str "initcode")));;
      d <- fo_namei (str "/");;
      cc (pupd p (set_cwd d));;
      cc (pupd p (set_state RUNNABLE))
  end.

(** Duplicate the open files of [me] into [np], from descriptor [i] on. *)
Fixpoint fork_files (me np n i : nat) : M S unit :=
  match n with
  | O => ret tt
  | Datatypes.S n =>
      o <- cc (pget me ofile);;
      match default None (o !! i) with
      | Some f => f' <- fo_filedup f;; cc (pupd np (λ p, set_ofile (<[i := Some f']> (ofile p)) p))
      | None => ret tt
      end;;
      fork_files me np n (Datatypes.S i)
  end.

Definition fork : M S Z :=
  r <- cc (allocproc forkret_addr trapret_addr);;
  match r with
  | None => ret (-1)
  | Some np =>
      c <- cc (gets cur);;
      match c with
      | None => panic "trap"
      | Some me =>
          d <- cc (pget me pgdir);;
          size <- cc (pget me sz);;
          pg <- cc (kk (copyuvm kend data d size));;
          cc (pupd np (set_pgdir pg));;
          if pg =? 0 then
            ks <- cc (pget np kstack);;
            cc (kk (kfree kend ks));;
            cc (pupd np (set_kstack 0));;
            cc (pupd np (set_state UNUSED));;
            ret (-1)
          else
            cc (pupd np (set_sz size));;
            cc (pupd np (set_parent (Some me)));;
            t <- cc (pget np tf);;
            t' <- cc (pget me tf);;
            cc (kk (kmemmove t t' TF_SIZE));;
            u <- cc (pget me uid);;
            g <- cc (pget me gid);;
            cc (pupd np (λ p, set_gid g (set_uid u p)));;
            cc (kk (storew (t + tf_eax) 0));;
            fork_files me np NOFILE 0;;
            w <- cc (pget me cwd);;
            match w with
            | None => panic "trap"
            | Some ip =>
                w' <- fo_idup ip;;
                cc (pupd np (set_cwd (Some w')));;
                nm <- cc (pget me pname);;
                cc (pupd np (set_pname (take 15 nm)));;
                id <- cc (pget np pid);;
                cc (pacquire Lptable);;
                cc (pupd np (set_state RUNNABLE));;
                cc (prelease Lptable);;
                ret (s32 id)
            end
      end
  end.

Fixpoint exit_files (me n fd : nat) : M S unit :=
  match n with
  | O => ret tt
  | Datatypes.S n =>
      o <- cc (pget me ofile);;
      match default None (o !! fd) with
      | Some f => fo_fileclose f;; cc (pupd me (λ p, set_ofile (<[fd := None]> (ofile p)) p))
      | None => ret tt
      end;;
      exit_files me n (Datatypes.S fd)
  end.

(** Pass abandoned children to init, from slot [i] on. *)
Fixpoint exit_children (me : nat) (n i : nat) : M core unit :=
  match n with
  | O => ret tt
  | Datatypes.S n =>
      pp <- pget i parent;;
      (if bool_decide (pp = Some me) then
         ip <- gets initproc;;
         pupd i (set_parent ip);;
         st <- pget i state;;
         when (bool_decide (st = ZOMBIE)) do wakeup1 (ChProc <$> ip)
       else ret tt);;
      exit_children me n (Datatypes.S i)
  end.

(** The part of exit under ptable.lock. *)
Definition exit_zombie (me : nat) : M core unit :=
  pacquire Lptable;;
  pp <- pget me parent;;
  wakeup1 (ChProc <$> pp);;
  exit_children me NPROC 0;;
  pupd me (set_state ZOMBIE);;
  sched;;
  panic "zombie exit".

Definition exit : M S unit :=
  c <- cc (gets cur);;
  ip <- cc (gets initproc);;
  when (bool_decide (c = ip)) do panic "init exiting";;
  match c with
  | None => panic "trap"
  | Some me =>
      exit_files me NOFILE 0;;
      fo_begin_op;;
      w <- cc (pget me cwd);;
      match w with None => panic "trap" | Some ip => fo_iput ip end;;
      fo_end_op;;
      cc (pupd me (set_cwd None));;
      cc (exit_zombie me)
  end.

Definition forkret : M S unit :=
  cc (prelease Lptable);;
  f <- cc (gets first_fork);;
  if negb (f =? 0) then
    cc (modify (set_first_fork 0));; fo_iinit;; fo_initlog
  else ret tt.

End fork.
