(* ===== verification/ProcSpec.v ===== *)
(** * What the process operations guarantee

    Theorems about the definitions of [Proc]: allocation of process slots and
    pids, sleep and wakeup, wait and exit, kill, the scheduler, and the
    process listing. *)
From S2P Require Import Prelude Kernel CString Spinlock Kalloc Vm Proc.

Local Open Scope Z_scope.
Local Open Scope kernel_scope.

(** ** Running the primitives *)

Definition set_held (h : lockst) (s : core) : core := set_ck (set_kheld h (ck s)) s.

Lemma set_held_back s h h' : held s = h → set_held h (set_held h' s) = s.
Proof. intros <-. by destruct s as [[] ]. Qed.

Lemma pacquire_ok lk s : lk ∉ held s → pacquire lk s = Ret tt (set_held (lk :: held s) s).
Proof. intros Hn. unfold pacquire, kk, zoom. by rewrite kacquire_ok. Qed.

Lemma prelease_ok lk s h : held s = lk :: h → prelease lk s = Ret tt (set_held h s).
Proof. intros E. unfold prelease, kk, zoom. by rewrite (krelease_ok _ _ h). Qed.

Lemma kk_Ret {A} (m : M kst A) s a k : m (ck s) = Ret a k → kk m s = Ret a (set_ck k s).
Proof. intros E. unfold kk. by apply zoom_Ret. Qed.

Lemma myproc_ok {A} (k : nat → M core A) s i : cur s = Some i → myproc k s = k i s.
Proof. intros E. unfold myproc, bind. cbn. by rewrite E. Qed.

Lemma getp_upd i j f s :
  (i < length (ptable s))%nat →
  getp j (set_ptable (alter f i (ptable s)) s) = if decide (j = i) then f (getp i s) else getp j s.
Proof.
  intros Hi. unfold getp. cbn. destruct (decide (j = i)) as [->|Hne].
  - rewrite list_lookup_alter_eq. destruct (lookup_lt_is_Some_2 _ _ Hi) as [p ->]. done.
  - by rewrite list_lookup_alter_ne by done.
Qed.

Lemma find_proc_Some f l i :
  find_proc f l = Some i ↔
  ∃ p, l !! i = Some p ∧ f p = true ∧ ∀ j q, (j < i)%nat → l !! j = Some q → f q = false.
Proof.
  revert i. induction l as [|x l IH]; intros i; cbn; [naive_solver|].
  destruct (f x) eqn:Ef.
  - split.
    + intros [= <-]. exists x. split_and!; [done|done|lia].
    + intros (p & Hp & Hfp & Hmin). destruct i as [|i]; [done|].
      specialize (Hmin 0%nat x ltac:(lia) eq_refl). congruence.
  - destruct i as [|i].
    + split; [by destruct (find_proc f l)|]. intros (p & [= ->] & Hp & _). congruence.
    + rewrite fmap_Some. setoid_rewrite IH. split.
      * intros (j & (p & Hp & Hfp & Hmin) & [= <-]). exists p. split_and!; [done|done|].
        intros [|j] q Hj Hq; cbn in Hq; [congruence|]. apply (Hmin j); [lia|done].
      * intros (p & Hp & Hfp & Hmin). exists i. split; [|done]. exists p. split_and!; [done|done|].
        intros j q Hj Hq. apply (Hmin (S j)); [lia|done].
Qed.

Lemma find_proc_None f l : find_proc f l = None ↔ ∀ p, p ∈ l → f p = false.
Proof.
  induction l as [|x l IH]; cbn; [set_solver|]. destruct (f x) eqn:Ef.
  - split; [done|]. intros Hx. specialize (Hx x ltac:(set_solver)). congruence.
  - rewrite fmap_None, IH. set_solver.
Qed.

(** ** Process identifiers *)

Definition used (p : proc) : Prop := state p ≠ UNUSED.

(** The table has NPROC slots, and the used ones have distinct pids between 1
    and nextpid. *)
Definition pid_inv (s : core) : Prop :=
  length (ptable s) = NPROC ∧ 0 < nextpid s ≤ 2147483647 ∧
  (∀ i p, ptable s !! i = Some p → used p → 0 < pid p < nextpid s) ∧
  (∀ i j p q, ptable s !! i = Some p → ptable s !! j = Some q → used p → used q → pid p = pid q → i = j).

(** Evaluate the state accesses at the head of a computation. *)
Ltac mstep :=
  unfold bind at 1; cbn [obind gets modify ret pupd pget panic zoom].

Ltac mrelease h := erewrite bind_Ret; [|apply (prelease_ok _ _ h); reflexivity].

(** The slot allocproc leaves, and the memory under it. *)
Definition fresh_slot (ks n t : Z) (p : proc) : proc :=
  set_cpu_ticks_in 0 (set_cpu_ticks_total 0 (set_start_ticks t
    (set_context (ks + KSTACKSIZE - TF_SIZE - 4 - CONTEXT_SIZE) (set_tf (ks + KSTACKSIZE - TF_SIZE)
      (set_kstack ks (set_pid (u32 n) (set_state EMBRYO p))))))).

Definition fresh_stack (m : mem) (ks fr tr : Z) : mem :=
  let sp := ks + KSTACKSIZE - TF_SIZE - 4 in
  st32 (memset (st32 m sp tr) (sp - CONTEXT_SIZE) 0 CONTEXT_SIZE) (sp - CONTEXT_SIZE + 16) fr.

Lemma alter_lookup_ext {A} (f g : A → A) i (l : list A) x :
  l !! i = Some x → f x = g x → alter f i l = alter g i l.
Proof.
  intros Hx E. apply list_eq. intros j. destruct (decide (j = i)) as [->|].
  - rewrite !list_lookup_alter_eq, Hx. cbn. by rewrite E.
  - by rewrite !list_lookup_alter_ne by done.
Qed.

Lemma allocproc_run fr tr s i ks k1 :
  Lptable ∉ held s → find_proc unused (ptable s) = Some i →
  kalloc (ck s) = Ret ks k1 → ks ≠ 0 → kheld k1 = held s →
  allocproc fr tr s = Ret (Some i)
    (mk_core (set_kram (fresh_stack (kram k1) ks fr tr) k1)
       (alter (fresh_slot ks (nextpid s) (ticks s)) i (ptable s)) (initproc s) (s32 (nextpid s + 1))
       (ticks s) (cur s) (kpgdir s) (cr3 s) (esp0 s) (first_fork s)).
Proof.
  intros Hh Hf Hk Hks Hk1. unfold allocproc.
  rewrite (bind_Ret _ _ _ _ _ (pacquire_ok _ _ Hh)). mstep. cbn [ptable set_held set_ck]. rewrite Hf.
  do 4 mstep. mrelease (held s).
  unfold bind at 1. rewrite (kk_Ret _ _ ks k1); [cbn [obind]|].
  2:{ rewrite <- Hk. f_equal. cbn. by destruct s as [[] ]. }
  mstep. destruct (Z.eqb_spec ks 0); [done|].
  unfold kk, storew, kmemset, zoom, bind, pupd, modify. cbn.
  unfold fresh_stack. rewrite !list_alter_alter_eq. done.
Qed.

Lemma allocproc_full fr tr s :
  Lptable ∉ held s → find_proc unused (ptable s) = None → allocproc fr tr s = Ret None s.
Proof.
  intros Hh Hf. unfold allocproc.
  rewrite (bind_Ret _ _ _ _ _ (pacquire_ok _ _ Hh)). mstep. cbn [ptable set_held set_ck]. rewrite Hf.
  mrelease (held s). by destruct s as [[] ].
Qed.

Lemma allocproc_nomem fr tr s i k1 :
  Lptable ∉ held s → find_proc unused (ptable s) = Some i →
  kalloc (ck s) = Ret 0 k1 → kheld k1 = held s →
  allocproc fr tr s = Ret None
    (mk_core k1 (alter (λ p, set_state UNUSED (set_kstack 0 (set_pid (u32 (nextpid s)) (set_state EMBRYO p)))) i (ptable s))
       (initproc s) (s32 (nextpid s + 1)) (ticks s) (cur s) (kpgdir s) (cr3 s) (esp0 s) (first_fork s)).
Proof.
  intros Hh Hf Hk Hk1. unfold allocproc.
  rewrite (bind_Ret _ _ _ _ _ (pacquire_ok _ _ Hh)). mstep. cbn [ptable set_held set_ck]. rewrite Hf.
  do 4 mstep. mrelease (held s).
  unfold bind at 1. rewrite (kk_Ret _ _ 0 k1); [cbn [obind]|].
  2:{ rewrite <- Hk. f_equal. cbn. by destruct s as [[] ]. }
  mstep. cbn [Z.eqb]. unfold bind, pupd, modify. cbn. rewrite !list_alter_alter_eq. done.
Qed.

(** An operation that changes slot [i] of the table by [f], giving it the
    next pid if it becomes used. *)
Lemma pid_inv_alloc s s' i f :
  pid_inv s → nextpid s < 2147483647 →
  ptable s' = alter f i (ptable s) → nextpid s' = nextpid s + 1 →
  (∀ p, ptable s !! i = Some p → used (f p) → pid (f p) = nextpid s) → pid_inv s'.
Proof.
  intros (Hlen & Hn & Hr & Hu) Hlt Ept En Hf.
  assert (∀ j p, ptable s' !! j = Some p → used p →
    (j = i ∧ pid p = nextpid s) ∨ (j ≠ i ∧ ptable s !! j = Some p)) as Hcase.
  { intros j p. rewrite Ept. destruct (decide (j = i)) as [->|Hne].
    - rewrite list_lookup_alter_eq, fmap_Some. intros (q & Hq & ->) Hup. left. split; [done|]. by apply Hf.
    - rewrite list_lookup_alter_ne by done. intros. by right. }
  split_and!; [by rewrite Ept, length_alter|lia|lia| |].
  - intros j p Hp Hup. destruct (Hcase j p Hp Hup) as [[_ ->]|[_ Hp']]; [lia|].
    specialize (Hr j p Hp' Hup). lia.
  - intros j k p q Hp Hq Hup Huq Heq.
    destruct (Hcase j p Hp Hup) as [[-> Hpp]|[Hj Hp']], (Hcase k q Hq Huq) as [[-> Hqq]|[Hk Hq']];
      [done| | |by eapply Hu].
    + specialize (Hr k q Hq' Huq). lia.
    + specialize (Hr j p Hp' Hup). lia.
Qed.

Lemma s32_pid n : 0 < n < 2147483647 → s32 (n + 1) = n + 1 ∧ u32 n = n.
Proof. intros. split; [apply s32_small|apply u32_small; unfold W32]; lia. Qed.

(** A word of the kernel stack page, [o] bytes from its start. *)
Lemma fresh_stack_words m ks fr tr :
  let sp := ks + KSTACKSIZE - TF_SIZE - 4 - CONTEXT_SIZE in
  let m' := fresh_stack m ks fr tr in
  ld32 m' (sp + 16) = u32 fr ∧ ld32 m' (sp + CONTEXT_SIZE) = u32 tr ∧ ld32 m' sp = 0.
Proof.
  intros sp m'. unfold m', fresh_stack. fold sp. unfold CONTEXT_SIZE in *. split_and!.
  - by rewrite ld32_st32.
  - rewrite ld32_st32_ne by lia.
    transitivity (ld32 (st32 m (sp + 20) tr) (sp + 20)); [|apply ld32_st32].
    replace (ks + KSTACKSIZE - TF_SIZE - 4) with (sp + 20) by (unfold sp; lia).
    apply ld32_ext. intros x Hx. rewrite memset_spec by lia. case_test; lia || done.
  - rewrite ld32_st32_ne by lia. unfold ld32. rewrite !memset_spec by lia.
    repeat case_test; lia || done.
Qed.

Lemma fresh_stack_only m ks fr tr : only_page ks m (fresh_stack m ks fr tr).
Proof.
  intros x Hx. unfold fresh_stack, in_page, KSTACKSIZE, TF_SIZE, CONTEXT_SIZE, PGSIZE in *.
  rewrite st32_other by lia. rewrite memset_spec by lia. case_test; [lia|..]; apply st32_other; lia.
Qed.

(** Allocproc takes the first unused slot, gives it a pid no other used
    slot has and a kernel stack on which a new process starts in forkret and
    returns to trapret, and leaves every other slot alone.  It fails exactly
    when no slot is unused or no page is free, and then no slot becomes used.
    Either way pids stay unique and the locks are as before. *)
Theorem allocproc_fresh kend fr tr s l :
  pid_inv s → nextpid s < 2147483647 → Lptable ∉ held s → kunlocked (ck s) → free_rel kend (ck s) l →
  ∃ r s', allocproc fr tr s = Ret r s' ∧ pid_inv s' ∧ held s' = held s ∧
    match r with
    | Some i =>
        find_proc unused (ptable s) = Some i ∧ state (getp i s') = EMBRYO ∧
        (∀ j p, ptable s !! j = Some p → used p → pid p ≠ pid (getp i s')) ∧
        (∀ j, j ≠ i → getp j s' = getp j s) ∧
        ∃ l', l = kstack (getp i s') :: l' ∧ free_rel kend (ck s') l' ∧
          ld32 (kram (ck s')) (context (getp i s') + 16) = u32 fr ∧
          ld32 (kram (ck s')) (context (getp i s') + CONTEXT_SIZE) = u32 tr ∧
          kstack (getp i s') ≤ context (getp i s') ∧
          tf (getp i s') + TF_SIZE = kstack (getp i s') + KSTACKSIZE
    | None =>
        (find_proc unused (ptable s) = None ∨ l = []) ∧
        ∀ j, used (getp j s') ∨ used (getp j s) → getp j s' = getp j s
    end.
Proof.
  intros Hinv Hn Hh Hku Hfree. destruct (find_proc unused (ptable s)) as [i|] eqn:Hf.
  2:{ exists None, s. rewrite allocproc_full by done. split_and!; try done. by left. }
  pose proof Hf as (p & Hp & Hup & _)%find_proc_Some. apply bool_decide_eq_true_1 in Hup.
  pose proof (lookup_lt_Some _ _ _ Hp) as Hlt.
  destruct (s32_pid (nextpid s)) as [En Eu]; [destruct Hinv as (_ & ? & _); lia|].
  destruct l as [|ks l'].
  - eexists None, _. split; [by apply (allocproc_nomem _ _ _ i (ck s)); [..|by apply (kalloc_run_nil kend)|]|].
    split_and!; [|done|by right|].
    + eapply (pid_inv_alloc s _ i); [done|done|reflexivity|done|done].
    + intros j. unfold getp. cbn. destruct (decide (j = i)) as [->|Hne].
      * rewrite list_lookup_alter_eq, Hp. cbn. unfold used. cbn. naive_solver.
      * by rewrite list_lookup_alter_ne.
  - destruct (kalloc_run_ok kend (ck s) l' ks Hku Hfree) as (k1 & Ek & Hf1 & Em & Hk1 & _).
    pose proof Hfree as (_ & Hnd & Hok). apply Forall_cons in Hok as [Hks _].
    eexists (Some i), _. split.
    { apply (allocproc_run _ _ _ _ ks k1); try done. pose proof (page_ok_nonzero _ _ Hks). by bools. }
    split_and!.
    + eapply (pid_inv_alloc s _ i); [done|done|reflexivity|done|]. intros q Hq _. by cbn.
    + done.
    + done.
    + unfold getp. cbn. by rewrite list_lookup_alter_eq, Hp.
    + intros j q Hq Huq. unfold getp. cbn. rewrite list_lookup_alter_eq, Hp. cbn. rewrite Eu.
      destruct Hinv as (_ & _ & Hr & _). specialize (Hr j q Hq Huq). lia.
    + intros j Hne. unfold getp. cbn. by rewrite list_lookup_alter_ne.
    + exists l'. unfold getp. cbn [ptable ck]. rewrite list_lookup_alter_eq, Hp. cbn -[fresh_stack].
      destruct (fresh_stack_words (kram k1) ks fr tr) as (W1 & W2 & _).
      split_and!; try done; try (unfold KSTACKSIZE, TF_SIZE, CONTEXT_SIZE; lia).
      apply (free_rel_only_page _ _ _ ks); [apply fresh_stack_only|apply Hks| |done].
      by apply NoDup_cons in Hnd as [? _].
Qed.

(** A process table with two processes, the second a child of the first. *)
Definition ex_init : proc :=
  mk_proc 4096 (exP 1) (exP 3) RUNNING 1 (Some 0%nat) 0 0 None 0 (replicate NOFILE None) (Some 0%nat)
    (str "init") 0 69 420 0 0.
Definition ex_child : proc :=
  mk_proc 4096 0 0 RUNNABLE 2 (Some 0%nat) 0 0 None 0 (replicate NOFILE None) (Some 0%nat)
    (str "sh") 5 69 420 0 0.
Definition ex_core (first : Z) : core :=
  mk_core (ex_kst 0 first) (ex_init :: ex_child :: replicate 62 proc0) (Some 0%nat) 3 100 (Some 0%nat) 0 0 0 0.

Lemma ex_pid_inv first : pid_inv (ex_core first).
Proof.
  assert (∀ i p, ptable (ex_core first) !! i = Some p → used p →
    (i = 0%nat ∧ p = ex_init) ∨ (i = 1%nat ∧ p = ex_child)) as Hc.
  { intros [|[|i]] p; cbn -[replicate]; intros Hp Hu; [naive_solver..|].
    apply lookup_replicate in Hp as [-> _]. by destruct Hu. }
  split_and!; [done|done|done| |].
  - intros i p Hp Hu. by destruct (Hc i p Hp Hu) as [[_ ->]|[_ ->]].
  - intros i j p q Hp Hq Hup Huq.
    destruct (Hc i p Hp Hup) as [[-> ->]|[-> ->]], (Hc j q Hq Huq) as [[-> ->]|[-> ->]]; done.
Qed.

Lemma allocproc_fresh_witness :
  ∃ i s', allocproc 5000 6000 (ex_core (exP 4)) = Ret (Some i) s' ∧ state (getp i s') = EMBRYO.
Proof.
  destruct (allocproc_fresh (exP 1) 5000 6000 (ex_core (exP 4)) [exP 4; exP 5; exP 6])
    as (r & s' & Er & _ & _ & Hr).
  - apply ex_pid_inv.
  - reflexivity.
  - apply not_elem_of_nil.
  - right. apply not_elem_of_nil.
  - apply (ex_as_inv 0 (exP 4)); [lia|by left].
  - destruct r as [i|]; [exists i, s'; split; [exact Er|apply Hr]|].
    destruct Hr as [[H|H] _]; discriminate H.
Defined.

(** ** Sleeping and waking up *)

Lemma getp_lookup i s p : ptable s !! i = Some p → getp i s = p.
Proof. intros E. unfold getp. by rewrite E. Qed.

(** sched, called as its comment demands, gives up the processor. *)
Lemma sched_run s me :
  cur s = Some me → held s = [Lptable] → (me < length (ptable s))%nat → state (getp me s) ≠ RUNNING →
  sched s = Swtch (set_ptable (alter (λ p,
      set_cpu_ticks_total (u32 (cpu_ticks_total p + u32 (ticks s - cpu_ticks_in p))) p) me (ptable s)) s)
    (λ s', Ret tt s').
Proof.
  intros Hc Hh Hlt Hst. unfold sched. rewrite (myproc_ok _ _ me) by done.
  mstep. rewrite Hh. cbn [length Nat.eqb negb]. rewrite bool_decide_eq_true_2 by set_solver. cbn [negb].
  do 3 mstep. rewrite bool_decide_eq_false_2 by done. do 2 mstep. unfold intr_on. rewrite Hh. cbn.
  unfold bind. cbn. done.
Qed.

(** The run of sleep up to the switch and from the point it is resumed on. *)
Lemma sleep_run s me ch lk :
  cur s = Some me → (me < length (ptable s))%nat → held s = [lk] → lk ≠ Lptable →
  ∃ s1 k, sleep ch (Some lk) s = Swtch s1 k ∧ kram (ck s1) = kram (ck s) ∧
    held s1 = [Lptable] ∧ state (getp me s1) = SLEEPING ∧ pchan (getp me s1) = Some ch ∧
    (∀ j, j ≠ me → getp j s1 = getp j s) ∧
    ∀ s2, cur s2 = Some me → (me < length (ptable s2))%nat → held s2 = [Lptable] →
      k s2 = Ret tt (set_held [lk] (set_ptable (alter (set_pchan None) me (ptable s2)) s2)).
Proof.
  intros Hc Hlt Hh Hlk. unfold sleep. mstep. rewrite Hc. rewrite bool_decide_eq_false_2 by done. mstep.
  rewrite bool_decide_eq_true_2 by congruence.
  assert (Lptable ∉ held s) as Hnin by (rewrite Hh; set_solver).
  assert ((pacquire Lptable;; prelease lk)%K s = Ret tt (set_held [Lptable] s)) as Epre.
  { rewrite (bind_Ret _ _ _ _ _ (pacquire_ok _ _ Hnin)), Hh.
    unfold prelease, kk, krelease, zoom, set_held. cbn. unfold release. rewrite decide_True by set_solver.
    cbn. rewrite decide_False by done. by rewrite decide_True by done. }
  rewrite (bind_Ret _ _ _ _ _ Epre).
  set (s0 := set_ptable (alter (λ p, set_state SLEEPING (set_pchan (Some ch) p)) me (ptable s)) (set_held [Lptable] s)).
  rewrite (bind_Ret _ _ _ tt s0) by (by rewrite (myproc_ok _ _ me)).
  assert (∀ j, getp j s0 = if decide (j = me) then set_state SLEEPING (set_pchan (Some ch) (getp me s)) else getp j s) as Hg.
  { intros j. exact (getp_upd me j (λ p, set_state SLEEPING (set_pchan (Some ch) p)) (set_held [Lptable] s) Hlt). }
  assert ((me < length (ptable s0))%nat) as Hlt0 by (unfold s0; cbn; by rewrite length_alter).
  unfold bind at 1. rewrite (sched_run s0 me) by (done || (rewrite Hg, decide_True by done; done)). cbn [obind].
  eexists _, _. split; [reflexivity|]. split_and!.
  - done.
  - done.
  - by rewrite getp_upd, decide_True, Hg, decide_True by done.
  - by rewrite getp_upd, decide_True, Hg, decide_True by done.
  - intros j Hj. by rewrite getp_upd, decide_False, Hg, decide_False by done.
  - intros s2 Hc2 Hlt2 Hh2. set (s3 := set_ptable (alter (set_pchan None) me (ptable s2)) s2).
    rewrite (bind_Ret _ _ _ tt s3) by (by rewrite (myproc_ok _ _ me)).
    erewrite bind_Ret; [|apply (prelease_ok _ _ []); exact Hh2].
    rewrite pacquire_ok; [done|]. apply not_elem_of_nil.
Qed.

(** Sleep releases its lock and gives up the processor as one step seen
    from the other processes: when it switches, the process is SLEEPING on
    the channel, only ptable.lock is held and no other slot has changed.  When
    the scheduler resumes it, with ptable.lock held, it clears the channel and
    returns holding exactly the lock it was called with. *)
Theorem sleep_hands_over s me ch lk :
  cur s = Some me → (me < length (ptable s))%nat → held s = [lk] → lk ≠ Lptable →
  ∃ s1 k, sleep ch (Some lk) s = Swtch s1 k ∧
    held s1 = [Lptable] ∧ state (getp me s1) = SLEEPING ∧ pchan (getp me s1) = Some ch ∧
    (∀ j, j ≠ me → getp j s1 = getp j s) ∧
    ∀ s2, cur s2 = Some me → (me < length (ptable s2))%nat → held s2 = [Lptable] →
      ∃ s3, k s2 = Ret tt s3 ∧ held s3 = [lk] ∧
        getp me s3 = set_pchan None (getp me s2) ∧ (∀ j, j ≠ me → getp j s3 = getp j s2).
Proof.
  intros Hc Hlt Hh Hlk. destruct (sleep_run s me ch lk Hc Hlt Hh Hlk) as (s1 & k & E & _ & H1 & H2 & H3 & H4 & H5).
  exists s1, k. split_and!; try done. intros s2 Hc2 Hlt2 Hh2. eexists. split; [by apply H5|]. split_and!; [done|..].
  - change (getp me (set_ptable (alter (set_pchan None) me (ptable s2)) s2) = set_pchan None (getp me s2)).
    by rewrite getp_upd, decide_True.
  - intros j Hj. change (getp j (set_ptable (alter (set_pchan None) me (ptable s2)) s2) = getp j s2).
    by rewrite getp_upd, decide_False.
Qed.

Lemma sleep_hands_over_witness :
  ∃ s1 k, sleep ChLog (Some Llog) (set_held [Llog] (ex_core 0)) = Swtch s1 k ∧
    state (getp 0 s1) = SLEEPING.
Proof.
  destruct (sleep_hands_over (set_held [Llog] (ex_core 0)) 0 ChLog Llog) as (s1 & k & E & _ & Hs & _).
  - reflexivity.
  - cbn. lia.
  - reflexivity.
  - discriminate.
  - exists s1, k. split; [exact E|exact Hs].
Defined.

Lemma wakeup_run ch s :
  Lptable ∉ held s → wakeup ch s = Ret tt (set_ptable (wake (Some ch) <$> ptable s) s).
Proof.
  intros Hh. unfold wakeup. rewrite (bind_Ret _ _ _ _ _ (pacquire_ok _ _ Hh)).
  unfold wakeup1. mstep. rewrite (prelease_ok _ _ (held s)) by done. by destruct s as [[] ].
Qed.

Lemma getp_fmap f s i : f proc0 = proc0 → getp i (set_ptable (f <$> ptable s) s) = f (getp i s).
Proof.
  intros H0. unfold getp. cbn. rewrite list_lookup_fmap. by destruct (ptable s !! i); cbn.
Qed.

(** Wakeup makes runnable exactly the processes that sleep on the
    channel, all of them, and changes nothing else of any process. *)
Theorem wakeup_exact ch s :
  Lptable ∉ held s →
  ∃ s', wakeup ch s = Ret tt s' ∧ held s' = held s ∧ ∀ i,
    if bool_decide (state (getp i s) = SLEEPING ∧ pchan (getp i s) = Some ch)
    then getp i s' = set_state RUNNABLE (getp i s)
    else getp i s' = getp i s.
Proof.
  intros Hh. eexists. split; [by apply wakeup_run|]. split; [done|]. intros i.
  rewrite getp_fmap by done. unfold wake. destruct (getp i s) as []. cbn.
  repeat case_bool_decide; cbn; naive_solver.
Qed.

Lemma wakeup_exact_witness : ∃ s', wakeup ChTicks (ex_core 0) = Ret tt s' ∧ held s' = [].
Proof.
  destruct (wakeup_exact ChTicks (ex_core 0)) as (s' & E & Hh & _).
  - apply not_elem_of_nil.
  - exists s'. split; [exact E|exact Hh].
Defined.

(** ** kill *)

Definition kill_slot (p : proc) : proc :=
  let q := set_killed 1 p in if bool_decide (state q = SLEEPING) then set_state RUNNABLE q else q.

Lemma kill_found n s i :
  Lptable ∉ held s → find_proc (λ p, pid p =? u32 n) (ptable s) = Some i →
  kill n s = Ret 0 (set_ptable (alter kill_slot i (ptable s)) s).
Proof.
  intros Hh Hf. pose proof Hf as (p & Hp & _)%find_proc_Some.
  unfold kill. rewrite (bind_Ret _ _ _ _ _ (pacquire_ok _ _ Hh)). mstep.
  cbn [ptable set_held set_ck]. rewrite Hf. do 2 mstep.
  rewrite getp_upd, decide_True by (done || eapply lookup_lt_Some, Hp).
  replace (getp i (set_held (Lptable :: held s) s)) with p by (symmetry; by apply getp_lookup).
  assert (alter kill_slot i (ptable s) = if bool_decide (state p = SLEEPING)
    then alter (set_state RUNNABLE) i (alter (set_killed 1) i (ptable s))
    else alter (set_killed 1) i (ptable s)) as ->.
  { unfold kill_slot. case_bool_decide; rewrite ?list_alter_alter_eq; eapply alter_lookup_ext; try done; cbn;
      [by rewrite bool_decide_eq_true_2|by rewrite bool_decide_eq_false_2]. }
  destruct s as [[h ? ? ? ?] pt]. cbn [state set_killed].
  case_bool_decide; mstep; (erewrite bind_Ret; [|by apply (prelease_ok _ _ h)]); done.
Qed.

Lemma kill_not_found n s :
  Lptable ∉ held s → find_proc (λ p, pid p =? u32 n) (ptable s) = None → kill n s = Ret (-1) s.
Proof.
  intros Hh Hf. unfold kill. rewrite (bind_Ret _ _ _ _ _ (pacquire_ok _ _ Hh)). mstep.
  cbn [ptable set_held set_ck]. rewrite Hf. mrelease (held s). by destruct s as [[] ].
Qed.

(** Kill finds the process by its pid: with unique pids it marks the one
    used slot that has the pid, wakes it if it sleeps, and touches no other;
    for a pid no slot has it returns -1 and changes nothing. *)
Theorem kill_marks n s :
  pid_inv s → Lptable ∉ held s → 0 < n < 2147483648 →
  (∀ p, p ∈ ptable s → state p = UNUSED → pid p ≠ n) →
  (∃ i s', used (getp i s) ∧ pid (getp i s) = n ∧ kill n s = Ret 0 s' ∧
     killed (getp i s') = 1 ∧ state (getp i s') ≠ SLEEPING ∧
     (state (getp i s) ≠ SLEEPING → state (getp i s') = state (getp i s)) ∧
     ∀ j, j ≠ i → getp j s' = getp j s) ∨
  ((∀ i, used (getp i s) → pid (getp i s) ≠ n) ∧ kill n s = Ret (-1) s).
Proof.
  intros Hinv Hh Hn Hun. assert (u32 n = n) as Eu by (apply u32_small; unfold W32; lia).
  destruct (find_proc (λ p, pid p =? u32 n) (ptable s)) as [i|] eqn:Hf.
  - left. pose proof Hf as (p & Hp & Hpid & _)%find_proc_Some. rewrite Eu in Hpid. bools.
    pose proof (getp_lookup _ _ _ Hp) as Hg. pose proof (lookup_lt_Some _ _ _ Hp) as Hlt.
    exists i. eexists. split_and!; [| |by apply kill_found| | | |].
    + rewrite Hg. intros Hu. by apply (Hun p); [eapply list_elem_of_lookup_2|..].
    + by rewrite Hg.
    + rewrite getp_upd, decide_True by done. unfold kill_slot. cbn. by case_bool_decide.
    + rewrite getp_upd, decide_True by done. unfold kill_slot. cbn. by case_bool_decide.
    + intros Hs. rewrite getp_upd, decide_True by done. unfold kill_slot. cbn. by case_bool_decide.
    + intros j Hj. by rewrite getp_upd, decide_False by done.
  - right. split; [|by apply kill_not_found]. intros i Hu E.
    rewrite find_proc_None in Hf. unfold getp in *. destruct (ptable s !! i) as [p|] eqn:Hp; [|by destruct Hu].
    cbn in *. specialize (Hf p (list_elem_of_lookup_2 _ _ _ Hp)). bools. congruence.
Qed.

(** Kill compares pids without looking at the slot's state, and unused
    slots have pid 0: kill(0) reports success and marks an unused slot as
    killed, and since allocproc does not clear the mark, the next process
    created in that slot is born killed. *)
Theorem kill_zero_dooms_next_process kend fr tr s i ks l :
  Lptable ∉ held s → kunlocked (ck s) → free_rel kend (ck s) (ks :: l) →
  find_proc (λ p, pid p =? 0) (ptable s) = Some i → find_proc unused (ptable s) = Some i →
  ∃ s1 s2, kill 0 s = Ret 0 s1 ∧ allocproc fr tr s1 = Ret (Some i) s2 ∧
    state (getp i s2) = EMBRYO ∧ killed (getp i s2) = 1.
Proof.
  intros Hh Hku Hfree Hf0 Hfu. pose proof Hfu as (p & Hp & Hup & Hmin)%find_proc_Some.
  eexists. rewrite (kill_found 0 s i) by done.
  destruct (kalloc_run_ok kend (ck s) l ks Hku Hfree) as (k1 & Ek & _ & _ & Hk1 & _).
  pose proof Hfree as (_ & _ & Hok). apply Forall_cons in Hok as [Hks _].
  eexists. split; [done|]. split.
  { apply (allocproc_run _ _ _ i ks k1); try done.
    - cbn. apply find_proc_Some. eexists. rewrite list_lookup_alter_eq, Hp. split_and!; [done| |].
      + unfold unused, kill_slot in *. bools. cbn.
        rewrite (bool_decide_eq_false_2 (state p = SLEEPING)) by congruence. by apply bool_decide_eq_true_2.
      + intros j q Hj. rewrite list_lookup_alter_ne by lia. by apply Hmin.
    - pose proof (page_ok_nonzero _ _ Hks). by bools. }
  unfold getp. cbn. rewrite !list_lookup_alter_eq, Hp. cbn. split; [done|].
  unfold kill_slot. cbn. by case_bool_decide.
Qed.

Lemma kill_marks_witness : ∃ i s', used (getp i (ex_core 0)) ∧ kill 2 (ex_core 0) = Ret 0 s' ∧ killed (getp i s') = 1.
Proof.
  destruct (kill_marks 2 (ex_core 0)) as [(i & s' & H1 & _ & H2 & H3 & _)|[H _]].
  - apply ex_pid_inv.
  - apply not_elem_of_nil.
  - lia.
  - intros p Hp Hu. apply elem_of_cons in Hp as [->|Hp]; [done|].
    apply elem_of_cons in Hp as [->|Hp]; [done|]. by apply elem_of_replicate in Hp as [-> _].
  - exists i, s'. split; [exact H1|]. split; [exact H2|exact H3].
  - exfalso. exact (H 1%nat ltac:(done) eq_refl).
Defined.

Lemma kill_zero_dooms_next_process_witness :
  ∃ s1 s2, kill 0 (ex_core (exP 4)) = Ret 0 s1 ∧ allocproc 0 0 s1 = Ret (Some 2%nat) s2 ∧
    state (getp 2 s2) = EMBRYO ∧ killed (getp 2 s2) = 1.
Proof.
  apply (kill_zero_dooms_next_process (exP 1) 0 0 (ex_core (exP 4)) 2 (exP 4) [exP 5; exP 6]).
  - apply not_elem_of_nil.
  - right. apply not_elem_of_nil.
  - apply (ex_as_inv 0 (exP 4)); [lia|by left].
  - reflexivity.
  - reflexivity.
Defined.

(** ** wait and exit *)

Definition is_kid (me : nat) (s : core) (j : nat) : bool := bool_decide (parent (getp j s) = Some me).

Lemma wait_scan_skip kend me k n i hk s :
  (∀ j, (i ≤ j < i + k)%nat → is_kid me s j = true → state (getp j s) ≠ ZOMBIE) →
  wait_scan kend me (k + n) i hk s =
  wait_scan kend me n (i + k) (hk || existsb (is_kid me s) (seq i k)) s.
Proof.
  revert i hk. induction k as [|k IH]; intros i hk Hz; cbn [Nat.add wait_scan seq existsb].
  { by rewrite Nat.add_0_r, orb_false_r. }
  mstep. replace (i + S k)%nat with (S i + k)%nat by lia. fold (is_kid me s i).
  specialize (IH (S i)). destruct (is_kid me s i) eqn:Ek; cbn [negb].
  - mstep. rewrite bool_decide_eq_false_2 by (apply Hz; [lia|done]).
    rewrite IH by (intros; apply Hz; [lia|done]). by rewrite orb_true_l, orb_true_r.
  - rewrite IH by (intros; apply Hz; [lia|done]). by rewrite orb_false_l.
Qed.

(** Freeing a page that belongs to nobody keeps an address space. *)
Lemma as_inv_freed kend s l dir T E U p :
  as_inv kend s l dir T E U → page_ok kend p → p ∉ dir :: vals T ++ vals U ++ l →
  kfree kend p s = Ret tt (freed p s) ∧ as_inv kend (freed p s) (p :: l) dir T E U.
Proof.
  intros ((Hl & Hf & Hnd & Hok & Hr & Hdom) & Hnd2 & Hoku & Hu) Hp Hnin.
  rewrite not_elem_of_cons, !not_elem_of_app in Hnin. destruct Hnin as (N1 & N2 & N3 & N4).
  destruct (kfree_ok kend p s l Hp N4 Hl Hf) as [Ek Hf']. split; [done|].
  assert (only_page p (kram s) (kram (freed p s))) as Ho by (intros x Hx; by apply freed_other).
  assert (NoDup (dir :: vals T ++ vals U ++ p :: l)) as Hnd3.
  { rewrite app_assoc in *. rewrite <- Permutation_middle, Permutation_swap. constructor; [|done].
    rewrite not_elem_of_cons, !not_elem_of_app. done. }
  split_and!; try done. split_and!; try done.
  - rewrite <- Permutation_middle, Permutation_swap. constructor; [|done].
    by rewrite not_elem_of_cons, not_elem_of_app.
  - eapply pt_rel_frame; [done|done|apply Hp|done..].
Qed.

Lemma as_inv_held kend k l dir T E U h :
  as_inv kend k l dir T E U → Lkmem ∉ h → as_inv kend (set_kheld h k) l dir T E U.
Proof. intros ((_ & ?) & ?) Hh. split; [|done]. split; [by right|done]. Qed.

(** The slot of a reaped process. *)
Definition reaped (p : proc) : proc :=
  set_killed 0 (set_pname [] (set_parent None (set_pid 0 (set_state UNUSED (set_kstack 0 p))))).

Lemma wait_scan_reap kend me n i hk s l T E U :
  KERNBASE < kend → held s = [Lptable] → ptable s !! i ≠ None →
  is_kid me s i = true → state (getp i s) = ZOMBIE →
  as_inv kend (ck s) l (pgdir (getp i s)) T E U → page_ok kend (kstack (getp i s)) →
  kstack (getp i s) ∉ pgdir (getp i s) :: vals T ++ vals U ++ l →
  ∃ k' l', wait_scan kend me (S n) i hk s =
      Ret (inl (pid (getp i s))) (set_ck k' (set_ptable (alter reaped i (ptable s)) s)) ∧
    kheld k' = [] ∧ free_rel kend k' l' ∧
    l' ≡ₚ kstack (getp i s) :: pgdir (getp i s) :: vals T ++ vals U ++ l.
Proof.
  intros Hkend Hh Hi Hk Hz Has Hks Hnin. cbn [wait_scan]. mstep. fold (is_kid me s i). rewrite Hk. cbn [negb].
  mstep. rewrite bool_decide_eq_true_2 by done. do 2 mstep.
  destruct (as_inv_freed kend (ck s) l _ T E U _ Has Hks Hnin) as [Ek Has'].
  rewrite (bind_Ret _ _ _ _ _ (kk_Ret _ _ _ _ Ek)). do 2 mstep.
  assert (pgdir (getp i (set_ptable (alter (set_kstack 0) i (ptable s)) (set_ck (freed (kstack (getp i s)) (ck s)) s)))
    = pgdir (getp i s)) as Epg.
  { unfold getp. cbn. rewrite list_lookup_alter_eq. by destruct (ptable s !! i). }
  cbn [ptable set_ck] in *. rewrite Epg.
  destruct (freevm_ok kend Hkend _ _ _ _ _ _ Has') as (k1 & l' & Ef & Hf' & Hp' & (Hh1 & _ & _) & _).
  erewrite bind_Ret; [|by apply kk_Ret]. mstep.
  erewrite bind_Ret; [|apply (prelease_ok _ _ []); etrans; [exact Hh1|exact Hh]].
  exists (set_kheld [] k1), l'. split_and!.
  - unfold ret. cbn. rewrite list_alter_alter_eq. done.
  - done.
  - done.
  - rewrite Hp'. rewrite !app_assoc, <- Permutation_middle. by rewrite Permutation_swap.
Qed.

Lemma sleep_ptable_run s me ch :
  cur s = Some me → (me < length (ptable s))%nat → held s = [Lptable] →
  ∃ s1 k, sleep ch (Some Lptable) s = Swtch s1 k ∧
    held s1 = [Lptable] ∧ state (getp me s1) = SLEEPING ∧ pchan (getp me s1) = Some ch ∧
    (∀ j, j ≠ me → getp j s1 = getp j s).
Proof.
  intros Hc Hlt Hh. unfold sleep. mstep. rewrite Hc. rewrite bool_decide_eq_false_2 by done. mstep.
  rewrite bool_decide_eq_false_2 by (intros []; done). mstep.
  set (s0 := set_ptable (alter (λ p, set_state SLEEPING (set_pchan (Some ch) p)) me (ptable s)) s).
  rewrite (bind_Ret _ _ _ tt s0) by (by rewrite (myproc_ok _ _ me)).
  pose proof (λ j, getp_upd me j (λ p, set_state SLEEPING (set_pchan (Some ch) p)) s Hlt) as Hg. fold s0 in Hg.
  assert ((me < length (ptable s0))%nat) as Hlt0 by (unfold s0; cbn; by rewrite length_alter).
  unfold bind at 1. rewrite (sched_run s0 me) by (done || (rewrite Hg, decide_True by done; done)). cbn [obind].
  eexists _, _. split; [reflexivity|]. split_and!; [done|..].
  - by rewrite getp_upd, decide_True, Hg, decide_True by done.
  - by rewrite getp_upd, decide_True, Hg, decide_True by done.
  - intros j Hj. by rewrite getp_upd, decide_False, Hg, decide_False by done.
Qed.

(** C26: wait reaps a zombie child: it returns the pid of the first one in the
    table, clears its slot for reuse, and gives its kernel stack, its page
    directory, page tables and user memory back to the allocator; no other
    slot changes and no lock stays held. *)
Theorem wait_reaps_zombie kend fuel s me i l T E U :
  KERNBASE < kend → cur s = Some me → held s = [] → length (ptable s) = NPROC → (i < NPROC)%nat →
  parent (getp i s) = Some me → state (getp i s) = ZOMBIE →
  (∀ j, (j < i)%nat → parent (getp j s) = Some me → state (getp j s) ≠ ZOMBIE) →
  as_inv kend (ck s) l (pgdir (getp i s)) T E U → page_ok kend (kstack (getp i s)) →
  kstack (getp i s) ∉ pgdir (getp i s) :: vals T ++ vals U ++ l →
  ∃ s' l', wait kend (S fuel) s = Ret (pid (getp i s)) s' ∧ held s' = [] ∧
    getp i s' = reaped (getp i s) ∧ (∀ j, j ≠ i → getp j s' = getp j s) ∧
    free_rel kend (ck s') l' ∧
    l' ≡ₚ kstack (getp i s) :: pgdir (getp i s) :: vals T ++ vals U ++ l.
Proof.
  intros Hkend Hc Hh Hlen Hi Hpar Hz Hmin Has Hks Hnin. unfold wait.
  rewrite (bind_Ret _ _ _ _ _ (pacquire_ok Lptable s ltac:(rewrite Hh; apply not_elem_of_nil))), Hh.
  set (s1 := set_held [Lptable] s). rewrite (myproc_ok _ _ me) by done. cbn [wait_loop].
  pose proof (wait_scan_skip kend me i (S (NPROC - i - 1)) 0 false s1) as Hskip.
  replace (i + S (NPROC - i - 1))%nat with NPROC in Hskip by lia.
  assert (is_kid me s1 i = true) as Hkid by by apply bool_decide_eq_true_2.
  destruct (wait_scan_reap kend me (NPROC - i - 1) i (false || existsb (is_kid me s1) (seq 0 i)) s1 l T E U)
    as (k' & l' & Es & Hh' & Hf & Hp); try done.
  - intros Hn. apply lookup_ge_None in Hn. unfold s1 in Hn. cbn in Hn. lia.
  - apply as_inv_held; [done|not_in].
  - cbn [Nat.add] in Hskip. rewrite Es in Hskip. erewrite bind_Ret; [|apply Hskip].
    2:{ intros j Hj Hk. apply Hmin; [lia|]. unfold is_kid in Hk. by bools. }
    eexists _, l'. split; [reflexivity|]. split_and!; try done.
    + change (getp i (set_ptable (alter reaped i (ptable s)) s) = reaped (getp i s)).
      by rewrite getp_upd, decide_True by lia.
    + intros j Hj. change (getp j (set_ptable (alter reaped i (ptable s)) s) = getp j s).
      by rewrite getp_upd, decide_False by lia.
Qed.

(** Wait with no zombie child: without children, or killed, it returns -1
    and changes nothing; otherwise it goes to sleep on its own slot, under
    ptable.lock, which is the channel and the lock exit uses. *)
Theorem wait_without_zombie kend fuel s me :
  cur s = Some me → held s = [] → length (ptable s) = NPROC → (me < NPROC)%nat →
  (∀ j, parent (getp j s) = Some me → state (getp j s) ≠ ZOMBIE) →
  ((∀ j, (j < NPROC)%nat → parent (getp j s) ≠ Some me) ∨ killed (getp me s) ≠ 0) ∧
    wait kend (S fuel) s = Ret (-1) s ∨
  (∃ j, (j < NPROC)%nat ∧ parent (getp j s) = Some me) ∧ killed (getp me s) = 0 ∧
    ∃ s1 k, wait kend (S fuel) s = Swtch s1 k ∧ held s1 = [Lptable] ∧
      state (getp me s1) = SLEEPING ∧ pchan (getp me s1) = Some (ChProc me) ∧
      (∀ j, j ≠ me → getp j s1 = getp j s).
Proof.
  intros Hc Hh Hlen Hme Hz. unfold wait.
  rewrite (bind_Ret _ _ _ _ _ (pacquire_ok Lptable s ltac:(rewrite Hh; apply not_elem_of_nil))), Hh.
  set (s1 := set_held [Lptable] s). rewrite (myproc_ok _ _ me) by done. cbn [wait_loop].
  pose proof (wait_scan_skip kend me NPROC 0 0 false s1) as Es.
  rewrite Nat.add_0_r in Es. cbn [wait_scan Nat.add orb] in Es.
  rewrite (bind_Ret _ _ _ _ _ (Es ltac:(intros j _ Hk; apply Hz; unfold is_kid in Hk; by bools))).
  set (hk := existsb (is_kid me s1) (seq 0 NPROC)). mstep.
  change (killed (getp me s1)) with (killed (getp me s)).
  assert (hk = true ↔ ∃ j, (j < NPROC)%nat ∧ parent (getp j s) = Some me) as Hhk.
  { unfold hk. rewrite existsb_exists. split; intros (j & Hj & Hp); exists j.
    - apply in_seq in Hj. unfold is_kid in Hp. bools. split; [lia|done].
    - split; [apply in_seq; lia|by apply bool_decide_eq_true_2]. }
  destruct (Z.eqb_spec (killed (getp me s)) 0) as [Hkd|Hkd]; [destruct hk|]; cbn [negb orb].
  - right. split; [by apply Hhk|]. split; [done|].
    mstep. change (killed (getp me s1)) with (killed (getp me s)). rewrite Hkd. cbn [Z.eqb negb].
    destruct (sleep_ptable_run s1 me (ChProc me)) as (s2 & k & Esl & H1 & H2 & H3 & H4); try done; [by cbn; lia|].
    unfold bind at 1. rewrite Esl. cbn [obind]. eexists _, _. split; [reflexivity|]. split_and!; done.
  - left. split; [left; intros j Hj Hp; discriminate (proj2 Hhk (ex_intro _ j (conj Hj Hp)))|].
    mrelease (@nil lockid). unfold ret, s1. by rewrite (set_held_back s [] [Lptable]).
  - left. split; [by right|]. rewrite orb_true_r.
    mrelease (@nil lockid). unfold ret, s1. by rewrite (set_held_back s [] [Lptable]).
Qed.

Definition ex_zombie : proc :=
  mk_proc 4096 (exP 1) (exP 7) ZOMBIE 2 (Some 0%nat) 0 0 None 0 (replicate NOFILE None) None (str "sh") 5 69 420 0 0.
Definition ex_zcore : core := set_ptable (ex_init :: ex_zombie :: replicate 62 proc0) (ex_core (exP 4)).

Lemma wait_reaps_zombie_witness :
  ∃ s' l', wait (exP 1) 1 ex_zcore = Ret 2 s' ∧ free_rel (exP 1) (ck s') l' ∧
    l' ≡ₚ [exP 7; exP 1; exP 2; exP 3; exP 4; exP 5; exP 6].
Proof.
  destruct (wait_reaps_zombie (exP 1) 0 ex_zcore 0 1 [exP 4; exP 5; exP 6] {[0 := exP 2]} (ex_E 0) {[0 := exP 3]})
    as (s' & l' & E & _ & _ & _ & Hf & Hp).
  - reflexivity.
  - reflexivity.
  - reflexivity.
  - reflexivity.
  - unfold NPROC. lia.
  - reflexivity.
  - reflexivity.
  - intros j Hj _. assert (j = 0%nat) as -> by lia. discriminate.
  - apply (ex_as_inv 0 (exP 4)); [lia|by left].
  - apply ex_page_ok. lia.
  - unfold vals. rewrite !map_to_list_singleton. cbn. apply (bool_decide_unpack _). reflexivity.
  - exists s', l'. split; [exact E|]. split; [exact Hf|exact Hp].
Defined.

Lemma wait_without_zombie_witness :
  ∃ s1 k, wait (exP 1) 1 (ex_core (exP 4)) = Swtch s1 k ∧ state (getp 0 s1) = SLEEPING.
Proof.
  destruct (wait_without_zombie (exP 1) 0 (ex_core (exP 4)) 0) as [[[H|H] _]|(_ & _ & s1 & k & E & _ & H & _)].
  - reflexivity.
  - reflexivity.
  - reflexivity.
  - unfold NPROC. lia.
  - intros j. unfold getp. cbn -[replicate]. destruct j as [|[|j]]; [done|done|]. cbn -[replicate].
    destruct (replicate 62 proc0 !! j) as [p|] eqn:Hp; [|done].
    apply lookup_replicate in Hp as [-> _]. done.
  - exfalso. apply (H 1%nat); [unfold NPROC; lia|reflexivity].
  - exfalso. apply H. reflexivity.
  - exists s1, k. split; [exact E|exact H].
Defined.

(** A zombie child of [me]. *)
Definition zkid (me : nat) (s : core) (j : nat) : bool :=
  is_kid me s j && bool_decide (state (getp j s) = ZOMBIE).

Definition wake_if (b : bool) (ch : option chan) (p : proc) : proc := if b then wake ch p else p.

Lemma wake_fields ch p :
  parent (wake ch p) = parent p ∧ (state (wake ch p) = ZOMBIE ↔ state p = ZOMBIE) ∧
  wake ch (wake ch p) = wake ch p ∧ wake ch proc0 = proc0 ∧
  ∀ v, wake ch (set_parent v p) = set_parent v (wake ch p).
Proof.
  unfold wake. destruct p as []; cbn. split_and!; repeat (case_bool_decide; cbn); try naive_solver.
  all: intros v; repeat (case_bool_decide; cbn); naive_solver.
Qed.

Lemma wake_if_fields b ch p :
  parent (wake_if b ch p) = parent p ∧ (state (wake_if b ch p) = ZOMBIE ↔ state p = ZOMBIE).
Proof. destruct b; [|done]. cbn. by destruct (wake_fields ch p) as (? & ? & _). Qed.

Lemma wake_if_wake_if b b' ch p : wake_if b ch (wake_if b' ch p) = wake_if (b' || b) ch p.
Proof. destruct b, b'; try done. by destruct (wake_fields ch p) as (_ & _ & ? & _). Qed.

Lemma wake_if_parent b ch v p : wake_if b ch (set_parent v p) = set_parent v (wake_if b ch p).
Proof. destruct b; [|done]. by destruct (wake_fields ch p) as (_ & _ & _ & _ & ->). Qed.

(** One slot of exit's loop over the children. *)
Lemma exit_child_step me ini i s :
  initproc s = Some ini → (i < length (ptable s))%nat →
  ∃ pt, (if is_kid me s i then
       ip <- gets initproc;;
       pupd i (set_parent ip);;
       st <- pget i state;;
       when (bool_decide (st = ZOMBIE)) do wakeup1 (ChProc <$> ip)
     else ret tt)%K s = Ret tt (set_ptable pt s) ∧ length pt = length (ptable s) ∧
    ∀ j, getp j (set_ptable pt s) =
      let p := wake_if (zkid me s i) (Some (ChProc ini)) (getp j s) in
      if decide (j = i) then if is_kid me s i then set_parent (Some ini) p else p else p.
Proof.
  intros Hini Hlt. unfold zkid. destruct (is_kid me s i) eqn:Ek.
  2:{ exists (ptable s). split_and!; [by destruct s|done|]. intros j. cbn.
      case_decide; by destruct s. }
  mstep. rewrite Hini. do 2 mstep. cbn [andb].
  rewrite getp_upd, decide_True by done. cbn [state set_parent].
  case_bool_decide as Hz.
  - exists (wake (Some (ChProc ini)) <$> alter (set_parent (Some ini)) i (ptable s)).
    split; [by destruct s|]. split; [by rewrite length_fmap, length_alter|].
    intros j. cbn [wake_if]. change (getp j (set_ptable (wake (Some (ChProc ini)) <$> ptable (set_ptable (alter (set_parent (Some ini)) i (ptable s)) s))
      (set_ptable (alter (set_parent (Some ini)) i (ptable s)) s)) = if decide (j = i) then
        set_parent (Some ini) (wake (Some (ChProc ini)) (getp j s)) else wake (Some (ChProc ini)) (getp j s)).
    rewrite getp_fmap by (by apply wake_fields). rewrite getp_upd by done. case_decide as Hj; [subst j|done].
    by destruct (wake_fields (Some (ChProc ini)) (getp i s)) as (_ & _ & _ & _ & ->).
  - exists (alter (set_parent (Some ini)) i (ptable s)).
    split; [by destruct s|]. split; [by rewrite length_alter|]. intros j. cbn [wake_if]. rewrite getp_upd by done. by case_decide; subst.
Qed.

(** The slots after the loop, from slot [i] on. *)
Lemma exit_children_run me ini n i s :
  initproc s = Some ini → (i + n ≤ length (ptable s))%nat →
  ∃ pt, exit_children me n i s = Ret tt (set_ptable pt s) ∧ length pt = length (ptable s) ∧
    ∀ j, getp j (set_ptable pt s) =
      let p := wake_if (existsb (zkid me s) (seq i n)) (Some (ChProc ini)) (getp j s) in
      if bool_decide (i ≤ j < i + n)%nat && is_kid me s j then set_parent (Some ini) p else p.
Proof.
  revert i s. induction n as [|n IH]; intros i s Hini Hlen; cbn [exit_children seq existsb].
  { exists (ptable s). split_and!; [by destruct s|done|]. intros j.
    rewrite bool_decide_eq_false_2 by lia. by destruct s. }
  mstep. fold (is_kid me s i).
  destruct (exit_child_step me ini i s Hini) as (pt1 & E1 & Hl1 & Hg1); [lia|].
  rewrite (bind_Ret _ _ _ _ _ E1). set (s1 := set_ptable pt1 s) in *.
  destruct (IH (S i) s1 Hini) as (pt & E2 & Hl2 & Hg2); [unfold s1; cbn; lia|].
  exists pt. split; [rewrite E2; by destruct s|]. split; [unfold s1 in Hl2; cbn in Hl2; lia|].
  assert (∀ j, j ≠ i → is_kid me s1 j = is_kid me s j ∧ zkid me s1 j = zkid me s j) as Hk.
  { intros j Hj. specialize (Hg1 j). rewrite decide_False in Hg1 by done.
    destruct (wake_if_fields (zkid me s i) (Some (ChProc ini)) (getp j s)) as [Hp Hz].
    cbn zeta in Hg1. rewrite <- Hg1 in Hp, Hz. unfold zkid, is_kid. rewrite Hp. split; [done|].
    f_equal. by apply bool_decide_ext. }
  assert (existsb (zkid me s1) (seq (S i) n) = existsb (zkid me s) (seq (S i) n)) as Hex.
  { apply eq_true_iff_eq. rewrite !existsb_exists.
    split; intros (j & Hj & Hz); exists j; (split; [done|]); apply in_seq in Hj;
      destruct (Hk j) as [_ E]; [lia|congruence|lia|congruence]. }
  intros j. change (getp j (set_ptable pt s)) with (getp j (set_ptable pt s1)).
  rewrite Hg2, Hex, Hg1. cbn zeta.
  destruct (decide (j = i)) as [->|Hj].
  - rewrite (bool_decide_eq_false_2 (S i ≤ i < _)%nat), (bool_decide_eq_true_2 (i ≤ i < _)%nat) by lia.
    cbn [andb]. destruct (is_kid me s i); by rewrite ?wake_if_parent, wake_if_wake_if.
  - destruct (Hk j Hj) as [-> _]. rewrite wake_if_wake_if.
    assert (bool_decide (S i ≤ j < S i + n)%nat = bool_decide (i ≤ j < i + S n)%nat) as ->; [|done].
    apply bool_decide_ext. lia.
Qed.

Lemma wake_state ch p :
  state (wake ch p) = if bool_decide (state p = SLEEPING ∧ pchan p = ch) then RUNNABLE else state p.
Proof.
  unfold wake. destruct p as []; cbn. repeat (case_bool_decide; cbn); naive_solver.
Qed.

Lemma wake_pchan ch p : pchan (wake ch p) = pchan p.
Proof. unfold wake. by destruct (_ && _). Qed.

Lemma wake_if_runnable b ch ch' p :
  state p = SLEEPING → pchan p = ch →
  (b = true → state (wake_if b ch (wake ch' p)) = RUNNABLE) ∧
  (ch = ch' → state (wake_if b ch (wake ch' p)) = RUNNABLE).
Proof.
  intros Hs Hc. unfold wake_if. split.
  - intros ->. rewrite !wake_state, wake_pchan. repeat case_bool_decide; naive_solver.
  - intros <-. destruct b; rewrite !wake_state, ?wake_pchan; repeat case_bool_decide; naive_solver.
Qed.

Lemma exit_zombie_run s me ini :
  cur s = Some me → initproc s = Some ini → held s = [] → length (ptable s) = NPROC → (me < NPROC)%nat →
  let ch := ChProc <$> parent (getp me s) in
  ∃ s1 k b, exit_zombie me s = Swtch s1 k ∧ held s1 = [Lptable] ∧ (∀ s2, k s2 = Panic "zombie exit" s2) ∧
    (b = true ↔ ∃ j, (j < NPROC)%nat ∧ parent (getp j s) = Some me ∧ state (getp j s) = ZOMBIE) ∧
    ∀ j, (j < NPROC)%nat →
      parent (getp j s1) = (if decide (parent (getp j s) = Some me) then Some ini else parent (getp j s)) ∧
      state (getp j s1) = (if decide (j = me) then ZOMBIE
        else state (wake_if b (Some (ChProc ini)) (wake ch (getp j s)))).
Proof.
  intros Hc Hini Hh Hlen Hme ch. unfold exit_zombie.
  rewrite (bind_Ret _ _ _ _ _ (pacquire_ok Lptable s ltac:(rewrite Hh; apply not_elem_of_nil))), Hh.
  mstep. change (parent (getp me (set_held [Lptable] s))) with (parent (getp me s)).
  fold ch.
  set (s0 := set_ptable (wake ch <$> ptable s) (set_held [Lptable] s)).
  rewrite (bind_Ret _ _ _ tt s0) by done.
  assert (∀ j, getp j s0 = wake ch (getp j s)) as Hg0.
  { intros j. exact (getp_fmap (wake ch) (set_held [Lptable] s) j ltac:(by apply wake_fields)). }
  destruct (exit_children_run me ini NPROC 0 s0 Hini) as (pt & E & Hl & Hg); [unfold s0; cbn; rewrite length_fmap; lia|].
  rewrite (bind_Ret _ _ _ _ _ E).
  set (s1 := set_ptable (alter (set_state ZOMBIE) me pt) (set_ptable pt s0)).
  rewrite (bind_Ret _ _ _ tt s1) by done.
  assert (length pt = NPROC) as Hlp by (rewrite Hl; unfold s0; cbn; by rewrite length_fmap).
  assert (∀ j, getp j s1 = if decide (j = me) then set_state ZOMBIE (getp me (set_ptable pt s0)) else getp j (set_ptable pt s0)) as Hg1.
  { intros j. apply (getp_upd me j (set_state ZOMBIE) (set_ptable pt s0)). cbn. lia. }
  unfold bind at 1. rewrite (sched_run s1 me); [|done|done|unfold s1; cbn; rewrite length_alter; lia|by rewrite Hg1, decide_True].
  cbn [obind]. eexists _, _, (existsb (zkid me s0) (seq 0 NPROC)). split; [reflexivity|].
  assert (∀ j, parent (getp j s0) = parent (getp j s) ∧ (state (getp j s0) = ZOMBIE ↔ state (getp j s) = ZOMBIE)) as Hf.
  { intros j. rewrite Hg0. destruct (wake_fields ch (getp j s)) as (? & ? & _). done. }
  split; [done|]. split; [done|]. split.
  - rewrite existsb_exists. unfold zkid, is_kid. split.
    + intros (j & Hj & Hz). apply in_seq in Hj. bools. destruct (Hf j) as [Hp Hst].
      exists j. split_and!; [lia|congruence|by apply Hst].
    + intros (j & Hj & Hp & Hz). exists j. destruct (Hf j) as [Hp' Hst]. split; [apply in_seq; lia|].
      by rewrite Hp', !bool_decide_eq_true_2 by (done || by apply Hst).
  - intros j Hj. rewrite getp_upd by (unfold s1; cbn; rewrite length_alter; lia).
    set (q := getp j (set_ptable pt s0)).
    assert (parent q = (if decide (parent (getp j s) = Some me) then Some ini else parent (getp j s)) ∧
      state q = state (wake_if (existsb (zkid me s0) (seq 0 NPROC)) (Some (ChProc ini)) (wake ch (getp j s)))) as [Hp Hs].
    { unfold q. rewrite Hg, bool_decide_eq_true_2, Hg0 by lia. cbn zeta. cbn [andb]. unfold is_kid.
      destruct (Hf j) as [-> _].
      destruct (wake_if_fields (existsb (zkid me s0) (seq 0 NPROC)) (Some (ChProc ini)) (wake ch (getp j s))) as [Hp' _].
      rewrite <- Hg0 in Hp' at 2. destruct (Hf j) as [Hfp _]. rewrite Hfp in Hp'.
      case_bool_decide; case_decide; try done. }
    destruct (decide (j = me)) as [->|Hne].
    + cbn. rewrite Hg1, decide_True by done. fold q. cbn. split; [exact Hp|done].
    + rewrite Hg1, decide_False by done. fold q. done.
Qed.

(** C25: the end of exit: the process becomes a ZOMBIE and gives up the
    processor for good; its children now belong to init; a parent that sleeps
    in wait is made runnable, and so is init when it sleeps in wait and gets a
    zombie; no process that is not asleep changes state.  Resuming it would
    panic. *)
Theorem exit_leaves_zombie s me ini :
  cur s = Some me → initproc s = Some ini → held s = [] → length (ptable s) = NPROC → (me < NPROC)%nat →
  ∃ s1 k, exit_zombie me s = Swtch s1 k ∧ held s1 = [Lptable] ∧ state (getp me s1) = ZOMBIE ∧
    (∀ j, (j < NPROC)%nat → parent (getp j s1) =
       if decide (parent (getp j s) = Some me) then Some ini else parent (getp j s)) ∧
    (∀ pp, parent (getp me s) = Some pp → pp ≠ me →
       state (getp pp s) = SLEEPING → pchan (getp pp s) = Some (ChProc pp) → state (getp pp s1) = RUNNABLE) ∧
    (ini ≠ me → (∃ j, (j < NPROC)%nat ∧ parent (getp j s) = Some me ∧ state (getp j s) = ZOMBIE) →
       state (getp ini s) = SLEEPING → pchan (getp ini s) = Some (ChProc ini) → state (getp ini s1) = RUNNABLE) ∧
    (∀ j, (j < NPROC)%nat → j ≠ me → state (getp j s) ≠ SLEEPING → state (getp j s1) = state (getp j s)) ∧
    (∀ s2, k s2 = Panic "zombie exit" s2).
Proof.
  intros Hc Hini Hh Hlen Hme.
  destruct (exit_zombie_run s me ini Hc Hini Hh Hlen Hme) as (s1 & k & b & E & Hh1 & Hk & Hb & Hg).
  assert (∀ j p, state p = SLEEPING → p = getp j s → (j < NPROC)%nat) as Hlt.
  { intros j p Hs ->. destruct (decide (j < NPROC)%nat); [done|]. unfold getp in Hs.
    rewrite lookup_ge_None_2 in Hs by lia. done. }
  exists s1, k. split_and!; try done.
  - destruct (Hg me Hme) as [_ ->]. by rewrite decide_True.
  - intros j Hj. apply Hg, Hj.
  - intros pp Hpp Hne Hs Hch. destruct (Hg pp) as [_ ->]; [by apply (Hlt pp _ Hs)|].
    rewrite decide_False, Hpp by done. cbn.
    destruct b; cbn; rewrite !wake_state, ?wake_pchan; repeat case_bool_decide; naive_solver.
  - intros Hne Hex Hs Hch. apply Hb in Hex as ->. destruct (Hg ini) as [_ ->]; [by apply (Hlt ini _ Hs)|].
    rewrite decide_False by done. exact (proj1 (wake_if_runnable true _ _ _ Hs Hch) eq_refl).
  - intros j Hj Hne Hs. destruct (Hg j Hj) as [_ ->]. rewrite decide_False by done. unfold wake_if.
    destruct b; rewrite !wake_state, ?wake_pchan; repeat case_bool_decide; naive_solver.
Qed.

Lemma exit_leaves_zombie_witness :
  ∃ s1 k, exit_zombie 1 (set_cur (Some 1%nat) (ex_core 0)) = Swtch s1 k ∧ state (getp 1 s1) = ZOMBIE.
Proof.
  destruct (exit_leaves_zombie (set_cur (Some 1%nat) (ex_core 0)) 1 0) as (s1 & k & E & _ & H & _).
  - reflexivity.
  - reflexivity.
  - reflexivity.
  - reflexivity.
  - unfold NPROC. lia.
  - exists s1, k. split; [exact E|exact H].
Defined.

(** ** The scheduler *)

(** The kernel threads: what each process does when it is switched to. *)
Definition pool : Type := nat → core → outcome core unit.

(** One pass of the scheduler's loop over the table, from slot [i] on, with
    ptable.lock held: [tr] lists the processes it switches to.  A process
    runs until it switches back. *)
Inductive scan : nat → core → pool → list nat → core → pool → Prop :=
| scan_end s th : scan NPROC s th [] s th
| scan_skip i s s1 th tr s' th' :
    (i < NPROC)%nat → scheduler_pick i s = Ret false s1 →
    scan (S i) s1 th tr s' th' → scan i s th tr s' th'
| scan_run i s s1 s2 s3 th k tr s' th' :
    (i < NPROC)%nat → scheduler_pick i s = Ret true s1 → th i s1 = Swtch s2 k →
    scheduler_back s2 = Ret tt s3 → scan (S i) s3 (<[i := k]> th) tr s' th' →
    scan i s th (i :: tr) s' th'.

(** A run of process [i] makes no other runnable process anything else. *)
Definition polite (i : nat) (f : core → outcome core unit) : Prop :=
  ∀ s s' k, cur s = Some i → f s = Swtch s' k →
    ∀ j, j ≠ i → state (getp j s) = RUNNABLE → state (getp j s') = RUNNABLE.

Lemma scheduler_pick_state i s b s1 :
  scheduler_pick i s = Ret b s1 → (i < length (ptable s))%nat →
  (b = bool_decide (state (getp i s) = RUNNABLE)) ∧
  (∀ j, j ≠ i → getp j s1 = getp j s) ∧ (b = false → s1 = s) ∧ (b = true → cur s1 = Some i) ∧
  length (ptable s1) = length (ptable s).
Proof.
  unfold scheduler_pick. intros E Hlt. unfold bind at 1 in E. cbn [obind pget gets] in E.
  case_bool_decide as Hst; cbn [negb] in E; [|unfold ret in E; by simplify_eq].
  unfold bind at 1 in E. cbn [obind modify] in E.
  apply bind_Ret_inv in E as ([] & s2 & Esw & E).
  assert (ptable s2 = ptable s ∧ cur s2 = Some i) as [Hpt Hcur].
  { unfold switchuvm in Esw. rewrite (myproc_ok _ _ i) in Esw by done.
    unfold bind, pget, gets, modify, panic, ret in Esw. cbn in Esw.
    destruct (_ =? 0) in Esw; cbn in Esw; simplify_eq; done. }
  unfold bind, pupd, gets, modify, ret in E. cbn in E. simplify_eq. cbn.
  split_and!; [done| |done|done|by rewrite !length_alter, Hpt].
  intros j Hj. unfold getp. cbn. by rewrite !list_lookup_alter_ne, Hpt by done.
Qed.

Lemma scan_range i s th tr s' th' :
  scan i s th tr s' th' → (i ≤ NPROC)%nat ∧ Forall (λ j, (i ≤ j)%nat) tr ∧ NoDup tr.
Proof.
  induction 1 as [| |i s s1 s2 s3 th k tr s' th' Hi _ _ _ Hs IH].
  - split; [done|]. split; constructor.
  - destruct IHscan as (? & HF & ?). split; [lia|]. split; [|done]. eapply Forall_impl; [done|]. cbn. lia.
  - destruct IH as (? & HF & ?). split; [lia|]. split; [constructor; [done|]|constructor; [|done]].
    + eapply Forall_impl; [exact HF|]. cbn. lia.
    + rewrite Forall_forall in HF. intros Hin%HF. lia.
Qed.

(** What a process may do with the table while it runs. *)
Definition well_behaved (i : nat) (f : core → outcome core unit) : Prop :=
  polite i f ∧ ∀ s s' k, cur s = Some i → f s = Swtch s' k → length (ptable s') = length (ptable s).

Lemma scan_runs i s th tr s' th' j :
  scan i s th tr s' th' → (i ≤ j < NPROC)%nat → length (ptable s) = NPROC →
  (∀ n, (i ≤ n)%nat → well_behaved n (th n)) → state (getp j s) = RUNNABLE → j ∈ tr.
Proof.
  induction 1 as [|i s s1 th tr s' th' Hi Hp Hs IH|i s s1 s2 s3 th k tr s' th' Hi Hp Ht Hb Hs IH];
    intros Hj Hlen Hw Hst.
  - lia.
  - destruct (scheduler_pick_state i s false s1 Hp) as (Hf & Ho & Heq & _ & Hl); [lia|].
    rewrite (Heq eq_refl) in *. destruct (decide (j = i)) as [->|].
    { rewrite bool_decide_eq_true_2 in Hf by done. done. }
    apply IH; [lia|done|intros; apply Hw; lia|done].
  - destruct (decide (j = i)) as [->|Hne]; [by left|]. right.
    destruct (scheduler_pick_state i s true s1 Hp) as (Hf & Ho & _ & Hc & Hl); [lia|]. specialize (Hc eq_refl).
    destruct (Hw i) as [Hpol Hlp]; [lia|]. unfold scheduler_back, switchkvm, bind, modify in Hb. cbn in Hb.
    simplify_eq. apply IH; [lia|cbn; rewrite (Hlp _ _ _ Hc Ht); lia| |].
    + intros n Hn. rewrite fn_lookup_insert_ne by lia. apply Hw. lia.
    + change (state (getp j s2) = RUNNABLE). apply (Hpol _ _ _ Hc Ht); [done|]. by rewrite Ho.
Qed.

(** C27: the scheduler is fair within a pass: going through the table once it
    switches to every process that was runnable when the pass began, and to
    no process twice, whatever the processes do while they run, as long as
    they leave the other runnable processes runnable. *)
Theorem scheduler_runs_runnable s th tr s' th' j :
  scan 0 s th tr s' th' → length (ptable s) = NPROC → (∀ i, well_behaved i (th i)) →
  (j < NPROC)%nat → state (getp j s) = RUNNABLE → j ∈ tr ∧ NoDup tr.
Proof.
  intros Hscan Hlen Hw Hj Hst. split; [|by eapply scan_range].
  eapply scan_runs; [done|lia|done|intros; apply Hw|done].
Qed.

Lemma sched_Swtch_inv s s' k me :
  sched s = Swtch s' k → cur s = Some me → ∃ f, s' = set_ptable (alter f me (ptable s)) s.
Proof.
  intros E Hc. unfold sched in E. rewrite (myproc_ok _ _ me) in E by done.
  unfold bind, pget, gets, panic, ret in E. cbn [obind] in E.
  destruct (bool_decide (Lptable ∈ held s)); cbn [negb obind] in E; [|discriminate].
  destruct (length (held s) =? 1)%nat; cbn [negb obind] in E; [|discriminate].
  case_bool_decide; cbn [obind] in E; [discriminate|].
  destruct (intr_on s); cbn in E; [discriminate|]. injection E as <- _. by eexists.
Qed.

(** What yield does under the lock: it is well behaved. *)
Definition yielding (i : nat) : M core unit := pupd i (set_state RUNNABLE);; sched.

Lemma yielding_well_behaved i : well_behaved i (yielding i).
Proof.
  assert (∀ s s' k, cur s = Some i → yielding i s = Swtch s' k → ∃ f, ptable s' = alter f i (ptable s)) as Hy.
  { intros s s' k Hc E. unfold yielding, bind in E. cbn [obind pupd modify] in E.
    destruct (sched s) eqn:?; apply (sched_Swtch_inv _ _ _ i) in E as [f ->]; try done;
      cbn; rewrite list_alter_alter_eq; by eexists. }
  split.
  - intros s s' k Hc E j Hj. destruct (Hy s s' k Hc E) as [f Ef]. unfold getp. rewrite Ef.
    by rewrite list_lookup_alter_ne.
  - intros s s' k Hc E. destruct (Hy s s' k Hc E) as [f Ef]. by rewrite Ef, length_alter.
Qed.

Lemma yielding_run i s :
  cur s = Some i → held s = [Lptable] → (i < length (ptable s))%nat → ∃ s' k, yielding i s = Swtch s' k.
Proof.
  intros Hc Hh Hlt. unfold yielding. mstep.
  rewrite (sched_run _ i); [by eexists _, _|done|done|by cbn; rewrite length_alter|].
  by rewrite getp_upd, decide_True.
Qed.

Lemma scheduler_pick_ok i s :
  state (getp i s) = RUNNABLE → pgdir (getp i s) ≠ 0 →
  ∃ s1, scheduler_pick i s = Ret true s1 ∧ cur s1 = Some i ∧ held s1 = held s ∧
    length (ptable s1) = length (ptable s).
Proof.
  intros Hst Hpg. unfold scheduler_pick. mstep. rewrite bool_decide_eq_true_2 by done. cbn [negb]. mstep.
  unfold switchuvm, bind at 1. rewrite (myproc_ok _ _ i) by done. do 3 mstep.
  change (pgdir (getp i (set_esp0 _ _))) with (pgdir (getp i s)).
  destruct (Z.eqb_spec (pgdir (getp i s)) 0); [done|]. unfold bind. cbn.
  eexists. split; [reflexivity|]. cbn. by rewrite !length_alter.
Qed.

Lemma scan_idle n i s th :
  (i + n = NPROC)%nat → (∀ j, (i ≤ j)%nat → state (getp j s) ≠ RUNNABLE) → scan i s th [] s th.
Proof.
  revert i. induction n as [|n IH]; intros i Hin Hst.
  - replace i with NPROC by lia. constructor.
  - eapply scan_skip; [lia| |apply IH; [lia|intros; apply Hst; lia]].
    unfold scheduler_pick. mstep. by rewrite bool_decide_eq_false_2 by (apply Hst; lia).
Qed.

Definition ex_ready : proc := set_state RUNNABLE ex_zombie.
Definition ex_score : core :=
  set_held [Lptable] (set_cur None (set_ptable (replicate 63 proc0 ++ [ex_ready]) (ex_core 0))).

Lemma scheduler_runs_runnable_witness : ∃ tr s' th', scan 0 ex_score yielding tr s' th' ∧ 63%nat ∈ tr.
Proof.
  assert (∀ n i tr s' th', (i + n = 63)%nat → scan 63 ex_score yielding tr s' th' → scan i ex_score yielding tr s' th') as Hskip.
  { induction n as [|n IH]; intros i tr s' th' Hi Hs; [by replace i with 63%nat by lia|].
    eapply scan_skip; [unfold NPROC; lia| |apply IH; [lia|exact Hs]].
    unfold scheduler_pick. mstep. rewrite bool_decide_eq_false_2; [done|].
    unfold getp, ex_score. cbn -[replicate]. rewrite lookup_app_l by (rewrite length_replicate; lia).
    rewrite lookup_replicate_2 by lia. done. }
  assert (∃ tr s' th', scan 63 ex_score yielding tr s' th') as (tr & s' & th' & Hs).
  { destruct (scheduler_pick_ok 63 ex_score) as (s1 & E1 & Hc & Hh & Hl); [done|done|].
    destruct (yielding_run 63 s1 Hc) as (s2 & k & E2); [by rewrite Hh|rewrite Hl; cbn; lia|].
    eexists _, _, _. eapply scan_run; [unfold NPROC; lia|exact E1|exact E2|reflexivity|apply scan_end]. }
  exists tr, s', th'. pose proof (Hskip 63%nat 0%nat tr s' th' ltac:(lia) Hs) as H0. split; [exact H0|].
  apply (scheduler_runs_runnable ex_score yielding tr s' th' 63 H0).
  - reflexivity.
  - apply yielding_well_behaved.
  - unfold NPROC. lia.
  - reflexivity.
Defined.

(** ** The process listing *)

(** The slots before the first unused one. *)
Fixpoint used_prefix (l : list proc) : list proc :=
  match l with
  | [] => []
  | p :: l => if unused p then [] else p :: used_prefix l
  end.

Lemma getproc_loop_eq nu s l i max :
  getproc_loop nu s l i max = to_uproc nu s <$> take (Z.to_nat (max - i)) (used_prefix l).
Proof.
  revert i. induction l as [|p l IH]; intros i; cbn [getproc_loop used_prefix]; [by rewrite take_nil|].
  destruct (unused p) eqn:Eu; cbn [negb andb]; [by rewrite take_nil|].
  destruct (Z.ltb_spec i max) as [Hlt|Hge].
  - replace (Z.to_nat (max - i)) with (S (Z.to_nat (max - (i + 1)))) by lia. cbn. by rewrite IH.
  - by replace (Z.to_nat (max - i)) with 0%nat by lia.
Qed.

(** C28: what getproc reports: at most [max] entries, one for each slot before
    the first unused one, in order, with the count of them; and the entry's
    parent id is the user id of the parent (of the process itself when that
    is 0), where a parent's process id would be expected. *)
Theorem getproc_reports nu max s :
  Lptable ∉ held s →
  ∃ t, getproc nu max s = Ret (Z.of_nat (length t), t) s ∧
    t = to_uproc nu s <$> take (Z.to_nat max) (used_prefix (ptable s)) ∧
    ∀ u, u ∈ t → ∃ i p, ptable s !! i = Some p ∧ up_pid u = pid p ∧
      ∀ j, parent p = Some j → uid (getp j s) ≠ 0 → up_ppid u = uid (getp j s).
Proof.
  intros Hh. exists (to_uproc nu s <$> take (Z.to_nat max) (used_prefix (ptable s))). split_and!.
  - unfold getproc. rewrite (bind_Ret _ _ _ _ _ (pacquire_ok _ _ Hh)). mstep. mrelease (held s).
    unfold ret. rewrite (set_held_back s (held s)) by done.
    rewrite getproc_loop_eq, Z.sub_0_r. reflexivity.
  - done.
  - intros u Hu. apply list_elem_of_fmap in Hu as (p & -> & Hp). apply elem_of_take in Hp as (n & Hp & _).
    assert (∀ l n q, used_prefix l !! n = Some q → l !! n = Some q) as Hpre.
    { induction l as [|x l IH]; intros k q; [done|]. cbn. destruct (unused x); [done|].
      destruct k as [|k]; cbn; [done|]. apply IH. }
    exists n, p. split; [by apply Hpre|]. split; [done|]. intros j Hj Hu. unfold to_uproc, parent_uid. cbn [up_ppid]. rewrite Hj.
    by destruct (Z.eqb_spec (uid (getp j s)) 0); [congruence|].
Qed.

Lemma getproc_reports_witness :
  ∃ t, getproc 0 16 (ex_core 0) = Ret (2, t) (ex_core 0) ∧ up_ppid <$> t = [69; 69].
Proof.
  destruct (getproc_reports 0 16 (ex_core 0)) as (t & E & Ht & _).
  - apply not_elem_of_nil.
  - exists t. subst t. split; [exact E|]. reflexivity.
Defined.

(** Getproc stops at the first unused slot, so a process in a later slot
    is never reported, however large the table it may fill. *)
Theorem getproc_misses_later_processes nu max s i :
  Lptable ∉ held s → ptable s !! i ≠ None → state (getp i s) = UNUSED →
  ∃ n t, getproc nu max s = Ret (n, t) s ∧ n ≤ Z.of_nat i.
Proof.
  intros Hh Hi Hu. assert (∀ l k p, l !! k = Some p → unused p = true → (length (used_prefix l) ≤ k)%nat) as Hlen.
  { induction l as [|x l IH]; intros [|k] p; cbn; intros Hp Hup; try done.
    - simplify_eq. by rewrite Hup.
    - destruct (unused x); cbn; [lia|]. specialize (IH k p Hp Hup). lia. }
  exists (Z.of_nat (length (to_uproc nu s <$> take (Z.to_nat (max - 0)) (used_prefix (ptable s))))). eexists. split.
  - unfold getproc. rewrite (bind_Ret _ _ _ _ _ (pacquire_ok _ _ Hh)). mstep. mrelease (held s).
    unfold ret. rewrite (set_held_back s (held s)) by done. rewrite getproc_loop_eq. reflexivity.
  - unfold getp in Hu. destruct (ptable s !! i) as [p|] eqn:Hp; [|done].
    specialize (Hlen (ptable s) i p Hp ltac:(by apply bool_decide_eq_true_2)).
    rewrite length_fmap, length_take. lia.
Qed.

Lemma getproc_misses_later_processes_witness :
  ∃ n t, getproc 0 64 (set_ptable (ex_init :: proc0 :: ex_child :: replicate 61 proc0) (ex_core 0))
           = Ret (n, t) (set_ptable (ex_init :: proc0 :: ex_child :: replicate 61 proc0) (ex_core 0)) ∧ n ≤ 1.
Proof.
  apply (getproc_misses_later_processes 0 64 _ 1).
  - apply not_elem_of_nil.
  - discriminate.
  - reflexivity.
Defined.
