(* ===== verification/Wakeup.v ===== *)
(** * Sleep and wakeup on several processors: no lost wakeup

    The argument in the comment of proc.c's sleep, for processes that run on
    several processors.  [sleep_code] and [wakeup_code] are the statements of
    sleep and wakeup; [sleep_code_ok] and [wakeup_code_ok] show that, run one after
    the other, they are sleep and wakeup of [Proc].  [wstep] interleaves the
    statements of any number of processes: a lock is acquired when it is free (as
    [Spinlock] shows), sched hands the processor and ptable.lock to the scheduler,
    and the scheduler runs a process that is RUNNABLE.

    A sleeper runs [acquire(lk); while(!cond) sleep(chan, lk); release(lk)] and may
    make the condition false again before it releases; a waker runs
    [acquire(lk); cond = 1; wakeup(chan); release(lk)].  The lock is a lock of the
    caller's (pipes, the log, buffers, the console, the disk) or ptable.lock itself,
    as in wait and exit, where the waker calls wakeup1.  With no lock at all, which
    is how sys_sleep waits for the clock, wakeups can be lost
    ([null_lock_loses_wakeup]). *)
From S2P Require Import Prelude Kernel CString Spinlock Kalloc Vm Proc ProcSpec.

Local Open Scope Z_scope.
Local Open Scope kernel_scope.

(** ** The statements of sleep and wakeup *)

Inductive stmt :=
| Acquire (lk : lockid)
| Release (lk : lockid)
| Mark (ch : chan)          (* proc->chan = chan; proc->state = SLEEPING *)
| Sched                     (* sched() *)
| Tidy                      (* proc->chan = 0 *)
| Wakeup1 (ch : chan).

#[export] Instance stmt_eq_dec : EqDecision stmt.
Proof. solve_decision. Defined.

Definition sleep_code (ch : chan) (lk : option lockid) : list stmt :=
  (if bool_decide (lk ≠ Some Lptable) then
     Acquire Lptable :: match lk with Some lk => [Release lk] | None => [] end
   else []) ++
  [Mark ch; Sched; Tidy] ++
  (if bool_decide (lk ≠ Some Lptable) then
     Release Lptable :: match lk with Some lk => [Acquire lk] | None => [] end
   else []).

Definition wakeup_code (ch : chan) : list stmt := [Acquire Lptable; Wakeup1 ch; Release Lptable].

(** On one processor. *)
Definition run (c : stmt) : M core unit :=
  match c with
  | Acquire lk => pacquire lk
  | Release lk => prelease lk
  | Mark ch => myproc (λ me, pupd me (λ p, set_state SLEEPING (set_pchan (Some ch) p)))
  | Sched => sched
  | Tidy => myproc (λ me, pupd me (set_pchan None))
  | Wakeup1 ch => wakeup1 (Some ch)
  end.

Fixpoint run_code (l : list stmt) : M core unit :=
  match l with
  | [] => ret tt
  | c :: l => run c;; run_code l
  end.

(** ** Processes on several processors *)

(** A statement of the kernel's, or of its client: an assignment to the
    condition, or [while(!cond) sleep(chan, lk)]. *)
Inductive instr :=
| Do (c : stmt)
| Set_ (b : bool)
| While (ch : chan) (lk : option lockid).

#[export] Instance instr_eq_dec : EqDecision instr.
Proof. solve_decision. Defined.

Inductive owner := Process (n : nat) | Scheduler.

(** What each process has still to execute, whether it is switched out, who holds
    each lock, the process table, and the condition. *)
Record wst := mk_wst {
  w_code : nat → list instr; w_out : nat → bool; w_lks : lockid → option owner;
  w_tab : list proc; w_cond : bool
}.

Inductive wstep : wst → wst → Prop :=
| st_acquire t lk r code out lks tab c :
    code t = Do (Acquire lk) :: r → out t = false → lks lk = None →
    wstep (mk_wst code out lks tab c) (mk_wst (<[t := r]> code) out (<[lk := Some (Process t)]> lks) tab c)
| st_release t lk r code out lks tab c :
    code t = Do (Release lk) :: r → out t = false → lks lk = Some (Process t) →
    wstep (mk_wst code out lks tab c) (mk_wst (<[t := r]> code) out (<[lk := None]> lks) tab c)
| st_mark t ch r code out lks tab c :
    code t = Do (Mark ch) :: r → out t = false →
    wstep (mk_wst code out lks tab c)
      (mk_wst (<[t := r]> code) out lks (alter (λ p, set_state SLEEPING (set_pchan (Some ch) p)) t tab) c)
| st_sched t r code out lks tab c :    (* to the scheduler, which holds ptable.lock now *)
    code t = Do Sched :: r → out t = false → lks Lptable = Some (Process t) →
    wstep (mk_wst code out lks tab c) (mk_wst (<[t := r]> code) (<[t := true]> out) (<[Lptable := Some Scheduler]> lks) tab c)
| st_tidy t r code out lks tab c :
    code t = Do Tidy :: r → out t = false →
    wstep (mk_wst code out lks tab c) (mk_wst (<[t := r]> code) out lks (alter (set_pchan None) t tab) c)
| st_wakeup1 t ch r code out lks tab c :
    code t = Do (Wakeup1 ch) :: r → out t = false →
    wstep (mk_wst code out lks tab c) (mk_wst (<[t := r]> code) out lks (wake (Some ch) <$> tab) c)
| st_set t b r code out lks tab c :
    code t = Set_ b :: r → out t = false →
    wstep (mk_wst code out lks tab c) (mk_wst (<[t := r]> code) out lks tab b)
| st_while_true t ch lk r code out lks tab :
    code t = While ch lk :: r → out t = false →
    wstep (mk_wst code out lks tab true) (mk_wst (<[t := r]> code) out lks tab true)
| st_while_false t ch lk r code out lks tab :
    code t = While ch lk :: r → out t = false →
    wstep (mk_wst code out lks tab false)
      (mk_wst (<[t := (Do <$> sleep_code ch lk) ++ While ch lk :: r]> code) out lks tab false)
| st_sch_lock code out lks tab c :     (* scheduler: acquire(&ptable.lock) *)
    lks Lptable = None →
    wstep (mk_wst code out lks tab c) (mk_wst code out (<[Lptable := Some Scheduler]> lks) tab c)
| st_sch_unlock code out lks tab c :   (* scheduler: release(&ptable.lock) *)
    lks Lptable = Some Scheduler →
    wstep (mk_wst code out lks tab c) (mk_wst code out (<[Lptable := None]> lks) tab c)
| st_run t p code out lks tab c :      (* scheduler: p->state = RUNNING; swtch *)
    lks Lptable = Some Scheduler → out t = true → tab !! t = Some p → state p = RUNNABLE →
    wstep (mk_wst code out lks tab c)
      (mk_wst code (<[t := false]> out) (<[Lptable := Some (Process t)]> lks) (alter (set_state RUNNING) t tab) c).

(** [t] sleeps on the channel. *)
Definition asleep (ch : chan) (t : nat) (tab : list proc) : Prop :=
  ∃ p, tab !! t = Some p ∧ state p = SLEEPING ∧ pchan p = Some ch.

(** The clients. *)
Definition sleeper (ch : chan) (lk : lockid) (takes : bool) : list instr :=
  [Do (Acquire lk); While ch (Some lk)] ++ (if takes then [Set_ false] else []) ++ [Do (Release lk)].
Definition waker (ch : chan) (lk : lockid) : list instr :=
  [Do (Acquire lk); Set_ true] ++
  (Do <$> (if bool_decide (lk = Lptable) then [Wakeup1 ch] else wakeup_code ch)) ++ [Do (Release lk)].

(** Nobody has started, no lock is taken, nobody sleeps on the channel. *)
Definition starts (ch : chan) (prog : nat → list instr) (s : wst) : Prop :=
  w_code s = prog ∧ (∀ t, w_out s t = false) ∧ (∀ lk, w_lks s lk = None) ∧ (∀ t, ¬ asleep ch t (w_tab s)) ∧ w_cond s = false.

(** [n] has set the condition and will look through the table. *)
Definition waking (ch : chan) (s : wst) (n : nat) : Prop :=
  Set_ true ∉ w_code s n ∧ Do (Wakeup1 ch) ∈ w_code s n.

(** ** The statements are those of sleep and wakeup *)

Lemma run_code_app l1 l2 s : run_code (l1 ++ l2) s ≡ (run_code l1;; run_code l2) s.
Proof.
  revert s. induction l1 as [|c l1 IH]; intros s; cbn [app run_code]; [done|]. unfold bind. rewrite obind_assoc.
  apply obind_proper; [done|]. intros [] t. apply IH.
Qed.

Lemma sleep_code_ok ch lk s : cur s ≠ None → sleep ch lk s ≡ run_code (sleep_code ch lk) s.
Proof.
  intros Hc. unfold sleep, sleep_code. rewrite (bind_Ret _ _ _ _ _ (eq_refl : gets cur s = Ret (cur s) s)), bool_decide_eq_false_2 by done.
  change ((ret ();; ?k)%K s) with (k s). rewrite run_code_app. unfold bind at 1 5. apply obind_proper.
  - case_bool_decide; [|done]. destruct lk as [lk|]; cbn [run_code run]; unfold bind; [|done]. apply obind_proper; [done|]. intros [] t. apply bind_skip.
  - intros [] t. cbn [app run_code run]. unfold bind. do 3 (apply obind_proper; [done|]; intros [] ?).
    case_bool_decide; [|done]. destruct lk as [lk|]; cbn [run_code run]; unfold bind; [|done]. apply obind_proper; [done|]. intros [] ?. apply bind_skip.
Qed.

Lemma wakeup_code_ok ch s : wakeup ch s ≡ run_code (wakeup_code ch) s.
Proof.
  unfold wakeup, wakeup_code. cbn [run_code run]. unfold bind. do 2 (apply obind_proper; [done|]; intros [] ?). apply bind_skip.
Qed.

(** The core as process [t] sees it while it runs. *)
Definition view (t : nat) (m : wst) (s : core) : Prop :=
  cur s = Some t ∧ w_tab m = ptable s ∧ NoDup (held s) ∧ ∀ lk, lk ∈ held s ↔ w_lks m lk = Some (Process t).

(** A statement that process [t] executes, other than sched, does to what it sees
    what [run] does. *)
Lemma step_runs m m' t c s :
  wstep m m' → w_code m t = Do c :: w_code m' t → c ≠ Sched → view t m s → ∃ s', run c s = Ret tt s' ∧ view t m' s'.
Proof.
  intros Hs Hc Hn (V1 & V2 & V3 & V4). assert (∀ (x : instr) l, l = x :: l → False) as Hl.
  { intros x l E. apply (f_equal length) in E. cbn in E. lia. }
  assert (∀ (code : nat → list instr) n r, code t = Do c :: (<[n := r]> code) t → t = n) as Ht.
  { intros code n r E. destruct (decide (t = n)) as [|Hne]; [done|]. rewrite fn_lookup_insert_ne in E by done. by apply Hl in E. }
  destruct Hs; cbn in Hc; try (by apply Hl in Hc); pose proof (Ht _ _ _ Hc) as ->; rewrite fn_lookup_insert in Hc; cbn in V2, V4;
    match goal with H : ?code ?n = _, E : ?code ?n = _ |- _ => rewrite H in E; simplify_eq end.
  - exists (set_held (lk :: held s) s). split; [|split_and!; cbn; try done].
    + apply pacquire_ok. rewrite V4. congruence.
    + apply NoDup_cons. split; [rewrite V4; congruence|done].
    + intros L. rewrite elem_of_cons. destruct (decide (L = lk)) as [->|]; [rewrite fn_lookup_insert|rewrite fn_lookup_insert_ne, <- V4 by done]; naive_solver.
  - exists (set_held (remove1 lk (held s)) s). split; [|split_and!; cbn; try done].
    + unfold run, prelease, kk, krelease, zoom, set_held, release. cbn. fold (held s). rewrite decide_True by (by rewrite V4). done.
    + by apply remove1_NoDup.
    + intros L. rewrite remove1_elem, V4 by done. destruct (decide (L = lk)) as [->|]; [rewrite fn_lookup_insert|rewrite fn_lookup_insert_ne by done]; naive_solver.
  - eexists. split; [cbn [run]; by rewrite (myproc_ok _ _ _ V1)|]. done.
  - eexists. split; [cbn [run]; by rewrite (myproc_ok _ _ _ V1)|]. done.
  - eexists. split; [done|]. done.
Qed.

(** ** No wakeup is lost *)

Section wakeup.
  Context (ch : chan) (lk : lockid) (takes : nat → bool).

(** Where a process is; a sleeper that has woken up and a sleeper that starts
    both acquire the lock and test. *)
Inductive place :=
| SLock | STest | SPtable | SUnlock | SMark | SSched | STidy | SPrelease | SSet
| WLock | WSet | WPtable | WScan | WPrelease
| Unlock | End.

Definition own : bool := bool_decide (lk ≠ Lptable).
Definition fin (t : nat) : list instr := (if takes t then [Set_ false] else []) ++ [Do (Release lk)].
Definition again (t : nat) : list instr := While ch (Some lk) :: fin t.
Definition back (t : nat) : list instr := (if own then [Do (Release Lptable); Do (Acquire lk)] else []) ++ again t.

Definition code_at (t : nat) (p : place) : list instr :=
  match p with
  | SLock => Do (Acquire lk) :: again t
  | STest => again t
  | SPtable => Do (Acquire Lptable) :: Do (Release lk) :: Do (Mark ch) :: Do Sched :: Do Tidy :: back t
  | SUnlock => Do (Release lk) :: Do (Mark ch) :: Do Sched :: Do Tidy :: back t
  | SMark => Do (Mark ch) :: Do Sched :: Do Tidy :: back t
  | SSched => Do Sched :: Do Tidy :: back t
  | STidy => Do Tidy :: back t
  | SPrelease => Do (Release Lptable) :: Do (Acquire lk) :: again t
  | SSet => [Set_ false; Do (Release lk)]
  | WLock => waker ch lk
  | WSet => Set_ true :: (if own then [Do (Acquire Lptable)] else []) ++ Do (Wakeup1 ch) :: (if own then [Do (Release Lptable)] else []) ++ [Do (Release lk)]
  | WPtable => Do (Acquire Lptable) :: Do (Wakeup1 ch) :: Do (Release Lptable) :: [Do (Release lk)]
  | WScan => Do (Wakeup1 ch) :: (if own then [Do (Release Lptable)] else []) ++ [Do (Release lk)]
  | WPrelease => [Do (Release Lptable); Do (Release lk)]
  | Unlock => [Do (Release lk)]
  | End => []
  end.

(** The places only a lock of the caller's leads to. *)
Definition own_place (p : place) : bool :=
  match p with SPtable | SUnlock | SPrelease | WPtable | WPrelease => true | _ => false end.

(** Which locks a process holds at each place. *)
Definition has_lk (p : place) : bool :=
  match p with STest | SPtable | SUnlock | SSet | WSet | WPtable | WScan | WPrelease | Unlock => true | _ => false end.
Definition has_pt (p : place) : bool :=
  match p with SUnlock | SMark | SSched | STidy | SPrelease | WScan | WPrelease => true | _ => false end.

(** The places one after the other. *)
Inductive follows (t : nat) : place → instr → place → Prop :=
| f_slock : follows t SLock (Do (Acquire lk)) STest
| f_test : follows t STest (While ch (Some lk)) (if takes t then SSet else Unlock)
| f_ptable : own = true → follows t SPtable (Do (Acquire Lptable)) SUnlock
| f_unlock : own = true → follows t SUnlock (Do (Release lk)) SMark
| f_mark : follows t SMark (Do (Mark ch)) SSched
| f_sched : follows t SSched (Do Sched) STidy
| f_tidy : follows t STidy (Do Tidy) (if own then SPrelease else STest)
| f_prelease : own = true → follows t SPrelease (Do (Release Lptable)) SLock
| f_sset : follows t SSet (Set_ false) Unlock
| f_wlock : follows t WLock (Do (Acquire lk)) WSet
| f_wset : follows t WSet (Set_ true) (if own then WPtable else WScan)
| f_wptable : own = true → follows t WPtable (Do (Acquire Lptable)) WScan
| f_wscan : follows t WScan (Do (Wakeup1 ch)) (if own then WPrelease else Unlock)
| f_wprelease : own = true → follows t WPrelease (Do (Release Lptable)) Unlock
| f_release : follows t Unlock (Do (Release lk)) End.

Lemma code_follows t p x r :
  (own_place p = true → own = true) → code_at t p = x :: r → ∃ p', follows t p x p' ∧ r = code_at t p' ∧ (own_place p' = true → own = true).
Proof.
  intros Ho. destruct p; cbn [code_at own_place] in *; try specialize (Ho eq_refl); unfold waker; intros [= <- <-];
    try (eexists; split; [by constructor|]; split; [|done]; first [done|by cbn [code_at]; rewrite Ho]).
  - eexists. split; [apply f_test|]. unfold fin. destruct (takes t); done.
  - eexists. split; [apply f_tidy|]. unfold back. destruct own eqn:E; cbn [code_at]; rewrite ?E; done.
  - eexists. split; [apply f_wlock|]. split; [|done]. cbn [code_at]. unfold own, wakeup_code. do 2 case_bool_decide; done || congruence.
  - eexists. split; [apply f_wset|]. destruct own eqn:E; cbn [code_at]; rewrite ?E; done.
  - eexists. split; [apply f_wscan|]. destruct own eqn:E; cbn [code_at]; rewrite ?E; done.
Qed.

Lemma code_sleeps t : (Do <$> sleep_code ch (Some lk)) ++ again t = code_at t (if own then SPtable else SMark).
Proof. unfold sleep_code, own, code_at, back, own. repeat case_bool_decide; try done; congruence. Qed.

Definition pending (at_ : nat → place) : Prop := ∃ n, at_ n = WPtable ∨ at_ n = WScan.

(** The code each process has left is that of its place; the locks are with the
    processes whose places have them. *)
Record linv (at_ : nat → place) (s : wst) : Prop := {
  li_code t : w_code s t = code_at t (at_ t);
  li_own t : own_place (at_ t) = true → own = true;
  li_out t : w_out s t = true → at_ t = STidy;
  li_lk t : has_lk (at_ t) = true → w_lks s lk = Some (Process t);
  li_pt t : has_pt (at_ t) = true → w_out s t = false → w_lks s Lptable = Some (Process t)
}.

(** The condition is false between the test and the release of the lock; only a
    process that has called sched sleeps; who sleeps, or is about to, while the
    condition holds is going to be woken. *)
Record cinv (at_ : nat → place) (s : wst) : Prop := {
  ci_tested t : at_ t = SPtable ∨ at_ t = SUnlock ∨ (at_ t = SMark ∧ own = false) → w_cond s = false;
  ci_asleep t : asleep ch t (w_tab s) → at_ t = SSched ∨ (at_ t = STidy ∧ w_out s t = true);
  ci_pending t : at_ t = SMark ∨ asleep ch t (w_tab s) → w_cond s = true → pending at_
}.

Ltac upd n m :=
  destruct (decide (m = n)) as [->|]; [rewrite !fn_lookup_insert in *|rewrite !fn_lookup_insert_ne in * by done].

Lemma own_spec : if own then lk ≠ Lptable else lk = Lptable.
Proof. unfold own. destruct (decide (lk = Lptable)); case_bool_decide; done. Qed.

Lemma pending_upd at_ n p : pending at_ → at_ n ≠ WPtable → at_ n ≠ WScan → pending (<[n := p]> at_).
Proof.
  intros (m & Hm) H1 H2. exists m. rewrite fn_lookup_insert_ne; [done|]. intros ->. naive_solver.
Qed.

(** Process [t] goes on to the place [p]. *)
Lemma linv_move at_ s t x r :
  linv at_ s → w_code s t = x :: r → ∃ p, follows t (at_ t) x p ∧ r = code_at t p ∧ (own_place p = true → own = true).
Proof. intros H Hc. rewrite (li_code _ _ H) in Hc. apply code_follows in Hc; [done|]. apply (li_own _ _ H). Qed.

(** A lock that no other process has changes hands. *)
Lemma other_lock (lks : lockid → option owner) L v L' t m :
  lks L' = Some (Process m) → m ≠ t → lks L = None ∨ lks L = Some (Process t) ∨ lks L = Some Scheduler →
  (<[L := v]> lks : lockid → option owner) L' = Some (Process m).
Proof. intros H Hm HL. destruct (decide (L' = L)) as [->|]; [naive_solver|]. by rewrite fn_lookup_insert_ne. Qed.

Lemma linv_on at_ code out lks tab c t p lks' out' tab' c' :
  linv at_ (mk_wst code out lks tab c) →
  (lks' = lks ∨ ∃ L v, lks' = <[L := v]> lks ∧ (lks L = None ∨ lks L = Some (Process t) ∨ lks L = Some Scheduler)) →
  (∀ m, m ≠ t → out' m = out m) → (out' t = true → p = STidy) → (own_place p = true → own = true) →
  (has_lk p = true → lks' lk = Some (Process t)) → (has_pt p = true → out' t = false → lks' Lptable = Some (Process t)) →
  linv (<[t := p]> at_) (mk_wst (<[t := code_at t p]> code) out' lks' tab' c').
Proof.
  intros [I1 I2 I3 I4 I5] Hl Ho Ht Hp H1 H2. cbn in *.
  assert (∀ L m, m ≠ t → lks L = Some (Process m) → lks' L = Some (Process m)) as Hk.
  { intros L m Hm HL. destruct Hl as [->|(L' & v & -> & HL')]; [done|]. by eapply other_lock. }
  constructor; cbn; intros m; upd t m; rewrite ?Ho by done; eauto.
Qed.

(** A statement that changes neither a lock nor who runs. *)
Lemma linv_same at_ code out lks tab c t p tab' c' :
  linv at_ (mk_wst code out lks tab c) → out t = false → (own_place p = true → own = true) →
  (has_lk p = true → has_lk (at_ t) = true ∨ (own = false ∧ has_pt (at_ t) = true)) →
  (has_pt p = true → has_pt (at_ t) = true ∨ (own = false ∧ has_lk (at_ t) = true)) →
  linv (<[t := p]> at_) (mk_wst (<[t := code_at t p]> code) out lks tab' c').
Proof.
  intros Hi Ho Hp H1 H2. pose proof (li_lk _ _ Hi t) as J1. pose proof (li_pt _ _ Hi t) as J2. cbn in J1, J2. pose proof own_spec as Hs.
  eapply linv_on; [exact Hi|by left|done|congruence|done|..].
  - intros H. destruct (H1 H) as [|[E ]]; [by apply J1|]. rewrite E in Hs. rewrite Hs. by apply J2.
  - intros H _. destruct (H2 H) as [|[E ]]; [by apply J2|]. rewrite E in Hs. rewrite <- Hs. by apply J1.
Qed.

Definition tested (p : place) : bool := match p with SPtable | SUnlock | SMark => true | _ => false end.
Definition wakes (p : place) : bool := match p with WPtable | WScan => true | _ => false end.

(** A process goes on and nobody's sleep changes. *)
Lemma cinv_on at_ code out lks tab c t p code' out' lks' :
  cinv at_ (mk_wst code out lks tab c) → (∀ m, m ≠ t → out' m = out m) →
  (tested p = true → c = false) → (at_ t = SSched → p = STidy ∧ out' t = true) → (at_ t = STidy → out t = false) →
  (wakes (at_ t) = true → wakes p = true) →
  cinv (<[t := p]> at_) (mk_wst code' out' lks' tab c).
Proof.
  intros [C1 C2 C3] Ho H1 H2 H3 H4. cbn in *. constructor; cbn; intros m.
  - upd t m; [|by apply C1]. intros [->|[->|[-> _]]]; by apply H1.
  - upd t m; [|rewrite Ho by done; apply C2]. intros Ha. right. apply H2. destruct (C2 _ Ha) as [|[E1 E2]]; [done|]. rewrite H3 in E2 by done. done.
  - intros Hm Hc. assert (pending at_) as (n & Hn).
    { upd t m; [destruct Hm as [->|Hm]; [rewrite H1 in Hc by done; done|]|]; [apply (C3 t)|apply (C3 m)]; auto. }
    exists n. upd t n; [|done]. assert (wakes p = true) as Hw by (apply H4; by destruct Hn as [->| ->]). destruct p; cbn in Hw; try done; auto.
Qed.

Lemma asleep_alter_ne f t m tab : m ≠ t → asleep ch m (alter f t tab) ↔ asleep ch m tab.
Proof. intros Hm. unfold asleep. by rewrite list_lookup_alter_ne. Qed.

Lemma asleep_alter_no f t tab : (∀ p, state (f p) ≠ SLEEPING ∨ pchan (f p) ≠ Some ch) → ¬ asleep ch t (alter f t tab).
Proof.
  intros Hf (p & Hp & H1 & H2). rewrite list_lookup_alter_eq in Hp. destruct (tab !! t) as [q|]; [|done]. cbn in Hp. injection Hp as <-.
  destruct (Hf q); done.
Qed.

Lemma asleep_wake t tab : ¬ asleep ch t (wake (Some ch) <$> tab).
Proof.
  intros (p & Hp & H1 & H2). rewrite list_lookup_fmap in Hp. destruct (tab !! t) as [q|]; [|done]. cbn in Hp. injection Hp as <-.
  unfold wake in *. do 2 case_bool_decide; cbn in *; done.
Qed.

Definition winv (at_ : nat → place) (s : wst) : Prop := linv at_ s ∧ cinv at_ s.

(** At most one process has a lock. *)
Lemma linv_lk_one at_ s t m : linv at_ s → has_lk (at_ t) = true → has_lk (at_ m) = true → m = t.
Proof. intros H H1 H2. apply (li_lk _ _ H) in H1, H2. congruence. Qed.
Lemma linv_pt_one at_ s t m :
  linv at_ s → has_pt (at_ t) = true → w_out s t = false → has_pt (at_ m) = true → w_out s m = false → m = t.
Proof. intros H H1 H1' H2 H2'. apply (li_pt _ _ H) in H1, H2; [congruence|done..]. Qed.

Lemma winv_acquire at_ code out lks tab c t L r :
  winv at_ (mk_wst code out lks tab c) → code t = Do (Acquire L) :: r → out t = false → lks L = None →
  ∃ at', winv at' (mk_wst (<[t := r]> code) out (<[L := Some (Process t)]> lks) tab c).
Proof.
  intros [Hi Hc] E Ho HL. destruct (linv_move _ _ t _ r Hi E) as (p & Hf & -> & Hp). exists (<[t := p]> at_).
  pose proof own_spec as Hs. pose proof (li_lk _ _ Hi t) as J1. cbn in J1. pose proof (ci_tested _ _ Hc t) as T1. cbn in T1. split.
  - eapply linv_on; [exact Hi|right; eauto|done|congruence|done|..]; inversion Hf as [Ha| |Hw Ha| | | | | | |Ha| |Hw Ha| | |]; subst; cbn; intros;
      rewrite ?Hw in Hs; rewrite <- ?Ha in J1; try done; first [by rewrite fn_lookup_insert|rewrite fn_lookup_insert_ne by done; by apply J1].
  - eapply cinv_on; [exact Hc|done|..]; inversion Hf as [Ha| |Hw Ha| | | | | | |Ha| |Hw Ha| | |]; subst; cbn; intros; try done; try congruence.
    all: apply T1; auto.
Qed.

Lemma winv_release at_ code out lks tab c t L r :
  winv at_ (mk_wst code out lks tab c) → code t = Do (Release L) :: r → out t = false → lks L = Some (Process t) →
  ∃ at', winv at' (mk_wst (<[t := r]> code) out (<[L := None]> lks) tab c).
Proof.
  intros [Hi Hc] E Ho HL. destruct (linv_move _ _ t _ r Hi E) as (p & Hf & -> & Hp). exists (<[t := p]> at_).
  pose proof own_spec as Hs. pose proof (li_lk _ _ Hi t) as J1. pose proof (li_pt _ _ Hi t) as J2. cbn in J1, J2. pose proof (ci_tested _ _ Hc t) as T1. cbn in T1. split.
  - eapply linv_on; [exact Hi|right; exists L, None; auto|done|congruence|done|..]; inversion Hf as [| | |Hw Ha| | | |Hw Ha| | | | | |Hw Ha|Ha]; subst; cbn; intros;
      rewrite ?Hw in Hs; rewrite <- ?Ha in J1, J2; try done; rewrite fn_lookup_insert_ne by done; auto.
  - eapply cinv_on; [exact Hc|done|..]; inversion Hf as [| | |Hw Ha| | | |Hw Ha| | | | | |Hw Ha|Ha]; subst; cbn; intros; try done; try congruence.
    all: apply T1; auto.
Qed.

Lemma winv_mark at_ code out lks tab c t ch' r :
  winv at_ (mk_wst code out lks tab c) → code t = Do (Mark ch') :: r → out t = false →
  ∃ at', winv at' (mk_wst (<[t := r]> code) out lks (alter (λ p, set_state SLEEPING (set_pchan (Some ch') p)) t tab) c).
Proof.
  intros [Hi Hc] E Ho. destruct (linv_move _ _ t _ r Hi E) as (p & Hf & -> & Hp). exists (<[t := p]> at_).
  inversion Hf as [| | | |Ha| | | | | | | | | |]; subst. split; [eapply linv_same; [exact Hi|done|done|rewrite <- Ha; cbn; auto..]|].
  destruct Hc as [C1 C2 C3]. cbn in *. constructor; cbn; intros m; upd t m; rewrite ?asleep_alter_ne by done; try done; try apply C1; try apply C2.
  - naive_solver.
  - by left.
  - intros _ Hcc. apply pending_upd; [by apply (C3 t); auto|congruence..].
  - intros Hm Hcc. apply pending_upd; [by apply (C3 m)|congruence..].
Qed.

Lemma winv_tidy at_ code out lks tab c t r :
  winv at_ (mk_wst code out lks tab c) → code t = Do Tidy :: r → out t = false →
  ∃ at', winv at' (mk_wst (<[t := r]> code) out lks (alter (set_pchan None) t tab) c).
Proof.
  intros [Hi Hc] E Ho. destruct (linv_move _ _ t _ r Hi E) as (p & Hf & -> & Hp). exists (<[t := p]> at_).
  inversion Hf as [| | | | | |Ha| | | | | | | |]; subst. split; [eapply linv_same; [exact Hi|done|done|rewrite <- Ha; destruct own; cbn; auto..]|].
  assert (¬ asleep ch t (alter (set_pchan None) t tab)) as Hn by (apply asleep_alter_no; intros q; by right).
  destruct Hc as [C1 C2 C3]. cbn in *. constructor; cbn; intros m; upd t m; rewrite ?asleep_alter_ne by done; try done; try apply C1; try apply C2.
  - destruct own; naive_solver.
  - destruct own; naive_solver.
  - intros Hm Hcc. apply pending_upd; [by apply (C3 m)|congruence..].
Qed.

Lemma winv_wakeup1 at_ code out lks tab c t ch' r :
  winv at_ (mk_wst code out lks tab c) → code t = Do (Wakeup1 ch') :: r → out t = false →
  ∃ at', winv at' (mk_wst (<[t := r]> code) out lks (wake (Some ch') <$> tab) c).
Proof.
  intros [Hi Hc] E Ho. destruct (linv_move _ _ t _ r Hi E) as (p & Hf & -> & Hp). exists (<[t := p]> at_).
  inversion Hf as [| | | | | | | | | | | |Ha| |]; subst. split; [eapply linv_same; [exact Hi|done|done|rewrite <- Ha; destruct own; cbn; auto..]|].
  assert (∀ m, at_ m ≠ SMark) as Hn.
  { intros m Hm. assert (w_out (mk_wst code out lks tab c) m = false) as Hom.
    { destruct (w_out _ m) eqn:Em; [|done]. apply (li_out _ _ Hi) in Em. congruence. }
    pose proof (linv_pt_one _ _ t m Hi ltac:(by rewrite <- Ha) Ho ltac:(by rewrite Hm) Hom). congruence. }
  destruct Hc as [C1 C2 C3]. cbn in *. constructor; cbn; intros m; upd t m; try apply C1; try apply C2.
  - destruct own; naive_solver.
  - by intros ?%asleep_wake.
  - by intros ?%asleep_wake.
  - intros [H|?%asleep_wake]; [|done]. destruct own; done.
  - by intros [?%Hn|?%asleep_wake].
Qed.

Lemma winv_set at_ code out lks tab c t b r :
  winv at_ (mk_wst code out lks tab c) → code t = Set_ b :: r → out t = false →
  ∃ at', winv at' (mk_wst (<[t := r]> code) out lks tab b).
Proof.
  intros [Hi Hc] E Ho. destruct (linv_move _ _ t _ r Hi E) as (p & Hf & -> & Hp). exists (<[t := p]> at_).
  destruct Hc as [C1 C2 C3]. cbn in *. inversion Hf as [| | | | | | | |Ha| |Ha| | | |]; subst.
  - split; [eapply linv_same; [exact Hi|done|done|rewrite <- Ha; cbn; auto..]|].
    constructor; cbn; intros m; upd t m; try done; try apply C1; try apply C2. intros Hm%C2. rewrite <- Ha in Hm. by destruct Hm as [|[]].
  - split; [eapply linv_same; [exact Hi|done|done|rewrite <- Ha; destruct own; cbn; auto..]|].
    constructor; cbn; intros m; upd t m; try apply C1; try apply C2.
    + destruct own; naive_solver.
    + intros Hm. exfalso. pose proof own_spec as Hs. pose proof (li_lk _ _ Hi t ltac:(by rewrite <- Ha)) as J1. cbn in J1.
      destruct Hm as [Hm|[Hm|[Hm Hw]]].
      1-2: pose proof (li_lk _ _ Hi m ltac:(by rewrite Hm)) as J2; cbn in J2; congruence.
      assert (out m = false) as Hom by (destruct (out m) eqn:Em; [|done]; apply (li_out _ _ Hi) in Em; congruence).
      pose proof (li_pt _ _ Hi m ltac:(by rewrite Hm) Hom) as J2. cbn in J2. rewrite Hw in Hs. congruence.
    + intros Hm%C2. rewrite <- Ha in Hm. by destruct Hm as [|[]].
    + intros _ _. exists t. rewrite fn_lookup_insert. destruct own; auto.
    + intros _ _. exists t. rewrite fn_lookup_insert. destruct own; auto.
Qed.

Lemma winv_while at_ code out lks tab c t ch' lk' r :
  winv at_ (mk_wst code out lks tab c) → code t = While ch' lk' :: r → out t = false →
  ∃ at', winv at' (mk_wst (<[t := if c then r else (Do <$> sleep_code ch' lk') ++ While ch' lk' :: r]> code) out lks tab c).
Proof.
  intros [Hi Hc] E Ho. pose proof own_spec as Hs. pose proof (li_lk _ _ Hi t) as J1. cbn in J1.
  pose proof (li_code _ _ Hi t) as Hct. cbn in Hct. rewrite E in Hct.
  destruct (linv_move _ _ t _ r Hi E) as (p & Hf & -> & Hp). inversion Hf as [|Ha| | | | | | | | | | | | |]; subst.
  assert (∀ q, (own_place q = true → own = true) → (has_lk q = true → has_lk (at_ t) = true ∨ (own = false ∧ has_pt (at_ t) = true)) →
    (has_pt q = true → has_pt (at_ t) = true ∨ (own = false ∧ has_lk (at_ t) = true)) → (tested q = true → c = false) →
    winv (<[t := q]> at_) (mk_wst (<[t := code_at t q]> code) out lks tab c)) as Hq.
  { intros q Q1 Q2 Q3 Q4. split; [by eapply linv_same; [exact Hi|..]|]. eapply cinv_on; [exact Hc|done|done|congruence|congruence|]. by rewrite <- Ha. }
  destruct c.
  - eexists. apply Hq; rewrite <- ?Ha; destruct (takes t); cbn; auto.
  - rewrite <- Ha in Hct. cbn [code_at] in Hct. injection Hct as Hct. rewrite Hct. fold (again t). rewrite code_sleeps. eexists. apply Hq.
    all: rewrite <- ?Ha; destruct own; cbn; auto.
Qed.

Lemma winv_sched at_ code out lks tab c t r :
  winv at_ (mk_wst code out lks tab c) → code t = Do Sched :: r → out t = false → lks Lptable = Some (Process t) →
  ∃ at', winv at' (mk_wst (<[t := r]> code) (<[t := true]> out) (<[Lptable := Some Scheduler]> lks) tab c).
Proof.
  intros [Hi Hc] E Ho HL. destruct (linv_move _ _ t _ r Hi E) as (p & Hf & -> & Hp). exists (<[t := p]> at_).
  inversion Hf as [| | | | |Ha| | | | | | | | |]; subst. split.
  - eapply linv_on; [exact Hi|right; exists Lptable, (Some Scheduler); auto|..]; try done.
    + intros m Hm. by rewrite fn_lookup_insert_ne.
    + by rewrite fn_lookup_insert.
  - eapply cinv_on; [exact Hc|..]; rewrite <- ?Ha; try done.
    + intros m Hm. by rewrite fn_lookup_insert_ne.
    + by rewrite fn_lookup_insert.
Qed.

(** The scheduler takes and gives back ptable.lock. *)
Lemma winv_scheduler at_ code out lks tab c v :
  winv at_ (mk_wst code out lks tab c) → lks Lptable = None ∨ lks Lptable = Some Scheduler →
  winv at_ (mk_wst code out (<[Lptable := v]> lks) tab c).
Proof.
  intros [[I1 I2 I3 I4 I5] [C1 C2 C3]] HL. split; constructor; cbn in *; try done; intros m Hm; [|intros Hm'].
  - specialize (I4 m Hm). destruct (decide (lk = Lptable)) as [E|]; [rewrite E in I4; naive_solver|]. by rewrite fn_lookup_insert_ne.
  - specialize (I5 m Hm Hm'). naive_solver.
Qed.

Lemma winv_run at_ code out lks tab c t :
  winv at_ (mk_wst code out lks tab c) → lks Lptable = Some Scheduler → out t = true →
  winv at_ (mk_wst code (<[t := false]> out) (<[Lptable := Some (Process t)]> lks) (alter (set_state RUNNING) t tab) c).
Proof.
  intros Hw HL Ht. destruct (winv_scheduler _ _ _ _ _ _ (Some (Process t)) Hw (or_intror HL)) as [[I1 I2 I3 I4 I5] [C1 C2 C3]].
  assert (¬ asleep ch t (alter (set_state RUNNING) t tab)) as Hn by (apply asleep_alter_no; intros q; by left).
  cbn in *. split; constructor; cbn; try done; intros m.
  - upd t m; [done|apply I3].
  - destruct (decide (m = t)) as [->|]; [by rewrite fn_lookup_insert|]. rewrite fn_lookup_insert_ne by done. apply I5.
  - destruct (decide (m = t)) as [->|]; [done|]. rewrite fn_lookup_insert_ne, asleep_alter_ne by done. apply C2.
  - destruct (decide (m = t)) as [->|]; [intros [E|?]; [|done]; by apply (C3 t); left|]. rewrite asleep_alter_ne by done. apply C3.
Qed.

Lemma winv_step s s' : (∃ at_, winv at_ s) → wstep s s' → ∃ at', winv at' s'.
Proof.
  intros [at_ Hw] Hs. destruct Hs.
  - by eapply winv_acquire.
  - by eapply winv_release.
  - by eapply winv_mark.
  - by eapply winv_sched.
  - by eapply winv_tidy.
  - by eapply winv_wakeup1.
  - by eapply winv_set.
  - by eapply (winv_while _ _ _ _ _ true).
  - by eapply (winv_while _ _ _ _ _ false).
  - exists at_. apply winv_scheduler; auto.
  - exists at_. apply winv_scheduler; auto.
  - exists at_. by apply winv_run.
Qed.

(** Every process is a sleeper, a waker, or neither. *)
Definition clients (prog : nat → list instr) : Prop :=
  ∀ t, prog t = sleeper ch lk (takes t) ∨ prog t = waker ch lk ∨ prog t = [].

Lemma winv_starts prog s : clients prog → starts ch prog s → ∃ at_, winv at_ s.
Proof.
  intros Hp (E & Ho & Hl & Ha & Hc).
  exists (λ t, if decide (prog t = sleeper ch lk (takes t)) then SLock else if decide (prog t = waker ch lk) then WLock else End).
  split; constructor; intros t; rewrite ?E, ?Hc; repeat case_decide; cbn; try done; try naive_solver.
  - destruct (Hp t) as [|[]]; done.
  - by rewrite Ho.
  - by rewrite Ho.
  - by rewrite Ho.
Qed.

Lemma waking_at at_ s n : winv at_ s → at_ n = WPtable ∨ at_ n = WScan → waking ch s n.
Proof.
  intros [Hi _] Hn. unfold waking. rewrite (li_code _ _ Hi). destruct Hn as [-> | ->]; cbn [code_at]; destruct own; set_solver.
Qed.

End wakeup.

Section no_lost_wakeup.
  Context (ch : chan) (lk : lockid) (takes : nat → bool).

(** C2: no wakeup is lost by sleepers and wakers that use a lock.  Take any
    number of processes, each of them a sleeper or a waker for a condition that a
    lock [lk] protects, one of the caller's or ptable.lock itself, on any number
    of processors.  In every interleaving of their statements, with those of sleep
    and wakeup, a process that is asleep on the channel although the condition
    holds is about to be woken: some waker has set the condition and has not yet
    looked through the process table.  (Without a lock this fails, see below.) *)
Theorem no_lost_wakeup prog s0 s t :
  clients ch lk takes prog → starts ch prog s0 → rtc wstep s0 s →
  asleep ch t (w_tab s) → w_cond s = true → ∃ n, waking ch s n.
Proof.
  intros Hp Hs Hr Ha Hc. pose proof (winv_starts _ _ _ _ _ Hp Hs) as Hw. clear Hs.
  assert (∃ at_, winv ch lk takes at_ s) as [at_ Hi] by (induction Hr; eauto using winv_step).
  destruct (ci_pending _ _ _ _ (proj2 Hi) t (or_intror Ha) Hc) as (n & Hn). exists n. by eapply waking_at.
Qed.

End no_lost_wakeup.

(** Process 0 sleeps, process 1 wakes it, with the lock of the log. *)
Definition ex_tab : list proc := replicate 2 (set_state RUNNING proc0).
Definition ex_prog (t : nat) : list instr :=
  match t with 0%nat => sleeper ChLog Llog true | 1%nat => waker ChLog Llog | _ => [] end.
Definition ex_start (prog : nat → list instr) : wst := mk_wst prog (λ _, false) (λ _, None) ex_tab false.

Lemma ex_starts ch prog : starts ch prog (ex_start prog).
Proof.
  split_and!; try done. intros t (p & Hp & H & _). change (replicate 2 (set_state RUNNING proc0) !! t = Some p) in Hp. by apply lookup_replicate in Hp as [-> _].
Qed.

Ltac wrun t :=
  eapply rtc_l;
  [first [ eapply (st_while_false t); reflexivity | eapply (st_while_true t); reflexivity | eapply (st_set t); reflexivity
         | eapply (st_acquire t); reflexivity | eapply (st_release t); reflexivity | eapply (st_mark t); reflexivity
         | eapply (st_sched t); reflexivity | eapply (st_wakeup1 t); reflexivity ]|].

(** The sleeper goes to sleep, then the waker sets the condition. *)
Lemma no_lost_wakeup_witness :
  ∃ s, rtc wstep (ex_start ex_prog) s ∧ ∃ n, waking ChLog s n.
Proof.
  assert (∃ s, rtc wstep (ex_start ex_prog) s ∧ asleep ChLog 0 (w_tab s) ∧ w_cond s = true) as (s & Hr & Ha & Hc).
  { eexists. split_and!; [do 6 wrun 0%nat; do 2 wrun 1%nat; apply rtc_refl|eexists; split_and!; reflexivity|reflexivity]. }
  exists s. split; [exact Hr|]. apply (no_lost_wakeup ChLog Llog (λ _, true) ex_prog (ex_start ex_prog) s 0).
  - intros [|[|t]]; [by left|by right; left|by right; right].
  - apply ex_starts.
  - exact Hr.
  - exact Ha.
  - exact Hc.
Defined.

(** Without a lock, as sys_sleep waits for the clock, a wakeup between the test and
    the moment sleep has ptable.lock is lost: the condition holds, every waker is
    done, and the process sleeps. *)
Definition null_prog (ch : chan) (t : nat) : list instr :=
  match t with 0%nat => [While ch None] | 1%nat => Set_ true :: (Do <$> wakeup_code ch) | _ => [] end.

Theorem null_lock_loses_wakeup ch :
  ∃ s, rtc wstep (ex_start (null_prog ch)) s ∧ asleep ch 0 (w_tab s) ∧ w_cond s = true ∧ ∀ n, n ≠ 0%nat → w_code s n = [].
Proof.
  eexists. split_and!; [wrun 0%nat; do 4 wrun 1%nat; do 3 wrun 0%nat; apply rtc_refl|eexists; split_and!; reflexivity|reflexivity|].
  intros [|[|n]] Hn; [done|reflexivity|reflexivity].
Qed.
