(* ===== verification/Pipe.v ===== *)
(** * Pipes (pipe.c)

    A [struct pipe] lives in a page from kalloc; a pointer to it is the
    address of the page, and the fields are read and written in kernel memory
    at their offsets.  [queue] is what the pipe contains.

    The theorems are about runs interleaved with the other processes: each
    time a pipewrite has to wait, the readers and writers may do anything that
    leaves a well-formed pipe behind.  [rgwp] follows such a run and collects
    what it did to the queue between two waits. *)
From S2P Require Import Prelude Kernel CString Spinlock Kalloc Vm Proc ProcSpec.

Local Open Scope Z_scope.
Local Open Scope kernel_scope.

Definition PIPESIZE : Z := 512.

(** The offsets of the fields; the lock takes the first 52 bytes. *)
Definition p_data (p : Z) : Z := p + 52.
Definition p_nread (p : Z) : Z := p + 564.
Definition p_nwrite (p : Z) : Z := p + 568.
Definition p_readopen (p : Z) : Z := p + 572.
Definition p_writeopen (p : Z) : Z := p + 576.

Definition loadb (a : Z) : M kst Z := gets (λ s, kram s a).
Definition storeb (a v : Z) : M kst unit := modify (λ s, set_kram (<[a := u8 v]> (kram s)) s).

Section pipe.
  Variable kend : Z.
  Variable waits : nat.   (* bound on the waits of one call *)

Definition pipeclose (p writable : Z) : M core unit :=
  pacquire (Lpipe p);;
  (if negb (writable =? 0) then kk (storew (p_writeopen p) 0);; wakeup (ChPipeR p)
   else kk (storew (p_readopen p) 0);; wakeup (ChPipeW p));;
  r <- kk (loadw (p_readopen p));;
  w <- kk (loadw (p_writeopen p));;
  if (r =? 0) && (w =? 0) then prelease (Lpipe p);; kk (kfree kend p)
  else prelease (Lpipe p).

(** The loop that waits for room: false when the call has to return -1, with
    the lock released. *)
Fixpoint pipewrite_room (fuel : nat) (p : Z) : M core bool :=
  match fuel with
  | O => nofuel
  | S fuel =>
      w <- kk (loadw (p_nwrite p));;
      r <- kk (loadw (p_nread p));;
      if w =? u32 (r + PIPESIZE) then
        ro <- kk (loadw (p_readopen p));;
        kd <- myproc (λ me, pget me killed);;
        if (ro =? 0) || negb (kd =? 0) then prelease (Lpipe p);; ret false
        else wakeup (ChPipeR p);; sleep (ChPipeW p) (Some (Lpipe p));; pipewrite_room fuel p
      else ret true
  end.

(** The bytes that are left to write. *)
Fixpoint pipewrite_loop (p : Z) (src : list Z) : M core bool :=
  match src with
  | [] => ret true
  | c :: src =>
      ok <- pipewrite_room waits p;;
      if ok then
        w <- kk (loadw (p_nwrite p));;
        kk (storew (p_nwrite p) (u32 (w + 1)));;
        kk (storeb (p_data p + w mod PIPESIZE) c);;
        pipewrite_loop p src
      else ret false
  end.

(** [src] has the bytes at [addr]. *)
Definition pipewrite (p : Z) (src : list Z) (n : Z) : M core Z :=
  pacquire (Lpipe p);;
  ok <- pipewrite_loop p (take (Z.to_nat n) src);;
  if ok then wakeup (ChPipeR p);; prelease (Lpipe p);; ret n
  else ret (-1).

Fixpoint piperead_wait (fuel : nat) (p : Z) : M core bool :=
  match fuel with
  | O => nofuel
  | S fuel =>
      r <- kk (loadw (p_nread p));;
      w <- kk (loadw (p_nwrite p));;
      wo <- kk (loadw (p_writeopen p));;
      if (r =? w) && negb (wo =? 0) then
        kd <- myproc (λ me, pget me killed);;
        if negb (kd =? 0) then prelease (Lpipe p);; ret false
        else sleep (ChPipeR p) (Some (Lpipe p));; piperead_wait fuel p
      else ret true
  end.

Fixpoint piperead_loop (n : nat) (p : Z) : M core (list Z) :=
  match n with
  | O => ret []
  | S n =>
      r <- kk (loadw (p_nread p));;
      w <- kk (loadw (p_nwrite p));;
      if r =? w then ret []
      else
        kk (storew (p_nread p) (u32 (r + 1)));;
        c <- kk (loadb (p_data p + r mod PIPESIZE));;
        l <- piperead_loop n p;;
        ret (c :: l)
  end.

(** The result and the bytes copied to [addr]. *)
Definition piperead (p n : Z) : M core (Z * list Z) :=
  pacquire (Lpipe p);;
  ok <- piperead_wait waits p;;
  if ok then
    l <- piperead_loop (Z.to_nat n) p;;
    wakeup (ChPipeW p);;
    prelease (Lpipe p);;
    ret (Z.of_nat (length l), l)
  else ret (-1, []).

End pipe.

(** ** The contents of a pipe *)

Definition kmem (s : core) : mem := kram (ck s).
Definition set_kmem (m : mem) (s : core) : core := set_ck (set_kram m (ck s)) s.

Definition mqueue (p : Z) (m : mem) : list Z :=
  let r := ld32 m (p_nread p) in
  (λ k, m (p_data p + (r + Z.of_nat k) mod PIPESIZE)) <$> seq 0 (Z.to_nat (u32 (ld32 m (p_nwrite p) - r))).

(** The bytes that were written and not yet read. *)
Definition queue (p : Z) (s : core) : list Z := mqueue p (kmem s).

Record mpipe_ok (p : Z) (m : mem) : Prop := {
  po_r : 0 ≤ ld32 m (p_nread p) < W32;
  po_w : 0 ≤ ld32 m (p_nwrite p) < W32;
  po_len : u32 (ld32 m (p_nwrite p) - ld32 m (p_nread p)) ≤ PIPESIZE
}.
Definition pipe_ok (p : Z) (s : core) : Prop := mpipe_ok p (kmem s).

Lemma mod_pipesize x : u32 x mod PIPESIZE = x mod PIPESIZE.
Proof.
  unfold u32, W32, PIPESIZE. change 4294967296 with (512 * 8388608). rewrite Z.rem_mul_r by lia.
  rewrite Z.mul_comm, Z.mod_add by lia. by rewrite Z.mod_mod by lia.
Qed.

Lemma length_mqueue p m : Z.of_nat (length (mqueue p m)) = u32 (ld32 m (p_nwrite p) - ld32 m (p_nread p)).
Proof. unfold mqueue. rewrite length_fmap, length_seq. pose proof (u32_range (ld32 m (p_nwrite p) - ld32 m (p_nread p))). lia. Qed.

(** The test of pipewrite and that of piperead. *)
Lemma mqueue_full p m : mpipe_ok p m →
  ld32 m (p_nwrite p) = u32 (ld32 m (p_nread p) + PIPESIZE) ↔ length (mqueue p m) = Z.to_nat PIPESIZE.
Proof.
  intros [H1 H2 H3]. pose proof (length_mqueue p m) as Hl. unfold PIPESIZE, u32, W32 in *.
  split; intros H; [rewrite H in Hl|]; Z.div_mod_to_equations; lia.
Qed.

Lemma mqueue_empty p m : mpipe_ok p m → ld32 m (p_nread p) = ld32 m (p_nwrite p) ↔ mqueue p m = [].
Proof.
  intros [H1 H2 H3]. pose proof (length_mqueue p m) as Hl. unfold PIPESIZE, u32, W32 in *. split; intros H.
  - apply nil_length_inv. rewrite H, Z.sub_diag in Hl. change (0 mod 4294967296) with 0 in Hl. lia.
  - rewrite H in Hl. cbn in Hl. Z.div_mod_to_equations; lia.
Qed.

Definition push (p c : Z) (m : mem) : mem :=
  let w := ld32 m (p_nwrite p) in
  <[p_data p + w mod PIPESIZE := u8 c]> (st32 m (p_nwrite p) (u32 (w + 1))).

Lemma data_range p x : p_data p ≤ p_data p + x mod PIPESIZE < p_nread p.
Proof. unfold p_data, p_nread, PIPESIZE. pose proof (Z.mod_pos_bound x 512). lia. Qed.

Lemma ld32_data (m : mem) p x c a : p_nread p ≤ a → ld32 (<[p_data p + x mod PIPESIZE := c]> m) a = ld32 m a.
Proof.
  intros Ha. apply ld32_ext. intros y Hy. apply mem_upd_ne. pose proof (data_range p x). lia.
Qed.

Lemma push_fields p c m :
  ld32 (push p c m) (p_nread p) = ld32 m (p_nread p) ∧
  ld32 (push p c m) (p_nwrite p) = u32 (ld32 m (p_nwrite p) + 1) ∧
  ld32 (push p c m) (p_readopen p) = ld32 m (p_readopen p) ∧
  ld32 (push p c m) (p_writeopen p) = ld32 m (p_writeopen p).
Proof.
  unfold push. rewrite !ld32_data by (unfold p_nread, p_nwrite, p_readopen, p_writeopen; lia).
  rewrite ld32_st32, !ld32_st32_ne by (unfold p_nread, p_nwrite, p_readopen, p_writeopen; lia).
  by rewrite u32_idemp.
Qed.

Lemma mqueue_push p c m :
  mpipe_ok p m → ld32 m (p_nwrite p) ≠ u32 (ld32 m (p_nread p) + PIPESIZE) → 0 ≤ c < 256 →
  mpipe_ok p (push p c m) ∧ mqueue p (push p c m) = mqueue p m ++ [c].
Proof.
  intros Hok Hnf Hc. pose proof Hok as [H1 H2 H3]. destruct (push_fields p c m) as (F1 & F2 & _).
  set (r := ld32 m (p_nread p)) in *. set (w := ld32 m (p_nwrite p)) in *.
  assert (u32 (w - r) < PIPESIZE ∧ u32 (u32 (w + 1) - r) = u32 (w - r) + 1 ∧ w mod PIPESIZE = (r + u32 (w - r)) mod PIPESIZE)
    as (Hlt & Hn & Hw).
  { split_and!.
    - unfold PIPESIZE, u32, W32 in *. Z.div_mod_to_equations; lia.
    - unfold PIPESIZE, u32, W32 in *. Z.div_mod_to_equations; lia.
    - rewrite Z.add_mod, mod_pipesize, <- Z.add_mod by (unfold PIPESIZE; lia). f_equal. lia. }
  split.
  { split; rewrite ?F1, ?F2; [done|apply u32_range|]. rewrite Hn. lia. }
  unfold mqueue. rewrite F1, F2. fold r w. rewrite Hn. pose proof (u32_range (w - r)).
  replace (Z.to_nat (u32 (w - r) + 1)) with (Z.to_nat (u32 (w - r)) + 1)%nat by lia.
  rewrite seq_app, fmap_app. f_equal.
  - apply list_fmap_ext. intros ? k [? Hk]%lookup_seq. unfold push. fold w. rewrite mem_upd_ne.
    + apply st32_other. left. pose proof (data_range p (r + Z.of_nat k)). unfold p_nread, p_nwrite in *. lia.
    + rewrite Hw. intros E. apply Z.add_reg_l in E. unfold PIPESIZE in *. Z.div_mod_to_equations; lia.
  - cbn. f_equal. unfold push. fold w. rewrite Hw. rewrite Z2Nat.id by lia. rewrite fn_lookup_insert. by apply u8_small.
Qed.

Definition pop (p : Z) (m : mem) : mem := st32 m (p_nread p) (u32 (ld32 m (p_nread p) + 1)).

Lemma mqueue_pop p m :
  mpipe_ok p m → ld32 m (p_nread p) ≠ ld32 m (p_nwrite p) →
  mpipe_ok p (pop p m) ∧ mqueue p m = m (p_data p + ld32 m (p_nread p) mod PIPESIZE) :: mqueue p (pop p m).
Proof.
  intros Hok Hne. pose proof Hok as [H1 H2 H3].
  assert (ld32 (pop p m) (p_nread p) = u32 (ld32 m (p_nread p) + 1)) as F1 by (unfold pop; by rewrite ld32_st32, u32_idemp).
  assert (ld32 (pop p m) (p_nwrite p) = ld32 m (p_nwrite p)) as F2.
  { unfold pop. rewrite ld32_st32_ne; [done|]. unfold p_nread, p_nwrite. lia. }
  set (r := ld32 m (p_nread p)) in *. set (w := ld32 m (p_nwrite p)) in *.
  assert (u32 (w - r) = u32 (w - u32 (r + 1)) + 1) as Hn.
  { unfold PIPESIZE, u32, W32 in *. Z.div_mod_to_equations; lia. }
  pose proof (u32_range (w - u32 (r + 1))). split.
  { split; rewrite ?F1, ?F2; [apply u32_range|done|]. lia. }
  unfold mqueue. rewrite F1, F2. fold r w. rewrite Hn.
  replace (Z.to_nat (u32 (w - u32 (r + 1)) + 1)) with (S (Z.to_nat (u32 (w - u32 (r + 1))))) by lia.
  cbn [seq fmap list_fmap]. rewrite Z.add_0_r. f_equal. rewrite <- fmap_S_seq, <- list_fmap_compose.
  apply list_fmap_ext. intros ? k _. cbn [compose]. unfold pop. rewrite st32_other.
  - do 2 f_equal. rewrite <- (Z.add_mod_idemp_l (u32 (r + 1))), mod_pipesize, Z.add_mod_idemp_l by (unfold PIPESIZE; lia). f_equal. lia.
  - left. pose proof (data_range p (u32 (r + 1) + Z.of_nat k)). lia.
Qed.

(** ** Running pipewrite and piperead *)

Lemma kk_loadw a s : kk (loadw a) s = Ret (ld32 (kmem s) a) s.
Proof. by destruct s. Qed.
Lemma kk_loadb a s : kk (loadb a) s = Ret (kmem s a) s.
Proof. by destruct s. Qed.
Lemma kk_storew a v s : kk (storew a v) s = Ret tt (set_kmem (st32 (kmem s) a v) s).
Proof. done. Qed.
Lemma kk_storeb a v s : kk (storeb a v) s = Ret tt (set_kmem (<[a := u8 v]> (kmem s)) s).
Proof. done. Qed.

Section fifo.
  Variables (me : nat) (p : Z) (waits : nat).

(** The process runs with the lock of the pipe held. *)
Record inside (s : core) : Prop := {
  in_cur : cur s = Some me;
  in_slot : (me < length (ptable s))%nat;
  in_held : held s = [Lpipe p];
  in_pipe : pipe_ok p s
}.

(** The others leave a well-formed pipe behind, and the scheduler hands the
    processor back with ptable.lock held. *)
Definition resumes (s s' : core) : Prop :=
  cur s' = Some me ∧ (me < length (ptable s'))%nat ∧ held s' = [Lptable] ∧ pipe_ok p s'.

(** What a writer did since it last got the processor, [t] being what it wrote
    before; it waits only for a full pipe with a reader. *)
Definition added (t : list Z) (b s : core) (t' : list Z) : Prop := ∃ c, queue p s = queue p b ++ c ∧ t' = t ++ c.
Definition wait_full (t : list Z) (b s : core) (t' : list Z) : Prop :=
  added t b s t' ∧ length (queue p s) = Z.to_nat PIPESIZE ∧ ld32 (kmem s) (p_readopen p) ≠ 0.

(** The same for a reader; it waits only for an empty pipe with a writer. *)
Definition removed (t : list Z) (b s : core) (t' : list Z) : Prop := ∃ c, queue p b = c ++ queue p s ∧ t' = t ++ c.
Definition wait_empty (t : list Z) (b s : core) (t' : list Z) : Prop :=
  removed t b s t' ∧ queue p s = [] ∧ ld32 (kmem s) (p_writeopen p) ≠ 0.

Lemma added_same t b s s' t' : kmem s' = kmem s → added t b s t' → added t b s' t'.
Proof. intros E. unfold added, queue. by rewrite E. Qed.

Lemma wake_inside ch s : inside s → ∃ s', wakeup ch s = Ret tt s' ∧ inside s' ∧ kmem s' = kmem s ∧
  killed (getp me s') = killed (getp me s).
Proof.
  intros [H1 H2 H3 H4]. eexists. split; [apply wakeup_run; rewrite H3; set_solver|]. split_and!; try done.
  - split; try done. cbn. by rewrite length_fmap.
  - rewrite getp_fmap by done. unfold wake. by case_match.
Qed.

Lemma leave_inside s : inside s → ∃ s', prelease (Lpipe p) s = Ret tt s' ∧ held s' = [] ∧ kmem s' = kmem s ∧
  getp me s' = getp me s.
Proof. intros [H1 H2 H3 H4]. eexists. split; [by apply (prelease_ok _ _ [])|]. done. Qed.

(** Waiting: the others run, and the process goes on with the lock held. *)
Lemma sleep_inside {T} give ch s (t t' : T) b Q :
  inside s → (∀ s1, kmem s1 = kmem s → give t b s1 t') →
  (∀ s2 s3, pipe_ok p s2 → inside s3 → kmem s3 = kmem s2 → Q t' s2 tt s3) →
  rgwp give resumes (sleep ch (Some (Lpipe p)) s) t b Q.
Proof.
  intros [H1 H2 H3 H4] Hg HQ. destruct (sleep_run s me ch (Lpipe p)) as (s1 & k & -> & Hm & _ & _ & _ & _ & Hk); try done.
  cbn. exists t'. split; [by apply Hg|]. intros s2 (Hc2 & Hs2 & Hh2 & Hp2). rewrite Hk by done. cbn.
  apply HQ; [done| |done]. split; try done. cbn. by rewrite length_alter.
Qed.

Lemma pipewrite_room_wp fuel s t b t1 :
  inside s → added t b s t1 →
  rgwp wait_full resumes (pipewrite_room fuel p s) t b (λ t b ok s',
    added t b s' t1 ∧
    if (ok : bool) then inside s' ∧ ld32 (kmem s') (p_nwrite p) ≠ u32 (ld32 (kmem s') (p_nread p) + PIPESIZE)
    else held s' = [] ∧ pipe_ok p s' ∧ (ld32 (kmem s') (p_readopen p) = 0 ∨ killed (getp me s') ≠ 0)).
Proof.
  revert s t b. induction fuel as [|fuel IH]; intros s t b Hin Hadd; cbn [pipewrite_room]; [done|].
  rewrite (bind_Ret _ _ _ _ _ (kk_loadw _ _)), (bind_Ret _ _ _ _ _ (kk_loadw _ _)).
  destruct (ld32 (kmem s) (p_nwrite p) =? u32 (ld32 (kmem s) (p_nread p) + PIPESIZE)) eqn:Ef; bools; [|done].
  apply mqueue_full in Ef; [|apply Hin]. rewrite (bind_Ret _ _ _ _ _ (kk_loadw _ _)).
  rewrite (bind_Ret _ _ _ (killed (getp me s)) s) by (by rewrite (myproc_ok _ _ me) by apply Hin).
  destruct ((ld32 (kmem s) (p_readopen p) =? 0) || negb (killed (getp me s) =? 0)) eqn:Ec.
  - destruct (leave_inside s Hin) as (s' & E & Hh & Hm & Hg). rewrite (bind_Ret _ _ _ _ _ E). cbn.
    split; [by eapply added_same|]. split_and!; [done|unfold pipe_ok; rewrite Hm; apply Hin|]. rewrite Hm, Hg.
    apply orb_prop in Ec as [Ec|Ec]; bools; [by left|by right].
  - bools. destruct (wake_inside (ChPipeR p) s Hin) as (s1 & E & Hin1 & Hm1 & _). rewrite (bind_Ret _ _ _ _ _ E).
    apply rgwp_bind, (sleep_inside _ _ _ _ t1); [done| |].
    + intros s2 Hm2. split_and!; [eapply added_same; [|done]; congruence|unfold queue; rewrite Hm2, Hm1; done|].
      by rewrite Hm2, Hm1.
    + intros s2 s3 Hp2 Hin3 Hm3. apply IH; [done|]. exists []. unfold queue. rewrite Hm3. by rewrite !app_nil_r.
Qed.

Lemma pipewrite_loop_wp src s t b done :
  inside s → added t b s done → Forall (λ c, 0 ≤ c < 256) src →
  rgwp wait_full resumes (pipewrite_loop waits p src s) t b (λ t b ok s',
    if (ok : bool) then inside s' ∧ added t b s' (done ++ src)
    else held s' = [] ∧ pipe_ok p s' ∧ (ld32 (kmem s') (p_readopen p) = 0 ∨ killed (getp me s') ≠ 0) ∧
      ∃ pre, pre `prefix_of` src ∧ added t b s' (done ++ pre)).
Proof.
  revert s t b done. induction src as [|c src IH]; intros s t b dn Hin Hadd Hsrc; cbn [pipewrite_loop].
  { cbn. by rewrite app_nil_r. }
  apply Forall_cons in Hsrc as [Hc Hsrc]. apply rgwp_bind.
  eapply rgwp_mono; [|by apply pipewrite_room_wp]. cbn. intros t1 b1 [] s1.
  - intros (Hadd1 & Hin1 & Hnf). destruct (mqueue_push p c (kmem s1) (in_pipe _ Hin1) Hnf Hc) as (Hok & Hq).
    rewrite (bind_Ret _ _ _ _ _ (kk_loadw _ _)), (bind_Ret _ _ _ _ _ (kk_storew _ _ _)), (bind_Ret _ _ _ _ _ (kk_storeb _ _ _)).
    set (s2 := set_kmem _ _). assert (kmem s2 = push p c (kmem s1)) as Hm by done.
    eapply rgwp_mono; [|apply (IH s2 t1 b1 (dn ++ [c])); [|destruct Hadd1 as (x & Hx & ->)|done]].
    + cbn. intros t3 b3 [] s3; [by rewrite <- app_assoc|]. intros (H1 & H2 & H3 & pre & Hpre & H4).
      split_and!; try done. exists (c :: pre). split; [by apply prefix_cons|]. by rewrite <- app_assoc in H4.
    + destruct Hin1 as [I1 I2 I3 I4]. by split.
    + exists (x ++ [c]). unfold queue in *. rewrite Hm, Hq, Hx. by rewrite <- !app_assoc.
  - intros (Hadd1 & H1 & H2 & H3). cbn. split_and!; try done. exists []. split; [apply prefix_nil|]. by rewrite app_nil_r.
Qed.

(** C14: whatever the other processes do to the pipe while a pipewrite waits,
    the bytes it appends to the queue, piece by piece, are those it was given,
    in order: all of them when it returns [n], and a prefix when it returns -1,
    which it does only when the reading end is closed or the process was
    killed.  It waits only while the pipe is full and has a reader. *)
Theorem pipewrite_appends s src n :
  cur s = Some me → (me < length (ptable s))%nat → held s = [] → pipe_ok p s → Forall (λ c, 0 ≤ c < 256) src →
  rgwp wait_full resumes (pipewrite waits p src n s) [] s (λ t b r s',
    held s' = [] ∧ pipe_ok p s' ∧ ∃ w, added t b s' w ∧
      (r = n ∧ w = take (Z.to_nat n) src ∨
       r = -1 ∧ w `prefix_of` src ∧ (ld32 (kmem s') (p_readopen p) = 0 ∨ killed (getp me s') ≠ 0))).
Proof.
  intros Hc Hs Hh Hok Hsrc. unfold pipewrite.
  erewrite bind_Ret; [|apply pacquire_ok; rewrite Hh; apply not_elem_of_nil]. rewrite Hh.
  apply rgwp_bind. eapply rgwp_mono; [|apply (pipewrite_loop_wp _ _ [] s []); [done|exists []; by rewrite app_nil_r|by apply Forall_take]].
  cbn. intros t b [] s1.
  - intros [Hin Hadd]. destruct (wake_inside (ChPipeR p) s1 Hin) as (s2 & E2 & Hin2 & Hm2 & _).
    rewrite (bind_Ret _ _ _ _ _ E2). destruct (leave_inside s2 Hin2) as (s3 & E3 & Hh3 & Hm3 & _).
    rewrite (bind_Ret _ _ _ _ _ E3). cbn. split_and!; [done|unfold pipe_ok; rewrite Hm3; apply Hin2|].
    eexists. split; [eapply added_same; [|done]; congruence|by left].
  - intros (H1 & H2 & H3 & pre & Hpre & Hadd). split_and!; try done. exists pre. split; [done|]. right.
    split_and!; [done| |done]. etrans; [done|]. apply prefix_take.
Qed.

Lemma removed_same t b s s' t' : kmem s' = kmem s → removed t b s t' → removed t b s' t'.
Proof. intros E. unfold removed, queue. by rewrite E. Qed.

Lemma piperead_wait_wp fuel s b t :
  inside s → removed t b s t →
  rgwp wait_empty resumes (piperead_wait fuel p s) t b (λ t' b ok s', t' = t ∧
    removed t b s' t ∧
    if (ok : bool) then inside s' ∧ (queue p s' = [] → ld32 (kmem s') (p_writeopen p) = 0)
    else held s' = [] ∧ pipe_ok p s' ∧ killed (getp me s') ≠ 0).
Proof.
  revert s b. induction fuel as [|fuel IH]; intros s b Hin Hrm; cbn [piperead_wait]; [done|].
  do 3 rewrite (bind_Ret _ _ _ _ _ (kk_loadw _ _)).
  destruct (_ && _) eqn:Ee; cycle 1.
  { cbn. split_and!; try done. intros Hq. unfold queue in Hq. apply mqueue_empty in Hq; [|apply Hin].
    rewrite Hq, Z.eqb_refl in Ee. cbn [andb] in Ee. by bools. }
  bools. apply mqueue_empty in H; [|apply Hin].
  rewrite (bind_Ret _ _ _ (killed (getp me s)) s) by (by rewrite (myproc_ok _ _ me) by apply Hin).
  destruct (negb (killed (getp me s) =? 0)) eqn:Ek; bools.
  - destruct (leave_inside s Hin) as (s' & E & Hh & Hm & Hg). rewrite (bind_Ret _ _ _ _ _ E). cbn.
    split_and!; [done|by eapply removed_same|done|unfold pipe_ok; rewrite Hm; apply Hin|by rewrite Hg].
  - apply rgwp_bind, (sleep_inside _ _ _ _ t); [done| |].
    + intros s1 Hm1. split_and!; [by eapply removed_same|unfold queue; by rewrite Hm1|by rewrite Hm1].
    + intros s2 s3 Hp2 Hin3 Hm3. apply IH; [done|]. exists []. unfold queue. rewrite Hm3. by rewrite app_nil_r.
Qed.

Lemma piperead_loop_run n s :
  inside s → ∃ s', piperead_loop n p s = Ret (take n (queue p s)) s' ∧ inside s' ∧ queue p s' = drop n (queue p s) ∧
    ld32 (kmem s') (p_writeopen p) = ld32 (kmem s) (p_writeopen p).
Proof.
  revert s. induction n as [|n IH]; intros s Hin; cbn [piperead_loop].
  { by exists s. }
  rewrite (bind_Ret _ _ _ _ _ (kk_loadw _ _)), (bind_Ret _ _ _ _ _ (kk_loadw _ _)).
  destruct (_ =? _) eqn:E; bools.
  { apply mqueue_empty in E; [|apply Hin]. exists s. unfold queue. rewrite E. by rewrite drop_nil. }
  destruct (mqueue_pop p (kmem s) (in_pipe _ Hin) E) as (Hok & Hq).
  rewrite (bind_Ret _ _ _ _ _ (kk_storew _ _ _)), (bind_Ret _ _ _ _ _ (kk_loadb _ _)).
  set (s1 := set_kmem _ _). assert (kmem s1 = pop p (kmem s)) as Hm by done.
  destruct (IH s1) as (s2 & E2 & Hin2 & Hq2 & Hw2).
  { destruct Hin as [I1 I2 I3 I4]. by split. }
  rewrite (bind_Ret _ _ _ _ _ E2). exists s2. unfold queue in *. rewrite Hm in Hq2, Hw2 |- *. rewrite Hq.
  split_and!; try done.
  - unfold ret. cbn [take firstn]. do 2 f_equal. unfold pop. apply st32_other. left. pose proof (data_range p (ld32 (kmem s) (p_nread p))). lia.
  - rewrite Hw2. unfold pop. apply ld32_st32_ne. unfold p_nread, p_writeopen. lia.
Qed.

(** C15: whatever the other processes do to the pipe while a piperead waits, the
    bytes it returns are exactly those it takes from the front of the queue,
    in order, at most [n] of them and all of the queue if that is shorter.  It
    waits only while the pipe is empty and has a writer; it returns 0 bytes
    for an empty queue only when the writing end is closed, and -1 only when
    the process was killed, having taken nothing. *)
Theorem piperead_removes s n :
  cur s = Some me → (me < length (ptable s))%nat → held s = [] → pipe_ok p s →
  rgwp wait_empty resumes (piperead waits p n s) [] s (λ t b r s',
    held s' = [] ∧ pipe_ok p s' ∧ t = [] ∧ removed [] b s' (snd r) ∧
      (snd r = take (Z.to_nat n) (queue p b) ∧ fst r = Z.of_nat (length (snd r)) ∧
         (queue p b = [] → ld32 (kmem s') (p_writeopen p) = 0) ∨
       r = (-1, []) ∧ killed (getp me s') ≠ 0)).
Proof.
  intros Hc Hs Hh Hok. unfold piperead.
  erewrite bind_Ret; [|apply pacquire_ok; rewrite Hh; apply not_elem_of_nil]. rewrite Hh.
  apply rgwp_bind. eapply rgwp_mono; [|apply (piperead_wait_wp _ _ s []); [done|by exists []]].
  cbn. intros t b [] s1 (-> & (c & Hq & Hx) & H).
  - destruct H as [Hin Hw]. cbn in Hx. subst c. cbn in Hq.
    destruct (piperead_loop_run (Z.to_nat n) s1 Hin) as (s2 & E2 & Hin2 & Hq2 & Hw2). rewrite (bind_Ret _ _ _ _ _ E2).
    destruct (wake_inside (ChPipeW p) s2 Hin2) as (s3 & E3 & Hin3 & Hm3 & _). rewrite (bind_Ret _ _ _ _ _ E3).
    destruct (leave_inside s3 Hin3) as (s4 & E4 & Hh4 & Hm4 & _). rewrite (bind_Ret _ _ _ _ _ E4). cbn.
    split_and!; [done|unfold pipe_ok; rewrite Hm4; apply Hin3|done| |left].
    + exists (take (Z.to_nat n) (queue p s1)). split; [|done]. rewrite Hq. unfold queue at 3. rewrite Hm4, Hm3.
      fold (queue p s2). rewrite Hq2. by rewrite take_drop.
    + split_and!; [by rewrite Hq|done|]. rewrite Hm4, Hm3, Hw2, Hq. done.
  - destruct H as (H1 & H2 & H3). cbn in Hx. subst c. cbn. split_and!; try done; [by exists []|by right].
Qed.

End fifo.

(** An empty pipe. *)
Definition ex_pipe : core := set_kmem (λ _, 0) (ex_core 0).

Lemma ex_pipe_ok : pipe_ok 8192 ex_pipe.
Proof. split; vm_compute; split || idtac; discriminate || done. Qed.

Lemma pipewrite_appends_witness :
  rgwp (wait_full 8192) (resumes 0 8192) (pipewrite 2 8192 [1; 2; 3] 3 ex_pipe) [] ex_pipe (λ t b r s',
    held s' = [] ∧ pipe_ok 8192 s' ∧ ∃ w, added 8192 t b s' w ∧
      (r = 3 ∧ w = [1; 2; 3] ∨
       r = -1 ∧ w `prefix_of` [1; 2; 3] ∧ (ld32 (kmem s') (p_readopen 8192) = 0 ∨ killed (getp 0 s') ≠ 0))).
Proof.
  apply (pipewrite_appends 0 8192 2 ex_pipe [1; 2; 3] 3).
  - reflexivity.
  - cbn. lia.
  - reflexivity.
  - exact ex_pipe_ok.
  - repeat constructor; lia.
Defined.

Lemma piperead_removes_witness :
  rgwp (wait_empty 8192) (resumes 0 8192) (piperead 2 8192 3 ex_pipe) [] ex_pipe (λ t b r s',
    held s' = [] ∧ pipe_ok 8192 s' ∧ t = [] ∧ removed 8192 [] b s' (snd r) ∧
      (snd r = take 3 (queue 8192 b) ∧ fst r = Z.of_nat (length (snd r)) ∧
         (queue 8192 b = [] → ld32 (kmem s') (p_writeopen 8192) = 0) ∨
       r = (-1, []) ∧ killed (getp 0 s') ≠ 0)).
Proof.
  apply (piperead_removes 0 8192 2 ex_pipe 3).
  - reflexivity.
  - cbn. lia.
  - reflexivity.
  - exact ex_pipe_ok.
Defined.
