(* ===== verification/Bytes.v ===== *)
(** * Structures in blocks of bytes

    The data of a buffer is a list of bytes; the file system code casts it to
    arrays of structures with 16- and 32-bit fields.  [rd] and [wr] read and
    write such a field, little-endian as on the x86, [peek] and [list_inserts]
    are what memmove reads and writes. *)
From S2P Require Import Prelude.

Local Open Scope Z_scope.

Fixpoint le_split (n : nat) (v : Z) : list Z :=
  match n with
  | O => []
  | S n => v mod 256 :: le_split n (v / 256)
  end.

Fixpoint le_combine (l : list Z) : Z :=
  match l with
  | [] => 0
  | b :: l => b + 256 * le_combine l
  end.

Definition peek (o n : nat) (l : list Z) : list Z := take n (drop o l).

Definition rd (n o : nat) (l : list Z) : Z := le_combine (peek o n l).
Definition wr (n o : nat) (v : Z) (l : list Z) : list Z := list_inserts o (le_split n v) l.

Abbreviation rd16 := (rd 2).
Abbreviation rd32 := (rd 4).
Abbreviation wr16 := (wr 2).
Abbreviation wr32 := (wr 4).

Lemma length_le_split n v : length (le_split n v) = n.
Proof. revert v. induction n as [|n IH]; intros v; cbn; [done|by rewrite IH]. Qed.

Lemma le_combine_split n v : 0 ≤ v < 256 ^ Z.of_nat n → le_combine (le_split n v) = v.
Proof.
  revert v. induction n as [|n IH]; intros v Hv; cbn [le_split le_combine].
  - cbn in Hv. lia.
  - rewrite Nat2Z.inj_succ, Z.pow_succ_r in Hv by lia.
    rewrite IH; [pose proof (Z.div_mod v 256); lia|].
    split; [apply Z.div_pos; lia|apply Z.div_lt_upper_bound; lia].
Qed.

Lemma length_peek o n l : (o + n ≤ length l)%nat → length (peek o n l) = n.
Proof. intros. unfold peek. rewrite length_take, length_drop. lia. Qed.

Lemma lookup_peek o n l j : (j < n)%nat → peek o n l !! j = l !! (o + j)%nat.
Proof. intros. unfold peek. by rewrite lookup_take_lt, lookup_drop. Qed.

(** Reading what was written, and reading around it. *)
Lemma peek_inserts o k l : (o + length k ≤ length l)%nat → peek o (length k) (list_inserts o k l) = k.
Proof.
  intros Hl. apply list_eq_same_length with (n := length k); [done|by rewrite length_peek; [|rewrite length_inserts]|].
  intros j x y Hj. rewrite lookup_peek, list_lookup_inserts by lia. replace (o + j - o)%nat with j by lia. congruence.
Qed.

Lemma peek_inserts_ne o n p k l :
  (p + length k ≤ o ∨ o + n ≤ p)%nat → peek o n (list_inserts p k l) = peek o n l.
Proof.
  intros Hd. apply list_eq. intros j. destruct (decide (j < n)%nat) as [Hj|Hj].
  - rewrite !lookup_peek by done. destruct Hd; [apply list_lookup_inserts_ge|apply list_lookup_inserts_lt]; lia.
  - unfold peek. by rewrite !lookup_take_ge by lia.
Qed.

Lemma length_wr n o v l : length (wr n o v l) = length l.
Proof. apply length_inserts. Qed.

Lemma rd_wr n o v l :
  (o + n ≤ length l)%nat → 0 ≤ v < 256 ^ Z.of_nat n → rd n o (wr n o v l) = v.
Proof.
  intros Hl Hv. unfold rd, wr. pose proof (peek_inserts o (le_split n v) l) as E.
  rewrite length_le_split in E. rewrite E by done. by apply le_combine_split.
Qed.

Lemma rd_wr_ne n o m p v l : (p + m ≤ o ∨ o + n ≤ p)%nat → rd n o (wr m p v l) = rd n o l.
Proof. intros. unfold rd, wr. rewrite peek_inserts_ne; [done|by rewrite length_le_split]. Qed.

(** Bytes *)
Definition bytes (l : list Z) : Prop := Forall (λ b, 0 ≤ b < 256) l.

Lemma le_combine_bound l : bytes l → 0 ≤ le_combine l < 256 ^ Z.of_nat (length l).
Proof.
  induction 1 as [|b l Hb Hl IH]; [by cbn|]. cbn [le_combine length].
  rewrite Nat2Z.inj_succ, Z.pow_succ_r by lia. lia.
Qed.

Lemma rd_bound n o l : bytes l → (o + n ≤ length l)%nat → 0 ≤ rd n o l < 256 ^ Z.of_nat n.
Proof.
  intros Hb Hl. unfold rd. pose proof (le_combine_bound (peek o n l)) as H. rewrite length_peek in H by done.
  apply H. unfold peek. by apply Forall_take, Forall_drop.
Qed.

Lemma bytes_le_split n v : bytes (le_split n v).
Proof.
  revert v. induction n as [|n IH]; intros v; constructor; [|apply IH]. apply Z.mod_pos_bound. lia.
Qed.

Lemma bytes_inserts o k l : bytes k → bytes l → bytes (list_inserts o k l).
Proof.
  unfold bytes. rewrite !Forall_lookup. intros Hk Hl j x Hj.
  destruct (decide (o ≤ j < o + length k)%nat) as [Hin|Hout].
  - assert (j < length l)%nat by (apply lookup_lt_Some in Hj; by rewrite length_inserts in Hj).
    rewrite list_lookup_inserts in Hj by done. by eapply Hk.
  - apply (Hl j). rewrite <- Hj. symmetry.
    destruct (decide (j < o)%nat); [apply list_lookup_inserts_lt|apply list_lookup_inserts_ge]; lia.
Qed.

Lemma bytes_wr n o v l : bytes l → bytes (wr n o v l).
Proof. intros. apply bytes_inserts; [apply bytes_le_split|done]. Qed.
