(* ===== verification/Bio.v ===== *)
(** * The buffer cache and the disk (bio.c, memide.c)

    The cache is the array of NBUF buffers followed by [bcache.head], linked
    through [prev] and [next] indices exactly as the code links them.  The
    disk is the memory disk of memide.c, a list of blocks; [hist] is a ghost
    that records the disk image before every write, so that crash theorems
    can speak about every image the disk ever had (a block write is atomic).

    [seg] describes the linked list.  [bcache_ok] relates a cache to the
    abstract view of it that the layers above work with: the contents of every
    block, the buffers the running process holds and the blocks that are
    pinned as dirty. *)
From S2P Require Import Prelude Kernel CString Spinlock Kalloc Vm Proc ProcSpec.

Local Open Scope Z_scope.
Local Open Scope kernel_scope.

Definition BSIZE : nat := 512.
Definition NBUF : nat := 30.
Definition HEAD : nat := NBUF.        (* &bcache.head *)
Definition B_BUSY : Z := 1.
Definition B_VALID : Z := 2.
Definition B_DIRTY : Z := 4.

Record buf := mk_buf {
  flags : Z;
  dev : Z;
  blockno : Z;
  prev : nat;
  next : nat;
  bdata : list Z
}.

Definition set_flags (v : Z) (x : buf) : buf :=
  mk_buf v (dev x) (blockno x) (prev x) (next x) (bdata x).
Definition set_dev (v : Z) (x : buf) : buf :=
  mk_buf (flags x) v (blockno x) (prev x) (next x) (bdata x).
Definition set_blockno (v : Z) (x : buf) : buf :=
  mk_buf (flags x) (dev x) v (prev x) (next x) (bdata x).
Definition set_prev (v : nat) (x : buf) : buf :=
  mk_buf (flags x) (dev x) (blockno x) v (next x) (bdata x).
Definition set_next (v : nat) (x : buf) : buf :=
  mk_buf (flags x) (dev x) (blockno x) (prev x) v (bdata x).
Definition set_bdata (v : list Z) (x : buf) : buf :=
  mk_buf (flags x) (dev x) (blockno x) (prev x) (next x) v.

Definition buf0 : buf := mk_buf 0 0 0 0 0 (replicate BSIZE 0).

Record bst := mk_bst {
  bc : core;
  bufs : list buf;
  disk : list (list Z);
  hist : list (list (list Z))
}.

Definition set_bc (v : core) (x : bst) : bst :=
  mk_bst v (bufs x) (disk x) (hist x).
Definition set_bufs (v : list buf) (x : bst) : bst :=
  mk_bst (bc x) v (disk x) (hist x).
Definition set_disk (v : list (list Z)) (x : bst) : bst :=
  mk_bst (bc x) (bufs x) v (hist x).
Definition set_hist (v : list (list (list Z))) (x : bst) : bst :=
  mk_bst (bc x) (bufs x) (disk x) v.

Definition bb {A} (m : M core A) : M bst A := zoom bc set_bc m.

Definition getb (i : nat) (s : bst) : buf := default buf0 (bufs s !! i).
Definition bget_field {A} (i : nat) (f : buf → A) : M bst A := gets (λ s, f (getb i s)).
Definition bupd (i : nat) (f : buf → buf) : M bst unit :=
  modify (λ s, set_bufs (alter f i (bufs s)) s).

Definition busy (b : buf) : bool := has B_BUSY (flags b).
Definition valid (b : buf) : bool := has B_VALID (flags b).
Definition dirty (b : buf) : bool := has B_DIRTY (flags b).

(** ** The disk (memide.c) *)

Definition iderw (i : nat) : M bst unit :=
  b <- gets (getb i);;
  when (negb (busy b)) do panic "iderw: buf not busy";;
  when (Z.land (flags b) (Z.lor B_VALID B_DIRTY) =? B_VALID) do panic "iderw: nothing to do";;
  when (negb (dev b =? 1)) do panic "iderw: request not for disk 1";;
  n <- gets (λ s, Z.of_nat (length (disk s)));;
  when (n <=? blockno b) do panic "iderw: block out of range";;
  (if dirty b then
     bupd i (λ b, set_flags (Z.land (flags b) (Z.lnot B_DIRTY)) b);;
     modify (λ s, set_disk (<[Z.to_nat (blockno b) := bdata b]> (disk s)) (set_hist (disk s :: hist s) s))
   else
     modify (λ s, set_bufs (alter (set_bdata (default [] (disk s !! Z.to_nat (blockno b)))) i (bufs s)) s));;
  bupd i (λ b, set_flags (Z.lor (flags b) B_VALID) b).

(** ** The cache (bio.c) *)

(** binit links buffers [i .. NBUF) at the front, one after the other. *)
Fixpoint binit_loop (n i : nat) : M bst unit :=
  match n with
  | O => ret tt
  | S n =>
      h <- bget_field HEAD next;;
      bupd i (λ b, set_dev (u32 (-1)) (set_prev HEAD (set_next h b)));;
      bupd h (set_prev i);;
      bupd HEAD (set_next i);;
      binit_loop n (S i)
  end.

Definition binit : M bst unit :=
  bupd HEAD (set_prev HEAD);;
  bupd HEAD (set_next HEAD);;
  binit_loop NBUF 0.

(** The two loops of bget: the first buffer satisfying [f] from [b] on,
    following [next] or [prev] up to the head. *)
Fixpoint scan_list (fuel : nat) (step : buf → nat) (f : buf → bool) (b : nat) (s : bst) : option nat :=
  match fuel with
  | O => None
  | S fuel =>
      if decide (b = HEAD) then None
      else if f (getb b s) then Some b
      else scan_list fuel step f (step (getb b s)) s
  end.

Definition cached (d bn : Z) (b : buf) : bool := (dev b =? d) && (blockno b =? bn).
Definition clean (b : buf) : bool := negb (busy b) && negb (dirty b).

(** The fuel bounds the number of times the process waits for the buffer. *)
Fixpoint bget_loop (fuel : nat) (d bn : Z) : M bst nat :=
  match fuel with
  | O => nofuel
  | S fuel =>
      r <- gets (λ s, scan_list (S NBUF) next (cached d bn) (next (getb HEAD s)) s);;
      match r with
      | Some b =>
          fl <- bget_field b busy;;
          if negb fl then
            bupd b (λ x, set_flags (Z.lor (flags x) B_BUSY) x);;
            bb (prelease Lbcache);; ret b
          else
            bb (sleep (ChBuf b) (Some Lbcache));; bget_loop fuel d bn
      | None =>
          r <- gets (λ s, scan_list (S NBUF) prev clean (prev (getb HEAD s)) s);;
          match r with
          | Some b =>
              bupd b (λ x, set_flags B_BUSY (set_blockno bn (set_dev d x)));;
              bb (prelease Lbcache);; ret b
          | None => panic "bget: no buffers"
          end
      end
  end.

Section bio.
  Variable waits : nat.   (* bound on the waits of one call *)

Definition bget (d bn : Z) : M bst nat := bb (pacquire Lbcache);; bget_loop waits d bn.

Definition bread (d bn : Z) : M bst nat :=
  b <- bget d bn;;
  v <- bget_field b valid;;
  when (negb v) do iderw b;;
  ret b.

End bio.

Definition bwrite (i : nat) : M bst unit :=
  b <- bget_field i busy;;
  when (negb b) do panic "bwrite";;
  bupd i (λ x, set_flags (Z.lor (flags x) B_DIRTY) x);;
  iderw i.

Definition brelse (i : nat) : M bst unit :=
  f <- bget_field i busy;;
  when (negb f) do panic "brelse";;
  bb (pacquire Lbcache);;
  b <- gets (getb i);;
  bupd (next b) (set_prev (prev b));;
  b <- gets (getb i);;
  bupd (prev b) (set_next (next b));;
  h <- bget_field HEAD next;;
  bupd i (set_next h);;
  bupd i (set_prev HEAD);;
  h <- bget_field HEAD next;;
  bupd h (set_prev i);;
  bupd HEAD (set_next i);;
  bupd i (λ x, set_flags (Z.land (flags x) (Z.lnot B_BUSY)) x);;
  bb (wakeup (ChBuf i));;
  bb (prelease Lbcache).

(** ** The linked list *)

Definition nxt (bl : list buf) (i : nat) : nat := next (default buf0 (bl !! i)).
Definition prv (bl : list buf) (i : nat) : nat := prev (default buf0 (bl !! i)).

Lemma alter_at {A} (f : buf → buf) (g : buf → A) k (bl : list buf) i :
  (k < length bl)%nat →
  g (default buf0 (alter f k bl !! i)) =
  if decide (i = k) then g (f (default buf0 (bl !! i))) else g (default buf0 (bl !! i)).
Proof.
  intros Hk. destruct (decide (i = k)) as [->|Hne].
  - rewrite list_lookup_alter_eq. destruct (lookup_lt_is_Some_2 _ _ Hk) as [b ->]. done.
  - by rewrite list_lookup_alter_ne.
Qed.

Lemma nxt_set_next bl k v i :
  (k < length bl)%nat → nxt (alter (set_next v) k bl) i = if decide (i = k) then v else nxt bl i.
Proof. intros. unfold nxt. rewrite alter_at by done. by case_decide. Qed.

Lemma nxt_alter bl k f i :
  (k < length bl)%nat → (∀ b, next (f b) = next b) → nxt (alter f k bl) i = nxt bl i.
Proof. intros Hk Hf. unfold nxt. rewrite alter_at by done. case_decide; [apply Hf|done]. Qed.

Lemma prv_set_prev bl k v i :
  (k < length bl)%nat → prv (alter (set_prev v) k bl) i = if decide (i = k) then v else prv bl i.
Proof. intros. unfold prv. rewrite alter_at by done. by case_decide. Qed.

Lemma prv_alter bl k f i :
  (k < length bl)%nat → (∀ b, prev (f b) = prev b) → prv (alter f k bl) i = prv bl i.
Proof. intros Hk Hf. unfold prv. rewrite alter_at by done. case_decide; [apply Hf|done]. Qed.

(** From [x] the buffers [l] follow, then [y]; the back links agree. *)
Fixpoint seg (bl : list buf) (x : nat) (l : list nat) (y : nat) : Prop :=
  match l with
  | [] => nxt bl x = y ∧ prv bl y = x
  | b :: l => nxt bl x = b ∧ prv bl b = x ∧ seg bl b l y
  end.

Lemma seg_app bl x l1 b l2 y : seg bl x (l1 ++ b :: l2) y ↔ seg bl x l1 b ∧ seg bl b l2 y.
Proof. revert x. induction l1 as [|a l1 IH]; intros x; cbn; [|rewrite IH]; tauto. Qed.

Lemma seg_frame bl bl' x l y :
  (∀ i, i ∈ x :: l → nxt bl' i = nxt bl i) → (∀ i, i ∈ l ++ [y] → prv bl' i = prv bl i) →
  seg bl x l y → seg bl' x l y.
Proof.
  revert x. induction l as [|b l IH]; intros x Hn Hp; cbn.
  - intros [H1 H2]. by rewrite Hn, Hp by set_solver.
  - intros (H1 & H2 & H3). rewrite Hn, Hp by set_solver. split_and!; [done|done|].
    apply IH; [..|done]; intros i Hi; [apply Hn|apply Hp]; set_solver.
Qed.

(** The list of all buffers, most recently used first. *)
Definition lru (bl : list buf) (L : list nat) : Prop :=
  seg bl HEAD L HEAD ∧ NoDup (HEAD :: L) ∧ length bl = S NBUF ∧ L ≡ₚ seq 0 NBUF.

Lemma seg_ends bl x l y : seg bl x l y → nxt bl x ∈ l ++ [y] ∧ prv bl y ∈ x :: l.
Proof.
  revert x. induction l as [|b l IH]; intros x; cbn.
  - intros [-> H]. rewrite H. set_solver.
  - intros (-> & _ & H). destruct (IH _ H). set_solver.
Qed.

(** Taking a buffer out of the list. *)
Definition unlink (b : nat) (bl : list buf) : list buf :=
  alter (set_next (nxt bl b)) (prv bl b) (alter (set_prev (prv bl b)) (nxt bl b) bl).

Lemma seg_unlink bl x l1 b l2 y :
  seg bl x l1 b → seg bl b l2 y → NoDup (x :: l1 ++ b :: l2) → y ∉ l1 ++ b :: l2 →
  (∀ i, i ∈ x :: y :: l1 ++ b :: l2 → (i < length bl)%nat) →
  seg (unlink b bl) x (l1 ++ l2) y.
Proof.
  intros H1 H2 Hnd Hy Hlt.
  pose proof (seg_ends _ _ _ _ H1) as [_ Hp]. pose proof (seg_ends _ _ _ _ H2) as [Hn _].
  assert (prv bl b < length bl ∧ nxt bl b < length bl)%nat as [Hpl Hnl] by (split; apply Hlt; set_solver).
  assert (∀ i, nxt (unlink b bl) i = if decide (i = prv bl b) then nxt bl b else nxt bl i) as En.
  { intros i. unfold unlink. rewrite nxt_set_next by (by rewrite length_alter).
    case_decide; [done|]. by rewrite nxt_alter. }
  assert (∀ i, prv (unlink b bl) i = if decide (i = nxt bl b) then prv bl b else prv bl i) as Ep.
  { intros i. unfold unlink. rewrite prv_alter by (by rewrite ?length_alter). by rewrite prv_set_prev. }
  generalize dependent (unlink b bl). intros bl' En Ep.
  revert x H1 Hnd Hp Hlt. induction l1 as [|a l1 IH]; intros x H1 Hnd Hp Hlt; cbn [app] in *.
  - destruct H1 as [Hx Hb]. rewrite Hb in *. destruct l2 as [|c l2]; cbn in H2 |- *.
    + destruct H2 as [Hc _]. by rewrite En, Ep, Hc, !decide_True.
    + destruct H2 as (Hc & Hcb & H2). rewrite En, Ep, Hc, !decide_True by done. split_and!; [done|done|].
      eapply seg_frame; [| |done].
      * intros i Hi. rewrite En, decide_False; [done|]. intros ->. apply NoDup_cons in Hnd as [Hnd _]. set_solver.
      * intros i Hi. rewrite Ep, decide_False; [done|]. rewrite Hc. intros ->.
        rewrite !NoDup_cons in Hnd. set_solver.
  - destruct H1 as (Hx & Ha & H1). cbn.
    assert (prv bl b ∈ a :: l1) as Hp'. { by apply seg_ends in H1 as [_ ?]. }
    apply NoDup_cons in Hnd as [Hnx Hnd].
    rewrite En, Ep, decide_False, decide_False; [split_and!; [done|done|]|..].
    + apply IH; try done; [set_solver|]. intros i Hi. apply Hlt. set_solver.
    + intros ->. apply NoDup_cons in Hnd as [Hna Hnd]. set_solver.
    + intros ->. set_solver.
Qed.

(** Putting a buffer at the front of the list. *)
Definition link_front (b : nat) (bl : list buf) : list buf :=
  let h := nxt bl HEAD in
  alter (set_next b) HEAD (alter (set_prev b) h (alter (set_prev HEAD) b (alter (set_next h) b bl))).

Lemma seg_link_front bl b L :
  seg bl HEAD L HEAD → NoDup (HEAD :: b :: L) → (∀ i, i ∈ HEAD :: b :: L → (i < length bl)%nat) →
  seg (link_front b bl) HEAD (b :: L) HEAD.
Proof.
  intros Hs Hnd Hlt. pose proof (seg_ends _ _ _ _ Hs) as [Hh _].
  assert (HEAD ≠ b ∧ HEAD ∉ L ∧ b ∉ L ∧ NoDup L) as (N1 & N2 & N3 & N4).
  { rewrite !NoDup_cons, not_elem_of_cons in Hnd. tauto. }
  assert (nxt bl HEAD ≠ b) as Hhb by set_solver.
  assert (b < length bl ∧ HEAD < length bl ∧ nxt bl HEAD < length bl)%nat as (L1 & L2 & L3)
    by (split_and!; apply Hlt; set_solver).
  assert (∀ i, nxt (link_front b bl) i = if decide (i = HEAD) then b else if decide (i = b) then nxt bl HEAD else nxt bl i) as En.
  { intros i. unfold link_front. rewrite nxt_set_next by (by rewrite !length_alter). case_decide; [done|].
    rewrite !nxt_alter, nxt_set_next by (by rewrite ?length_alter). done. }
  assert (∀ i, prv (link_front b bl) i = if decide (i = nxt bl HEAD) then b else if decide (i = b) then HEAD else prv bl i) as Ep.
  { intros i. unfold link_front. rewrite prv_alter, prv_set_prev by (by rewrite ?length_alter). case_decide; [done|].
    rewrite prv_set_prev by (by rewrite ?length_alter). case_decide; [done|]. by rewrite prv_alter. }
  generalize dependent (link_front b bl). intros bl' En Ep.
  cbn. rewrite En, decide_True, Ep, decide_False, decide_True by done. split_and!; [done|done|].
  destruct L as [|c L]; cbn in Hs |- *.
  - destruct Hs as [Hc _]. by rewrite En, decide_False, decide_True, Ep, Hc, decide_True by done.
  - destruct Hs as (Hc & _ & Hs). rewrite En, decide_False, decide_True, Ep, decide_True by done.
    split_and!; [done|done|]. rewrite Hc in Hhb. eapply seg_frame; [| |done].
    + intros i Hi. rewrite En, !decide_False; [done|set_solver..].
    + intros i Hi. rewrite Ep, Hc. apply NoDup_cons in N4 as [N4 _]. rewrite !decide_False; [done|set_solver..].
Qed.

(** brelse's update of the links: the buffer moves to the front. *)
Lemma lru_move_front bl L1 b L2 :
  lru bl (L1 ++ b :: L2) → lru (link_front b (unlink b bl)) (b :: L1 ++ L2).
Proof.
  intros (Hs & Hnd & Hlen & Hperm).
  assert (∀ i, i ∈ HEAD :: L1 ++ b :: L2 → (i < length bl)%nat) as Hlt.
  { intros i [->|Hi]%elem_of_cons; [rewrite Hlen; unfold HEAD; lia|].
    rewrite Hperm, elem_of_seq in Hi. lia. }
  pose proof Hs as [Hs1 Hs2]%seg_app. apply NoDup_cons in Hnd as Hnd'. destruct Hnd' as [Hh _].
  assert (length (unlink b bl) = length bl) as Hlu by (unfold unlink; by rewrite !length_alter).
  assert (HEAD :: b :: L1 ++ L2 ≡ₚ HEAD :: L1 ++ b :: L2) as Hp by (by rewrite Permutation_middle).
  split_and!.
  - apply seg_link_front.
    + apply seg_unlink; [done|done|done|done|]. intros i Hi. apply Hlt. set_solver.
    + by rewrite Hp.
    + intros i Hi. rewrite Hlu. apply Hlt. by rewrite <- Hp.
  - by rewrite Hp.
  - unfold link_front. by rewrite !length_alter, Hlu.
  - by rewrite Permutation_middle.
Qed.

(** ** The scans of bget *)

Lemma scan_next fuel f s x l :
  seg (bufs s) x l HEAD → HEAD ∉ l → (length l < fuel)%nat →
  scan_list fuel next f (nxt (bufs s) x) s = find (λ i, f (getb i s)) l.
Proof.
  revert fuel x. induction l as [|b l IH]; intros fuel x Hs Hh Hf; (destruct fuel as [|fuel]; [cbn in Hf; lia|]); cbn.
  - destruct Hs as [-> _]. by rewrite decide_True.
  - destruct Hs as (-> & _ & Hs). apply not_elem_of_cons in Hh as [Hb Hh].
    rewrite decide_False by done. destruct (f (getb b s)); [done|]. cbn in Hf. apply IH; [done|done|lia].
Qed.

Lemma scan_prev fuel f s y l :
  seg (bufs s) HEAD l y → HEAD ∉ l → (length l < fuel)%nat →
  scan_list fuel prev f (prv (bufs s) y) s = find (λ i, f (getb i s)) (reverse l).
Proof.
  revert fuel y. induction l as [|b l IH] using rev_ind; intros fuel y Hs Hh Hf;
    (destruct fuel as [|fuel]; [lia|]); cbn [scan_list].
  - destruct Hs as [_ ->]. by rewrite decide_True.
  - apply seg_app in Hs as [Hs [_ ->]]. rewrite not_elem_of_app, not_elem_of_cons in Hh.
    destruct Hh as (Hh & Hb & _). rewrite decide_False by congruence. rewrite reverse_app. cbn.
    destruct (f (getb b s)); [done|]. rewrite length_app in Hf. cbn in Hf. apply IH; [done|done|lia].
Qed.

(** ** Flags *)

Lemma has_testbit n x : 0 ≤ n → has (2 ^ n) x = Z.testbit x n.
Proof.
  intros Hn. unfold has. destruct (Z.testbit x n) eqn:E.
  - apply negb_true_iff, Z.eqb_neq. intros H0.
    assert (Z.testbit (Z.land x (2 ^ n)) n = true) as H1 by (by rewrite Z.land_spec, E, Z.pow2_bits_true).
    by rewrite H0, Z.bits_0 in H1.
  - apply negb_false_iff, Z.eqb_eq, Z.bits_inj'. intros k Hk. rewrite Z.land_spec, Z.bits_0.
    destruct (decide (k = n)) as [->|]; [by rewrite E|].
    rewrite (Z.pow2_bits_false n k) by lia. apply andb_false_r.
Qed.

Lemma busy_bit b : busy b = Z.testbit (flags b) 0.
Proof. exact (has_testbit 0 (flags b) ltac:(lia)). Qed.
Lemma valid_bit b : valid b = Z.testbit (flags b) 1.
Proof. exact (has_testbit 1 (flags b) ltac:(lia)). Qed.
Lemma dirty_bit b : dirty b = Z.testbit (flags b) 2.
Proof. exact (has_testbit 2 (flags b) ltac:(lia)). Qed.

(** What the flag updates of the code do to the three flags. *)
Ltac flag_bits :=
  rewrite ?busy_bit, ?valid_bit, ?dirty_bit;
  cbn [flags set_flags set_bdata set_dev set_blockno set_next set_prev compose];
  repeat first [rewrite Z.lor_spec | rewrite Z.land_spec | rewrite Z.lnot_spec by lia];
  repeat match goal with
  | |- context [Z.testbit ?c ?n] =>
      first [constr_eq c B_BUSY | constr_eq c B_VALID | constr_eq c B_DIRTY];
      let v := eval vm_compute in (Z.testbit c n) in change (Z.testbit c n) with v
  end;
  rewrite ?orb_true_r, ?orb_false_r, ?andb_true_r, ?andb_false_r; cbn [negb andb orb];
  rewrite ?orb_true_r, ?orb_false_r, ?andb_true_r, ?andb_false_r.

Lemma rw_check b :
  (Z.land (flags b) (Z.lor B_VALID B_DIRTY) =? B_VALID) = valid b && negb (dirty b).
Proof.
  rewrite valid_bit, dirty_bit. apply eq_true_iff_eq. rewrite Z.eqb_eq, andb_true_iff, negb_true_iff.
  change (Z.lor B_VALID B_DIRTY) with 6. unfold B_VALID. split.
  - intros E. assert (∀ k, Z.testbit (Z.land (flags b) 6) k = Z.testbit 2 k) as Hk by (by rewrite E).
    pose proof (Hk 1) as H1. pose proof (Hk 2) as H2. rewrite Z.land_spec in H1, H2. cbn in H1, H2.
    by rewrite andb_true_r in H1, H2.
  - intros [H1 H2]. apply Z.bits_inj'. intros k Hk. rewrite Z.land_spec.
    destruct (decide (k = 1)) as [->|]; [by rewrite H1|]. destruct (decide (k = 2)) as [->|]; [by rewrite H2|].
    assert (Z.testbit 6 k = false ∧ Z.testbit 2 k = false) as [-> ->]; [|apply andb_false_r].
    assert (k = 0 ∨ 3 ≤ k) as [->|] by lia; [done|]. split; apply Z.bits_above_log2; cbn; lia.
Qed.

(** ** The abstract cache *)

Definition DEV : Z := 1.          (* ROOTDEV, the device of the file system *)

(** [V] is the contents of every block as a reader sees it, [H] the buffers
    the running process holds (with their block numbers) and [P] the blocks
    whose newest contents are only in the cache. *)
Record bcache_ok (s : bst) (V : Z → list Z) (H : gmap nat Z) (P : gset Z) : Prop := {
  bo_lru : ∃ L, lru (bufs s) L;
  bo_used i : (i < NBUF)%nat →
    (dev (getb i s) ≠ DEV ∧ flags (getb i s) = 0) ∨
    (dev (getb i s) = DEV ∧ valid (getb i s) = true ∧ 0 ≤ blockno (getb i s) < Z.of_nat (length (disk s)));
  bo_uniq i j : (i < NBUF)%nat → (j < NBUF)%nat → dev (getb i s) = DEV → dev (getb j s) = DEV →
    blockno (getb i s) = blockno (getb j s) → i = j;
  bo_busy i : (i < NBUF)%nat → busy (getb i s) = true ↔ is_Some (H !! i);
  bo_held i bn : H !! i = Some bn → (i < NBUF)%nat ∧ dev (getb i s) = DEV ∧ blockno (getb i s) = bn;
  bo_data i : (i < NBUF)%nat → H !! i = None → dev (getb i s) = DEV →
    bdata (getb i s) = V (blockno (getb i s));
  bo_dirty i : (i < NBUF)%nat → dev (getb i s) = DEV →
    dirty (getb i s) = bool_decide (blockno (getb i s) ∈ P);
  bo_pinned bn : bn ∈ P → ∃ i, (i < NBUF)%nat ∧ dev (getb i s) = DEV ∧ blockno (getb i s) = bn;
  bo_disk bn : 0 ≤ bn < Z.of_nat (length (disk s)) → bn ∉ P → disk s !! Z.to_nat bn = Some (V bn)
}.

Lemma getb_upd i f s j :
  (i < length (bufs s))%nat →
  getb j (set_bufs (alter f i (bufs s)) s) = if decide (j = i) then f (getb i s) else getb j s.
Proof.
  intros Hi. unfold getb. cbn. destruct (decide (j = i)) as [->|Hne].
  - rewrite list_lookup_alter_eq. destruct (lookup_lt_is_Some_2 _ _ Hi) as [p ->]. done.
  - by rewrite list_lookup_alter_ne.
Qed.

Lemma lru_length bl L : lru bl L → length bl = S NBUF.
Proof. by intros (_ & _ & ? & _). Qed.

Lemma bcache_length s V H P : bcache_ok s V H P → length (bufs s) = S NBUF.
Proof. intros [(L & HL) _]. by eapply lru_length. Qed.

(** Updates that do not touch the links. *)
Lemma lru_alter bl L i f :
  lru bl L → (∀ b, next (f b) = next b) → (∀ b, prev (f b) = prev b) → (i < length bl)%nat → lru (alter f i bl) L.
Proof.
  intros (Hs & Hnd & Hlen & Hp) Hn Hpv Hi. split_and!; [|done|by rewrite length_alter|done].
  eapply seg_frame; [| |done]; intros; [by rewrite nxt_alter|by rewrite prv_alter].
Qed.

Lemma lru_elem bl L i : lru bl L → i ∈ L ↔ (i < NBUF)%nat.
Proof. intros (_ & _ & _ & ->). rewrite elem_of_seq. lia. Qed.

(** ** Running the operations *)

Lemma bb_acquire lk s : lk ∉ held (bc s) →
  bb (pacquire lk) s = Ret tt (set_bc (set_held (lk :: held (bc s)) (bc s)) s).
Proof. intros. unfold bb. by rewrite (zoom_Ret _ _ _ _ tt _ (pacquire_ok _ _ H)). Qed.

Lemma bb_release lk s h : held (bc s) = lk :: h → bb (prelease lk) s = Ret tt (set_bc (set_held h (bc s)) s).
Proof. intros. unfold bb. by rewrite (zoom_Ret _ _ _ _ tt _ (prelease_ok _ _ _ H)). Qed.

Lemma set_bc_twice c c' s : set_bc c (set_bc c' s) = set_bc c s.
Proof. done. Qed.

Lemma set_bc_same s : set_bc (bc s) s = s.
Proof. by destruct s. Qed.

(** The state of the cache as bget leaves it: buffer [i] reserved for [bn]. *)
Definition take_cached (x : buf) : buf := set_flags (Z.lor (flags x) B_BUSY) x.
Definition recycle (d bn : Z) (x : buf) : buf := set_flags B_BUSY (set_blockno bn (set_dev d x)).

Lemma scan_state fuel st f b s c : scan_list fuel st f b (set_bc c s) = scan_list fuel st f b s.
Proof. revert b. induction fuel as [|fuel IH]; intros b; [done|]. cbn. by rewrite IH. Qed.

Lemma scan_first f s L : lru (bufs s) L →
  scan_list (S NBUF) next f (next (getb HEAD s)) s = find (λ i, f (getb i s)) L.
Proof.
  intros (Hs & Hnd & Hlen & Hp). apply NoDup_cons in Hnd as [Hh _].
  apply (scan_next (S NBUF) f s HEAD L Hs Hh). rewrite Hp, length_seq. lia.
Qed.

Lemma scan_last f s L : lru (bufs s) L →
  scan_list (S NBUF) prev f (prev (getb HEAD s)) s = find (λ i, f (getb i s)) (reverse L).
Proof.
  intros (Hs & Hnd & Hlen & Hp). apply NoDup_cons in Hnd as [Hh _].
  apply (scan_prev (S NBUF) f s HEAD L Hs Hh). rewrite Hp, length_seq. lia.
Qed.

Lemma bget_hit w d bn s L i :
  lru (bufs s) L → Lbcache ∉ held (bc s) →
  find (λ i, cached d bn (getb i s)) L = Some i → busy (getb i s) = false →
  bget (S w) d bn s = Ret i (set_bufs (alter take_cached i (bufs s)) s).
Proof.
  intros HL Hlk Hf Hb. unfold bget. rewrite (bind_Ret _ _ _ _ _ (bb_acquire _ _ Hlk)).
  set (s1 := set_bc _ s). cbn [bget_loop]. unfold bind at 1, gets at 1. cbn [obind].
  subst s1. rewrite scan_state. change (getb HEAD (set_bc _ s)) with (getb HEAD s).
  rewrite (scan_first _ _ L), Hf by done. unfold bind at 1, bget_field, gets. cbn [obind].
  change (getb i (set_bc _ s)) with (getb i s). rewrite Hb. cbn [negb].
  unfold bind at 1, bupd, modify. cbn [obind].
  erewrite bind_Ret; [|apply (bb_release _ _ (held (bc s))); reflexivity].
  unfold ret. cbn. f_equal. unfold set_bufs, set_bc; cbn. f_equal. by apply set_held_back.
Qed.

Lemma bget_miss w d bn s L i :
  lru (bufs s) L → Lbcache ∉ held (bc s) →
  find (λ i, cached d bn (getb i s)) L = None → find (λ i, clean (getb i s)) (reverse L) = Some i →
  bget (S w) d bn s = Ret i (set_bufs (alter (recycle d bn) i (bufs s)) s).
Proof.
  intros HL Hlk Hf Hc. unfold bget. rewrite (bind_Ret _ _ _ _ _ (bb_acquire _ _ Hlk)).
  cbn [bget_loop]. unfold bind at 1, gets at 1. cbn [obind].
  rewrite scan_state. change (getb HEAD (set_bc _ s)) with (getb HEAD s).
  rewrite (scan_first _ _ L), Hf by done. unfold bind at 1, gets. cbn [obind].
  rewrite scan_state. change (getb HEAD (set_bc _ s)) with (getb HEAD s).
  rewrite (scan_last _ _ L), Hc by done. unfold bind at 1, bupd, modify. cbn [obind].
  erewrite bind_Ret; [|apply (bb_release _ _ (held (bc s))); reflexivity].
  unfold ret. cbn. f_equal. unfold set_bufs, set_bc; cbn. f_equal. by apply set_held_back.
Qed.

(** The state after an update of buffer [i]. *)
Definition others (i : nat) (f : buf → buf) (s : bst) : bst := set_bufs (alter f i (bufs s)) s.

Lemma others_twice i f g s : others i g (others i f s) = others i (g ∘ f) s.
Proof. unfold others, set_bufs; cbn. by rewrite list_alter_alter_eq. Qed.

Lemma iderw_read s i :
  busy (getb i s) = true → valid (getb i s) = false → dirty (getb i s) = false → dev (getb i s) = 1 →
  blockno (getb i s) < Z.of_nat (length (disk s)) →
  iderw i s = Ret tt (others i (λ b, set_flags (Z.lor (flags b) B_VALID)
    (set_bdata (default [] (disk s !! Z.to_nat (blockno (getb i s)))) b)) s).
Proof.
  intros Hb Hv Hd Hdev Hbn. unfold iderw. unfold bind at 1, gets at 1. cbn [obind].
  rewrite Hb, rw_check, Hv, Hd, Hdev. unfold bind, gets, ret, bupd, modify. cbn.
  rewrite (proj2 (Z.leb_gt _ _)) by done. cbn.
  unfold others, set_bufs, set_disk, set_hist; cbn. by rewrite list_alter_alter_eq.
Qed.

Lemma iderw_write s i :
  busy (getb i s) = true → dirty (getb i s) = true → dev (getb i s) = 1 →
  blockno (getb i s) < Z.of_nat (length (disk s)) →
  iderw i s = Ret tt (mk_bst (bc s)
    (alter (λ b, set_flags (Z.lor (Z.land (flags b) (Z.lnot B_DIRTY)) B_VALID) b) i (bufs s))
    (<[Z.to_nat (blockno (getb i s)) := bdata (getb i s)]> (disk s)) (disk s :: hist s)).
Proof.
  intros Hb Hd Hdev Hbn. unfold iderw. unfold bind at 1, gets at 1. cbn [obind].
  rewrite Hb, rw_check, Hd, Hdev, andb_false_r. unfold bind, gets, ret, bupd, modify. cbn.
  rewrite (proj2 (Z.leb_gt _ _)) by done. cbn.
  unfold others, set_bufs, set_disk, set_hist; cbn. by rewrite list_alter_alter_eq.
Qed.

(** ** bread *)

(** Reserving buffer [i] for block [bn] keeps the cache's invariant. *)
Lemma bcache_hold s V H P i f bn :
  bcache_ok s V H P → (i < NBUF)%nat → H !! i = None → 0 ≤ bn < Z.of_nat (length (disk s)) →
  (∀ b, next (f b) = next b) → (∀ b, prev (f b) = prev b) →
  let b := f (getb i s) in
  dev b = DEV → blockno b = bn → valid b = true → busy b = true → dirty b = bool_decide (bn ∈ P) →
  (∀ j, (j < NBUF)%nat → j ≠ i → dev (getb j s) = DEV → blockno (getb j s) ≠ bn) →
  (dirty (getb i s) = true → dev (getb i s) = DEV → blockno (getb i s) = bn) →
  bcache_ok (others i f s) V (<[i := bn]> H) P.
Proof.
  intros Hok Hi HH Hbn Hn Hp b Hd Hb Hv Hbu Hdi Huniq Hold. destruct Hok as [[L HL] O2 O3 O4 O5 O6 O7 O8 O9].
  pose proof (lru_length _ _ HL) as Hlen.
  assert (∀ j, getb j (others i f s) = if decide (j = i) then b else getb j s) as G
    by (intros j; apply getb_upd; lia).
  split; cbn [disk set_bufs others].
  - exists L. apply lru_alter; [done|done|done|lia].
  - intros j Hj. rewrite G. destruct (decide (j = i)); [right; rewrite Hd, Hv, Hb; done|by apply O2].
  - intros j k Hj Hk. rewrite !G. destruct (decide (j = i)), (decide (k = i)); subst; try done.
    + intros _ ? ?. exfalso. by eapply (Huniq k).
    + intros ? _ ?. exfalso. by eapply (Huniq j).
    + by apply O3.
  - intros j Hj. rewrite G. destruct (decide (j = i)) as [E|E]; [subst j; rewrite Hbu, lookup_insert_eq; naive_solver|].
    rewrite lookup_insert_ne by done. by apply O4.
  - intros j k. rewrite G. destruct (decide (j = i)) as [E|E].
    + subst j. rewrite lookup_insert_eq. intros [= <-]. done.
    + rewrite lookup_insert_ne by done. apply O5.
  - intros j Hj. rewrite G. destruct (decide (j = i)) as [E|E]; [subst j; by rewrite lookup_insert_eq|].
    rewrite lookup_insert_ne by done. by apply O6.
  - intros j Hj. rewrite G. destruct (decide (j = i)) as [E|E]; [by rewrite Hdi, Hb|]. by apply O7.
  - intros k Hk. destruct (O8 k Hk) as (j & Hj & Hdv & Hbk). destruct (decide (j = i)) as [->|].
    + exists i. rewrite G, decide_True by done. split_and!; [done|done|].
      rewrite Hb. rewrite <- Hbk, Hold; [done|rewrite O7 by done; rewrite Hbk; by apply bool_decide_eq_true|done].
    + exists j. by rewrite G, decide_False.
  - done.
Qed.

Lemma find_Some_elem {A} (f : A → bool) l x : find f l = Some x → x ∈ l ∧ f x = true.
Proof. intros Hf. apply find_some in Hf as [? ?]. by rewrite list_elem_of_In. Qed.

Lemma find_None_elem {A} (f : A → bool) l : find f l = None → ∀ x, x ∈ l → f x = false.
Proof. intros Hf x Hx. eapply find_none; [done|by rewrite <- list_elem_of_In]. Qed.

(** The buffers that are busy or dirty are at most as many as the held and the
    pinned blocks, so that a clean one is left. *)
Lemma clean_left s V H P :
  bcache_ok s V H P → (size H + size P < NBUF)%nat → ∃ i, (i < NBUF)%nat ∧ clean (getb i s) = true.
Proof.
  intros Hok Hsz. destruct (find (λ i, clean (getb i s)) (seq 0 NBUF)) as [i|] eqn:E.
  { apply find_Some_elem in E as [Hi Hc]. rewrite elem_of_seq in Hi. exists i. split; [lia|done]. }
  exfalso. pose proof (find_None_elem _ _ E) as Hall. clear E.
  pose proof Hok as [[L HL] O2 O3 O4 O5 O6 O7 O8 O9].
  set (B := filter (λ i, busy (getb i s) = true) (seq 0 NBUF)).
  set (D := filter (λ i, ¬ busy (getb i s) = true) (seq 0 NBUF)).
  assert (length B + length D = NBUF)%nat as Hlen.
  { rewrite <- (length_seq NBUF 0). subst B D. generalize (seq 0 NBUF). intros l.
    induction l as [|x l IH]; [done|]. rewrite !filter_cons. repeat case_decide; cbn; try tauto; lia. }
  assert (length B ≤ size H)%nat.
  { rewrite <- size_dom. rewrite <- (size_list_to_set (C := gset nat) B) by (apply NoDup_filter, NoDup_seq).
    apply subseteq_size. intros i Hi%elem_of_list_to_set. apply list_elem_of_filter in Hi as [Hb Hi].
    rewrite elem_of_seq in Hi. apply elem_of_dom, O4; [lia|done]. }
  assert (∀ i, i ∈ D → (i < NBUF)%nat ∧ dev (getb i s) = DEV ∧ blockno (getb i s) ∈ P) as HD.
  { intros i Hi. apply list_elem_of_filter in Hi as [Hb Hi]. pose proof (Hall i Hi) as Hc.
    rewrite elem_of_seq in Hi. split; [lia|]. unfold clean in Hc. apply not_true_is_false in Hb. rewrite Hb in Hc.
    destruct (dirty (getb i s)) eqn:Hd; [|done].
    destruct (O2 i) as [[_ Hf]|(Hdev & _)]; [lia| |].
    - by rewrite dirty_bit, Hf in Hd.
    - split; [done|]. rewrite O7 in Hd by (done || lia). by apply bool_decide_eq_true in Hd. }
  assert (length D ≤ size P)%nat; [|lia].
  rewrite <- (length_fmap (λ i, blockno (getb i s)) D).
  rewrite <- (size_list_to_set (C := gset Z)).
  - apply subseteq_size. intros k Hk%elem_of_list_to_set. apply list_elem_of_fmap in Hk as (i & -> & Hi). by apply HD.
  - apply NoDup_fmap_2_strong; [|apply NoDup_filter, NoDup_seq].
    intros i j Hi Hj Heq. destruct (HD i Hi) as (? & ? & _). destruct (HD j Hj) as (? & ? & _). by apply O3.
Qed.

Lemma bread_run w s V H P bn :
  bcache_ok s V H P → Lbcache ∉ held (bc s) → 0 ≤ bn < Z.of_nat (length (disk s)) →
  (∀ j, H !! j ≠ Some bn) → bn ∈ P ∨ (size H + size P < NBUF)%nat →
  ∃ i f, bread (S w) DEV bn s = Ret i (others i f s) ∧ H !! i = None ∧
    bcache_ok (others i f s) V (<[i := bn]> H) P ∧ bdata (getb i (others i f s)) = V bn ∧
    (∀ j, j ≠ i → getb j (others i f s) = getb j s).
Proof.
  intros Hok Hlk Hbn HHb Hsz. pose proof Hok as [[L HL] O2 O3 O4 O5 O6 O7 O8 O9].
  pose proof (lru_length _ _ HL) as Hlen. unfold bread.
  assert (∀ i f j, (i < NBUF)%nat → getb j (others i f s) = if decide (j = i) then f (getb i s) else getb j s) as G
    by (intros i f j ?; apply getb_upd; lia).
  destruct (find (λ i, cached DEV bn (getb i s)) L) as [i|] eqn:Ef.
  - pose proof (find_Some_elem _ _ _ Ef) as [Hi Hc]. rewrite (lru_elem _ _ _ HL) in Hi.
    unfold cached in Hc. apply andb_prop in Hc as [Hcd Hcb]. apply Z.eqb_eq in Hcd, Hcb. destruct (O2 i Hi) as [[? _]|(_ & Hv & _)]; [done|].
    assert (busy (getb i s) = false) as Hbu.
    { apply not_true_is_false. intros Hbu. apply O4 in Hbu as [k Hk]; [|done].
      pose proof (O5 _ _ Hk) as (_ & _ & ?). apply (HHb i). congruence. }
    assert (H !! i = None) as Hnone by (apply eq_None_not_Some; intros HS%O4; [congruence|done]).
    rewrite (bind_Ret _ _ _ _ _ (bget_hit _ _ _ _ _ _ HL Hlk Ef Hbu)).
    exists i, take_cached. fold (others i take_cached s).
    assert (valid (take_cached (getb i s)) = true) as Hv'.
    { unfold take_cached. revert Hv. flag_bits. by intros ->. }
    split_and!; [..|done| | |].
    + unfold bind, bget_field, gets, ret. cbn. by rewrite G, decide_True, Hv' by done.
    + apply bcache_hold; try done.
      * unfold take_cached. by flag_bits.
      * rewrite <- Hcb, <- (O7 i) by done. unfold take_cached. by flag_bits.
      * intros j Hj Hne ? ?. apply Hne, O3; congruence.
    + rewrite G, decide_True by done. cbn. rewrite O6 by done. congruence.
    + intros j Hne. by rewrite G, decide_False.
  - assert (∀ j, (j < NBUF)%nat → dev (getb j s) = DEV → blockno (getb j s) ≠ bn) as Hunc.
    { intros j Hj Hd Hbj. eapply find_None_elem in Ef; [|by apply (lru_elem _ _ _ HL)].
      unfold cached in Ef. rewrite Hd, Hbj, !Z.eqb_refl in Ef. done. }
    assert (bn ∉ P) as HP by (intros (j & ? & ? & ?)%O8; by eapply Hunc).
    destruct Hsz as [?|Hsz]; [done|].
    destruct (clean_left _ _ _ _ Hok Hsz) as (i0 & Hi0 & Hc0).
    destruct (find (λ i, clean (getb i s)) (reverse L)) as [i|] eqn:Ec; cycle 1.
    { exfalso. eapply find_None_elem in Ec; [|rewrite elem_of_reverse; by apply (lru_elem _ _ _ HL)]. congruence. }
    pose proof (find_Some_elem _ _ _ Ec) as [Hi Hcl]. rewrite elem_of_reverse, (lru_elem _ _ _ HL) in Hi.
    unfold clean in Hcl. bools.
    assert (H !! i = None) as Hnone by (apply eq_None_not_Some; intros HS%O4; [congruence|done]).
    rewrite (bind_Ret _ _ _ _ _ (bget_miss _ _ _ _ _ _ HL Hlk Ef Ec)).
    fold (others i (recycle DEV bn) s).
    unfold bind at 1, bget_field, gets at 1. cbn [obind]. rewrite G, decide_True by done.
    change (valid (recycle DEV bn (getb i s))) with false. cbn [negb].
    erewrite bind_Ret; [|apply iderw_read; rewrite G, decide_True by done; first [done|apply Hbn]].
    eexists i, _. unfold ret. rewrite G, decide_True, others_twice by done.
    split_and!; [reflexivity|done|..].
    + apply (bcache_hold s V H P i _ bn); try done.
      * rewrite bool_decide_eq_false_2 by done. done.
      * intros; by apply Hunc.
      * intros; congruence.
    + rewrite G, decide_True by done. cbn. by rewrite O9.
    + intros j Hne. by rewrite G, decide_False.
Qed.

(** ** Updates of held buffers *)

Lemma getb_others i f s j : (i < length (bufs s))%nat →
  getb j (others i f s) = if decide (j = i) then f (getb i s) else getb j s.
Proof. apply getb_upd. Qed.

(** Writing the data of a held buffer. *)
Lemma bcache_set_data s V H P i bn d :
  bcache_ok s V H P → H !! i = Some bn → bcache_ok (others i (set_bdata d) s) V H P.
Proof.
  intros Hok HH. pose proof (bcache_length _ _ _ _ Hok) as Hlen. destruct Hok as [[L HL] O2 O3 O4 O5 O6 O7 O8 O9].
  destruct (O5 _ _ HH) as (Hi & _).
  assert (∀ {A} (g : buf → A) j, (∀ b, g (set_bdata d b) = g b) → g (getb j (others i (set_bdata d) s)) = g (getb j s)) as G.
  { intros A g j Hg. rewrite getb_others by lia. destruct (decide (j = i)) as [->|]; [apply Hg|done]. }
  split; cbn [disk set_bufs others].
  - exists L. apply lru_alter; [done..|lia].
  - intros j Hj. rewrite !(G _ dev), !(G _ flags), !(G _ valid), !(G _ blockno) by done. by apply O2.
  - intros j k Hj Hk. rewrite !(G _ dev), !(G _ blockno) by done. by apply O3.
  - intros j Hj. rewrite (G _ busy) by done. by apply O4.
  - intros j k Hk. rewrite (G _ dev), (G _ blockno) by done. by apply O5.
  - intros j Hj Hn. rewrite (G _ dev), (G _ blockno) by done. rewrite getb_others by lia.
    rewrite decide_False by congruence. by apply O6.
  - intros j Hj. rewrite (G _ dev), (G _ blockno), (G _ dirty) by done. by apply O7.
  - intros k Hk. destruct (O8 k Hk) as (j & ?). exists j. by rewrite (G _ dev), (G _ blockno) by done.
  - done.
Qed.

(** Changing the flags of a held buffer for block [bn] so that it is dirty as
    [P'] says, with the disk [dk] holding the blocks outside of [P']; the
    reader's view of [bn] becomes the buffer's contents. *)
Lemma bcache_flags s V H P P' i bn f dk hs :
  bcache_ok s V H P → H !! i = Some bn →
  (∀ b, next (f b) = next b ∧ prev (f b) = prev b ∧ dev (f b) = dev b ∧ blockno (f b) = blockno b ∧
        bdata (f b) = bdata b ∧ busy (f b) = busy b ∧ (valid b = true → valid (f b) = true)) →
  dirty (f (getb i s)) = bool_decide (bn ∈ P') → (∀ k, k ≠ bn → k ∈ P' ↔ k ∈ P) →
  length dk = length (disk s) →
  (∀ k, 0 ≤ k < Z.of_nat (length (disk s)) → k ∉ P' →
     dk !! Z.to_nat k = Some ((<[bn := bdata (getb i s)]> V) k)) →
  bcache_ok (mk_bst (bc s) (alter f i (bufs s)) dk hs) (<[bn := bdata (getb i s)]> V) H P'.
Proof.
  intros Hok HH Hf Hd HP Hlen Hdk. pose proof (bcache_length _ _ _ _ Hok) as Hbl.
  destruct Hok as [[L HL] O2 O3 O4 O5 O6 O7 O8 O9]. destruct (O5 _ _ HH) as (Hi & Hdv & Hbn).
  set (s' := mk_bst _ _ _ _).
  assert (∀ j, getb j s' = if decide (j = i) then f (getb i s) else getb j s) as G0
    by (intros j; apply (getb_upd i f s j); lia).
  assert (∀ {A} (g : buf → A) j, (∀ b, g (f b) = g b) → g (getb j s') = g (getb j s)) as G.
  { intros A g j Hg. rewrite G0. destruct (decide (j = i)) as [->|]; [apply Hg|done]. }
  assert (∀ j, dev (getb j s') = dev (getb j s)) as Gd by (intros; apply G; apply Hf).
  assert (∀ j, blockno (getb j s') = blockno (getb j s)) as Gb by (intros; apply G; apply Hf).
  split; cbn [disk s'].
  - exists L. apply lru_alter; [done|apply Hf|apply Hf|lia].
  - intros j Hj. rewrite Hlen, Gd, Gb, !G0. destruct (decide (j = i)) as [->|]; [|by apply O2].
    right. destruct (O2 i Hj) as [[? _]|(? & ? & ?)]; [done|]. split_and!; try tauto. by apply Hf.
  - intros j k Hj Hk. rewrite !Gd, !Gb. by apply O3.
  - intros j Hj. rewrite (G _ busy) by apply Hf. by apply O4.
  - intros j k Hk. rewrite Gd, Gb. by apply O5.
  - intros j Hj Hn. rewrite Gd, Gb. intros Hdj. rewrite (G _ bdata) by apply Hf.
    rewrite fn_lookup_insert_ne; [by apply O6|]. intros E. assert (j = i) by (apply O3; congruence). congruence.
  - intros j Hj. rewrite Gd, Gb, G0. destruct (decide (j = i)) as [->|Hne]; [by rewrite Hd, Hbn|].
    intros Hdj. rewrite O7 by done. apply bool_decide_ext. symmetry. apply HP.
    intros E. apply Hne, O3; congruence.
  - intros k Hk. destruct (decide (k = bn)) as [->|Hne].
    + exists i. by rewrite Gd, Gb.
    + destruct (O8 k) as (j & ?); [by apply HP|]. exists j. by rewrite Gd, Gb.
  - rewrite Hlen. done.
Qed.

(** log_write's pinning of a buffer. *)
Definition set_dirty (x : buf) : buf := set_flags (Z.lor (flags x) B_DIRTY) x.

Lemma bcache_pin s V H P i bn :
  bcache_ok s V H P → H !! i = Some bn →
  bcache_ok (others i set_dirty s) (<[bn := bdata (getb i s)]> V) H ({[bn]} ∪ P).
Proof.
  intros Hok HH. eapply bcache_flags; [done|done|..].
  - intros b. unfold set_dirty. split_and!; try done; flag_bits; done.
  - rewrite bool_decide_eq_true_2 by set_solver. unfold set_dirty. by flag_bits.
  - set_solver.
  - done.
  - intros k Hk Hn. rewrite fn_lookup_insert_ne by set_solver. apply (bo_disk _ _ _ _ Hok); [done|set_solver].
Qed.

Lemma bwrite_run s V H P i bn :
  bcache_ok s V H P → H !! i = Some bn →
  ∃ s', bwrite i s = Ret tt s' ∧ bcache_ok s' (<[bn := bdata (getb i s)]> V) H (P ∖ {[bn]}) ∧
    disk s' = <[Z.to_nat bn := bdata (getb i s)]> (disk s) ∧ hist s' = disk s :: hist s ∧ bc s' = bc s ∧
    (∀ j, bdata (getb j s') = bdata (getb j s)).
Proof.
  intros Hok HH. pose proof (bcache_length _ _ _ _ Hok) as Hlen.
  destruct (bo_held _ _ _ _ Hok _ _ HH) as (Hi & Hdv & Hbn).
  assert (busy (getb i s) = true) as Hbu by (apply (bo_busy _ _ _ _ Hok); [done|by rewrite HH]).
  assert (0 ≤ bn < Z.of_nat (length (disk s))) as Hr.
  { destruct (bo_used _ _ _ _ Hok i Hi) as [[? _]|(_ & _ & ?)]; [done|congruence]. }
  unfold bwrite. unfold bind at 1, bget_field, gets. cbn [obind]. rewrite Hbu. cbn [negb].
  unfold bind at 1, ret. cbn [obind]. unfold bind at 1, bupd, modify. cbn [obind].
  change (iderw i _) with (iderw i (others i set_dirty s)).
  assert (getb i (others i set_dirty s) = set_dirty (getb i s)) as Gi
    by (by rewrite getb_others, decide_True by lia).
  assert (dirty (set_dirty (getb i s)) = true) as Hdirty by (unfold set_dirty; by flag_bits).
  assert (busy (set_dirty (getb i s)) = true) as Hbusy by (revert Hbu; unfold set_dirty; flag_bits; done).
  rewrite iderw_write; rewrite ?Gi; try done; [|cbn; rewrite Hbn; apply Hr].
  eexists. split; [reflexivity|]. cbn [bc bufs disk hist others set_bufs].
  cbn [blockno bdata set_dirty set_flags]. rewrite list_alter_alter_eq, Hbn.
  split_and!; try done.
  - eapply bcache_flags; [done|done|..].
    + intros b. unfold set_dirty. cbn. split_and!; try done; flag_bits; done.
    + rewrite bool_decide_eq_false_2 by set_solver. unfold set_dirty; cbn. by flag_bits.
    + set_solver.
    + apply length_insert.
    + intros k Hk Hn. destruct (decide (k = bn)) as [->|Hne].
      * rewrite fn_lookup_insert, list_lookup_insert_eq by lia. done.
      * rewrite fn_lookup_insert_ne, list_lookup_insert_ne by (done || lia).
        apply (bo_disk _ _ _ _ Hok); [done|set_solver].
  - intros j. unfold getb; cbn. rewrite (alter_at _ bdata) by lia. by destruct (decide (j = i)).
Qed.

(** ** brelse *)

Lemma alter_same {A} (g : buf → A) f k (bl : list buf) i :
  (∀ b, g (f b) = g b) → g (default buf0 (alter f k bl !! i)) = g (default buf0 (bl !! i)).
Proof.
  intros Hg. destruct (decide (i = k)) as [->|].
  - rewrite list_lookup_alter_eq. destruct (bl !! k); cbn; [apply Hg|done].
  - by rewrite list_lookup_alter_ne.
Qed.

Lemma relink_same {A} (g : buf → A) b (bl : list buf) i :
  (∀ v x, g (set_next v x) = g x) → (∀ v x, g (set_prev v x) = g x) →
  g (default buf0 (link_front b (unlink b bl) !! i)) = g (default buf0 (bl !! i)).
Proof. intros Hn Hp. unfold link_front, unlink. by rewrite !alter_same. Qed.

Lemma seg_next_ne bl x l1 b l2 y : seg bl x (l1 ++ b :: l2) y → b ∉ l2 ++ [y] → nxt bl b ≠ b.
Proof. intros [_ Hs]%seg_app Hb E. apply seg_ends in Hs as [Hs _]. rewrite E in Hs. done. Qed.

(** The processes a wakeup made runnable are all that changed. *)
Definition woke (c c' : core) : Prop :=
  ∃ l, c' = set_ptable l c ∧
    Forall2 (λ p q, q = p ∨ state p = SLEEPING ∧ q = set_state RUNNABLE p) (ptable c) l.

Lemma woke_refl c : woke c c.
Proof.
  exists (ptable c). split; [by destruct c|]. apply Forall_Forall2_diag, Forall_forall. by left.
Qed.

Lemma woke_trans c1 c2 c3 : woke c1 c2 → woke c2 c3 → woke c1 c3.
Proof.
  intros (l1 & -> & H1) (l2 & -> & H2). exists l2. split; [by destruct c1|]. cbn in H2.
  revert l2 H2. induction H1 as [|p q l l' Hpq _ IH]; intros l2 H2;
    inversion H2 as [|? r ? ? Hqr]; subst; constructor; [|by apply IH].
  destruct Hpq as [->|[? ->]]; [done|]. right. destruct Hqr as [->|[? _]]; done.
Qed.

Lemma woke_wake ch c : woke c (set_ptable (wake ch <$> ptable c) c).
Proof.
  exists (wake ch <$> ptable c). split; [done|]. apply Forall2_fmap_r, Forall_Forall2_diag, Forall_forall.
  intros p _. unfold compose, wake. destruct (bool_decide (state p = SLEEPING)) eqn:E; [|by left].
  bools. destruct (bool_decide _); [by right|by left].
Qed.

Lemma woke_held c c' : woke c c' → held c' = held c.
Proof. by intros (l & -> & _). Qed.

Definition clear_busy (x : buf) : buf := set_flags (Z.land (flags x) (Z.lnot B_BUSY)) x.

Lemma brelse_steps s L i :
  lru (bufs s) L → (i < NBUF)%nat → busy (getb i s) = true → Lbcache ∉ held (bc s) → Lptable ∉ held (bc s) →
  brelse i s = Ret tt (mk_bst (set_ptable (wake (Some (ChBuf i)) <$> ptable (bc s)) (bc s))
    (alter clear_busy i (link_front i (unlink i (bufs s)))) (disk s) (hist s)).
Proof.
  intros HL Hi Hbu Hl1 Hl2. pose proof HL as (Hs & Hnd & Hlen & Hp).
  assert (i ≠ HEAD) as Hih by (unfold HEAD; lia).
  assert (nxt (bufs s) i ≠ i) as Hni.
  { assert (i ∈ L) as Hin by (by apply (lru_elem _ _ _ HL)). apply list_elem_of_split in Hin as (l1 & l2 & ->).
    eapply seg_next_ne; [exact Hs|]. apply NoDup_cons in Hnd as [_ Hnd].
    apply NoDup_app in Hnd as (_ & _ & Hnd). apply NoDup_cons in Hnd as [Hnd _].
    rewrite not_elem_of_app, list_elem_of_singleton. done. }
  unfold brelse. unfold bind at 1, bget_field, gets. cbn [obind]. rewrite Hbu. cbn [negb].
  unfold bind at 1, ret. cbn [obind].
  rewrite (bind_Ret _ _ _ _ _ (bb_acquire _ _ Hl1)).
  unfold bupd, modify. unfold bind at 1. cbn [obind]. unfold bind at 1. cbn [obind].
  set (bl1 := alter (set_prev (prev (getb i (set_bc _ s)))) _ _).
  unfold bind at 1. cbn [obind].
  assert (∀ c, getb i (set_bufs bl1 (set_bc c s)) = getb i s) as G1.
  { intros c. unfold getb, bl1; cbn. rewrite list_lookup_alter_ne; [done|]. exact Hni. }
  rewrite G1. unfold bind at 1. cbn [obind].
  change (bufs (set_bufs bl1 _)) with bl1.
  change (alter (set_next (next (getb i s))) (prev (getb i s)) bl1) with (unlink i (bufs s)).
  unfold bind at 1. cbn [obind]. unfold bind at 1. cbn [obind]. unfold bind at 1. cbn [obind].
  unfold bind at 1. cbn [obind]. unfold bind at 1. cbn [obind]. unfold bind at 1. cbn [obind].
  unfold bind at 1. cbn [obind].
  erewrite bind_Ret; cycle 1.
  { unfold bb. eapply zoom_Ret, wakeup_run. cbn. rewrite not_elem_of_cons. done. }
  erewrite bb_release; [|reflexivity].
  f_equal. unfold getb, set_bc, set_bufs; cbn.
  rewrite !list_lookup_alter_ne by done. f_equal. by destruct (bc s) as [[] ].
Qed.

Lemma brelse_run s V H P i bn :
  bcache_ok s V H P → H !! i = Some bn → bdata (getb i s) = V bn →
  Lbcache ∉ held (bc s) → Lptable ∉ held (bc s) →
  ∃ s', brelse i s = Ret tt s' ∧ bcache_ok s' V (delete i H) P ∧ woke (bc s) (bc s') ∧
    disk s' = disk s ∧ hist s' = hist s ∧ (∀ j, bdata (getb j s') = bdata (getb j s)) ∧
    (∀ L1 L2, lru (bufs s) (L1 ++ i :: L2) → lru (bufs s') (i :: L1 ++ L2)).
Proof.
  intros Hok HH Hdata Hl1 Hl2. pose proof Hok as [[L HL] O2 O3 O4 O5 O6 O7 O8 O9].
  destruct (O5 _ _ HH) as (Hi & Hdv & Hbn).
  assert (busy (getb i s) = true) as Hbu by (apply O4; [done|by rewrite HH]).
  eexists. split; [by eapply brelse_steps|]. cbn [bc disk hist].
  set (s' := mk_bst _ _ _ _).
  assert (∀ {A} (g : buf → A) j, (∀ v x, g (set_next v x) = g x) → (∀ v x, g (set_prev v x) = g x) →
    g (getb j s') = g (if decide (j = i) then clear_busy (getb i s) else getb j s)) as G.
  { intros A g j Hn Hp. unfold getb, s'. cbn [bufs]. rewrite (alter_at _ g).
    - destruct (decide (j = i)) as [->|Hne]; [|by apply (relink_same g)].
      apply (relink_same (λ x, g (clear_busy x))); intros v x; [apply (Hn v (clear_busy x))|apply (Hp v (clear_busy x))].
    - unfold link_front, unlink. rewrite !length_alter. apply lru_length in HL. lia. }
  assert (∀ j, dev (getb j s') = dev (getb j s)) as Gd by (intros; rewrite G by done; by destruct (decide (j = i)) as [->|]).
  assert (∀ j, blockno (getb j s') = blockno (getb j s)) as Gb by (intros; rewrite G by done; by destruct (decide (j = i)) as [->|]).
  assert (∀ j, bdata (getb j s') = bdata (getb j s)) as Gt by (intros; rewrite G by done; by destruct (decide (j = i)) as [->|]).
  assert (∀ L1 L2, lru (bufs s) (L1 ++ i :: L2) → lru (bufs s') (i :: L1 ++ L2)) as HLs'.
  { intros L1 L2 HL'. apply lru_alter; [by apply lru_move_front|done|done|].
    unfold link_front, unlink. rewrite !length_alter. apply lru_length in HL'. lia. }
  split_and!; [|apply woke_wake|done|done|done|done].
  split; cbn [disk s'].
  - assert (i ∈ L) as Hin by (by apply (lru_elem _ _ _ HL)). apply list_elem_of_split in Hin as (L1 & L2 & ->). eauto.
  - intros j Hj. rewrite Gd, Gb, (G _ flags), (G _ valid) by done. destruct (decide (j = i)) as [->|]; [|by apply O2].
    destruct (O2 i Hj) as [[? _]|(? & Hv & ?)]; [done|]. right. split_and!; try tauto.
    revert Hv. unfold clear_busy. by flag_bits.
  - intros j k Hj Hk. rewrite !Gd, !Gb. by apply O3.
  - intros j Hj. rewrite (G _ busy) by done. destruct (decide (j = i)) as [->|].
    + rewrite lookup_delete_eq. unfold clear_busy. flag_bits. split; [done|by intros [? ?]].
    + rewrite lookup_delete_ne by done. by apply O4.
  - intros j k [Hne Hk]%lookup_delete_Some. rewrite Gd, Gb. by apply O5.
  - intros j Hj Hn. rewrite Gd, Gb, Gt. intros Hdj. destruct (decide (j = i)) as [->|Hne]; [congruence|].
    rewrite lookup_delete_ne in Hn by done. by apply O6.
  - intros j Hj. rewrite Gd, Gb, (G _ dirty) by done. destruct (decide (j = i)) as [->|]; [|by apply O7].
    intros _. rewrite <- O7 by done. unfold clear_busy. by flag_bits.
  - intros k Hk. destruct (O8 k Hk) as (j & ?). exists j. by rewrite Gd, Gb.
  - done.
Qed.

(** ** binit *)

Lemma binit_link i s : (i < NBUF)%nat → length (bufs s) = S NBUF →
  alter (set_next i) HEAD (alter (set_prev i) (nxt (bufs s) HEAD)
    (alter (λ b, set_dev (u32 (-1)) (set_prev HEAD (set_next (nxt (bufs s) HEAD) b))) i (bufs s))) =
  link_front i (alter (set_dev (u32 (-1))) i (bufs s)).
Proof.
  intros Hi Hlen. unfold link_front. rewrite nxt_alter by (done || lia). by rewrite !list_alter_alter_eq.
Qed.

Lemma NoDup_rev_seq n : NoDup (reverse (seq 0 n)).
Proof. rewrite (reverse_Permutation (seq 0 n)). apply NoDup_seq. Qed.

Lemma elem_rev_seq j n : j ∈ reverse (seq 0 n) ↔ (j < n)%nat.
Proof. rewrite elem_of_reverse, elem_of_seq. lia. Qed.

(** After [i] rounds the first [i] buffers are linked, the last one first. *)
Lemma binit_loop_run n i s :
  (i + n = NBUF)%nat → length (bufs s) = S NBUF →
  seg (bufs s) HEAD (reverse (seq 0 i)) HEAD →
  (∀ j, (j < i)%nat → dev (getb j s) = u32 (-1)) →
  ∃ bl, binit_loop n i s = Ret tt (set_bufs bl s) ∧ length bl = S NBUF ∧
    seg bl HEAD (reverse (seq 0 NBUF)) HEAD ∧
    (∀ j, (j < NBUF)%nat → dev (default buf0 (bl !! j)) = u32 (-1)) ∧
    (∀ j, flags (default buf0 (bl !! j)) = flags (getb j s)).
Proof.
  revert i s. induction n as [|n IH]; intros i s Hin Hlen Hs Hd.
  - exists (bufs s). replace NBUF with i by lia. split_and!; try done; [by destruct s|].
    replace i with NBUF by lia. done.
  - cbn [binit_loop]. unfold bind at 1, bget_field, gets. cbn [obind].
    unfold bind at 1, bupd, modify. cbn [obind]. unfold bind at 1. cbn [obind]. unfold bind at 1. cbn [obind].
    cbn [bufs set_bufs]. change (next (getb HEAD s)) with (nxt (bufs s) HEAD).
    rewrite binit_link by (done || lia). set (bl := link_front i _).
    change (set_bufs bl (set_bufs _ _)) with (set_bufs bl s).
    assert (length bl = S NBUF) as Hbl by (unfold bl, link_front; by rewrite !length_alter).
    assert (∀ {A} (g : buf → A) j, (∀ v x, g (set_next v x) = g x) → (∀ v x, g (set_prev v x) = g x) →
      g (default buf0 (bl !! j)) = g (default buf0 (alter (set_dev (u32 (-1))) i (bufs s) !! j))) as G.
    { intros A g j Hn Hp. unfold bl, link_front. by rewrite 4!(alter_same g). }
    destruct (IH (S i) (set_bufs bl s)) as (bl' & E & H1 & H2 & H3 & H4).
    + lia.
    + done.
    + cbn [bufs set_bufs]. rewrite seq_S, reverse_app. cbn [reverse]. apply seg_link_front.
      * eapply seg_frame; [| |exact Hs]; intros; [apply nxt_alter|apply prv_alter]; (done || lia).
      * rewrite !NoDup_cons, not_elem_of_cons, !elem_rev_seq. unfold HEAD.
        split_and!; [lia..|apply NoDup_rev_seq].
      * intros j. rewrite !elem_of_cons, elem_rev_seq, length_alter, Hlen. unfold HEAD. lia.
    + intros j Hj. unfold getb. cbn [bufs set_bufs]. rewrite (G _ dev), (alter_at _ dev) by (done || lia).
      destruct (decide (j = i)); [done|]. apply Hd. lia.
    + exists bl'. split_and!; try done. intros j. rewrite H4. unfold getb. cbn [bufs set_bufs].
      rewrite (G _ flags) by done. by apply alter_same.
Qed.

Lemma binit_ok s :
  length (bufs s) = S NBUF → (∀ j, flags (getb j s) = 0) →
  ∃ bl, binit s = Ret tt (set_bufs bl s) ∧
    bcache_ok (set_bufs bl s) (λ bn, default [] (disk s !! Z.to_nat bn)) ∅ ∅.
Proof.
  intros Hlen Hf. unfold binit. unfold bind at 1, bupd, modify. cbn [obind]. unfold bind at 1. cbn [obind].
  cbn [bufs set_bufs]. rewrite list_alter_alter_eq. set (bl0 := alter _ _ _).
  change (set_bufs bl0 (set_bufs _ s)) with (set_bufs bl0 s).
  destruct (binit_loop_run NBUF 0 (set_bufs bl0 s)) as (bl & E & H1 & H2 & H3 & H4).
  - done.
  - by rewrite <- Hlen; apply length_alter.
  - cbn [bufs set_bufs seq reverse]. split; unfold nxt, prv, bl0;
      [rewrite (alter_at _ next)|rewrite (alter_at _ prev)]; rewrite ?Hlen; unfold HEAD; try lia; done.
  - lia.
  - assert (∀ j, flags (default buf0 (bl !! j)) = 0) as Hfl.
    { intros j. rewrite H4. unfold getb; cbn [bufs set_bufs]. unfold bl0. rewrite (alter_same flags) by done. apply Hf. }
    exists bl. split; [exact E|]. clear E. split; cbn [disk set_bufs].
    + exists (reverse (seq 0 NBUF)). split_and!; [done| |done|by rewrite reverse_Permutation].
      rewrite NoDup_cons, elem_rev_seq. unfold HEAD. split; [lia|apply NoDup_rev_seq].
    + intros j Hj. left. unfold getb; cbn [bufs set_bufs]. by rewrite H3, Hfl.
    + intros i j Hi _ Hd. unfold getb in Hd; cbn [bufs set_bufs] in Hd. by rewrite H3 in Hd.
    + intros j Hj. rewrite busy_bit. unfold getb; cbn [bufs set_bufs]. rewrite Hfl, lookup_empty. split; [done|by intros []].
    + intros i bn. by rewrite lookup_empty.
    + intros j Hj _ Hd. unfold getb in Hd; cbn [bufs set_bufs] in Hd. by rewrite H3 in Hd.
    + intros j Hj Hd. unfold getb in Hd; cbn [bufs set_bufs] in Hd. by rewrite H3 in Hd.
    + set_solver.
    + intros bn Hbn _. destruct (disk s !! Z.to_nat bn) eqn:E2; [done|]. apply lookup_ge_None in E2. lia.
Qed.

(** ** Clients of the cache *)

#[local] Opaque bread bwrite brelse binit.

(** A client reads a block, or reads it and writes it back. *)
Inductive bop := BRead (bn : Z) | BWrite (bn : Z) (d : list Z).

Definition bop_block (o : bop) : Z := match o with BRead bn => bn | BWrite bn _ => bn end.

Definition run_bop (w : nat) (o : bop) : M bst (list Z) :=
  match o with
  | BRead bn => b <- bread w DEV bn;; d <- bget_field b bdata;; brelse b;; ret d
  | BWrite bn d => b <- bread w DEV bn;; bupd b (set_bdata d);; bwrite b;; brelse b;; ret d
  end.

Fixpoint run_bops (w : nat) (l : list bop) : M bst (list (list Z)) :=
  match l with
  | [] => ret []
  | o :: l => d <- run_bop w o;; ds <- run_bops w l;; ret (d :: ds)
  end.

(** The same requests on an array of blocks. *)
Definition spec_bop (dk : list (list Z)) (o : bop) : list Z * list (list Z) :=
  match o with
  | BRead bn => (dk !!! Z.to_nat bn, dk)
  | BWrite bn d => (d, <[Z.to_nat bn := d]> dk)
  end.

Fixpoint spec_bops (dk : list (list Z)) (l : list bop) : list (list Z) * list (list Z) :=
  match l with
  | [] => ([], dk)
  | o :: l => let (d, dk) := spec_bop dk o in let (ds, dk) := spec_bops dk l in (d :: ds, dk)
  end.

Lemma bread_relse_ok w s V bn :
  bcache_ok s V ∅ ∅ → held (bc s) = [] → 0 ≤ bn < Z.of_nat (length (disk s)) →
  ∃ s', run_bop (S w) (BRead bn) s = Ret (V bn) s' ∧ bcache_ok s' V ∅ ∅ ∧ held (bc s') = [] ∧ disk s' = disk s.
Proof.
  intros Hok Hh Hbn. destruct (bread_run w s V ∅ ∅ bn) as (i & f & E & _ & Hok1 & Hd & _); try done.
  { rewrite Hh. set_solver. }
  { right. rewrite map_size_empty, size_empty. unfold NBUF. lia. }
  destruct (brelse_run _ _ _ _ i bn Hok1) as (s' & E' & Hok' & Hw & Hdk & _).
  { by rewrite lookup_insert_eq. }
  { done. }
  { cbn. rewrite Hh. set_solver. }
  { cbn. rewrite Hh. set_solver. }
  exists s'. cbn [run_bop]. rewrite (bind_Ret _ _ _ _ _ E). unfold bind at 1, bget_field, gets. cbn [obind].
  rewrite Hd, (bind_Ret _ _ _ _ _ E'). rewrite delete_insert_id in Hok' by done.
  split_and!; [done|done| |by rewrite Hdk]. by rewrite (woke_held _ _ Hw).
Qed.

Lemma bread_write_ok w s V bn d :
  bcache_ok s V ∅ ∅ → held (bc s) = [] → 0 ≤ bn < Z.of_nat (length (disk s)) →
  ∃ s', run_bop (S w) (BWrite bn d) s = Ret d s' ∧ bcache_ok s' (<[bn := d]> V) ∅ ∅ ∧ held (bc s') = [] ∧
    disk s' = <[Z.to_nat bn := d]> (disk s).
Proof.
  intros Hok Hh Hbn. destruct (bread_run w s V ∅ ∅ bn) as (i & f & E & _ & Hok1 & Hd & _); try done.
  { rewrite Hh. set_solver. }
  { right. rewrite map_size_empty, size_empty. unfold NBUF. lia. }
  set (s1 := others i f s) in *. pose proof (bcache_length _ _ _ _ Hok1) as Hlen.
  assert ((<[i:=bn]> ∅ : gmap nat Z) !! i = Some bn) as Hi by (by rewrite lookup_insert_eq).
  pose proof (bcache_set_data _ _ _ _ i bn d Hok1 Hi) as Hok2.
  destruct (bo_held _ _ _ _ Hok1 _ _ Hi) as (Hlt & _).
  destruct (bwrite_run _ _ _ _ _ _ Hok2 Hi) as (s3 & E3 & Hok3 & Hdk3 & _ & Hc3 & Hdt3).
  assert (bdata (getb i (others i (set_bdata d) s1)) = d) as Hdd by (by rewrite getb_others, decide_True by lia).
  rewrite Hdd in *.
  destruct (brelse_run _ _ _ _ i bn Hok3) as (s4 & E4 & Hok4 & Hw & Hdk4 & _); [done|..].
  { by rewrite Hdt3, Hdd, fn_lookup_insert. }
  { rewrite Hc3. cbn. rewrite Hh. set_solver. }
  { rewrite Hc3. cbn. rewrite Hh. set_solver. }
  exists s4. cbn [run_bop]. rewrite (bind_Ret _ _ _ _ _ E). unfold bind at 1, bupd, modify. cbn [obind].
  fold (others i (set_bdata d) s1). rewrite (bind_Ret _ _ _ _ _ E3), (bind_Ret _ _ _ _ _ E4).
  rewrite delete_insert_id, empty_difference_L in Hok4 by done.
  split_and!; [done|done| |by rewrite Hdk4, Hdk3]. rewrite (woke_held _ _ Hw), Hc3. done.
Qed.

Lemma run_bops_ok w l s V :
  bcache_ok s V ∅ ∅ → held (bc s) = [] → Forall (λ o, 0 ≤ bop_block o < Z.of_nat (length (disk s))) l →
  ∃ V' s', run_bops (S w) l s = Ret (spec_bops (disk s) l).1 s' ∧ bcache_ok s' V' ∅ ∅ ∧
    held (bc s') = [] ∧ disk s' = (spec_bops (disk s) l).2.
Proof.
  revert s V. induction l as [|o l IH]; intros s V Hok Hh Hl; [by exists V, s|].
  apply Forall_cons in Hl as [Ho Hl]. cbn [run_bops spec_bops].
  assert (∃ V1 s1, run_bop (S w) o s = Ret (spec_bop (disk s) o).1 s1 ∧ bcache_ok s1 V1 ∅ ∅ ∧
    held (bc s1) = [] ∧ disk s1 = (spec_bop (disk s) o).2 ∧ length (disk s1) = length (disk s)) as
    (V1 & s1 & E & Hok1 & Hh1 & Hd1 & Hlen).
  { destruct o as [bn|bn d]; cbn [bop_block] in Ho; cbn [spec_bop fst snd].
    - destruct (bread_relse_ok w _ _ bn Hok Hh Ho) as (s1 & E & Hok1 & Hh1 & Hd1). exists V, s1.
      rewrite E, Hd1. split_and!; try done. f_equal. symmetry. apply list_lookup_total_correct.
      apply (bo_disk _ _ _ _ Hok); [done|set_solver].
    - destruct (bread_write_ok w _ _ bn d Hok Hh Ho) as (s1 & E & Hok1 & Hh1 & Hd1). eexists _, s1.
      rewrite E, Hd1. split_and!; try done. apply length_insert. }
  destruct (IH s1 V1 Hok1 Hh1) as (V2 & s2 & E2 & Hok2 & Hh2 & Hd2).
  { by rewrite Hlen. }
  rewrite Hd1 in E2, Hd2. destruct (spec_bop (disk s) o) as [d dk]; cbn [fst snd] in *.
  destruct (spec_bops dk l) as [ds dk']; cbn [fst snd] in *.
  exists V2, s2. rewrite (bind_Ret _ _ _ _ _ E), (bind_Ret _ _ _ _ _ E2). done.
Qed.

(** C9: the buffer cache is transparent: after binit, any sequence of block
    reads and writes through bread, bwrite and brelse neither blocks nor
    panics, returns what the same sequence returns on a plain array of
    blocks, and leaves the disk as that array, although only NBUF blocks are
    cached, in recycled buffers. *)
Theorem bcache_refines_disk w s l :
  length (bufs s) = S NBUF → (∀ j, flags (getb j s) = 0) → held (bc s) = [] →
  Forall (λ o, 0 ≤ bop_block o < Z.of_nat (length (disk s))) l →
  ∃ s', (binit;; run_bops (S w) l)%K s = Ret (spec_bops (disk s) l).1 s' ∧
    disk s' = (spec_bops (disk s) l).2 ∧ held (bc s') = [].
Proof.
  intros Hlen Hf Hh Hl. destruct (binit_ok s Hlen Hf) as (bl & E & Hok).
  destruct (run_bops_ok w l _ _ Hok Hh Hl) as (V' & s' & E' & _ & Hh' & Hd').
  exists s'. rewrite (bind_Ret _ _ _ _ _ E). split; [exact E'|]. split; [exact Hd'|exact Hh'].
Qed.

Definition ex_bst (n : nat) : bst :=
  mk_bst (ex_core 0) (replicate (S NBUF) buf0) (replicate n [0]) [].

Lemma bcache_refines_disk_witness :
  ∃ s', (binit;; run_bops 1 [BWrite 3 [7]; BRead 4; BRead 3])%K (ex_bst 50) = Ret [[7]; [0]; [7]] s' ∧
    disk s' = <[3%nat := [7]]> (replicate 50 [0]) ∧ held (bc s') = [].
Proof.
  apply (bcache_refines_disk 0 (ex_bst 50) [BWrite 3 [7]; BRead 4; BRead 3]).
  - reflexivity.
  - intros j. unfold getb, ex_bst. cbn [bufs]. destruct (replicate (S NBUF) buf0 !! j) eqn:E; [|reflexivity].
    by apply lookup_replicate in E as [-> _].
  - reflexivity.
  - repeat constructor; vm_compute; discriminate.
Defined.
