(* ===== verification/Log.v ===== *)
(** * The log (log.c)

    The write-ahead log on top of the buffer cache.  [lst] adds the in-memory
    [struct log] to the state of [Bio]; an operation of the file system runs
    between begin_op and end_op and records the blocks it changed with
    log_write, which pins them in the cache; the last end_op commits.

    The theorems say what the disk holds at every moment: each image the disk
    goes through, whatever the block writes a crash cuts off, is one from
    which recover_from_log rebuilds the state before the transaction or the
    state after it. *)
From S2P Require Import Prelude Kernel Kalloc Vm Proc ProcSpec Bytes Bio.

Local Open Scope Z_scope.
Local Open Scope kernel_scope.

Definition MAXOPBLOCKS : Z := 10.
Definition LOGSIZE : Z := MAXOPBLOCKS * 3.

Record superblock := mk_sb {
  sb_size : Z;
  nblocks : Z;
  ninodes : Z;
  nlog : Z;
  logstart : Z;
  inodestart : Z;
  bmapstart : Z
}.

Record lst := mk_lst {
  lb : bst;
  lstart : Z;
  lsize : Z;
  outstanding : Z;
  committing : Z;
  ldev : Z;
  lh_n : Z;
  lh_block : list Z
}.

Definition set_lb (v : bst) (x : lst) : lst :=
  mk_lst v (lstart x) (lsize x) (outstanding x) (committing x) (ldev x) (lh_n x) (lh_block x).
Definition set_lstart (v : Z) (x : lst) : lst :=
  mk_lst (lb x) v (lsize x) (outstanding x) (committing x) (ldev x) (lh_n x) (lh_block x).
Definition set_lsize (v : Z) (x : lst) : lst :=
  mk_lst (lb x) (lstart x) v (outstanding x) (committing x) (ldev x) (lh_n x) (lh_block x).
Definition set_outstanding (v : Z) (x : lst) : lst :=
  mk_lst (lb x) (lstart x) (lsize x) v (committing x) (ldev x) (lh_n x) (lh_block x).
Definition set_committing (v : Z) (x : lst) : lst :=
  mk_lst (lb x) (lstart x) (lsize x) (outstanding x) v (ldev x) (lh_n x) (lh_block x).
Definition set_ldev (v : Z) (x : lst) : lst :=
  mk_lst (lb x) (lstart x) (lsize x) (outstanding x) (committing x) v (lh_n x) (lh_block x).
Definition set_lh_n (v : Z) (x : lst) : lst :=
  mk_lst (lb x) (lstart x) (lsize x) (outstanding x) (committing x) (ldev x) v (lh_block x).
Definition set_lh_block (v : list Z) (x : lst) : lst :=
  mk_lst (lb x) (lstart x) (lsize x) (outstanding x) (committing x) (ldev x) (lh_n x) v.

Definition ll {A} (m : M bst A) : M lst A := zoom lb set_lb m.
Definition lc {A} (m : M core A) : M lst A := ll (bb m).

(** The data of a buffer and its update through a pointer. *)
Definition data_of (i : nat) : M bst (list Z) := bget_field i bdata.
Definition upd_data (i : nat) (f : list Z → list Z) : M bst unit :=
  bupd i (λ b, set_bdata (f (bdata b)) b).

(** readsb (fs.c): the superblock, block 1 of the device. *)
Definition decode_sb (d : list Z) : superblock :=
  mk_sb (rd32 0 d) (rd32 4 d) (rd32 8 d) (rd32 12 d) (rd32 16 d) (rd32 20 d) (rd32 24 d).

Section log.
  Variable waits : nat.   (* bound on the waits of one call *)

Definition readsb (d : Z) : M bst superblock :=
  b <- bread waits d 1;;
  data <- data_of b;;
  brelse b;;
  ret (decode_sb data).

Definition block_at (i : Z) (s : lst) : Z := default 0 (lh_block s !! Z.to_nat i).

(** ** Copying between the log and the home locations *)

Definition install_one (tail : Z) : M lst unit :=
  d <- gets ldev;;
  st <- gets lstart;;
  lbuf <- ll (bread waits d (u32 (st + tail + 1)));;
  bn <- gets (block_at tail);;
  dbuf <- ll (bread waits d (u32 bn));;
  data <- ll (data_of lbuf);;
  ll (upd_data dbuf (λ _, data));;
  ll (bwrite dbuf);;
  ll (brelse lbuf);;
  ll (brelse dbuf).

Fixpoint for_tail (f : Z → M lst unit) (k : nat) (tail : Z) : M lst unit :=
  match k with
  | O => ret tt
  | S k => f tail;; for_tail f k (tail + 1)
  end.

Definition install_trans : M lst unit :=
  n <- gets lh_n;; for_tail install_one (Z.to_nat n) 0.

Definition write_log_one (tail : Z) : M lst unit :=
  d <- gets ldev;;
  st <- gets lstart;;
  to <- ll (bread waits d (u32 (st + tail + 1)));;
  bn <- gets (block_at tail);;
  from <- ll (bread waits d (u32 bn));;
  data <- ll (data_of from);;
  ll (upd_data to (λ _, data));;
  ll (bwrite to);;
  ll (brelse from);;
  ll (brelse to).

Definition write_log : M lst unit :=
  n <- gets lh_n;; for_tail write_log_one (Z.to_nat n) 0.

(** ** The header *)

(** [lh->n] and the copy of the first [n] entries of [lh->block]. *)
Fixpoint read_blocks (data : list Z) (k : nat) (i : nat) (bl : list Z) : list Z :=
  match k with
  | O => bl
  | S k => read_blocks data k (S i) (<[i := s32 (rd32 (4 + 4 * i) data)]> bl)
  end.

Definition read_head : M lst unit :=
  d <- gets ldev;;
  st <- gets lstart;;
  b <- ll (bread waits d (u32 st));;
  data <- ll (data_of b);;
  let n := s32 (rd32 0 data) in
  modify (set_lh_n n);;
  modify (λ s, set_lh_block (read_blocks data (Z.to_nat n) 0 (lh_block s)) s);;
  ll (brelse b).

Fixpoint write_blocks (bl : list Z) (k : nat) (i : nat) (data : list Z) : list Z :=
  match k with
  | O => data
  | S k => write_blocks bl k (S i) (wr32 (4 + 4 * i) (u32 (default 0 (bl !! i))) data)
  end.

Definition write_head : M lst unit :=
  d <- gets ldev;;
  st <- gets lstart;;
  b <- ll (bread waits d (u32 st));;
  n <- gets lh_n;;
  bl <- gets lh_block;;
  ll (upd_data b (λ data, write_blocks bl (Z.to_nat n) 0 (wr32 0 (u32 n) data)));;
  ll (bwrite b);;
  ll (brelse b).

Definition recover_from_log : M lst unit :=
  read_head;;
  install_trans;;
  modify (set_lh_n 0);;
  write_head.

Definition initlog (d : Z) : M lst unit :=
  when (Z.of_nat BSIZE <=? 4 + 4 * LOGSIZE) do panic "initlog: too big logheader";;
  sb <- ll (readsb (u32 d));;
  modify (set_lstart (s32 (logstart sb)));;
  modify (set_lsize (s32 (nlog sb)));;
  modify (set_ldev d);;
  recover_from_log.

(** ** Transactions *)

Fixpoint begin_op_loop (fuel : nat) : M lst unit :=
  match fuel with
  | O => nofuel
  | S fuel =>
      c <- gets committing;;
      n <- gets lh_n;;
      o <- gets outstanding;;
      if negb (c =? 0) then lc (sleep ChLog (Some Llog));; begin_op_loop fuel
      else if LOGSIZE <? n + (o + 1) * MAXOPBLOCKS then lc (sleep ChLog (Some Llog));; begin_op_loop fuel
      else modify (set_outstanding (o + 1));; lc (prelease Llog)
  end.

Definition begin_op : M lst unit := lc (pacquire Llog);; begin_op_loop waits.

Definition commit : M lst unit :=
  n <- gets lh_n;;
  when (0 <? n) do
    (write_log;;
     write_head;;
     install_trans;;
     modify (set_lh_n 0);;
     write_head).

Definition end_op : M lst unit :=
  lc (pacquire Llog);;
  modify (λ s, set_outstanding (outstanding s - 1) s);;
  c <- gets committing;;
  when (negb (c =? 0)) do panic "log.committing";;
  o <- gets outstanding;;
  (if o =? 0 then modify (set_committing 1) else lc (wakeup ChLog));;
  lc (prelease Llog);;
  when (o =? 0) do
    (commit;;
     lc (pacquire Llog);;
     modify (set_committing 0);;
     lc (wakeup ChLog);;
     lc (prelease Llog)).

End log.

(** The index of the block in the log, or the first free entry. *)
Fixpoint log_slot (bl : list Z) (n : nat) (i : nat) (bn : Z) : nat :=
  match n with
  | O => i
  | S n => if u32 (default 0 (bl !! i)) =? bn then i else log_slot bl n (S i) bn
  end.

Definition log_write (b : nat) : M lst unit :=
  n <- gets lh_n;;
  sz <- gets lsize;;
  when ((LOGSIZE <=? n) || (sz - 1 <=? n)) do panic "too big a transaction";;
  o <- gets outstanding;;
  when (o <? 1) do panic "log_write outside of trans";;
  lc (pacquire Llog);;
  n <- gets lh_n;;
  bl <- gets lh_block;;
  bn <- ll (bget_field b blockno);;
  let i := log_slot bl (Z.to_nat n) 0 bn in
  modify (set_lh_block (<[i := s32 bn]> bl));;
  when (Z.of_nat i =? n) do modify (set_lh_n (n + 1));;
  ll (bupd b (λ x, set_flags (Z.lor (flags x) B_DIRTY) x));;
  lc (prelease Llog).

(** ** Steps on the cache *)

#[local] Opaque bread bwrite brelse.

(** The processor holds none of the locks the cache takes. *)
Definition unlocked (c : core) : Prop := Lbcache ∉ held c ∧ Lptable ∉ held c ∧ Llog ∉ held c.

Lemma woke_unlocked c c' : woke c c' → unlocked c → unlocked c'.
Proof. intros Hw. unfold unlocked. by rewrite (woke_held _ _ Hw). Qed.

Lemma bcache_ext s V V' H P : (∀ bn, V bn = V' bn) → bcache_ok s V H P → bcache_ok s V' H P.
Proof.
  intros HV [O1 O2 O3 O4 O5 O6 O7 O8 O9]. split; try done.
  - intros i Hi Hn Hd. rewrite <- HV. by apply O6.
  - intros bn Hbn Hn. rewrite <- HV. by apply O9.
Qed.

(** Blocks [b1] and [b2] are read and one is copied over the other. *)
Definition copy_blocks (w : nat) (b1 b2 : Z) (fwd : bool) : M bst unit :=
  x <- bread w DEV b1;;
  y <- bread w DEV b2;;
  let src := if fwd then x else y in
  let dst := if fwd then y else x in
  data <- data_of src;;
  upd_data dst (λ _, data);;
  bwrite dst;;
  brelse src;;
  brelse dst.

Lemma copy_blocks_ok w s V P b1 b2 (fwd : bool) :
  bcache_ok s V ∅ P → unlocked (bc s) → b1 ≠ b2 →
  0 ≤ b1 < Z.of_nat (length (disk s)) → 0 ≤ b2 < Z.of_nat (length (disk s)) →
  (size P < NBUF)%nat → b2 ∈ P ∨ (S (size P) < NBUF)%nat →
  let src := if fwd then b1 else b2 in
  let dst := if fwd then b2 else b1 in
  ∃ s', copy_blocks (S w) b1 b2 fwd s = Ret tt s' ∧
    bcache_ok s' (<[dst := V src]> V) ∅ (P ∖ {[dst]}) ∧ woke (bc s) (bc s') ∧
    disk s' = <[Z.to_nat dst := V src]> (disk s) ∧ hist s' = disk s :: hist s.
Proof.
  intros Hok (Hl1 & Hl2 & _) Hne Hr1 Hr2 Hsz Hsz2 src dst.
  destruct (bread_run w s V ∅ P b1) as (x & f & E1 & _ & Hok1 & Hd1 & _); [done..| |].
  { right. rewrite map_size_empty. lia. }
  set (s1 := others x f s) in *.
  assert (∀ j, (<[x:=b1]> ∅ : gmap nat Z) !! j ≠ Some b2) as Hfree.
  { intros j. destruct (decide (j = x)) as [->|]; [rewrite lookup_insert_eq; congruence|by rewrite lookup_insert_ne]. }
  destruct (bread_run w s1 V _ P b2 Hok1) as (y & g & E2 & Hy & Hok2 & Hd2 & Ho2); [done..| |].
  { destruct Hsz2 as [?|?]; [by left|right]. rewrite map_size_insert_None, map_size_empty by done. lia. }
  set (s2 := others y g s1) in *.
  assert (x ≠ y) as Hxy by (intros ->; by rewrite lookup_insert_eq in Hy).
  set (H2 := (<[y:=b2]> (<[x:=b1]> ∅) : gmap nat Z)) in *.
  assert (H2 !! x = Some b1) as Hx2 by (unfold H2; by rewrite lookup_insert_ne, lookup_insert_eq).
  assert (H2 !! y = Some b2) as Hy2 by (unfold H2; by rewrite lookup_insert_eq).
  assert (bdata (getb x s2) = V b1) as Hdx by (by rewrite Ho2).
  set (sb := if fwd then x else y). set (db := if fwd then y else x).
  assert (H2 !! sb = Some src) as Hsb by (unfold sb, src; by destruct fwd).
  assert (H2 !! db = Some dst) as Hdb by (unfold db, dst; by destruct fwd).
  assert (sb ≠ db) as Hsd by (unfold sb, db; destruct fwd; congruence).
  assert (src ≠ dst) as Hsd' by (unfold src, dst; destruct fwd; congruence).
  assert (bdata (getb sb s2) = V src) as Hdsrc by (unfold sb, src; by destruct fwd).
  pose proof (bcache_length _ _ _ _ Hok2) as Hlen.
  destruct (bo_held _ _ _ _ Hok2 _ _ Hdb) as (Hltd & _).
  pose proof (bcache_set_data _ _ _ _ db dst (V src) Hok2 Hdb) as Hok3.
  set (s3 := others db (set_bdata (V src)) s2) in *.
  assert (∀ j, bdata (getb j s3) = if decide (j = db) then V src else bdata (getb j s2)) as Hd3.
  { intros j. unfold s3. rewrite getb_others by lia. by destruct (decide (j = db)). }
  destruct (bwrite_run _ _ _ _ _ _ Hok3 Hdb) as (s4 & E4 & Hok4 & Hdk4 & Hh4 & Hc4 & Hd4).
  rewrite Hd3, decide_True in Hok4, Hdk4 by done.
  destruct (brelse_run _ _ _ _ sb src Hok4) as (s5 & E5 & Hok5 & Hw5 & Hdk5 & Hh5 & Hd5 & _); [done|..].
  { rewrite Hd4, Hd3, decide_False, Hdsrc by done. by rewrite fn_lookup_insert_ne. }
  { by rewrite Hc4. }
  { by rewrite Hc4. }
  destruct (brelse_run _ _ _ _ db dst Hok5) as (s6 & E6 & Hok6 & Hw6 & Hdk6 & Hh6 & _).
  { by rewrite lookup_delete_ne. }
  { by rewrite Hd5, Hd4, Hd3, decide_True, fn_lookup_insert. }
  { rewrite (woke_held _ _ Hw5), Hc4. done. }
  { rewrite (woke_held _ _ Hw5), Hc4. done. }
  exists s6. unfold copy_blocks. rewrite (bind_Ret _ _ _ _ _ E1), (bind_Ret _ _ _ _ _ E2).
  fold sb db. unfold data_of, bget_field. unfold bind at 1, gets. cbn [obind].
  unfold upd_data, bupd, modify. unfold bind at 1. cbn [obind]. rewrite Hdsrc.
  change (set_bufs _ s2) with s3. rewrite (bind_Ret _ _ _ _ _ E4), (bind_Ret _ _ _ _ _ E5).
  split_and!; [done|..].
  - replace (delete db (delete sb H2)) with (∅ : gmap nat Z) in Hok6; [done|].
    unfold H2, sb, db. apply map_eq. intros j. rewrite lookup_empty. symmetry.
    destruct fwd; rewrite !lookup_delete_None, !lookup_insert_None, lookup_empty;
      destruct (decide (x = j)), (decide (y = j)); tauto.
  - eapply woke_trans; [|exact Hw6]. rewrite Hc4 in Hw5. exact Hw5.
  - by rewrite Hdk6, Hdk5, Hdk4.
  - by rewrite Hh6, Hh5, Hh4.
Qed.

Lemma ll_Ret {A} (m : M bst A) s a t : m (lb s) = Ret a t → ll m s = Ret a (set_lb t s).
Proof. apply zoom_Ret. Qed.

Lemma set_lb_twice t t' s : set_lb t (set_lb t' s) = set_lb t s.
Proof. done. Qed.

(** Follow a run of the cache, given as [E], in a run of the log. *)
Ltac follow E :=
  let E1 := fresh in
  apply bind_Ret_inv in E as (? & ? & E1 & E);
  erewrite bind_Ret; [|apply ll_Ret; exact E1]; rewrite ?set_lb_twice.

Lemma install_one_copy w tail s t :
  ldev s = DEV → copy_blocks w (u32 (lstart s + tail + 1)) (u32 (block_at tail s)) true (lb s) = Ret tt t →
  install_one w tail s = Ret tt (set_lb t s).
Proof.
  intros Hdev E. unfold install_one. unfold bind at 1, gets at 1. cbn [obind]. rewrite Hdev.
  unfold bind at 1, gets at 1. cbn [obind]. unfold copy_blocks in E.
  follow E. unfold bind at 1, gets at 1. cbn [obind]. do 5 follow E. by apply (ll_Ret _ (set_lb _ s)).
Qed.

Lemma write_log_one_copy w tail s t :
  ldev s = DEV → copy_blocks w (u32 (lstart s + tail + 1)) (u32 (block_at tail s)) false (lb s) = Ret tt t →
  write_log_one w tail s = Ret tt (set_lb t s).
Proof.
  intros Hdev E. unfold write_log_one. unfold bind at 1, gets at 1. cbn [obind]. rewrite Hdev.
  unfold bind at 1, gets at 1. cbn [obind]. unfold copy_blocks in E.
  follow E. unfold bind at 1, gets at 1. cbn [obind]. do 5 follow E. by apply (ll_Ret _ (set_lb _ s)).
Qed.

(** ** What a disk image holds *)

Definition blk (d : list (list Z)) (bn : Z) : list Z := default [] (d !! Z.to_nat bn).

(** The header of the log in a disk image whose log starts at [st]. *)
Definition hdr_n (st : Z) (d : list (list Z)) : Z := s32 (rd32 0 (blk d st)).
Definition hdr_blocks (st : Z) (d : list (list Z)) : list Z :=
  (λ i, s32 (rd32 (4 + 4 * i) (blk d st))) <$> seq 0 (Z.to_nat (hdr_n st d)).

Definition in_log (st bn : Z) : Prop := st ≤ bn < st + LOGSIZE.

(** The blocks of the list can be logged: distinct, on the disk, not part of
    the log itself, and no more than fit. *)
Record loggable (st : Z) (size : nat) (L : list Z) : Prop := {
  lg_nodup : NoDup L;
  lg_len : (length L ≤ 29)%nat;
  lg_home bn : bn ∈ L → 0 ≤ bn < Z.of_nat size ∧ ¬ in_log st bn
}.

(** What recovery makes of an image: the logged blocks copied home. *)
Definition recovered (st : Z) (d : list (list Z)) (bn : Z) : list Z :=
  match list_find (eq bn) (hdr_blocks st d) with
  | Some (i, _) => blk d (st + Z.of_nat i + 1)
  | None => blk d bn
  end.

(** The place of the log on a disk of [size] blocks. *)
Record log_place (st : Z) (size : nat) : Prop := {
  lp_start : 0 < st;
  lp_end : st + LOGSIZE ≤ Z.of_nat size;
  lp_small : Z.of_nat size < 2147483648
}.

(** The image of a disk of [nb] blocks is one from which recovery rebuilds the
    contents [D] of the blocks outside of the log. *)
Record recoverable (st : Z) (nb : nat) (d : list (list Z)) (D : Z → list Z) : Prop := {
  rc_len : length d = nb;
  rc_place : log_place st nb;
  rc_n : 0 ≤ hdr_n st d ≤ 29;
  rc_hdr : length (blk d st) = BSIZE;
  rc_log : loggable st nb (hdr_blocks st d);
  rc_home bn : 0 ≤ bn < Z.of_nat nb → ¬ in_log st bn → recovered st d bn = D bn
}.

Lemma blk_insert d a v bn :
  0 ≤ a < Z.of_nat (length d) → 0 ≤ bn →
  blk (<[Z.to_nat a := v]> d) bn = if decide (bn = a) then v else blk d bn.
Proof.
  intros Ha Hbn. unfold blk. destruct (decide (bn = a)) as [->|Hne].
  - by rewrite list_lookup_insert_eq by lia.
  - by rewrite list_lookup_insert_ne by lia.
Qed.

Lemma bcache_blk s V H P bn :
  bcache_ok s V H P → 0 ≤ bn < Z.of_nat (length (disk s)) → bn ∉ P → blk (disk s) bn = V bn.
Proof. intros Hok Hbn Hn. unfold blk. by rewrite (bo_disk _ _ _ _ Hok). Qed.

(** From [s] to [t] the disk went through images that satisfy [Q], and ended
    in one. *)
Definition images (Q : list (list Z) → Prop) (s t : bst) : Prop :=
  Q (disk t) ∧ ∃ imgs, hist t = imgs ++ hist s ∧ Forall Q imgs.

Lemma images_refl (Q : list (list Z) → Prop) s : Q (disk s) → images Q s s.
Proof. intros HQ. split; [done|]. by exists []. Qed.

Lemma images_step (Q : list (list Z) → Prop) s t :
  Q (disk s) → Q (disk t) → hist t = disk s :: hist s → images Q s t.
Proof. intros Hs Ht Hh. split; [done|]. exists [disk s]. rewrite Hh. split; [done|by constructor]. Qed.

Lemma images_trans Q s t u : images Q s t → images Q t u → images Q s u.
Proof.
  intros (_ & l1 & E1 & H1) (Hu & l2 & E2 & H2). split; [done|]. exists (l2 ++ l1).
  rewrite E2, E1, app_assoc. split; [done|]. by apply Forall_app.
Qed.

Lemma images_mono (Q Q' : list (list Z) → Prop) s t :
  (∀ d, Q d → Q' d) → images Q s t → images Q' s t.
Proof.
  intros HQ (Ht & l & E & Hl). split; [by apply HQ|]. exists l. split; [done|]. eapply Forall_impl; eauto.
Qed.

(** The in-memory log says that the blocks [L] are logged. *)
Record log_mem (s : lst) (st : Z) (L : list Z) : Prop := {
  lm_dev : ldev s = DEV;
  lm_start : lstart s = st;
  lm_n : lh_n s = Z.of_nat (length L);
  lm_len : length (lh_block s) = Z.to_nat LOGSIZE;
  lm_block : take (length L) (lh_block s) = L
}.

Lemma log_mem_block s st L i bn : log_mem s st L → L !! i = Some bn → block_at (Z.of_nat i) s = bn.
Proof.
  intros Hm Hi. unfold block_at. rewrite Nat2Z.id. rewrite <- (lm_block _ _ _ Hm) in Hi.
  apply lookup_take_Some in Hi as [Hi _]. by rewrite Hi.
Qed.

Lemma log_mem_lb s st L t : log_mem s st L → log_mem (set_lb t s) st L.
Proof. by intros []. Qed.

Lemma log_block_range st size i : log_place st size → (i < 29)%nat →
  u32 (st + Z.of_nat i + 1) = st + Z.of_nat i + 1 ∧ 0 ≤ st + Z.of_nat i + 1 < Z.of_nat size ∧
  in_log st (st + Z.of_nat i + 1).
Proof.
  intros [H1 H2 H3] Hi. unfold LOGSIZE, MAXOPBLOCKS, in_log, LOGSIZE, MAXOPBLOCKS in *.
  rewrite u32_small by (unfold W32; lia). lia.
Qed.

Lemma loggable_u32 st size L bn : log_place st size → loggable st size L → bn ∈ L → u32 bn = bn.
Proof.
  intros [_ _ H3] HL Hbn. destruct (lg_home _ _ _ HL _ Hbn) as [? _]. apply u32_small. unfold W32. lia.
Qed.

Lemma loggable_size st nb L : loggable st nb L → (size (list_to_set L : gset Z) ≤ 29)%nat.
Proof. intros HL. rewrite size_list_to_set by apply HL. apply HL. Qed.

(** ** The loops of commit *)

Lemma write_log_loop w k i s st L V :
  log_mem s st L → log_place st (length (disk (lb s))) → loggable st (length (disk (lb s))) L →
  bcache_ok (lb s) V ∅ (list_to_set L) → unlocked (bc (lb s)) → (i + k = length L)%nat →
  ∃ t V', for_tail (write_log_one (S w)) k (Z.of_nat i) s = Ret tt (set_lb t s) ∧
    bcache_ok t V' ∅ (list_to_set L) ∧ woke (bc (lb s)) (bc t) ∧
    (∀ j bn, (i ≤ j)%nat → L !! j = Some bn → V' (st + Z.of_nat j + 1) = V bn) ∧
    (∀ bn, bn < st + Z.of_nat i + 1 ∨ st + Z.of_nat (length L) < bn → V' bn = V bn) ∧
    images (λ d, length d = length (disk (lb s)) ∧
      ∀ bn, 0 ≤ bn → bn ≤ st ∨ ¬ in_log st bn → blk d bn = blk (disk (lb s)) bn) (lb s) t.
Proof.
  revert i s V. induction k as [|k IH]; intros i s V Hm Hp HL Hok Hul Hk.
  - exists (lb s), V. split_and!; try done.
    + by destruct s.
    + apply woke_refl.
    + intros j bn Hj Hl. apply lookup_lt_Some in Hl. lia.
    + by apply images_refl.
  - destruct (lookup_lt_is_Some_2 L i) as [b Hb]; [lia|].
    pose proof (lg_len _ _ _ HL) as Hlen. assert (b ∈ L) as HbL by (by eapply list_elem_of_lookup_2).
    destruct (lg_home _ _ _ HL _ HbL) as [Hbr Hbl].
    destruct (log_block_range st _ i Hp) as (Hu & Hr & Hin); [lia|].
    assert (st + Z.of_nat i + 1 ∉ (list_to_set L : gset Z)) as Hnl.
    { intros Hx%elem_of_list_to_set. by destruct (lg_home _ _ _ HL _ Hx). }
    destruct (copy_blocks_ok w (lb s) V (list_to_set L) (st + Z.of_nat i + 1) b false) as
      (t1 & E1 & Hok1 & Hw1 & Hd1 & Hh1); try done.
    { intros <-. done. }
    { pose proof (loggable_size _ _ _ HL). unfold NBUF. lia. }
    { left. by apply elem_of_list_to_set. }
    cbn [for_tail]. erewrite bind_Ret; cycle 1.
    { apply (write_log_one_copy _ _ s); [apply Hm|]. rewrite (lm_start _ _ _ Hm), Hu.
      rewrite (log_mem_block _ _ _ _ _ Hm Hb), (loggable_u32 _ _ _ _ Hp HL HbL). exact E1. }
    cbn iota in Hok1, Hd1. rewrite difference_disjoint_L in Hok1 by set_solver.
    assert (length (disk t1) = length (disk (lb s))) as Hdl by (rewrite Hd1; apply length_insert).
    destruct (IH (S i) (set_lb t1 s) (<[st + Z.of_nat i + 1 := V b]> V)) as
      (t & V' & E & Hok' & Hw' & HV1 & HV2 & Him); cbn [lb set_lb]; rewrite ?Hdl; try done.
    { by apply log_mem_lb. }
    { by eapply woke_unlocked. }
    { lia. }
    replace (Z.of_nat i + 1) with (Z.of_nat (S i)) by lia. exists t, V'. rewrite E. cbn [lb set_lb] in Him.
    rewrite Hdl in Him. split_and!; try done.
    + eapply woke_trans; eauto.
    + intros j bn Hj Hjb. destruct (decide (j = i)) as [->|Hne].
      * rewrite HV2 by lia. rewrite fn_lookup_insert. congruence.
      * rewrite (HV1 j bn) by (done || lia). apply fn_lookup_insert_ne.
        intros <-. apply Hnl, elem_of_list_to_set. by eapply list_elem_of_lookup_2.
    + intros bn Hbn. rewrite HV2 by lia. apply fn_lookup_insert_ne. lia.
    + assert (∀ bn, 0 ≤ bn → bn ≤ st ∨ ¬ in_log st bn → blk (disk t1) bn = blk (disk (lb s)) bn) as Hsame.
      { intros bn H0 Hbn. rewrite Hd1, blk_insert by done. rewrite decide_False; [done|].
        intros ->. destruct Hbn; [lia|done]. }
      eapply images_trans; [apply images_step; [done| |exact Hh1]; done|].
      eapply images_mono; [|exact Him]. cbn. intros d [Hl Hd]. split; [done|].
      intros bn H0 Hbn. rewrite Hd, Hsame by done. done.
Qed.

(** ** The header block *)

Lemma length_write_blocks bl k i data : length (write_blocks bl k i data) = length data.
Proof. revert i data. induction k as [|k IH]; intros; cbn [write_blocks]; [done|]. by rewrite IH, length_wr. Qed.

Lemma write_blocks_other bl k i data o :
  (o + 4 ≤ 4 + 4 * i)%nat → rd32 o (write_blocks bl k i data) = rd32 o data.
Proof.
  revert i data. induction k as [|k IH]; intros i data Ho; cbn [write_blocks]; [done|].
  rewrite IH by lia. apply rd_wr_ne. lia.
Qed.

Lemma write_blocks_entry bl k i data j :
  (i ≤ j < i + k)%nat → (4 + 4 * (i + k) ≤ length data)%nat →
  rd32 (4 + 4 * j) (write_blocks bl k i data) = u32 (default 0 (bl !! j)).
Proof.
  revert i data. induction k as [|k IH]; intros i data Hj Hl; [lia|]. cbn [write_blocks].
  destruct (decide (j = i)) as [->|].
  - rewrite write_blocks_other by lia. apply rd_wr; [lia|]. apply u32_range.
  - apply IH; [lia|]. rewrite length_wr. lia.
Qed.

Definition new_hdr (bl : list Z) (n : Z) (data : list Z) : list Z :=
  write_blocks bl (Z.to_nat n) 0 (wr32 0 (u32 n) data).

Lemma new_hdr_spec bl L data d st :
  take (length L) bl = L → (length L ≤ 29)%nat → (∀ bn, bn ∈ L → 0 ≤ bn < 2147483648) →
  length data = BSIZE → blk d st = new_hdr bl (Z.of_nat (length L)) data →
  hdr_n st d = Z.of_nat (length L) ∧ hdr_blocks st d = L ∧ length (blk d st) = BSIZE.
Proof.
  intros Hbl Hlen Hr Hd Hb. unfold new_hdr in Hb. rewrite Nat2Z.id in Hb.
  assert (hdr_n st d = Z.of_nat (length L)) as Hn.
  { unfold hdr_n. rewrite Hb, write_blocks_other by lia. rewrite rd_wr.
    - rewrite s32_u32. apply s32_small. lia.
    - rewrite Hd. unfold BSIZE. lia.
    - apply u32_range. }
  split_and!; [done| |by rewrite Hb, length_write_blocks, length_wr].
  unfold hdr_blocks. rewrite Hn, Nat2Z.id, Hb. apply list_eq. intros j.
  destruct (decide (j < length L)%nat) as [Hj|Hj].
  - rewrite list_lookup_fmap, lookup_seq_lt by done. cbn [fmap option_fmap option_map].
    rewrite Nat.add_0_l, write_blocks_entry; [|lia|rewrite length_wr, Hd; unfold BSIZE; lia].
    destruct (lookup_lt_is_Some_2 L j Hj) as [x Hx]. rewrite Hx.
    assert (bl !! j = Some x) as ->. { rewrite <- Hbl in Hx. by apply lookup_take_Some in Hx as [? _]. }
    change (default 0 (Some x)) with x. rewrite s32_u32, s32_small; [done|].
    specialize (Hr x ltac:(by eapply list_elem_of_lookup_2)). lia.
  - rewrite !lookup_ge_None_2; [done|lia|]. rewrite length_fmap, length_seq. lia.
Qed.

Lemma length_read_blocks data k i bl : length (read_blocks data k i bl) = length bl.
Proof. revert i bl. induction k as [|k IH]; intros; cbn; [done|]. by rewrite IH, length_insert. Qed.

Lemma read_blocks_lookup data k i bl j :
  (i + k ≤ length bl)%nat →
  read_blocks data k i bl !! j =
  if decide (i ≤ j < i + k)%nat then Some (s32 (rd32 (4 + 4 * j) data)) else bl !! j.
Proof.
  revert i bl. induction k as [|k IH]; intros i bl Hl; cbn [read_blocks].
  - rewrite decide_False by lia. done.
  - rewrite IH by (rewrite length_insert; lia). destruct (decide (j = i)) as [->|].
    + rewrite decide_False, decide_True by lia. rewrite list_lookup_insert_eq by lia. done.
    + rewrite list_lookup_insert_ne by done. destruct (decide (S i ≤ j < S i + k)%nat).
      * by rewrite decide_True by lia.
      * by rewrite decide_False by lia.
Qed.

Lemma read_blocks_take data k bl :
  (k ≤ length bl)%nat →
  take k (read_blocks data k 0 bl) = (λ i, s32 (rd32 (4 + 4 * i) data)) <$> seq 0 k.
Proof.
  intros Hl. apply list_eq. intros j. rewrite list_lookup_fmap. destruct (decide (j < k)%nat).
  - rewrite lookup_take_lt, read_blocks_lookup, decide_True, lookup_seq_lt by lia. done.
  - rewrite lookup_take_ge by lia. by rewrite lookup_seq_ge by lia.
Qed.

(** Reading, changing and writing back one block. *)
Lemma rewrite_block_ok w s V P b f :
  bcache_ok s V ∅ P → unlocked (bc s) → 0 ≤ b < Z.of_nat (length (disk s)) → (size P < NBUF)%nat →
  ∃ s', (x <- bread (S w) DEV b;; upd_data x f;; bwrite x;; brelse x) s = Ret tt s' ∧
    bcache_ok s' (<[b := f (V b)]> V) ∅ (P ∖ {[b]}) ∧ woke (bc s) (bc s') ∧
    disk s' = <[Z.to_nat b := f (V b)]> (disk s) ∧ hist s' = disk s :: hist s.
Proof.
  intros Hok (Hl1 & Hl2 & _) Hb Hsz.
  destruct (bread_run w s V ∅ P b) as (x & g & E1 & _ & Hok1 & Hd1 & _); [done..|right; by rewrite map_size_empty|].
  set (s1 := others x g s) in *.
  assert ((<[x:=b]> ∅ : gmap nat Z) !! x = Some b) as Hx by (by rewrite lookup_insert_eq).
  pose proof (bcache_length _ _ _ _ Hok1) as Hlen. destruct (bo_held _ _ _ _ Hok1 _ _ Hx) as (Hlt & _).
  pose proof (bcache_set_data _ _ _ _ x b (f (V b)) Hok1 Hx) as Hok2.
  set (s2 := others x (set_bdata (f (V b))) s1) in *.
  assert (bdata (getb x s2) = f (V b)) as Hd2 by (unfold s2; by rewrite getb_others, decide_True by lia).
  destruct (bwrite_run _ _ _ _ _ _ Hok2 Hx) as (s3 & E3 & Hok3 & Hdk3 & Hh3 & Hc3 & Hdt3).
  rewrite Hd2 in Hok3, Hdk3.
  destruct (brelse_run _ _ _ _ x b Hok3) as (s4 & E4 & Hok4 & Hw & Hdk4 & Hh4 & _); [done|..].
  { by rewrite Hdt3, Hd2, fn_lookup_insert. }
  { by rewrite Hc3. }
  { by rewrite Hc3. }
  exists s4. rewrite (bind_Ret _ _ _ _ _ E1). unfold bind at 1, upd_data, bupd, modify. cbn [obind].
  assert (set_bufs (alter (λ b0, set_bdata (f (bdata b0)) b0) x (bufs s1)) s1 = s2) as ->.
  { unfold s2, others. f_equal. apply list_alter_ext; [|done]. intros y Hy.
    assert (getb x s1 = y) as <- by (unfold getb; by rewrite Hy). by rewrite Hd1. }
  rewrite (bind_Ret _ _ _ _ _ E3).
  rewrite delete_insert_id in Hok4 by done. split_and!; [done|done| |by rewrite Hdk4, Hdk3|by rewrite Hh4, Hh3].
  rewrite Hc3 in Hw. exact Hw.
Qed.

Lemma read_block_ok w s V P b :
  bcache_ok s V ∅ P → unlocked (bc s) → 0 ≤ b < Z.of_nat (length (disk s)) → (size P < NBUF)%nat →
  ∃ x s1 s', bread (S w) DEV b s = Ret x s1 ∧ data_of x s1 = Ret (V b) s1 ∧ brelse x s1 = Ret tt s' ∧
    bcache_ok s' V ∅ P ∧ woke (bc s) (bc s') ∧ disk s' = disk s ∧ hist s' = hist s.
Proof.
  intros Hok (Hl1 & Hl2 & _) Hb Hsz.
  destruct (bread_run w s V ∅ P b) as (x & g & E1 & _ & Hok1 & Hd1 & _); [done..|right; by rewrite map_size_empty|].
  destruct (brelse_run _ _ _ _ x b Hok1) as (s' & E2 & Hok2 & Hw & Hdk & Hh & _); try done.
  { by rewrite lookup_insert_eq. }
  exists x, (others x g s), s'. rewrite delete_insert_id in Hok2 by done. split_and!; try done.
  unfold data_of, bget_field, gets. by rewrite Hd1.
Qed.

Lemma write_head_ok w s st L V P :
  log_mem s st L → log_place st (length (disk (lb s))) → bcache_ok (lb s) V ∅ P → unlocked (bc (lb s)) →
  (size P < NBUF)%nat → st ∉ P →
  let h := new_hdr (lh_block s) (Z.of_nat (length L)) (V st) in
  ∃ t, write_head (S w) s = Ret tt (set_lb t s) ∧ bcache_ok t (<[st := h]> V) ∅ P ∧ woke (bc (lb s)) (bc t) ∧
    disk t = <[Z.to_nat st := h]> (disk (lb s)) ∧ hist t = disk (lb s) :: hist (lb s).
Proof.
  intros [M1 M2 M3 _ _] [P1 P2 P3] Hok Hul Hsz Hst h. unfold LOGSIZE, MAXOPBLOCKS in P2.
  destruct (rewrite_block_ok w (lb s) V P st (new_hdr (lh_block s) (Z.of_nat (length L)))) as
    (t & E & Hok' & Hw & Hd & Hh); try done; [lia|].
  rewrite difference_disjoint_L in Hok' by set_solver. exists t. split_and!; try done.
  unfold write_head. unfold bind at 1, gets at 1. cbn [obind]. unfold bind at 1, gets at 1. cbn [obind].
  rewrite M1, M2, u32_small by (unfold W32; lia). follow E. unfold bind at 1, gets at 1. cbn [obind].
  unfold bind at 1, gets at 1. cbn [obind]. cbn [lh_n lh_block set_lb]. rewrite M3.
  do 2 follow E. by apply (ll_Ret _ (set_lb _ s)).
Qed.

Lemma read_head_ok w s st V d :
  ldev s = DEV → lstart s = st → length (lh_block s) = Z.to_nat LOGSIZE → disk (lb s) = d →
  log_place st (length d) → bcache_ok (lb s) V ∅ ∅ → unlocked (bc (lb s)) → 0 ≤ hdr_n st d ≤ 29 →
  ∃ s', read_head (S w) s = Ret tt s' ∧ log_mem s' st (hdr_blocks st d) ∧ bcache_ok (lb s') V ∅ ∅ ∧
    woke (bc (lb s)) (bc (lb s')) ∧ disk (lb s') = d ∧ hist (lb s') = hist (lb s) ∧
    lsize s' = lsize s ∧ outstanding s' = outstanding s ∧ committing s' = committing s.
Proof.
  intros M1 M2 M3 <- [P1 P2 P3] Hok Hul Hn. unfold LOGSIZE, MAXOPBLOCKS in P2, M3.
  destruct (read_block_ok w (lb s) V ∅ st Hok Hul) as (x & s1 & s2 & E1 & E2 & E3 & Hok2 & Hw & Hd & Hh);
    [lia|rewrite size_empty; unfold NBUF; lia|].
  assert (V st = blk (disk (lb s)) st) as HV by (symmetry; eapply bcache_blk; [done|lia|set_solver]).
  assert (length (hdr_blocks st (disk (lb s))) = Z.to_nat (hdr_n st (disk (lb s)))) as Hlen
    by (unfold hdr_blocks; by rewrite length_fmap, length_seq).
  unfold read_head. unfold bind at 1, gets at 1. cbn [obind]. unfold bind at 1, gets at 1. cbn [obind].
  rewrite M1, M2, u32_small by (unfold W32; lia).
  rewrite (bind_Ret _ _ _ _ _ (ll_Ret _ s _ _ E1)), (bind_Ret _ _ _ _ _ (ll_Ret _ (set_lb s1 s) _ _ E2)).
  rewrite HV. fold (hdr_n st (disk (lb s))). unfold bind at 1, modify. cbn [obind].
  unfold bind at 1. cbn [obind].
  eexists. split; [apply ll_Ret; exact E3|]. cbn [lb set_lb]. split_and!; try done.
  split; cbn; try done.
  - rewrite Hlen. lia.
  - by rewrite length_read_blocks, M3.
  - rewrite Hlen, read_blocks_take; [done|]. rewrite M3. lia.
Qed.

(** ** Installing *)

(** The log is unchanged, and a home block is unchanged or has been replaced
    by its copy in the log. *)
Definition installing (st : Z) (L : list Z) (d0 d : list (list Z)) : Prop :=
  length d = length d0 ∧ (∀ bn, in_log st bn → blk d bn = blk d0 bn) ∧
  (∀ bn, 0 ≤ bn → bn ∉ L → blk d bn = blk d0 bn).

Lemma drop_pinned (L : list Z) i b :
  NoDup L → L !! i = Some b → (list_to_set (drop i L) : gset Z) ∖ {[b]} = list_to_set (drop (S i) L).
Proof.
  intros Hnd Hb. rewrite (drop_S L b i Hb). cbn.
  assert (b ∉ drop (S i) L) as Hn.
  { assert (NoDup (drop i L)) as Hd by (eapply sublist_NoDup; [exact Hnd|apply sublist_drop]).
    rewrite (drop_S L b i Hb) in Hd. by apply NoDup_cons in Hd as [? _]. }
  apply set_eq. intros x. rewrite elem_of_difference, elem_of_union, !elem_of_singleton, elem_of_list_to_set.
  split; [tauto|]. intros Hx. split; [tauto|]. by intros ->.
Qed.

Lemma install_loop w k i s st L V P :
  log_mem s st L → log_place st (length (disk (lb s))) → loggable st (length (disk (lb s))) L →
  bcache_ok (lb s) V ∅ P → P = list_to_set (drop i L) ∨ P = ∅ → unlocked (bc (lb s)) → (i + k = length L)%nat →
  ∃ t V', for_tail (install_one (S w)) k (Z.of_nat i) s = Ret tt (set_lb t s) ∧
    bcache_ok t V' ∅ ∅ ∧ woke (bc (lb s)) (bc t) ∧
    (∀ j bn, (i ≤ j)%nat → L !! j = Some bn → V' bn = V (st + Z.of_nat j + 1)) ∧
    (∀ bn, bn ∉ drop i L → V' bn = V bn) ∧
    images (installing st L (disk (lb s))) (lb s) t.
Proof.
  revert i s V P. induction k as [|k IH]; intros i s V P Hm Hp HL Hok HP Hul Hk.
  - exists (lb s), V. split_and!; try done.
    + by destruct s.
    + rewrite drop_ge in HP by lia. by destruct HP as [-> | ->].
    + apply woke_refl.
    + intros j bn Hj Hl. apply lookup_lt_Some in Hl. lia.
    + by apply images_refl.
  - destruct (lookup_lt_is_Some_2 L i) as [b Hb]; [lia|].
    pose proof (lg_len _ _ _ HL) as Hlen. assert (b ∈ L) as HbL by (by eapply list_elem_of_lookup_2).
    destruct (lg_home _ _ _ HL _ HbL) as [Hbr Hbl].
    destruct (log_block_range st _ i Hp) as (Hu & Hr & Hin); [lia|].
    assert (b ∈ P ∨ P = ∅) as HbP.
    { destruct HP as [-> | ->]; [left|by right]. apply elem_of_list_to_set. rewrite (drop_S _ _ _ Hb). by left. }
    assert (size P ≤ 29)%nat as HszP.
    { destruct HP as [-> | ->]; [|rewrite size_empty; lia]. rewrite size_list_to_set, length_drop; [lia|].
      eapply sublist_NoDup; [apply HL|apply sublist_drop]. }
    destruct (copy_blocks_ok w (lb s) V P (st + Z.of_nat i + 1) b true) as
      (t1 & E1 & Hok1 & Hw1 & Hd1 & Hh1); try done.
    { intros <-. done. }
    { unfold NBUF. lia. }
    { destruct HbP as [?| ->]; [by left|right]. rewrite size_empty. unfold NBUF. lia. }
    cbn [for_tail]. erewrite bind_Ret; cycle 1.
    { apply (install_one_copy _ _ s); [apply Hm|]. rewrite (lm_start _ _ _ Hm), Hu.
      rewrite (log_mem_block _ _ _ _ _ Hm Hb), (loggable_u32 _ _ _ _ Hp HL HbL). exact E1. }
    cbn iota in Hok1, Hd1.
    assert (length (disk t1) = length (disk (lb s))) as Hdl by (rewrite Hd1; apply length_insert).
    destruct (IH (S i) (set_lb t1 s) (<[b := V (st + Z.of_nat i + 1)]> V) (P ∖ {[b]})) as
      (t & V' & E & Hok' & Hw' & HV1 & HV2 & Him); cbn [lb set_lb]; rewrite ?Hdl; try done.
    { by apply log_mem_lb. }
    { destruct HP as [-> | ->]; [left|right; apply empty_difference_L]. apply drop_pinned; [apply HL|done]. }
    { by eapply woke_unlocked. }
    { lia. }
    assert (b ∉ drop (S i) L) as Hnb.
    { assert (NoDup (drop i L)) as Hd by (eapply sublist_NoDup; [apply HL|apply sublist_drop]).
      rewrite (drop_S L b i Hb) in Hd. by apply NoDup_cons in Hd as [? _]. }
    replace (Z.of_nat i + 1) with (Z.of_nat (S i)) by lia. exists t, V'. rewrite E. cbn [lb set_lb] in Him.
    split_and!; try done.
    + eapply woke_trans; eauto.
    + intros j bn Hj Hjb. destruct (decide (j = i)) as [->|Hne].
      * rewrite Hb in Hjb. injection Hjb as <-. by rewrite HV2, fn_lookup_insert by done.
      * rewrite (HV1 j bn) by (done || lia). apply fn_lookup_insert_ne. intros ->. apply Hbl.
        apply (log_block_range st _ j Hp). apply lookup_lt_Some in Hjb. lia.
    + intros bn Hbn. rewrite (drop_S _ _ _ Hb), not_elem_of_cons in Hbn. destruct Hbn as [Hbn1 Hbn2].
      rewrite HV2 by done. by apply fn_lookup_insert_ne.
    + assert (installing st L (disk (lb s)) (disk t1)) as Hi1.
      { split_and!; [done|..]; intros bn Hbn.
        - rewrite Hd1, blk_insert by (done || (unfold in_log in Hbn; destruct Hp; lia)).
          rewrite decide_False; [done|]. by intros ->.
        - intros HnL. rewrite Hd1, blk_insert by done. rewrite decide_False; [done|]. by intros ->. }
      eapply images_trans; [apply images_step; [|exact Hi1|exact Hh1]; done|].
      eapply images_mono; [|exact Him]. cbn. destruct Hi1 as (G1 & G2 & G3). intros d (F1 & F2 & F3).
      split_and!; [congruence|..]; intros bn ?; [by rewrite F2, G2|]. intros ?. by rewrite F3, G3.
Qed.

(** ** Recovery of an image *)

Lemma recovered_in st d L j bn :
  hdr_blocks st d = L → NoDup L → L !! j = Some bn → recovered st d bn = blk d (st + Z.of_nat j + 1).
Proof.
  intros Hh Hnd Hj. unfold recovered. rewrite Hh.
  assert (list_find (eq bn) L = Some (j, bn)) as ->; [|done].
  apply list_find_Some. split_and!; try done. intros k y Hk Hlt ->.
  assert (j = k) by (by eapply NoDup_lookup). lia.
Qed.

Lemma recovered_out st d L bn : hdr_blocks st d = L → bn ∉ L → recovered st d bn = blk d bn.
Proof.
  intros Hh Hn. unfold recovered. rewrite Hh.
  assert (list_find (eq bn) L = None) as ->; [|done].
  apply list_find_None, Forall_forall. intros x Hx ->. done.
Qed.

Lemma hdr_blocks_nil st d : hdr_n st d = 0 → hdr_blocks st d = [].
Proof. intros Hn. unfold hdr_blocks. by rewrite Hn. Qed.

Lemma loggable_nil st nb : loggable st nb [].
Proof. split; [constructor|cbn; lia|set_solver]. Qed.

Lemma recoverable_empty st nb d D :
  length d = nb → log_place st nb → hdr_n st d = 0 → length (blk d st) = BSIZE →
  (∀ bn, 0 ≤ bn < Z.of_nat nb → ¬ in_log st bn → blk d bn = D bn) → recoverable st nb d D.
Proof.
  intros Hlen Hp Hn Hl Hd. pose proof (hdr_blocks_nil _ _ Hn) as Hb. split; try done.
  - lia.
  - rewrite Hb. apply loggable_nil.
  - intros bn Hr Hin. rewrite (recovered_out _ _ _ _ Hb) by set_solver. by apply Hd.
Qed.

Lemma recoverable_full st nb d L D :
  length d = nb → log_place st nb → hdr_n st d = Z.of_nat (length L) → hdr_blocks st d = L →
  length (blk d st) = BSIZE → loggable st nb L →
  (∀ j bn, L !! j = Some bn → blk d (st + Z.of_nat j + 1) = D bn) →
  (∀ bn, 0 ≤ bn < Z.of_nat nb → ¬ in_log st bn → bn ∉ L → blk d bn = D bn) → recoverable st nb d D.
Proof.
  intros Hlen Hp Hn Hb Hl HL H1 H2. pose proof (lg_len _ _ _ HL). split; [done|done|lia|done|by rewrite Hb|].
  intros bn Hr Hin. destruct (decide (bn ∈ L)) as [HbL|HbL].
  - apply list_elem_of_lookup in HbL as [j Hj]. rewrite (recovered_in _ _ _ _ _ Hb (lg_nodup _ _ _ HL) Hj). by apply H1.
  - rewrite (recovered_out _ _ _ _ Hb HbL). by apply H2.
Qed.

(** While blocks are being installed the image stays recoverable. *)
Lemma installing_recoverable st nb d0 d D :
  recoverable st nb d0 D → installing st (hdr_blocks st d0) d0 d → recoverable st nb d D.
Proof.
  intros [Hl0 Hp R1 R2 R3 R4] (I1 & I2 & I3).
  assert (in_log st st) as Hst by (unfold in_log, LOGSIZE, MAXOPBLOCKS; lia).
  assert (hdr_n st d = hdr_n st d0) as Hn by (unfold hdr_n; by rewrite I2).
  assert (hdr_blocks st d = hdr_blocks st d0) as Hb by (unfold hdr_blocks; by rewrite Hn, I2).
  assert (length (hdr_blocks st d0) = Z.to_nat (hdr_n st d0)) as Hlen
    by (unfold hdr_blocks; by rewrite length_fmap, length_seq).
  apply (recoverable_full _ _ _ (hdr_blocks st d0)); try done.
  - congruence.
  - rewrite Hn, Hlen. lia.
  - by rewrite I2.
  - intros j bn Hj. pose proof (lookup_lt_Some _ _ _ Hj) as Hlt.
    destruct (log_block_range st _ j Hp) as (_ & Hr & Hin); [lia|]. rewrite I2 by done.
    rewrite <- R4; [|by eapply lg_home, list_elem_of_lookup_2..].
    symmetry. by apply (recovered_in _ _ _ _ _ eq_refl); [apply R3|].
  - intros bn Hr Hin Hnb. rewrite I3 by (done || lia). rewrite <- R4 by done.
    symmetry. by apply (recovered_out _ _ _ _ eq_refl).
Qed.

Record log_ok (s : lst) (st : Z) (V : Z → list Z) (H : gmap nat Z) (L : list Z) : Prop := {
  lo_mem : log_mem s st L;
  lo_size : lsize s = LOGSIZE;
  lo_place : log_place st (length (disk (lb s)));
  lo_log : loggable st (length (disk (lb s))) L;
  lo_cache : bcache_ok (lb s) V H (list_to_set L);
  lo_hdr : rd32 0 (V st) = 0;
  lo_hlen : length (V st) = BSIZE
}.

Lemma in_log_start st : in_log st st.
Proof. unfold in_log, LOGSIZE, MAXOPBLOCKS. lia. Qed.

Lemma in_log_not_logged st nb L bn : loggable st nb L → in_log st bn → bn ∉ (list_to_set L : gset Z).
Proof. intros HL Hin Hb%elem_of_list_to_set. by destruct (lg_home _ _ _ HL _ Hb). Qed.

(** Writing the header of the transaction makes the new state durable, and
    clearing it does not lose it. *)
Lemma log_header_image st d bl L data D :
  log_place st (length d) → loggable st (length d) L → take (length L) bl = L → length data = BSIZE →
  let d' := <[Z.to_nat st := new_hdr bl (Z.of_nat (length L)) data]> d in
  (∀ j bn, L !! j = Some bn → blk d (st + Z.of_nat j + 1) = D bn) →
  (∀ bn, 0 ≤ bn < Z.of_nat (length d) → ¬ in_log st bn → bn ∉ L → blk d bn = D bn) →
  recoverable st (length d) d' D ∧ hdr_blocks st d' = L ∧ length d' = length d.
Proof.
  intros Hp HL Hbl Hd d' H1 H2. pose proof Hp as [P1 P2 P3]. unfold LOGSIZE, MAXOPBLOCKS in P2.
  pose proof (lg_len _ _ _ HL) as Hlen.
  assert (length d' = length d) as Hdl by apply length_insert.
  assert (∀ bn, 0 ≤ bn → blk d' bn = if decide (bn = st) then new_hdr bl (Z.of_nat (length L)) data else blk d bn) as Hblk
    by (intros bn Hbn; apply blk_insert; lia).
  destruct (new_hdr_spec bl L data d' st) as (Hn & Hb & Hl); try done.
  { intros bn Hbn. destruct (lg_home _ _ _ HL _ Hbn). lia. }
  { by rewrite Hblk, decide_True by lia. }
  split_and!; try done. apply (recoverable_full _ _ _ L); try done.
  - intros j bn Hj. rewrite Hblk, decide_False by lia. by apply H1.
  - intros bn Hr Hin HbL. rewrite Hblk, decide_False; [by apply H2| |lia].
    intros ->. apply Hin, in_log_start.
Qed.

Lemma write_log_run w s st L t :
  log_mem s st L → for_tail (write_log_one (S w)) (length L) 0 s = Ret tt t → write_log (S w) s = Ret tt t.
Proof.
  intros Hm E. unfold write_log. unfold bind, gets. cbn [obind]. by rewrite (lm_n _ _ _ Hm), Nat2Z.id.
Qed.

Lemma install_trans_run w s st L t :
  log_mem s st L → for_tail (install_one (S w)) (length L) 0 s = Ret tt t → install_trans (S w) s = Ret tt t.
Proof.
  intros Hm E. unfold install_trans. unfold bind, gets. cbn [obind]. by rewrite (lm_n _ _ _ Hm), Nat2Z.id.
Qed.

(** Installing the logged blocks and clearing the header, as commit and
    recovery do: every image on the way is recoverable to the same contents. *)
Lemma install_clear_ok w s st L V P D :
  log_mem s st L → log_place st (length (disk (lb s))) → bcache_ok (lb s) V ∅ P →
  P = list_to_set L ∨ P = ∅ → unlocked (bc (lb s)) →
  recoverable st (length (disk (lb s))) (disk (lb s)) D → hdr_blocks st (disk (lb s)) = L →
  ∃ t V', (install_trans (S w);; modify (set_lh_n 0);; write_head (S w)) s = Ret tt (set_lb t (set_lh_n 0 s)) ∧
    bcache_ok t V' ∅ ∅ ∧ length (disk t) = length (disk (lb s)) ∧ woke (bc (lb s)) (bc t) ∧
    rd32 0 (V' st) = 0 ∧ length (V' st) = BSIZE ∧
    (∀ bn, 0 ≤ bn < Z.of_nat (length (disk (lb s))) → ¬ in_log st bn → V' bn = D bn) ∧
    images (λ d, recoverable st (length (disk (lb s))) d D) (lb s) t.
Proof.
  intros Hm Hp Hok HP Hul Hrc Hhb. pose proof Hrc as [_ _ R1 R2 HL R4]. rewrite Hhb in HL.
  pose proof Hp as [P1 P2 P3]. unfold LOGSIZE, MAXOPBLOCKS in P2. pose proof (lg_len _ _ _ HL) as Hlen.
  assert (∀ bn, bn ∉ L → bn ∉ P) as HPL.
  { intros bn Hb. destruct HP as [-> | ->]; [by rewrite elem_of_list_to_set|set_solver]. }
  assert (∀ bn, in_log st bn → bn ∉ L) as Hin by (intros bn Hi Hb; by destruct (lg_home _ _ _ HL _ Hb)).
  destruct (install_loop w (length L) 0 s st L V P) as (t3 & V3 & E3 & Hok3 & Hw3 & HV3 & HV3' & Him3); try done.
  pose proof Him3 as ((Hl3 & Hdk3 & _) & _).
  erewrite bind_Ret; [|apply (install_trans_run w s st L); [done|exact E3]].
  set (s3 := set_lb t3 s). unfold bind at 1, modify. cbn [obind].
  assert (log_mem (set_lh_n 0 s3) st []) as Hm3 by (destruct Hm; by split).
  destruct (write_head_ok w (set_lh_n 0 s3) st [] V3 ∅) as (t4 & E4 & Hok4 & Hw4 & Hd4 & Hh4);
    cbn [lb set_lb set_lh_n s3]; try done.
  { by rewrite Hl3. }
  { by eapply woke_unlocked. }
  { rewrite size_empty. unfold NBUF. lia. }
  cbn [lb set_lb set_lh_n s3 lh_block] in Hok4, Hw4, Hd4, Hh4, E4.
  assert (∀ bn, 0 ≤ bn < Z.of_nat (length (disk (lb s))) → ¬ in_log st bn → V3 bn = D bn) as Hhome.
  { intros bn Hr Hi. rewrite <- R4 by done. destruct (decide (bn ∈ L)) as [HbL|HbL].
    - apply list_elem_of_lookup in HbL as [j Hj]. rewrite (HV3 j bn) by (done || lia).
      rewrite (recovered_in _ _ _ _ _ Hhb (lg_nodup _ _ _ HL) Hj). pose proof (lookup_lt_Some _ _ _ Hj).
      destruct (log_block_range st _ j Hp) as (_ & ? & ?); [lia|]. symmetry. eapply bcache_blk; [done|done|by apply HPL, Hin].
    - rewrite HV3', (recovered_out _ _ _ _ Hhb) by done. symmetry. eapply bcache_blk; [done|done|by apply HPL]. }
  assert (recoverable st (length (disk (lb s))) (disk t3) D) as Hrc3.
  { eapply installing_recoverable; [exact Hrc|rewrite Hhb; apply Him3]. }
  assert (V3 st = V st) as HVst by (apply HV3', Hin, in_log_start).
  assert (length (V3 st) = BSIZE) as HV3l.
  { rewrite HVst, <- R2. f_equal. symmetry. eapply bcache_blk; [done|lia|apply HPL, Hin, in_log_start]. }
  destruct (log_header_image st (disk t3) (lh_block s) [] (V3 st) D) as (Hrc4 & _ & Hl4);
    rewrite ?Hl3; try done; [apply loggable_nil| |].
  { intros bn Hr Hi _. rewrite <- Hhome by done. eapply bcache_blk; [exact Hok3|by rewrite Hl3|set_solver]. }
  rewrite <- Hd4 in Hrc4, Hl4. rewrite Hl3 in Hrc4.
  exists t4, (<[st := new_hdr (lh_block s) 0 (V3 st)]> V3). split_and!; try done.
  - congruence.
  - eapply woke_trans; eauto.
  - rewrite fn_lookup_insert. unfold new_hdr. cbn [write_blocks Z.to_nat].
    apply rd_wr; [rewrite HV3l; unfold BSIZE; lia|cbn; lia].
  - rewrite fn_lookup_insert. unfold new_hdr. by rewrite length_write_blocks, length_wr.
  - intros bn Hr Hi. rewrite fn_lookup_insert_ne by (intros <-; apply Hi, in_log_start). by apply Hhome.
  - eapply images_trans; [eapply images_mono; [|exact Him3]|apply images_step; [done|done|exact Hh4]].
    intros d Hi. eapply installing_recoverable; [exact Hrc|by rewrite Hhb].
Qed.

(** Writing the logged blocks and the header to the log: the images on the
    way recover to the old contents, the last one to the new ones. *)
Lemma log_and_head_ok w s st V L :
  log_ok s st V ∅ L → unlocked (bc (lb s)) →
  ∃ t V', (write_log (S w);; write_head (S w)) s = Ret tt (set_lb t s) ∧
    bcache_ok t V' ∅ (list_to_set L) ∧ length (disk t) = length (disk (lb s)) ∧ woke (bc (lb s)) (bc t) ∧
    recoverable st (length (disk (lb s))) (disk t) V ∧ hdr_blocks st (disk t) = L ∧
    images (λ d, recoverable st (length (disk (lb s))) d (blk (disk (lb s))) ∨
              recoverable st (length (disk (lb s))) d V) (lb s) t.
Proof.
  intros [Hm Hsz Hp HL Hok Hhd Hhl] Hul. pose proof (lg_len _ _ _ HL) as Hlen.
  pose proof (loggable_size _ _ _ HL) as Hset. pose proof (in_log_not_logged _ _ _ _ HL (in_log_start st)) as Hst.
  pose proof Hp as [P1 P2 P3]. unfold LOGSIZE, MAXOPBLOCKS in P2. set (d0 := disk (lb s)) in *.
  assert (∀ d, length d = length d0 → (∀ bn, 0 ≤ bn → bn ≤ st ∨ ¬ in_log st bn → blk d bn = blk d0 bn) →
    recoverable st (length d0) d (blk d0)) as Hold.
  { intros d Hdl Hd. assert (blk d st = V st) as Hh.
    { rewrite Hd by (lia || left; lia). eapply bcache_blk; [done|unfold d0 in *; lia|done]. }
    apply recoverable_empty; [done|done|unfold hdr_n; by rewrite Hh, Hhd|by rewrite Hh|].
    intros bn Hbn Hin. apply Hd; [lia|by right]. }
  destruct (write_log_loop w (length L) 0 s st L V) as (t1 & V1 & E1 & Hok1 & Hw1 & HV1 & HV1' & Him1); try done.
  fold d0 in Him1. pose proof Him1 as ((Hl1 & Hdk1) & _).
  erewrite bind_Ret; [|by apply (write_log_run w s st L)]. set (s1 := set_lb t1 s).
  destruct (write_head_ok w s1 st L V1 (list_to_set L)) as (t2 & E2 & Hok2 & Hw2 & Hd2 & Hh2);
    cbn [lb set_lb s1]; try done; [by apply log_mem_lb|by rewrite Hl1|by eapply woke_unlocked|unfold NBUF; lia|].
  cbn [lb set_lb s1 lh_block] in Hok2, Hw2, Hd2, Hh2. rewrite (HV1' st) in Hok2, Hd2 by lia.
  destruct (log_header_image st (disk t1) (lh_block s) L (V st) V) as (Hrc2 & Hhb2 & Hl2); rewrite ?Hl1; try done.
  { apply Hm. }
  { intros j bn Hj. pose proof (lookup_lt_Some _ _ _ Hj).
    destruct (log_block_range st _ j Hp) as (_ & Hr & Hin); [lia|].
    rewrite (bcache_blk _ _ _ _ _ Hok1); [|by rewrite Hl1|by eapply in_log_not_logged]. apply (HV1 j bn); [lia|done]. }
  { intros bn Hr Hin HbL. rewrite Hdk1 by (lia || by right).
    apply (bcache_blk _ _ _ _ _ Hok); [done|]. by rewrite elem_of_list_to_set. }
  rewrite <- Hd2 in Hrc2, Hhb2, Hl2. rewrite Hl1 in Hl2, Hrc2.
  eexists t2, _. split_and!; try done; [eapply woke_trans; eauto|].
  eapply images_trans; [eapply images_mono; [|exact Him1]; intros d [? ?]; left; by apply Hold|].
  apply images_step; [left; by apply Hold|by right|exact Hh2].
Qed.

Lemma commit_ok w s st V L :
  log_ok s st V ∅ L → unlocked (bc (lb s)) →
  ∃ t V', commit (S w) s = Ret tt (set_lb t (set_lh_n 0 s)) ∧
    log_ok (set_lb t (set_lh_n 0 s)) st V' ∅ [] ∧ length (disk t) = length (disk (lb s)) ∧
    (∀ bn, 0 ≤ bn < Z.of_nat (length (disk (lb s))) → ¬ in_log st bn → V' bn = V bn) ∧
    woke (bc (lb s)) (bc t) ∧
    images (λ d, recoverable st (length (disk (lb s))) d (blk (disk (lb s))) ∨
              recoverable st (length (disk (lb s))) d V) (lb s) t.
Proof.
  intros Hlog Hul. pose proof Hlog as [Hm Hsz Hp HL Hok Hhd Hhl].
  unfold commit. unfold bind at 1, gets. cbn [obind]. rewrite (lm_n _ _ _ Hm).
  destruct (log_and_head_ok w s st V L Hlog Hul) as (t1 & V1 & E1 & Hok1 & Hl1 & Hw1 & Hrc1 & Hhb1 & Him1).
  destruct (0 <? Z.of_nat (length L)) eqn:En; cycle 1; bools.
  { assert (L = []) as -> by (destruct L; [done|cbn in En; lia]).
    exists (lb s), V. split_and!; try done.
    - unfold ret. f_equal. pose proof (lm_n _ _ _ Hm) as Hn. cbn in Hn. destruct s; cbn in *; by subst.
    - split; try done. destruct Hm; by split.
    - apply woke_refl.
    - apply images_refl. right. apply recoverable_empty; [done|done|..].
      + unfold hdr_n. rewrite (bcache_blk _ _ _ _ _ Hok), Hhd; [done| |set_solver].
        destruct Hp; unfold LOGSIZE, MAXOPBLOCKS in *; lia.
      + rewrite (bcache_blk _ _ _ _ _ Hok); [done| |set_solver]. destruct Hp; unfold LOGSIZE, MAXOPBLOCKS in *; lia.
      + intros bn Hr _. eapply bcache_blk; [done|done|set_solver]. }
  destruct (install_clear_ok w (set_lb t1 s) st L V1 (list_to_set L) V) as
    (t & V' & E & Hok' & Hl & Hw & Hh1 & Hh2 & Hhome & Him); cbn [lb set_lb]; rewrite ?Hl1; try done.
  { by apply log_mem_lb. }
  { by left. }
  { by eapply woke_unlocked. }
  cbn [lb set_lb] in Hl, Hw, Hhome, Him. rewrite Hl1 in Hl, Hhome, Him.
  apply bind_Ret_inv in E1 as ([] & s1 & E1 & E2).
  exists t, V'. rewrite (bind_Ret _ _ _ _ _ E1), (bind_Ret _ _ _ _ _ E2), E. split_and!; try done.
  - split; cbn [lb set_lb lsize set_lh_n]; rewrite ?Hl; try done; [destruct Hm; by split|apply loggable_nil].
  - eapply woke_trans; eauto.
  - eapply images_trans; [exact Him1|]. eapply images_mono; [|exact Him]. intros d; by right.
Qed.

Lemma recover_ok w s st V D :
  ldev s = DEV → lstart s = st → length (lh_block s) = Z.to_nat LOGSIZE →
  log_place st (length (disk (lb s))) → bcache_ok (lb s) V ∅ ∅ → unlocked (bc (lb s)) →
  recoverable st (length (disk (lb s))) (disk (lb s)) D →
  ∃ s' V', recover_from_log (S w) s = Ret tt s' ∧ bcache_ok (lb s') V' ∅ ∅ ∧ log_mem s' st [] ∧
    length (disk (lb s')) = length (disk (lb s)) ∧ woke (bc (lb s)) (bc (lb s')) ∧
    rd32 0 (V' st) = 0 ∧ length (V' st) = BSIZE ∧
    (∀ bn, 0 ≤ bn < Z.of_nat (length (disk (lb s))) → ¬ in_log st bn → V' bn = D bn) ∧
    lsize s' = lsize s ∧ outstanding s' = outstanding s ∧ committing s' = committing s ∧
    images (λ d, recoverable st (length (disk (lb s))) d D) (lb s) (lb s').
Proof.
  intros H1 H2 H3 Hp Hok Hul Hrc.
  destruct (read_head_ok w s st V (disk (lb s))) as
    (s1 & E1 & Hm1 & Hok1 & Hw1 & Hd1 & Hh1 & Hf1 & Hf2 & Hf3); try done; [apply Hrc|].
  destruct (install_clear_ok w s1 st (hdr_blocks st (disk (lb s))) V ∅ D) as
    (t & V' & E & Hok' & Hl & Hw & Hz & Hlen & Hhome & Him); rewrite ?Hd1; try done.
  { by right. }
  { by eapply woke_unlocked. }
  rewrite Hd1 in Hl, Hhome, Him. unfold recover_from_log. exists (set_lb t (set_lh_n 0 s1)), V'.
  rewrite (bind_Ret _ _ _ _ _ E1). cbn [lb set_lb]. split_and!; try done.
  - destruct Hm1. by split.
  - eapply woke_trans; eauto.
  - destruct Him as (Hq & imgs & Hi & Hall). split; [done|]. exists imgs. by rewrite Hi, Hh1.
Qed.

(** ** log_write *)

Lemma log_slot_spec bl k i bn :
  let r := log_slot bl k i bn in
  (i ≤ r ≤ i + k)%nat ∧ ((r < i + k)%nat → u32 (default 0 (bl !! r)) = bn) ∧
  (∀ j, (i ≤ j < r)%nat → u32 (default 0 (bl !! j)) ≠ bn).
Proof.
  revert i. induction k as [|k IH]; intros i r; cbn [log_slot] in r.
  - subst r. split_and!; intros; lia.
  - destruct (u32 (default 0 (bl !! i)) =? bn) eqn:E; bools; subst r.
    + split_and!; intros; [lia|lia|done|lia].
    + destruct (IH (S i)) as (H1 & H2 & H3). split_and!; [lia|lia|intros; apply H2; lia|].
      intros j Hj. destruct (decide (j = i)) as [->|]; [done|]. apply H3. lia.
Qed.

Definition logged (L : list Z) (bn : Z) : list Z := if decide (bn ∈ L) then L else L ++ [bn].

Lemma log_slot_index bl L bn st nb :
  log_place st nb → loggable st nb L → take (length L) bl = L →
  let r := log_slot bl (length L) 0 bn in
  (bn ∈ L → L !! r = Some bn) ∧ (bn ∉ L → r = length L).
Proof.
  intros Hp HL Hbl r. destruct (log_slot_spec bl (length L) 0 bn) as (H1 & H2 & H3). fold r in H1, H2, H3.
  assert (∀ j x, L !! j = Some x → u32 (default 0 (bl !! j)) = x) as Hget.
  { intros j x Hj. assert (bl !! j = Some x) as ->.
    { rewrite <- Hbl in Hj. by apply lookup_take_Some in Hj as [? _]. }
    by eapply loggable_u32; [..|eapply list_elem_of_lookup_2]. }
  destruct (decide (r < length L)%nat) as [Hr|Hr].
  - destruct (lookup_lt_is_Some_2 L r Hr) as [x Hx]. specialize (H2 ltac:(lia)). rewrite (Hget _ _ Hx) in H2. subst x.
    split; [done|]. intros []. by eapply list_elem_of_lookup_2.
  - split; [|lia]. intros [j Hj]%list_elem_of_lookup. pose proof (lookup_lt_Some _ _ _ Hj).
    exfalso. apply (H3 j); [lia|by apply Hget].
Qed.

Lemma log_slot_logged bl L bn st nb :
  log_place st nb → loggable st nb L → take (length L) bl = L → (length L < length bl)%nat →
  0 ≤ bn < Z.of_nat nb →
  let r := log_slot bl (length L) 0 bn in
  let bl' := <[r := s32 bn]> bl in
  take (length (logged L bn)) bl' = logged L bn ∧
  length (logged L bn) = if (r =? length L)%nat then S (length L) else length L.
Proof.
  intros Hp HL Hbl Hlen Hbn r bl'. destruct (log_slot_index bl L bn st nb Hp HL Hbl) as [H1 H2]. fold r in H1, H2.
  assert (s32 bn = bn) as Hs by (apply s32_small; destruct Hp; lia).
  unfold logged. destruct (decide (bn ∈ L)) as [Hin|Hin].
  - specialize (H1 Hin). pose proof (lookup_lt_Some _ _ _ H1). split.
    + unfold bl'. rewrite Hs, list_insert_id; [done|]. rewrite <- Hbl in H1. by apply lookup_take_Some in H1 as [? _].
    + by rewrite (proj2 (Nat.eqb_neq _ _)) by lia.
  - specialize (H2 Hin). unfold bl'. rewrite H2, Hs, Nat.eqb_refl, length_app, Nat.add_1_r. split; [|done].
    rewrite (take_S_r _ _ bn) by (by apply list_lookup_insert_eq). f_equal. by rewrite take_insert_ge.
Qed.

Lemma loggable_logged st nb L bn :
  loggable st nb L → (length L < 29)%nat → 0 ≤ bn < Z.of_nat nb → ¬ in_log st bn → loggable st nb (logged L bn).
Proof.
  intros HL Hlen Hr Hin. unfold logged. destruct (decide (bn ∈ L)); [done|]. destruct HL as [G1 G2 G3]. split.
  - apply NoDup_app. split_and!; [done|set_solver|apply NoDup_singleton].
  - rewrite length_app. cbn. lia.
  - intros x [Hx|Hx]%elem_of_app; [by apply G3|]. apply list_elem_of_singleton in Hx as ->. done.
Qed.

Lemma lc_acquire lk s : lk ∉ held (bc (lb s)) →
  lc (pacquire lk) s = Ret tt (set_lb (set_bc (set_held (lk :: held (bc (lb s))) (bc (lb s))) (lb s)) s).
Proof. intros. unfold lc. by apply ll_Ret, bb_acquire. Qed.

Lemma lc_release lk s h : held (bc (lb s)) = lk :: h →
  lc (prelease lk) s = Ret tt (set_lb (set_bc (set_held h (bc (lb s))) (lb s)) s).
Proof. intros. unfold lc. by apply ll_Ret, bb_release. Qed.

Lemma log_write_run i s st V H L bn :
  log_ok s st V H L → H !! i = Some bn → ¬ in_log st bn → (length L < 29)%nat → 1 ≤ outstanding s →
  unlocked (bc (lb s)) →
  ∃ s', log_write i s = Ret tt s' ∧ lb s' = others i set_dirty (lb s) ∧
    log_ok s' st (<[bn := bdata (getb i (lb s))]> V) H (logged L bn) ∧
    outstanding s' = outstanding s ∧ committing s' = committing s.
Proof.
  intros [Hm Hsz Hp HL Hok Hhd Hhl] HH Hin Hlen Hout (_ & _ & Hlk).
  destruct (bo_held _ _ _ _ Hok _ _ HH) as (Hi & Hdv & Hbn).
  assert (0 ≤ bn < Z.of_nat (length (disk (lb s)))) as Hr.
  { destruct (bo_used _ _ _ _ Hok i Hi) as [[? _]|(_ & _ & ?)]; [done|congruence]. }
  pose proof Hm as [M1 M2 M3 M4 M5].
  destruct (log_slot_logged (lh_block s) L bn st _ Hp HL M5) as (Ht & Hl);
    [rewrite M4; unfold LOGSIZE, MAXOPBLOCKS; lia|done|].
  set (r := log_slot (lh_block s) (length L) 0 bn) in *.
  eexists (mk_lst (others i set_dirty (lb s)) (lstart s) (lsize s) (outstanding s) (committing s) (ldev s)
    (Z.of_nat (length (logged L bn))) (<[r := s32 bn]> (lh_block s))). split_and!; try done.
  - unfold log_write. unfold bind at 1, gets at 1. cbn [obind]. unfold bind at 1, gets at 1. cbn [obind].
    rewrite M3, Hsz. unfold LOGSIZE, MAXOPBLOCKS.
    rewrite (proj2 (Z.leb_gt _ _)), (proj2 (Z.leb_gt _ _)) by lia. cbn [orb].
    unfold bind at 1, ret at 1. cbn [obind]. unfold bind at 1, gets at 1. cbn [obind].
    rewrite (proj2 (Z.ltb_ge _ _)) by lia. unfold bind at 1, ret at 1. cbn [obind].
    rewrite (bind_Ret _ _ _ _ _ (lc_acquire _ _ Hlk)). unfold bind at 1, gets at 1. cbn [obind].
    unfold bind at 1, gets at 1. cbn [obind]. cbn [lh_n lh_block set_lb]. rewrite M3, Nat2Z.id.
    erewrite bind_Ret; [|apply ll_Ret; unfold bget_field, gets; reflexivity].
    cbn [lb set_lb]. change (getb i (set_bc _ _)) with (getb i (lb s)). rewrite Hbn. fold r.
    unfold bind at 1, modify. cbn [obind].
    erewrite bind_Ret; cycle 1.
    { instantiate (1 := mk_lst (set_bc (set_held (Llog :: held (bc (lb s))) (bc (lb s))) (lb s)) (lstart s) (lsize s)
        (outstanding s) (committing s) (ldev s) (Z.of_nat (length (logged L bn))) (<[r := s32 bn]> (lh_block s))).
      instantiate (1 := tt). rewrite Hl. destruct (r =? length L)%nat eqn:E; bools.
      - rewrite E, Z.eqb_refl. unfold set_lh_n, set_lh_block; cbn. f_equal. f_equal. lia.
      - rewrite (proj2 (Z.eqb_neq _ _)) by lia. unfold ret, set_lh_block; cbn. by rewrite M3. }
    erewrite bind_Ret; [|apply ll_Ret; unfold bupd, modify; reflexivity].
    erewrite lc_release; [|reflexivity]. f_equal. unfold set_lb, others, set_bc, set_bufs; cbn.
    f_equal; [f_equal; by apply set_held_back|by rewrite Hsz].
  - split; cbn; try done.
    + split; cbn; try done. by rewrite length_insert.
    + by apply loggable_logged.
    + replace (list_to_set (logged L bn)) with ({[bn]} ∪ list_to_set L : gset Z); [by apply bcache_pin|].
      unfold logged. destruct (decide (bn ∈ L)); [set_solver|]. rewrite list_to_set_app_L. set_solver.
    + rewrite fn_lookup_insert_ne; [done|]. intros ->. apply Hin, in_log_start.
    + rewrite fn_lookup_insert_ne; [done|]. intros ->. apply Hin, in_log_start.
Qed.

(** ** Transactions *)

Lemma begin_op_run w s :
  committing s = 0 → lh_n s + (outstanding s + 1) * MAXOPBLOCKS ≤ LOGSIZE → Llog ∉ held (bc (lb s)) →
  begin_op (S w) s = Ret tt (set_outstanding (outstanding s + 1) s).
Proof.
  intros Hc Hn Hlk. unfold begin_op. rewrite (bind_Ret _ _ _ _ _ (lc_acquire _ _ Hlk)). cbn [begin_op_loop].
  do 3 (unfold bind at 1, gets at 1; cbn [obind]). cbn [committing lh_n outstanding set_lb].
  rewrite Hc. cbn [negb Z.eqb]. rewrite (proj2 (Z.ltb_ge _ _)) by done.
  unfold bind at 1, modify. cbn [obind]. erewrite lc_release; [|reflexivity].
  f_equal. unfold set_outstanding, set_lb, set_bc; cbn. f_equal. destruct (lb s); cbn. f_equal. by apply set_held_back.
Qed.

Lemma lc_wakeup ch s : Lptable ∉ held (bc (lb s)) →
  ∃ c, lc (wakeup ch) s = Ret tt (set_lb (set_bc c (lb s)) s) ∧ woke (bc (lb s)) c.
Proof.
  intros Hl. eexists. split; [unfold lc; apply ll_Ret; unfold bb; apply zoom_Ret, wakeup_run; done|apply woke_wake].
Qed.

Lemma bcache_core c s V H P : bcache_ok s V H P → bcache_ok (set_bc c s) V H P.
Proof. by intros [O1 O2 O3 O4 O5 O6 O7 O8 O9]. Qed.

Lemma log_ok_core s s' st V H L c :
  log_ok s st V H L → lb s' = set_bc c (lb s) → lstart s' = lstart s → lsize s' = lsize s → ldev s' = ldev s →
  lh_n s' = lh_n s → lh_block s' = lh_block s → log_ok s' st V H L.
Proof.
  intros [[M1 M2 M3 M4 M5] Hsz Hp HL Hok Hhd Hhl] E1 E2 E3 E4 E5 E6.
  split; rewrite ?E1, ?E3; cbn [disk set_bc]; try done; [split; congruence|by apply bcache_core].
Qed.

Lemma end_op_run w s st V L :
  log_ok s st V ∅ L → outstanding s = 1 → committing s = 0 → unlocked (bc (lb s)) →
  ∃ s' V', end_op (S w) s = Ret tt s' ∧ log_ok s' st V' ∅ [] ∧ outstanding s' = 0 ∧ committing s' = 0 ∧
    length (disk (lb s')) = length (disk (lb s)) ∧ woke (bc (lb s)) (bc (lb s')) ∧
    (∀ bn, 0 ≤ bn < Z.of_nat (length (disk (lb s))) → ¬ in_log st bn → V' bn = V bn) ∧
    images (λ d, recoverable st (length (disk (lb s))) d (blk (disk (lb s))) ∨
              recoverable st (length (disk (lb s))) d V) (lb s) (lb s').
Proof.
  intros Hlog Ho Hc Hul. pose proof Hul as (Hl1 & Hl2 & Hlk).
  unfold end_op. rewrite (bind_Ret _ _ _ _ _ (lc_acquire _ _ Hlk)).
  unfold bind at 1, modify at 1. cbn [obind]. unfold bind at 1, gets at 1. cbn [obind].
  cbn [committing set_outstanding set_lb]. rewrite Hc. cbn [negb Z.eqb]. unfold bind at 1, ret at 1. cbn [obind].
  unfold bind at 1, gets at 1. cbn [obind]. cbn [outstanding set_outstanding set_lb]. rewrite Ho. change (1 - 1 =? 0) with true. cbn iota.
  unfold bind at 1, modify at 1. cbn [obind]. erewrite bind_Ret; [|eapply lc_release; reflexivity].
  set (s1 := set_lb _ _). assert (log_ok s1 st V ∅ L) as Hlog1 by (by eapply (log_ok_core s)).
  assert (bc (lb s1) = bc (lb s)) as Hbc1 by (apply set_held_back; done).
  destruct (commit_ok w s1 st V L Hlog1) as (t & V' & E & Hlog2 & Hl & Hhome & Hw & Him); [by rewrite Hbc1|].
  rewrite Hbc1 in Hw. rewrite (bind_Ret _ _ _ _ _ E). clear E. pose proof (woke_held _ _ Hw) as Hh.
  set (s2 := set_lb t (set_lh_n 0 s1)) in *.
  erewrite bind_Ret; [|apply lc_acquire; cbn; rewrite Hh; done]. unfold bind at 1, modify at 1. cbn [obind].
  set (s3 := set_committing _ _).
  destruct (lc_wakeup ChLog s3) as (c & E & Hw3).
  { cbn. rewrite Hh, not_elem_of_cons. done. }
  rewrite (bind_Ret _ _ _ _ _ E). erewrite lc_release; [|cbn; rewrite (woke_held _ _ Hw3); reflexivity].
  eexists _, V'. split; [reflexivity|]. cbn [lb set_lb outstanding committing].
  destruct Hw3 as (ps & -> & Hps). split_and!; try done.
  - by eapply (log_ok_core s2).
  - eapply woke_trans; [exact Hw|]. exists ps. split; [|exact Hps]. cbn. by destruct (bc t) as [[] ].
Qed.

(** A file system operation as the log sees it: it overwrites blocks. *)
Definition run_write (w : nat) (u : Z * list Z) : M lst unit :=
  b <- ll (bread w DEV u.1);;
  ll (upd_data b (λ _, u.2));;
  log_write b;;
  ll (brelse b).

Fixpoint run_writes (w : nat) (l : list (Z * list Z)) : M lst unit :=
  match l with
  | [] => ret tt
  | u :: l => run_write w u;; run_writes w l
  end.

Definition transaction (w : nat) (l : list (Z * list Z)) : M lst unit :=
  begin_op w;; run_writes w l;; end_op w.

(** The contents after the writes. *)
Fixpoint apply_writes (V : Z → list Z) (l : list (Z * list Z)) : Z → list Z :=
  match l with
  | [] => V
  | u :: l => apply_writes (<[u.1 := u.2]> V) l
  end.

(** The log's state apart from the cache and the processes. *)
Definition log_same (s s' : lst) : Prop :=
  outstanding s' = outstanding s ∧ committing s' = committing s ∧ disk (lb s') = disk (lb s) ∧
  hist (lb s') = hist (lb s) ∧ woke (bc (lb s)) (bc (lb s')).

Lemma run_write_run w s st V L bn d :
  log_ok s st V ∅ L → 0 ≤ bn < Z.of_nat (length (disk (lb s))) → ¬ in_log st bn → (length L < 29)%nat →
  1 ≤ outstanding s → unlocked (bc (lb s)) →
  ∃ s', run_write (S w) (bn, d) s = Ret tt s' ∧ log_ok s' st (<[bn := d]> V) ∅ (logged L bn) ∧ log_same s s'.
Proof.
  intros Hlog Hr Hin Hlen Ho Hul. pose proof Hlog as [Hm Hsz Hp HL Hok Hhd Hhl]. pose proof Hul as (Hl1 & Hl2 & Hl3).
  pose proof (loggable_size _ _ _ HL) as Hset.
  destruct (bread_run w (lb s) V ∅ (list_to_set L) bn) as (i & f & E1 & _ & Hok1 & _ & _); try done.
  { right. rewrite map_size_empty. rewrite size_list_to_set by apply HL. unfold NBUF. lia. }
  set (t1 := others i f (lb s)) in *.
  assert ((<[i:=bn]> ∅ : gmap nat Z) !! i = Some bn) as Hi by (by rewrite lookup_insert_eq).
  pose proof (bcache_set_data _ _ _ _ i bn d Hok1 Hi) as Hok2.
  pose proof (bcache_length _ _ _ _ Hok1) as Hbl. destruct (bo_held _ _ _ _ Hok1 _ _ Hi) as (Hlt & _).
  set (t2 := others i (set_bdata d) t1) in *.
  assert (bdata (getb i t2) = d) as Hd2 by (unfold t2; by rewrite getb_others, decide_True by lia).
  assert (log_ok (set_lb t2 s) st V (<[i:=bn]> ∅) L) as Hlog2 by (split; try done; by apply log_mem_lb).
  destruct (log_write_run i (set_lb t2 s) st V _ L bn Hlog2) as (s3 & E3 & Hlb3 & Hlog3 & Ho3 & Hc3); try done.
  cbn [lb set_lb] in Hlb3, Hlog3. rewrite Hd2 in Hlog3.
  assert (bc (lb s3) = bc (lb s)) as Hbc3 by (by rewrite Hlb3).
  destruct (brelse_run _ _ _ _ i bn (lo_cache _ _ _ _ _ Hlog3)) as (t4 & E4 & Hok4 & Hw & Hdk & Hh & _); [done|..].
  { pose proof (bcache_length _ _ _ _ Hok2). rewrite fn_lookup_insert, Hlb3, getb_others, decide_True by (done || lia). exact Hd2. }
  { by rewrite Hbc3. }
  { by rewrite Hbc3. }
  exists (set_lb t4 s3). rewrite Hlb3 in Hdk, Hh. split_and!.
  - unfold run_write. cbn [fst snd]. rewrite (bind_Ret _ _ _ _ _ (ll_Ret _ s _ _ E1)).
    erewrite bind_Ret; [|apply ll_Ret; unfold upd_data, bupd, modify; reflexivity].
    cbn [lb set_lb]. change (set_lb _ (set_lb t1 s)) with (set_lb t2 s).
    rewrite (bind_Ret _ _ _ _ _ E3). by apply ll_Ret.
  - destruct Hlog3 as [Hm3 Hsz3 Hp3 HL3 Hok3 Hhd3 Hhl3]. rewrite delete_insert_id in Hok4 by done.
    rewrite Hlb3 in Hp3, HL3. split; cbn [lb set_lb lsize]; rewrite ?Hdk; try done. by apply log_mem_lb.
  - split_and!; cbn [lb set_lb outstanding committing]; try done. by rewrite <- Hbc3.
Qed.

Lemma log_same_trans s1 s2 s3 : log_same s1 s2 → log_same s2 s3 → log_same s1 s3.
Proof.
  intros (?&?&?&?&?) (?&?&?&?&?). split_and!; try congruence. eapply woke_trans; eauto.
Qed.

Lemma run_writes_run w l s st V L (B : list Z) :
  log_ok s st V ∅ L → NoDup B → (length B ≤ 28)%nat → L ⊆ B →
  Forall (λ u, u.1 ∈ B ∧ 0 ≤ u.1 < Z.of_nat (length (disk (lb s))) ∧ ¬ in_log st u.1) l →
  1 ≤ outstanding s → unlocked (bc (lb s)) →
  ∃ s' L', run_writes (S w) l s = Ret tt s' ∧ log_ok s' st (apply_writes V l) ∅ L' ∧ log_same s s'.
Proof.
  revert s V L. induction l as [|[bn d] l IH]; intros s V L Hlog HB HlB HLB Hl Ho Hul.
  { exists s, L. split_and!; try done. repeat (split; [done|]). apply woke_refl. }
  apply Forall_cons in Hl as [(Hb & Hr & Hin) Hl]. cbn [fst] in Hb, Hr, Hin.
  assert (length L ≤ length B)%nat as Hle.
  { apply submseteq_length, NoDup_submseteq; [apply (lo_log _ _ _ _ _ Hlog)|done]. }
  destruct (run_write_run w s st V L bn d) as (s1 & E1 & Hlog1 & Hs1); try done; [lia|].
  pose proof Hs1 as (Ho1 & Hc1 & Hd1 & Hh1 & Hw1).
  destruct (IH s1 (<[bn := d]> V) (logged L bn)) as (s' & L' & E & Hlog' & Hs'); try done.
  - unfold logged. destruct (decide (bn ∈ L)); [done|]. intros x [Hx|Hx]%elem_of_app; [by apply HLB|].
    by apply list_elem_of_singleton in Hx as ->.
  - by rewrite Hd1.
  - lia.
  - by eapply woke_unlocked.
  - exists s', L'. cbn [run_writes apply_writes]. rewrite (bind_Ret _ _ _ _ _ E1).
    split_and!; try done. by eapply log_same_trans.
Qed.

(** The thirtieth block does not fit. *)
Lemma run_write_full w s st V L bn d :
  log_ok s st V ∅ L → 0 ≤ bn < Z.of_nat (length (disk (lb s))) → length L = 29%nat → unlocked (bc (lb s)) →
  ∃ s', run_write (S w) (bn, d) s = Panic "too big a transaction" s'.
Proof.
  intros [Hm Hsz Hp HL Hok Hhd Hhl] Hr Hlen (Hl1 & Hl2 & Hl3).
  destruct (bread_run w (lb s) V ∅ (list_to_set L) bn) as (i & f & E1 & _); try done.
  { right. rewrite map_size_empty, size_list_to_set by apply HL. unfold NBUF. lia. }
  unfold run_write. cbn [fst snd]. rewrite (bind_Ret _ _ _ _ _ (ll_Ret _ s _ _ E1)).
  erewrite bind_Ret; [|apply ll_Ret; unfold upd_data, bupd, modify; reflexivity].
  eexists. apply bind_Panic. unfold log_write. do 2 (unfold bind at 1, gets at 1; cbn [obind]).
  cbn [lh_n lsize set_lb]. rewrite (lm_n _ _ _ Hm), Hsz, Hlen. reflexivity.
Qed.

Lemma run_writes_full w l s st V L :
  log_ok s st V ∅ L → NoDup (L ++ l.*1) → (length L + length l = 30)%nat →
  Forall (λ u, 0 ≤ u.1 < Z.of_nat (length (disk (lb s))) ∧ ¬ in_log st u.1) l →
  1 ≤ outstanding s → unlocked (bc (lb s)) →
  ∃ s', run_writes (S w) l s = Panic "too big a transaction" s'.
Proof.
  revert s V L. induction l as [|[bn d] l IH]; intros s V L Hlog Hnd Hlen Hl Ho Hul.
  { pose proof (lg_len _ _ _ (lo_log _ _ _ _ _ Hlog)). cbn in Hlen. lia. }
  apply Forall_cons in Hl as [(Hr & Hin) Hl]. cbn [fst length fmap list_fmap] in *. cbn [run_writes].
  destruct (decide (length L = 29%nat)) as [HL|HL].
  - destruct (run_write_full w s st V L bn d Hlog Hr HL Hul) as (s' & E). eexists. by apply bind_Panic.
  - destruct (run_write_run w s st V L bn d) as (s1 & E1 & Hlog1 & Ho1 & Hc1 & Hd1 & Hh1 & Hw1); try done; [lia|].
    rewrite (bind_Ret _ _ _ _ _ E1).
    assert (logged L bn = L ++ [bn]) as Hlg.
    { unfold logged. rewrite decide_False; [done|]. apply NoDup_app in Hnd as (_ & Hnd & _). intros Hb.
      apply (Hnd _ Hb). by left. }
    rewrite Hlg in Hlog1. eapply IH; [exact Hlog1|..].
    + by rewrite <- app_assoc.
    + rewrite length_app. cbn. lia.
    + by rewrite Hd1.
    + lia.
    + by eapply woke_unlocked.
Qed.

(** ** Crashes *)

#[local] Opaque begin_op run_writes end_op binit recover_from_log.

(** A machine that starts on the disk image [d]: an empty cache, and the
    place of the log as the superblock gives it. *)
Record booted (r : lst) (st : Z) (d : list (list Z)) : Prop := {
  bt_disk : disk (lb r) = d;
  bt_bufs : length (bufs (lb r)) = S NBUF;
  bt_flags j : flags (getb j (lb r)) = 0;
  bt_dev : ldev r = DEV;
  bt_start : lstart r = st;
  bt_block : length (lh_block r) = Z.to_nat LOGSIZE;
  bt_locks : unlocked (bc (lb r))
}.

Definition same_home (st : Z) (d : list (list Z)) (D : Z → list Z) : Prop :=
  ∀ bn, 0 ≤ bn < Z.of_nat (length d) → ¬ in_log st bn → blk d bn = D bn.

Lemma boot_recovers w r st d D :
  booted r st d → recoverable st (length d) d D →
  ∃ r', (ll binit;; recover_from_log (S w)) r = Ret tt r' ∧ same_home st (disk (lb r')) D ∧
    length (disk (lb r')) = length d ∧ hdr_n st (disk (lb r')) = 0 ∧
    images (λ d', recoverable st (length d) d' D) (lb r) (lb r').
Proof.
  intros [B1 B2 B3 B4 B5 B6 B7] Hrc. subst d. destruct (binit_ok (lb r) B2 B3) as (bl & E1 & Hok).
  rewrite (bind_Ret _ _ _ _ _ (ll_Ret _ r _ _ E1)). clear E1.
  pose proof (rc_place _ _ _ _ Hrc) as Hp.
  destruct (recover_ok w (set_lb (set_bufs bl (lb r)) r) st _ D B4 B5 B6 Hp Hok B7 Hrc) as
    (r' & V' & E & Hok' & _ & Hl & _ & Hz & _ & Hhome & _ & _ & _ & Him).
  exists r'. split; [exact E|]. clear E. cbn [lb set_lb disk set_bufs] in Hl, Hhome. split_and!.
  - intros bn Hr Hin. rewrite Hl in Hr. rewrite <- Hhome by done. eapply bcache_blk; [done|by rewrite Hl|set_solver].
  - exact Hl.
  - unfold hdr_n. erewrite bcache_blk; [by rewrite Hz|done|rewrite Hl|set_solver].
    destruct Hp. unfold LOGSIZE, MAXOPBLOCKS in *. lia.
  - exact Him.
Qed.

(** C3: a transaction is atomic with respect to crashes: begin_op, any number
    of logged writes to at most 28 different blocks, and end_op return with
    the writes done; and every disk image on the way is such that a machine
    that crashes there, starts again with an empty cache and runs
    recover_from_log has all blocks outside of the log either as they were
    before the transaction or as they are after all of its writes. *)
Theorem transaction_crash_atomic w s st V l B :
  log_ok s st V ∅ [] → outstanding s = 0 → committing s = 0 → unlocked (bc (lb s)) →
  NoDup B → (length B ≤ 28)%nat →
  Forall (λ u, u.1 ∈ B ∧ 0 ≤ u.1 < Z.of_nat (length (disk (lb s))) ∧ ¬ in_log st u.1) l →
  ∃ s' imgs, transaction (S w) l s = Ret tt s' ∧ same_home st (disk (lb s')) (apply_writes V l) ∧
    hist (lb s') = imgs ++ hist (lb s) ∧
    ∀ d r, d ∈ disk (lb s') :: imgs → booted r st d →
      ∃ r', (ll binit;; recover_from_log (S w)) r = Ret tt r' ∧
        (same_home st (disk (lb r')) V ∨ same_home st (disk (lb r')) (apply_writes V l)).
Proof.
  intros Hlog Ho Hc Hul HB HlB Hl. pose proof Hlog as [Hm _ _ _ Hok _ _].
  pose proof Hul as (_ & _ & Hlk).
  assert (begin_op (S w) s = Ret tt (set_outstanding 1 s)) as E1.
  { rewrite begin_op_run; rewrite ?Ho; try done. rewrite (lm_n _ _ _ Hm). cbn. unfold LOGSIZE, MAXOPBLOCKS. lia. }
  destruct (run_writes_run w l (set_outstanding 1 s) st V [] B) as (s2 & L & E2 & Hlog2 & Ho2 & Hc2 & Hd2 & Hh2 & Hw2);
    try done; [by eapply (log_ok_core s); [|symmetry; apply set_bc_same|..]|set_solver|].
  destruct (end_op_run w s2 st (apply_writes V l) L) as (s3 & V3 & E3 & Hlog3 & _ & _ & Hl3 & _ & Hhome & Him); try done.
  { by rewrite Hc2. }
  { by eapply woke_unlocked. }
  destruct Him as (Hlast & imgs & Himg & Hall). rewrite Hh2 in Himg. rewrite Hd2 in Hlast, Hall, Hhome, Hl3.
  exists s3, imgs. split_and!; [|..|done|].
  - unfold transaction. by rewrite (bind_Ret _ _ _ _ _ E1), (bind_Ret _ _ _ _ _ E2).
  - intros bn Hr Hin. rewrite Hl3 in Hr. rewrite <- Hhome by done.
    eapply bcache_blk; [apply Hlog3|by rewrite Hl3|set_solver].
  - intros d r Hd Hb. set (nb := length (disk (lb s))) in *.
    assert (recoverable st nb d (blk (disk (lb s))) ∨ recoverable st nb d (apply_writes V l)) as Hrc.
    { apply elem_of_cons in Hd as [->|Hd]; [done|]. rewrite Forall_forall in Hall. by apply Hall. }
    destruct Hrc as [Hrc|Hrc]; pose proof (rc_len _ _ _ _ Hrc) as Hlen; rewrite <- Hlen in Hrc;
      destruct (boot_recovers w r st d _ Hb Hrc) as (r' & E & Hhm & Hlr & _); exists r'; (split; [exact E|clear E E1 E2 E3]); [left|by right].
    intros bn Hr Hin. rewrite Hhm by done. eapply bcache_blk; [exact Hok| |set_solver].
    rewrite Hlr, Hlen in Hr. exact Hr.
Qed.

(** C39: begin_op admits three concurrent operations of MAXOPBLOCKS = 10 blocks
    each, but the log has room for LOGSIZE - 1 = 29: when they log 30 different
    blocks, 10 for each of them, the last log_write panics. *)
Theorem begin_op_overcommits w s st V l :
  log_ok s st V ∅ [] → outstanding s = 0 → committing s = 0 → unlocked (bc (lb s)) →
  NoDup l.*1 → length l = 30%nat →
  Forall (λ u, 0 ≤ u.1 < Z.of_nat (length (disk (lb s))) ∧ ¬ in_log st u.1) l →
  ∃ s1 s2, (begin_op (S w);; begin_op (S w);; begin_op (S w)) s = Ret tt s1 ∧ outstanding s1 = 3 ∧
    run_writes (S w) l s1 = Panic "too big a transaction" s2.
Proof.
  intros Hlog Ho Hc Hul Hnd Hlen Hl. pose proof Hul as (_ & _ & Hlk).
  assert (lh_n s = 0) as Hn by apply (lm_n _ _ _ (lo_mem _ _ _ _ _ Hlog)).
  assert (log_ok (set_outstanding 3 s) st V ∅ []) as Hlog1 by (by eapply (log_ok_core s); [|symmetry; apply set_bc_same|..]).
  destruct (run_writes_full w l (set_outstanding 3 s) st V []) as (s2 & E2); try done.
  exists (set_outstanding 3 s), s2. split_and!; [|done|exact E2]. clear E2.
  assert (∀ k, 0 ≤ k ≤ 2 → begin_op (S w) (set_outstanding k s) = Ret tt (set_outstanding (k + 1) s)) as Hb.
  { intros k Hk. rewrite begin_op_run; [done|done| |done]. cbn [lh_n outstanding set_outstanding].
    rewrite Hn. unfold LOGSIZE, MAXOPBLOCKS. lia. }
  rewrite (bind_Ret _ _ s tt (set_outstanding 1 s)); cycle 1.
  { change (set_outstanding 1 s) with (set_outstanding (0 + 1) s). rewrite <- (Hb 0) by lia. f_equal. destruct s; cbn in Ho; by subst. }
  rewrite (bind_Ret _ _ _ _ _ (Hb 1 ltac:(lia))). apply (Hb 2). lia.
Qed.

Lemma initlog_run w s st V D :
  length (lh_block s) = Z.to_nat LOGSIZE → bcache_ok (lb s) V ∅ ∅ → unlocked (bc (lb s)) →
  logstart (decode_sb (blk (disk (lb s)) 1)) = st → nlog (decode_sb (blk (disk (lb s)) 1)) = LOGSIZE →
  recoverable st (length (disk (lb s))) (disk (lb s)) D →
  ∃ s' V', initlog (S w) DEV s = Ret tt s' ∧ log_ok s' st V' ∅ [] ∧
    (∀ bn, 0 ≤ bn < Z.of_nat (length (disk (lb s))) → ¬ in_log st bn → V' bn = D bn) ∧
    length (disk (lb s')) = length (disk (lb s)) ∧ woke (bc (lb s)) (bc (lb s')) ∧
    outstanding s' = outstanding s ∧ committing s' = committing s ∧
    images (λ d, recoverable st (length (disk (lb s))) d D) (lb s) (lb s').
Proof.
  intros Hb Hok Hul Hst Hnl Hrc. pose proof (rc_place _ _ _ _ Hrc) as Hp. pose proof Hp as [P1 P2 P3].
  unfold LOGSIZE, MAXOPBLOCKS in P2.
  destruct (read_block_ok w (lb s) V ∅ 1 Hok Hul) as (x & t1 & t & E1 & E2 & E3 & Hok1 & Hw & Hd & Hh);
    [lia|rewrite size_empty; unfold NBUF; lia|].
  assert (V 1 = blk (disk (lb s)) 1) as HV by (symmetry; eapply bcache_blk; [done|lia|set_solver]).
  unfold initlog. change (Z.of_nat BSIZE <=? 4 + 4 * LOGSIZE) with false. cbn iota.
  unfold bind at 1, ret at 1. cbn [obind].
  erewrite bind_Ret; cycle 1.
  { apply ll_Ret. unfold readsb. change (u32 DEV) with DEV.
    rewrite (bind_Ret _ _ _ _ _ E1), (bind_Ret _ _ _ _ _ E2), (bind_Ret _ _ _ _ _ E3). reflexivity. }
  do 3 (unfold bind at 1, modify at 1; cbn [obind]). rewrite HV, Hst, Hnl.
  set (s1 := set_ldev _ _). destruct (recover_ok w s1 st V D) as
    (s' & V' & E & Hok' & Hm & Hl & Hw' & Hz & Hlen & Hhome & Hf1 & Hf2 & Hf3 & Him); try done;
    cbn [lb set_ldev set_lsize set_lstart set_lb s1]; rewrite ?Hd; try done.
  { cbn. apply s32_small. lia. }
  { by eapply woke_unlocked. }
  cbn [lb set_ldev set_lsize set_lstart set_lb s1] in Hl, Hw', Hhome, Him. rewrite Hd in Hl, Hhome, Him.
  exists s', V'. rewrite E. clear E. split_and!; try done.
  - split; rewrite ?Hl; try done. apply loggable_nil.
  - eapply woke_trans; eauto.
  - destruct Him as (Hq & imgs & Hi & Hall). split; [done|]. exists imgs. by rewrite Hi, Hh.
Qed.

(** C10: booting on a disk image that recovers to the contents [D] makes the
    file system's blocks hold [D], with an empty log ready for transactions;
    and a crash while it recovers is harmless, since every image on the way
    recovers to [D] again. *)
Theorem recovery_restartable w r st d D :
  disk (lb r) = d → length (bufs (lb r)) = S NBUF → (∀ j, flags (getb j (lb r)) = 0) →
  length (lh_block r) = Z.to_nat LOGSIZE → unlocked (bc (lb r)) →
  logstart (decode_sb (blk d 1)) = st → nlog (decode_sb (blk d 1)) = LOGSIZE →
  recoverable st (length d) d D →
  ∃ r' V imgs, (ll binit;; initlog (S w) DEV) r = Ret tt r' ∧ log_ok r' st V ∅ [] ∧
    same_home st (disk (lb r')) D ∧ hist (lb r') = imgs ++ hist (lb r) ∧
    ∀ d', d' ∈ disk (lb r') :: imgs → recoverable st (length d) d' D.
Proof.
  intros <- B2 B3 B4 B5 Hst Hnl Hrc. destruct (binit_ok (lb r) B2 B3) as (bl & E1 & Hok).
  rewrite (bind_Ret _ _ _ _ _ (ll_Ret _ r _ _ E1)). clear E1.
  destruct (initlog_run w (set_lb (set_bufs bl (lb r)) r) st _ D B4 Hok B5 Hst Hnl Hrc) as
    (r' & V & E & Hlog & Hhome & Hl & _ & _ & _ & Hlast & imgs & Hi & Hall).
  exists r', V, imgs. split; [exact E|]. clear E. cbn [lb set_lb disk set_bufs hist] in *. split_and!; try done.
  - intros bn Hr Hin. rewrite Hl in Hr. rewrite <- Hhome by done.
    eapply bcache_blk; [apply Hlog|by rewrite Hl|set_solver].
  - intros d' [->|Hd']%elem_of_cons; [done|]. rewrite Forall_forall in Hall. by apply Hall.
Qed.

(** ** A small disk *)

Definition ex_disk : list (list Z) :=
  <[1%nat := wr32 16 2 (wr32 12 30 (replicate BSIZE 0))]> (replicate 64 (replicate BSIZE 0)).

Definition ex_boot : lst :=
  mk_lst (mk_bst (ex_core 0) (replicate (S NBUF) buf0) ex_disk []) 0 0 0 0 0 0 (replicate 30 0).

Lemma ex_recoverable : recoverable 2 64 ex_disk (blk ex_disk).
Proof.
  by apply recoverable_empty.
Qed.

Lemma ex_flags j : flags (getb j (lb ex_boot)) = 0.
Proof.
  unfold getb, ex_boot. cbn [bufs lb]. destruct (replicate (S NBUF) buf0 !! j) eqn:E; [|reflexivity].
  by apply lookup_replicate in E as [-> _].
Qed.

Lemma ex_unlocked : unlocked (bc (lb ex_boot)).
Proof. split_and!; apply not_elem_of_nil. Qed.

Lemma ex_log : ∃ s V, log_ok s 2 V ∅ [] ∧ outstanding s = 0 ∧ committing s = 0 ∧ unlocked (bc (lb s)) ∧
  length (disk (lb s)) = 64%nat.
Proof.
  destruct (binit_ok (lb ex_boot) eq_refl ex_flags) as (bl & _ & Hok).
  destruct (initlog_run 0 (set_lb (set_bufs bl (lb ex_boot)) ex_boot) 2 _ (blk ex_disk) eq_refl Hok ex_unlocked) as
    (s & V & _ & Hlog & _ & Hl & Hw & Ho & Hc & _); [vm_compute; reflexivity..|exact ex_recoverable|].
  exists s, V. split_and!; try done; eapply (woke_unlocked _ _ Hw); apply ex_unlocked.
Qed.

Lemma transaction_crash_atomic_witness :
  ∃ s V s', transaction 1 [(40, [1]); (41, [2]); (40, [3])] s = Ret tt s' ∧
    same_home 2 (disk (lb s')) (apply_writes V [(40, [1]); (41, [2]); (40, [3])]).
Proof.
  destruct ex_log as (s & V & Hlog & Ho & Hc & Hul & Hl).
  destruct (transaction_crash_atomic 0 s 2 V [(40, [1]); (41, [2]); (40, [3])] [40; 41]) as (s' & imgs & E & Hs & _).
  - exact Hlog.
  - exact Ho.
  - exact Hc.
  - exact Hul.
  - repeat constructor; set_solver.
  - cbn. lia.
  - rewrite Hl. repeat apply Forall_cons_2; try apply Forall_nil_2; cbn;
      unfold in_log, LOGSIZE, MAXOPBLOCKS; (split; [set_solver|lia]).
  - exists s, V, s'. split; [exact E|exact Hs].
Defined.

Lemma begin_op_overcommits_witness :
  ∃ s s1 s2, (begin_op 1;; begin_op 1;; begin_op 1) s = Ret tt s1 ∧
    run_writes 1 ((λ i, (Z.of_nat i, [])) <$> seq 32 30) s1 = Panic "too big a transaction" s2.
Proof.
  destruct ex_log as (s & V & Hlog & Ho & Hc & Hul & Hl).
  destruct (begin_op_overcommits 0 s 2 V ((λ i, (Z.of_nat i, [])) <$> seq 32 30)) as (s1 & s2 & E1 & _ & E2).
  - exact Hlog.
  - exact Ho.
  - exact Hc.
  - exact Hul.
  - rewrite <- list_fmap_compose. apply NoDup_fmap_2; [|apply NoDup_seq]. intros i j. cbn. lia.
  - reflexivity.
  - rewrite Hl. apply Forall_forall. intros u (i & -> & Hi)%list_elem_of_fmap. apply elem_of_seq in Hi. cbn.
    unfold in_log, LOGSIZE, MAXOPBLOCKS. lia.
  - exists s, s1, s2. split; [exact E1|exact E2].
Defined.

Lemma recovery_restartable_witness :
  ∃ r' V, (ll binit;; initlog 1 DEV) ex_boot = Ret tt r' ∧ log_ok r' 2 V ∅ [].
Proof.
  destruct (recovery_restartable 0 ex_boot 2 ex_disk (blk ex_disk)) as (r' & V & imgs & E & Hlog & _).
  - reflexivity.
  - reflexivity.
  - exact ex_flags.
  - reflexivity.
  - exact ex_unlocked.
  - vm_compute. reflexivity.
  - vm_compute. reflexivity.
  - exact ex_recoverable.
  - exists r', V. split; [exact E|exact Hlog].
Defined.
