(* ===== verification/BlockIO.v ===== *)
(** * The interface between the file system and the block layer

    What fs.c uses of bio.c and log.c: [BlockIO] has the operations on the
    blocks and on the processor the file system shares the state with, and
    [BlockSpec] what they promise inside of a transaction.  [V] is the
    contents of the blocks, [H] the buffers held (with their block numbers)
    and [L] the blocks logged so far.  The instances for the log of [Log] are
    at the end; a state paired with the state of the devices provides the
    interface too. *)
From S2P Require Import Prelude Kernel Kalloc Vm Proc ProcSpec Bytes Bio Log.

Local Open Scope Z_scope.
Local Open Scope kernel_scope.

Class BlockIO (S : Type) := {
  io_core : S → core;
  io_set_core : core → S → S;
  io_read : Z → Z → M S nat;
  io_data : nat → S → list Z;
  io_upd : nat → (list Z → list Z) → M S unit;
  io_log : nat → M S unit;
  io_relse : nat → M S unit;
  io_begin : M S unit;
  io_end : M S unit
}.

Definition io {S A} `{BlockIO S} (m : M core A) : M S A := zoom io_core io_set_core m.
Definition io_get {S} `{BlockIO S} (i : nat) : M S (list Z) := gets (io_data i).

(** Nothing but processes that were woken changed for the processor. *)
Definition io_same {S} `{BlockIO S} (s s' : S) : Prop := woke (io_core s) (io_core s').

Class BlockSpec (S : Type) `{BlockIO S} := {
  io_ok : S → Z → nat → (Z → list Z) → gmap nat Z → gset Z → Prop;
  io_get_set c s : io_core (io_set_core c s) = c;
  io_set_set c c' s : io_set_core c (io_set_core c' s) = io_set_core c s;
  io_set_get s : io_set_core (io_core s) s = s;
  io_ok_core s st nb V X L c : io_ok s st nb V X L → io_ok (io_set_core c s) st nb V X L;
  io_data_core i c s : io_data i (io_set_core c s) = io_data i s;
  io_ok_ext s st nb V V' X L : (∀ b, V b = V' b) → io_ok s st nb V X L → io_ok s st nb V' X L;
  io_read_ok s st nb V X L bn :
    io_ok s st nb V X L → unlocked (io_core s) → 0 ≤ bn < Z.of_nat nb → (∀ j, X !! j ≠ Some bn) →
    (size X + size L < NBUF)%nat →
    ∃ i s', io_read DEV bn s = Ret i s' ∧ X !! i = None ∧ io_ok s' st nb V (<[i := bn]> X) L ∧
      io_data i s' = V bn ∧ (∀ j, j ≠ i → io_data j s' = io_data j s) ∧ io_same s s';
  io_upd_ok s st nb V X L i bn f :
    io_ok s st nb V X L → X !! i = Some bn →
    ∃ s', io_upd i f s = Ret tt s' ∧ io_ok s' st nb V X L ∧ io_data i s' = f (io_data i s) ∧
      (∀ j, j ≠ i → io_data j s' = io_data j s) ∧ io_same s s';
  io_log_ok s st nb V X L i bn :
    io_ok s st nb V X L → unlocked (io_core s) → X !! i = Some bn → ¬ in_log st bn → (size L < 29)%nat →
    ∃ s', io_log i s = Ret tt s' ∧ io_ok s' st nb (<[bn := io_data i s]> V) X ({[bn]} ∪ L) ∧
      (∀ j, io_data j s' = io_data j s) ∧ io_same s s';
  io_relse_ok s st nb V X L i bn :
    io_ok s st nb V X L → unlocked (io_core s) → X !! i = Some bn → io_data i s = V bn →
    ∃ s', io_relse i s = Ret tt s' ∧ io_ok s' st nb V (delete i X) L ∧
      (∀ j, io_data j s' = io_data j s) ∧ io_same s s'
}.

(** ** The log implements the interface *)

Definition log_io (waits : nat) : BlockIO lst := {|
  io_core s := bc (lb s);
  io_set_core c s := set_lb (set_bc c (lb s)) s;
  io_read d bn := ll (bread waits d bn);
  io_data i s := bdata (getb i (lb s));
  io_upd i f := ll (upd_data i f);
  io_log := log_write;
  io_relse i := ll (brelse i);
  io_begin := begin_op waits;
  io_end := end_op waits
|}.

(** The log inside of a transaction. *)
Definition log_io_ok (s : lst) (st : Z) (nb : nat) (V : Z → list Z) (X : gmap nat Z) (L : gset Z) : Prop :=
  1 ≤ outstanding s ∧ length (disk (lb s)) = nb ∧ ∃ l, log_ok s st V X l ∧ L = list_to_set l.

Lemma log_ok_lb s st V X L t V' X' :
  log_ok s st V X L → bcache_ok t V' X' (list_to_set L) → length (disk t) = length (disk (lb s)) →
  V' st = V st → log_ok (set_lb t s) st V' X' L.
Proof.
  intros [Hm Hsz Hp HL Hok Hhd Hhl] Hok' Hl HV. split; cbn [lb set_lb lsize]; rewrite ?Hl, ?HV; try done.
  by apply log_mem_lb.
Qed.

#[local] Opaque bread brelse.

Lemma log_ok_ext s st V V' X L : (∀ b, V b = V' b) → log_ok s st V X L → log_ok s st V' X L.
Proof.
  intros HV [Hm Hsz Hp HL Hok Hhd Hhl]. split; rewrite <- ?HV; try done. by eapply bcache_ext.
Qed.

Lemma log_read_ok w s st nb V X L bn :
  log_io_ok s st nb V X L → unlocked (bc (lb s)) → 0 ≤ bn < Z.of_nat nb → (∀ j, X !! j ≠ Some bn) →
  (size X + size L < NBUF)%nat →
  ∃ i s', ll (bread (S w) DEV bn) s = Ret i s' ∧ X !! i = None ∧ log_io_ok s' st nb V (<[i := bn]> X) L ∧
    bdata (getb i (lb s')) = V bn ∧ (∀ j, j ≠ i → bdata (getb j (lb s')) = bdata (getb j (lb s))) ∧
    woke (bc (lb s)) (bc (lb s')).
Proof.
  intros (Ho & <- & l & Hlog & ->) (Hl1 & _) Hb HX Hsz.
  destruct (bread_run w (lb s) V X (list_to_set l) bn) as (i & f & E & Hi & Hok & Hd & Hj); try done.
  { apply Hlog. }
  { by right. }
  exists i, (set_lb (others i f (lb s)) s). rewrite (ll_Ret _ _ _ _ E). cbn [lb set_lb]. split_and!; try done.
  - split_and!; try done. exists l. split; [|done]. by eapply log_ok_lb.
  - intros j Hne. by rewrite Hj.
  - apply woke_refl.
Qed.

Lemma log_upd_ok s st nb V X L i bn f :
  log_io_ok s st nb V X L → X !! i = Some bn →
  ∃ s', ll (upd_data i f) s = Ret tt s' ∧ log_io_ok s' st nb V X L ∧
    bdata (getb i (lb s')) = f (bdata (getb i (lb s))) ∧
    (∀ j, j ≠ i → bdata (getb j (lb s')) = bdata (getb j (lb s))) ∧ woke (bc (lb s)) (bc (lb s')).
Proof.
  intros (Ho & <- & l & Hlog & ->) Hi. pose proof (lo_cache _ _ _ _ _ Hlog) as Hok.
  destruct (bo_held _ _ _ _ Hok _ _ Hi) as (Hlt & _). pose proof (bcache_length _ _ _ _ Hok) as Hlen.
  pose proof (bcache_set_data _ _ _ _ i bn (f (bdata (getb i (lb s)))) Hok Hi) as Hok'.
  set (t := others i (set_bdata (f (bdata (getb i (lb s))))) (lb s)) in *.
  exists (set_lb t s). cbn [lb set_lb]. split_and!.
  - apply ll_Ret. unfold upd_data, bupd, modify. f_equal. unfold t, others. f_equal.
    apply list_alter_ext; [|done]. intros y Hy. unfold getb. by rewrite Hy.
  - split_and!; [done|done|]. exists l. split; [|done]. by eapply log_ok_lb.
  - unfold t. by rewrite getb_others, decide_True by lia.
  - intros j Hj. unfold t. by rewrite getb_others, decide_False by (done || lia).
  - apply woke_refl.
Qed.

Lemma log_log_ok s st nb V X L i bn :
  log_io_ok s st nb V X L → unlocked (bc (lb s)) → X !! i = Some bn → ¬ in_log st bn → (size L < 29)%nat →
  ∃ s', log_write i s = Ret tt s' ∧ log_io_ok s' st nb (<[bn := bdata (getb i (lb s))]> V) X ({[bn]} ∪ L) ∧
    (∀ j, bdata (getb j (lb s')) = bdata (getb j (lb s))) ∧ woke (bc (lb s)) (bc (lb s')).
Proof.
  intros (Ho & <- & l & Hlog & ->) Hul Hi Hin Hsz. pose proof (lo_cache _ _ _ _ _ Hlog) as Hok.
  pose proof (bo_held _ _ _ _ Hok _ _ Hi) as (Hlt & _). pose proof (bcache_length _ _ _ _ Hok) as Hlen.
  rewrite size_list_to_set in Hsz by apply (lo_log _ _ _ _ _ Hlog).
  destruct (log_write_run i s st V X l bn) as (s' & E & Hlb & Hlog' & Ho' & _); try done.
  exists s'. rewrite E. split_and!; try done.
  - split_and!; [by rewrite Ho'|by rewrite Hlb|]. exists (logged l bn). split; [done|].
    unfold logged. destruct (decide (bn ∈ l)); [set_solver|]. rewrite list_to_set_app_L. set_solver.
  - intros j. rewrite Hlb, getb_others by lia. by destruct (decide (j = i)) as [->|].
  - rewrite Hlb. apply woke_refl.
Qed.

Lemma log_relse_ok s st nb V X L i bn :
  log_io_ok s st nb V X L → unlocked (bc (lb s)) → X !! i = Some bn → bdata (getb i (lb s)) = V bn →
  ∃ s', ll (brelse i) s = Ret tt s' ∧ log_io_ok s' st nb V (delete i X) L ∧
    (∀ j, bdata (getb j (lb s')) = bdata (getb j (lb s))) ∧ woke (bc (lb s)) (bc (lb s')).
Proof.
  intros (Ho & <- & l & Hlog & ->) (Hl1 & Hl2 & _) Hi Hd.
  destruct (brelse_run (lb s) V X (list_to_set l) i bn) as (t & E & Hok & Hw & Hdk & _ & Hdt & _); try done.
  { apply Hlog. }
  exists (set_lb t s). rewrite (ll_Ret _ _ _ _ E). cbn [lb set_lb]. split_and!; try done.
  split_and!; [done|cbn; by rewrite Hdk|]. exists l. split; [|done]. eapply log_ok_lb; [done|done|by rewrite Hdk|done].
Qed.

Lemma log_core_ok s st nb V X L c :
  log_io_ok s st nb V X L → log_io_ok (set_lb (set_bc c (lb s)) s) st nb V X L.
Proof.
  intros (Ho & Hl & l & Hlog & ->). split_and!; [done|done|]. exists l. split; [|done]. by eapply (log_ok_core s).
Qed.

#[export] Instance log_block_spec (w : nat) : @BlockSpec lst (log_io (S w)).
Proof.
  refine {| io_ok := log_io_ok : _ → _ |}.
  - done.
  - done.
  - intros s. cbn. rewrite set_bc_same. by destruct s.
  - intros. by apply log_core_ok.
  - done.
  - intros s st nb V V' X L HV (Ho & Hl & l & Hlog & HL). split_and!; try done. exists l. split; [|done].
    by eapply log_ok_ext.
  - intros. by apply (log_read_ok w).
  - intros. by eapply log_upd_ok.
  - intros. by eapply log_log_ok.
  - intros. by eapply log_relse_ok.
Defined.
