(* ===== verification/Fs.v ===== *)
(** * The file system (fs.c)

    Blocks, inodes, directories and path names on top of the block interface
    of [BlockIO].  [fsst] adds the superblock and the inode cache to the state
    of the blocks.  A [struct inode *] is an index into the cache; names and
    paths are the bytes of C strings; readi gives the bytes it stores at [dst]
    and writei takes those it loads from [src].  The device switch, which
    console.c fills in, is a parameter. *)
From S2P Require Import Prelude Kernel Format Kalloc Vm Proc ProcSpec Bytes Bio Log BlockIO.

Local Open Scope Z_scope.
Local Open Scope kernel_scope.

Definition ROOTINO : Z := 1.
Definition NINODE : nat := 50.
Definition NDEV : Z := 10.
Definition NDIRECT : nat := 12.
Definition NINDIRECT : nat := 128.      (* BSIZE / sizeof(uint) *)
Definition MAXFILE : Z := Z.of_nat NDIRECT + Z.of_nat NINDIRECT.
Definition DINODE_SIZE : nat := 64.     (* sizeof(struct dinode) *)
Definition IPB : Z := 8.
Definition BPB : Z := Z.of_nat BSIZE * 8.
Definition DIRSIZ : nat := 14.
Definition DIRENT_SIZE : Z := 16.       (* sizeof(struct dirent) *)
Definition IBLOCK (i : Z) (sb : superblock) : Z := u32 (i / IPB + inodestart sb).
Definition BBLOCK (b : Z) (sb : superblock) : Z := u32 (b / BPB + bmapstart sb).
Definition T_DIR : Z := 1.
Definition T_FILE : Z := 2.
Definition T_DEV : Z := 3.
Definition I_BUSY : Z := 1.
Definition I_VALID : Z := 2.

Record inode := mk_inode {
  idev : Z;
  inum : Z;
  iref : Z;
  iflags : Z;
  itype : Z;
  imajor : Z;
  iminor : Z;
  nlink : Z;
  isize : Z;
  addrs : list Z
}.

Definition set_idev (v : Z) (x : inode) : inode :=
  mk_inode v (inum x) (iref x) (iflags x) (itype x) (imajor x) (iminor x) (nlink x) (isize x)
    (addrs x).
Definition set_inum (v : Z) (x : inode) : inode :=
  mk_inode (idev x) v (iref x) (iflags x) (itype x) (imajor x) (iminor x) (nlink x) (isize x)
    (addrs x).
Definition set_iref (v : Z) (x : inode) : inode :=
  mk_inode (idev x) (inum x) v (iflags x) (itype x) (imajor x) (iminor x) (nlink x) (isize x)
    (addrs x).
Definition set_iflags (v : Z) (x : inode) : inode :=
  mk_inode (idev x) (inum x) (iref x) v (itype x) (imajor x) (iminor x) (nlink x) (isize x)
    (addrs x).
Definition set_itype (v : Z) (x : inode) : inode :=
  mk_inode (idev x) (inum x) (iref x) (iflags x) v (imajor x) (iminor x) (nlink x) (isize x)
    (addrs x).
Definition set_imajor (v : Z) (x : inode) : inode :=
  mk_inode (idev x) (inum x) (iref x) (iflags x) (itype x) v (iminor x) (nlink x) (isize x)
    (addrs x).
Definition set_iminor (v : Z) (x : inode) : inode :=
  mk_inode (idev x) (inum x) (iref x) (iflags x) (itype x) (imajor x) v (nlink x) (isize x)
    (addrs x).
Definition set_nlink (v : Z) (x : inode) : inode :=
  mk_inode (idev x) (inum x) (iref x) (iflags x) (itype x) (imajor x) (iminor x) v (isize x)
    (addrs x).
Definition set_isize (v : Z) (x : inode) : inode :=
  mk_inode (idev x) (inum x) (iref x) (iflags x) (itype x) (imajor x) (iminor x) (nlink x) v
    (addrs x).
Definition set_addrs (v : list Z) (x : inode) : inode :=
  mk_inode (idev x) (inum x) (iref x) (iflags x) (itype x) (imajor x) (iminor x) (nlink x)
    (isize x) v.

Definition inode0 : inode := mk_inode 0 0 0 0 0 0 0 0 0 (replicate (S NDIRECT) 0).

Record fsst (S : Type) := mk_fs {
  fb : S;
  sb : superblock;
  icache : list inode
}.
Arguments mk_fs {S} _ _ _.
Arguments fb {S} _.
Arguments sb {S} _.
Arguments icache {S} _.

Definition set_fb {S} (v : S) (x : fsst S) : fsst S := mk_fs v (sb x) (icache x).
Definition set_sb {S} (v : superblock) (x : fsst S) : fsst S := mk_fs (fb x) v (icache x).
Definition set_icache {S} (v : list inode) (x : fsst S) : fsst S := mk_fs (fb x) (sb x) v.

(** ** Names *)

(** string.c's strncmp and strncpy on names held as bytes. *)
Fixpoint strncmp_bytes (n : nat) (p q : list Z) : Z :=
  match n with
  | O => 0
  | S n =>
      let a := default 0 (head p) in
      let b := default 0 (head q) in
      if negb (a =? 0) && (a =? b) then strncmp_bytes n (tail p) (tail q) else a - b
  end.

Fixpoint strncpy_bytes (n : nat) (t : list Z) : list Z :=
  match n with
  | O => []
  | S n =>
      match t with
      | [] => replicate (S n) 0
      | c :: t => if c =? 0 then replicate (S n) 0 else c :: strncpy_bytes n t
      end
  end.

Definition namecmp (s t : list Z) : Z := strncmp_bytes DIRSIZ s t.

Definition SLASH : Z := 47.

Fixpoint skip_slashes (path : list Z) : list Z :=
  match path with
  | c :: path' => if c =? SLASH then skip_slashes path' else path
  | [] => []
  end.

(** The characters up to the next slash or the end, and what follows. *)
Fixpoint split_elem (path : list Z) : list Z * list Z :=
  match path with
  | [] => ([], [])
  | c :: path' =>
      if (c =? SLASH) || (c =? 0) then ([], path)
      else let (e, r) := split_elem path' in (c :: e, r)
  end.

Definition at_end (path : list Z) : bool := default 0 (head path) =? 0.

(** The rest of the path and the new contents of the array [name]. *)
Definition skipelem (path name : list Z) : option (list Z * list Z) :=
  let path := skip_slashes path in
  if at_end path then None
  else
    let (s, path) := split_elem path in
    let name :=
      if (DIRSIZ <=? length s)%nat then list_inserts 0 (take DIRSIZ s) name
      else list_inserts 0 (s ++ [0]) name in
    Some (skip_slashes path, name).

(** ** Access *)

Section fs.
  Context {St : Type} {HB : BlockIO St}.
  Variable waits : nat.      (* bound on the waits of one call *)

Abbreviation FS := (M (fsst St)).

(** Devices: what devsw has for a major number. *)
Variable dev_read : Z → option (nat → Z → FS (Z * list Z)).
Variable dev_write : Z → option (nat → list Z → Z → FS Z).

Definition ff {A} (m : M St A) : FS A := zoom fb set_fb m.
Definition fc {A} (m : M core A) : FS A := ff (io m).

Definition geti (i : nat) (s : fsst St) : inode := default inode0 (icache s !! i).
Definition ifield {A} (i : nat) (f : inode → A) : FS A := gets (λ s, f (geti i s)).
Definition iset (i : nat) (f : inode → inode) : FS unit :=
  modify (λ s, set_icache (alter f i (icache s)) s).

(** ** Blocks *)

Definition readsb (d : Z) : FS unit :=
  bp <- ff (io_read d 1);;
  data <- ff (io_get bp);;
  modify (set_sb (decode_sb data));;
  ff (io_relse bp).

Definition bzero (d bno : Z) : FS unit :=
  bp <- ff (io_read d (u32 bno));;
  ff (io_upd bp (λ _, replicate BSIZE 0));;
  ff (io_log bp);;
  ff (io_relse bp).

(** The bit of block [bi] in a bitmap block. *)
Definition bit_mask (bi : Z) : Z := Z.shiftl 1 (bi mod 8).
Definition bit_byte (bi : Z) (data : list Z) : Z := default 0 (data !! Z.to_nat (bi / 8)).
Definition bit_free (bi : Z) (data : list Z) : bool := Z.land (bit_byte bi data) (bit_mask bi) =? 0.
Definition bit_set (bi : Z) (data : list Z) : list Z :=
  <[Z.to_nat (bi / 8) := Z.lor (bit_byte bi data) (bit_mask bi)]> data.
Definition bit_clear (bi : Z) (data : list Z) : list Z :=
  <[Z.to_nat (bi / 8) := Z.land (bit_byte bi data) (Z.lnot (bit_mask bi))]> data.

(** The inner loop of balloc: the first free bit from [bi] on. *)
Fixpoint balloc_scan (n : nat) (b bi size : Z) (data : list Z) : option Z :=
  match n with
  | O => None
  | S n =>
      if (bi <? BPB) && (b + bi <? size) then
        if bit_free bi data then Some bi else balloc_scan n b (bi + 1) size data
      else None
  end.

Fixpoint balloc_loop (n : nat) (d b : Z) : FS Z :=
  match n with
  | O => panic "balloc: out of blocks"
  | S n =>
      size <- gets (λ s, sb_size (sb s));;
      if b <? size then
        bb <- gets (λ s, BBLOCK b (sb s));;
        bp <- ff (io_read d bb);;
        data <- ff (io_get bp);;
        match balloc_scan (Z.to_nat BPB) b 0 size data with
        | Some bi =>
            ff (io_upd bp (bit_set bi));;
            ff (io_log bp);;
            ff (io_relse bp);;
            bzero d (b + bi);;
            ret (u32 (b + bi))
        | None => ff (io_relse bp);; balloc_loop n d (b + BPB)
        end
      else panic "balloc: out of blocks"
  end.

Definition balloc (d : Z) : FS Z :=
  size <- gets (λ s, sb_size (sb s));; balloc_loop (S (Z.to_nat (size / BPB + 1))) d 0.

Definition bfree (d b : Z) : FS unit :=
  readsb d;;
  bb <- gets (λ s, BBLOCK b (sb s));;
  bp <- ff (io_read d bb);;
  let bi := b mod BPB in
  data <- ff (io_get bp);;
  when (bit_free bi data) do panic "freeing free block";;
  ff (io_upd bp (bit_clear bi));;
  ff (io_log bp);;
  ff (io_relse bp).

(** ** Inodes *)

Definition iinit (d : Z) : FS unit :=
  readsb d;;
  m <- gets (λ s, text (format (λ _, [])
    (λ k, default 0 ([sb_size (sb s); nblocks (sb s); ninodes (sb s); nlog (sb s); logstart (sb s);
                      inodestart (sb s); bmapstart (sb s)] !! k)) 0
    (chars "sb: size %d nblocks %d ninodes %d nlog %d logstart %d inodestart %d bmap start %d" ++ [10])));;
  fc (kk (cprintf m)).

(** The fields of a struct dinode at offset [o] of a block. *)
Definition dinode_at (n : Z) : nat := DINODE_SIZE * Z.to_nat (n mod IPB).

Definition read_dinode (o : nat) (data : list Z) (ip : inode) : inode :=
  mk_inode (idev ip) (inum ip) (iref ip) (iflags ip)
    (s16 (rd16 o data)) (s16 (rd16 (o + 2) data)) (s16 (rd16 (o + 4) data)) (s16 (rd16 (o + 6) data))
    (rd32 (o + 8) data) ((λ k, rd32 (o + 12 + 4 * k) data) <$> seq 0 (S NDIRECT)).

Fixpoint write_addrs (o : nat) (l : list Z) (data : list Z) : list Z :=
  match l with
  | [] => data
  | a :: l => write_addrs (o + 4) l (wr32 o a data)
  end.

Definition write_dinode (o : nat) (ip : inode) (data : list Z) : list Z :=
  write_addrs (o + 12) (addrs ip)
    (wr32 (o + 8) (isize ip) (wr16 (o + 6) (u16 (nlink ip)) (wr16 (o + 4) (u16 (iminor ip))
      (wr16 (o + 2) (u16 (imajor ip)) (wr16 o (u16 (itype ip)) data))))).

Fixpoint find_inode (f : inode → bool) (l : list inode) : option nat :=
  match l with
  | [] => None
  | ip :: l => if f ip then Some O else S <$> find_inode f l
  end.

Definition iget (d n : Z) : FS nat :=
  fc (pacquire Licache);;
  f <- gets (λ s, find_inode (λ ip, (0 <? iref ip) && (idev ip =? d) && (inum ip =? n)) (icache s));;
  match f with
  | Some i =>
      iset i (λ ip, set_iref (iref ip + 1) ip);;
      fc (prelease Licache);;
      ret i
  | None =>
      e <- gets (λ s, find_inode (λ ip, iref ip =? 0) (icache s));;
      match e with
      | None => panic "iget: no inodes"
      | Some i =>
          iset i (λ ip, set_iflags 0 (set_iref 1 (set_inum n (set_idev d ip))));;
          fc (prelease Licache);;
          ret i
      end
  end.

Fixpoint ialloc_loop (n : nat) (d type i : Z) : FS nat :=
  match n with
  | O => panic "ialloc: no inodes"
  | S n =>
      k <- gets (λ s, ninodes (sb s));;
      if i <? k then
        ib <- gets (λ s, IBLOCK i (sb s));;
        bp <- ff (io_read d ib);;
        data <- ff (io_get bp);;
        if s16 (rd16 (dinode_at i) data) =? 0 then
          ff (io_upd bp (λ data, wr16 (dinode_at i) (u16 type)
                                  (list_inserts (dinode_at i) (replicate DINODE_SIZE 0) data)));;
          ff (io_log bp);;
          ff (io_relse bp);;
          iget d i
        else ff (io_relse bp);; ialloc_loop n d type (i + 1)
      else panic "ialloc: no inodes"
  end.

Definition ialloc (d type : Z) : FS nat :=
  k <- gets (λ s, ninodes (sb s));; ialloc_loop (Z.to_nat k) d type 1.

Definition iupdate (i : nat) : FS unit :=
  ip <- gets (geti i);;
  ib <- gets (λ s, IBLOCK (inum ip) (sb s));;
  bp <- ff (io_read (idev ip) ib);;
  ip <- gets (geti i);;
  ff (io_upd bp (write_dinode (dinode_at (inum ip)) ip));;
  ff (io_log bp);;
  ff (io_relse bp).

Definition idup (i : nat) : FS nat :=
  fc (pacquire Licache);;
  iset i (λ ip, set_iref (iref ip + 1) ip);;
  fc (prelease Licache);;
  ret i.

Fixpoint ilock_wait (fuel : nat) (i : nat) : FS unit :=
  match fuel with
  | O => nofuel
  | S fuel =>
      fl <- ifield i iflags;;
      if has I_BUSY fl then fc (sleep (ChInode i) (Some Licache));; ilock_wait fuel i else ret tt
  end.

Definition ilock (i : nat) : FS unit :=
  r <- ifield i iref;;
  when (r <? 1) do panic "ilock";;
  fc (pacquire Licache);;
  ilock_wait waits i;;
  iset i (λ ip, set_iflags (Z.lor (iflags ip) I_BUSY) ip);;
  fc (prelease Licache);;
  ip <- gets (geti i);;
  when (negb (has I_VALID (iflags ip))) do
    (ib <- gets (λ s, IBLOCK (inum ip) (sb s));;
     bp <- ff (io_read (idev ip) ib);;
     data <- ff (io_get bp);;
     iset i (read_dinode (dinode_at (inum ip)) data);;
     ff (io_relse bp);;
     iset i (λ ip, set_iflags (Z.lor (iflags ip) I_VALID) ip);;
     t <- ifield i itype;;
     when (t =? 0) do panic "ilock: no type").

Definition iunlock (i : nat) : FS unit :=
  ip <- gets (geti i);;
  when (negb (has I_BUSY (iflags ip)) || (iref ip <? 1)) do panic "iunlock";;
  fc (pacquire Licache);;
  iset i (λ ip, set_iflags (Z.land (iflags ip) (Z.lnot I_BUSY)) ip);;
  fc (wakeup (ChInode i));;
  fc (prelease Licache).

(** ** Contents *)

Definition addr_of (k : nat) (ip : inode) : Z := default 0 (addrs ip !! k).

Definition bmap (i : nat) (bn : Z) : FS Z :=
  d <- ifield i idev;;
  if bn <? Z.of_nat NDIRECT then
    addr <- ifield i (addr_of (Z.to_nat bn));;
    if addr =? 0 then
      addr <- balloc d;;
      iset i (λ ip, set_addrs (<[Z.to_nat bn := addr]> (addrs ip)) ip);;
      ret addr
    else ret addr
  else
    let bn := bn - Z.of_nat NDIRECT in
    if bn <? Z.of_nat NINDIRECT then
      addr <- ifield i (addr_of NDIRECT);;
      addr <- (if addr =? 0 then
                 addr <- balloc d;;
                 iset i (λ ip, set_addrs (<[NDIRECT := addr]> (addrs ip)) ip);;
                 ret addr
               else ret addr);;
      bp <- ff (io_read d addr);;
      data <- ff (io_get bp);;
      let addr := rd32 (4 * Z.to_nat bn) data in
      addr <- (if addr =? 0 then
                 addr <- balloc d;;
                 ff (io_upd bp (wr32 (4 * Z.to_nat bn) addr));;
                 ff (io_log bp);;
                 ret addr
               else ret addr);;
      ff (io_relse bp);;
      ret addr
    else panic "bmap: out of range".

(** The direct blocks from [k] on. *)
Fixpoint itrunc_direct (n : nat) (i k : nat) : FS unit :=
  match n with
  | O => ret tt
  | S n =>
      d <- ifield i idev;;
      a <- ifield i (addr_of k);;
      when (negb (a =? 0)) do
        (bfree d a;; iset i (λ ip, set_addrs (<[k := 0]> (addrs ip)) ip));;
      itrunc_direct n i (S k)
  end.

(** The entries of the indirect block in buffer [bp] from [j] on. *)
Fixpoint itrunc_indirect (n : nat) (d : Z) (bp j : nat) : FS unit :=
  match n with
  | O => ret tt
  | S n =>
      data <- ff (io_get bp);;
      let a := rd32 (4 * j) data in
      when (negb (a =? 0)) do bfree d a;;
      itrunc_indirect n d bp (S j)
  end.

Definition itrunc (i : nat) : FS unit :=
  itrunc_direct NDIRECT i 0;;
  d <- ifield i idev;;
  a <- ifield i (addr_of NDIRECT);;
  when (negb (a =? 0)) do
    (bp <- ff (io_read d a);;
     itrunc_indirect NINDIRECT d bp 0;;
     ff (io_relse bp);;
     a <- ifield i (addr_of NDIRECT);;
     bfree d a;;
     iset i (λ ip, set_addrs (<[NDIRECT := 0]> (addrs ip)) ip));;
  iset i (set_isize 0);;
  iupdate i.

Definition iput (i : nat) : FS unit :=
  fc (pacquire Licache);;
  ip <- gets (geti i);;
  when ((iref ip =? 1) && has I_VALID (iflags ip) && (nlink ip =? 0)) do
    (when (has I_BUSY (iflags ip)) do panic "iput busy";;
     iset i (λ ip, set_iflags (Z.lor (iflags ip) I_BUSY) ip);;
     fc (prelease Licache);;
     itrunc i;;
     iset i (set_itype 0);;
     iupdate i;;
     fc (pacquire Licache);;
     iset i (set_iflags 0);;
     fc (wakeup (ChInode i)));;
  iset i (λ ip, set_iref (iref ip - 1) ip);;
  fc (prelease Licache).

Definition iunlockput (i : nat) : FS unit := iunlock i;; iput i.

(** struct stat *)
Record fstat := mk_stat { st_type : Z; st_dev : Z; st_ino : Z; st_nlink : Z; st_size : Z }.

Definition stati (i : nat) : FS fstat :=
  gets (λ s, let ip := geti i s in mk_stat (itype ip) (idev ip) (inum ip) (nlink ip) (isize ip)).

(** The loops of readi and writei, with [tot] bytes done; every round moves at
    least one byte. *)
Fixpoint readi_loop (fuel : nat) (i : nat) (tot off n : Z) : FS (list Z) :=
  match fuel with
  | O => ret []
  | S fuel =>
      if tot <? n then
        d <- ifield i idev;;
        bn <- bmap i (off / Z.of_nat BSIZE);;
        bp <- ff (io_read d bn);;
        let m := Z.min (n - tot) (Z.of_nat BSIZE - off mod Z.of_nat BSIZE) in
        data <- ff (io_get bp);;
        ff (io_relse bp);;
        rest <- readi_loop fuel i (tot + m) (off + m) n;;
        ret (peek (Z.to_nat (off mod Z.of_nat BSIZE)) (Z.to_nat m) data ++ rest)
      else ret []
  end.

Definition readi (i : nat) (off n : Z) : FS (Z * list Z) :=
  ip <- gets (geti i);;
  if itype ip =? T_DEV then
    if (imajor ip <? 0) || (NDEV <=? imajor ip) then ret (-1, [])
    else match dev_read (imajor ip) with
         | None => ret (-1, [])
         | Some read => read i (s32 n)
         end
  else if (isize ip <? off) || (u32 (off + n) <? off) then ret (-1, [])
  else
    let n := if isize ip <? u32 (off + n) then u32 (isize ip - off) else n in
    l <- readi_loop (Z.to_nat n) i 0 off n;;
    ret (s32 n, l).

(** Returns the offset after the last byte. *)
Fixpoint writei_loop (fuel : nat) (i : nat) (src : list Z) (tot off n : Z) : FS Z :=
  match fuel with
  | O => ret off
  | S fuel =>
      if tot <? n then
        d <- ifield i idev;;
        bn <- bmap i (off / Z.of_nat BSIZE);;
        bp <- ff (io_read d bn);;
        let m := Z.min (n - tot) (Z.of_nat BSIZE - off mod Z.of_nat BSIZE) in
        ff (io_upd bp (list_inserts (Z.to_nat (off mod Z.of_nat BSIZE)) (peek (Z.to_nat tot) (Z.to_nat m) src)));;
        ff (io_log bp);;
        ff (io_relse bp);;
        writei_loop fuel i src (tot + m) (off + m) n
      else ret off
  end.

Definition writei (i : nat) (src : list Z) (off n : Z) : FS Z :=
  ip <- gets (geti i);;
  if itype ip =? T_DEV then
    if (imajor ip <? 0) || (NDEV <=? imajor ip) then ret (-1)
    else match dev_write (imajor ip) with
         | None => ret (-1)
         | Some write => write i src (s32 n)
         end
  else if (isize ip <? off) || (u32 (off + n) <? off) then ret (-1)
  else if MAXFILE * Z.of_nat BSIZE <? u32 (off + n) then ret (-1)
  else
    off <- writei_loop (Z.to_nat n) i src 0 off n;;
    size <- ifield i isize;;
    when ((0 <? n) && (size <? off)) do (iset i (set_isize off);; iupdate i);;
    ret (s32 n).

(** ** Directories *)

Definition de_inum (de : list Z) : Z := rd16 0 de.
Definition de_name (de : list Z) : list Z := drop 2 de.

(** The inode and the offset of the entry. *)
Fixpoint dirlookup_loop (fuel : nat) (dp : nat) (name : list Z) (off : Z) : FS (option (nat * Z)) :=
  match fuel with
  | O => nofuel
  | S fuel =>
      size <- ifield dp isize;;
      if off <? size then
        '(r, de) <- readi dp off DIRENT_SIZE;;
        when (negb (r =? DIRENT_SIZE)) do panic "dirlink read";;
        if de_inum de =? 0 then dirlookup_loop fuel dp name (off + DIRENT_SIZE)
        else if namecmp name (de_name de) =? 0 then
          d <- ifield dp idev;;
          ip <- iget d (de_inum de);;
          ret (Some (ip, off))
        else dirlookup_loop fuel dp name (off + DIRENT_SIZE)
      else ret None
  end.

Definition dirlookup (dp : nat) (name : list Z) : FS (option (nat * Z)) :=
  t <- ifield dp itype;;
  when (negb (t =? T_DIR)) do panic "dirlookup not DIR";;
  size <- ifield dp isize;;
  dirlookup_loop (S (Z.to_nat (size / DIRENT_SIZE + 1))) dp name 0.

(** The offset of the first empty entry, or the end. *)
Fixpoint dirlink_scan (fuel : nat) (dp : nat) (off : Z) : FS Z :=
  match fuel with
  | O => nofuel
  | S fuel =>
      size <- ifield dp isize;;
      if off <? size then
        '(r, de) <- readi dp off DIRENT_SIZE;;
        when (negb (r =? DIRENT_SIZE)) do panic "dirlink read";;
        if de_inum de =? 0 then ret off else dirlink_scan fuel dp (off + DIRENT_SIZE)
      else ret off
  end.

Definition dirlink (dp : nat) (name : list Z) (n : Z) : FS Z :=
  r <- dirlookup dp name;;
  match r with
  | Some (ip, _) => iput ip;; ret (-1)
  | None =>
      size <- ifield dp isize;;
      off <- dirlink_scan (S (Z.to_nat (size / DIRENT_SIZE + 1))) dp 0;;
      let de := le_split 2 (u16 n) ++ strncpy_bytes DIRSIZ name in
      r <- writei dp de off DIRENT_SIZE;;
      when (negb (r =? DIRENT_SIZE)) do panic "dirlink";;
      ret 0
  end.

(** ** Paths *)

(** Returns the inode and the last element that was copied to [name]. *)
Fixpoint namex_loop (fuel : nat) (ip : nat) (path : list Z) (parent : bool) (name : list Z)
  : FS (option (nat * list Z)) :=
  match fuel with
  | O => nofuel
  | S fuel =>
      match skipelem path name with
      | None => if parent then iput ip;; ret None else ret (Some (ip, name))
      | Some (path, name) =>
          ilock ip;;
          t <- ifield ip itype;;
          if negb (t =? T_DIR) then iunlockput ip;; ret None
          else if parent && at_end path then iunlock ip;; ret (Some (ip, name))
          else
            next <- dirlookup ip name;;
            match next with
            | None => iunlockput ip;; ret None
            | Some (next, _) => iunlockput ip;; namex_loop fuel next path parent name
            end
      end
  end.

Definition namex (path : list Z) (parent : bool) (name : list Z) : FS (option (nat * list Z)) :=
  ip <- (if default 0 (head path) =? SLASH then iget DEV ROOTINO
         else
           c <- fc (myproc (λ me, pget me cwd));;
           match c with Some c => idup c | None => panic "trap" end);;
  namex_loop (S (length path)) ip path parent name.

Definition namei (path : list Z) : FS (option nat) :=
  r <- namex path false (replicate DIRSIZ 0);; ret (fst <$> r).

Definition nameiparent (path name : list Z) : FS (option (nat * list Z)) := namex path true name.

End fs.
