(* ===== verification/FsSpec.v ===== *)
(** * Theorems about the file system

    Directory entries, inodes and paths as pure data first, then the
    operations of [Fs] on the block interface: what reading a file returns,
    what looking up a path finds and what allocating a block does, in terms of
    the contents [V] of the blocks. *)
From S2P Require Import Prelude Kernel Kalloc Vm Proc ProcSpec Bytes Bio Log BlockIO Fs.

Local Open Scope Z_scope.
Local Open Scope kernel_scope.

(** ** Inodes on disk *)

(** The fields have the widths of struct dinode. *)
Definition inode_wf (ip : inode) : Prop :=
  -32768 ≤ itype ip < 32768 ∧ -32768 ≤ imajor ip < 32768 ∧ -32768 ≤ iminor ip < 32768 ∧
  -32768 ≤ nlink ip < 32768 ∧ 0 ≤ isize ip < W32 ∧ length (addrs ip) = S NDIRECT ∧
  Forall (λ a, 0 ≤ a < W32) (addrs ip).

Lemma s16_u16 z : -32768 ≤ z < 32768 → s16 (u16 z) = z.
Proof.
  intros Hz. unfold s16, u16. rewrite Z.mod_mod by lia.
  destruct (Z.ltb_spec (z mod 65536) 32768); Z.div_mod_to_equations; lia.
Qed.

Lemma u16_range z : 0 ≤ u16 z < 256 ^ Z.of_nat 2.
Proof. apply Z.mod_pos_bound. lia. Qed.

Lemma length_write_addrs o l data : length (write_addrs o l data) = length data.
Proof. revert o data. induction l as [|a l IH]; intros; cbn [write_addrs]; [done|]. by rewrite IH, length_wr. Qed.

Lemma write_addrs_other n p o l data :
  (p + n ≤ o ∨ o + 4 * length l ≤ p)%nat → rd n p (write_addrs o l data) = rd n p data.
Proof.
  revert o data. induction l as [|a l IH]; intros o data Hp; cbn [write_addrs length] in *; [done|].
  rewrite IH by lia. apply rd_wr_ne. lia.
Qed.

Lemma write_addrs_read o l data k a :
  l !! k = Some a → 0 ≤ a < W32 → (o + 4 * length l ≤ length data)%nat →
  rd32 (o + 4 * k) (write_addrs o l data) = a.
Proof.
  revert o data k. induction l as [|b l IH]; intros o data k Hk Ha Hl; [done|]. cbn [write_addrs length] in *.
  destruct k as [|k]; cbn in Hk.
  - injection Hk as ->. rewrite write_addrs_other by lia. rewrite Nat.mul_0_r, Nat.add_0_r. apply rd_wr; [lia|done].
  - replace (o + 4 * S k)%nat with (o + 4 + 4 * k)%nat by lia. apply IH; [done|done|]. rewrite length_wr. lia.
Qed.

Lemma length_write_dinode o ip data : length (write_dinode o ip data) = length data.
Proof. unfold write_dinode. by rewrite length_write_addrs, !length_wr. Qed.

Lemma write_dinode_other n p o ip data :
  length (addrs ip) = S NDIRECT → (p + n ≤ o ∨ o + DINODE_SIZE ≤ p)%nat →
  rd n p (write_dinode o ip data) = rd n p data.
Proof.
  intros Hl Hp. unfold write_dinode, DINODE_SIZE, NDIRECT in *.
  rewrite write_addrs_other by lia. rewrite !rd_wr_ne by lia. done.
Qed.

Lemma read_write_dinode o ip ip' data :
  inode_wf ip → (o + DINODE_SIZE ≤ length data)%nat →
  read_dinode o (write_dinode o ip data) ip' =
    mk_inode (idev ip') (inum ip') (iref ip') (iflags ip') (itype ip) (imajor ip) (iminor ip) (nlink ip)
      (isize ip) (addrs ip).
Proof.
  intros (H1 & H2 & H3 & H4 & H5 & Hl & Ha) Ho. unfold read_dinode. f_equal.
  1-5: unfold write_dinode, DINODE_SIZE in *; rewrite write_addrs_other by lia;
    rewrite ?(rd_wr_ne 2 _ 4), ?(rd_wr_ne 4 _ 2) by lia; rewrite ?(rd_wr_ne 2) by lia;
    (rewrite rd_wr; [try (by apply s16_u16); done|rewrite ?length_wr; lia|first [apply u16_range|done]]).
  apply list_eq. intros k. rewrite list_lookup_fmap. destruct (decide (k < S NDIRECT)%nat) as [Hk|Hk].
  - rewrite lookup_seq_lt by done. cbn [fmap option_fmap option_map]. rewrite Nat.add_0_l.
    destruct (lookup_lt_is_Some_2 (addrs ip) k) as [a Ea]; [lia|]. rewrite Ea. f_equal.
    unfold write_dinode. apply write_addrs_read; [done|by eapply Forall_lookup_1 in Ha|].
    rewrite !length_wr, Hl. unfold DINODE_SIZE, NDIRECT in *. lia.
  - rewrite !lookup_ge_None_2; [done|lia|rewrite length_seq; lia].
Qed.

Lemma read_write_dinode_ne o o' ip ip' data :
  length (addrs ip) = S NDIRECT → (o' + DINODE_SIZE ≤ o ∨ o + DINODE_SIZE ≤ o')%nat →
  read_dinode o' (write_dinode o ip data) ip' = read_dinode o' data ip'.
Proof.
  intros Hl Hd. unfold read_dinode.
  rewrite !write_dinode_other by (done || (unfold DINODE_SIZE in *; lia)). f_equal.
  apply list_fmap_ext. intros i k Hk%lookup_seq. rewrite write_dinode_other; [done|done|].
  unfold DINODE_SIZE, NDIRECT in *. lia.
Qed.

(** The inode iupdate writes is the one ilock reads back: decoding an
    encoded inode gives all of its fields, and the other inodes of the block
    are not touched. *)
Theorem dinode_roundtrip o ip ip' data :
  inode_wf ip → (o + DINODE_SIZE ≤ length data)%nat →
  read_dinode o (write_dinode o ip data) ip' =
    mk_inode (idev ip') (inum ip') (iref ip') (iflags ip') (itype ip) (imajor ip) (iminor ip) (nlink ip)
      (isize ip) (addrs ip) ∧
  ∀ o' ip'', (o' + DINODE_SIZE ≤ o ∨ o + DINODE_SIZE ≤ o')%nat →
    read_dinode o' (write_dinode o ip data) ip'' = read_dinode o' data ip''.
Proof.
  intros Hwf Ho. split; [by apply read_write_dinode|]. intros o' ip'' Hd. apply read_write_dinode_ne; [apply Hwf|done].
Qed.

(** ** Paths *)

(** The path cut at the slashes, and its non-empty elements. *)
Fixpoint split_on (c : Z) (l : list Z) : list (list Z) :=
  match l with
  | [] => [[]]
  | x :: l =>
      if x =? c then [] :: split_on c l
      else match split_on c l with [] => [[x]] | e :: es => (x :: e) :: es end
  end.

Definition elements (path : list Z) : list (list Z) := filter (λ e, e ≠ []) (split_on SLASH path).

(** The name in an array: the bytes before the first zero. *)
Fixpoint cname (l : list Z) : list Z :=
  match l with
  | [] => []
  | c :: l => if c =? 0 then [] else c :: cname l
  end.

(** The elements skipelem gives when it is called until there are no more. *)
Fixpoint walk (fuel : nat) (path name : list Z) : list (list Z) :=
  match fuel with
  | O => []
  | S fuel =>
      match skipelem path name with
      | None => []
      | Some (path, name) => cname name :: walk fuel path name
      end
  end.

Lemma split_on_cons c l : ∃ e es, split_on c l = e :: es.
Proof.
  destruct l as [|x l]; cbn; [by eauto|]. destruct (x =? c); [by eauto|].
  destruct (split_on c l); by eauto.
Qed.

Lemma elements_slash path : elements (SLASH :: path) = elements path.
Proof. unfold elements. cbn [split_on]. rewrite Z.eqb_refl. by rewrite filter_cons_False by naive_solver. Qed.

Lemma elements_skip path : elements (skip_slashes path) = elements path.
Proof.
  induction path as [|c path IH]; [done|]. cbn [skip_slashes]. destruct (c =? SLASH) eqn:E; bools; [|done].
  by rewrite IH, E, elements_slash.
Qed.

Lemma skip_slashes_spec path :
  (length (skip_slashes path) ≤ length path)%nat ∧ (∀ c r, skip_slashes path = c :: r → c ≠ SLASH) ∧
  (∀ x, x ∈ skip_slashes path → x ∈ path).
Proof.
  induction path as [|c path (IH1 & IH2 & IH3)]; [by cbn|]. cbn [skip_slashes].
  destruct (c =? SLASH) eqn:E; bools; cbn [length].
  - split_and!; [lia|done|]. intros x Hx. right. by apply IH3.
  - split_and!; [lia| |done]. intros c' r [= <- _]. done.
Qed.

Lemma split_elem_spec path :
  0 ∉ path → let (e, r) := split_elem path in
  path = e ++ r ∧ SLASH ∉ e ∧ (r = [] ∨ ∃ r', r = SLASH :: r') ∧
  elements path = if decide (e = []) then elements r else e :: elements r.
Proof.
  induction path as [|c path IH]; intros H0; cbn [split_elem].
  { split_and!; [done|set_solver|by left|]. by rewrite decide_True. }
  apply not_elem_of_cons in H0 as [Hc H0]. rewrite (proj2 (Z.eqb_neq c 0)), orb_false_r by done.
  destruct (c =? SLASH) eqn:E; bools.
  { split_and!; [done|set_solver|subst c; by eauto|]. by rewrite decide_True. }
  specialize (IH H0). destruct (split_elem path) as [e r]. destruct IH as (-> & He & Hr & Hel).
  split_and!; [done|apply not_elem_of_cons; by split|done|].
  rewrite decide_False by done. unfold elements. cbn [split_on]. rewrite (proj2 (Z.eqb_neq _ _)) by done.
  destruct e as [|x e].
  - destruct Hr as [->|(r' & ->)]; cbn [app split_on]; rewrite ?Z.eqb_refl.
    + by rewrite filter_cons_True.
    + rewrite filter_cons_True by done. by rewrite (filter_cons_False _ []) by naive_solver.
  - rewrite decide_False in Hel by done. unfold elements in Hel.
    destruct (split_on_cons SLASH ((x :: e) ++ r)) as (a & es & Ea). rewrite Ea in Hel |- *.
    rewrite filter_cons_True by done. destruct (decide (a = [])) as [->|Ha].
    + exfalso. cbn [app split_on] in Ea. apply not_elem_of_cons in He as [Hx _].
      rewrite (proj2 (Z.eqb_neq x SLASH)) in Ea by congruence. destruct (split_on SLASH (e ++ r)); done.
    + rewrite filter_cons_True in Hel by done. injection Hel as -> ->. done.
Qed.

Lemma cname_nonzero l r : 0 ∉ l → cname (l ++ 0 :: r) = l.
Proof.
  induction l as [|c l IH]; intros H0; cbn; [done|]. apply not_elem_of_cons in H0 as [Hc H0].
  rewrite (proj2 (Z.eqb_neq _ _)) by congruence. by rewrite IH.
Qed.

Lemma cname_all l : 0 ∉ l → cname l = l.
Proof.
  induction l as [|c l IH]; intros H0; cbn; [done|]. apply not_elem_of_cons in H0 as [Hc H0].
  rewrite (proj2 (Z.eqb_neq _ _)) by congruence. by rewrite IH.
Qed.

Lemma inserts_0 (k l : list Z) : (length k ≤ length l)%nat → list_inserts 0 k l = k ++ drop (length k) l.
Proof.
  intros Hl. rewrite <- (take_drop (length k) l) at 1. apply list_inserts_0_r. rewrite length_take. lia.
Qed.

(** One step: the first element is cut to DIRSIZ bytes, the rest has the
    other elements and is shorter. *)
Lemma skipelem_spec path name :
  0 ∉ path → length name = DIRSIZ →
  match skipelem path name with
  | None => elements path = []
  | Some (path', name') =>
      ∃ e, elements path = e :: elements path' ∧ cname name' = take DIRSIZ e ∧ length name' = DIRSIZ ∧
        0 ∉ path' ∧ (length path' < length path)%nat ∧
        (at_end path' = true ↔ elements path' = [])
  end.
Proof.
  intros H0 Hname. unfold skipelem. destruct (skip_slashes_spec path) as (Hl & Hs & Hin).
  rewrite <- (elements_skip path). set (p := skip_slashes path) in *.
  assert (0 ∉ p) as Hp by (intros Hx; apply H0; by apply Hin).
  destruct p as [|c p'] eqn:Ep; [done|].
  assert (at_end (c :: p') = false) as ->.
  { apply not_elem_of_cons in Hp as [? _]. apply Z.eqb_neq. cbn. congruence. }
  pose proof (split_elem_spec _ Hp) as Hsp. destruct (split_elem (c :: p')) as [e r] eqn:Ee.
  destruct Hsp as (Heq & He & Hr & Hel).
  assert (e ≠ []) as Hne.
  { intros ->. cbn in Heq. subst r. destruct Hr as [?|(r' & [= -> _])]; [done|]. by eapply Hs. }
  rewrite decide_False in Hel by done. rewrite Heq in Hp. apply not_elem_of_app in Hp as [H0e H0r].
  destruct (skip_slashes_spec r) as (Hl' & Hs' & Hin'). exists e. rewrite elements_skip.
  assert (∀ x : list Z, (length x ≤ DIRSIZ)%nat → length (list_inserts 0 x name) = DIRSIZ) as Hins
    by (intros; by rewrite length_inserts).
  split_and!; [done|..].
  - destruct (Nat.leb_spec DIRSIZ (length e)).
    + rewrite inserts_0 by (rewrite length_take; lia). rewrite length_take, Nat.min_l, drop_ge, app_nil_r by lia.
      apply cname_all. intros Hx. by apply H0e, (subseteq_take DIRSIZ e).
    + rewrite inserts_0 by (rewrite length_app; cbn; lia). rewrite <- app_assoc. cbn [app].
      rewrite cname_nonzero by done. by rewrite take_ge by lia.
  - by destruct (Nat.leb _ _); rewrite length_inserts.
  - intros Hx. by apply H0r, Hin'.
  - assert (length (c :: p') = length (e ++ r)) as Hlen by (by rewrite Heq). rewrite length_app in Hlen.
    assert (1 ≤ length e)%nat by (destruct e; [done|cbn; lia]). lia.
  - rewrite <- (elements_skip r). destruct (skip_slashes r) as [|x r'] eqn:Er; [done|].
    assert (x ≠ 0) by (intros ->; apply H0r, Hin'; by left).
    assert (at_end (x :: r') = false) as -> by (by apply Z.eqb_neq).
    split; [done|]. intros Hx. exfalso.
    assert (0 ∉ x :: r') as Hnz by (intros Hz; by apply H0r, Hin').
    pose proof (split_elem_spec _ Hnz) as Hsp. cbn [split_elem] in Hsp.
    rewrite (proj2 (Z.eqb_neq x 0)), (proj2 (Z.eqb_neq x SLASH)) in Hsp by (done || by eapply Hs').
    cbn [orb] in Hsp. destruct (split_elem r') as [e' r'']. destruct Hsp as (_ & _ & _ & Hsp).
    rewrite Hx in Hsp. by rewrite decide_False in Hsp.
Qed.

(** Calling skipelem until it returns 0, as namex does, gives exactly the
    non-empty elements between the slashes of the path, in order, each cut to
    DIRSIZ bytes; the rest of the path gets shorter with every call. *)
Theorem skipelem_splits path name :
  0 ∉ path → length name = DIRSIZ →
  walk (S (length path)) path name = take DIRSIZ <$> elements path.
Proof.
  remember (S (length path)) as fuel eqn:Hf. assert (length path < fuel)%nat as Hlt by lia. clear Hf.
  revert path name Hlt. induction fuel as [|fuel IH]; intros path name Hlt H0 Hn; [lia|]. cbn [walk].
  pose proof (skipelem_spec path name H0 Hn) as Hs. destruct (skipelem path name) as [[path' name']|].
  - destruct Hs as (e & He & Hc & Hl & H0' & Hlen & _). rewrite He, Hc. cbn. f_equal. apply IH; [lia|done|done].
  - by rewrite Hs.
Qed.

Lemma skipelem_splits_witness :
  walk 9 (str "//a//bb/") (replicate DIRSIZ 0) = [str "a"; str "bb"].
Proof.
  apply (skipelem_splits (str "//a//bb/") (replicate DIRSIZ 0)).
  - vm_compute. intros H. repeat (apply elem_of_cons in H as [H|H]; [discriminate H|]). by apply elem_of_nil in H.
  - reflexivity.
Defined.

Lemma dinode_roundtrip_witness :
  let ip := mk_inode 1 7 1 0 T_FILE 0 0 1 600 (30 :: 31 :: replicate 11 0) in
  read_dinode 64 (write_dinode 64 ip (replicate BSIZE 0)) inode0 =
    mk_inode 0 0 0 0 T_FILE 0 0 1 600 (30 :: 31 :: replicate 11 0).
Proof.
  intros ip. apply (dinode_roundtrip 64 ip inode0 (replicate BSIZE 0)).
  - unfold inode_wf. cbn. unfold T_FILE, W32. split_and!; try lia; repeat constructor; lia.
  - cbn. unfold BSIZE, DINODE_SIZE. lia.
Defined.

(** ** Running the operations *)

(** The contents of a file: block [k] and byte [p]. *)
Definition file_block (V : Z → list Z) (ip : inode) (k : Z) : Z :=
  if k <? Z.of_nat NDIRECT then addr_of (Z.to_nat k) ip
  else rd32 (4 * Z.to_nat (k - Z.of_nat NDIRECT)) (V (addr_of NDIRECT ip)).

Definition file_byte (V : Z → list Z) (ip : inode) (p : Z) : Z :=
  default 0 (V (file_block V ip (p / Z.of_nat BSIZE)) !! Z.to_nat (p mod Z.of_nat BSIZE)).

(** [n] bytes of the file from [off] on. *)
Definition file_slice (V : Z → list Z) (ip : inode) (off : Z) (n : nat) : list Z :=
  (λ k, file_byte V ip (off + Z.of_nat k)) <$> seq 0 n.

(** The blocks of the first [n] bytes are allocated, on a disk of [nb] blocks. *)
Record file_mapped (V : Z → list Z) (nb : nat) (ip : inode) (n : Z) : Prop := {
  fm_dev : idev ip = DEV;
  fm_max : 0 ≤ n ≤ MAXFILE * Z.of_nat BSIZE;
  fm_block k : 0 ≤ k → k * Z.of_nat BSIZE < n → 0 < file_block V ip k < Z.of_nat nb;
  fm_ind : Z.of_nat NDIRECT * Z.of_nat BSIZE < n → 0 < addr_of NDIRECT ip < Z.of_nat nb
}.

Definition blocks_full (V : Z → list Z) (nb : nat) : Prop :=
  ∀ b, 0 ≤ b < Z.of_nat nb → length (V b) = BSIZE.

Section run.
  Context {St : Type} {HB : BlockIO St} {HS : BlockSpec St}.
  Variable waits : nat.
  Variable dev_read : Z → option (nat → Z → M (fsst St) (Z * list Z)).
  Variable dev_write : Z → option (nat → list Z → Z → M (fsst St) Z).

Lemma ff_Ret {A} (m : M St A) (s : fsst St) a t : m (fb s) = Ret a t → ff m s = Ret a (set_fb t s).
Proof. apply zoom_Ret. Qed.

Lemma set_fb_same (s : fsst St) : set_fb (fb s) s = s.
Proof. by destruct s. Qed.

Lemma io_get_run bp (t : St) : io_get bp t = Ret (io_data bp t) t.
Proof. done. Qed.

(** The block layer between two operations of the file system. *)
Record calm (t : St) (st : Z) (nb : nat) (V : Z → list Z) (L : gset Z) : Prop := {
  cm_ok : io_ok t st nb V ∅ L;
  cm_locks : unlocked (io_core t);
  cm_room : (size L < NBUF)%nat
}.

Lemma unlocked_same (t t' : St) : io_same t t' → unlocked (io_core t) → unlocked (io_core t').
Proof. intros Hs. by apply woke_unlocked. Qed.

Lemma io_same_trans (t1 t2 t3 : St) : io_same t1 t2 → io_same t2 t3 → io_same t1 t3.
Proof. apply woke_trans. Qed.

Lemma io_same_refl (t : St) : io_same t t.
Proof. apply woke_refl. Qed.

(** bread and brelse around a look at the data. *)
Lemma read_blk t st nb V L bn :
  calm t st nb V L → 0 ≤ bn < Z.of_nat nb →
  ∃ bp t1 t2, io_read DEV bn t = Ret bp t1 ∧ io_data bp t1 = V bn ∧ io_relse bp t1 = Ret tt t2 ∧
    calm t2 st nb V L ∧ io_same t t2.
Proof.
  intros [Hok Hul Hsz] Hb.
  destruct (io_read_ok _ _ _ _ _ _ bn Hok Hul Hb) as (bp & t1 & E1 & _ & Hok1 & Hd & _ & Hs1).
  { intros j. by rewrite lookup_empty. }
  { by rewrite map_size_empty. }
  destruct (io_relse_ok _ _ _ _ _ _ bp bn Hok1) as (t2 & E2 & Hok2 & _ & Hs2); [by eapply unlocked_same|by rewrite lookup_insert_eq|done|].
  rewrite delete_insert_id in Hok2 by apply lookup_empty.
  exists bp, t1, t2. split_and!; try done; [|by eapply io_same_trans].
  split; [done| |done]. eapply (unlocked_same t t2); [by eapply io_same_trans|done].
Qed.

Lemma bmap_mapped s st nb V L i k n :
  calm (fb s) st nb V L → file_mapped V nb (geti i s) n → 0 ≤ k → k * Z.of_nat BSIZE < n →
  ∃ t, bmap i k s = Ret (file_block V (geti i s) k) (set_fb t s) ∧ calm t st nb V L ∧ io_same (fb s) t.
Proof.
  intros Hc [M1 M2 M3 M4] Hk Hn. specialize (M3 k Hk Hn). unfold bmap.
  unfold bind at 1, ifield at 1, gets at 1. cbn [obind]. rewrite M1. unfold file_block in *.
  destruct (k <? Z.of_nat NDIRECT) eqn:E; bools.
  - unfold bind at 1, ifield at 1, gets at 1. cbn [obind]. rewrite (proj2 (Z.eqb_neq _ _)) by lia.
    exists (fb s). rewrite set_fb_same. split_and!; [done|done|apply io_same_refl].
  - unfold MAXFILE in M2. rewrite (proj2 (Z.ltb_lt _ _)) by nia.
    unfold bind at 1, ifield at 1, gets at 1. cbn [obind].
    assert (0 < addr_of NDIRECT (geti i s) < Z.of_nat nb) as Ha by (apply M4; nia).
    rewrite (proj2 (Z.eqb_neq (addr_of _ _) 0)) by lia. unfold bind at 1, ret at 1. cbn [obind].
    destruct (read_blk _ _ _ _ _ (addr_of NDIRECT (geti i s)) Hc) as (bp & t1 & t2 & E1 & Hd & E2 & Hc2 & Hs2); [lia|].
    rewrite (bind_Ret _ _ _ _ _ (ff_Ret _ s _ _ E1)).
    rewrite (bind_Ret _ _ _ _ _ (ff_Ret _ (set_fb t1 s) _ _ (io_get_run bp t1))). rewrite Hd.
    rewrite (proj2 (Z.eqb_neq (rd32 _ _) 0)) by lia. unfold bind at 1, ret at 1. cbn [obind].
    rewrite (bind_Ret _ _ _ _ _ (ff_Ret _ (set_fb t1 (set_fb t1 s)) _ _ E2)).
    exists t2. done.
Qed.

Lemma file_slice_app V ip off n m :
  file_slice V ip off (n + m) = file_slice V ip off n ++ file_slice V ip (off + Z.of_nat n) m.
Proof.
  unfold file_slice. rewrite seq_app, fmap_app. f_equal. cbn. apply list_eq. intros k.
  rewrite !list_lookup_fmap. destruct (decide (k < m)%nat).
  - rewrite !lookup_seq_lt by done. cbn. do 2 f_equal. lia.
  - by rewrite !lookup_seq_ge by lia.
Qed.

Lemma length_file_slice V ip off n : length (file_slice V ip off n) = n.
Proof. unfold file_slice. by rewrite length_fmap, length_seq. Qed.

Lemma peek_slice V nb ip off m n :
  blocks_full V nb → file_mapped V nb ip n → 0 ≤ off → 0 < m → off + m ≤ n →
  off mod Z.of_nat BSIZE + m ≤ Z.of_nat BSIZE →
  peek (Z.to_nat (off mod Z.of_nat BSIZE)) (Z.to_nat m) (V (file_block V ip (off / Z.of_nat BSIZE))) =
  file_slice V ip off (Z.to_nat m).
Proof.
  intros Hfull Hm Hoff Hm0 Hn Hle. set (B := Z.of_nat BSIZE) in *.
  assert (0 < B) as HB0 by (unfold B, BSIZE; lia).
  pose proof (Z.mod_pos_bound off B HB0) as Hmod. pose proof (Z.div_mod off B ltac:(lia)) as Hdm.
  assert (0 ≤ off / B) by (apply Z.div_pos; lia).
  assert (0 < file_block V ip (off / B) < Z.of_nat nb) as Hfb.
  { apply (fm_block _ _ _ _ Hm); [done|]. fold B. nia. }
  pose proof (Hfull (file_block V ip (off / B)) ltac:(lia)) as Hlen.
  assert (Z.of_nat (length (V (file_block V ip (off / B)))) = B) as HlenZ by (by rewrite Hlen).
  apply list_eq. intros k. destruct (decide (k < Z.to_nat m)%nat) as [Hk|Hk].
  - rewrite lookup_peek by done. unfold file_slice. rewrite list_lookup_fmap, lookup_seq_lt by done.
    cbn [fmap option_fmap option_map]. rewrite Nat.add_0_l. unfold file_byte. fold B.
    assert ((off + Z.of_nat k) / B = off / B) as ->.
    { symmetry. apply Z.div_unique with (off mod B + Z.of_nat k); lia. }
    assert ((off + Z.of_nat k) mod B = off mod B + Z.of_nat k) as ->.
    { symmetry. apply Z.mod_unique with (off / B); lia. }
    replace (Z.to_nat (off mod B + Z.of_nat k)) with (Z.to_nat (off mod B) + k)%nat by lia.
    destruct (V (file_block V ip (off / B)) !! (Z.to_nat (off mod B) + k)%nat) eqn:E; [done|].
    apply lookup_ge_None in E. lia.
  - rewrite lookup_ge_None_2; [|unfold peek; rewrite length_take; lia].
    rewrite lookup_ge_None_2; [done|]. rewrite length_file_slice. lia.
Qed.

Lemma geti_set_fb i t (s : fsst St) : geti i (set_fb t s) = geti i s.
Proof. done. Qed.

Lemma readi_loop_run fuel s st nb V L i tot off n size :
  calm (fb s) st nb V L → blocks_full V nb → file_mapped V nb (geti i s) size →
  0 ≤ tot ≤ n → 0 ≤ off → off + (n - tot) ≤ size → n - tot ≤ Z.of_nat fuel →
  ∃ t, readi_loop fuel i tot off n s = Ret (file_slice V (geti i s) off (Z.to_nat (n - tot))) (set_fb t s) ∧
    calm t st nb V L ∧ io_same (fb s) t.
Proof.
  revert s tot off. induction fuel as [|fuel IH]; intros s tot off Hc Hfull Hmap Htot Hoff Hsz Hf; cbn [readi_loop].
  { exists (fb s). replace (n - tot) with 0 by lia. rewrite set_fb_same. split_and!; [done|done|apply io_same_refl]. }
  destruct (tot <? n) eqn:E; bools; cycle 1.
  { exists (fb s). replace (n - tot) with 0 by lia. rewrite set_fb_same. split_and!; [done|done|apply io_same_refl]. }
  set (B := Z.of_nat BSIZE) in *. assert (0 < B) as HB0 by (unfold B, BSIZE; lia).
  pose proof (Z.mod_pos_bound off B HB0) as Hmod. pose proof (Z.div_mod off B ltac:(lia)) as Hdm.
  set (m := Z.min (n - tot) (B - off mod B)).
  unfold bind at 1, ifield at 1, gets at 1. cbn [obind]. rewrite (fm_dev _ _ _ _ Hmap).
  destruct (bmap_mapped s st nb V L i (off / B) size) as (t1 & E1 & Hc1 & Hs1); try done.
  { apply Z.div_pos; lia. }
  { fold B. nia. }
  rewrite (bind_Ret _ _ _ _ _ E1).
  assert (0 < file_block V (geti i s) (off / B) < Z.of_nat nb) as Hfb.
  { apply (fm_block _ _ _ _ Hmap); [apply Z.div_pos; lia|fold B; nia]. }
  destruct (read_blk t1 st nb V L (file_block V (geti i s) (off / B)) Hc1) as (bp & t2 & t3 & E2 & Hd & E3 & Hc3 & Hs3); [lia|].
  rewrite (bind_Ret _ _ _ _ _ (ff_Ret _ (set_fb t1 s) _ _ E2)).
  rewrite (bind_Ret _ _ _ _ _ (ff_Ret _ (set_fb t2 (set_fb t1 s)) _ _ (io_get_run bp t2))). rewrite Hd.
  rewrite (bind_Ret _ _ _ _ _ (ff_Ret _ (set_fb t2 (set_fb t2 (set_fb t1 s))) _ _ E3)).
  destruct (IH (set_fb t3 s) (tot + m) (off + m)) as (t4 & E4 & Hc4 & Hs4); try done; try lia.
  change (set_fb t3 (set_fb t2 (set_fb t2 (set_fb t1 s)))) with (set_fb t3 s).
  fold m. rewrite (bind_Ret _ _ _ _ _ E4). exists t4. unfold ret. rewrite geti_set_fb.
  split_and!; [|done|eapply io_same_trans; [exact Hs1|]; by eapply io_same_trans].
  change (set_fb t4 (set_fb t3 s)) with (set_fb t4 s). f_equal.
  pose proof (peek_slice V nb (geti i s) off m size) as Hpk. fold B in Hpk. rewrite Hpk by (done || lia).
  replace (Z.to_nat (n - tot)) with (Z.to_nat m + Z.to_nat (n - (tot + m)))%nat by lia.
  rewrite file_slice_app. by rewrite Z2Nat.id by lia.
Qed.

(** What readi returns for an ordinary file. *)
Lemma readi_run s st nb V L i off n :
  calm (fb s) st nb V L → blocks_full V nb → file_mapped V nb (geti i s) (isize (geti i s)) →
  itype (geti i s) ≠ T_DEV → 0 ≤ off → 0 ≤ n → off + n < W32 → off ≤ isize (geti i s) →
  ∃ t, let m := Z.min n (isize (geti i s) - off) in
    readi dev_read i off n s = Ret (m, file_slice V (geti i s) off (Z.to_nat m)) (set_fb t s) ∧
    calm t st nb V L ∧ io_same (fb s) t.
Proof.
  intros Hc Hfull Hmap Ht Hoff Hn Hw Hle. unfold readi. unfold bind at 1, gets at 1. cbn [obind].
  rewrite (proj2 (Z.eqb_neq _ _)), (proj2 (Z.ltb_ge _ off)) by lia.
  rewrite (u32_small (off + n)), (proj2 (Z.ltb_ge _ _)) by lia. cbn [orb].
  pose proof (fm_max _ _ _ _ Hmap) as Hmax. unfold MAXFILE, NDIRECT, NINDIRECT, BSIZE in Hmax.
  set (m := Z.min n (isize (geti i s) - off)).
  assert ((if isize (geti i s) <? off + n then u32 (isize (geti i s) - off) else n) = m) as ->.
  { destruct (Z.ltb_spec (isize (geti i s)) (off + n)); [rewrite u32_small by (unfold W32; lia)|]; lia. }
  destruct (readi_loop_run (Z.to_nat m) s st nb V L i 0 off m (isize (geti i s))) as (t & E & Hc' & Hs'); try done; try lia.
  exists t. rewrite (bind_Ret _ _ _ _ _ E). unfold ret. rewrite Z.sub_0_r, s32_small by lia. done.
Qed.

(** ** The inode cache *)

(** [ip] has the contents of the disk inode. *)
Definition disk_inode (V : Z → list Z) (b : superblock) (n : Z) : inode :=
  read_dinode (dinode_at n) (V (IBLOCK n b)) (mk_inode DEV n 0 0 0 0 0 0 0 []).

Definition same_inode (ip jp : inode) : Prop :=
  itype ip = itype jp ∧ imajor ip = imajor jp ∧ iminor ip = iminor jp ∧ nlink ip = nlink jp ∧
  isize ip = isize jp ∧ addrs ip = addrs jp.

(** The cache has an entry for every inode in [R], with that many references;
    only the entry [bz] is locked, and valid entries agree with the disk. *)
Record ic_ok (s : fsst St) (V : Z → list Z) (b : superblock) (R : gmap Z Z) (bz : option nat) : Prop := {
  ic_len : length (icache s) = NINODE;
  ic_sb : sb s = b;
  ic_ref i : (i < NINODE)%nat → 0 ≤ iref (geti i s);
  ic_entry i : (i < NINODE)%nat → 0 < iref (geti i s) →
    idev (geti i s) = DEV ∧ R !! inum (geti i s) = Some (iref (geti i s)) ∧
    has I_BUSY (iflags (geti i s)) = bool_decide (bz = Some i) ∧
    (has I_VALID (iflags (geti i s)) = true → same_inode (geti i s) (disk_inode V b (inum (geti i s))));
  ic_uniq i j : (i < NINODE)%nat → (j < NINODE)%nat → 0 < iref (geti i s) → 0 < iref (geti j s) →
    inum (geti i s) = inum (geti j s) → i = j;
  ic_has n r : R !! n = Some r → ∃ i, (i < NINODE)%nat ∧ 0 < iref (geti i s) ∧ inum (geti i s) = n
}.

Lemma geti_iset i f (s : fsst St) j : (i < length (icache s))%nat →
  geti j (set_icache (alter f i (icache s)) s) = if decide (j = i) then f (geti i s) else geti j s.
Proof.
  intros Hi. unfold geti. cbn. destruct (decide (j = i)) as [->|Hne].
  - rewrite list_lookup_alter_eq. destruct (lookup_lt_is_Some_2 _ _ Hi) as [p ->]. done.
  - by rewrite list_lookup_alter_ne.
Qed.

Lemma fc_Ret {A} (m : M core A) (s : fsst St) a c :
  m (io_core (fb s)) = Ret a c → fc m s = Ret a (set_fb (io_set_core c (fb s)) s).
Proof. intros E. unfold fc. apply ff_Ret. unfold io. by apply zoom_Ret. Qed.

Lemma find_inode_Some f l i : find_inode f l = Some i →
  (i < length l)%nat ∧ f (default inode0 (l !! i)) = true ∧ ∀ j, (j < i)%nat → f (default inode0 (l !! j)) = false.
Proof.
  revert i. induction l as [|p l IH]; intros i Hf; cbn in Hf; [done|]. destruct (f p) eqn:E.
  - injection Hf as <-. cbn. split_and!; [lia|done|lia].
  - destruct (find_inode f l) as [k|] eqn:Ek; [|done]. injection Hf as <-. destruct (IH k eq_refl) as (H1 & H2 & H3).
    cbn. split_and!; [lia|done|]. intros [|j] Hj; [done|]. apply H3. lia.
Qed.

Lemma find_inode_None f l : find_inode f l = None → ∀ i, (i < length l)%nat → f (default inode0 (l !! i)) = false.
Proof.
  induction l as [|p l IH]; intros Hf i Hi; cbn in *; [lia|]. destruct (f p) eqn:E; [done|].
  destruct (find_inode f l); [done|]. destruct i as [|i]; [done|]. apply IH; [done|lia].
Qed.

(** Taking and releasing a lock around updates of the cache only. *)
Lemma fc_locked (s : fsst St) l :
  Licache ∉ held (io_core (fb s)) →
  let s1 := set_fb (io_set_core (set_held (Licache :: held (io_core (fb s))) (io_core (fb s))) (fb s)) s in
  fc (pacquire Licache) s = Ret tt s1 ∧
  fc (prelease Licache) (set_icache l s1) = Ret tt (set_icache l s).
Proof.
  intros Hl s1. split; [by apply fc_Ret, pacquire_ok|].
  erewrite fc_Ret; cycle 1.
  { cbn [fb set_icache set_fb s1]. rewrite io_get_set. apply prelease_ok. reflexivity. }
  cbn [fb set_icache set_fb s1]. rewrite io_set_set. f_equal. unfold set_fb, set_icache; cbn. f_equal.
  rewrite set_held_back by done. apply io_set_get.
Qed.

Definition upd (i : nat) (f : inode → inode) (s : fsst St) : fsst St := set_icache (alter f i (icache s)) s.

Lemma geti_upd i f (s : fsst St) V b R bz j :
  ic_ok s V b R bz → (i < NINODE)%nat → geti j (upd i f s) = if decide (j = i) then f (geti i s) else geti j s.
Proof. intros Hok Hi. apply geti_iset. by rewrite (ic_len _ _ _ _ _ Hok). Qed.

(** An entry for inode [n] gets new contents. *)
Lemma ic_update s V b R bz bz' i f n :
  ic_ok s V b R bz → (i < NINODE)%nat →
  let ip := f (geti i s) in
  0 < iref ip → idev ip = DEV → inum ip = n → has I_BUSY (iflags ip) = bool_decide (bz' = Some i) →
  (has I_VALID (iflags ip) = true → same_inode ip (disk_inode V b n)) →
  (0 < iref (geti i s) ∧ inum (geti i s) = n ∨ iref (geti i s) = 0 ∧ R !! n = None) →
  (∀ j, j ≠ i → 0 < iref (geti j s) → bz' = Some j ↔ bz = Some j) →
  ic_ok (upd i f s) V b (<[n := iref ip]> R) bz'.
Proof.
  intros Hok Hi ip H1 H2 H3 H4 H5 Hold Hbz. pose proof Hok as [O1 O2 O3 O4 O5 O6].
  assert (∀ j, geti j (upd i f s) = if decide (j = i) then ip else geti j s) as G by (intros; by eapply geti_upd).
  assert (∀ j, (j < NINODE)%nat → j ≠ i → 0 < iref (geti j s) → inum (geti j s) ≠ n) as Hne.
  { intros j Hj Hji Hr Hn. destruct Hold as [[? ?]|[? HR]]; [apply Hji, O5; congruence|].
    destruct (O4 j Hj Hr) as (_ & HR' & _). congruence. }
  split.
  - unfold upd. cbn. by rewrite length_alter.
  - done.
  - intros j Hj. rewrite G. destruct (decide (j = i)); [lia|by apply O3].
  - intros j Hj. rewrite G. destruct (decide (j = i)) as [->|Hji].
    + intros _. rewrite H3, lookup_insert_eq. done.
    + intros Hr. destruct (O4 j Hj Hr) as (E1 & E2 & E3 & E4). split_and!; try done.
      * rewrite lookup_insert_ne; [done|]. intros E. symmetry in E. by eapply Hne.
      * rewrite E3. apply bool_decide_ext. symmetry. by apply Hbz.
  - intros j k Hj Hk. rewrite !G. destruct (decide (j = i)) as [->|Hji], (decide (k = i)) as [->|Hki]; try done.
    + intros _ Hr E. exfalso. eapply (Hne k); [done|done|done|congruence].
    + intros Hr _ E. exfalso. eapply (Hne j); [done|done|done|congruence].
    + by apply O5.
  - intros m r Hm. destruct (decide (m = n)) as [->|Hmn].
    + exists i. rewrite G, decide_True by done. done.
    + rewrite lookup_insert_ne in Hm by done. destruct (O6 m r Hm) as (j & Hj & Hr & Hin). exists j.
      rewrite G. destruct (decide (j = i)) as [->|]; [|done]. exfalso.
      destruct Hold as [[? ?]|[? ?]]; [congruence|lia].
Qed.

Lemma ic_free s V b R bz :
  ic_ok s V b R bz → (size R < NINODE)%nat → ∃ i, (i < NINODE)%nat ∧ iref (geti i s) = 0.
Proof.
  intros [O1 O2 O3 O4 O5 O6] Hsz.
  destruct (find_inode (λ ip, iref ip =? 0) (icache s)) as [i|] eqn:E.
  { apply find_inode_Some in E as (Hi & Hz & _). exists i. bools. split; [lia|done]. }
  exfalso. pose proof (find_inode_None _ _ E) as Hall. clear E.
  assert (∀ i, (i < NINODE)%nat → 0 < iref (geti i s)) as Hpos.
  { intros i Hi. specialize (Hall i ltac:(lia)). specialize (O3 i Hi). unfold geti in *. bools. lia. }
  set (l := (λ i, inum (geti i s)) <$> seq 0 NINODE).
  assert (NoDup l) as Hnd.
  { apply NoDup_fmap_2_strong; [|apply NoDup_seq]. intros i j Hi%elem_of_seq Hj%elem_of_seq E.
    apply O5; try lia; apply Hpos; lia. }
  assert (length l ≤ size R)%nat as Hle; [|unfold l in Hle; rewrite length_fmap, length_seq in Hle; lia].
  rewrite <- (size_list_to_set (C := gset Z) l) by done. rewrite <- size_dom. apply subseteq_size.
  intros x Hx%elem_of_list_to_set. apply list_elem_of_fmap in Hx as (i & -> & Hi%elem_of_seq).
  apply elem_of_dom. destruct (O4 i ltac:(lia) (Hpos i ltac:(lia))) as (_ & -> & _). eauto.
Qed.

(** The entries in use keep their inode and its contents. *)
Definition kept (s s' : fsst St) : Prop :=
  ∀ j, (j < NINODE)%nat → 0 < iref (geti j s) →
    0 < iref (geti j s') ∧ inum (geti j s') = inum (geti j s) ∧ idev (geti j s') = idev (geti j s) ∧
    iflags (geti j s') = iflags (geti j s) ∧ same_inode (geti j s') (geti j s).

(** iget finds the entry of the inode or takes an unused one. *)
Lemma iget_run s V b R bz n :
  ic_ok s V b R bz → Licache ∉ held (io_core (fb s)) → is_Some (R !! n) ∨ (size R < NINODE)%nat →
  (∀ i, bz = Some i → 0 < iref (geti i s)) →
  ∃ i f, iget DEV n s = Ret i (upd i f s) ∧ (i < NINODE)%nat ∧
    ic_ok (upd i f s) V b (<[n := default 0 (R !! n) + 1]> R) bz ∧
    0 < iref (geti i (upd i f s)) ∧ inum (geti i (upd i f s)) = n ∧ kept s (upd i f s).
Proof.
  intros Hok Hlk HR Hbz. pose proof Hok as [O1 O2 O3 O4 O5 O6]. unfold iget.
  destruct (fc_locked s (icache s) Hlk) as (E1 & _). rewrite (bind_Ret _ _ _ _ _ E1). clear E1.
  unfold bind at 1, gets at 1. cbn [obind]. cbn [icache set_fb].
  destruct (find_inode _ (icache s)) as [i|] eqn:E.
  - apply find_inode_Some in E as (Hi & Hf & _). rewrite O1 in Hi. cbn beta in Hf. fold (geti i s) in Hf. bools.
    set (f := λ ip, set_iref (iref ip + 1) ip). exists i, f.
    destruct (O4 i Hi) as (Ed & ER & Eb & Ev); [done|].
    assert (geti i (upd i f s) = f (geti i s)) as Gi by (rewrite (geti_upd i f s V b R bz) by done; by rewrite decide_True).
    split_and!; [|done|..].
    + unfold bind at 1, iset, modify. cbn [obind]. cbn [icache set_fb].
      destruct (fc_locked s (alter f i (icache s)) Hlk) as (_ & E2). fold f. rewrite (bind_Ret _ _ _ _ _ E2). done.
    + replace (default 0 (R !! n) + 1) with (iref (f (geti i s))).
      * apply (ic_update s V b R bz bz i f n); try done; cbn; [lia| |by left].
        intros Hv. assert (inum (geti i s) = n) as <- by done. by apply Ev.
      * cbn. replace n with (inum (geti i s)) by done. rewrite ER. done.
    + rewrite Gi. cbn. lia.
    + by rewrite Gi.
    + intros j Hj Hr. rewrite (geti_upd i f s V b R bz) by done. destruct (decide (j = i)) as [->|]; [|done].
      cbn. split_and!; try done. lia.
  - pose proof (find_inode_None _ _ E) as Hall. clear E.
    assert (R !! n = None) as HRn.
    { destruct (R !! n) as [r|] eqn:Er; [|done]. destruct (O6 n r Er) as (j & Hj & Hr & Hn).
      specialize (Hall j ltac:(lia)). cbn beta in Hall. fold (geti j s) in Hall. destruct (O4 j Hj Hr) as (Ed & _).
      rewrite Hn, Ed, !Z.eqb_refl, (proj2 (Z.ltb_lt _ _)) in Hall by done. done. }
    destruct HR as [[r HR]|Hsz]; [congruence|]. destruct (ic_free _ _ _ _ _ Hok Hsz) as (i0 & Hi0 & Hz0).
    unfold bind at 1, gets at 1. cbn [obind]. cbn [icache set_fb].
    destruct (find_inode (λ ip, iref ip =? 0) (icache s)) as [i|] eqn:E; cycle 1.
    { exfalso. pose proof (find_inode_None _ _ E i0 ltac:(lia)) as Hn. cbn beta in Hn. fold (geti i0 s) in Hn. by rewrite Hz0 in Hn. }
    apply find_inode_Some in E as (Hi & Hf & _). rewrite O1 in Hi. cbn beta in Hf. fold (geti i s) in Hf. bools.
    set (f := λ ip, set_iflags 0 (set_iref 1 (set_inum n (set_idev DEV ip)))). exists i, f.
    assert (geti i (upd i f s) = f (geti i s)) as Gi by (rewrite (geti_upd i f s V b R bz) by done; by rewrite decide_True).
    split_and!; [|done|..].
    + unfold bind at 1, iset, modify. cbn [obind]. cbn [icache set_fb].
      destruct (fc_locked s (alter f i (icache s)) Hlk) as (_ & E2). fold f. rewrite (bind_Ret _ _ _ _ _ E2). done.
    + rewrite HRn. change (default 0 None + 1) with (iref (f (geti i s))).
      apply (ic_update s V b R bz bz i f n); try done.
      * rewrite bool_decide_eq_false_2; [done|]. intros Hb. specialize (Hbz i Hb). lia.
      * right. done.
    + by rewrite Gi.
    + by rewrite Gi.
    + intros j Hj Hr. rewrite (geti_upd i f s V b R bz) by done. destruct (decide (j = i)) as [->|]; [lia|done].
Qed.

Lemma ibusy_bit x : has I_BUSY x = Z.testbit x 0.
Proof. exact (has_testbit 0 x ltac:(lia)). Qed.
Lemma ivalid_bit x : has I_VALID x = Z.testbit x 1.
Proof. exact (has_testbit 1 x ltac:(lia)). Qed.

Lemma iflag_bits x :
  has I_BUSY (Z.lor x I_BUSY) = true ∧ has I_VALID (Z.lor x I_BUSY) = has I_VALID x ∧
  has I_BUSY (Z.lor x I_VALID) = has I_BUSY x ∧ has I_VALID (Z.lor x I_VALID) = true ∧
  has I_BUSY (Z.land x (Z.lnot I_BUSY)) = false ∧ has I_VALID (Z.land x (Z.lnot I_BUSY)) = has I_VALID x.
Proof.
  rewrite !ibusy_bit, !ivalid_bit, !Z.lor_spec, !Z.land_spec, !Z.lnot_spec by lia.
  change (Z.testbit I_BUSY 0) with true. change (Z.testbit I_BUSY 1) with false.
  change (Z.testbit I_VALID 0) with false. change (Z.testbit I_VALID 1) with true.
  rewrite !orb_true_r, !orb_false_r. cbn [negb]. by rewrite andb_true_r, andb_false_r.
Qed.

Lemma calm_same t t' st nb V L : calm t st nb V L → io_ok t' st nb V ∅ L → io_same t t' → calm t' st nb V L.
Proof. intros [H1 H2 H3] Hok Hs. split; [done|by eapply unlocked_same|done]. Qed.

Lemma ilock_wait_free i s : has I_BUSY (iflags (geti i s)) = false → ilock_wait (S waits) i s = Ret tt s.
Proof. intros Hb. cbn [ilock_wait]. unfold bind at 1, ifield, gets. cbn [obind]. by rewrite Hb. Qed.

(** ilock reserves the entry and makes sure that it has the contents of the
    disk inode. *)
Lemma ilock_run s st nb V L b R i n :
  ic_ok s V b R None → calm (fb s) st nb V L → Licache ∉ held (io_core (fb s)) →
  (i < NINODE)%nat → 0 < iref (geti i s) → inum (geti i s) = n →
  itype (disk_inode V b n) ≠ 0 → 0 ≤ IBLOCK n b < Z.of_nat nb →
  ∃ s', ilock (S waits) i s = Ret tt s' ∧ ic_ok s' V b R (Some i) ∧ calm (fb s') st nb V L ∧
    io_same (fb s) (fb s') ∧ inum (geti i s') = n ∧ iref (geti i s') = iref (geti i s) ∧
    has I_VALID (iflags (geti i s')) = true ∧ same_inode (geti i s') (disk_inode V b n) ∧
    (∀ j, j ≠ i → geti j s' = geti j s).
Proof.
  intros Hok Hc Hlk Hi Hr Hn Ht Hib. pose proof (ic_entry _ _ _ _ _ Hok i Hi Hr) as (Hd & HR & Hb & Hv).
  rewrite bool_decide_eq_false_2 in Hb by done. destruct (iflag_bits (iflags (geti i s))) as (B1 & B2 & _).
  set (f := λ ip, set_iflags (Z.lor (iflags ip) I_BUSY) ip).
  assert (geti i (upd i f s) = f (geti i s)) as Gi by (rewrite (geti_upd i f s V b R None) by done; by rewrite decide_True).
  assert (ic_ok (upd i f s) V b R (Some i)) as Hok1.
  { rewrite <- (insert_id R n (iref (f (geti i s)))) by (cbn; by rewrite <- Hn).
    apply (ic_update s V b R None (Some i) i f n); try done; cbn.
    - rewrite bool_decide_eq_true_2 by done. exact B1.
    - intros Hx. rewrite <- Hn. apply Hv. rewrite <- B2. exact Hx.
    - by left.
    - intros j Hj _. split; [intros [= ->]; done|done]. }
  unfold ilock. unfold bind at 1, ifield at 1, gets at 1. cbn [obind].
  rewrite (proj2 (Z.ltb_ge _ _)) by lia. unfold bind at 1, ret at 1. cbn [obind].
  destruct (fc_locked s (alter f i (icache s)) Hlk) as (E1 & E2).
  rewrite (bind_Ret _ _ _ _ _ E1). clear E1. rewrite (bind_Ret _ _ _ _ _ (ilock_wait_free i (set_fb _ s) Hb)).
  unfold bind at 1, iset at 1, modify at 1. cbn [obind]. cbn [icache set_fb]. fold f.
  rewrite (bind_Ret _ _ _ _ _ E2). clear E2. fold (upd i f s).
  unfold bind at 1, gets at 1. cbn [obind]. rewrite Gi. cbn [iflags inum idev f set_iflags]. rewrite B2.
  destruct (has I_VALID (iflags (geti i s))) eqn:Ev; cbn [negb].
  { exists (upd i f s). rewrite Gi. split_and!; try done.
    - apply io_same_refl.
    - rewrite <- Hn. by apply Hv.
    - intros j Hj. rewrite (geti_upd i f s V b R None) by done. by rewrite decide_False. }
  unfold bind at 1, gets at 1. cbn [obind]. cbn [sb upd set_icache]. rewrite (ic_sb _ _ _ _ _ Hok), Hn, Hd.
  destruct (read_blk (fb s) st nb V L (IBLOCK n b) Hc Hib) as (bp & t1 & t2 & F1 & Hdt & F2 & Hc2 & Hs2).
  rewrite (bind_Ret _ _ _ _ _ (ff_Ret _ (upd i f s) _ _ F1)).
  rewrite (bind_Ret _ _ _ _ _ (ff_Ret _ (set_fb t1 (upd i f s)) _ _ (io_get_run bp t1))). rewrite Hdt.
  set (g := read_dinode (dinode_at n) (V (IBLOCK n b))).
  unfold bind at 1, iset at 1, modify at 1. cbn [obind].
  erewrite bind_Ret; [|apply ff_Ret; exact F2]. cbn [icache set_fb upd set_icache].
  unfold bind at 1, iset at 1, modify at 1. cbn [obind]. cbn [icache set_fb upd set_icache].
  rewrite !list_alter_alter_eq. set (h := (λ ip, set_iflags (Z.lor (iflags ip) I_VALID) ip) ∘ g ∘ f).
  match goal with |- context [set_icache _ ?x] => change (set_icache (alter h i (icache s)) x) with (set_fb t2 (upd i h s)) end.
  assert (geti i (upd i h s) = h (geti i s)) as Gh by (rewrite (geti_upd i h s V b R None) by done; by rewrite decide_True).
  unfold bind at 1, ifield at 1, gets at 1. cbn [obind]. rewrite geti_set_fb, Gh.
  assert (same_inode (h (geti i s)) (disk_inode V b n)) as Hsame by (by repeat split).
  destruct Hsame as (Hty & Hrest). rewrite Hty, (proj2 (Z.eqb_neq _ _)) by done.
  exists (set_fb t2 (upd i h s)). rewrite geti_set_fb, Gh.
  destruct (iflag_bits (Z.lor (iflags (geti i s)) I_BUSY)) as (_ & _ & B3 & B4 & _).
  split_and!; try done.
  - assert (ic_ok (upd i h s) V b R (Some i)) as [O1 O2 O3 O4 O5 O6]; [|by split].
    rewrite <- (insert_id R n (iref (h (geti i s)))) by (cbn; by rewrite <- Hn).
    apply (ic_update s V b R None (Some i) i h n); try done; cbn.
    + rewrite bool_decide_eq_true_2 by done. rewrite <- B1, <- B3. done.
    + by left.
    + intros j Hj _. split; [intros [= ->]; done|done].
  - intros j Hj. rewrite geti_set_fb, (geti_upd i h s V b R None) by done. by rewrite decide_False.
Qed.

Lemma fc_locked_wake (s : fsst St) l ch :
  Licache ∉ held (io_core (fb s)) → Lptable ∉ held (io_core (fb s)) →
  let c := io_core (fb s) in
  let s1 := set_fb (io_set_core (set_held (Licache :: held c) c) (fb s)) s in
  ∃ s2, fc (wakeup ch) (set_icache l s1) = Ret tt s2 ∧
    fc (prelease Licache) s2 =
      Ret tt (set_icache l (set_fb (io_set_core (set_ptable (wake (Some ch) <$> ptable c) c) (fb s)) s)).
Proof.
  intros Hl Hp c s1. eexists. split.
  { apply fc_Ret. apply wakeup_run. cbn [fb set_icache set_fb s1]. rewrite io_get_set. cbn.
    rewrite not_elem_of_cons. by split. }
  cbn [fb set_icache set_fb s1]. rewrite io_get_set, io_set_set.
  erewrite fc_Ret; cycle 1.
  { cbn [fb set_fb]. rewrite io_get_set. apply prelease_ok. reflexivity. }
  cbn [fb set_icache set_fb s1]. rewrite io_set_set. f_equal. unfold set_fb, set_icache; cbn. do 2 f_equal.
  by destruct c as [[] ].
Qed.

Lemma calm_core t st nb V L c : calm t st nb V L → woke (io_core t) c → calm (io_set_core c t) st nb V L ∧ io_same t (io_set_core c t).
Proof.
  intros [H1 H2 H3] Hw. assert (io_same t (io_set_core c t)) as Hs by (unfold io_same; by rewrite io_get_set).
  split; [|done]. split; [by apply io_ok_core|by eapply unlocked_same|done].
Qed.

(** The states that differ only in woken processes. *)
Lemma ic_core s V b R bz t : ic_ok s V b R bz → ic_ok (set_fb t s) V b R bz.
Proof. by intros [O1 O2 O3 O4 O5 O6]. Qed.

Lemma iunlock_run s st nb V L b R i :
  ic_ok s V b R (Some i) → calm (fb s) st nb V L → Licache ∉ held (io_core (fb s)) →
  (i < NINODE)%nat → 0 < iref (geti i s) →
  ∃ s', iunlock i s = Ret tt s' ∧ ic_ok s' V b R None ∧ calm (fb s') st nb V L ∧ io_same (fb s) (fb s') ∧
    inum (geti i s') = inum (geti i s) ∧ iref (geti i s') = iref (geti i s) ∧
    has I_VALID (iflags (geti i s')) = has I_VALID (iflags (geti i s)) ∧ same_inode (geti i s') (geti i s) ∧
    (∀ j, j ≠ i → geti j s' = geti j s).
Proof.
  intros Hok Hc Hlk Hi Hr. pose proof (ic_entry _ _ _ _ _ Hok i Hi Hr) as (Hd & HR & Hb & Hv).
  rewrite bool_decide_eq_true_2 in Hb by done. destruct (iflag_bits (iflags (geti i s))) as (_ & _ & _ & _ & B5 & B6).
  set (f := λ ip, set_iflags (Z.land (iflags ip) (Z.lnot I_BUSY)) ip).
  assert (geti i (upd i f s) = f (geti i s)) as Gi by (rewrite (geti_upd i f s V b R (Some i)) by done; by rewrite decide_True).
  assert (ic_ok (upd i f s) V b R None) as Hok1.
  { rewrite <- (insert_id R (inum (geti i s)) (iref (f (geti i s)))) by done.
    apply (ic_update s V b R (Some i) None i f (inum (geti i s))); try done; cbn.
    - intros Hx. apply Hv. rewrite <- B6. exact Hx.
    - by left.
    - intros j Hj _. split; [done|]. intros [= ->]. done. }
  pose proof (cm_locks _ _ _ _ _ Hc) as (_ & Hlp & _).
  unfold iunlock. unfold bind at 1, gets at 1. cbn [obind]. rewrite Hb, (proj2 (Z.ltb_ge _ _)) by lia. cbn [negb orb].
  unfold bind at 1, ret at 1. cbn [obind].
  destruct (fc_locked s (alter f i (icache s)) Hlk) as (E1 & _).
  destruct (fc_locked_wake s (alter f i (icache s)) (ChInode i) Hlk Hlp) as (s2 & E2 & E3).
  rewrite (bind_Ret _ _ _ _ _ E1). clear E1.
  unfold bind at 1, iset at 1, modify at 1. cbn [obind]. cbn [icache set_fb]. fold f.
  rewrite (bind_Ret _ _ _ _ _ E2), E3. clear E2 E3. set (t := io_set_core _ (fb s)).
  destruct (calm_core (fb s) st nb V L _ Hc (woke_wake (Some (ChInode i)) _)) as (Hc' & Hs').
  exists (set_fb t (upd i f s)). rewrite geti_set_fb, Gi. split_and!; try done.
  - by apply ic_core.
  - intros j Hj. rewrite geti_set_fb, (geti_upd i f s V b R (Some i)) by done. by rewrite decide_False.
Qed.

Definition drop_ref (R : gmap Z Z) (n : Z) : gmap Z Z :=
  match R !! n with
  | Some r => if r =? 1 then delete n R else <[n := r - 1]> R
  | None => R
  end.

(** Dropping a reference to an inode that stays on the disk. *)
Lemma iput_run s V b R i :
  ic_ok s V b R None → Licache ∉ held (io_core (fb s)) → (i < NINODE)%nat → 0 < iref (geti i s) →
  (has I_VALID (iflags (geti i s)) = true → nlink (geti i s) ≠ 0) →
  let f := λ ip, set_iref (iref ip - 1) ip in
  iput i s = Ret tt (upd i f s) ∧ ic_ok (upd i f s) V b (drop_ref R (inum (geti i s))) None.
Proof.
  intros Hok Hlk Hi Hr Hnl f. pose proof (ic_entry _ _ _ _ _ Hok i Hi Hr) as (Hd & HR & Hb & Hv). set (n := inum (geti i s)) in *. split.
  - unfold iput. destruct (fc_locked s (alter f i (icache s)) Hlk) as (E1 & E2).
    rewrite (bind_Ret _ _ _ _ _ E1). unfold bind at 1, gets at 1. cbn [obind]. rewrite geti_set_fb.
    assert ((iref (geti i s) =? 1) && has I_VALID (iflags (geti i s)) && (nlink (geti i s) =? 0) = false) as ->.
    { destruct (has I_VALID (iflags (geti i s))); [|by rewrite andb_false_r]. rewrite (proj2 (Z.eqb_neq (nlink _) 0)) by auto.
      apply andb_false_r. }
    unfold bind at 1, ret at 1. cbn [obind]. unfold bind at 1, iset at 1, modify at 1. cbn [obind].
    cbn [icache set_fb]. fold f. by rewrite E2.
  - assert (∀ j, geti j (upd i f s) = if decide (j = i) then f (geti i s) else geti j s) as G by (intros; by eapply geti_upd).
    unfold drop_ref. rewrite HR. destruct (iref (geti i s) =? 1) eqn:E; bools; cycle 1.
    + change (iref (geti i s) - 1) with (iref (f (geti i s))).
      apply (ic_update s V b R None None i f n); try done; cbn; [lia|by left].
    + pose proof Hok as [O1 O2 O3 O4 O5 O6]. split.
      * unfold upd. cbn. by rewrite length_alter.
      * done.
      * intros j Hj. rewrite G. destruct (decide (j = i)); [cbn; lia|by apply O3].
      * intros j Hj. rewrite G. destruct (decide (j = i)) as [->|Hji]; [cbn; lia|]. intros Hrj.
        destruct (O4 j Hj Hrj) as (? & HRj & ? & ?). split_and!; try done. rewrite lookup_delete_ne; [done|].
        intros Hx. apply Hji. symmetry. by apply O5.
      * intros j k Hj Hk. rewrite !G. destruct (decide (j = i)), (decide (k = i)); subst; cbn; try lia. by apply O5.
      * intros m r [Hm HRm]%lookup_delete_Some. destruct (O6 m r HRm) as (j & Hj & Hrj & Hin). exists j.
        rewrite G. destruct (decide (j = i)) as [->|]; [exfalso; apply Hm; by subst n|done].
Qed.

(** ** Directories *)

Lemma strncmp_zero n a c :
  (length a ≤ n)%nat → (length c ≤ n)%nat → strncmp_bytes n a c = 0 ↔ cname a = cname c.
Proof.
  revert a c. induction n as [|n IH]; intros a c Ha Hc; [by destruct a, c; cbn in *; try lia|]. cbn [strncmp_bytes].
  destruct a as [|x a], c as [|y c]; cbn [head default id tail cname length] in *; [done|..].
  - change (negb (0 =? 0)) with false. cbn [andb]. destruct (y =? 0) eqn:E; bools; split; intros; first [done|lia|exfalso; lia].
  - destruct (x =? 0) eqn:E; cbn [negb andb]; [|destruct (x =? 0) eqn:E']; bools; split; intros; first [done|lia|exfalso; lia].
  - destruct (x =? 0) eqn:E; bools; cbn [negb andb].
    + subst x. destruct (y =? 0) eqn:E'; bools; split; intros; first [done|lia|exfalso; lia].
    + destruct (x =? y) eqn:Exy; bools.
      * subst y. rewrite (proj2 (Z.eqb_neq x 0)) by done. rewrite IH by lia. split; [by intros ->|by intros [= ->]].
      * destruct (y =? 0); split; intros; first [done|exfalso; lia|congruence].
Qed.

(** The entries of a directory from offset [off] on, and the first one with
    the name: its inode number and its offset. *)
Definition dir_entries (V : Z → list Z) (ip : inode) (off : Z) : list (list Z) :=
  (λ k, file_slice V ip (off + DIRENT_SIZE * Z.of_nat k) (Z.to_nat DIRENT_SIZE)) <$>
    seq 0 (Z.to_nat ((isize ip - off) / DIRENT_SIZE)).

Fixpoint first_entry (name : list Z) (es : list (list Z)) (off : Z) : option (Z * Z) :=
  match es with
  | [] => None
  | de :: es =>
      if (de_inum de =? 0) || negb (bool_decide (name = cname (de_name de)))
      then first_entry name es (off + DIRENT_SIZE)
      else Some (de_inum de, off)
  end.

Definition dir_find (V : Z → list Z) (ip : inode) (name : list Z) : option (Z * Z) :=
  first_entry name (dir_entries V ip 0) 0.

Lemma file_slice_addrs V ip jp off n : addrs ip = addrs jp → file_slice V ip off n = file_slice V jp off n.
Proof. intros E. unfold file_slice, file_byte, file_block, addr_of. by rewrite E. Qed.

Lemma dir_entries_cons V ip off :
  0 ≤ off → off < isize ip → (isize ip - off) mod DIRENT_SIZE = 0 →
  dir_entries V ip off = file_slice V ip off (Z.to_nat DIRENT_SIZE) :: dir_entries V ip (off + DIRENT_SIZE).
Proof.
  unfold dir_entries, DIRENT_SIZE. intros H0 Hlt Hm. apply Z_div_exact_full_2 in Hm; [|done].
  assert ((isize ip - (off + 16)) / 16 = (isize ip - off) / 16 - 1) as ->.
  { replace (isize ip - (off + 16)) with (isize ip - off + (-1) * 16) by lia. rewrite Z.div_add by done. lia. }
  set (q := (isize ip - off) / 16) in *.
  replace (Z.to_nat q) with (S (Z.to_nat (q - 1))) by lia. cbn [seq fmap list_fmap]. f_equal; [by rewrite Z.add_0_r|].
  rewrite <- fmap_S_seq, <- list_fmap_compose. apply list_fmap_ext. intros ? k _. cbn [compose]. f_equal. lia.
Qed.

Definition add_ref (R : gmap Z Z) (n : Z) : gmap Z Z := <[n := default 0 (R !! n) + 1]> R.

(** What dirlookup needs of the locked directory. *)
Record dir_locked (s : fsst St) (nb : nat) (V : Z → list Z) (b : superblock) (R : gmap Z Z) (dp : nat) : Prop := {
  dl_ok : ic_ok s V b R (Some dp);
  dl_lock : Licache ∉ held (io_core (fb s));
  dl_index : (dp < NINODE)%nat;
  dl_ref : 0 < iref (geti dp s);
  dl_type : itype (geti dp s) = T_DIR;
  dl_mapped : file_mapped V nb (geti dp s) (isize (geti dp s));
  dl_size : isize (geti dp s) mod DIRENT_SIZE = 0;
  dl_room : (size R < NINODE)%nat
}.

(** The run [o] from [s] found the entry [r]: nothing but the reference to the
    inode found is new. *)
Definition found (s : fsst St) st nb V L b R dp (r : option (Z * Z)) (o : outcome (fsst St) (option (nat * Z))) : Prop :=
  match r with
  | None => ∃ t, o = Ret None (set_fb t s) ∧ calm t st nb V L ∧ io_same (fb s) t
  | Some (n, off) => ∃ ip s', o = Ret (Some (ip, off)) s' ∧ calm (fb s') st nb V L ∧ io_same (fb s) (fb s') ∧
      (ip < NINODE)%nat ∧ ic_ok s' V b (add_ref R n) (Some dp) ∧ 0 < iref (geti ip s') ∧ inum (geti ip s') = n ∧
      kept s s'
  end.

Lemma found_fb s t st nb V L b R dp r o :
  io_same (fb s) t → found (set_fb t s) st nb V L b R dp r o → found s st nb V L b R dp r o.
Proof.
  intros Hs. destruct r as [[n off]|].
  - intros (ip & s' & E & H1 & H2 & H3). exists ip, s'.
    split; [done|]. split; [done|]. split; [by eapply io_same_trans|exact H3].
  - intros (t' & E & H1 & H2). exists t'. split_and!; try done. by eapply io_same_trans.
Qed.

Lemma dirlookup_loop_run fuel s st nb V L b R dp name off :
  dir_locked s nb V b R dp → calm (fb s) st nb V L → blocks_full V nb → (length name ≤ DIRSIZ)%nat →
  0 ≤ off ≤ isize (geti dp s) → off mod DIRENT_SIZE = 0 → isize (geti dp s) - off < Z.of_nat fuel * DIRENT_SIZE →
  found s st nb V L b R dp (first_entry (cname name) (dir_entries V (geti dp s) off) off)
    (dirlookup_loop dev_read fuel dp name off s).
Proof.
  clear dev_write. revert s off. induction fuel as [|fuel IH]; intros s off Hdl Hc Hfull Hname Hoff Hm Hf.
  { exfalso. lia. }
  pose proof Hdl as [D1 D2 D3 D4 D5 D6 D7 D8].
  assert ((isize (geti dp s) - off) mod DIRENT_SIZE = 0) as Hm'.
  { rewrite Zminus_mod, D7, Hm. done. }
  cbn [dirlookup_loop]. unfold bind at 1, ifield at 1, gets at 1. cbn [obind].
  destruct (off <? isize (geti dp s)) eqn:E; bools; cycle 1.
  { assert (off = isize (geti dp s)) as -> by lia. unfold dir_entries. rewrite Z.sub_diag.
    exists (fb s). rewrite set_fb_same. split_and!; [done|done|apply io_same_refl]. }
  rewrite dir_entries_cons by lia. cbn [first_entry].
  set (de := file_slice V (geti dp s) off (Z.to_nat DIRENT_SIZE)).
  assert (off + DIRENT_SIZE ≤ isize (geti dp s)) as Hle.
  { apply Z_div_exact_full_2 in Hm'; [|done]. unfold DIRENT_SIZE in *. lia. }
  pose proof (fm_max _ _ _ _ D6) as Hmax. unfold MAXFILE, NDIRECT, NINDIRECT, BSIZE in Hmax.
  destruct (readi_run s st nb V L dp off DIRENT_SIZE) as (t & E1 & Hc1 & Hs1); try done; try lia.
  { by rewrite D5. }
  { unfold W32, DIRENT_SIZE. lia. }
  rewrite Z.min_l in E1 by lia. fold de in E1. rewrite (bind_Ret _ _ _ _ _ E1). clear E1.
  rewrite Z.eqb_refl. unfold bind at 1, ret at 1. cbn [obind negb]. apply (found_fb s t); [done|].
  assert (dir_locked (set_fb t s) nb V b R dp) as Hdl'.
  { split; try done; [by apply ic_core|]. cbn [fb set_fb]. by rewrite (woke_held _ _ Hs1). }
  assert (found (set_fb t s) st nb V L b R dp
    (first_entry (cname name) (dir_entries V (geti dp s) (off + DIRENT_SIZE)) (off + DIRENT_SIZE))
    (dirlookup_loop dev_read fuel dp name (off + DIRENT_SIZE) (set_fb t s))) as Hnext.
  { apply (IH (set_fb t s)); try done; rewrite ?geti_set_fb; [unfold DIRENT_SIZE in *; lia| |lia].
    rewrite Zplus_mod, Hm. done. }
  destruct (de_inum de =? 0) eqn:Ez; cbn [orb]; [done|].
  assert (namecmp name (de_name de) = 0 ↔ cname name = cname (de_name de)) as Hcmp.
  { apply strncmp_zero; [done|]. unfold de_name. rewrite length_drop. unfold de. by rewrite length_file_slice. }
  destruct (namecmp name (de_name de) =? 0) eqn:En; bools; cycle 1.
  { rewrite bool_decide_eq_false_2 by tauto. done. }
  rewrite bool_decide_eq_true_2 by tauto. cbn [negb]. clear Hnext.
  unfold bind at 1, ifield at 1, gets at 1. cbn [obind]. rewrite geti_set_fb, (fm_dev _ _ _ _ D6).
  destruct Hdl' as [D1' D2' _ _ _ _ _ _].
  destruct (iget_run (set_fb t s) V b R (Some dp) (de_inum de)) as (i & f & E2 & Hi & Hok2 & Hr & Hn & Hk); try done; [by right| |].
  { intros i [= <-]. done. }
  rewrite (bind_Ret _ _ _ _ _ E2). exists i, (upd i f (set_fb t s)). split_and!; try done. apply io_same_refl.
Qed.

Lemma dirlookup_run s st nb V L b R dp name :
  dir_locked s nb V b R dp → calm (fb s) st nb V L → blocks_full V nb → (length name ≤ DIRSIZ)%nat →
  found s st nb V L b R dp (dir_find V (geti dp s) (cname name)) (dirlookup dev_read dp name s).
Proof.
  intros Hdl Hc Hfull Hname. pose proof (fm_max _ _ _ _ (dl_mapped _ _ _ _ _ _ Hdl)) as Hmax.
  unfold dirlookup. unfold bind at 1, ifield at 1, gets at 1. cbn [obind].
  rewrite (dl_type _ _ _ _ _ _ Hdl), Z.eqb_refl. cbn [negb]. unfold bind at 1, ret at 1. cbn [obind].
  unfold bind at 1, ifield at 1, gets at 1. cbn [obind]. apply dirlookup_loop_run; try done; [lia|].
  pose proof (Z.div_mod (isize (geti dp s)) DIRENT_SIZE ltac:(done)) as Hdm.
  rewrite (dl_size _ _ _ _ _ _ Hdl) in Hdm. unfold DIRENT_SIZE in *. lia.
Qed.

(** ** Path resolution *)

(** The inode a path leads to from inode [n], or the directory of its last
    element when [parent] is set. *)
Fixpoint resolve (V : Z → list Z) (b : superblock) (parent : bool) (n : Z) (es : list (list Z)) : option Z :=
  match es with
  | [] => if parent then None else Some n
  | e :: es' =>
      let ip := disk_inode V b n in
      if itype ip =? T_DIR then
        if parent && bool_decide (es' = []) then Some n
        else match dir_find V ip (take DIRSIZ e) with
             | Some (m, _) => resolve V b parent m es'
             | None => None
             end
      else None
  end.

(** A file system whose directories only name inodes of [I], all in use. *)
Record fs_tree (V : Z → list Z) (b : superblock) (nb : nat) (I : gset Z) : Prop := {
  ft_full : blocks_full V nb;
  ft_type n : n ∈ I → itype (disk_inode V b n) ≠ 0;
  ft_link n : n ∈ I → nlink (disk_inode V b n) ≠ 0;
  ft_block n : n ∈ I → 0 ≤ IBLOCK n b < Z.of_nat nb;
  ft_dir n : n ∈ I → itype (disk_inode V b n) = T_DIR →
    file_mapped V nb (disk_inode V b n) (isize (disk_inode V b n)) ∧ isize (disk_inode V b n) mod DIRENT_SIZE = 0 ∧
    ∀ de, de ∈ dir_entries V (disk_inode V b n) 0 → de_inum de ≠ 0 → de_inum de ∈ I
}.

Lemma first_entry_in name es off n o : first_entry name es off = Some (n, o) → ∃ de, de ∈ es ∧ de_inum de = n ∧ n ≠ 0.
Proof.
  revert off. induction es as [|de es IH]; intros off; cbn [first_entry]; [done|].
  destruct (de_inum de =? 0) eqn:E; bools; cbn [orb].
  { intros H. destruct (IH _ H) as (de' & Hin & Hd). exists de'. split; [by right|done]. }
  destruct (negb _).
  - intros H. destruct (IH _ H) as (de' & Hin & Hd). exists de'. split; [by right|done].
  - intros [= <- <-]. exists de. split; [by left|done].
Qed.

Lemma file_mapped_same V nb ip jp n :
  idev ip = DEV → addrs ip = addrs jp → file_mapped V nb jp n → file_mapped V nb ip n.
Proof. intros Hd Ha [M1 M2 M3 M4]. unfold file_block, addr_of in *. split; unfold file_block, addr_of; rewrite ?Ha; done. Qed.

Definition refs_pos (R : gmap Z Z) : Prop := ∀ n r, R !! n = Some r → 0 < r.

Lemma drop_add R n : refs_pos R → drop_ref (add_ref R n) n = R.
Proof.
  intros HR. unfold drop_ref, add_ref. rewrite lookup_insert_eq. destruct (R !! n) as [r|] eqn:E; cbn [default].
  - specialize (HR n r E). unfold id. rewrite (proj2 (Z.eqb_neq _ _)) by lia.
    rewrite insert_insert_eq. apply insert_id. rewrite E. f_equal. lia.
  - cbn. by apply delete_insert_id.
Qed.

Lemma add_ref_pos R n : refs_pos R → refs_pos (add_ref R n).
Proof.
  intros HR m r. unfold add_ref. destruct (decide (m = n)) as [->|Hne].
  - rewrite lookup_insert_eq. intros [= <-]. destruct (R !! n) as [r|] eqn:E; cbn; [specialize (HR n r E)|]; lia.
  - rewrite lookup_insert_ne by done. apply HR.
Qed.

Lemma drop_add_add R n m : refs_pos R → drop_ref (add_ref (add_ref R n) m) n = add_ref R m.
Proof.
  intros HR. destruct (decide (m = n)) as [->|Hne]; [by apply drop_add, add_ref_pos|].
  rewrite <- (drop_add (add_ref R m) n) by (by apply add_ref_pos). f_equal.
  unfold add_ref. rewrite insert_insert_ne by done. by rewrite !lookup_insert_ne by done.
Qed.

Lemma size_add_ref R n : (size (add_ref R n) ≤ S (size R))%nat.
Proof. unfold add_ref. destruct (R !! n) eqn:E; [rewrite map_size_insert_Some by done|rewrite map_size_insert_None by done]; lia. Qed.

Lemma iunlockput_run s st nb V L b R i :
  ic_ok s V b R (Some i) → calm (fb s) st nb V L → Licache ∉ held (io_core (fb s)) →
  (i < NINODE)%nat → 0 < iref (geti i s) → nlink (geti i s) ≠ 0 →
  ∃ s', iunlockput i s = Ret tt s' ∧ ic_ok s' V b (drop_ref R (inum (geti i s))) None ∧
    calm (fb s') st nb V L ∧ io_same (fb s) (fb s') ∧ inum (geti i s') = inum (geti i s) ∧
    iref (geti i s') = iref (geti i s) - 1 ∧ (∀ j, j ≠ i → geti j s' = geti j s).
Proof.
  intros Hok Hc Hlk Hi Hr Hnl.
  destruct (iunlock_run s st nb V L b R i) as (s1 & E1 & Hok1 & Hc1 & Hs1 & Hn1 & Hr1 & Hv1 & Hsm & Hj1); try done.
  unfold iunlockput. rewrite (bind_Ret _ _ _ _ _ E1). clear E1.
  destruct (iput_run s1 V b R i) as (E2 & Hok2); try done.
  { by rewrite (woke_held _ _ Hs1). }
  { by rewrite Hr1. }
  { intros _. destruct Hsm as (_ & _ & _ & -> & _). done. }
  rewrite E2. clear E2. rewrite Hn1 in Hok2. eexists. split; [done|]. cbn [fb upd set_icache].
  assert (∀ j, geti j (upd i (λ ip, set_iref (iref ip - 1) ip) s1) =
    if decide (j = i) then set_iref (iref (geti i s1) - 1) (geti i s1) else geti j s1) as G
    by (intros; by apply (geti_upd i (λ ip, set_iref (iref ip - 1) ip) s1 V b R None)).
  split_and!; try done; try (rewrite G, decide_True by done; cbn; congruence).
  intros j Hj. rewrite G, decide_False by done. by apply Hj1.
Qed.

Lemma locked_dir s s' nb V b R I i n t :
  fs_tree V b nb I → n ∈ I → ic_ok s' V b R (Some i) → Licache ∉ held (io_core (fb s)) → io_same (fb s) (fb s') →
  (i < NINODE)%nat → 0 < iref (geti i s') → same_inode (geti i s') (disk_inode V b n) → t = itype (geti i s') →
  t = T_DIR → (size R < NINODE)%nat → dir_locked s' nb V b R i.
Proof.
  intros Hft HI Hok Hlk Hs Hi Hr Hsm -> Ht Hsz. destruct Hsm as (Hty & _ & _ & _ & Hsize & Haddr).
  rewrite Hty in Ht. destruct (ft_dir _ _ _ _ Hft n HI Ht) as (Hm & Hmod & _).
  split; try done.
  - by rewrite (woke_held _ _ Hs).
  - by rewrite Hty.
  - rewrite Hsize. eapply file_mapped_same; [|done|done]. by apply (ic_entry _ _ _ _ _ Hok).
  - by rewrite Hsize.
Qed.

Lemma dir_find_same V ip jp name : isize ip = isize jp → addrs ip = addrs jp → dir_find V ip name = dir_find V jp name.
Proof.
  intros Hs Ha. unfold dir_find. f_equal. unfold dir_entries. rewrite Hs. apply list_fmap_ext. intros ? k _.
  by apply file_slice_addrs.
Qed.

(** The run of the loop of namex from [s]. *)
Definition resolved (s : fsst St) st nb V L b R (parent : bool) (es : list (list Z)) (r : option Z)
  (o : outcome (fsst St) (option (nat * list Z))) : Prop :=
  ∃ s', calm (fb s') st nb V L ∧ io_same (fb s) (fb s') ∧
    match r with
    | None => o = Ret None s' ∧ ic_ok s' V b R None
    | Some m => ∃ j nm, o = Ret (Some (j, nm)) s' ∧ ic_ok s' V b (add_ref R m) None ∧
        (j < NINODE)%nat ∧ 0 < iref (geti j s') ∧ inum (geti j s') = m ∧
        (parent = true → Some (cname nm) = take DIRSIZ <$> last es)
    end.

Lemma resolved_trans s s1 st nb V L b R parent e es r o :
  io_same (fb s) (fb s1) → (es = [] → parent = true → r = None) →
  resolved s1 st nb V L b R parent es r o → resolved s st nb V L b R parent (e :: es) r o.
Proof.
  intros Hs He (s' & Hc & Hs' & H). exists s'. split_and!; [done|by eapply io_same_trans|].
  destruct r as [m|]; [|done]. destruct H as (j & nm & H1 & H2 & H3 & H4 & H5 & H6). exists j, nm. split_and!; try done.
  intros Hp. rewrite (H6 Hp). destruct es as [|e' es]; [|done]. by specialize (He eq_refl Hp).
Qed.

(** The references to the directory and to the entry found in it, which may be
    the same inode, before the directory is put back. *)
Lemma put_dir s2 st nb V L b R i ip n m :
  refs_pos R → ic_ok s2 V b (add_ref (add_ref R n) m) (Some i) → calm (fb s2) st nb V L →
  Licache ∉ held (io_core (fb s2)) → (i < NINODE)%nat → 0 < iref (geti i s2) → inum (geti i s2) = n →
  nlink (geti i s2) ≠ 0 → (ip < NINODE)%nat → 0 < iref (geti ip s2) → inum (geti ip s2) = m →
  ∃ s3, iunlockput i s2 = Ret tt s3 ∧ ic_ok s3 V b (add_ref R m) None ∧ calm (fb s3) st nb V L ∧
    io_same (fb s2) (fb s3) ∧ 0 < iref (geti ip s3) ∧ inum (geti ip s3) = m.
Proof.
  intros HR Hok Hc Hlk Hi Hr Hn Hnl Hip Hrp Hm.
  destruct (iunlockput_run s2 st nb V L b _ i Hok Hc Hlk Hi Hr Hnl) as (s3 & E & Hok3 & Hc3 & Hs3 & Hn3 & Hr3 & Hj).
  rewrite Hn, drop_add_add in Hok3 by done. exists s3. split_and!; try done.
  - destruct (decide (ip = i)) as [->|Hne]; [|by rewrite Hj].
    destruct (ic_entry _ _ _ _ _ Hok i Hi Hr) as (_ & HRi & _). rewrite Hm in HRi.
    unfold add_ref at 1 in HRi. rewrite lookup_insert_eq in HRi. injection HRi as HRi. rewrite Hr3, <- HRi.
    assert (m = n) as -> by congruence. unfold add_ref. rewrite lookup_insert_eq. cbn.
    destruct (R !! n) as [r|] eqn:E'; cbn; [specialize (HR _ _ E')|]; lia.
  - destruct (decide (ip = i)) as [->|Hne]; [congruence|by rewrite Hj].
Qed.

(** Putting the locked inode back and returning 0. *)
Lemma put_none s s1 st nb V L b R I parent es i n :
  fs_tree V b nb I → n ∈ I → refs_pos R → ic_ok s1 V b (add_ref R n) (Some i) → calm (fb s1) st nb V L →
  Licache ∉ held (io_core (fb s)) → io_same (fb s) (fb s1) → (i < NINODE)%nat → 0 < iref (geti i s1) →
  inum (geti i s1) = n → same_inode (geti i s1) (disk_inode V b n) →
  resolved s st nb V L b R parent es None ((iunlockput i;; ret None) s1).
Proof.
  intros Hft HI HR Hok Hc Hlk Hs Hi Hr Hn (_ & _ & _ & Hnl & _).
  destruct (iunlockput_run s1 st nb V L b (add_ref R n) i) as (s2 & E & Hok2 & Hc2 & Hs2 & _); try done.
  { by rewrite (woke_held _ _ Hs). }
  { rewrite Hnl. by apply (ft_link _ _ _ _ Hft). }
  rewrite (bind_Ret _ _ _ _ _ E). clear E. rewrite Hn, drop_add in Hok2 by done.
  exists s2. split_and!; [done|by eapply io_same_trans|done|done].
Qed.

(** The path is used up. *)
Lemma namex_end s st nb V L b R I parent i n name :
  fs_tree V b nb I → n ∈ I → refs_pos R → ic_ok s V b (add_ref R n) None → calm (fb s) st nb V L →
  Licache ∉ held (io_core (fb s)) → (i < NINODE)%nat → 0 < iref (geti i s) → inum (geti i s) = n →
  resolved s st nb V L b R parent [] (if parent then None else Some n)
    ((if parent then iput i;; ret None else ret (Some (i, name))) s).
Proof.
  intros Hft HI HR Hok Hc Hlk Hi Hr Hn. destruct parent; cycle 1.
  { exists s. split_and!; [done|apply io_same_refl|]. exists i, name. split_and!; done. }
  destruct (iput_run s V b (add_ref R n) i) as (E & Hok'); try done.
  { intros Hv. destruct (ic_entry _ _ _ _ _ Hok i Hi Hr) as (_ & _ & _ & Hsm). specialize (Hsm Hv).
    destruct Hsm as (_ & _ & _ & -> & _). rewrite Hn. by apply (ft_link _ _ _ _ Hft). }
  rewrite Hn, drop_add in Hok' by done. rewrite (bind_Ret _ _ _ _ _ E). clear E.
  exists (upd i (λ ip, set_iref (iref ip - 1) ip) s). split_and!; [exact Hc|apply io_same_refl|done|done].
Qed.

Lemma namex_loop_run fuel s st nb V L b R I parent i n path name :
  fs_tree V b nb I → n ∈ I → refs_pos R → (size R + 2 ≤ NINODE)%nat →
  ic_ok s V b (add_ref R n) None → calm (fb s) st nb V L → Licache ∉ held (io_core (fb s)) →
  (i < NINODE)%nat → 0 < iref (geti i s) → inum (geti i s) = n →
  0 ∉ path → length name = DIRSIZ → (length path < fuel)%nat →
  resolved s st nb V L b R parent (elements path) (resolve V b parent n (elements path))
    (namex_loop (S waits) dev_read fuel i path parent name s).
Proof.
  clear dev_write. intros Hft HI HR Hsz. revert s i n path name HI. induction fuel as [|fuel IH]; intros s i n path name HI Hok Hc Hlk Hi Hr Hn H0 Hname Hf; [lia|].
  cbn [namex_loop]. pose proof (skipelem_spec path name H0 Hname) as Hs. destruct (skipelem path name) as [[path' name']|]; cycle 1.
  { rewrite Hs. cbn [resolve]. by eapply namex_end. }
  destruct Hs as (e & He & Hcn & Hl' & H0' & Hlen & Hend). rewrite He. cbn [resolve].
  destruct (ilock_run s st nb V L b (add_ref R n) i n) as (s1 & E1 & Hok1 & Hc1 & Hs1 & Hn1 & Hr1 & Hv1 & Hsm & Hj1); try done.
  { by apply (ft_type _ _ _ _ Hft). }
  { by apply (ft_block _ _ _ _ Hft). }
  rewrite (bind_Ret _ _ _ _ _ E1). clear E1.
  unfold bind at 1, ifield at 1, gets at 1. cbn [obind].
  assert (Licache ∉ held (io_core (fb s1))) as Hlk1 by (by rewrite (woke_held _ _ Hs1)).
  assert (inum (geti i s1) = n ∧ 0 < iref (geti i s1)) as [Hin1 Hp1] by lia.
  destruct (itype (geti i s1) =? T_DIR) eqn:Et; bools; cbn [negb]; cycle 1.
  { pose proof Hsm as (Hty & _). rewrite Hty in Et. rewrite (proj2 (Z.eqb_neq _ _)) by done. by eapply put_none. }
  pose proof Hsm as (Hty & _ & _ & Hnl & Hsize & Haddr). rewrite Hty in Et. rewrite Et, Z.eqb_refl.
  assert (at_end path' = bool_decide (elements path' = [])) as Hae.
  { destruct (at_end path'); [rewrite bool_decide_eq_true_2 by tauto|rewrite bool_decide_eq_false_2 by naive_solver]; done. }
  rewrite Hae. destruct (parent && bool_decide (elements path' = [])) eqn:Ep.
  { apply andb_true_iff in Ep as [-> Ep]. apply bool_decide_eq_true_1 in Ep. rewrite Ep.
    destruct (iunlock_run s1 st nb V L b (add_ref R n) i) as (s2 & E2 & Hok2 & Hc2 & Hs2 & Hn2 & Hr2 & _); try done.
    rewrite (bind_Ret _ _ _ _ _ E2). clear E2. exists s2. split_and!; [done|by eapply io_same_trans|].
    exists i, name'. split_and!; try done; [lia|lia|]. intros _. cbn. by rewrite Hcn. }
  assert (dir_locked s1 nb V b (add_ref R n) i) as Hdl.
  { apply (locked_dir s s1 nb V b (add_ref R n) I i n (itype (geti i s1))); try done; [by rewrite Hty|].
    pose proof (size_add_ref R n). lia. }
  pose proof (dirlookup_run s1 st nb V L b (add_ref R n) i name' Hdl Hc1 (ft_full _ _ _ _ Hft) ltac:(lia)) as Hfd.
  rewrite Hcn, (dir_find_same V _ (disk_inode V b n)) in Hfd by done.
  destruct (dir_find V (disk_inode V b n) (take DIRSIZ e)) as [[m o]|] eqn:Ef; cycle 1.
  { destruct Hfd as (t & E2 & Hc2 & Hs2). rewrite (bind_Ret _ _ _ _ _ E2). clear E2.
    eapply (put_none s (set_fb t s1)); try done; [by apply ic_core|by eapply (io_same_trans _ (fb s1))]. }
  destruct Hfd as (ip & s2 & E2 & Hc2 & Hs2 & Hip & Hok2 & Hr2 & Hn2 & Hk). rewrite (bind_Ret _ _ _ _ _ E2). clear E2.
  destruct (Hk i Hi Hp1) as (Hri & Hni & _ & _ & Hsi).
  destruct (put_dir s2 st nb V L b R i ip n m) as (s3 & E3 & Hok3 & Hc3 & Hs3 & Hr3 & Hn3); try done.
  { by rewrite (woke_held _ _ Hs2). }
  { by rewrite Hni. }
  { destruct Hsi as (_ & _ & _ & -> & _). rewrite Hnl. by apply (ft_link _ _ _ _ Hft). }
  rewrite (bind_Ret _ _ _ _ _ E3). clear E3.
  assert (io_same (fb s) (fb s3)) as Hss by (do 2 (eapply io_same_trans; [done|]); done).
  apply (resolved_trans s s3); [done| |].
  { intros -> ->. done. }
  apply IH; try done; [|by rewrite (woke_held _ _ Hss)|lia].
  destruct (first_entry_in _ _ _ _ _ Ef) as (de & Hde & <- & Hnz). destruct (ft_dir _ _ _ _ Hft n HI Et) as (_ & _ & Hcl).
  by apply Hcl.
Qed.

Lemma idup_run s V b R bz i :
  ic_ok s V b R bz → Licache ∉ held (io_core (fb s)) → (i < NINODE)%nat → 0 < iref (geti i s) →
  let f := λ ip, set_iref (iref ip + 1) ip in
  idup i s = Ret i (upd i f s) ∧ ic_ok (upd i f s) V b (add_ref R (inum (geti i s))) bz ∧
  geti i (upd i f s) = f (geti i s).
Proof.
  intros Hok Hlk Hi Hr f. destruct (ic_entry _ _ _ _ _ Hok i Hi Hr) as (Hd & HR & Hb & Hv). split_and!.
  - unfold idup. destruct (fc_locked s (alter f i (icache s)) Hlk) as (E1 & E2). rewrite (bind_Ret _ _ _ _ _ E1).
    unfold bind at 1, iset, modify. cbn [obind]. cbn [icache set_fb]. fold f. by rewrite (bind_Ret _ _ _ _ _ E2).
  - unfold add_ref. rewrite HR. change (default 0 (Some (iref (geti i s))) + 1) with (iref (f (geti i s))).
    apply (ic_update s V b R bz bz i f (inum (geti i s))); try done; cbn; [lia|by left].
  - rewrite (geti_upd i f s V b R bz) by done. by rewrite decide_True.
Qed.

(** The inode a path starts from: the root or the current directory. *)
Definition starts_at (s : fsst St) (path : list Z) (n : Z) : Prop :=
  if default 0 (head path) =? SLASH then n = ROOTINO
  else ∃ me c, cur (io_core (fb s)) = Some me ∧ cwd (getp me (io_core (fb s))) = Some c ∧
    (c < NINODE)%nat ∧ 0 < iref (geti c s) ∧ inum (geti c s) = n.

(** C4: namex, and so namei and nameiparent, returns the inode the path leads
    to in the directory tree on the disk, from the root or the current
    directory on, with one more reference to it and every other reference as
    before; it returns 0, with no reference left behind, exactly when an
    element is missing or a file is used as a directory.  For nameiparent it
    is the directory of the last element, which is copied to [name]. *)
Theorem namex_resolves s st nb V L b R I path n parent name :
  fs_tree V b nb I → n ∈ I → starts_at s path n →
  ic_ok s V b R None → refs_pos R → (size R + 2 ≤ NINODE)%nat →
  calm (fb s) st nb V L → Licache ∉ held (io_core (fb s)) →
  0 ∉ path → length name = DIRSIZ →
  resolved s st nb V L b R parent (elements path) (resolve V b parent n (elements path))
    (namex (S waits) dev_read path parent name s).
Proof.
  intros Hft HI Hst Hok HR Hsz Hc Hlk H0 Hname. unfold namex, starts_at in *.
  destruct (default 0 (head path) =? SLASH).
  - subst n. destruct (iget_run s V b R None ROOTINO) as (i & f & E & Hi & Hok' & Hr & Hn & _); try done; [right; lia|].
    rewrite (bind_Ret _ _ _ _ _ E). clear E.
    apply (namex_loop_run (S (length path)) (upd i f s) st nb V L b R I parent i ROOTINO path name); try done. lia.
  - destruct Hst as (me & c & Hcur & Hcwd & Hci & Hcr & <-).
    assert (fc (myproc (λ me, pget me cwd)) s = Ret (Some c) s) as E.
    { erewrite fc_Ret; [|rewrite (myproc_ok _ _ me) by done; unfold pget, gets; rewrite Hcwd; done].
      by rewrite io_set_get, set_fb_same. }
    unfold bind at 1. rewrite (bind_Ret _ _ _ _ _ E). clear E.
    destruct (idup_run s V b R None c) as (E & Hok' & G); try done. rewrite E. clear E. cbn [obind].
    apply (namex_loop_run (S (length path)) (upd c (λ ip, set_iref (iref ip + 1) ip) s) st nb V L b R I parent c
      (inum (geti c s)) path name); try done; rewrite ?G; cbn; try done; lia.
Qed.

(** C31: readi on a file all of whose blocks are allocated returns the bytes of
    the file from the offset on, cut at the end of the file, and does not change
    the file system; it returns -1
    when the offset is past the end or the sum of offset and length does not
    fit 32 bits. *)
Theorem readi_reads s st nb V L i off n :
  calm (fb s) st nb V L → blocks_full V nb → file_mapped V nb (geti i s) (isize (geti i s)) →
  itype (geti i s) ≠ T_DEV → 0 ≤ off < W32 → 0 ≤ n < W32 →
  ((isize (geti i s) < off ∨ W32 ≤ off + n) → readi dev_read i off n s = Ret (-1, []) s) ∧
  (off ≤ isize (geti i s) → off + n < W32 →
    ∃ t, let m := Z.min n (isize (geti i s) - off) in
      readi dev_read i off n s = Ret (m, file_slice V (geti i s) off (Z.to_nat m)) (set_fb t s) ∧
      calm t st nb V L ∧ io_same (fb s) t).
Proof.
  intros Hc Hfull Hm Ht Hoff Hn. split; [|intros; apply readi_run; lia || done].
  intros Hcase. unfold readi. unfold bind at 1, gets at 1. cbn [obind]. rewrite (proj2 (Z.eqb_neq _ _)) by done.
  destruct (isize (geti i s) <? off) eqn:E; bools; cbn [orb]; [done|].
  assert (u32 (off + n) = off + n - W32) as -> by (symmetry; apply Z.mod_unique with 1; unfold W32 in *; lia).
  by rewrite (proj2 (Z.ltb_lt _ _)) by lia.
Qed.
End run.

(** ** A small disk *)

(** The entries . and .. and a of the root directory. *)
Definition ex_dir : list Z :=
  flat_map (λ '(n, name), le_split 2 n ++ strncpy_bytes DIRSIZ name)
    [(1, str "."); (1, str ".."); (2, str "a")] ++ replicate (BSIZE - 48) 0.

Definition ex_inodes : list Z :=
  write_dinode 128 (mk_inode DEV 2 0 0 T_FILE 0 0 1 5 (41 :: replicate 12 0))
    (write_dinode 64 (mk_inode DEV 1 0 0 T_DIR 0 0 1 48 (40 :: replicate 12 0)) (replicate BSIZE 0)).

Definition ex_fs_disk : list (list Z) :=
  <[40%nat := ex_dir]> (<[32%nat := ex_inodes]> (replicate 64 (replicate BSIZE 0))).

Definition ex_sb : superblock := mk_sb 64 20 8 30 2 32 33.

Lemma ex_full : blocks_full (blk ex_fs_disk) 64.
Proof.
  intros k Hk. unfold blk. assert (Forall (λ x, length x = BSIZE) ex_fs_disk) as HF.
  { unfold ex_fs_disk. by repeat apply Forall_insert; [apply Forall_replicate|..]. }
  destruct (lookup_lt_is_Some_2 ex_fs_disk (Z.to_nat k)) as [x Hx].
  { unfold ex_fs_disk. rewrite !length_insert, length_replicate. lia. }
  rewrite Hx. by apply (Forall_lookup_1 _ _ _ _ HF Hx).
Qed.

Lemma ex_tree : fs_tree (blk ex_fs_disk) ex_sb 64 {[1; 2]}.
Proof.
  assert (∀ n, n ∈ ({[1; 2]} : gset Z) → n = 1 ∨ n = 2) as Hin by set_solver.
  split.
  - exact ex_full.
  - intros n [-> | ->]%Hin; vm_compute; done.
  - intros n [-> | ->]%Hin; vm_compute; done.
  - intros n [-> | ->]%Hin; vm_compute; done.
  - intros n [-> | ->]%Hin; [|intros Ht; vm_compute in Ht; discriminate Ht]. intros _. split_and!.
    + split; [reflexivity|vm_compute; done| |].
      * intros k Hk. change (isize _) with 48. intros Hlt. assert (k = 0) as -> by (unfold BSIZE in Hlt; lia). vm_compute. done.
      * change (isize _) with 48. unfold NDIRECT, BSIZE. lia.
    + reflexivity.
    + intros de Hde _. assert (de_inum <$> dir_entries (blk ex_fs_disk) (disk_inode (blk ex_fs_disk) ex_sb 1) 0 = [1; 1; 2])
        as Hm by (vm_compute; reflexivity).
      apply (list_elem_of_fmap_2 de_inum) in Hde. rewrite Hm in Hde. clear Hm.
      revert Hde. generalize (de_inum de). clear. set_solver.
Qed.

(** The state after the start, in an operation of the file system. *)
Lemma ex_calm : ∃ t : lst, calm (HB := log_io 1) (HS := log_block_spec 0) t 2 64 (blk ex_fs_disk) ∅ ∧ held (bc (lb t)) = [] .
Proof.
  set (t0 := mk_bst (ex_core 0) (replicate (S NBUF) buf0) ex_fs_disk []).
  destruct (binit_ok t0 eq_refl) as (bl & _ & Hok).
  { intros j. unfold getb. cbn [bufs t0]. destruct (replicate (S NBUF) buf0 !! j) eqn:E; [|reflexivity].
    by apply lookup_replicate in E as [-> _]. }
  set (t := mk_lst (set_bufs bl t0) 2 30 1 0 1 0 (replicate 30 0)). exists t. split; [|reflexivity]. split.
  - change (log_io_ok t 2 64 (blk ex_fs_disk) ∅ ∅). unfold log_io_ok. split_and!; [cbn; lia|vm_compute; reflexivity|].
    exists []. split; [|reflexivity]. split.
    + split; reflexivity.
    + reflexivity.
    + split; vm_compute; try done.
    + split; [apply NoDup_nil_2|cbn; lia|]. intros b Hb. by apply elem_of_nil in Hb.
    + exact Hok.
    + vm_compute. reflexivity.
    + vm_compute. reflexivity.
  - split_and!; apply not_elem_of_nil.
  - rewrite size_empty. unfold NBUF. lia.
Qed.

Lemma namex_resolves_witness :
  ∃ s s' : fsst lst, ∃ j nm,
    namex (HB := log_io 1) 1 (λ _, None) (str "/../a") false (replicate DIRSIZ 0) s = Ret (Some (j, nm)) s' ∧
    inum (geti j s') = 2.
Proof.
  destruct ex_calm as (t & Hc & Hh). set (s := mk_fs t ex_sb (replicate NINODE inode0)).
  destruct (namex_resolves (HB := log_io 1) (HS := log_block_spec 0) 0 (λ _, None) s 2 64 (blk ex_fs_disk) ∅ ex_sb ∅ {[1; 2]}
    (str "/../a") 1 false (replicate DIRSIZ 0)) as (s' & _ & _ & Hr).
  - exact ex_tree.
  - set_solver.
  - reflexivity.
  - assert (∀ i, geti i s = inode0) as G.
    { intros i. unfold geti. cbn [icache s]. destruct (replicate NINODE inode0 !! i) eqn:E; [|reflexivity].
      by apply lookup_replicate in E as [-> _]. }
    split; try reflexivity.
    + intros i _. rewrite G. cbn. lia.
    + intros i _. rewrite G. cbn. lia.
    + intros i k _ _. rewrite G. cbn. lia.
    + intros n r Hn. by rewrite lookup_empty in Hn.
  - intros n r Hn. by rewrite lookup_empty in Hn.
  - rewrite map_size_empty. unfold NINODE. lia.
  - exact Hc.
  - cbn. rewrite Hh. apply not_elem_of_nil.
  - vm_compute. intros H. repeat (apply elem_of_cons in H as [H|H]; [discriminate H|]). by apply elem_of_nil in H.
  - reflexivity.
  - change (resolve _ _ _ _ _) with (Some 2) in Hr. destruct Hr as (j & nm & E & _ & _ & _ & Hn & _).
    exists s, s', j, nm. split; [exact E|exact Hn].
Defined.

Lemma readi_reads_witness :
  ∃ s t : fsst lst, readi (HB := log_io 1) (λ _, None) 0 16 20 s =
    Ret (20, le_split 2 1 ++ strncpy_bytes DIRSIZ (str "..") ++ le_split 2 2 ++ [97; 0]) t.
Proof.
  destruct ex_calm as (t & Hc & Hh).
  set (s := mk_fs t ex_sb [disk_inode (blk ex_fs_disk) ex_sb 1]).
  destruct (readi_reads (HB := log_io 1) (HS := log_block_spec 0) (λ _, None) s 2 64 (blk ex_fs_disk) ∅ 0 16 20)
    as (_ & Hr).
  - exact Hc.
  - exact ex_full.
  - apply (ft_dir _ _ _ _ ex_tree 1); [set_solver|reflexivity].
  - vm_compute. discriminate.
  - unfold W32. lia.
  - unfold W32. lia.
  - destruct Hr as (t' & E & _); [vm_compute; discriminate|reflexivity|].
    exists s, (set_fb t' s). rewrite E. change (isize _) with 48. vm_compute. reflexivity.
Defined.
