(* ===== verification/File.v ===== *)
(** * Open files (file.c) and the allocation of pipes (pipe.c)

    [filest] adds the table of open files to the state of the file system; a
    [struct file *] is an index into the table.  The operations dispatch on
    the type of the file to [Pipe] and [Fs]; a write to an inode is cut into
    transactions the log has room for.

    The theorem: fileclose counts down, and the last close, and only that,
    closes the pipe end or puts the inode.  [FileRefs] has the invariant of the
    counts. *)
From S2P Require Import Prelude Kernel CString Spinlock Kalloc Vm Proc ProcSpec Pipe Bytes Bio Log BlockIO Fs.

Local Open Scope Z_scope.
Local Open Scope kernel_scope.

Definition NFILE : nat := 100.

Inductive fdtype := FD_NONE | FD_PIPE | FD_INODE.

#[export] Instance fdtype_eq_dec : EqDecision fdtype.
Proof. solve_decision. Defined.

Record file := mk_file {
  ftype : fdtype;
  fref : Z;
  readable : Z;
  writable : Z;
  fpipe : Z;
  fip : nat;
  foff : Z
}.

Definition set_ftype (v : fdtype) (x : file) : file :=
  mk_file v (fref x) (readable x) (writable x) (fpipe x) (fip x) (foff x).
Definition set_fref (v : Z) (x : file) : file :=
  mk_file (ftype x) v (readable x) (writable x) (fpipe x) (fip x) (foff x).
Definition set_readable (v : Z) (x : file) : file :=
  mk_file (ftype x) (fref x) v (writable x) (fpipe x) (fip x) (foff x).
Definition set_writable (v : Z) (x : file) : file :=
  mk_file (ftype x) (fref x) (readable x) v (fpipe x) (fip x) (foff x).
Definition set_fpipe (v : Z) (x : file) : file :=
  mk_file (ftype x) (fref x) (readable x) (writable x) v (fip x) (foff x).
Definition set_fip (v : nat) (x : file) : file :=
  mk_file (ftype x) (fref x) (readable x) (writable x) (fpipe x) v (foff x).
Definition set_foff (v : Z) (x : file) : file :=
  mk_file (ftype x) (fref x) (readable x) (writable x) (fpipe x) (fip x) v.

Definition file0 : file := mk_file FD_NONE 0 0 0 0 0 0.

Record filest (S : Type) := mk_fst {
  fsys : fsst S;
  ftable : list file
}.
Arguments mk_fst {S} _ _.
Arguments fsys {S} _.
Arguments ftable {S} _.

Definition set_fsys {S} (v : fsst S) (x : filest S) : filest S := mk_fst v (ftable x).
Definition set_ftable {S} (v : list file) (x : filest S) : filest S := mk_fst (fsys x) v.

Section file.
  Context {St : Type} {HB : BlockIO St}.
  Variable kend : Z.
  Variable waits : nat.
  Variable dev_read : Z → option (nat → Z → M (fsst St) (Z * list Z)).
  Variable dev_write : Z → option (nat → list Z → Z → M (fsst St) Z).

Abbreviation FM := (M (filest St)).

Definition xf {A} (m : M (fsst St) A) : FM A := zoom fsys set_fsys m.
Definition xc {A} (m : M core A) : FM A := xf (fc m).

Definition getf (f : nat) (s : filest St) : file := default file0 (ftable s !! f).
Definition ffield {A} (f : nat) (g : file → A) : FM A := gets (λ s, g (getf f s)).
Definition fset (f : nat) (g : file → file) : FM unit := modify (λ s, set_ftable (alter g f (ftable s)) s).

Fixpoint find_file (g : file → bool) (l : list file) : option nat :=
  match l with
  | [] => None
  | f :: l => if g f then Some O else S <$> find_file g l
  end.

Definition filealloc : FM (option nat) :=
  xc (pacquire Lftable);;
  f <- gets (λ s, find_file (λ f, fref f =? 0) (ftable s));;
  match f with
  | Some f => fset f (set_fref 1);; xc (prelease Lftable);; ret (Some f)
  | None => xc (prelease Lftable);; ret None
  end.

Definition filedup (f : nat) : FM nat :=
  xc (pacquire Lftable);;
  r <- ffield f fref;;
  when (r <? 1) do panic "filedup";;
  fset f (λ x, set_fref (fref x + 1) x);;
  xc (prelease Lftable);;
  ret f.

Definition fileclose (f : nat) : FM unit :=
  xc (pacquire Lftable);;
  r <- ffield f fref;;
  when (r <? 1) do panic "fileclose";;
  fset f (λ x, set_fref (fref x - 1) x);;
  r <- ffield f fref;;
  if 0 <? r then xc (prelease Lftable)
  else
    ff <- gets (getf f);;
    fset f (λ x, set_ftype FD_NONE (set_fref 0 x));;
    xc (prelease Lftable);;
    match ftype ff with
    | FD_PIPE => xc (pipeclose kend (fpipe ff) (writable ff))
    | FD_INODE => xf (Fs.ff io_begin);; xf (iput (fip ff));; xf (Fs.ff io_end)
    | FD_NONE => ret tt
    end.

Definition filestat (f : nat) : FM (option fstat) :=
  x <- gets (getf f);;
  match ftype x with
  | FD_INODE =>
      xf (ilock waits (fip x));;
      st <- xf (stati (fip x));;
      xf (iunlock (fip x));;
      ret (Some st)
  | _ => ret None
  end.

(** The result and the bytes written to [addr]. *)
Definition fileread (f : nat) (n : Z) : FM (Z * list Z) :=
  x <- gets (getf f);;
  if readable x =? 0 then ret (-1, [])
  else match ftype x with
  | FD_PIPE => xc (piperead waits (fpipe x) n)
  | FD_INODE =>
      xf (ilock waits (fip x));;
      off <- ffield f foff;;
      '(r, l) <- xf (readi dev_read (fip x) off (u32 n));;
      when (0 <? r) do fset f (λ x, set_foff (u32 (foff x + r)) x);;
      xf (iunlock (fip x));;
      ret (r, l)
  | FD_NONE => panic "fileread"
  end.

(** The most bytes of one transaction. *)
Definition write_max : Z := (LOGSIZE - 1 - 1 - 2) / 2 * 512.

(** The loop of filewrite with [i] bytes written; every round but the last
    writes at least one byte. *)
Fixpoint filewrite_loop (fuel : nat) (f : nat) (src : list Z) (i n : Z) : FM Z :=
  match fuel with
  | O => ret i
  | S fuel =>
      if i <? n then
        let n1 := Z.min (n - i) write_max in
        ip <- ffield f fip;;
        xf (Fs.ff io_begin);;
        xf (ilock waits ip);;
        off <- ffield f foff;;
        r <- xf (writei dev_write ip (drop (Z.to_nat i) src) off (u32 n1));;
        when (0 <? r) do fset f (λ x, set_foff (u32 (foff x + r)) x);;
        xf (iunlock ip);;
        xf (Fs.ff io_end);;
        if r <? 0 then ret i
        else
          when (negb (r =? n1)) do panic "short filewrite";;
          filewrite_loop fuel f src (i + r) n
      else ret i
  end.

(** [src] has the bytes at [addr]. *)
Definition filewrite (f : nat) (src : list Z) (n : Z) : FM Z :=
  x <- gets (getf f);;
  if writable x =? 0 then ret (-1)
  else match ftype x with
  | FD_PIPE => xc (pipewrite waits (fpipe x) src n)
  | FD_INODE =>
      i <- filewrite_loop (Z.to_nat n) f src 0 n;;
      ret (if i =? n then n else -1)
  | FD_NONE => panic "filewrite"
  end.

(** ** pipealloc *)

(** initlock of spinlock.c on the lock at the start of the page. *)
Definition pipe_initlock (p name : Z) : M kst unit :=
  storew (p + 4) name;; storew p 0;; storew (p + 8) 0.

Variable pipe_name : Z.   (* the address of the string "pipe" *)

Definition pipe_bad (p : Z) (f0 f1 : option nat) : FM (option (nat * nat)) :=
  when (negb (p =? 0)) do xc (kk (kfree kend p));;
  match f0 with Some f => fileclose f | None => ret tt end;;
  match f1 with Some f => fileclose f | None => ret tt end;;
  ret None.

Definition pipealloc : FM (option (nat * nat)) :=
  f0 <- filealloc;;
  match f0 with
  | None => pipe_bad 0 None None
  | Some f0 =>
      f1 <- filealloc;;
      match f1 with
      | None => pipe_bad 0 (Some f0) None
      | Some f1 =>
          p <- xc (kk kalloc);;
          if p =? 0 then pipe_bad 0 (Some f0) (Some f1)
          else
            xc (kk (storew (p_readopen p) 1));;
            xc (kk (storew (p_writeopen p) 1));;
            xc (kk (storew (p_nwrite p) 0));;
            xc (kk (storew (p_nread p) 0));;
            xc (kk (pipe_initlock p pipe_name));;
            fset f0 (λ x, set_fpipe p (set_writable 0 (set_readable 1 (set_ftype FD_PIPE x))));;
            fset f1 (λ x, set_fpipe p (set_writable 1 (set_readable 0 (set_ftype FD_PIPE x))));;
            ret (Some (f0, f1))
      end
  end.

(** ** Reference counts *)

Context {HS : BlockSpec St}.

Lemma xf_Ret {A} (m : M (fsst St) A) (s : filest St) a t : m (fsys s) = Ret a t → xf m s = Ret a (set_fsys t s).
Proof. apply zoom_Ret. Qed.

Definition core_of (s : filest St) : core := io_core (fb (fsys s)).
Definition set_core (c : core) (s : filest St) : filest St :=
  set_fsys (set_fb (io_set_core c (fb (fsys s))) (fsys s)) s.

Lemma xc_Ret {A} (m : M core A) (s : filest St) a c : m (core_of s) = Ret a c → xc m s = Ret a (set_core c s).
Proof. intros E. apply xf_Ret. unfold fc, Fs.ff, io. apply zoom_Ret. by apply zoom_Ret. Qed.

Lemma core_set_core c s : core_of (set_core c s) = c.
Proof. apply io_get_set. Qed.

Lemma set_core_core s : set_core (core_of s) s = s.
Proof. unfold set_core, core_of. rewrite io_set_get. by destruct s as [[] ]. Qed.

Lemma set_core_set c c' s : set_core c (set_core c' s) = set_core c s.
Proof. unfold set_core. cbn. by rewrite io_set_set. Qed.

(** The table changed with its lock held. *)
Lemma ftable_locked (s : filest St) l :
  Lftable ∉ held (core_of s) →
  let s1 := set_core (set_held (Lftable :: held (core_of s)) (core_of s)) s in
  xc (pacquire Lftable) s = Ret tt s1 ∧ xc (prelease Lftable) (set_ftable l s1) = Ret tt (set_ftable l s).
Proof.
  intros Hl s1. split; [by apply xc_Ret, pacquire_ok|].
  erewrite xc_Ret; cycle 1.
  { change (core_of (set_ftable l s1)) with (core_of s1). unfold s1. rewrite core_set_core. apply prelease_ok. reflexivity. }
  change (set_core ?c (set_ftable l s1)) with (set_ftable l (set_core c s1)). unfold s1. rewrite set_core_set.
  rewrite set_held_back by done. by rewrite set_core_core.
Qed.

Lemma getf_alter f g (s : filest St) l : l = alter g f (ftable s) → (f < length (ftable s))%nat →
  ∀ j, getf j (set_ftable l s) = if decide (j = f) then g (getf f s) else getf j s.
Proof.
  intros -> Hf j. unfold getf. cbn. destruct (decide (j = f)) as [->|Hne].
  - rewrite list_lookup_alter_eq. destruct (lookup_lt_is_Some_2 _ _ Hf) as [x ->]. done.
  - by rewrite list_lookup_alter_ne.
Qed.

(** What closing the last reference to [x] does besides. *)
Definition close_object (x : file) : FM unit :=
  match ftype x with
  | FD_PIPE => xc (pipeclose kend (fpipe x) (writable x))
  | FD_INODE => xf (Fs.ff io_begin);; xf (iput (fip x));; xf (Fs.ff io_end)
  | FD_NONE => ret tt
  end.

(** Fileclose of an entry with further references only counts one less;
    the close of the last reference frees the entry and then closes the pipe
    end or puts the inode in a transaction of its own; closing an entry nobody
    uses panics. *)
Theorem fileclose_counts (s : filest St) f :
  Lftable ∉ held (core_of s) → (f < length (ftable s))%nat →
  let x := getf f s in
  fileclose f s =
    if fref x <? 1 then Panic "fileclose" (set_core (set_held (Lftable :: held (core_of s)) (core_of s)) s)
    else if 1 <? fref x then Ret tt (set_ftable (alter (λ x, set_fref (fref x - 1) x) f (ftable s)) s)
    else close_object x (set_ftable (<[f := set_ftype FD_NONE (set_fref 0 x)]> (ftable s)) s).
Proof.
  intros Hl Hf x. unfold fileclose. destruct (ftable_locked s [] Hl) as (E1 & _). rewrite (bind_Ret _ _ _ _ _ E1). clear E1.
  set (s1 := set_core _ s). unfold bind at 1, ffield at 1, gets at 1. cbn [obind]. change (getf f s1) with x.
  destruct (fref x <? 1) eqn:E; bools; [done|].
  unfold bind at 1, ret at 1. cbn [obind]. unfold bind at 1, fset at 1, modify at 1. cbn [obind].
  unfold bind at 1, ffield at 1, gets at 1. cbn [obind]. change (ftable s1) with (ftable s).
  rewrite (getf_alter f (λ x, set_fref (fref x - 1) x) s1), decide_True by done. change (getf f s1) with x. cbn [fref set_fref].
  destruct (1 <? fref x) eqn:E1; bools.
  { rewrite (proj2 (Z.ltb_lt _ _)) by lia. by apply ftable_locked. }
  rewrite (proj2 (Z.ltb_ge _ _)) by lia. unfold bind at 1, gets at 1. cbn [obind].
  rewrite (getf_alter f (λ x, set_fref (fref x - 1) x) s1), decide_True by done. change (getf f s1) with x.
  unfold bind at 1, fset at 1, modify at 1. cbn [obind ftable set_ftable].
  rewrite list_alter_alter_eq. erewrite bind_Ret; [|by apply (ftable_locked s _ Hl)].
  unfold close_object. cbn [ftype set_fref fpipe writable fip].
  replace (alter _ f (ftable s)) with (<[f := set_ftype FD_NONE (set_fref 0 x)]> (ftable s)); [done|].
  unfold x, getf. destruct (lookup_lt_is_Some_2 _ _ Hf) as [y Hy]. rewrite Hy. cbn [default].
  apply list_eq. intros j. destruct (decide (j = f)) as [->|Hj].
  - rewrite list_lookup_insert_eq, list_lookup_alter_eq, Hy by done. done.
  - by rewrite list_lookup_insert_ne, list_lookup_alter_ne.
Qed.

End file.

