(* ===== verification/Syscall.v ===== *)
(** * System call arguments (syscall.c)

    The kernel reads the arguments of a system call from the user stack and
    follows user pointers through the page table of the current process.
    [mmu] is the translation of an address by the processor, with the
    protection bits it checks in kernel mode; a fault there is a panic of trap.
    The functions return the C strings and words at the user addresses; user
    memory does not change during a system call except by the call itself.

    The theorems say what the checks accept: only words and strings inside of
    the process, and for argptr blocks whose size is not negative. *)
From S2P Require Import Prelude Kernel CString Spinlock Kalloc Vm Proc ProcSpec Pipe.

Local Open Scope Z_scope.
Local Open Scope kernel_scope.

(** ** User memory *)

(** The kernel address of user address [va]. *)
Definition mmu (write : bool) (va : Z) : M core Z :=
  m <- gets kmem;;
  d <- gets cr3;;
  match pte_at m (p2v d) va with
  | Some e =>
      if write && negb (has PTE_W e) then panic "trap"
      else ret (p2v (PTE_ADDR e) + va mod PGSIZE)
  | None => panic "trap"
  end.

Definition uloadb (va : Z) : M core Z := a <- mmu false va;; kk (loadb a).
Definition ustoreb (va v : Z) : M core unit := a <- mmu true va;; kk (storeb a v).

Fixpoint uload (n : nat) (va : Z) : M core (list Z) :=
  match n with
  | O => ret []
  | S n => c <- uloadb va;; l <- uload n (u32 (va + 1));; ret (c :: l)
  end.

Fixpoint ustore (va : Z) (l : list Z) : M core unit :=
  match l with
  | [] => ret tt
  | c :: l => ustoreb va c;; ustore (u32 (va + 1)) l
  end.

Definition word (l : list Z) : Z := foldr (λ b v, b + 256 * v) 0 l.

(** ** Arguments *)

Definition fetchint (addr : Z) : M core (option Z) :=
  myproc (λ me,
    sz <- pget me sz;;
    if (sz <=? addr) || (sz <? u32 (addr + 4)) then ret None
    else l <- uload 4 addr;; ret (Some (s32 (word l)))).

(** The bytes of the string from [s] on, the loop of fetchstr; [n] is the
    number of bytes below [ep]. *)
Fixpoint fetchstr_loop (n : nat) (s : Z) : M core (option (list Z)) :=
  match n with
  | O => ret None
  | S n =>
      c <- uloadb s;;
      if c =? 0 then ret (Some [])
      else r <- fetchstr_loop n (s + 1);; ret (cons c <$> r)
  end.

Definition fetchstr (addr : Z) : M core (option (list Z)) :=
  myproc (λ me,
    sz <- pget me sz;;
    if sz <=? addr then ret None else fetchstr_loop (Z.to_nat (sz - addr)) addr).

Definition argint (n : Z) : M core (option Z) :=
  myproc (λ me,
    t <- pget me tf;;
    esp <- kk (loadw (t + tf_esp));;
    fetchint (u32 (esp + 4 + 4 * n))).

(** The pointer, an unsigned address. *)
Definition argptr (n size : Z) : M core (option Z) :=
  r <- argint n;;
  match r with
  | None => ret None
  | Some i =>
      myproc (λ me,
        sz <- pget me sz;;
        if (sz <=? u32 i) || (sz <? u32 (u32 i + size)) then ret None
        else ret (Some (u32 i)))
  end.

Definition argstr (n : Z) : M core (option (list Z)) :=
  r <- argint n;;
  match r with
  | None => ret None
  | Some addr => fetchstr (u32 addr)
  end.

(** ** What the checks accept *)

(** The byte at a user address. *)
Definition ubyte (s : core) (va : Z) : Z :=
  match pte_at (kmem s) (p2v (cr3 s)) va with
  | Some e => kmem s (p2v (PTE_ADDR e) + va mod PGSIZE)
  | None => 0
  end.

(** The pages of the first [n] bytes are present. *)
Definition present (s : core) (n : Z) : Prop :=
  ∀ va, 0 ≤ va < n → is_Some (pte_at (kmem s) (p2v (cr3 s)) va).

Lemma uloadb_run s n va : present s n → 0 ≤ va < n → uloadb va s = Ret (ubyte s va) s.
Proof.
  intros Hp Hva. destruct (Hp va Hva) as [e He]. unfold uloadb, ubyte, mmu. rewrite He.
  unfold bind, gets. cbn [obind]. rewrite He. cbn [andb obind ret]. apply kk_loadb.
Qed.

Lemma uload_run s n k va :
  present s n → 0 ≤ va → va + Z.of_nat k ≤ n → n < W32 →
  uload k va s = Ret ((λ i, ubyte s (va + Z.of_nat i)) <$> seq 0 k) s.
Proof.
  intros Hp. revert va. induction k as [|k IH]; intros va H0 Hn Hw; cbn [uload]; [done|].
  rewrite (bind_Ret _ _ _ _ _ (uloadb_run s n va Hp ltac:(lia))).
  rewrite u32_small by lia. rewrite (bind_Ret _ _ _ _ _ (IH (va + 1) ltac:(lia) ltac:(lia) ltac:(lia))).
  unfold ret. cbn [seq fmap list_fmap]. rewrite Z.add_0_r. do 2 f_equal.
  rewrite <- fmap_S_seq, <- list_fmap_compose. apply list_fmap_ext. intros ? i _. cbn. f_equal. lia.
Qed.

Lemma fetchstr_loop_run s n k va :
  present s n → 0 ≤ va → va + Z.of_nat k ≤ n →
  ∃ r, fetchstr_loop k va s = Ret r s ∧
    match r with
    | Some l => (length l < k)%nat ∧ (∀ i c, l !! i = Some c → c = ubyte s (va + Z.of_nat i) ∧ c ≠ 0) ∧
        ubyte s (va + Z.of_nat (length l)) = 0
    | None => ∀ i, (i < k)%nat → ubyte s (va + Z.of_nat i) ≠ 0
    end.
Proof.
  intros Hp. revert va. induction k as [|k IH]; intros va H0 Hn; cbn [fetchstr_loop].
  { exists None. split; [done|]. intros; lia. }
  rewrite (bind_Ret _ _ _ _ _ (uloadb_run s n va Hp ltac:(lia))).
  destruct (ubyte s va =? 0) eqn:E; bools.
  { exists (Some []). split; [done|]. split_and!; [cbn; lia|done|cbn; by rewrite Z.add_0_r]. }
  destruct (IH (va + 1) ltac:(lia) ltac:(lia)) as (r & Er & Hr). rewrite (bind_Ret _ _ _ _ _ Er).
  exists (cons (ubyte s va) <$> r). split; [done|]. destruct r as [l|]; cbn [fmap option_fmap option_map].
  - destruct Hr as (H1 & H2 & H3). cbn [length]. split_and!; [lia| |].
    + intros [|i] c Hi; cbn in Hi; [injection Hi as <-; by rewrite Z.add_0_r|].
      destruct (H2 i c Hi) as [-> ?]. split; [f_equal; lia|done].
    + rewrite <- H3. f_equal. lia.
  - intros [|i] Hi; [by rewrite Z.add_0_r|]. replace (va + Z.of_nat (S i)) with (va + 1 + Z.of_nat i) by lia. apply Hr. lia.
Qed.

(** fetchstr accepts an address exactly when a string that is terminated
    below the size of the process starts there, and gives that string; it
    reads nothing outside of the process and changes nothing. *)
Theorem fetchstr_checks s me addr :
  cur s = Some me → present s (sz (getp me s)) → 0 ≤ addr →
  ∃ r, fetchstr addr s = Ret r s ∧
    match r with
    | Some l => addr + Z.of_nat (length l) < sz (getp me s) ∧
        (∀ i c, l !! i = Some c → c = ubyte s (addr + Z.of_nat i) ∧ c ≠ 0) ∧
        ubyte s (addr + Z.of_nat (length l)) = 0
    | None => ∀ a, addr ≤ a < sz (getp me s) → ubyte s a ≠ 0
    end.
Proof.
  intros Hc Hp Ha. unfold fetchstr. rewrite (myproc_ok _ _ me) by done. unfold bind at 1, pget, gets. cbn [obind].
  destruct (sz (getp me s) <=? addr) eqn:E; bools.
  { exists None. split; [done|]. intros; lia. }
  destruct (fetchstr_loop_run s (sz (getp me s)) (Z.to_nat (sz (getp me s) - addr)) addr) as (r & Er & Hr); [done|lia|lia|].
  exists r. split; [done|]. destruct r as [l|].
  - destruct Hr as (H1 & H2 & H3). split_and!; [lia|done|done].
  - intros a Hr'. replace a with (addr + Z.of_nat (Z.to_nat (a - addr))) by lia. apply Hr. lia.
Qed.

(** C36: argptr accepts a pointer exactly when it points into the process and
    the block of [size] bytes ends there; with a negative size it accepts every
    pointer into the process that is not below [- size], although no block of
    that (unsigned) size fits. *)
Theorem argptr_checks s me n size i :
  cur s = Some me → 0 ≤ sz (getp me s) < KERNBASE → -2147483648 ≤ size < 2147483648 → argint n s = Ret (Some i) s →
  let p := u32 i in
  ∃ r, argptr n size s = Ret r s ∧ (r = None ∨ r = Some p) ∧
    (r = Some p ↔ p < sz (getp me s) ∧ if 0 <=? size then p + size ≤ sz (getp me s) else - size ≤ p).
Proof.
  intros Hc Hsz Hsize Hi p. unfold argptr. rewrite (bind_Ret _ _ _ _ _ Hi). rewrite (myproc_ok _ _ me) by done.
  unfold bind at 1, pget, gets. cbn [obind]. fold p. pose proof (u32_range i) as Hp. fold p in Hp.
  unfold KERNBASE in *. set (z := sz (getp me s)) in *.
  destruct (0 <=? size) eqn:Es; bools; [|destruct (decide (- size ≤ p)) as [Hle|Hlt]].
  - destruct (decide (z ≤ p)); [rewrite (proj2 (Z.leb_le _ _)) by done; exists None; split_and!; [done|by left|naive_solver lia]|].
    rewrite (proj2 (Z.leb_gt _ _)), u32_small by (unfold W32; lia).
    destruct (Z.ltb_spec z (p + size)); eexists; (split_and!; [done|tauto|naive_solver lia]).
  - destruct (decide (z ≤ p)); [rewrite (proj2 (Z.leb_le _ _)) by done; exists None; split_and!; [done|by left|naive_solver lia]|].
    rewrite (proj2 (Z.leb_gt _ _)), u32_small by (unfold W32; lia).
    rewrite (proj2 (Z.ltb_ge _ _)) by lia. eexists. split_and!; [done|tauto|naive_solver lia].
  - assert (u32 (p + size) = p + size + W32) as -> by (symmetry; apply Z.mod_unique with (-1); unfold W32 in *; lia).
    rewrite (proj2 (Z.ltb_lt _ _)), orb_true_r by (unfold W32 in *; lia).
    exists None. split_and!; [done|by left|naive_solver lia].
Qed.

(** ** Witnesses *)

(** One user page at address 0 with the string "ab" at address 4. *)
Definition ex_umem : mem := λ a,
  if a =? 2147483648 + 4096 then 7 else if a =? 2147483648 + 4097 then 32                  (* page directory *)
  else if a =? 2147483648 + 8192 then 7 else if a =? 2147483648 + 8193 then 48                  (* page table *)
  else if a =? 2147483648 + 12292 then 97 else if a =? 2147483648 + 12293 then 98 else 0.       (* the page *)

Definition ex_user : core :=
  set_cr3 4096 (set_ptable (alter (λ p, set_tf 2147500032 (set_sz 4096 p)) 0%nat (ptable (ex_core 0)))
    (set_kmem ex_umem (ex_core 0))).

Lemma ex_present : present ex_user 4096.
Proof.
  intros va Hva. unfold pte_at. rewrite PDX_eq, PTX_eq by (unfold W32; lia).
  assert (va / 4194304 = 0 ∧ va / 4096 mod 1024 = 0) as [-> ->] by (Z.div_mod_to_equations; lia).
  vm_compute. by eexists.
Qed.

Lemma fetchstr_checks_witness : ∃ r, fetchstr 4 ex_user = Ret r ex_user ∧ r ≠ None.
Proof.
  destruct (fetchstr_checks ex_user 0 4) as (r & E & H).
  - reflexivity.
  - exact ex_present.
  - lia.
  - exists r. split; [exact E|]. clear E. intros ->. apply (H 6); [vm_compute; split; [discriminate|reflexivity]|vm_compute; reflexivity].
Defined.

Lemma argptr_checks_witness : argptr 0 (-4) ex_user = Ret None ex_user.
Proof.
  destruct (argptr_checks ex_user 0 0 (-4) 25185) as (r & E & Hr & H).
  - reflexivity.
  - vm_compute. split; [discriminate|reflexivity].
  - lia.
  - vm_compute. reflexivity.
  - destruct Hr as [-> | ->]; [exact E|]. exfalso. clear E. destruct (proj1 H eq_refl) as [Hx _]. vm_compute in Hx. discriminate Hx.
Defined.
