(* ===== verification/Sysfile.v ===== *)
(** * File system calls (sysfile.c)

    Each handler takes its arguments from the user stack with [Syscall],
    works on the open files of [File] and the inodes of [Fs], and leaves its
    results in user memory.  The bytes a read delivers are stored to the user
    buffer after the operation, and those of a write are loaded before it. *)
From S2P Require Import Prelude Kernel CString Spinlock Kalloc Vm Proc ProcSpec Pipe Bytes Bio Log BlockIO Fs File Syscall.

Local Open Scope Z_scope.
Local Open Scope kernel_scope.

Abbreviation O_RDONLY := (0).
Abbreviation O_WRONLY := (1).
Abbreviation O_RDWR := (2).
Abbreviation O_CREATE := (512).
Definition MAXARG : Z := 32.

Section sysfile.
  Context {St : Type} {HB : BlockIO St}.
  Variable kend : Z.
  Variable waits : nat.
  Variable dev_read : Z → option (nat → Z → M (fsst St) (Z * list Z)).
  Variable dev_write : Z → option (nat → list Z → Z → M (fsst St) Z).
  Variable pipe_name : Z.

Abbreviation FM := (M (filest St)).

Definition xbegin : FM unit := xf (ff io_begin).
Definition xend : FM unit := xf (ff io_end).
Definition me : FM nat := xc (myproc ret).

(** The descriptor and the file. *)
Definition argfd (n : Z) : FM (option (Z * nat)) :=
  r <- xc (argint n);;
  match r with
  | None => ret None
  | Some fd =>
      me <- me;;
      o <- xc (pget me ofile);;
      if (fd <? 0) || (Z.of_nat NOFILE <=? fd) then ret None
      else ret ((λ f, (fd, f)) <$> default None (o !! Z.to_nat fd))
  end.

(** The first free descriptor from [fd] on. *)
Fixpoint free_fd (o : list (option nat)) (fd : nat) : option nat :=
  match o with
  | [] => None
  | None :: _ => Some fd
  | Some _ :: o => free_fd o (S fd)
  end.

Definition set_fd (fd : nat) (f : option nat) : FM unit :=
  me <- me;; xc (pupd me (λ p, set_ofile (<[fd := f]> (ofile p)) p)).

Definition fdalloc (f : nat) : FM Z :=
  me <- me;;
  o <- xc (pget me ofile);;
  match free_fd (take NOFILE o) 0 with
  | Some fd => set_fd fd (Some f);; ret (Z.of_nat fd)
  | None => ret (-1)
  end.

Definition sys_dup : FM Z :=
  r <- argfd 0;;
  match r with
  | None => ret (-1)
  | Some (_, f) =>
      fd <- fdalloc f;;
      if fd <? 0 then ret (-1) else filedup f;; ret fd
  end.

Definition sys_read : FM Z :=
  r <- argfd 0;;
  match r with None => ret (-1) | Some (_, f) =>
  n <- xc (argint 2);;
  match n with None => ret (-1) | Some n =>
  p <- xc (argptr 1 n);;
  match p with None => ret (-1) | Some p =>
    '(r, l) <- fileread waits dev_read f n;;
    xc (ustore p l);;
    ret r
  end end end.

Definition sys_write : FM Z :=
  r <- argfd 0;;
  match r with None => ret (-1) | Some (_, f) =>
  n <- xc (argint 2);;
  match n with None => ret (-1) | Some n =>
  p <- xc (argptr 1 n);;
  match p with None => ret (-1) | Some p =>
    src <- xc (uload (Z.to_nat n) p);;
    filewrite waits dev_write f src n
  end end end.

Definition sys_close : FM Z :=
  r <- argfd 0;;
  match r with
  | None => ret (-1)
  | Some (fd, f) => set_fd (Z.to_nat fd) None;; fileclose kend f;; ret 0
  end.

(** The fields of struct stat in user memory. *)
Definition ustore_stat (st : Z) (x : fstat) : M core unit :=
  ustore (st + 4) (le_split 4 (u32 (st_dev x)));;
  ustore (st + 8) (le_split 4 (u32 (st_ino x)));;
  ustore st (le_split 2 (u16 (st_type x)));;
  ustore (st + 12) (le_split 2 (u16 (st_nlink x)));;
  ustore (st + 16) (le_split 4 (u32 (st_size x))).

Definition sys_fstat : FM Z :=
  r <- argfd 0;;
  match r with None => ret (-1) | Some (_, f) =>
  st <- xc (argptr 1 20);;
  match st with None => ret (-1) | Some st =>
    x <- filestat waits f;;
    match x with
    | Some x => xc (ustore_stat st x);; ret 0
    | None => ret (-1)
    end
  end end.

(** ** Names *)

Definition namei_ (path : list Z) : FM (option nat) := xf (namei waits dev_read path).
Definition nameiparent_ (path : list Z) : FM (option (nat * list Z)) :=
  xf (nameiparent waits dev_read path (replicate DIRSIZ 0)).

Definition add_link (ip : nat) (d : Z) : FM unit :=
  xf (iset ip (λ x, set_nlink (s16 (nlink x + d)) x));; xf (iupdate ip).

(** The label [bad] of sys_link. *)
Definition link_bad (ip : nat) : FM Z :=
  xf (ilock waits ip);;
  add_link ip (-1);;
  xf (iunlockput ip);;
  xend;;
  ret (-1).

Definition sys_link : FM Z :=
  old <- xc (argstr 0);;
  match old with None => ret (-1) | Some old =>
  new <- xc (argstr 1);;
  match new with None => ret (-1) | Some new =>
    xbegin;;
    r <- namei_ old;;
    match r with
    | None => xend;; ret (-1)
    | Some ip =>
        xf (ilock waits ip);;
        t <- xf (ifield ip itype);;
        if t =? T_DIR then xf (iunlockput ip);; xend;; ret (-1)
        else
          add_link ip 1;;
          xf (iunlock ip);;
          r <- nameiparent_ new;;
          match r with
          | None => link_bad ip
          | Some (dp, name) =>
              xf (ilock waits dp);;
              d <- xf (ifield dp idev);;
              d' <- xf (ifield ip idev);;
              n <- xf (ifield ip inum);;
              r <- (if negb (d =? d') then ret (-1) else xf (dirlink dev_read dev_write dp name n));;
              if r <? 0 then xf (iunlockput dp);; link_bad ip
              else
                xf (iunlockput dp);;
                xf (iput ip);;
                xend;;
                ret 0
          end
    end
  end end.

(** The entries from offset [off] on. *)
Fixpoint isdirempty_loop (fuel : nat) (dp : nat) (off : Z) : FM bool :=
  match fuel with
  | O => nofuel
  | S fuel =>
      size <- xf (ifield dp isize);;
      if off <? size then
        '(r, de) <- xf (readi dev_read dp off DIRENT_SIZE);;
        when (negb (r =? DIRENT_SIZE)) do panic "isdirempty: readi";;
        if negb (de_inum de =? 0) then ret false else isdirempty_loop fuel dp (off + DIRENT_SIZE)
      else ret true
  end.

Definition isdirempty (dp : nat) : FM bool :=
  size <- xf (ifield dp isize);;
  isdirempty_loop (S (Z.to_nat (size / DIRENT_SIZE))) dp (2 * DIRENT_SIZE).

Definition unlink_bad (dp : nat) : FM Z := xf (iunlockput dp);; xend;; ret (-1).

Definition sys_unlink : FM Z :=
  path <- xc (argstr 0);;
  match path with None => ret (-1) | Some path =>
    xbegin;;
    r <- nameiparent_ path;;
    match r with
    | None => xend;; ret (-1)
    | Some (dp, name) =>
        xf (ilock waits dp);;
        if (namecmp name (str ".") =? 0) || (namecmp name (str "..") =? 0) then unlink_bad dp
        else
          r <- xf (dirlookup dev_read dp name);;
          match r with
          | None => unlink_bad dp
          | Some (ip, off) =>
              xf (ilock waits ip);;
              n <- xf (ifield ip nlink);;
              when (n <? 1) do panic "unlink: nlink < 1";;
              t <- xf (ifield ip itype);;
              e <- (if t =? T_DIR then isdirempty ip else ret true);;
              if negb e then xf (iunlockput ip);; unlink_bad dp
              else
                r <- xf (writei dev_write dp (replicate (Z.to_nat DIRENT_SIZE) 0) off DIRENT_SIZE);;
                when (negb (r =? DIRENT_SIZE)) do panic "unlink: writei";;
                when (t =? T_DIR) do add_link dp (-1);;
                xf (iunlockput dp);;
                add_link ip (-1);;
                xf (iunlockput ip);;
                xend;;
                ret 0
          end
    end
  end.

(** The inode, locked. *)
Definition create (path : list Z) (type major minor : Z) : FM (option nat) :=
  r <- nameiparent_ path;;
  match r with
  | None => ret None
  | Some (dp, name) =>
      xf (ilock waits dp);;
      r <- xf (dirlookup dev_read dp name);;
      match r with
      | Some (ip, _) =>
          xf (iunlockput dp);;
          xf (ilock waits ip);;
          t <- xf (ifield ip itype);;
          if (type =? T_FILE) && (t =? T_FILE) then ret (Some ip)
          else xf (iunlockput ip);; ret None
      | None =>
          d <- xf (ifield dp idev);;
          ip <- xf (ialloc d type);;
          xf (ilock waits ip);;
          xf (iset ip (λ x, set_nlink 1 (set_iminor minor (set_imajor major x))));;
          xf (iupdate ip);;
          n <- xf (ifield ip inum);;
          when (type =? T_DIR) do
            (add_link dp 1;;
             pn <- xf (ifield dp inum);;
             r <- xf (dirlink dev_read dev_write ip (str ".") n);;
             r <- (if r <? 0 then ret r else xf (dirlink dev_read dev_write ip (str "..") pn));;
             when (r <? 0) do panic "create dots");;
          r <- xf (dirlink dev_read dev_write dp name n);;
          when (r <? 0) do panic "create: dirlink";;
          xf (iunlockput dp);;
          ret (Some ip)
      end
  end.

(** The part of sys_open that finds the inode; it is locked then, and
    otherwise the transaction has ended. *)
Definition open_inode (path : list Z) (omode : Z) : FM (option nat) :=
  if negb (Z.land omode O_CREATE =? 0) then
    r <- create path T_FILE 0 0;;
    match r with
    | None => xend;; ret None
    | Some ip => ret (Some ip)
    end
  else
    r <- namei_ path;;
    match r with
    | None => xend;; ret None
    | Some ip =>
        xf (ilock waits ip);;
        t <- xf (ifield ip itype);;
        if (t =? T_DIR) && negb (omode =? O_RDONLY) then xf (iunlockput ip);; xend;; ret None
        else ret (Some ip)
    end.

Definition b2z (b : bool) : Z := if b then 1 else 0.

Definition sys_open : FM Z :=
  path <- xc (argstr 0);;
  match path with None => ret (-1) | Some path =>
  omode <- xc (argint 1);;
  match omode with None => ret (-1) | Some omode =>
    xbegin;;
    r <- open_inode path omode;;
    match r with
    | None => ret (-1)
    | Some ip =>
        f <- filealloc;;
        fd <- match f with Some f => fdalloc f | None => ret (-1) end;;
        match f with
        | Some f =>
            if fd <? 0 then fileclose kend f;; xf (iunlockput ip);; xend;; ret (-1)
            else
              xf (iunlock ip);;
              xend;;
              fset f (λ x, mk_file FD_INODE (fref x) (b2z (Z.land omode O_WRONLY =? 0))
                (b2z (negb (Z.land omode O_WRONLY =? 0) || negb (Z.land omode O_RDWR =? 0))) (fpipe x) ip 0);;
              ret fd
        | None => xf (iunlockput ip);; xend;; ret (-1)
        end
    end
  end end.

Definition sys_mkdir : FM Z :=
  xbegin;;
  path <- xc (argstr 0);;
  r <- match path with Some path => create path T_DIR 0 0 | None => ret None end;;
  match r with
  | None => xend;; ret (-1)
  | Some ip => xf (iunlockput ip);; xend;; ret 0
  end.

Definition sys_mknod : FM Z :=
  xbegin;;
  path <- xc (argstr 0);;
  r <- match path with None => ret None | Some path =>
       major <- xc (argint 1);;
       match major with None => ret None | Some major =>
       minor <- xc (argint 2);;
       match minor with None => ret None | Some minor => create path T_DEV (s16 major) (s16 minor) end end end;;
  match r with
  | None => xend;; ret (-1)
  | Some ip => xf (iunlockput ip);; xend;; ret 0
  end.

Definition sys_chdir : FM Z :=
  xbegin;;
  path <- xc (argstr 0);;
  r <- match path with Some path => namei_ path | None => ret None end;;
  match r with
  | None => xend;; ret (-1)
  | Some ip =>
      xf (ilock waits ip);;
      t <- xf (ifield ip itype);;
      if negb (t =? T_DIR) then xf (iunlockput ip);; xend;; ret (-1)
      else
        xf (iunlock ip);;
        me <- me;;
        w <- xc (pget me cwd);;
        match w with Some w => xf (iput w) | None => panic "trap" end;;
        xend;;
        xc (pupd me (set_cwd (Some ip)));;
        ret 0
  end.

Definition sys_pipe : FM Z :=
  fd <- xc (argptr 0 8);;
  match fd with
  | None => ret (-1)
  | Some fd =>
      r <- pipealloc kend pipe_name;;
      match r with
      | None => ret (-1)
      | Some (rf, wf) =>
          fd0 <- fdalloc rf;;
          fd1 <- (if fd0 <? 0 then ret (-1) else fdalloc wf);;
          if (fd0 <? 0) || (fd1 <? 0) then
            when (0 <=? fd0) do set_fd (Z.to_nat fd0) None;;
            fileclose kend rf;;
            fileclose kend wf;;
            ret (-1)
          else
            xc (ustore fd (le_split 4 (u32 fd0)));;
            xc (ustore (u32 (fd + 4)) (le_split 4 (u32 fd1)));;
            ret 0
      end
  end.

End sysfile.
