(* ===== verification/Exec.v ===== *)
(** * Program loading (exec.c, loaduvm of vm.c, sys_exec of sysfile.c)

    exec builds a new address space from an ELF file, pushes the argument
    strings and their pointers on a new stack, and only then switches the
    process to it.  The header buffers start with whatever the kernel stack
    holds ([stack0]); the argument strings, which the code copies from the old
    address space, are given as bytes.

    [push_strings] and [stacked] describe the new stack; the theorem shows that
    after [exec_stack] what main finds in its memory are the arguments. *)
From S2P Require Import Prelude Kernel CString Spinlock Kalloc Vm Proc ProcSpec Pipe Bytes Bio Log BlockIO Fs File Syscall Sysfile.

Local Open Scope Z_scope.
Local Open Scope kernel_scope.

Definition ELF_MAGIC : Z := 1179403647.     (* 0x464C457F *)
Definition ELF_PROG_LOAD : Z := 1.
Definition ELFHDR_SIZE : Z := 52.
Definition PROGHDR_SIZE : Z := 32.

(** The fields exec uses of the two headers. *)
Definition elf_magic (h : list Z) : Z := rd32 0 h.
Definition elf_entry (h : list Z) : Z := rd32 24 h.
Definition elf_phoff (h : list Z) : Z := rd32 28 h.
Definition elf_phnum (h : list Z) : Z := rd16 44 h.
Definition ph_type (h : list Z) : Z := rd32 0 h.
Definition ph_off (h : list Z) : Z := rd32 4 h.
Definition ph_vaddr (h : list Z) : Z := rd32 8 h.
Definition ph_filesz (h : list Z) : Z := rd32 16 h.
Definition ph_memsz (h : list Z) : Z := rd32 20 h.

(** A buffer after the first bytes of it were overwritten. *)
Definition over (l buf : list Z) : list Z := l ++ drop (length l) buf.

Definition kstore (a : Z) (l : list Z) : M kst unit :=
  modify (λ s, set_kram (foldl (λ m '(i, c), <[a + Z.of_nat i := u8 c]> m) (kram s) (zip (seq 0 (length l)) l)) s).

(** copyout of vm.c with the bytes at [p] given; every round copies at least
    one byte. *)
Fixpoint copyout_bytes_loop (fuel : nat) (pgdir va : Z) (l : list Z) : M kst Z :=
  match fuel with
  | O => ret 0
  | S fuel =>
      match l with
      | [] => ret 0
      | _ =>
          let va0 := PGROUNDDOWN va in
          pa0 <- uva2ka pgdir va0;;
          if pa0 =? 0 then ret (-1)
          else
            let n := PGSIZE -u (va - va0) in
            kstore (pa0 +u (va - va0)) (take (Z.to_nat n) l);;
            copyout_bytes_loop fuel pgdir (va0 +u PGSIZE) (drop (Z.to_nat n) l)
      end
  end.
Definition copyout_bytes (pgdir va : Z) (l : list Z) : M kst Z :=
  copyout_bytes_loop (length l) pgdir va l.

Definition words (l : list Z) : list Z := flat_map (le_split 4) l.

(** The last element of the path. *)
Fixpoint base_name (last path : list Z) : list Z :=
  match path with
  | [] => last
  | c :: path => base_name (if c =? SLASH then path else last) path
  end.

Section exec.
  Context {St : Type} {HB : BlockIO St}.
  Variables kend data : Z.
  Variable waits : nat.
  Variable dev_read : Z → option (nat → Z → M (fsst St) (Z * list Z)).
  Variable stack0 : list Z.

Abbreviation FM := (M (filest St)).

(** The loop of loaduvm from [i] on. *)
Fixpoint loaduvm_loop (fuel : nat) (pgdir addr : Z) (ip : nat) (offset sz i : Z) : FM Z :=
  match fuel with
  | O => nofuel
  | S fuel =>
      if i <? sz then
        pte <- xc (kk (walkpgdir pgdir (u32 (addr + i)) 0));;
        when (pte =? 0) do panic "loaduvm: address should exist";;
        e <- xc (kk (loadw pte));;
        let pa := PTE_ADDR e in
        let n := if u32 (sz - i) <? PGSIZE then u32 (sz - i) else PGSIZE in
        '(r, l) <- xf (readi dev_read ip (u32 (offset + i)) n);;
        xc (kk (kstore (p2v pa) l));;
        if negb (u32 r =? n) then ret (-1)
        else loaduvm_loop fuel pgdir addr ip offset sz (u32 (i + PGSIZE))
      else ret 0
  end.

Definition loaduvm (pgdir addr : Z) (ip : nat) (offset sz : Z) : FM Z :=
  when (negb (addr mod PGSIZE =? 0)) do panic "loaduvm: addr must be page aligned";;
  loaduvm_loop (S (Z.to_nat (sz / PGSIZE + 1))) pgdir addr ip offset sz 0.

(** The program segments: the size of the image, or None for [bad]. *)
Fixpoint exec_load (n : nat) (pgdir : Z) (ip : nat) (off sz : Z) (ph : list Z) : FM (option Z) :=
  match n with
  | O => ret (Some sz)
  | S n =>
      '(r, l) <- xf (readi dev_read ip (u32 off) PROGHDR_SIZE);;
      let ph := over l ph in
      if negb (u32 r =? PROGHDR_SIZE) then ret None
      else if negb (ph_type ph =? ELF_PROG_LOAD) then exec_load n pgdir ip (s32 (off + PROGHDR_SIZE)) sz ph
      else if ph_memsz ph <? ph_filesz ph then ret None
      else
        sz <- xc (kk (allocuvm kend pgdir sz (u32 (ph_vaddr ph + ph_memsz ph))));;
        if sz =? 0 then ret None
        else
          r <- loaduvm pgdir (ph_vaddr ph) ip (ph_off ph) (ph_filesz ph);;
          if r <? 0 then ret None else exec_load n pgdir ip (s32 (off + PROGHDR_SIZE)) sz ph
  end.

(** The loop over the arguments: every string is copied below the one before
    and its address put in the array [us]; None for [bad]. *)
Fixpoint exec_args (pgdir sp : Z) (argc : nat) (us : list Z) (argv : list (list Z)) : FM (option (Z * list Z)) :=
  match argv with
  | [] => ret (Some (sp, us))
  | s :: argv =>
      if MAXARG <=? Z.of_nat argc then ret None
      else
        let sp := Z.land (u32 (sp - (Z.of_nat (length s) + 1))) (u32 (Z.lnot 3)) in
        r <- xc (kk (copyout_bytes pgdir sp (s ++ [0])));;
        if r <? 0 then ret None else exec_args pgdir sp (S argc) (<[(3 + argc)%nat := sp]> us) argv
  end.

(** The strings and the array ustack below them: the new stack pointer, or None
    for [bad]. *)
Definition exec_stack (pgdir sp : Z) (us : list Z) (argv : list (list Z)) : FM (option Z) :=
  r <- exec_args pgdir sp 0 us argv;;
  match r with
  | None => ret None
  | Some (sp, us) =>
      let argc := length argv in
      let us := <[(3 + argc)%nat := 0]> us in
      let us := <[0%nat := 4294967295]> us in
      let us := <[1%nat := Z.of_nat argc]> us in
      let us := <[2%nat := u32 (sp - (Z.of_nat argc + 1) * 4)]> us in
      let sp := u32 (sp - (3 + Z.of_nat argc + 1) * 4) in
      r <- xc (kk (copyout_bytes pgdir sp (words (take (3 + argc + 1) us))));;
      ret (if r <? 0 then None else Some sp)
  end.

(** The array as it is found. *)
Definition ustack0 : list Z :=
  let n := Z.to_nat (3 + MAXARG + 1) in take n (stack0 ++ replicate n 0).

(** The label [bad]. *)
Definition exec_bad (pgdir : Z) (ip : option nat) : FM Z :=
  when (negb (pgdir =? 0)) do xc (kk (freevm kend pgdir));;
  match ip with Some ip => xf (iunlockput ip);; xend | None => ret tt end;;
  ret (-1).

(** From the second half on: stack, arguments and the switch. *)
Definition exec_commit (path : list Z) (argv : list (list Z)) (pgdir sz : Z) (elf : list Z) : FM Z :=
  let sz := PGROUNDUP sz in
  sz <- xc (kk (allocuvm kend pgdir sz (u32 (sz + 2 * PGSIZE))));;
  if sz =? 0 then exec_bad pgdir None
  else
    xc (kk (clearpteu pgdir (u32 (sz - 2 * PGSIZE))));;
    r <- exec_stack pgdir sz ustack0 argv;;
    match r with
    | None => exec_bad pgdir None
    | Some sp =>
        me <- me;;
        xc (pupd me (set_pname (take 15 (base_name path path))));;
        old <- xc (pget me Proc.pgdir);;
        xc (pupd me (set_pgdir pgdir));;
        xc (pupd me (set_sz sz));;
        t <- xc (pget me tf);;
        xc (kk (storew (t + tf_eip) (elf_entry elf)));;
        xc (kk (storew (t + tf_esp) sp));;
        xc (switchuvm me);;
        xc (kk (freevm kend old));;
        ret 0
    end.

Definition exec (path : list Z) (argv : list (list Z)) : FM Z :=
  xbegin;;
  r <- namei_ waits dev_read path;;
  match r with
  | None => xend;; ret (-1)
  | Some ip =>
      xf (ilock waits ip);;
      '(r, l) <- xf (readi dev_read ip 0 ELFHDR_SIZE);;
      let elf := over l stack0 in
      if u32 r <? ELFHDR_SIZE then exec_bad 0 (Some ip)
      else if negb (elf_magic elf =? ELF_MAGIC) then exec_bad 0 (Some ip)
      else
        pgdir <- xc (kk (setupkvm data));;
        if pgdir =? 0 then exec_bad 0 (Some ip)
        else
          sz <- exec_load (Z.to_nat (elf_phnum elf)) pgdir ip (s32 (elf_phoff elf)) 0 stack0;;
          match sz with
          | None => exec_bad pgdir (Some ip)
          | Some sz =>
              xf (iunlockput ip);;
              xend;;
              exec_commit path argv pgdir sz elf
          end
  end.

(** The loop of sys_exec: the strings argv[i], argv[i+1], ... *)
Fixpoint sys_exec_loop (n : nat) (uargv i : Z) : FM (option (list (list Z))) :=
  match n with
  | O => ret None
  | S n =>
      a <- xc (fetchint (u32 (uargv + 4 * i)));;
      match a with
      | None => ret None
      | Some uarg =>
          if uarg =? 0 then ret (Some [])
          else
            s <- xc (fetchstr (u32 uarg));;
            match s with
            | None => ret None
            | Some s => r <- sys_exec_loop n uargv (i + 1);; ret (cons s <$> r)
            end
      end
  end.

Definition sys_exec : FM Z :=
  path <- xc (argstr 0);;
  match path with None => ret (-1) | Some path =>
  uargv <- xc (argint 1);;
  match uargv with None => ret (-1) | Some uargv =>
    argv <- sys_exec_loop (Z.to_nat MAXARG) (u32 uargv) 0;;
    match argv with None => ret (-1) | Some argv => exec path argv end
  end end.

End exec.

(** ** The layout of the stack *)

Lemma land_not3 x : 0 ≤ x < W32 → Z.land x (u32 (Z.lnot 3)) = x / 4 * 4.
Proof.
  intros Hx. change (u32 (Z.lnot 3)) with (Z.ldiff (Z.ones 32) (Z.ones 2)).
  rewrite <- (Z.mod_small x (2 ^ 32)) by (unfold W32 in Hx; lia). rewrite <- Z.land_ones by lia.
  rewrite <- Z.land_assoc. change (Z.land (Z.ones 32) (Z.ldiff (Z.ones 32) (Z.ones 2))) with (Z.ldiff (Z.ones 32) (Z.ones 2)).
  assert (Z.land x (Z.ldiff (Z.ones 32) (Z.ones 2)) = Z.ldiff (Z.land x (Z.ones 32)) (Z.ones 2)) as ->.
  { apply Z.bits_inj'. intros n Hn. rewrite !Z.land_spec, !Z.ldiff_spec, !Z.land_spec. by rewrite andb_assoc. }
  rewrite Z.ldiff_ones_r by lia. rewrite Z.shiftl_mul_pow2, Z.shiftr_div_pow2 by lia. done.
Qed.

(** The argument strings pushed below [sp]: the addresses of the strings, with
    the bytes there, and the final stack pointer. *)
Fixpoint push_strings (sp : Z) (argv : list (list Z)) : list (Z * list Z) * Z :=
  match argv with
  | [] => ([], sp)
  | s :: argv =>
      let sp := Z.land (u32 (sp - (Z.of_nat (length s) + 1))) (u32 (Z.lnot 3)) in
      let (l, sp') := push_strings sp argv in ((sp, s ++ [0]) :: l, sp')
  end.

(** The room of a string with its NUL, rounded up to whole words. *)
Definition round4 (n : Z) : Z := (n + 3) / 4 * 4.
Definition args_room (argv : list (list Z)) : Z := foldr (λ s n, round4 (Z.of_nat (length s) + 1) + n) 0 argv.

Lemma args_room_nonneg argv : 0 ≤ args_room argv.
Proof.
  induction argv as [|s argv IH]; cbn [args_room foldr]; [lia|]. fold (args_room argv).
  assert (0 ≤ (Z.of_nat (length s) + 1 + 3) / 4) by (apply Z.div_pos; lia). unfold round4. lia.
Qed.

(** Each string lies above the rest and below the one before. *)
Fixpoint stacked (top : Z) (l : list (Z * list Z)) (bottom : Z) : Prop :=
  match l with
  | [] => bottom = top
  | (a, s) :: l => a mod 4 = 0 ∧ a + Z.of_nat (length s) ≤ top ∧ stacked a l bottom
  end.

Lemma round4_bound n : n ≤ round4 n < n + 4 ∧ round4 n mod 4 = 0.
Proof. unfold round4. Z.div_mod_to_equations; lia. Qed.

Lemma push_one sp n :
  0 ≤ sp < W32 → sp mod 4 = 0 → 0 ≤ n → round4 n ≤ sp →
  Z.land (u32 (sp - n)) (u32 (Z.lnot 3)) = sp - round4 n ∧ (sp - round4 n) mod 4 = 0.
Proof.
  intros Hsp Hm Hn Hr. pose proof (round4_bound n) as [Hrn Hrm]. rewrite u32_small, land_not3 by lia. split.
  - clear -Hm. unfold round4. Z.div_mod_to_equations; lia.
  - by rewrite Zminus_mod, Hm, Hrm.
Qed.

Lemma push_strings_run sp argv :
  0 ≤ sp < W32 → sp mod 4 = 0 → args_room argv ≤ sp →
  let (l, sp') := push_strings sp argv in
  snd <$> l = (λ s, s ++ [0]) <$> argv ∧ sp' = sp - args_room argv ∧ stacked sp l sp'.
Proof.
  revert sp. induction argv as [|s argv IH]; intros sp Hsp Hm Hr; cbn [push_strings].
  { cbn. split_and!; [done|lia|done]. }
  cbn [args_room foldr] in Hr. fold (args_room argv) in Hr. pose proof (args_room_nonneg argv) as Hn.
  set (n := Z.of_nat (length s) + 1) in *. pose proof (round4_bound n) as [Hrn Hrm].
  destruct (push_one sp n) as [-> Hm']; [done|done|lia|lia|].
  specialize (IH (sp - round4 n) ltac:(lia)). destruct (push_strings (sp - round4 n) argv) as [l sp'].
  destruct IH as (H1 & H2 & H3); [done|lia|]. cbn [fmap list_fmap snd]. split_and!.
  - by rewrite H1.
  - cbn [args_room foldr]. fold (args_room argv). fold n. lia.
  - cbn [stacked]. rewrite length_app. cbn [length]. split_and!; [done|lia|done].
Qed.

Lemma stacked_bounds top l bottom a b : stacked top l bottom → (a, b) ∈ l → bottom ≤ a ∧ a + Z.of_nat (length b) ≤ top.
Proof.
  revert top. induction l as [|[a0 b0] l IH]; intros top H Hin; [set_solver|]. destruct H as (_ & H1 & H2).
  assert (bottom ≤ a0) as Hb0.
  { clear -H2. revert a0 H2. induction l as [|[a1 b1] l IH]; intros a0 H2; [cbn in H2; lia|]. destruct H2 as (_ & H1 & H2). apply IH in H2. lia. }
  apply elem_of_cons in Hin as [[= -> ->]|Hin]; [lia|]. destruct (IH a0 H2 Hin). lia.
Qed.

(** ** The bytes of the new stack *)

Lemma store_run a l j (m : mem) :
  let m' := foldl (λ m '(i, c), <[a + Z.of_nat i := u8 c]> m) m (zip (seq j (length l)) l) in
  (∀ i c, l !! i = Some c → m' (a + Z.of_nat (j + i)) = u8 c) ∧
  (∀ x, ¬ (a + Z.of_nat j ≤ x < a + Z.of_nat (j + length l)) → m' x = m x).
Proof.
  revert j m. induction l as [|c l IH]; intros j m; cbn [length seq zip_with foldl]; [done|].
  destruct (IH (S j) (<[a + Z.of_nat j := u8 c]> m)) as [H1 H2]. split.
  - intros [|i] d; cbn [lookup list_lookup].
    + intros [= <-]. rewrite H2 by lia. rewrite Nat.add_0_r. apply fn_lookup_insert.
    + intros Hd. rewrite <- (H1 i d Hd). do 2 f_equal. lia.
  - intros x Hx. rewrite H2 by lia. apply mem_upd_ne. lia.
Qed.

Lemma kstore_run a l (s : kst) : bytes l →
  ∃ m, kstore a l s = Ret tt (set_kram m s) ∧
    (∀ i c, l !! i = Some c → m (a + Z.of_nat i) = c) ∧
    (∀ x, ¬ (a ≤ x < a + Z.of_nat (length l)) → m x = kram s x).
Proof.
  intros Hb. eexists. split; [reflexivity|]. destruct (store_run a l 0 (kram s)) as [H1 H2]. split.
  - intros i c Hc. etransitivity; [exact (H1 i c Hc)|]. unfold u8. apply Z.mod_small. unfold bytes in Hb. rewrite Forall_forall in Hb.
    apply Hb. by eapply list_elem_of_lookup_2.
  - intros x Hx. apply H2. lia.
Qed.

(** The process reads the bytes [l] from [va] on. *)
Definition user_holds (U : gmap Z Z) (m : mem) (va : Z) (l : list Z) : Prop :=
  ∀ i c, l !! i = Some c → ∃ a, uaddr U (va + Z.of_nat i) = Some a ∧ m a = c.

Lemma bytes_words l : bytes (words l).
Proof. induction l as [|x l IH]; [constructor|]. apply Forall_app. split; [apply bytes_le_split|done]. Qed.

Lemma length_words l : length (words l) = (4 * length l)%nat.
Proof. induction l as [|x l IH]; [done|]. unfold words in *. cbn [flat_map]. rewrite length_app, length_le_split, IH. cbn. lia. Qed.

Section stack_page.
  Context {St : Type} {HB : BlockIO St} {HS : BlockSpec St}.
  Context (kend : Z) (l : list Z) (dir : Z) (T : gmap Z Z) (E : Z → Z) (U : gmap Z Z) (k p : Z).
  Hypothesis page_of : U !! k = Some p.
  Hypothesis user_ok : has PTE_U (E k) = true.

(** The kernel's state within that of the file system. *)
Definition kst_of (s : filest St) : kst := ck (core_of s).

(** Bytes copied into the page. *)
Lemma copyout_bytes_page (s : filest St) o b :
  as_inv kend (kst_of s) l dir T E U → 0 ≤ o → o + Z.of_nat (length b) ≤ PGSIZE → b ≠ [] → bytes b →
  ∃ s', xc (kk (copyout_bytes dir (k * PGSIZE + o) b)) s = Ret 0 s' ∧ as_inv kend (kst_of s') l dir T E U ∧
    user_holds U (kram (kst_of s')) (k * PGSIZE + o) b ∧
    (∀ x, ¬ (p + o ≤ x < p + o + Z.of_nat (length b)) → kram (kst_of s') x = kram (kst_of s) x).
Proof.
  intros Hi Ho Hlen Hb Hbb. assert (page_ok kend p) as Hp
    by (destruct Hi as (_ & _ & Hok & _); rewrite Forall_forall in Hok; by eapply Hok, elem_of_vals).
  assert (0 < Z.of_nat (length b)) as Hpos by (destruct b; [done|cbn; lia]).
  destruct (kstore_run (p + o) b (kst_of s) Hbb) as (m & Em & H1 & H2).
  assert (copyout_bytes dir (k * PGSIZE + o) b (kst_of s) = Ret 0 (set_kram m (kst_of s))) as Ec.
  { unfold copyout_bytes. destruct b as [|c b]; [done|]. cbn [length copyout_bytes_loop].
    rewrite PGROUNDDOWN_eq. assert ((k * PGSIZE + o) / PGSIZE = k) as -> by (unfold PGSIZE in *; Z.div_mod_to_equations; lia).
    rewrite (bind_Ret _ _ _ _ _ (uva2ka_ok _ _ _ _ _ _ _ _ _ Hi page_of user_ok)), (page_ok_nonzero kend) by done.
    replace (k * PGSIZE + o - k * PGSIZE) with o by lia.
    rewrite (u32_small (PGSIZE - o)), (u32_small (p + o)) by (unfold page_ok, KERNBASE, PHYSTOP, PGSIZE, W32 in *; lia).
    rewrite take_ge, drop_ge by (cbn in *; lia). rewrite (bind_Ret _ _ _ _ _ Em). by destruct (length b). }
  exists (set_core (set_ck (set_kram m (kst_of s)) (core_of s)) s). split; [apply xc_Ret, kk_Ret, Ec|].
  unfold kst_of. rewrite core_set_core. cbn [ck set_ck kram set_kram]. split_and!; [| |done].
  - eapply as_inv_user_write; [exact Hi|exact page_of|]. intros x Hx. apply H2. unfold in_page in Hx. lia.
  - intros i c Hc. exists (p + o + Z.of_nat i). split; [|by apply H1]. apply lookup_lt_Some in Hc.
    rewrite <- !Z.add_assoc. apply uaddr_Some; [done|lia].
Qed.

(** What lies in the page stays as long as its bytes do. *)
Lemma user_holds_keep (m m' : mem) o b :
  0 ≤ o → o + Z.of_nat (length b) ≤ PGSIZE → (∀ x, p + o ≤ x < p + o + Z.of_nat (length b) → m' x = m x) →
  user_holds U m (k * PGSIZE + o) b → user_holds U m' (k * PGSIZE + o) b.
Proof.
  intros Ho Hlen Hm H i c Hc. destruct (H i c Hc) as (a & Ha & Hac). exists a. split; [done|]. rewrite <- Hac. apply Hm.
  apply lookup_lt_Some in Hc. rewrite <- Z.add_assoc, (uaddr_Some _ _ p) in Ha by (done || lia). injection Ha as <-. lia.
Qed.

Hypothesis k_low : 0 ≤ k < UPAGES.

Lemma exec_args_run argv : ∀ (s : filest St) o argc us,
  as_inv kend (kst_of s) l dir T E U → o mod 4 = 0 → o ≤ PGSIZE → args_room argv ≤ o →
  Z.of_nat (argc + length argv) ≤ MAXARG → (3 + argc + length argv ≤ length us)%nat → Forall bytes argv →
  let (strs, sp) := push_strings (k * PGSIZE + o) argv in
  ∃ s' us', exec_args dir (k * PGSIZE + o) argc us argv s = Ret (Some (sp, us')) s' ∧
    as_inv kend (kst_of s') l dir T E U ∧
    length us' = length us ∧ take (3 + argc + length argv) us' = take (3 + argc) us ++ (fst <$> strs) ∧
    Forall (λ '(a, b), user_holds U (kram (kst_of s')) a b) strs ∧
    (∀ x, ¬ (p + o - args_room argv ≤ x < p + o) → kram (kst_of s') x = kram (kst_of s) x).
Proof.
  induction argv as [|a argv IH]; intros s o argc us Hi Hm Ho Hr Hmax Hus Hb; cbn [push_strings exec_args].
  { exists s, us. rewrite Nat.add_0_r, app_nil_r. split_and!; try done. }
  cbn [args_room foldr] in Hr. fold (args_room argv) in Hr. pose proof (args_room_nonneg argv) as Hn. cbn [length] in Hmax, Hus.
  apply Forall_cons in Hb as [Hba Hb]. set (n := Z.of_nat (length a) + 1) in *. pose proof (round4_bound n) as [Hrn Hrm].
  rewrite (proj2 (Z.leb_gt _ _)) by lia.
  destruct (push_one (k * PGSIZE + o) n) as [-> Hm']; try lia; try (unfold UPAGES, PGSIZE, W32 in *; lia).
  { unfold PGSIZE. rewrite <- Hm. clear. Z.div_mod_to_equations; lia. }
  replace (k * PGSIZE + o - round4 n) with (k * PGSIZE + (o - round4 n)) in * by lia. set (o1 := o - round4 n) in *.
  assert (o1 mod 4 = 0) as Hm1 by (rewrite <- Hm'; unfold PGSIZE; clear; Z.div_mod_to_equations; lia).
  assert (Z.of_nat (length (a ++ [0])) = n) as Hlen by (rewrite length_app; cbn; lia).
  destruct (copyout_bytes_page s o1 (a ++ [0])) as (s1 & E1 & Hi1 & Hh1 & Hk1); try done; try lia.
  { by destruct a. } { apply Forall_app. split; [done|]. repeat constructor; lia. }
  rewrite (bind_Ret _ _ _ _ _ E1). cbn [Z.ltb Z.compare].
  specialize (IH s1 o1 (S argc) (<[(3 + argc)%nat := k * PGSIZE + o1]> us) Hi1 Hm1).
  rewrite length_insert in IH. destruct (push_strings (k * PGSIZE + o1) argv) as [strs sp].
  destruct IH as (s' & us' & E2 & Hi2 & Hl2 & Ht2 & Hh2 & Hk2); try done; try lia.
  exists s', us'. split_and!; try done.
  - replace (3 + argc + length (a :: argv))%nat with (3 + S argc + length argv)%nat by (cbn; lia). rewrite Ht2.
    replace (3 + S argc)%nat with (S (3 + argc)) by lia.
    rewrite (take_S_r _ _ (k * PGSIZE + o1)) by (apply list_lookup_insert_eq; lia). rewrite take_insert_ge by lia. by rewrite <- app_assoc.
  - apply Forall_cons. split; [|done]. eapply user_holds_keep; [..|exact Hh1]; try lia. intros x Hx. apply Hk2. lia.
  - intros x Hx. cbn [args_room foldr] in Hx. fold (args_room argv) in Hx. fold n in Hx. rewrite Hk2, Hk1 by lia. done.
Qed.

(** The array ustack filled in. *)
Lemma ustack_words (us strs : list Z) sp' argc :
  (4 + argc ≤ length us)%nat → length strs = argc → (∃ h, length h = 3%nat ∧ take (3 + argc) us = h ++ strs) →
  take (3 + argc + 1) (<[2%nat := sp']> (<[1%nat := Z.of_nat argc]> (<[0%nat := 4294967295]> (<[(3 + argc)%nat := 0]> us))))
  = [4294967295; Z.of_nat argc; sp'] ++ strs ++ [0].
Proof.
  intros Hl Hs (h & Hh & Ht). destruct h as [|h0 [|h1 [|h2 [|]]]]; try done.
  replace (3 + argc + 1)%nat with (S (3 + argc)) by lia. do 3 rewrite take_insert_lt by lia.
  rewrite (take_S_r _ _ 0) by (apply list_lookup_insert_eq; lia). rewrite take_insert_ge, Ht by lia. done.
Qed.

End stack_page.

(** C37: exec_stack builds the stack main expects.  In an address space whose
    page below [top] is the process's, and with at most MAXARG arguments that
    fit in the page with their pointers, it succeeds; afterwards the process
    finds in its memory every argument string with its NUL, the strings one below
    the other in order at word-aligned addresses, without overlap; and at the
    stack pointer it returns the fake return address, argc, the address of the
    word after it, the addresses of the strings, and a zero.  No memory outside
    the process's bytes from the stack pointer to [top] changes. *)
Theorem exec_stack_layout {St : Type} {HB : BlockIO St} {HS : BlockSpec St} kend (s : filest St) l dir T E U top us argv :
  as_inv kend (kst_of s) l dir T E U → top mod PGSIZE = 0 → 0 < top ≤ KERNBASE →
  user_bytes E U (top - PGSIZE) PGSIZE → length us = Z.to_nat (3 + MAXARG + 1) → Forall bytes argv →
  Z.of_nat (length argv) ≤ MAXARG → args_room argv + 4 * (4 + Z.of_nat (length argv)) ≤ PGSIZE →
  ∃ s' sp addrs, exec_stack dir top us argv s = Ret (Some sp) s' ∧ as_inv kend (kst_of s') l dir T E U ∧
    let m := kram (kst_of s') in
    length addrs = length argv ∧
    sp = top - args_room argv - 4 * (4 + Z.of_nat (length argv)) ∧
    stacked top (zip addrs ((λ b, b ++ [0]) <$> argv)) (top - args_room argv) ∧
    (∀ i a b, addrs !! i = Some a → argv !! i = Some b → user_holds U m a (b ++ [0])) ∧
    user_holds U m sp (words ([4294967295; Z.of_nat (length argv); sp + 12] ++ addrs ++ [0])) ∧
    (∀ x, (∀ va, sp ≤ va < top → uaddr U va ≠ Some x) → m x = kram (kst_of s) x).
Proof.
  intros Hi Htop Hlow Hub Hus Hb Hmax Hroom. set (k := top / PGSIZE - 1).
  assert (top = k * PGSIZE + PGSIZE ∧ 0 ≤ k < UPAGES) as [Etop Hk]
    by (unfold k, UPAGES, PGSIZE, KERNBASE in *; Z.div_mod_to_equations; lia).
  assert (is_Some (U !! k) ∧ has PTE_U (E k) = true) as [[p HU] Hpu]
    by (apply Hub; rewrite Etop; unfold PGSIZE; Z.div_mod_to_equations; lia).
  pose proof (args_room_nonneg argv) as Hn. set (argc := length argv) in *.
  pose proof (push_strings_run top argv ltac:(unfold KERNBASE, W32 in *; lia) ltac:(rewrite Etop; unfold PGSIZE; clear; Z.div_mod_to_equations; lia) ltac:(unfold PGSIZE in *; lia)) as Hrun.
  pose proof (exec_args_run kend l dir T E U k p HU Hpu Hk argv s PGSIZE 0 us Hi eq_refl ltac:(lia) ltac:(lia) Hmax ltac:(rewrite Hus; unfold MAXARG in *; lia) Hb) as Hargs.
  rewrite <- Etop in Hargs. destruct (push_strings top argv) as [strs sp0].
  destruct Hrun as (R1 & R2 & R3). destruct Hargs as (s1 & us1 & E1 & Hi1 & Hl1 & Ht1 & Hh1 & Hk1). cbn [plus] in Ht1.
  assert (length (fst <$> strs) = argc) as Hls by (apply (f_equal length) in R1; rewrite !length_fmap in R1; by rewrite length_fmap).
  set (sp := sp0 - 4 * (4 + Z.of_nat argc)).
  assert (sp = k * PGSIZE + (PGSIZE - args_room argv - 4 * (4 + Z.of_nat argc))) as Esp by (unfold sp; lia).
  set (o := PGSIZE - args_room argv - 4 * (4 + Z.of_nat argc)) in *.
  set (st := [4294967295; Z.of_nat argc; sp + 12] ++ (fst <$> strs) ++ [0]).
  assert (Z.of_nat (length (words st)) = 4 * (4 + Z.of_nat argc)) as Hlw
    by (rewrite length_words; unfold st; rewrite !length_app, Hls; cbn; lia).
  destruct (copyout_bytes_page kend l dir T E U k p HU Hpu s1 o (words st) Hi1) as (s' & E2 & Hi2 & Hh2 & Hk2);
    [unfold o; lia|unfold o; lia|by intros H0; rewrite H0 in Hlw; cbn in Hlw; lia|apply bytes_words|].
  exists s', sp, (fst <$> strs). cbv zeta. split; [|split; [done|split_and!]].
  - unfold exec_stack. rewrite (bind_Ret _ _ _ _ _ E1). fold argc. rewrite !u32_small by (unfold KERNBASE, PGSIZE, W32 in *; lia).
    rewrite (ustack_words us1 (fst <$> strs));
      [|rewrite Hl1, Hus; unfold MAXARG in *; lia|done|exists (take 3 us); split; [by rewrite length_take, Hus|exact Ht1]].
    replace (sp0 - (Z.of_nat argc + 1) * 4) with (sp + 12) by (unfold sp; lia). fold st.
    replace (sp0 - (3 + Z.of_nat argc + 1) * 4) with sp by (unfold sp; lia). rewrite Esp at 1. rewrite (bind_Ret _ _ _ _ _ E2). done.
  - done.
  - unfold sp. lia.
  - rewrite <- R1, zip_fst_snd, <- R2. done.
  - intros i a b Ha Hab. assert ((a, b ++ [0]) ∈ strs) as Hin.
    { apply list_lookup_fmap_Some in Ha as ([a' b'] & -> & Hs). apply (f_equal (.!! i)) in R1. rewrite !list_lookup_fmap, Hs, Hab in R1.
      cbn in R1. injection R1 as ->. by eapply list_elem_of_lookup_2. }
    destruct (stacked_bounds _ _ _ _ _ R3 Hin). rewrite Forall_forall in Hh1. specialize (Hh1 _ Hin). cbn in Hh1.
    replace a with (k * PGSIZE + (a - k * PGSIZE)) in * by lia. eapply user_holds_keep; [exact HU|..|exact Hh1]; [lia..|].
    intros x Hx. apply Hk2. lia.
  - rewrite <- Esp in Hh2. exact Hh2.
  - intros x Hx. assert (¬ (p + o ≤ x < p + PGSIZE)) as Hx'.
    { intros Hc. apply (Hx (k * PGSIZE + (x - p))); [lia|]. rewrite (uaddr_Some U k p) by (done || lia). f_equal. lia. }
    rewrite Hk2, Hk1 by lia. done.
Qed.

(** Process 0 with one user page, and two arguments. *)
Definition ex_exec : filest lst :=
  mk_fst (mk_fs (set_lb (set_bc (set_ck (ex_kst 0 (exP 4)) (bc (lb ex_boot))) (lb ex_boot)) ex_boot) (mk_sb 0 0 0 0 0 0 0) []) [].

Lemma exec_stack_layout_witness :
  ∃ s' sp, @exec_stack lst (log_io 1) (exP 1) 4096 (replicate 36 0) [str "echo"; str "hi"] ex_exec = Ret (Some sp) s' ∧ sp = 4060.
Proof.
  destruct (exec_stack_layout (HB := log_io 1) (HS := log_block_spec 0) (exP 1) ex_exec [exP 4; exP 5; exP 6] (exP 1) {[0 := exP 2]} (ex_E 0) {[0 := exP 3]}
    4096 (replicate 36 0) [str "echo"; str "hi"]) as (s' & sp & addrs & Er & _ & _ & Hsp & _).
  - apply (ex_as_inv 0 (exP 4)); [lia|by left].
  - reflexivity.
  - unfold KERNBASE. lia.
  - intros k Hk. change ((4096 - PGSIZE) / PGSIZE) with 0 in Hk. change ((4096 - PGSIZE + PGSIZE - 1) / PGSIZE) with 0 in Hk.
    assert (k = 0) as -> by lia. split; [by eexists|reflexivity].
  - reflexivity.
  - repeat constructor; cbn; lia.
  - vm_compute. discriminate.
  - vm_compute. discriminate.
  - exists s', sp. split; [exact Er|exact Hsp].
Defined.
