(* ===== verification/Sysproc.v ===== *)
(** * Process system calls, dispatch and traps (sysproc.c, syscall.c, trap.c,
      cmostime of lapic.c)

    The state with the file table implements what fork and exit use of the
    file layers.  [syscall] dispatches on the number in the trap frame, [trap]
    on the trap number; the handlers of the devices are arguments of [trap].
    The real-time clock is a function of the number of reads so far.

    The theorem: cmostime decodes the clock. *)
From S2P Require Import Prelude Kernel CString Spinlock Kalloc Vm Proc ProcSpec Pipe Format Bytes Bio Log BlockIO Fs File Syscall Sysfile Exec.

Local Open Scope Z_scope.
Local Open Scope kernel_scope.

(** ** The clock (lapic.c) *)

Record rtcdate := mk_rtc {
  second : Z; minute : Z; hour : Z; day : Z; month : Z; year : Z
}.

#[export] Instance rtcdate_eq_dec : EqDecision rtcdate.
Proof. solve_decision. Defined.

Abbreviation CMOS_STATA := (10).
Abbreviation CMOS_STATB := (11).
Abbreviation CMOS_UIP := (128).

Section cmos.
  Variable cmos : nat → Z → Z.   (* what read number [k] of a register returns *)

Definition fill_rtcdate (k : nat) : rtcdate * nat :=
  (mk_rtc (cmos k 0) (cmos (k + 1) 2) (cmos (k + 2) 4) (cmos (k + 3) 7) (cmos (k + 4) 8) (cmos (k + 5) 9), (k + 6)%nat).

(** The loop that reads until two readings agree. *)
Fixpoint cmos_loop (fuel : nat) (k : nat) : option (rtcdate * nat) :=
  match fuel with
  | O => None
  | S fuel =>
      let (t1, k) := fill_rtcdate k in
      if negb (Z.land (cmos k CMOS_STATA) CMOS_UIP =? 0) then cmos_loop fuel (S k)
      else
        let (t2, k) := fill_rtcdate (S k) in
        if decide (t1 = t2) then Some (t1, k) else cmos_loop fuel k
  end.

Definition conv (x : Z) : Z := Z.shiftr x 4 * 10 + Z.land x 15.

Definition cmostime (fuel : nat) (k : nat) : option rtcdate :=
  let sb := cmos k CMOS_STATB in
  let bcd := Z.land sb 4 =? 0 in
  match cmos_loop fuel (S k) with
  | None => None
  | Some (t, _) =>
      let t := if bcd then mk_rtc (conv (second t)) (conv (minute t)) (conv (hour t)) (conv (day t)) (conv (month t)) (conv (year t))
               else t in
      Some (mk_rtc (second t) (minute t) (hour t) (day t) (month t) (u32 (year t + 2000)))
  end.

End cmos.

Definition rtc_words (t : rtcdate) : list Z := [second t; minute t; hour t; day t; month t; year t].

(** The numbers of traps (traps.h), and the clock (param.h). *)
Abbreviation T_SYSCALL := (64).
Abbreviation T_IRQ0 := (32).
Abbreviation IRQ_TIMER := (0).
Abbreviation IRQ_KBD := (1).
Abbreviation IRQ_COM1 := (4).
Abbreviation IRQ_IDE := (14).
Abbreviation IRQ_SPURIOUS := (31).
Abbreviation TPS := (1000).
Abbreviation SCHED_INTERVAL := (TPS / 100).

(** ** The file layers for fork and exit *)

Section sysproc.
  Context {St : Type} {HB : BlockIO St}.
  Variables kend data forkret_addr trapret_addr : Z.
  Variables initcode_start initcode_size : Z.
  Variable waits : nat.
  Variable dev_read : Z → option (nat → Z → M (fsst St) (Z * list Z)).
  Variable dev_write : Z → option (nat → list Z → Z → M (fsst St) Z).
  Variable pipe_name : Z.
  Variable stack0 : list Z.
  Variable null_uid : Z.
  Variable cmos : nat → Z → Z.
  Variable initlog_ : M St unit.   (* initlog of the log below *)

Abbreviation FM := (M (filest St)).

Definition file_ops : FileOps (filest St) := {|
  fo_core := core_of;
  fo_set := set_core;
  fo_filedup := filedup;
  fo_fileclose := fileclose kend;
  fo_idup i := xf (idup i);
  fo_iput i := xf (iput i);
  fo_begin_op := xbegin;
  fo_end_op := xend;
  fo_namei := namei_ waits dev_read;
  fo_iinit := xf (iinit DEV);
  fo_initlog := xf (ff initlog_)
|}.

(** ** sysproc.c *)

Definition sys_fork : FM Z := @fork _ file_ops kend data forkret_addr trapret_addr.

Definition sys_exit : FM Z := @exit _ file_ops;; ret 0.

Definition sys_wait : FM Z := xc (wait kend waits).

Definition sys_kill : FM Z :=
  pid <- xc (argint 0);;
  match pid with None => ret (-1) | Some pid => xc (kill pid) end.

Definition sys_getpid : FM Z := me <- me;; p <- xc (pget me pid);; ret (s32 p).

Definition sys_sbrk : FM Z :=
  n <- xc (argint 0);;
  match n with
  | None => ret (-1)
  | Some n =>
      me <- me;;
      addr <- xc (pget me sz);;
      r <- xc (growproc kend n);;
      if r <? 0 then ret (-1) else ret (s32 addr)
  end.

(** The loop of sys_sleep: the comparison is unsigned. *)
Fixpoint sleep_loop (fuel : nat) (ticks0 n : Z) : M core Z :=
  match fuel with
  | O => nofuel
  | S fuel =>
      t <- gets ticks;;
      if u32 (t - ticks0) <? u32 n then
        kd <- myproc (λ me, pget me killed);;
        if negb (kd =? 0) then ret (-1)
        else sleep ChTicks None;; sleep_loop fuel ticks0 n
      else ret 0
  end.

Definition sys_sleep : FM Z :=
  n <- xc (argint 0);;
  match n with
  | None => ret (-1)
  | Some n => xc (t <- gets ticks;; sleep_loop waits t n)
  end.

Definition sys_uptime : FM Z := t <- xc (gets ticks);; ret (s32 t).

(** The write to the power-off port is not modelled. *)
Definition sys_halt : FM Z := xc (kk (cprintf (text (chars "Shutting down ..." ++ [10]))));; ret 0.

Definition sys_date : FM Z :=
  d <- xc (argptr 0 24);;
  match d with
  | None => ret (-1)
  | Some _ =>
      xc (argptr 0 24);;
      match cmostime cmos waits 0 with
      | None => nofuel
      | Some t => xc (ustore (default 0 d) (words (rtc_words t)));; ret 0
      end
  end.

Definition sys_getuid : FM Z := me <- me;; u <- xc (pget me uid);; ret (s32 u).
Definition sys_getgid : FM Z := me <- me;; g <- xc (pget me gid);; ret (s32 g).

Definition sys_getppid : FM Z :=
  me <- me;;
  pp <- xc (pget me parent);;
  p <- xc (pget (default me pp) pid);;
  ret (s32 p).

(** [num] keeps what the stack held when argint fails. *)
Definition sys_setuid : FM Z :=
  n <- xc (argint 0);;
  let num := u32 (default (rd32 0 stack0) n) in
  if num <=? 32767 then me <- me;; xc (pupd me (set_uid num));; ret 1 else ret (-1).

Definition sys_setgid : FM Z :=
  n <- xc (argint 0);;
  let num := u32 (default (rd32 0 stack0) n) in
  if num <=? 32767 then me <- me;; xc (pupd me (set_gid num));; ret 1 else ret (-1).

(** The entries of the table in user memory; [prio] is not written. *)
Definition uproc_size : Z := 96.
Definition ustore_uproc (a : Z) (u : uproc) : M core unit :=
  ustore a (words [up_pid u; up_uid u; up_gid u; up_ppid u]);;
  ustore (a + 20) (words [up_cpu u]);;
  ustore (a + 16) (words [up_elapsed u]);;
  ustore (a + 56) (words [up_size u]);;
  ustore (a + 64) (up_name u ++ [0]);;
  ustore (a + 24) (up_state u ++ [0]).

Fixpoint ustore_uprocs (a : Z) (l : list uproc) : M core unit :=
  match l with
  | [] => ret tt
  | u :: l => ustore_uproc a u;; ustore_uprocs (u32 (a + uproc_size)) l
  end.

(** [table] is a null pointer: argptr stores the pointer it was given at
    address 0, and the table is found by reading it back. *)
Definition sys_getprocs : FM Z :=
  size <- xc (argint 0);;
  match size with
  | None => ret (-1)
  | Some size =>
      p <- xc (argptr 1 4);;
      match p with
      | None => ret (-1)
      | Some p =>
          xc (ustore 0 (le_split 4 p));;
          l <- xc (uload 4 0);;
          '(n, t) <- xc (getproc null_uid size);;
          xc (ustore_uprocs (word l) t);;
          ret n
      end
  end.

(** ** Dispatch *)

Definition syscalls (num : Z) : option (FM Z) :=
  if num =? 1 then Some sys_fork
  else if num =? 2 then Some sys_exit
  else if num =? 3 then Some sys_wait
  else if num =? 4 then Some (sys_pipe kend pipe_name)
  else if num =? 5 then Some (sys_read waits dev_read)
  else if num =? 6 then Some sys_kill
  else if num =? 7 then Some (sys_exec kend data waits dev_read stack0)
  else if num =? 8 then Some (sys_fstat waits)
  else if num =? 9 then Some (sys_chdir waits dev_read)
  else if num =? 10 then Some sys_dup
  else if num =? 11 then Some sys_getpid
  else if num =? 12 then Some sys_sbrk
  else if num =? 13 then Some sys_sleep
  else if num =? 14 then Some sys_uptime
  else if num =? 15 then Some (sys_open kend waits dev_read dev_write)
  else if num =? 16 then Some (sys_write waits dev_write)
  else if num =? 17 then Some (sys_mknod waits dev_read dev_write)
  else if num =? 18 then Some (sys_unlink waits dev_read dev_write)
  else if num =? 19 then Some (sys_link waits dev_read dev_write)
  else if num =? 20 then Some (sys_mkdir waits dev_read dev_write)
  else if num =? 21 then Some (sys_close kend)
  else if num =? 22 then Some sys_halt
  else if num =? 23 then Some sys_date
  else if num =? 24 then Some sys_getuid
  else if num =? 25 then Some sys_getgid
  else if num =? 26 then Some sys_getppid
  else if num =? 27 then Some sys_setuid
  else if num =? 28 then Some sys_setgid
  else if num =? 29 then Some sys_getprocs
  else None.

Definition syscall : FM unit :=
  me <- me;;
  t <- xc (pget me tf);;
  num <- xc (kk (loadw (t + tf_eax)));;
  match syscalls (s32 num) with
  | Some f =>
      r <- f;;
      t <- xc (pget me tf);;
      xc (kk (storew (t + tf_eax) (u32 r)))
  | None =>
      p <- xc (gets (getp me));;
      xc (kk (cprintf (text (format (λ _, pname p) (λ k, default 0 ([pid p; 1; num] !! k)) 0
        (chars "%d %s: unknown sys call %d" ++ [10])))));;
      t <- xc (pget me tf);;
      xc (kk (storew (t + tf_eax) (u32 (-1))))
  end.

(** ** trap *)

(** The calls of lapiceoi, which tell the local APIC that an interrupt has been
    handled, are left out: the APIC is not part of this state ([Devices] models the
    function itself). *)

Definition tf_trapno : Z := 48.
Definition tf_err : Z := 52.

Variables (cpu_id : Z) (cr2 : Z).              (* the processor and its fault address *)
Variables kbdintr ideintr uartintr : FM unit.  (* the interrupt handlers of the devices *)

(** exit, if the current process was killed and the trap came from user mode. *)
Definition exit_if_killed (cs : Z) : FM unit :=
  c <- xc (gets cur);;
  match c with
  | None => ret tt
  | Some me =>
      k <- xc (pget me killed);;
      when (negb (k =? 0) && (Z.land cs 3 =? DPL_USER)) do @exit _ file_ops
  end.

Definition trap_default (t no cs eip : Z) : FM unit :=
  c <- xc (gets cur);;
  match c with
  | Some me =>
      if Z.land cs 3 =? 0 then
        xc (kk (cprintf (text (format (λ _, []) (λ k, default 0 ([no; cpu_id; eip; cr2] !! k)) 0
          (chars "unexpected trap %d from cpu %d eip %x (cr2=0x%x)" ++ [10])))));;
        panic "trap"
      else
        p <- xc (gets (getp me));;
        err <- xc (kk (loadw (t + tf_err)));;
        xc (kk (cprintf (text (format (λ _, pname p) (λ k, default 0 ([pid p; 1; no; err; cpu_id; eip; cr2] !! k)) 0
          (chars "pid %d %s: trap %d err %d on cpu %d eip 0x%x addr 0x%x--kill proc" ++ [10])))));;
        xc (pupd me (set_killed 1))
  | None =>
      xc (kk (cprintf (text (format (λ _, []) (λ k, default 0 ([no; cpu_id; eip; cr2] !! k)) 0
        (chars "unexpected trap %d from cpu %d eip %x (cr2=0x%x)" ++ [10])))));;
      panic "trap"
  end.

Definition trap (t : Z) : FM unit :=
  no <- xc (kk (loadw (t + tf_trapno)));;
  if no =? T_SYSCALL then
    me <- me;;
    k <- xc (pget me killed);;
    when (negb (k =? 0)) do @exit _ file_ops;;
    xc (pupd me (set_tf t));;
    syscall;;
    k <- xc (pget me killed);;
    when (negb (k =? 0)) do @exit _ file_ops
  else
    cs <- xc (kk (loadw (t + tf_cs)));;
    let cs := u16 cs in
    eip <- xc (kk (loadw (t + tf_eip)));;
    (if no =? T_IRQ0 + IRQ_TIMER then
       when (cpu_id =? 0) do (xc (modify (λ s, set_ticks (u32 (ticks s + 1)) s));; xc (wakeup ChTicks))
     else if no =? T_IRQ0 + IRQ_IDE then ideintr
     else if no =? T_IRQ0 + IRQ_IDE + 1 then ret tt
     else if no =? T_IRQ0 + IRQ_KBD then kbdintr
     else if no =? T_IRQ0 + IRQ_COM1 then uartintr
     else if (no =? T_IRQ0 + 7) || (no =? T_IRQ0 + IRQ_SPURIOUS) then
       xc (kk (cprintf (text (format (λ _, []) (λ k, default 0 ([cpu_id; cs; eip] !! k)) 0
         (chars "cpu%d: spurious interrupt at %x:%x" ++ [10])))))
     else trap_default t no cs eip);;
    exit_if_killed cs;;
    c <- xc (gets cur);;
    match c with
    | Some me =>
        st <- xc (pget me state);;
        ti <- xc (gets ticks);;
        when (bool_decide (st = RUNNING) && (no =? T_IRQ0 + IRQ_TIMER) && (ti mod SCHED_INTERVAL =? 0)) do xc yield
    | None => ret tt
    end;;
    exit_if_killed cs.

End sysproc.

(** ** The clock *)

(** Two decimal digits in a byte. *)
Definition bcd (x : Z) : Z := x / 10 * 16 + x mod 10.

Lemma conv_bcd x : 0 ≤ x < 100 → conv (bcd x) = x.
Proof.
  intros Hx. unfold conv, bcd. rewrite Z.shiftr_div_pow2 by lia. change 15 with (Z.ones 4). rewrite Z.land_ones by lia.
  change (2 ^ 4) with 16. Z.div_mod_to_equations; lia.
Qed.

(** When the clock does not change while it is read, cmostime returns the
    time it shows, after one round: the registers themselves in binary mode and
    decoded in BCD mode, with 2000 added to the two digits of the year. *)
Theorem cmostime_decodes (cmos : nat → Z → Z) (clock : Z → Z) t fuel k :
  (∀ j r, cmos j r = clock r) → Z.land (clock CMOS_STATA) CMOS_UIP = 0 →
  Forall (λ x, 0 ≤ x < 100) (rtc_words t) →
  (let f := if Z.land (clock CMOS_STATB) 4 =? 0 then bcd else id in
   clock <$> [0; 2; 4; 7; 8; 9] = f <$> rtc_words t) →
  cmostime cmos (S fuel) k = Some (mk_rtc (second t) (minute t) (hour t) (day t) (month t) (year t + 2000)).
Proof.
  intros Hc Hu Ht Hr. unfold cmostime. cbn [cmos_loop fill_rtcdate]. rewrite !Hc, Hu. cbn [Z.eqb negb].
  rewrite decide_True by done. destruct t as [se mi ho da mo ye]. cbn [rtc_words] in *. cbn in Hr.
  assert (∀ y, 0 ≤ y < 100 → u32 (y + 2000) = y + 2000) as Hy by (intros; apply u32_small; unfold W32; lia).
  repeat (apply Forall_cons in Ht as [? Ht]). destruct (Z.land (clock CMOS_STATB) 4 =? 0).
  - injection Hr as E1 E2 E3 E4 E5 E6. cbn. rewrite E1, E2, E3, E4, E5, E6. rewrite !conv_bcd, Hy by done. done.
  - injection Hr as E1 E2 E3 E4 E5 E6. cbn. rewrite E1, E2, E3, E4, E5, E6. unfold id. by rewrite Hy by done.
Qed.

Lemma cmostime_decodes_witness :
  cmostime (λ _ r, bcd (r + 20)) 1 0 = Some (mk_rtc 20 22 24 27 28 2029).
Proof.
  apply (cmostime_decodes (λ _ r, bcd (r + 20)) (λ r, bcd (r + 20)) (mk_rtc 20 22 24 27 28 29) 0 0).
  - reflexivity.
  - vm_compute. reflexivity.
  - repeat constructor; cbn; lia.
  - vm_compute. reflexivity.
Defined.
