(* ===== verification/Console.v ===== *)
(** * The console, the keyboard and the serial line (console.c, kbd.c, uart.c)

    [con] is the state of console.c and its devices: the text screen and its
    cursor, the characters sent to the serial line, and the input ring with its
    three indices.  [cst] puts it next to a state with processes and blocks, and
    provides the block interface on the pair, so that the file system runs on
    top of it with the console as a device.  The characters getc delivers
    until it returns -1 are given as a list; for the keyboard they are those
    the scan codes stand for.

    The theorems: the cursor stays on the first 24 lines of the screen and the
    panic of cgaputc is never reached; the input ring behaves as a line editor,
    [edit_key], with a queue of finished lines and a line being edited. *)
From S2P Require Import Prelude Kernel CString Spinlock Kalloc Vm Proc ProcSpec Pipe Format Bytes Bio Log BlockIO Fs.

Local Open Scope Z_scope.
Local Open Scope kernel_scope.

(** ** The keyboard *)

Abbreviation SHIFT := (1).
Abbreviation CTL := (2).
Abbreviation ALT := (4).
Abbreviation CAPSLOCK := (8).
Abbreviation NUMLOCK := (16).
Abbreviation SCROLLLOCK := (32).
Abbreviation E0ESC := (64).

(** A table with the first entries given in order and others by index. *)
Fixpoint assoc (l : list (Z * Z)) (i : Z) : Z :=
  match l with
  | [] => 0
  | (j, v) :: l => if j =? i then v else assoc l i
  end.
Definition table (l : list Z) (more : list (Z * Z)) (i : Z) : Z :=
  match l !! Z.to_nat i with Some v => v | None => assoc more i end.

Definition shiftcode (data : Z) : Z :=
  table []
    [(29, 2); (42, 1); (54, 1); (56, 4); (157, 2); (184, 4)] data.

Definition togglecode (data : Z) : Z :=
  table []
    [(58, 8); (69, 16); (70, 32)] data.

Definition normalmap (data : Z) : Z :=
  table [0; 27; 49; 50; 51; 52; 53; 54; 55; 56; 57; 48; 45; 61; 8; 9; 113; 119; 101; 114; 116; 
    121; 117; 105; 111; 112; 91; 93; 10; 0; 97; 115; 100; 102; 103; 104; 106; 107; 108; 59; 
    39; 96; 0; 92; 122; 120; 99; 118; 98; 110; 109; 44; 46; 47; 0; 42; 0; 32; 0; 0; 0; 0; 0; 
    0; 0; 0; 0; 0; 0; 0; 0; 55; 56; 57; 45; 52; 53; 54; 43; 49; 50; 51; 48; 46; 0; 0; 0; 0]
    [(151, 224); (156, 10); (181, 47); (200, 226); (201, 230); (203, 228); (205, 229); (207, 225); (208, 227); (209, 231); (210, 232); (211, 233)] data.

Definition shiftmap (data : Z) : Z :=
  table [0; 27; 33; 64; 35; 36; 37; 94; 38; 42; 40; 41; 95; 43; 8; 9; 81; 87; 69; 82; 84; 89; 85; 
    73; 79; 80; 123; 125; 10; 0; 65; 83; 68; 70; 71; 72; 74; 75; 76; 58; 34; 126; 0; 124; 90; 
    88; 67; 86; 66; 78; 77; 60; 62; 63; 0; 42; 0; 32; 0; 0; 0; 0; 0; 0; 0; 0; 0; 0; 0; 0; 0; 
    55; 56; 57; 45; 52; 53; 54; 43; 49; 50; 51; 48; 46; 0; 0; 0; 0]
    [(151, 224); (156, 10); (181, 47); (200, 226); (201, 230); (203, 228); (205, 229); (207, 225); (208, 227); (209, 231); (210, 232); (211, 233)] data.

Definition ctlmap (data : Z) : Z :=
  table [0; 0; 0; 0; 0; 0; 0; 0; 0; 0; 0; 0; 0; 0; 0; 0; 17; 23; 5; 18; 20; 25; 21; 9; 15; 16; 0; 
    0; 13; 0; 1; 19; 4; 6; 7; 8; 10; 11; 12; 0; 0; 0; 0; 28; 26; 24; 3; 22; 2; 14; 13; 0; 0; 
    239; 0; 0]
    [(151, 224); (156, 13); (181, 239); (200, 226); (201, 230); (203, 228); (205, 229); (207, 225); (208, 227); (209, 231); (210, 232); (211, 233)] data.

Definition charcode (i data : Z) : Z :=
  if i =? 0 then normalmap data else if i =? 1 then shiftmap data else ctlmap data.

(** kbdgetc on a byte from the keyboard: the new value of [shift] and the
    character. *)
Definition kbdgetc (shift data : Z) : Z * Z :=
  if data =? 224 then (Z.lor shift E0ESC, 0)
  else if negb (Z.land data 128 =? 0) then
    let data := if negb (Z.land shift E0ESC =? 0) then data else Z.land data 127 in
    (Z.land shift (u32 (Z.lnot (Z.lor (shiftcode data) E0ESC))), 0)
  else
    let (shift, data) :=
      if negb (Z.land shift E0ESC =? 0) then (Z.land shift (u32 (Z.lnot E0ESC)), Z.lor data 128) else (shift, data) in
    let shift := Z.lor shift (shiftcode data) in
    let shift := Z.lxor shift (togglecode data) in
    let c := charcode (Z.land shift (Z.lor CTL SHIFT)) data in
    let c :=
      if negb (Z.land shift CAPSLOCK =? 0) then
        if (97 <=? c) && (c <=? 122) then c - 32 else if (65 <=? c) && (c <=? 90) then c + 32 else c
      else c in
    (shift, c).

(** The characters for the bytes in the keyboard's buffer. *)
Fixpoint kbd_chars (shift : Z) (codes : list Z) : Z * list Z :=
  match codes with
  | [] => (shift, [])
  | data :: codes =>
      let (shift, c) := kbdgetc shift data in
      let (shift, l) := kbd_chars shift codes in (shift, c :: l)
  end.

(** ** State *)

Record con := mk_con {
  panicked : Z;
  have_uart : Z;
  crt : Z → Z;
  crt_pos : Z;
  uart_out : list Z;
  ibuf : list Z;
  ir : Z;
  iw : Z;
  ie : Z;
  kshift : Z
}.

Definition set_panicked (v : Z) (x : con) : con :=
  mk_con v (have_uart x) (crt x) (crt_pos x) (uart_out x) (ibuf x) (ir x) (iw x) (ie x) (kshift x).
Definition set_have_uart (v : Z) (x : con) : con :=
  mk_con (panicked x) v (crt x) (crt_pos x) (uart_out x) (ibuf x) (ir x) (iw x) (ie x) (kshift x).
Definition set_crt (v : Z → Z) (x : con) : con :=
  mk_con (panicked x) (have_uart x) v (crt_pos x) (uart_out x) (ibuf x) (ir x) (iw x) (ie x)
    (kshift x).
Definition set_crt_pos (v : Z) (x : con) : con :=
  mk_con (panicked x) (have_uart x) (crt x) v (uart_out x) (ibuf x) (ir x) (iw x) (ie x) (kshift x).
Definition set_uart_out (v : list Z) (x : con) : con :=
  mk_con (panicked x) (have_uart x) (crt x) (crt_pos x) v (ibuf x) (ir x) (iw x) (ie x) (kshift x).
Definition set_ibuf (v : list Z) (x : con) : con :=
  mk_con (panicked x) (have_uart x) (crt x) (crt_pos x) (uart_out x) v (ir x) (iw x) (ie x)
    (kshift x).
Definition set_ir (v : Z) (x : con) : con :=
  mk_con (panicked x) (have_uart x) (crt x) (crt_pos x) (uart_out x) (ibuf x) v (iw x) (ie x)
    (kshift x).
Definition set_iw (v : Z) (x : con) : con :=
  mk_con (panicked x) (have_uart x) (crt x) (crt_pos x) (uart_out x) (ibuf x) (ir x) v (ie x)
    (kshift x).
Definition set_ie (v : Z) (x : con) : con :=
  mk_con (panicked x) (have_uart x) (crt x) (crt_pos x) (uart_out x) (ibuf x) (ir x) (iw x) v
    (kshift x).
Definition set_kshift (v : Z) (x : con) : con :=
  mk_con (panicked x) (have_uart x) (crt x) (crt_pos x) (uart_out x) (ibuf x) (ir x) (iw x)
    (ie x) v.

Record cst (S : Type) := mk_cst {
  cs : S;
  cn : con
}.
Arguments mk_cst {S} _ _.
Arguments cs {S} _.
Arguments cn {S} _.

Definition set_cs {S} (v : S) (x : cst S) : cst S := mk_cst v (cn x).
Definition set_cn {S} (v : con) (x : cst S) : cst S := mk_cst (cs x) v.

(** ** Output *)

Definition BACKSPACE : Z := 256.

(** The wait for the transmitter is not visible. *)
Definition uartputc (c : Z) : M con unit :=
  modify (λ s, if have_uart s =? 0 then s else set_uart_out (uart_out s ++ [u8 c]) s).

Definition upd_crt (f : (Z → Z) → (Z → Z)) : M con unit := modify (λ s, set_crt (f (crt s)) s).

Definition cgaputc (c : Z) : M con unit :=
  pos <- gets crt_pos;;
  (if c =? 10 then ret tt
   else if c =? BACKSPACE then ret tt
   else upd_crt (λ m, <[pos := Z.lor (Z.land c 255) 1792]> m));;
  let pos :=
    if c =? 10 then pos + (80 - pos mod 80)
    else if c =? BACKSPACE then (if 0 <? pos then pos - 1 else pos)
    else pos + 1 in
  when ((pos <? 0) || (25 * 80 <? pos)) do panic "pos under/overflow";;
  pos <- (if 24 <=? pos / 80 then
            upd_crt (λ m i, if (0 <=? i) && (i <? 23 * 80) then m (i + 80) else m i);;
            let pos := pos - 80 in
            upd_crt (λ m i, if (pos <=? i) && (i <? 24 * 80) then 0 else m i);;
            ret pos
          else ret pos);;
  modify (set_crt_pos (u8 (Z.shiftr pos 8) * 256 + u8 pos));;
  upd_crt (λ m, <[pos := Z.lor 32 1792]> m).

(** After a panic the processor spins. *)
Definition consputc (c : Z) : M con unit :=
  p <- gets panicked;;
  if negb (p =? 0) then nofuel
  else
    (if c =? BACKSPACE then uartputc 8;; uartputc 32;; uartputc 8 else uartputc c);;
    cgaputc c.

Fixpoint consputs (l : list Z) : M con unit :=
  match l with
  | [] => ret tt
  | c :: l => consputc c;; consputs l
  end.

(** ** Process listing (procdump of proc.c) *)

Definition state_name (st : procstate) : list Z :=
  chars match st with
  | UNUSED => "unused" | EMBRYO => "embryo" | SLEEPING => "sleep "
  | RUNNABLE => "runble" | RUNNING => "run   " | ZOMBIE => "zombie"
  end.

(** cprintf with the words [args] after the format, string arguments in [strs]. *)
Definition kprintf (fmt : list Z) (args : list Z) (strs : Z → list Z) : M core unit :=
  kk (cprintf (text (format strs (λ k, default 0 (args !! k)) 0 fmt))).

Fixpoint dump_pcs (pcs : list Z) : M core unit :=
  match pcs with
  | [] => ret tt
  | pc :: pcs => if pc =? 0 then ret tt else kprintf (chars " %p") [pc] (λ _, []);; dump_pcs pcs
  end.

Definition dump_proc (i : nat) : M core unit :=
  p <- gets (getp i);;
  if unused p then ret tt
  else
    kprintf (9 :: chars "%d" ++ 9 :: chars "%s" ++ 9 :: chars "%d" ++ 9 :: chars "%d")
      [pid p; 1; uid p; gid p] (λ _, pname p);;
    pp <- match parent p with Some j => pget j uid | None => ret (uid p) end;;
    kprintf (9 :: chars "%d" ++ [9]) [pp] (λ _, []);;
    t <- gets ticks;;
    let e := u32 (t - start_ticks p) in
    kprintf (chars "%d.%d" ++ [9]) [e / 1000; e mod 1000] (λ _, []);;
    kprintf (32 :: 9 :: chars "%d") [cpu_ticks_total p] (λ _, []);;
    kprintf (9 :: chars "%s" ++ 9 :: chars "%d" ++ [9]) [1; sz p] (λ _, state_name (state p));;
    when (bool_decide (state p = SLEEPING)) do
      (m <- gets kmem;;
       dump_pcs (getcallerpcs (ld32 m) (u32 (ld32 m (context p + 12) + 8))));;
    kprintf [10] [] (λ _, []).

Fixpoint procdump_loop (n i : nat) : M core unit :=
  match n with
  | O => ret tt
  | S n => dump_proc i;; procdump_loop n (S i)
  end.

Definition procdump : M core unit :=
  kprintf (9 :: chars "PID " ++ 9 :: chars "Name " ++ 9 :: chars "UID " ++ 9 :: chars "GID " ++ 9 :: chars "PPID " ++
    9 :: chars "Elapsed " ++ 9 :: chars "CPU " ++ 9 :: chars "State " ++ 9 :: chars "Size " ++ 9 :: chars "PCs" ++ [10]) [] (λ _, []);;
  procdump_loop NPROC 0;;
  kprintf (chars "$ ") [] (λ _, []).

(** ** Input *)

Definition INPUT_BUF : Z := 128.
Definition ctrl (c : Z) : Z := c - 64.

Definition ibuf_at (i : Z) (s : con) : Z := default 0 (ibuf s !! Z.to_nat (i mod INPUT_BUF)).

(** Kill line. *)
Fixpoint kill_line (fuel : nat) : M con unit :=
  match fuel with
  | O => nofuel
  | S fuel =>
      s <- gets id;;
      if negb (ie s =? iw s) && negb (ibuf_at (u32 (ie s - 1)) s =? 10) then
        modify (λ s, set_ie (u32 (ie s - 1)) s);;
        consputc BACKSPACE;;
        kill_line fuel
      else ret tt
  end.

Section console.
  Context {St : Type} {HB : BlockIO St}.
  Variable waits : nat.

Definition cio {A} (m : M core A) : M (cst St) A := zoom cs set_cs (io m).
Definition con_ {A} (m : M con A) : M (cst St) A := zoom cn set_cn m.

(** One character; true when a process listing was asked for. *)
Definition consoleintr_key (c : Z) : M (cst St) bool :=
  if c =? ctrl 80 then ret true
  else if c =? ctrl 85 then con_ (kill_line (S (Z.to_nat INPUT_BUF)));; ret false
  else if (c =? ctrl 72) || (c =? 127) then
    s <- con_ (gets id);;
    when (negb (ie s =? iw s)) do con_ (modify (λ s, set_ie (u32 (ie s - 1)) s);; consputc BACKSPACE);;
    ret false
  else
    s <- con_ (gets id);;
    when (negb (c =? 0) && (u32 (ie s - ir s) <? INPUT_BUF)) do
      (let c := if c =? 13 then 10 else c in
       con_ (modify (λ s, set_ie (u32 (ie s + 1)) (set_ibuf (<[Z.to_nat (ie s mod INPUT_BUF) := u8 c]> (ibuf s)) s)));;
       con_ (consputc c);;
       s <- con_ (gets id);;
       when ((c =? 10) || (c =? ctrl 68) || (ie s =? u32 (ir s + INPUT_BUF))) do
         (con_ (modify (λ s, set_iw (ie s) s));; cio (wakeup ChInput)));;
    ret false.

Fixpoint consoleintr_loop (l : list Z) (dump : bool) : M (cst St) bool :=
  match l with
  | [] => ret dump
  | c :: l => d <- consoleintr_key c;; consoleintr_loop l (d || dump)
  end.

(** [l] are the characters getc returns before it returns -1. *)
Definition consoleintr (l : list Z) : M (cst St) unit :=
  cio (pacquire Lcons);;
  dump <- consoleintr_loop l false;;
  cio (prelease Lcons);;
  when dump do cio procdump.

(** [codes] are the bytes in the keyboard's buffer. *)
Definition kbdintr (codes : list Z) : M (cst St) unit :=
  s <- con_ (gets kshift);;
  let (s', l) := kbd_chars s codes in
  con_ (modify (set_kshift s'));;
  consoleintr l.

(** [bytes] are those the serial line received. *)
Definition uartintr (bytes : list Z) : M (cst St) unit :=
  u <- con_ (gets have_uart);;
  consoleintr (if u =? 0 then [] else bytes).

#[export] Instance con_io : BlockIO (cst St) := {|
  io_core s := io_core (cs s);
  io_set_core c s := set_cs (io_set_core c (cs s)) s;
  io_read d bn := zoom cs set_cs (io_read d bn);
  io_data i s := io_data i (cs s);
  io_upd i f := zoom cs set_cs (io_upd i f);
  io_log i := zoom cs set_cs (io_log i);
  io_relse i := zoom cs set_cs (io_relse i);
  io_begin := zoom cs set_cs io_begin;
  io_end := zoom cs set_cs io_end
|}.

Abbreviation CFS := (M (fsst (cst St))).

Definition xcon {A} (m : M con A) : CFS A := ff (con_ m).

(** The wait for a finished line: false when the process was killed. *)
Fixpoint consoleread_wait (fuel : nat) : CFS bool :=
  match fuel with
  | O => nofuel
  | S fuel =>
      s <- xcon (gets id);;
      if ir s =? iw s then
        kd <- fc (myproc (λ me, pget me killed));;
        if negb (kd =? 0) then ret false
        else fc (sleep ChInput (Some Lcons));; consoleread_wait fuel
      else ret true
  end.

(** The loop of consoleread with [n] bytes left: what is left at its end and
    the bytes; None when the process was killed. *)
Fixpoint consoleread_loop (k : nat) (n target : Z) : CFS (option (Z * list Z)) :=
  match k with
  | O => ret (Some (n, []))
  | S k =>
      ok <- consoleread_wait waits;;
      if negb ok then ret None
      else
        s <- xcon (gets id);;
        let c := ibuf_at (ir s) s in
        xcon (modify (λ s, set_ir (u32 (ir s + 1)) s));;
        if c =? ctrl 68 then
          when (n <? target) do xcon (modify (λ s, set_ir (u32 (ir s - 1)) s));;
          ret (Some (n, []))
        else if c =? 10 then ret (Some (n - 1, [c]))
        else
          r <- consoleread_loop k (n - 1) target;;
          ret ((λ '(n, l), (n, c :: l)) <$> r)
  end.

Definition consoleread (ip : nat) (n : Z) : CFS (Z * list Z) :=
  iunlock ip;;
  fc (pacquire Lcons);;
  r <- consoleread_loop (Z.to_nat n) n n;;
  fc (prelease Lcons);;
  ilock waits ip;;
  match r with
  | None => ret (-1, [])
  | Some (n', l) => ret (n - n', l)
  end.

Definition consolewrite (ip : nat) (buf : list Z) (n : Z) : CFS Z :=
  iunlock ip;;
  fc (pacquire Lcons);;
  xcon (consputs (u8 <$> take (Z.to_nat n) buf));;
  fc (prelease Lcons);;
  ilock waits ip;;
  ret n.

(** devsw after consoleinit. *)
Definition CONSOLE : Z := 1.
Definition devsw_read (major : Z) : option (nat → Z → CFS (Z * list Z)) :=
  if major =? CONSOLE then Some consoleread else None.
Definition devsw_write (major : Z) : option (nat → list Z → Z → CFS Z) :=
  if major =? CONSOLE then Some consolewrite else None.

End console.

(** ** The screen *)

(** The cursor is on the first 24 lines, and nothing but the output changed. *)
Definition on_screen (s : con) : Prop := panicked s = 0 ∧ 0 ≤ crt_pos s < 24 * 80.
Definition shown (s s' : con) : Prop :=
  ∃ m p u, s' = set_uart_out u (set_crt_pos p (set_crt m s)) ∧ 0 ≤ p < 24 * 80.

Lemma shown_trans s1 s2 s3 : shown s1 s2 → shown s2 s3 → shown s1 s3.
Proof. intros (m & p & u & -> & Hp) (m' & p' & u' & -> & Hp'). by exists m', p', u'. Qed.

Lemma shown_on s s' : on_screen s → shown s s' → on_screen s'.
Proof. intros [H1 H2] (m & p & u & -> & Hp). done. Qed.

Lemma cursor_bytes p : 0 ≤ p < 65536 → u8 (Z.shiftr p 8) * 256 + u8 p = p.
Proof. intros Hp. rewrite Z.shiftr_div_pow2 by lia. unfold u8. change (2 ^ 8) with 256. Z.div_mod_to_equations; lia. Qed.

(** Where the cursor goes: to the next position, or the line above after the
    screen was scrolled. *)
Definition next_pos (c pos : Z) : Z :=
  let pos := if c =? 10 then pos + (80 - pos mod 80)
             else if c =? BACKSPACE then (if 0 <? pos then pos - 1 else pos) else pos + 1 in
  if 24 * 80 <=? pos then pos - 80 else pos.

Lemma cgaputc_run c s :
  0 ≤ crt_pos s < 24 * 80 →
  ∃ m, cgaputc c s = Ret tt (set_crt_pos (next_pos c (crt_pos s)) (set_crt m s)) ∧ 0 ≤ next_pos c (crt_pos s) < 24 * 80.
Proof.
  intros Hp. unfold cgaputc, next_pos. unfold bind at 1, gets at 1. cbn [obind].
  set (w := if c =? 10 then _ else _). set (pos := if c =? 10 then _ else _).
  assert (∃ m, w s = Ret tt (set_crt m s)) as [m Ew].
  { unfold w. exists (if (c =? 10) || (c =? BACKSPACE) then crt s else <[crt_pos s := Z.lor (Z.land c 255) 1792]> (crt s)).
    destruct (c =? 10); [by destruct s|]. cbn [orb]. destruct (c =? BACKSPACE); by destruct s. }
  rewrite (bind_Ret _ _ _ _ _ Ew). clear Ew.
  assert (0 ≤ pos ≤ 24 * 80) as Hpos.
  { unfold pos. destruct (c =? 10); [pose proof (Z.mod_pos_bound (crt_pos s) 80); Z.div_mod_to_equations; lia|].
    destruct (c =? BACKSPACE); [destruct (Z.ltb_spec 0 (crt_pos s)); lia|lia]. }
  rewrite (proj2 (Z.ltb_ge pos 0)), (proj2 (Z.ltb_ge _ pos)) by lia. cbn [orb].
  unfold bind at 1, ret at 1. cbn [obind].
  assert ((24 <=? pos / 80) = (24 * 80 <=? pos)) as ->.
  { destruct (Z.leb_spec 24 (pos / 80)), (Z.leb_spec (24 * 80) pos); try done; Z.div_mod_to_equations; lia. }
  destruct (24 * 80 <=? pos) eqn:E; bools; eexists; (split; [|lia]);
    unfold bind, upd_crt, modify, ret; cbn [obind]; rewrite cursor_bytes by lia; done.
Qed.

Lemma consputc_run c s : on_screen s → ∃ s', consputc c s = Ret tt s' ∧ shown s s' ∧
  crt_pos s' = next_pos c (crt_pos s) ∧
  uart_out s' = uart_out s ++ if have_uart s =? 0 then [] else if c =? BACKSPACE then [8; 32; 8] else [u8 c].
Proof.
  intros [Hpan Hpos]. unfold consputc. unfold bind at 1, gets at 1. cbn [obind]. rewrite Hpan. cbn [Z.eqb negb].
  set (w := if c =? BACKSPACE then _ else _).
  set (u := uart_out s ++ if have_uart s =? 0 then [] else if c =? BACKSPACE then [8; 32; 8] else [u8 c]).
  assert (w s = Ret tt (set_uart_out u s)) as Ew.
  { unfold w, u, uartputc, bind, modify. destruct (have_uart s =? 0) eqn:E.
    - rewrite app_nil_r. destruct (c =? BACKSPACE); cbn [obind]; cbv beta; rewrite !E; by destruct s.
    - destruct (c =? BACKSPACE); cbn [obind]; cbv beta; rewrite !E; [|done]. cbn [have_uart set_uart_out uart_out].
      rewrite !E. cbn [have_uart set_uart_out uart_out]. by rewrite E, <- !app_assoc. }
  rewrite (bind_Ret _ _ _ _ _ Ew). clear Ew.
  destruct (cgaputc_run c (set_uart_out u s) Hpos) as (m & E & Hn). eexists. split; [exact E|]. split; [|done].
  by exists m, (next_pos c (crt_pos s)), u.
Qed.

(** The bytes on the serial line for a character. *)
Definition serial (c : Z) : list Z := if c =? BACKSPACE then [8; 32; 8] else [u8 c].

(** Output to the console never reaches the panic of cgaputc: from a cursor
    on the first 24 lines every sequence of characters is written, the cursor
    moves as [next_pos] says and stays on these lines, and the serial line,
    when there is one, gets every character. *)
Theorem console_output_safe l s :
  on_screen s →
  ∃ s', consputs l s = Ret tt s' ∧ on_screen s' ∧ crt_pos s' = foldl (λ p c, next_pos c p) (crt_pos s) l ∧
    uart_out s' = uart_out s ++ if have_uart s =? 0 then [] else flat_map serial l.
Proof.
  revert s. induction l as [|c l IH]; intros s Hs; cbn [consputs].
  { exists s. split_and!; try done. cbn. destruct (have_uart s =? 0); by rewrite app_nil_r. }
  destruct (consputc_run c s Hs) as (s1 & E & Hsh & Hp & Hu). rewrite (bind_Ret _ _ _ _ _ E). clear E.
  destruct (IH s1) as (s2 & E2 & Hs2 & Hp2 & Hu2); [by eapply shown_on|]. exists s2. split_and!; try done.
  - cbn. by rewrite <- Hp.
  - destruct Hsh as (m & p & u & -> & _). cbn [have_uart set_uart_out set_crt_pos set_crt uart_out] in *.
    rewrite Hu2, Hu. cbn [flat_map]. unfold serial at 2. destruct (have_uart s =? 0); [by rewrite !app_nil_r|].
    by rewrite app_assoc.
Qed.

(** ** The line editor *)

(** The input waiting to be read, and the line being edited. *)
Record editor := mk_ed { ed_done : list Z; ed_line : list Z }.

Definition edit_key (c : Z) (e : editor) : editor :=
  if c =? ctrl 80 then e
  else if c =? ctrl 85 then mk_ed (ed_done e) []
  else if (c =? ctrl 72) || (c =? 127) then mk_ed (ed_done e) (take (length (ed_line e) - 1) (ed_line e))
  else if negb (c =? 0) && (length (ed_done e) + length (ed_line e) <? Z.to_nat INPUT_BUF)%nat then
    let c := if c =? 13 then 10 else c in
    let line := ed_line e ++ [u8 c] in
    if (c =? 10) || (c =? ctrl 68) || (length (ed_done e) + length line =? Z.to_nat INPUT_BUF)%nat
    then mk_ed (ed_done e ++ line) [] else mk_ed (ed_done e) line
  else e.

Definition ed_all (e : editor) : list Z := ed_done e ++ ed_line e.

Record input_rel (s : con) (e : editor) : Prop := {
  ip_buf : length (ibuf s) = Z.to_nat INPUT_BUF;
  ip_r : 0 ≤ ir s < W32;
  ip_w : iw s = u32 (ir s + Z.of_nat (length (ed_done e)));
  ip_e : ie s = u32 (ir s + Z.of_nat (length (ed_all e)));
  ip_room : Z.of_nat (length (ed_all e)) ≤ INPUT_BUF;
  ip_line : 10 ∉ ed_line e;
  ip_data k x : ed_all e !! k = Some x → ibuf_at (ir s + Z.of_nat k) s = x
}.

Lemma mod_inputbuf x : u32 x mod INPUT_BUF = x mod INPUT_BUF.
Proof.
  unfold u32, W32, INPUT_BUF. change 4294967296 with (128 * 33554432). rewrite Z.rem_mul_r by lia.
  rewrite Z.mul_comm, Z.mod_add by lia. by rewrite Z.mod_mod by lia.
Qed.

Lemma ibuf_at_u32 x s : ibuf_at (u32 x) s = ibuf_at x s.
Proof. unfold ibuf_at. by rewrite mod_inputbuf. Qed.

Lemma input_shown s s' e : shown s s' → input_rel s e → input_rel s' e.
Proof. intros (m & p & u & -> & _) [H1 H2 H3 H4 H5 H6 H7]. split; try done. Qed.

Lemma u32_eq_small r a b : 0 ≤ a < 1000 → 0 ≤ b < 1000 → u32 (r + a) = u32 (r + b) → a = b.
Proof. intros Ha Hb. unfold u32, W32. intros. Z.div_mod_to_equations. lia. Qed.

Lemma length_ed_all e : length (ed_all e) = (length (ed_done e) + length (ed_line e))%nat.
Proof. apply length_app. Qed.

(** The test for an empty line. *)
Lemma line_empty s e : input_rel s e → (ie s =? iw s) = bool_decide (ed_line e = []).
Proof.
  intros [H1 H2 H3 H4 H5 H6 H7]. rewrite H3, H4. rewrite length_ed_all in *. unfold INPUT_BUF in *.
  destruct (decide (ed_line e = [])) as [->|Hne].
  - rewrite bool_decide_eq_true_2 by done. cbn [length]. rewrite Nat.add_0_r. apply Z.eqb_refl.
  - rewrite bool_decide_eq_false_2 by done. apply Z.eqb_neq. intros E%u32_eq_small; [|lia..].
    assert (length (ed_line e) ≠ 0%nat) by (by intros ?%nil_length_inv). lia.
Qed.

(** Taking back the last character of the line. *)
Lemma input_back s dn line x :
  input_rel s (mk_ed dn (line ++ [x])) → input_rel (set_ie (u32 (ie s - 1)) s) (mk_ed dn line) ∧ ibuf_at (u32 (ie s - 1)) s = x.
Proof.
  intros [H1 H2 H3 H4 H5 H6 H7]. unfold ed_all in *. cbn [ed_done ed_line] in *. rewrite !length_app in *. cbn [length] in *.
  assert (u32 (ie s - 1) = u32 (ir s + Z.of_nat (length dn + length line))) as Hie.
  { rewrite H4, u32_sub_l. f_equal. lia. }
  split.
  - split; unfold ed_all; cbn [ed_done ed_line ie set_ie ibuf ir iw]; try done; rewrite ?length_app.
    + done.
    + lia.
    + intros Hx. apply H6. apply elem_of_app. by left.
    + intros k y Hk. apply H7. rewrite app_assoc. rewrite lookup_app_l; [done|]. by apply lookup_lt_Some in Hk.
  - rewrite Hie, ibuf_at_u32. rewrite <- length_app. apply H7. rewrite app_assoc, lookup_app_r, Nat.sub_diag by done. done.
Qed.

Lemma kill_line_run fuel s dn line :
  on_screen s → input_rel s (mk_ed dn line) → (length line < fuel)%nat →
  ∃ s', kill_line fuel s = Ret tt s' ∧ on_screen s' ∧ input_rel s' (mk_ed dn []).
Proof.
  revert s line. induction fuel as [|fuel IH]; intros s line Hs Hr Hf; [lia|]. cbn [kill_line].
  unfold bind at 1, gets at 1. cbn [obind]. unfold id. rewrite (line_empty _ _ Hr). cbn [ed_line].
  destruct line as [|x line _] using rev_ind.
  { rewrite bool_decide_eq_true_2 by done. by exists s. }
  rewrite bool_decide_eq_false_2 by (by intros [_ ?]%app_eq_nil). destruct (input_back _ _ _ _ Hr) as [Hr' Hx]. rewrite Hx.
  assert ((x =? 10) = false) as ->.
  { apply Z.eqb_neq. intros ->. apply (ip_line _ _ Hr). apply elem_of_app. right. by left. }
  cbn [negb andb]. unfold bind at 1, modify at 1. cbn [obind].
  destruct (consputc_run BACKSPACE (set_ie (u32 (ie s - 1)) s)) as (s1 & E & Hsh & _); [done|].
  rewrite (bind_Ret _ _ _ _ _ E). clear E. rewrite length_app in Hf. cbn in Hf.
  apply (IH s1 line); [by eapply (shown_on (set_ie (u32 (ie s - 1)) s))|by eapply input_shown|lia].
Qed.

(** Storing a character behind the line. *)
Lemma input_store s dn line c :
  input_rel s (mk_ed dn line) → (length dn + length line < Z.to_nat INPUT_BUF)%nat →
  let s' := set_ie (u32 (ie s + 1)) (set_ibuf (<[Z.to_nat (ie s mod INPUT_BUF) := u8 c]> (ibuf s)) s) in
  iw s' = u32 (ir s' + Z.of_nat (length dn)) ∧ ie s' = u32 (ir s' + Z.of_nat (length (dn ++ line ++ [u8 c]))) ∧
  length (ibuf s') = Z.to_nat INPUT_BUF ∧
  ∀ k x, (dn ++ line ++ [u8 c]) !! k = Some x → ibuf_at (ir s' + Z.of_nat k) s' = x.
Proof.
  intros [H1 H2 H3 H4 H5 H6 H7] Hroom s'. unfold ed_all in *. cbn [ed_done ed_line] in *. split_and!.
  - done.
  - cbn. rewrite H4, u32_add_l. rewrite !length_app. cbn [length]. f_equal. lia.
  - cbn. by rewrite length_insert.
  - intros k x. rewrite app_assoc. unfold ibuf_at. cbn [ibuf ir s' set_ie set_ibuf]. rewrite H4, mod_inputbuf.
    set (n := length (dn ++ line)) in *. assert (n < 128)%nat as Hn by (unfold n; rewrite length_app; unfold INPUT_BUF in Hroom; lia).
    pose proof (Z.mod_pos_bound (ir s + Z.of_nat n) INPUT_BUF ltac:(done)) as Hb.
    destruct (decide (k < n)%nat) as [Hk|Hk].
    + rewrite lookup_app_l by done. intros Hx. rewrite list_lookup_insert_ne.
      * by apply H7.
      * unfold INPUT_BUF in *. intros E. Z.div_mod_to_equations. lia.
    + intros Hx. pose proof (lookup_lt_Some _ _ _ Hx) as Hlt. rewrite length_app in Hlt. cbn in Hlt.
      assert (k = n) as -> by (fold n in Hlt; lia). rewrite lookup_app_r, Nat.sub_diag in Hx by done. injection Hx as <-.
      rewrite list_lookup_insert_eq; [done|]. rewrite H1. unfold INPUT_BUF in *. lia.
Qed.

Section editing.
  Context {St : Type} {HB : BlockIO St} {HS : BlockSpec St}.

Lemma con_Ret {A} (m : M con A) (s : cst St) a t : m (cn s) = Ret a t → con_ m s = Ret a (set_cn t s).
Proof. apply zoom_Ret. Qed.

Lemma cio_Ret {A} (m : M core A) (s : cst St) a c :
  m (io_core (cs s)) = Ret a c → cio m s = Ret a (set_cs (io_set_core c (cs s)) s).
Proof. intros E. unfold cio. apply zoom_Ret. unfold io. by apply zoom_Ret. Qed.

Lemma con_get (s : cst St) : con_ (gets id) s = Ret (cn s) s.
Proof. by destruct s. Qed.

(** The state while consoleintr runs. *)
Definition at_line (s : cst St) (e : editor) : Prop :=
  on_screen (cn s) ∧ input_rel (cn s) e ∧ Lptable ∉ held (io_core (cs s)).

Lemma edit_default s e c :
  at_line s e → c ≠ 0 → (length (ed_done e) + length (ed_line e) < Z.to_nat INPUT_BUF)%nat →
  ∃ s1, (con_ (modify (λ s, set_ie (u32 (ie s + 1)) (set_ibuf (<[Z.to_nat (ie s mod INPUT_BUF) := u8 c]> (ibuf s)) s)));;
         con_ (consputc c))%K s = Ret tt s1 ∧ on_screen (cn s1) ∧ cs s1 = cs s ∧
    let line := ed_line e ++ [u8 c] in
    (ie (cn s1) =? u32 (ir (cn s1) + INPUT_BUF)) = (length (ed_done e) + length line =? Z.to_nat INPUT_BUF)%nat ∧
    (u8 c ≠ 10 → input_rel (cn s1) (mk_ed (ed_done e) line)) ∧
    input_rel (set_iw (ie (cn s1)) (cn s1)) (mk_ed (ed_done e ++ line) []).
Proof.
  intros (Hs & Hr & _) Hc Hroom. destruct e as [dn line]. cbn [ed_done ed_line] in *.
  destruct (input_store _ _ _ c Hr Hroom) as (Hw & He & Hl & Hd).
  set (t := set_ie _ _) in *. destruct (consputc_run c t Hs) as (t1 & E & Hsh & _).
  exists (set_cn t1 s). split.
  { erewrite bind_Ret; [|apply con_Ret; reflexivity]. apply (con_Ret _ (set_cn t s)). exact E. }
  clear E. pose proof (shown_on t _ Hs Hsh) as Hs1. cbn [cn cs set_cn] in *. split_and!; [done|done|..];
    destruct Hsh as (m & p & u & -> & _); cbn [ie ir iw ibuf set_uart_out set_crt_pos set_crt set_iw] in *.
  - rewrite He, !length_app. cbn [length]. unfold INPUT_BUF in *.
    destruct (Nat.eqb_spec (length dn + (length line + 1)) (Z.to_nat 128)) as [Hx|Hx].
    + apply Z.eqb_eq. f_equal. lia.
    + apply Z.eqb_neq. intros Hy%u32_eq_small; lia.
  - intros Hn. split; unfold ed_all; cbn [ed_done ed_line ie ir iw ibuf set_uart_out set_crt_pos set_crt]; try done.
    + apply Hr.
    + rewrite !length_app. cbn [length]. unfold INPUT_BUF in *. lia.
    + rewrite elem_of_app. intros [Hx|Hx%list_elem_of_singleton]; [by apply (ip_line _ _ Hr)|congruence].
  - split; unfold ed_all; cbn [ed_done ed_line ie ir iw ibuf set_uart_out set_crt_pos set_crt set_iw]; rewrite ?app_nil_r; try done.
    + apply Hr.
    + rewrite !length_app. cbn [length]. unfold INPUT_BUF in *. lia.
    + apply not_elem_of_nil.
Qed.

Lemma edit_kill s dn line :
  at_line s (mk_ed dn line) →
  ∃ s', con_ (kill_line (S (Z.to_nat INPUT_BUF))) s = Ret tt s' ∧ at_line s' (mk_ed dn []) ∧ io_same (cs s) (cs s').
Proof.
  intros (Hs & Hr & Hl). destruct (kill_line_run (S (Z.to_nat INPUT_BUF)) (cn s) dn line Hs Hr) as (t & E & Hs' & Hr').
  { pose proof (ip_room _ _ Hr) as Hx. unfold ed_all in Hx. rewrite length_app in Hx. cbn [ed_done ed_line] in Hx. lia. }
  exists (set_cn t s). split; [by apply con_Ret|]. split; [by split_and!|apply woke_refl].
Qed.

Lemma edit_back s dn line :
  at_line s (mk_ed dn line) →
  ∃ s', (when (negb (ie (cn s) =? iw (cn s))) do con_ (modify (λ s, set_ie (u32 (ie s - 1)) s);; consputc BACKSPACE))%K s = Ret tt s' ∧
    at_line s' (mk_ed dn (take (length line - 1) line)) ∧ io_same (cs s) (cs s').
Proof.
  intros (Hs & Hr & Hl). rewrite (line_empty _ _ Hr). cbn [ed_line]. destruct line as [|x line _] using rev_ind.
  { rewrite bool_decide_eq_true_2 by done. exists s. split_and!; [done|by split_and!|apply woke_refl]. }
  rewrite bool_decide_eq_false_2 by (by intros [_ ?]%app_eq_nil). destruct (input_back _ _ _ _ Hr) as [Hr' _].
  set (t0 := set_ie (u32 (ie (cn s) - 1)) (cn s)) in *.
  destruct (consputc_run BACKSPACE t0 Hs) as (t & E & Hsh & _). cbn [negb]. exists (set_cn t s). split.
  { apply con_Ret. unfold bind, modify. cbn [obind]. exact E. }
  clear E. rewrite length_app. cbn [length]. replace (length line + 1 - 1)%nat with (length line) by lia. rewrite take_app_length.
  split; [|apply woke_refl]. split_and!; [by apply (shown_on t0)|by eapply input_shown|done].
Qed.

(** A character for the line: it is stored, and it may finish the line. *)
Lemma edit_char s dn line c :
  at_line s (mk_ed dn line) → 0 < c < 256 → (length dn + length line < Z.to_nat INPUT_BUF)%nat →
  ∃ s', (con_ (modify (λ s, set_ie (u32 (ie s + 1)) (set_ibuf (<[Z.to_nat (ie s mod INPUT_BUF) := u8 c]> (ibuf s)) s)));;
         con_ (consputc c);;
         s <- con_ (gets id);;
         when ((c =? 10) || (c =? ctrl 68) || (ie s =? u32 (ir s + INPUT_BUF))) do
           (con_ (modify (λ s, set_iw (ie s) s));; cio (wakeup ChInput)))%K s = Ret tt s' ∧
    at_line s' (if (c =? 10) || (c =? ctrl 68) || (length dn + length (line ++ [u8 c]) =? Z.to_nat INPUT_BUF)%nat
                then mk_ed (dn ++ line ++ [u8 c]) [] else mk_ed dn (line ++ [u8 c])) ∧
    io_same (cs s) (cs s').
Proof.
  intros Ha Hc Hroom. destruct (edit_default s (mk_ed dn line) c Ha ltac:(lia) Hroom) as (s1 & E & Hs1 & Hcs & Hf & Hno & Hyes).
  cbn [ed_done ed_line] in *. rewrite (bind_seq_Ret _ _ _ _ _ _ E). clear E. rewrite (bind_Ret _ _ _ _ _ (con_get s1)).
  rewrite Hf. destruct Ha as (_ & _ & Hl). rewrite u8_small in * by lia.
  destruct ((c =? 10) || (c =? ctrl 68) || (length dn + length (line ++ [c]) =? Z.to_nat INPUT_BUF)%nat) eqn:Ed.
  - erewrite bind_Ret; [|apply con_Ret; reflexivity].
    eexists. split; [apply cio_Ret, wakeup_run; cbn [cs set_cn]; by rewrite Hcs|]. cbn [cs set_cn cn].
    unfold at_line, io_same. cbn [cs cn set_cs set_cn]. rewrite io_get_set, Hcs. split_and!; try done. apply woke_wake.
  - exists s1. unfold at_line. rewrite Hcs. apply orb_false_elim in Ed as [Ed _]. apply orb_false_elim in Ed as [Ed _].
    split_and!; try done; [apply Hno; by apply Z.eqb_neq in Ed|apply woke_refl].
Qed.

(** One character does to the ring what [edit_key] does to the editor. *)
Lemma consoleintr_key_run s e c :
  0 ≤ c < 256 → at_line s e →
  ∃ s', consoleintr_key c s = Ret (c =? ctrl 80) s' ∧ at_line s' (edit_key c e) ∧ io_same (cs s) (cs s').
Proof.
  intros Hc Ha. destruct e as [dn line]. unfold consoleintr_key, edit_key. cbn [ed_done ed_line]. destruct (c =? ctrl 80) eqn:E1.
  { exists s. split_and!; [done|done|apply woke_refl]. }
  destruct (c =? ctrl 85) eqn:E2.
  { destruct (edit_kill _ _ _ Ha) as (s' & E & Ha' & Hs'). rewrite (bind_Ret _ _ _ _ _ E). by exists s'. }
  destruct ((c =? ctrl 72) || (c =? 127)) eqn:E3.
  { rewrite (bind_Ret _ _ _ _ _ (con_get s)). destruct (edit_back _ _ _ Ha) as (s' & E & Ha' & Hs').
    rewrite (bind_Ret _ _ _ _ _ E). by exists s'. }
  rewrite (bind_Ret _ _ _ _ _ (con_get s)). destruct Ha as (Hs & Hr & Hl). pose proof (ip_room _ _ Hr) as Hx.
  rewrite length_ed_all in Hx. unfold INPUT_BUF in Hx. cbn [ed_done ed_line] in Hx.
  assert ((u32 (ie (cn s) - ir (cn s)) <? INPUT_BUF) = (length dn + length line <? Z.to_nat INPUT_BUF)%nat) as ->.
  { rewrite (ip_e _ _ Hr), u32_sub_l, length_ed_all. cbn [ed_done ed_line]. rewrite u32_small by (unfold W32; lia).
    unfold INPUT_BUF. destruct (Nat.ltb_spec (length dn + length line) (Z.to_nat 128)); [apply Z.ltb_lt|apply Z.ltb_ge]; lia. }
  destruct (negb (c =? 0) && _) eqn:E4; cycle 1.
  { exists s. split_and!; [done|done|apply woke_refl]. }
  apply andb_prop in E4 as [E4 E5]. bools.
  destruct (edit_char s dn line (if c =? 13 then 10 else c)) as (s' & E & Ha' & Hs'); [done|destruct (c =? 13); lia|done|].
  rewrite (bind_Ret _ _ _ _ _ E). by exists s'.
Qed.

(** The listing only prints. *)
Definition printed (c c' : core) : Prop := ∃ o, c' = set_ck (mk_kst (kheld (ck c)) (kram (ck c)) (use_lock (ck c)) (freelist (ck c)) o) c.

Lemma printed_trans c1 c2 c3 : printed c1 c2 → printed c2 c3 → printed c1 c3.
Proof. intros (o & ->) (o' & ->). by exists o'. Qed.
Lemma printed_refl c : printed c c.
Proof. exists (kout (ck c)). by destruct c as [[] ]. Qed.

Definition prints (m : M core unit) : Prop := ∀ c, ∃ c', m c = Ret tt c' ∧ printed c c'.

Lemma prints_seq m k : prints m → prints k → prints (m;; k)%K.
Proof.
  intros Hm Hk c. destruct (Hm c) as (c1 & E1 & H1). destruct (Hk c1) as (c2 & E2 & H2).
  exists c2. rewrite (bind_Ret _ _ _ _ _ E1). split; [done|by eapply printed_trans].
Qed.
Lemma prints_gets {A} (f : core → A) k : (∀ x, prints (k x)) → prints (bind (gets f) k).
Proof. intros Hk c. apply (Hk (f c) c). Qed.
Lemma prints_ret : prints (ret tt).
Proof. intros c. exists c. split; [done|apply printed_refl]. Qed.
Lemma prints_kprintf fmt args strs : prints (kprintf fmt args strs).
Proof. intros c. eexists. split; [done|]. by eexists. Qed.

Lemma prints_pcs pcs : prints (dump_pcs pcs).
Proof.
  induction pcs as [|pc pcs IH]; cbn [dump_pcs]; [apply prints_ret|]. destruct (pc =? 0); [apply prints_ret|].
  apply prints_seq; [apply prints_kprintf|done].
Qed.

Lemma prints_dump i : prints (dump_proc i).
Proof.
  unfold dump_proc. apply prints_gets. intros p. destruct (unused p); [apply prints_ret|].
  apply prints_seq; [apply prints_kprintf|].
  assert (∀ k, (∀ x, prints (k x)) → prints (bind match parent p with Some j => pget j uid | None => ret (uid p) end k)) as Hp.
  { intros k Hk. destruct (parent p); [by apply prints_gets|apply (Hk (uid p))]. }
  apply Hp. intros pp. apply prints_seq; [apply prints_kprintf|]. apply prints_gets. intros t.
  do 3 (apply prints_seq; [apply prints_kprintf|]). apply prints_seq; [|apply prints_kprintf].
  case_bool_decide; [|apply prints_ret]. apply prints_gets. intros m. apply prints_pcs.
Qed.

Lemma prints_procdump : prints procdump.
Proof.
  unfold procdump. apply prints_seq; [apply prints_kprintf|]. apply prints_seq; [|apply prints_kprintf].
  generalize 0%nat. generalize NPROC. intros n. induction n as [|n IH]; intros i; cbn [procdump_loop]; [apply prints_ret|].
  apply prints_seq; [apply prints_dump|apply IH].
Qed.

Lemma consoleintr_loop_run l s e d :
  Forall (λ c, 0 ≤ c < 256) l → at_line s e →
  ∃ s' d', consoleintr_loop l d s = Ret d' s' ∧ at_line s' (foldl (λ e c, edit_key c e) e l) ∧ io_same (cs s) (cs s').
Proof.
  revert s e d. induction l as [|c l IH]; intros s e d Hl Ha; cbn [consoleintr_loop].
  { exists s, d. split_and!; [done|done|apply woke_refl]. }
  apply Forall_cons in Hl as [Hc Hl]. destruct (consoleintr_key_run s e c Hc Ha) as (s1 & E & Ha1 & Hs1).
  rewrite (bind_Ret _ _ _ _ _ E). destruct (IH s1 (edit_key c e) ((c =? ctrl 80) || d) Hl Ha1) as (s2 & d' & E2 & Ha2 & Hs2).
  exists s2, d'. split_and!; [done|done|by eapply woke_trans].
Qed.

(** C38: the console is a line editor: whatever characters arrive, consoleintr
    leaves in the input ring what [edit_key] makes of them one after the other:
    the finished input in order for consoleread, and the line being edited,
    with backspace, kill line and a full buffer; it never overwrites input
    that was not read, keeps the cursor on the screen, and holds no lock
    afterwards. *)
Theorem consoleintr_edits l s e :
  Forall (λ c, 0 ≤ c < 256) l → on_screen (cn s) → input_rel (cn s) e → held (io_core (cs s)) = [] →
  ∃ s', consoleintr l s = Ret tt s' ∧ input_rel (cn s') (foldl (λ e c, edit_key c e) e l) ∧ on_screen (cn s') ∧
    held (io_core (cs s')) = [].
Proof.
  intros Hl Hs Hr Hh. unfold consoleintr.
  erewrite bind_Ret; [|apply cio_Ret, pacquire_ok; rewrite Hh; apply not_elem_of_nil]. rewrite Hh.
  set (s1 := set_cs _ s). destruct (consoleintr_loop_run l s1 e false Hl) as (s2 & d & E2 & (Hs2 & Hr2 & _) & Hw2).
  { split_and!; [done|done|]. unfold s1. cbn [cs set_cs]. rewrite io_get_set. cbn. set_solver. }
  rewrite (bind_Ret _ _ _ _ _ E2). clear E2.
  assert (held (io_core (cs s2)) = [Lcons]) as Hh2.
  { rewrite (woke_held _ _ Hw2). unfold s1. cbn [cs set_cs]. by rewrite io_get_set. }
  erewrite bind_Ret; [|by apply cio_Ret, (prelease_ok _ _ [])]. set (s3 := set_cs _ s2).
  assert (held (io_core (cs s3)) = []) as Hh3 by (unfold s3; cbn [cs set_cs]; by rewrite io_get_set).
  destruct d; [|by exists s3].
  destruct (prints_procdump (io_core (cs s3))) as (c & E & o & ->). eexists. split; [apply cio_Ret, E|].
  cbn [cn set_cs cs]. split_and!; [done|done|]. by rewrite io_get_set.
Qed.

End editing.

(** ** Witnesses *)

Definition ex_con : con := mk_con 0 1 (λ _, 0) 160 [] (replicate 128 0) 4294967295 4294967295 4294967295 0.

Lemma console_output_safe_witness :
  ∃ s', consputs [104; 105; 10] ex_con = Ret tt s' ∧ crt_pos s' = 240 ∧ uart_out s' = [104; 105; 10].
Proof.
  destruct (console_output_safe [104; 105; 10] ex_con) as (s' & E & _ & Hp & Hu).
  - split; [reflexivity|cbn; lia].
  - exists s'. split_and!; [exact E|exact Hp|exact Hu].
Defined.

Lemma consoleintr_edits_witness :
  ∃ s' : cst lst, consoleintr (HB := log_io 1) [108; 120; 8; 115; 13; 112] (mk_cst ex_boot ex_con) = Ret tt s' ∧
    input_rel (cn s') (mk_ed [108; 115; 10] [112]).
Proof.
  destruct (consoleintr_edits (HB := log_io 1) (HS := log_block_spec 0) [108; 120; 8; 115; 13; 112] (mk_cst ex_boot ex_con) (mk_ed [] []))
    as (s' & E & Hr & _).
  - repeat constructor; lia.
  - split; [reflexivity|cbn; lia].
  - split.
    + reflexivity.
    + cbn. unfold W32. lia.
    + reflexivity.
    + reflexivity.
    + cbn. unfold INPUT_BUF. lia.
    + apply not_elem_of_nil.
    + intros k x Hk. discriminate Hk.
  - reflexivity.
  - exists s'. split; [exact E|exact Hr].
Defined.
