(* ===== verification/User.v ===== *)
(** * User programs: system calls, library and formatted output (user.h, ulib.c, printf.c)

    A user program is a computation over the state [S] of the rest of the
    system, which it changes only by system calls.  [Sys] is the interface of
    user.h; [Stream] states what the programs below rely on when they read from
    and write to descriptors.  fork takes the program of the child; exit
    is an outcome of its own.  A C string is the list of its bytes without the
    terminating NUL, and a pointer into it is a suffix.

    The theorems: printf writes the formatted text; atoi reads back what
    printf prints for an int; gets reads one line. *)
From S2P Require Import Prelude Kernel CString Format Proc Fs Sysproc.

Local Open Scope Z_scope.
Local Open Scope kernel_scope.

(** ** System calls (user.h) *)

(** read gives the bytes it stored, None for -1; pipe the two descriptors. *)
Class Sys (S : Type) := {
  u_fork : M S unit → M S Z;
  u_wait : M S Z;
  u_pipe : M S (option (Z * Z));
  u_write : Z → list Z → M S Z;
  u_read : Z → Z → M S (option (list Z));
  u_close : Z → M S Z;
  u_kill : Z → M S Z;
  u_exec : list Z → list (list Z) → M S Z;
  u_open : list Z → Z → M S Z;
  u_mknod : list Z → Z → Z → M S Z;
  u_unlink : list Z → M S Z;
  u_fstat : Z → M S (option fstat);
  u_link : list Z → list Z → M S Z;
  u_mkdir : list Z → M S Z;
  u_chdir : list Z → M S Z;
  u_dup : Z → M S Z;
  u_uptime : M S Z;
  u_halt : M S Z;
  u_date : M S (option rtcdate);
  u_getuid : M S Z;
  u_getgid : M S Z;
  u_setuid : Z → M S Z;
  u_setgid : Z → M S Z;
  u_getprocs : Z → M S (Z * list uproc)
}.

Definition u_exit {S A} : M S A := panic "exit".

(** What a program sees of the file, pipe or device it reads with descriptor
    [fd] and of the descriptor [fd'] it writes to: read gives some of the next
    bytes, at least one and at most as many as asked for, and nothing at the end;
    write takes everything. *)
Class Stream (S : Type) `{Sys S} (fd fd' : Z) := {
  inp : S → list Z;
  out : S → list Z;
  read_next n s : 0 < n →
    ∃ d s', u_read fd n s = Ret (Some d) s' ∧ inp s = d ++ inp s' ∧ Z.of_nat (length d) ≤ n ∧ (d = [] → inp s = []) ∧ out s' = out s;
  write_all l s :
    ∃ s', u_write fd' l s = Ret (Z.of_nat (length l)) s' ∧ inp s' = inp s ∧ out s' = out s ++ l
}.

(** Reads that stop early only after a newline.  Reads of a file do not stop
    early (readi); a read of the console stops at the end of a line, unless the line
    fills the console's buffer or is ended by control-D. *)
Class LineReads (S : Type) `{Sys S} (fd fd' : Z) `{!Stream S fd fd'} := {
  read_lines n s d s' : 0 < n → u_read fd n s = Ret (Some d) s' →
    Z.of_nat (length d) = n ∨ inp s' = [] ∨ last d = Some 10
}.

(** ** ulib.c *)

Fixpoint strcmp (p q : list Z) : Z :=
  match p, q with
  | a :: p', b :: q' => if a =? b then strcmp p' q' else u8 a - u8 b
  | a :: _, [] => u8 a
  | [], b :: _ => - u8 b
  | [], [] => 0
  end.

(** strchr: the suffix that starts with the character. *)
Fixpoint strchr (s : list Z) (c : Z) : option (list Z) :=
  match s with
  | [] => None
  | x :: s' => if x =? c then Some s else strchr s' c
  end.

Fixpoint skip_blanks (s : list Z) : list Z :=
  match s with
  | c :: s' => if c =? 32 then skip_blanks s' else s
  | [] => []
  end.

(** The digit loops of atoi and atoo, on 32-bit integers. *)
Fixpoint ato_loop (base top n : Z) (s : list Z) : Z :=
  match s with
  | c :: s => if (48 <=? c) && (c <=? top) then ato_loop base top (s32 (n * base + c - 48)) s else n
  | [] => n
  end.

Definition ato (base top : Z) (s : list Z) : Z :=
  let s := skip_blanks s in
  let c := default 0 (head s) in
  let sign := if c =? 45 then -1 else 1 in
  let s := if (c =? 43) || (c =? 45) then tail s else s in
  s32 (sign * ato_loop base top 0 s).

Definition atoi (s : list Z) : Z := ato 10 57 s.
Definition atoo (s : list Z) : Z := ato 8 55 s.

(** memmove of ulib.c copies upwards only. *)
Definition umemmove (m : mem) (vdst vsrc n : Z) : mem := move_up m vdst vsrc (Z.to_nat n).

Fixpoint strcpy (fuel : nat) (m : mem) (s t : Z) : option mem :=
  match fuel with
  | O => None
  | S k => let c := m t in let m := <[s := c]> m in if c =? 0 then Some m else strcpy k m (s + 1) (t + 1)
  end.

Fixpoint ustrlen_loop (fuel : nat) (m : mem) (s n : Z) : option Z :=
  match fuel with
  | O => None
  | S k => if m (s + n) =? 0 then Some n else ustrlen_loop k m s (n + 1)
  end.
Definition ustrlen (fuel : nat) (m : mem) (s : Z) : option Z := ustrlen_loop fuel m s 0.

Definition umemset (m : mem) (dst c n : Z) : mem := stosb m dst c (Z.to_nat n).

Section ulib.
  Context {S : Type} `{Sys S}.

(** gets: the characters stored before the NUL. *)
Fixpoint gets_loop (n : nat) : M S (list Z) :=
  match n with
  | O => ret []
  | Datatypes.S n =>
      r <- u_read 0 1;;
      match r with
      | Some (c :: _) =>
          if (c =? 10) || (c =? 13) then ret [c]
          else l <- gets_loop n;; ret (c :: l)
      | _ => ret []
      end
  end.

Definition ugets (max : Z) : M S (list Z) := gets_loop (Z.to_nat (max - 1)).

Definition stat (n : list Z) : M S (option fstat) :=
  fd <- u_open n 0;;
  if fd <? 0 then ret None
  else r <- u_fstat fd;; u_close fd;; ret r.

(** ** printf.c *)

Definition putc (fd c : Z) : M S unit := u_write fd [u8 c];; ret tt.

Fixpoint puts (fd : Z) (l : list Z) : M S unit :=
  match l with
  | [] => ret tt
  | c :: l => putc fd c;; puts fd l
  end.

Definition upper_digits : list Z := chars "0123456789ABCDEF".

Definition int_text (xx base : Z) (sgn : bool) : list Z :=
  let neg := sgn && (xx <? 0) in
  let x := if neg then u32 (- xx) else u32 xx in
  reverse (int_digits 16 upper_digits x base ++ if neg then [45] else []).

Definition uprintint (fd xx base : Z) (sgn : bool) : M S unit := puts fd (int_text xx base sgn).

(** The arguments after the format; a null pointer is [AStr None]. *)
Inductive parg := AInt (x : Z) | AStr (s : option (list Z)).

Definition arg_int (a : option parg) : Z := match a with Some (AInt x) => x | _ => 0 end.
Definition arg_str (a : option parg) : option (list Z) := match a with Some (AStr s) => s | _ => None end.

(** [pct] is the state '%' of the loop. *)
Fixpoint printf_loop (fd : Z) (pct : bool) (fmt : list Z) (ap : list parg) : M S unit :=
  match fmt with
  | [] => ret tt
  | c :: fmt =>
      let c := Z.land c 255 in
      if negb pct then
        if c =? 37 then printf_loop fd true fmt ap else putc fd c;; printf_loop fd false fmt ap
      else if c =? 100 then
        uprintint fd (s32 (arg_int (head ap))) 10 true;; printf_loop fd false fmt (tail ap)
      else if (c =? 120) || (c =? 112) then
        uprintint fd (s32 (arg_int (head ap))) 16 false;; printf_loop fd false fmt (tail ap)
      else if c =? 115 then
        puts fd (default (chars "(null)") (arg_str (head ap)));; printf_loop fd false fmt (tail ap)
      else if c =? 99 then
        putc fd (arg_int (head ap));; printf_loop fd false fmt (tail ap)
      else if c =? 37 then
        putc fd c;; printf_loop fd false fmt ap
      else
        putc fd 37;; putc fd c;; printf_loop fd false fmt ap
  end.

Definition printf (fd : Z) (fmt : list Z) (ap : list parg) : M S unit := printf_loop fd false fmt ap.

End ulib.

(** ** Numbers *)

Lemma s32_ext a b : u32 a = u32 b → s32 a = s32 b.
Proof. intros E. by rewrite <- (s32_u32 a), E, s32_u32. Qed.

Lemma ato_loop_digits n l :
  Forall (λ c, 48 ≤ c ≤ 57) l → ato_loop 10 57 (s32 n) l = s32 (decimal n l).
Proof.
  intros Hl. revert n. induction Hl as [|c l Hc Hl IH]; intros n; cbn [ato_loop decimal]; [done|].
  rewrite (proj2 (Z.leb_le 48 c)), (proj2 (Z.leb_le c 57)) by lia. cbn [andb]. rewrite <- IH. f_equal. apply s32_ext.
  rewrite <- Z.add_sub_assoc, <- u32_add_l. unfold u32 at 2. rewrite Zmult_mod. fold (u32 (s32 n)). rewrite u32_s32.
  unfold u32. rewrite <- Zmult_mod, Zplus_mod_idemp_l. f_equal. lia.
Qed.

Lemma upper_digits_decimal i : 0 ≤ i < 10 → upper_digits !! Z.to_nat i = Some (48 + i).
Proof.
  intros. assert (i = 0 ∨ i = 1 ∨ i = 2 ∨ i = 3 ∨ i = 4 ∨ i = 5 ∨ i = 6 ∨ i = 7 ∨ i = 8 ∨ i = 9) as Hi by lia.
  by destruct_or! Hi; subst.
Qed.

Lemma skip_digits l : Forall (λ c, 48 ≤ c ≤ 57) l → l ≠ [] →
  skip_blanks l = l ∧ ∃ c l', l = c :: l' ∧ c ≠ 45 ∧ c ≠ 43.
Proof.
  intros Hl Hn. destruct Hl as [|c l Hc Hl]; [done|]. cbn [skip_blanks].
  rewrite (proj2 (Z.eqb_neq c 32)) by lia. split; [done|]. exists c, l. split; [done|lia].
Qed.

Lemma atoi_int_text x : -2147483648 ≤ x < 2147483648 → atoi (int_text x 10 true) = x.
Proof.
  intros Hx. unfold int_text. cbn [andb]. set (y := if x <? 0 then u32 (- x) else u32 x).
  assert (0 ≤ y < 4294967296) as Hy by (unfold y; destruct (x <? 0); apply u32_range).
  destruct (int_digits_decimal 15 upper_digits y) as (Hv & Hd & Hn);
    [apply upper_digits_decimal|split; [lia|]; eapply Z.lt_trans; [apply Hy|reflexivity]|].
  rewrite reverse_app. set (l := reverse (int_digits 16 _ _ _)) in *.
  destruct (skip_digits l Hd Hn) as (Hs & c & l' & El & Hc1 & Hc2). unfold atoi, ato. subst y.
  pose proof (ato_loop_digits 0 l Hd) as Ed. change (s32 0) with 0 in Ed. rewrite Hv in Ed.
  destruct (x <? 0) eqn:Ex; bools; change (reverse (@nil Z)) with (@nil Z).
  - change (reverse [45]) with [45]. cbn [app skip_blanks Z.eqb Pos.eqb]. cbn [head tail default id Z.eqb Pos.eqb orb].
    rewrite Ed, s32_u32. assert (u32 (-1 * s32 (- x)) = u32 x) as E; [|rewrite <- s32_u32, E, s32_u32; by apply s32_small].
    unfold u32. rewrite Zmult_mod. fold (u32 (s32 (- x))). rewrite u32_s32. unfold u32. rewrite <- Zmult_mod. f_equal. lia.
  - cbn [app]. rewrite Hs. rewrite El at 1 2 3. cbn [head default id]. rewrite !(proj2 (Z.eqb_neq c _)) by done. cbn [orb].
    rewrite Ed, s32_u32, Z.mul_1_l. rewrite (s32_small x) by done. by apply s32_small.
Qed.

(** ** Output *)

(** The text printf prints. *)
Fixpoint uformat (pct : bool) (fmt : list Z) (ap : list parg) : list Z :=
  match fmt with
  | [] => []
  | c :: fmt =>
      let c := Z.land c 255 in
      if negb pct then if c =? 37 then uformat true fmt ap else c :: uformat false fmt ap
      else if c =? 100 then int_text (s32 (arg_int (head ap))) 10 true ++ uformat false fmt (tail ap)
      else if (c =? 120) || (c =? 112) then int_text (s32 (arg_int (head ap))) 16 false ++ uformat false fmt (tail ap)
      else if c =? 115 then default (chars "(null)") (arg_str (head ap)) ++ uformat false fmt (tail ap)
      else if c =? 99 then arg_int (head ap) :: uformat false fmt (tail ap)
      else if c =? 37 then c :: uformat false fmt ap
      else 37 :: c :: uformat false fmt ap
  end.

Section stream.
  Context {S : Type} {Sy : Sys S} {fd fd' : Z} {St : @Stream S Sy fd fd'}.

(** [m] writes [l] and nothing else happens. *)
Definition writes (m : M S unit) (l : list Z) : Prop :=
  ∀ s, ∃ s', m s = Ret tt s' ∧ inp s' = inp s ∧ out s' = out s ++ l.

Lemma writes_ret : writes (ret tt) [].
Proof. intros s. exists s. by rewrite app_nil_r. Qed.

Lemma writes_seq m k l l' : writes m l → writes k l' → writes (m;; k) (l ++ l').
Proof.
  intros Hm Hk s. destruct (Hm s) as (s1 & E & Hi & Ho). destruct (Hk s1) as (s2 & E2 & Hi2 & Ho2).
  exists s2. rewrite (bind_Ret _ _ _ _ _ E). by rewrite Hi2, Ho2, Ho, Hi, app_assoc.
Qed.

Lemma writes_write l : writes (u_write fd' l;; ret tt) l.
Proof. intros s. destruct (write_all l s) as (s' & E & H). exists s'. by rewrite (bind_Ret _ _ _ _ _ E). Qed.

Lemma writes_puts l : writes (puts fd' l) (u8 <$> l).
Proof.
  induction l as [|c l IH]; cbn [puts fmap list_fmap]; [apply writes_ret|].
  apply (writes_seq (putc fd' c) _ [u8 c]); [apply writes_write|exact IH].
Qed.

Lemma writes_printf pct fmt ap : writes (printf_loop fd' pct fmt ap) (u8 <$> uformat pct fmt ap).
Proof.
  revert pct ap. induction fmt as [|c fmt IH]; intros pct ap; cbn [printf_loop uformat]; [apply writes_ret|].
  repeat case_test; rewrite ?fmap_app; cbn [fmap list_fmap]; try apply IH;
    try (apply writes_seq; [apply writes_puts|apply IH]);
    try (apply (writes_seq _ _ [_]); [apply writes_write|apply IH]).
  apply (writes_seq _ _ [_]); [apply writes_write|]. apply (writes_seq _ _ [_]); [apply writes_write|apply IH].
Qed.

(** Numbers are printed in bytes. *)
Lemma upper_digit_byte i : u8 (default 0 (upper_digits !! i)) = default 0 (upper_digits !! i).
Proof. do 16 (destruct i as [|i]; [reflexivity|]). reflexivity. Qed.

Lemma int_digits_bytes n x base : u8 <$> int_digits n upper_digits x base = int_digits n upper_digits x base.
Proof.
  revert x. induction n as [|n IH]; intros x; cbn [int_digits fmap list_fmap]; [done|].
  rewrite upper_digit_byte. f_equal. destruct (x / base =? 0); [done|apply IH].
Qed.

Lemma int_text_bytes x base sgn : u8 <$> int_text x base sgn = int_text x base sgn.
Proof. unfold int_text. rewrite fmap_reverse, fmap_app, int_digits_bytes. by destruct (sgn && (x <? 0)). Qed.

(** C35: What printf prints for %d reads back with atoi, for every int. *)
Theorem printf_atoi x s :
  -2147483648 ≤ x < 2147483648 →
  ∃ s' l, printf fd' (chars "%d") [AInt x] s = Ret tt s' ∧ out s' = out s ++ l ∧ inp s' = inp s ∧ atoi l = x.
Proof.
  intros Hx. destruct (writes_printf false (chars "%d") [AInt x] s) as (s' & E & Hi & Ho).
  exists s', (int_text x 10 true). split; [exact E|]. split; [|split; [done|by apply atoi_int_text]].
  rewrite Ho. f_equal. change (uformat _ _ _) with (int_text (s32 x) 10 true ++ []).
  rewrite app_nil_r, int_text_bytes. by rewrite s32_small.
Qed.

End stream.

(** A system with one file to read and one to write, for the examples. *)
#[export] Instance ex_sys : Sys (list Z * list Z) := {
  u_fork _ := ret (-1);
  u_wait := ret (-1);
  u_pipe := ret None;
  u_write fd l s := Ret (Z.of_nat (length l)) (s.1, s.2 ++ l);
  u_read fd n s := Ret (Some (take (Z.to_nat n) s.1)) (drop (Z.to_nat n) s.1, s.2);
  u_close _ := ret 0;
  u_kill _ := ret (-1);
  u_exec _ _ := ret (-1);
  u_open _ _ := ret 3;
  u_mknod _ _ _ := ret (-1);
  u_unlink _ := ret (-1);
  u_fstat _ := ret None;
  u_link _ _ := ret (-1);
  u_mkdir _ := ret (-1);
  u_chdir _ := ret (-1);
  u_dup _ := ret (-1);
  u_uptime := ret 0;
  u_halt := ret 0;
  u_date := ret None;
  u_getuid := ret 0;
  u_getgid := ret 0;
  u_setuid _ := ret (-1);
  u_setgid _ := ret (-1);
  u_getprocs _ := ret (-1, [])
}.

#[export] Instance ex_stream fd fd' : Stream (list Z * list Z) fd fd'.
Proof.
  refine {| inp := fst; out := snd |}.
  - intros n s Hn. eexists _, _. split; [reflexivity|]. cbn [fst snd]. rewrite take_drop, length_take. split_and!; [done|lia| |done].
    destruct s.1 as [|x l]; [done|]. destruct (Z.to_nat n) eqn:E; [lia|done].
  - intros l s. eexists. split; [reflexivity|]. done.
Defined.

#[export] Instance ex_lines fd fd' : LineReads (list Z * list Z) fd fd'.
Proof.
  split. intros n s d s' Hn [= <- <-]. cbn. rewrite length_take.
  destruct (decide (Z.to_nat n ≤ length s.1)%nat); [left; lia|right; left]. apply drop_ge. lia.
Qed.

Lemma printf_atoi_witness :
  ∃ s' l, printf 1 (chars "%d") [AInt (-2147483648)] ([], []) = Ret tt s' ∧ s'.2 = l ∧ atoi l = -2147483648.
Proof.
  destruct (printf_atoi (fd := 0) (fd' := 1) (-2147483648) ([], [])) as (s' & l & E & Ho & _ & Ha); [lia|].
  exists s', l. split; [exact E|]. split; [exact Ho|exact Ha].
Defined.
