(* ===== verification/Grep.v ===== *)
(** * grep (grep.c)

    The pattern matcher with ^ . * $ and the loop that cuts the input into
    lines with a buffer of 1024 bytes.

    [items] reads a pattern as a sequence of items, each a character or a dot,
    possibly starred, with anchors at both ends, and [lang] is the set of
    strings the items stand for.  The theorems: match finds a substring in that
    set at the places the anchors allow; grep prints the matching lines of a
    file, in order, if no line is too long for the buffer. *)
From S2P Require Import Prelude Kernel Format User.

Local Open Scope Z_scope.
Local Open Scope kernel_scope.

(** ** The matcher *)

(** matchstar, [here] the search for the rest of the pattern. *)
Fixpoint matchstar (here : list Z → bool) (c : Z) (text : list Z) : bool :=
  if here text then true
  else match text with
       | [] => false
       | x :: text => if (x =? c) || (c =? 46) then matchstar here c text else false
       end.

Fixpoint matchhere (re text : list Z) : bool :=
  match re with
  | [] => true
  | c :: re1 =>
      let char :=
        if (c =? 36) && bool_decide (re1 = []) then bool_decide (text = [])
        else match text with
             | x :: text => if (c =? 46) || (c =? x) then matchhere re1 text else false
             | [] => false
             end in
      match re1 with
      | d :: re2 => if d =? 42 then matchstar (matchhere re2) c text else char
      | [] => char
      end
  end.

(** The loop of match over the suffixes of the text. *)
Fixpoint match_from (re text : list Z) : bool :=
  if matchhere re text then true
  else match text with
       | [] => false
       | _ :: text => match_from re text
       end.

Definition gmatch (re text : list Z) : bool :=
  match re with
  | c :: re1 => if c =? 94 then matchhere re1 text else match_from re text
  | [] => match_from re text
  end.

(** ** The loop over the input *)

(** strchr(p, '\n'): the line and what follows it; the search stops at a NUL. *)
Fixpoint next_line (p : list Z) : option (list Z * list Z) :=
  match p with
  | [] => None
  | c :: p =>
      if c =? 0 then None
      else if c =? 10 then Some ([], p)
      else match next_line p with
           | Some (l, q) => Some (c :: l, q)
           | None => None
           end
  end.

Definition BUFSZ : Z := 1024.

Section grep.
  Context {S : Type} {Sy : Sys S}.

(** The lines in the buffer; the result is where [p] ends up. *)
Fixpoint grep_lines (n : nat) (re p : list Z) : M S (list Z) :=
  match n with
  | O => ret p
  | Datatypes.S n =>
      match next_line p with
      | None => ret p
      | Some (line, q) =>
          when (gmatch re line) do (u_write 1 (line ++ [10]);; ret tt);;
          grep_lines n re q
      end
  end.

(** [buf] are the [m] bytes kept from the last round. *)
Fixpoint grep (fuel : nat) (re : list Z) (fd : Z) (buf : list Z) : M S unit :=
  match fuel with
  | O => nofuel
  | Datatypes.S fuel =>
      d <- u_read fd (BUFSZ - Z.of_nat (length buf) - 1);;
      match d with
      | Some (x :: d) =>
          let buf := buf ++ x :: d in
          p <- grep_lines (length buf) re buf;;
          grep fuel re fd (if bool_decide (length p = length buf) then [] else p)
      | _ => ret tt
      end
  end.

Fixpoint grep_files (fuel : nat) (re : list Z) (files : list (list Z)) : M S unit :=
  match files with
  | [] => ret tt
  | f :: files =>
      fd <- u_open f 0;;
      when (fd <? 0) do (printf 1 (chars "grep: cannot open %s" ++ [10]) [AStr (Some f)];; u_exit);;
      grep fuel re fd [];;
      u_close fd;;
      grep_files fuel re files
  end.

Definition grep_main (fuel : nat) (argv : list (list Z)) : M S unit :=
  match argv with
  | _ :: re :: files =>
      match files with
      | [] => grep fuel re 0 [];; u_exit
      | _ => grep_files fuel re files;; u_exit
      end
  | _ => printf 2 (chars "usage: grep pattern [file ...]" ++ [10]) [];; u_exit
  end.

End grep.

(** ** What a pattern means *)

Record item := mk_item { ichar : Z; istar : bool }.

(** The items of a pattern without the leading ^, and whether it ends in $. *)
Fixpoint items (re : list Z) : list item * bool :=
  match re with
  | [] => ([], false)
  | c :: re1 =>
      let char := if (c =? 36) && bool_decide (re1 = []) then ([], true)
                  else let '(l, e) := items re1 in (mk_item c false :: l, e) in
      match re1 with
      | d :: re2 => if d =? 42 then let '(l, e) := items re2 in (mk_item c true :: l, e) else char
      | [] => char
      end
  end.

Definition accepts (c x : Z) : Prop := c = 46 ∨ c = x.

(** The strings a sequence of items stands for. *)
Fixpoint lang (l : list item) (w : list Z) : Prop :=
  match l with
  | [] => w = []
  | mk_item c false :: l => ∃ x v, w = x :: v ∧ accepts c x ∧ lang l v
  | mk_item c true :: l => ∃ u v, w = u ++ v ∧ Forall (accepts c) u ∧ lang l v
  end.

(** The pattern matches at the beginning of the text. *)
Definition matches_here (re text : list Z) : Prop :=
  let '(l, e) := items re in ∃ w rest, text = w ++ rest ∧ lang l w ∧ (e = true → rest = []).

(** The pattern matches somewhere in the text. *)
Definition matches (re text : list Z) : Prop :=
  if bool_decide (head re = Some 94) then matches_here (tail re) text
  else ∃ before here, text = before ++ here ∧ matches_here re here.

Lemma matchstar_spec here c text :
  matchstar here c text = true ↔ ∃ u v, text = u ++ v ∧ Forall (accepts c) u ∧ here v = true.
Proof.
  induction text as [|x text IH]; cbn [matchstar].
  - destruct (here []) eqn:E; split; try done.
    + intros _. by exists [], [].
    + intros (u & v & Eu & _ & Hv). symmetry in Eu. apply app_eq_nil in Eu as [-> ->]. congruence.
  - destruct (here (x :: text)) eqn:E.
    { split; [|done]. intros _. by exists [], (x :: text). }
    destruct ((x =? c) || (c =? 46)) eqn:Ec; [rewrite IH|]; split.
    + intros (u & v & -> & Hu & Hv). exists (x :: u), v. split_and!; try done. constructor; [|done]. unfold accepts. bools; lia.
    + intros (u & v & Eu & Hu & Hv). destruct u as [|y u]; [cbn in Eu; congruence|]. injection Eu as <- Eu.
      inversion Hu; subst. eauto.
    + done.
    + intros (u & v & Eu & Hu & Hv). destruct u as [|y u]; [cbn in Eu; congruence|]. injection Eu as <- Eu.
      inversion Hu; subst. unfold accepts in *. bools. lia.
Qed.

(** A plain character. *)
Lemma matchhere_char c re text :
  (∀ text, matchhere re text = true ↔ matches_here re text) →
  (if (c =? 36) && bool_decide (re = []) then bool_decide (text = [])
   else match text with x :: text => if (c =? 46) || (c =? x) then matchhere re text else false | [] => false end) = true ↔
  let '(l, e) := if (c =? 36) && bool_decide (re = []) then ([], true) else let '(l, e) := items re in (mk_item c false :: l, e) in
  ∃ w rest, text = w ++ rest ∧ lang l w ∧ (e = true → rest = []).
Proof.
  intros IH. destruct ((c =? 36) && bool_decide (re = [])) eqn:E.
  - rewrite bool_decide_eq_true. split.
    + intros ->. by exists [], [].
    + intros (w & rest & -> & Hw & Hr). cbn in Hw. subst. by rewrite Hr.
  - clear E. unfold matches_here in IH. destruct (items re) as [l e]. destruct text as [|x text].
    + split; [done|]. intros (w & rest & Ew & (y & v & -> & _) & _). done.
    + destruct ((c =? 46) || (c =? x)) eqn:Ec; [rewrite IH|]; split.
      * intros (w & rest & -> & Hl & He). exists (x :: w), rest. split_and!; try done. exists x, w. split_and!; try done.
        unfold accepts. bools; lia.
      * intros (w & rest & Ew & (y & v & -> & Ha & Hl) & He). injection Ew as -> ->. eauto.
      * done.
      * intros (w & rest & Ew & (y & v & -> & Ha & Hl) & He). injection Ew as -> ->. unfold accepts in Ha. bools. lia.
Qed.

Lemma matchhere_spec re text : matchhere re text = true ↔ matches_here re text.
Proof.
  revert text. induction re as [re IH] using (induction_ltof1 _ length). unfold ltof in IH. intros text.
  destruct re as [|c re]; [split; [intros _; by exists [], text|done]|].
  unfold matches_here. cbn [matchhere items]. destruct re as [|d re].
  { apply matchhere_char. intros. apply IH. cbn. lia. }
  destruct (d =? 42) eqn:Ed; [|apply (matchhere_char c (d :: re)); intros; apply IH; cbn; lia].
  rewrite matchstar_spec. assert (∀ text, matchhere re text = true ↔ matches_here re text) as IH' by (intros; apply IH; cbn; lia).
  unfold matches_here in IH'. destruct (items re) as [l e]. split.
  - intros (u & v & -> & Hu & (w & rest & -> & Hl & He)%IH'). exists (u ++ w), rest. rewrite app_assoc. split_and!; try done. by exists u, w.
  - intros (w & rest & -> & (u & v & -> & Hu & Hl) & He). exists u, (v ++ rest). rewrite app_assoc. split_and!; try done.
    apply IH'. eauto.
Qed.

Lemma match_from_spec re text : match_from re text = true ↔ ∃ before here, text = before ++ here ∧ matches_here re here.
Proof.
  induction text as [|x text IH]; cbn [match_from].
  - destruct (matchhere re []) eqn:E; split; try done.
    + intros _. exists [], []. by rewrite <- matchhere_spec.
    + intros (b & h & Eh & Hh). symmetry in Eh. apply app_eq_nil in Eh as [-> ->]. apply matchhere_spec in Hh. congruence.
  - destruct (matchhere re (x :: text)) eqn:E; [|rewrite IH]; split; try done.
    + intros _. exists [], (x :: text). by rewrite <- matchhere_spec.
    + intros (b & h & -> & Hh). by exists (x :: b), h.
    + intros (b & h & Eh & Hh). destruct b as [|y b]; [cbn in Eh; subst h; apply matchhere_spec in Hh; congruence|].
      injection Eh as <- ->. eauto.
Qed.

(** C19: match accepts a text exactly when a part of it is in the language of the
    pattern: a part at the beginning if the pattern starts with ^, and at the
    end if it ends with $. *)
Theorem gmatch_correct re text : gmatch re text = true ↔ matches re text.
Proof.
  unfold gmatch, matches. destruct re as [|c re]; cbn [head tail]; [apply match_from_spec|].
  destruct (c =? 94) eqn:E; bools.
  - rewrite bool_decide_eq_true_2 by congruence. apply matchhere_spec.
  - rewrite bool_decide_eq_false_2 by congruence. apply match_from_spec.
Qed.

(** ** The lines grep prints *)

Definition with_nl (l : list Z) : list Z := l ++ [10].

(** Text made of complete lines and a rest without newline. *)
Definition text_of (ls : list (list Z)) (rest : list Z) : list Z := concat (with_nl <$> ls) ++ rest.

Definition selected (re : list Z) (ls : list (list Z)) : list Z := concat (with_nl <$> filter (λ l, gmatch re l = true) ls).

Definition line (l : list Z) : Prop := 0 ∉ l ∧ 10 ∉ l.

Lemma text_of_cons l ls rest : text_of (l :: ls) rest = l ++ 10 :: text_of ls rest.
Proof. unfold text_of, with_nl. cbn. by rewrite <- !app_assoc. Qed.

Lemma next_line_line l q : line l → next_line (l ++ 10 :: q) = Some (l, q).
Proof.
  intros [H0 H10]. induction l as [|c l IH]; cbn [app next_line]; [done|].
  rewrite !not_elem_of_cons in *. rewrite !(proj2 (Z.eqb_neq c _)) by (intros ->; tauto).
  by rewrite IH by tauto.
Qed.

Lemma next_line_none p : 10 ∉ p → next_line p = None.
Proof.
  induction p as [|c p IH]; cbn [next_line]; [done|]. rewrite not_elem_of_cons. intros [H1 H2].
  destruct (c =? 0); [done|]. rewrite (proj2 (Z.eqb_neq c 10)) by congruence. by rewrite IH.
Qed.

Lemma not_in_take (x : Z) k l : x ∉ l → x ∉ take k l.
Proof. rewrite <- (take_drop k l) at 1. rewrite not_elem_of_app. tauto. Qed.

(** Cutting a text after [k] bytes. *)
Lemma text_cut k ls rest : 10 ∉ rest → Forall line ls →
  ∃ ls1 ls2 p, ls = ls1 ++ ls2 ∧ take k (text_of ls rest) = text_of ls1 p ∧ 10 ∉ p ∧
    p ++ drop k (text_of ls rest) = text_of ls2 rest.
Proof.
  intros Hr Hl. revert k. induction Hl as [|l ls [Hl0 Hl] Hls IH]; intros k.
  - exists [], [], (take k rest). split_and!; try done; [by apply not_in_take|by cbn; rewrite take_drop].
  - rewrite text_of_cons. destruct (decide (k ≤ length l)%nat) as [Hk|Hk].
    + exists [], (l :: ls), (take k l). split_and!; [done| |by apply not_in_take|].
      * unfold text_of at 2. cbn. rewrite take_app_le by done. done.
      * rewrite drop_app_le by done. rewrite app_assoc, take_drop. by rewrite text_of_cons.
    + destruct (IH (k - length l - 1)%nat) as (ls1 & ls2 & p & -> & Et & Hp & Ed). exists (l :: ls1), ls2, p.
      rewrite take_app_ge, drop_app_ge by lia. replace (k - length l)%nat with (S (k - length l - 1)) by lia. cbn [take drop].
      split_and!; try done. rewrite text_of_cons. by rewrite Et.
Qed.

Section grep_spec.
  Context {S : Type} {Sy : Sys S} {fd : Z} {St : @Stream S Sy fd 1} {Sl : @LineReads S Sy fd 1 St}.

Lemma grep_lines_run n re ls p s : (length ls ≤ n)%nat → Forall line ls → 10 ∉ p →
  ∃ s', grep_lines n re (text_of ls p) s = Ret p s' ∧ inp s' = inp s ∧ out s' = out s ++ selected re ls.
Proof.
  intros Hn Hls Hp. revert n s Hn. induction Hls as [|l ls Hl Hls IH]; intros n s Hn.
  - exists s. rewrite app_nil_r. destruct n as [|n]; [done|]. cbn [grep_lines]. change (text_of [] p) with p.
    by rewrite next_line_none by done.
  - destruct n as [|n]; [cbn in Hn; lia|]. cbn [grep_lines]. rewrite text_of_cons, next_line_line by done.
    unfold selected. rewrite filter_cons. destruct (gmatch re l) eqn:Em.
    + rewrite decide_True by done. destruct (writes_write (with_nl l) s) as (s1 & E & Hi & Ho). unfold with_nl in E. rewrite (bind_Ret _ _ _ _ _ E).
      destruct (IH n s1) as (s2 & E2 & Hi2 & Ho2); [cbn in Hn; lia|]. exists s2. rewrite E2, Hi2, Ho2, Ho. cbn. by rewrite app_assoc.
    + rewrite decide_False by done. unfold bind at 1, ret at 1. cbn [obind]. apply IH. cbn in Hn; lia.
Qed.

Lemma text_of_length ls p : (length ls + length p ≤ length (text_of ls p))%nat.
Proof. induction ls as [|l ls IH]; [done|]. rewrite text_of_cons, length_app. cbn. lia. Qed.

Lemma text_first l ls rest k : (length l < k)%nat → 10 ∈ take k (text_of (l :: ls) rest).
Proof. intros. rewrite text_of_cons, take_app_ge by lia. destruct (k - length l)%nat eqn:E; [lia|]. cbn. set_solver. Qed.

Definition MAXLINE : nat := 1022.

(** The loop, with the beginning of a line kept in the buffer. *)
Lemma grep_run re ls rest buf s fuel :
  buf ++ inp s = text_of ls rest → Forall line ls → Forall (λ l, (length l ≤ MAXLINE)%nat) ls → 10 ∉ rest →
  10 ∉ buf → (length buf < 1023)%nat → (length (inp s) < fuel)%nat →
  ∃ s', grep fuel re fd buf s = Ret tt s' ∧ out s' = out s ++ selected re ls.
Proof.
  revert s ls rest buf. induction fuel as [|fuel IH]; intros s ls rest buf Hi Hls Hmax Hr Hb Hlen Hf; [lia|].
  cbn [grep]. assert (0 < BUFSZ - Z.of_nat (length buf) - 1) as Hn by (unfold BUFSZ; lia).
  destruct (read_next _ s Hn) as (d & s1 & E & Hd & Hk & Hd0 & Ho1). pose proof (read_lines _ _ _ _ Hn E) as Hcut. rewrite (bind_Ret _ _ _ _ _ E). clear E. destruct d as [|x d].
  - exists s1. split; [done|]. rewrite (Hd0 eq_refl), app_nil_r in Hi. subst buf.
    destruct ls as [|l ls]; [by rewrite app_nil_r, Ho1|]. destruct Hb. rewrite text_of_cons. set_solver.
  - set (b := buf ++ x :: d). assert (b ++ inp s1 = text_of ls rest) as Hb1 by (unfold b; by rewrite <- app_assoc, <- Hd).
    destruct (text_cut (length b) ls rest Hr Hls) as (ls1 & ls2 & p & -> & Et & Hp & Edr).
    rewrite <- Hb1, take_app_length in Et. rewrite <- Hb1, drop_app_length in Edr. rewrite <- Hb1 in Hi. rewrite Et.
    apply Forall_app in Hls as [Hls1 Hls2], Hmax as [Hmax1 Hmax2].
    destruct (grep_lines_run (length (text_of ls1 p)) re ls1 p s1) as (s2 & E & Hi2 & Ho2); [pose proof (text_of_length ls1 p); lia|done..|].
    rewrite (bind_Ret _ _ _ _ _ E). clear E.
    assert (length (inp s2) < fuel)%nat as Hf2 by (rewrite Hi2; rewrite Hd in Hf; cbn in Hf; rewrite length_app in Hf; lia).
    assert (length (text_of ls1 p) ≤ 1023)%nat as Hlen1 by (rewrite <- Et; unfold b, BUFSZ in *; rewrite length_app; cbn in *; lia).
    unfold selected. rewrite filter_app, fmap_app, concat_app. fold (selected re ls1) (selected re ls2).
    rewrite app_assoc, <- Ho1, <- Ho2. case_bool_decide as Hp0.
    + destruct ls1 as [|l ls1]; [|pose proof (text_of_length (l :: ls1) p); cbn in *; lia].
      assert (ls2 = []) as ->.
      { destruct ls2 as [|l ls2]; [done|exfalso]. change (text_of [] p) with p in Et. apply Hp. rewrite <- Et. destruct Hcut as [Hfull|[Hend|Hnl]].
        - apply Forall_cons in Hmax2 as [Hl _]. unfold MAXLINE in Hl. assert (length b = 1023)%nat as Hlb.
          { unfold b, BUFSZ in *. rewrite length_app. cbn in *. lia. }
          pose proof (text_first l ls2 rest 1023 ltac:(lia)) as Hin. by rewrite <- Hlb, <- (app_nil_l (l :: ls2)), <- Hb1, take_app_length in Hin.
        - rewrite Hend, app_nil_r in Edr. rewrite Et, Edr, text_of_cons. set_solver.
        - unfold b. apply elem_of_app. right. rewrite last_Some in Hnl. destruct Hnl as [? ->]. set_solver. }
      apply (IH s2 [] (inp s2) []); try done; [|set_solver|cbn; lia].
      rewrite Hi2. intros Hin. apply Hr. change (text_of [] rest) with rest in Edr. rewrite <- Edr. set_solver.
    + apply (IH s2 ls2 rest p); try done; [by rewrite Hi2|].
      destruct ls1 as [|l ls1]; [done|]. pose proof (text_of_length (l :: ls1) p). cbn in *. lia.
Qed.

(** C33: grep prints exactly the lines of the input that match the pattern, in
    order, and ends, when the lines have up to 1022 characters and no read stops
    early except at the end of a line (reads of a file do not stop early); text
    after the last newline is ignored.  (Nothing is claimed of reads that
    stop within a line, as those of a pipe may: grep drops a buffer that holds no
    newline.) *)
Theorem grep_selects re ls rest s fuel :
  inp s = text_of ls rest → Forall line ls → Forall (λ l, (length l ≤ MAXLINE)%nat) ls → 10 ∉ rest →
  (length (inp s) < fuel)%nat →
  ∃ s', grep fuel re fd [] s = Ret tt s' ∧ out s' = out s ++ selected re ls.
Proof.
  intros Hi Hls Hmax Hr Hf. apply (grep_run re ls rest []); try done; [set_solver|cbn; lia].
Qed.

End grep_spec.

Lemma grep_selects_witness :
  ∃ s', grep 20 (chars "^a.*c$") 0 [] (chars "abc" ++ [10] ++ chars "abd" ++ [10; 10] ++ chars "ac" ++ [10; 97; 99], []) = Ret tt s' ∧
    s'.2 = chars "abc" ++ [10] ++ chars "ac" ++ [10].
Proof.
  destruct (grep_selects (fd := 0) (chars "^a.*c$") [chars "abc"; chars "abd"; []; chars "ac"] [97; 99]
    (chars "abc" ++ [10] ++ chars "abd" ++ [10; 10] ++ chars "ac" ++ [10; 97; 99], []) 20) as (s' & E & Ho).
  - reflexivity.
  - repeat constructor; not_in.
  - repeat constructor; cbn; unfold MAXLINE; lia.
  - not_in.
  - cbn; lia.
  - exists s'. split; [exact E|]. etransitivity; [exact Ho|reflexivity].
Defined.
