(* ===== verification/Utils.v ===== *)
(** * The small programs (cat.c, wc.c, echo.c, ls.c, kill.c, ln.c, mkdir.c, rm.c, init.c, date.c, time.c, ps.c)

    Each program is its main function on the argument vector, over the system
    calls of [User].  Loops that read a file to its end take fuel; init's loop
    runs for as long as its fuel lasts.

    The theorems: cat copies its input; wc counts the lines, words and
    characters; dayofweek of date.c is the weekday of the Gregorian calendar. *)
From S2P Require Import Prelude Kernel Format Proc Bytes Fs Sysproc User.

Local Open Scope Z_scope.
Local Open Scope kernel_scope.

Definition nl (s : string) : list Z := chars s ++ [10].

(** ** date.c *)

(** In int, with the division and the remainder of C. *)
Definition dayofweek (y m d : Z) : Z :=
  let (d, y) := if m <? 3 then (s32 (d + y), s32 (y - 1)) else (s32 (d + s32 (y - 2)), y) in
  let sum := s32 (s32 (Z.quot (s32 (23 * m)) 9 + d) + 4) in
  Z.rem (s32 (s32 (s32 (sum + Z.quot y 4) - Z.quot y 100) + Z.quot y 400)) 7.

Definition months : list string :=
  ["NULL"; "Jan"; "Feb"; "Mar"; "Apr"; "May"; "Jun"; "Jul"; "Aug"; "Sep"; "Oct"; "Nov"; "Dec"].
Definition days : list string := ["Sun"; "Mon"; "Tue"; "Wed"; "Thu"; "Fri"; "Sat"].

(** ** wc.c *)

Record counts := mk_counts { cl : Z; cw : Z; cc : Z; inword : bool }.

Definition wc_char (k : counts) (x : Z) : counts :=
  let c := s32 (cc k + 1) in
  let l := if x =? 10 then s32 (cl k + 1) else cl k in
  match strchr [32; 13; 9; 10; 11] x with
  | Some _ => mk_counts l (cw k) c false
  | None => if inword k then mk_counts l (cw k) c true else mk_counts l (s32 (cw k + 1)) c true
  end.

(** ** ls.c *)

(** The loop that looks for the last slash goes backwards from the end. *)
Fixpoint after_slash (rev acc : list Z) : list Z :=
  match rev with
  | [] => acc
  | c :: rev => if c =? 47 then acc else after_slash rev (c :: acc)
  end.

Definition fmtname (path : list Z) : list Z :=
  let p := after_slash (reverse path) [] in
  if (DIRSIZ <=? length p)%nat then p else p ++ replicate (DIRSIZ - length p) 32.

(** The bytes before the NUL. *)
Fixpoint upto0 (l : list Z) : list Z :=
  match l with
  | [] => []
  | c :: l => if c =? 0 then [] else c :: upto0 l
  end.

Section programs.
  Context {S : Type} {Sy : Sys S}.

Fixpoint cat (fuel : nat) (fd : Z) : M S unit :=
  match fuel with
  | O => nofuel
  | Datatypes.S fuel =>
      r <- u_read fd 512;;
      match r with
      | Some [] => ret tt
      | Some d => u_write 1 d;; cat fuel fd
      | None => printf 1 (nl "cat: read error") [];; u_exit
      end
  end.

Fixpoint wc_loop (fuel : nat) (fd : Z) (k : counts) : M S (option counts) :=
  match fuel with
  | O => nofuel
  | Datatypes.S fuel =>
      r <- u_read fd 512;;
      match r with
      | Some [] => ret (Some k)
      | Some d => wc_loop fuel fd (foldl wc_char k d)
      | None => ret None
      end
  end.

Definition wc (fuel : nat) (fd : Z) (name : list Z) : M S unit :=
  k <- wc_loop fuel fd (mk_counts 0 0 0 false);;
  match k with
  | None => printf 1 (nl "wc: read error") [];; u_exit
  | Some k => printf 1 (nl "%d %d %d %s") [AInt (cl k); AInt (cw k); AInt (cc k); AStr (Some name)]
  end.

(** The argument loop of cat and wc. *)
Fixpoint each_file (who : string) (f : Z → list Z → M S unit) (files : list (list Z)) : M S unit :=
  match files with
  | [] => ret tt
  | a :: files =>
      fd <- u_open a 0;;
      when (fd <? 0) do (printf 1 (nl (who ++ ": cannot open %s")) [AStr (Some a)];; u_exit);;
      f fd a;;
      u_close fd;;
      each_file who f files
  end.

Definition cat_main (fuel : nat) (argv : list (list Z)) : M S unit :=
  match tail argv with
  | [] => cat fuel 0;; u_exit
  | files => each_file "cat" (λ fd _, cat fuel fd) files;; u_exit
  end.

Definition wc_main (fuel : nat) (argv : list (list Z)) : M S unit :=
  match tail argv with
  | [] => wc fuel 0 [];; u_exit
  | files => each_file "wc" (wc fuel) files;; u_exit
  end.

Fixpoint echo_args (args : list (list Z)) : M S unit :=
  match args with
  | [] => ret tt
  | a :: args => printf 1 (chars "%s%s") [AStr (Some a); AStr (Some (match args with [] => [10] | _ => [32] end))];; echo_args args
  end.

Definition echo_main (argv : list (list Z)) : M S unit := echo_args (tail argv);; u_exit.

(** The directory loop; a name is 14 bytes, with a NUL if it is shorter. *)
Fixpoint ls_loop (fuel : nat) (fd : Z) (path : list Z) : M S unit :=
  match fuel with
  | O => nofuel
  | Datatypes.S fuel =>
      r <- u_read fd 16;;
      match r with
      | Some de =>
          if negb (Z.of_nat (length de) =? 16) then ret tt
          else if de_inum de =? 0 then ls_loop fuel fd path
          else
            let buf := path ++ [47] ++ upto0 (de_name de) in
            st <- stat buf;;
            match st with
            | None => printf 1 (nl "ls: cannot stat %s") [AStr (Some buf)]
            | Some st => printf 1 (nl "%s %d %d %d") [AStr (Some (fmtname buf)); AInt (st_type st); AInt (st_ino st); AInt (st_size st)]
            end;;
            ls_loop fuel fd path
      | None => ret tt
      end
  end.

Definition ls (fuel : nat) (path : list Z) : M S unit :=
  fd <- u_open path 0;;
  if fd <? 0 then printf 2 (nl "ls: cannot open %s") [AStr (Some path)]
  else
    st <- u_fstat fd;;
    match st with
    | None => printf 2 (nl "ls: cannot stat %s") [AStr (Some path)];; u_close fd;; ret tt
    | Some st =>
        (if st_type st =? T_FILE then
           printf 1 (nl "%s %d %d %d") [AStr (Some (fmtname path)); AInt (st_type st); AInt (st_ino st); AInt (st_size st)]
         else if st_type st =? T_DIR then
           if 512 <? Z.of_nat (length path) + 1 + Z.of_nat DIRSIZ + 1 then printf 1 (nl "ls: path too long") []
           else ls_loop fuel fd path
         else ret tt);;
        u_close fd;;
        ret tt
    end.

Fixpoint ls_all (fuel : nat) (paths : list (list Z)) : M S unit :=
  match paths with
  | [] => ret tt
  | p :: paths => ls fuel p;; ls_all fuel paths
  end.

Definition ls_main (fuel : nat) (argv : list (list Z)) : M S unit :=
  match tail argv with
  | [] => ls fuel [46];; u_exit
  | paths => ls_all fuel paths;; u_exit
  end.

Fixpoint kill_all (args : list (list Z)) : M S unit :=
  match args with
  | [] => ret tt
  | a :: args => u_kill (atoi a);; kill_all args
  end.

Definition kill_main (argv : list (list Z)) : M S unit :=
  match tail argv with
  | [] => printf 2 (nl "usage: kill pid...") [];; u_exit
  | args => kill_all args;; u_exit
  end.

Definition ln_main (argv : list (list Z)) : M S unit :=
  match argv with
  | [_; old; new] =>
      r <- u_link old new;;
      when (r <? 0) do printf 2 (nl "link %s %s: failed") [AStr (Some old); AStr (Some new)];;
      u_exit
  | _ => printf 2 (nl "Usage: ln old new") [];; u_exit
  end.

(** The loops of mkdir and rm stop at the first failure. *)
Fixpoint until_failure (f : list Z → M S Z) (msg : string) (args : list (list Z)) : M S unit :=
  match args with
  | [] => ret tt
  | a :: args =>
      r <- f a;;
      if r <? 0 then printf 2 (nl msg) [AStr (Some a)] else until_failure f msg args
  end.

Definition mkdir_main (argv : list (list Z)) : M S unit :=
  match tail argv with
  | [] => printf 2 (nl "Usage: mkdir files...") [];; u_exit
  | args => until_failure u_mkdir "mkdir: %s failed to create" args;; u_exit
  end.

Definition rm_main (argv : list (list Z)) : M S unit :=
  match tail argv with
  | [] => printf 2 (nl "Usage: rm files...") [];; u_exit
  | args => until_failure u_unlink "rm: %s failed to delete" args;; u_exit
  end.

(** init: wait for the shell, reporting the other children. *)
Fixpoint reap (fuel : nat) (pid : Z) : M S unit :=
  match fuel with
  | O => nofuel
  | Datatypes.S fuel =>
      wpid <- u_wait;;
      when ((0 <=? wpid) && negb (wpid =? pid)) do (printf 1 (nl "zombie!") [];; reap fuel pid)
  end.

Definition init_child : M S unit :=
  u_exec (chars "sh") [chars "sh"];;
  printf 1 (nl "init: exec sh failed") [];;
  u_exit.

Fixpoint init_loop (fuel waits : nat) : M S unit :=
  match fuel with
  | O => nofuel
  | Datatypes.S fuel =>
      printf 1 (nl "init: starting sh") [];;
      pid <- u_fork init_child;;
      when (pid <? 0) do (printf 1 (nl "init: fork failed") [];; u_exit);;
      reap waits pid;;
      init_loop fuel waits
  end.

Definition init_main (fuel waits : nat) : M S unit :=
  fd <- u_open (chars "console") 2;;
  when (fd <? 0) do (u_mknod (chars "console") 1 1;; u_open (chars "console") 2;; ret tt);;
  u_dup 0;;
  u_dup 0;;
  init_loop fuel waits.

Definition two (x : Z) : M S unit := when (x <? 10) do printf 1 (chars "0") [].

(** [file] and [line] are __FILE__ and __LINE__. *)
Definition date_main : M S unit :=
  r <- u_date;;
  match r with
  | None => printf 2 (nl "Error: date call failed. %s at line %d") [AStr (Some (chars "date.c")); AInt 28];; u_exit
  | Some r =>
      let dy := dayofweek (s32 (year r)) (s32 (month r)) (s32 (day r)) in
      printf 1 (chars "%s %s %d") [AStr (chars <$> days !! Z.to_nat dy); AStr (chars <$> months !! Z.to_nat (month r)); AInt (day r)];;
      printf 1 (chars " ") [];;
      two (hour r);;
      printf 1 (chars "%d:") [AInt (hour r)];;
      two (minute r);;
      printf 1 (chars "%d:") [AInt (minute r)];;
      two (second r);;
      printf 1 (nl "%d UTC %d") [AInt (second r); AInt (year r)];;
      u_exit
  end.

(** time.c: the loop subtracts 100 while it can. *)
Fixpoint hundreds (fuel : nat) (whole partial : Z) : M S (Z * Z) :=
  match fuel with
  | O => nofuel
  | Datatypes.S fuel => if 100 <=? partial then hundreds fuel (whole + 1) (partial - 100) else ret (whole, partial)
  end.

Definition printTime (fuel : nat) (start end_ : Z) : M S unit :=
  '(whole, partial) <- hundreds fuel 0 (s32 (end_ - start));;
  printf 1 (chars (if partial <? 10 then "%d.0%d" else "%d.%d")) [AInt whole; AInt partial].

(** The rest of main after the wait, in the parent (and in the child when
    exec has failed). *)
Definition time_report (fuel : nat) (start rc : Z) (cmd : option (list Z)) : M S unit :=
  end_ <- u_uptime;;
  if 0 <=? rc then
    match cmd with Some c => printf 1 (chars "%s ") [AStr (Some c)] | None => ret tt end;;
    printf 1 (chars "ran in ") [];;
    printTime fuel start end_;;
    printf 1 (nl " seconds") [];;
    u_exit
  else printf 1 (nl "ERROR: %s failed") [AStr cmd];; u_exit.

Definition time_main (fuel : nat) (argv : list (list Z)) : M S unit :=
  start <- u_uptime;;
  match tail argv with
  | [] => u_wait;; time_report fuel start 0 None
  | c :: args =>
      pid <- u_fork (rc <- u_exec c (c :: args);; time_report fuel start rc (Some c));;
      when (pid <? 0) do u_exit;;
      u_wait;;
      time_report fuel start 0 (Some c)
  end.

Variable prio : Z.   (* the field the kernel does not set *)

Fixpoint ps_rows (n : nat) (l : list uproc) : M S unit :=
  match n, l with
  | Datatypes.S n, u :: l =>
      printf 1 (chars "%d") [AInt (up_pid u)];;
      printf 1 ([9] ++ chars "%d") [AInt (up_uid u)];;
      printf 1 ([9] ++ chars "%d") [AInt (up_gid u)];;
      printf 1 ([9] ++ chars "%d") [AInt (up_ppid u)];;
      printf 1 ([9] ++ chars "%d") [AInt prio];;
      printf 1 ([9] ++ chars "%d.%d") [AInt (up_elapsed u / 1000); AInt (up_elapsed u mod 1000)];;
      printf 1 ([9] ++ chars "%d.%d") [AInt (up_cpu u / 1000); AInt (up_cpu u mod 1000)];;
      printf 1 ([9] ++ chars "%s") [AStr (Some (up_state u))];;
      printf 1 ([9] ++ chars "%d") [AInt (up_size u)];;
      printf 1 ([9] ++ chars "%s") [AStr (Some (up_name u))];;
      printf 1 [10] [];;
      ps_rows n l
  | _, _ => ret tt
  end.

Definition ps_header : list Z :=
  [10] ++ chars "PID" ++ [9] ++ chars "UID" ++ [9] ++ chars "GID" ++ [9] ++ chars "PPID" ++ [9] ++ chars "Prio" ++ [9] ++
  chars "Elapsed" ++ [9] ++ chars "Total" ++ [9] ++ chars "STATE" ++ [9; 9] ++ chars "Size" ++ [9] ++ nl "Name".

Definition ps_main : M S unit :=
  '(rc, l) <- u_getprocs 3;;
  when (rc =? 1) do (printf 1 (nl "ERROR") [];; u_exit);;
  printf 1 ps_header [];;
  ps_rows (Z.to_nat rc) l;;
  u_exit.

End programs.

(** ** cat and wc *)

Definition blank (x : Z) : bool := bool_decide (x ∈ [32; 13; 9; 10; 11]).

(** Where a word begins: a character that is not blank, after a blank or at the
    beginning. *)
Definition word_at (l : list Z) (i : nat) : bool :=
  match l !! i with
  | Some x => negb (blank x) && match i with O => true | S j => default false (blank <$> l !! j) end
  | None => false
  end.

Definition count (f : nat → bool) (n : nat) : Z := Z.of_nat (length (filter (λ i, f i = true) (seq 0 n))).

Definition line_count (l : list Z) : Z := count (λ i, bool_decide (l !! i = Some 10)) (length l).
Definition word_count (l : list Z) : Z := count (word_at l) (length l).

Lemma strchr_blank x : (∃ s, strchr [32; 13; 9; 10; 11] x = Some s) ↔ blank x = true.
Proof.
  unfold blank. rewrite bool_decide_eq_true. cbn [strchr]. rewrite !elem_of_cons.
  repeat case_test; subst; split; try (intros; eauto; tauto).
  - intros [s Hs]. done.
  - intros H. rewrite elem_of_nil in H. naive_solver lia.
Qed.

Lemma count_S f n : count f (S n) = count f n + (if f n then 1 else 0).
Proof.
  unfold count. rewrite seq_S, filter_app, length_app, Nat2Z.inj_add. f_equal. rewrite Nat.add_0_l, filter_cons, filter_nil.
  destruct (f n) eqn:E; [rewrite decide_True by done|rewrite decide_False by congruence]; done.
Qed.

Lemma count_ext f g n : (∀ i, (i < n)%nat → f i = g i) → count f n = count g n.
Proof.
  induction n as [|n IH]; intros H; [done|]. rewrite !count_S, IH by (intros; apply H; lia). by rewrite H by lia.
Qed.

Lemma count_bound f n : 0 ≤ count f n ≤ Z.of_nat n.
Proof. induction n as [|n IH]; [done|]. rewrite count_S. destruct (f n); lia. Qed.

(** What the counters hold after [l]. *)
Definition counted (l : list Z) (k : counts) : Prop :=
  cl k = line_count l ∧ cw k = word_count l ∧ cc k = Z.of_nat (length l) ∧
  inword k = match last l with Some x => negb (blank x) | None => false end.

Lemma line_count_snoc l x : line_count (l ++ [x]) = line_count l + (if x =? 10 then 1 else 0).
Proof.
  unfold line_count. rewrite length_app, Nat.add_comm. cbn [length Nat.add]. rewrite count_S. f_equal.
  - apply count_ext. intros i Hi. by rewrite lookup_app_l.
  - rewrite list_lookup_middle by done. case_bool_decide; destruct (x =? 10) eqn:E; bools; congruence.
Qed.

Lemma word_count_snoc l x :
  word_count (l ++ [x]) = word_count l +
    (if negb (blank x) && match last l with Some y => blank y | None => true end then 1 else 0).
Proof.
  unfold word_count. rewrite length_app, Nat.add_comm. cbn [length Nat.add]. rewrite count_S. f_equal.
  - apply count_ext. intros [|i] Hi; unfold word_at; rewrite !lookup_app_l by lia; done.
  - unfold word_at. rewrite list_lookup_middle by done. destruct l as [|y l] using rev_ind; [done|].
    rewrite last_snoc, length_app, Nat.add_comm. cbn [length Nat.add]. rewrite lookup_app_l by (rewrite length_app; cbn; lia).
    by rewrite list_lookup_middle by done.
Qed.

Lemma wc_char_counts l k x : counted l k → Z.of_nat (length l) + 1 < 2147483648 → counted (l ++ [x]) (wc_char k x).
Proof.
  intros (Hl & Hw & Hc & Hi) Hb. pose proof (count_bound (word_at l) (length l)). fold (word_count l) in *.
  pose proof (count_bound (λ i, bool_decide (l !! i = Some 10)) (length l)). fold (line_count l) in *.
  unfold counted, wc_char. rewrite line_count_snoc, word_count_snoc, length_app, last_snoc, Nat2Z.inj_add, Hl, Hw, Hc, Hi.
  rewrite !s32_small by lia. change (Z.of_nat (length [x])) with 1.
  destruct (strchr _ x) eqn:E.
  - assert (blank x = true) as -> by (apply strchr_blank; eauto). cbn. split_and!; try lia. destruct (x =? 10); lia.
  - assert (blank x = false) as ->. { apply not_true_iff_false. intros [s ?]%strchr_blank. congruence. }
    cbn [negb andb]. destruct (last l) as [y|]; [destruct (blank y)|]; cbn; split_and!; try done; destruct (x =? 10); lia.
Qed.

Lemma wc_chars_count d l k : counted l k → Z.of_nat (length (l ++ d)) < 2147483648 → counted (l ++ d) (foldl wc_char k d).
Proof.
  revert l k. induction d as [|x d IH]; intros l k Hk Hb; [by rewrite app_nil_r|]. cbn [foldl].
  rewrite cons_middle, app_assoc. apply IH; [|by rewrite <- app_assoc].
  apply wc_char_counts; [done|]. rewrite length_app in Hb. cbn in Hb. lia.
Qed.

Section copying.
  Context {S : Type} {Sy : Sys S} {fd : Z} {St : @Stream S Sy fd 1}.

(** One block of input. *)
Lemma read_block s : inp s ≠ [] →
  ∃ d s', u_read fd 512 s = Ret (Some d) s' ∧ d ≠ [] ∧ inp s = d ++ inp s' ∧ (length (inp s') < length (inp s))%nat ∧ out s' = out s.
Proof.
  intros Hn. destruct (read_next 512 s) as (d & s' & E & Hi & _ & Hd & Ho); [lia|]. exists d, s'.
  destruct d as [|x d]; [by destruct (Hn (Hd eq_refl))|]. split_and!; try done. rewrite Hi. cbn. rewrite length_app. lia.
Qed.

Lemma read_end s : inp s = [] → ∃ s', u_read fd 512 s = Ret (Some []) s' ∧ inp s' = [] ∧ out s' = out s.
Proof.
  intros Hn. destruct (read_next 512 s) as (d & s' & E & Hi & _ & _ & Ho); [lia|]. exists s'. rewrite Hn in Hi.
  symmetry in Hi. apply app_nil in Hi as [-> Hi]. done.
Qed.

Lemma cat_run fuel s : (length (inp s) < fuel)%nat →
  ∃ s', cat fuel fd s = Ret tt s' ∧ inp s' = [] ∧ out s' = out s ++ inp s.
Proof.
  revert s. induction fuel as [|fuel IH]; intros s Hf; [lia|]. cbn [cat].
  destruct (decide (inp s = [])) as [Hn|Hn].
  - destruct (read_end s Hn) as (s' & E & Hi & Ho). exists s'. rewrite (bind_Ret _ _ _ _ _ E), Hn, app_nil_r. done.
  - destruct (read_block s Hn) as ([|x d] & s1 & E & Hd & Hi & Hl & Ho); [done|]. rewrite (bind_Ret _ _ _ _ _ E).
    destruct (write_all (x :: d) s1) as (s2 & E2 & Hi2 & Ho2). rewrite (bind_Ret _ _ _ _ _ E2).
    destruct (IH s2) as (s3 & E3 & Hi3 & Ho3); [rewrite Hi2; lia|]. exists s3. rewrite E3, Ho3, Ho2, Ho, Hi2, Hi.
    by rewrite <- app_assoc.
Qed.

Lemma wc_loop_run fuel l k s : counted l k → Z.of_nat (length (l ++ inp s)) < 2147483648 → (length (inp s) < fuel)%nat →
  ∃ k' s', wc_loop fuel fd k s = Ret (Some k') s' ∧ counted (l ++ inp s) k' ∧ out s' = out s ∧ inp s' = [].
Proof.
  revert l k s. induction fuel as [|fuel IH]; intros l k s Hk Hb Hf; [lia|]. cbn [wc_loop].
  destruct (decide (inp s = [])) as [Hn|Hn].
  - destruct (read_end s Hn) as (s' & E & Hi & Ho). exists k, s'. rewrite (bind_Ret _ _ _ _ _ E), Hn, app_nil_r. done.
  - destruct (read_block s Hn) as ([|x d] & s1 & E & Hd & Hi & Hl & Ho); [done|]. rewrite (bind_Ret _ _ _ _ _ E), Hi, app_assoc, <- Ho.
    rewrite Hi, app_assoc in Hb. apply IH; [|done|lia]. apply wc_chars_count; [done|]. rewrite length_app in Hb. lia.
Qed.

(** Wc prints the number of lines, words and characters of its input and
    the name, where a word begins at every character that is not blank and
    follows a blank or nothing. *)
Theorem wc_counts fuel name s :
  Z.of_nat (length (inp s)) < 2147483648 → (length (inp s) < fuel)%nat →
  ∃ s', wc fuel fd name s = Ret tt s' ∧
    out s' = out s ++ (u8 <$> uformat false (nl "%d %d %d %s")
      [AInt (line_count (inp s)); AInt (word_count (inp s)); AInt (Z.of_nat (length (inp s))); AStr (Some name)]).
Proof.
  intros Hb Hf. unfold wc. destruct (wc_loop_run fuel [] (mk_counts 0 0 0 false) s) as (k & s1 & E & (Hl & Hw & Hc & _) & Ho & _); try done.
  rewrite (bind_Ret _ _ _ _ _ E). rewrite Hl, Hw, Hc. destruct (writes_printf false (nl "%d %d %d %s")
    [AInt (line_count (inp s)); AInt (word_count (inp s)); AInt (Z.of_nat (length (inp s))); AStr (Some name)] s1) as (s2 & E2 & _ & Ho2).
  exists s2. split; [exact E2|]. by rewrite Ho2, Ho.
Qed.

End copying.

Lemma wc_counts_witness : ∃ s', wc 20 0 (chars "f") (chars "one two" ++ [10; 9] ++ chars "three" ++ [10], []) = Ret tt s' ∧
  s'.2 = nl "2 3 15 f".
Proof.
  destruct (wc_counts (fd := 0) 20 (chars "f") (chars "one two" ++ [10; 9] ++ chars "three" ++ [10], [])) as (s' & E & Ho);
    [cbn; lia..|]. exists s'. split; [exact E|]. etransitivity; [exact Ho|reflexivity].
Defined.

(** ** The calendar *)

Definition leap (y : Z) : bool := (y mod 4 =? 0) && (negb (y mod 100 =? 0) || (y mod 400 =? 0)).

Definition month_length (y m : Z) : Z :=
  if m =? 2 then (if leap y then 29 else 28)
  else if (m =? 4) || (m =? 6) || (m =? 9) || (m =? 11) then 30 else 31.

Definition next_day '((y, m, d) : Z * Z * Z) : Z * Z * Z :=
  if d <? month_length y m then (y, m, d + 1)
  else if m <? 12 then (y, m + 1, 1)
  else (y + 1, 1, 1).

Definition valid_date '((y, m, d) : Z * Z * Z) : Prop := 1 ≤ y ∧ 1 ≤ m ≤ 12 ∧ 1 ≤ d ≤ month_length y m.

Lemma next_day_valid t : valid_date t → valid_date (next_day t).
Proof.
  destruct t as [[y m] d]. cbn. intros (Hy & Hm & Hd). destruct (Z.ltb_spec d (month_length y m)); [cbn; lia|].
  destruct (Z.ltb_spec m 12); cbn -[month_length]; split_and!; try lia; unfold month_length; repeat case_test; lia.
Qed.

(** The sum whose remainder is the weekday, with flooring division. *)
Definition day_sum (y m d : Z) : Z :=
  let y' := if m <? 3 then y - 1 else y in
  23 * m / 9 + d + (if m <? 3 then y else y - 2) + 4 + y' / 4 - y' / 100 + y' / 400.

(** The years for which the sum fits in an int. *)
Definition MAXYEAR : Z := 1700000000.

Lemma int_sum m d y : 0 ≤ y ≤ MAXYEAR → 1 ≤ m ≤ 12 → -1 ≤ d ≤ MAXYEAR + 31 →
  let sum := s32 (s32 (Z.quot (s32 (23 * m)) 9 + d) + 4) in
  Z.rem (s32 (s32 (s32 (sum + Z.quot y 4) - Z.quot y 100) + Z.quot y 400)) 7 = (23 * m / 9 + d + 4 + y / 4 - y / 100 + y / 400) mod 7.
Proof.
  intros Hy Hm Hd sum. unfold MAXYEAR in *. rewrite !Z.quot_div_nonneg by lia.
  assert (sum = 23 * m / 9 + d + 4) as ->.
  { unfold sum. rewrite (s32_small (23 * m)), Z.quot_div_nonneg by lia. assert (0 ≤ 23 * m / 9 ≤ 30) by (Z.div_mod_to_equations; lia). rewrite (s32_small (23 * m / 9 + d)), s32_small by lia. done. }
  rewrite (s32_small (_ + y / 4)) by (Z.div_mod_to_equations; lia). rewrite (s32_small (_ - y / 100)) by (Z.div_mod_to_equations; lia).
  rewrite s32_small by (Z.div_mod_to_equations; lia). apply Z.rem_mod_nonneg; [Z.div_mod_to_equations; lia|lia].
Qed.

Lemma dayofweek_sum y m d : 1 ≤ y ≤ MAXYEAR → 1 ≤ m ≤ 12 → 1 ≤ d ≤ 31 → dayofweek y m d = day_sum y m d mod 7.
Proof.
  intros Hy Hm Hd. unfold dayofweek, day_sum. destruct (m <? 3); unfold MAXYEAR in *.
  - rewrite (s32_small (d + y)), (s32_small (y - 1)) by lia. rewrite int_sum by (unfold MAXYEAR; lia). f_equal. lia.
  - rewrite (s32_small (y - 2)), (s32_small (d + _)) by lia. rewrite int_sum by (unfold MAXYEAR; lia). f_equal. lia.
Qed.

Lemma day_sum_next t : valid_date t →
  let '(y, m, d) := t in let '(y', m', d') := next_day t in day_sum y' m' d' mod 7 = (day_sum y m d + 1) mod 7.
Proof.
  destruct t as [[y m] d]. cbn. intros (Hy & Hm & Hd). destruct (Z.ltb_spec d (month_length y m)).
  { unfold day_sum. f_equal. lia. }
  assert (d = month_length y m) as -> by lia. clear Hd H.
  assert (m = 1 ∨ m = 2 ∨ m = 3 ∨ m = 4 ∨ m = 5 ∨ m = 6 ∨ m = 7 ∨ m = 8 ∨ m = 9 ∨ m = 10 ∨ m = 11 ∨ m = 12) as Hc by lia.
  clear Hm. destruct_or! Hc; subst m; cbn [Z.ltb Z.compare Pos.compare Pos.compare_cont];
    unfold day_sum, month_length, leap; cbn [Z.ltb Z.eqb Z.compare Pos.compare Pos.compare_cont Pos.eqb orb].
  all: repeat case_test; try (exfalso; lia); Z.div_mod_to_equations; lia.
Qed.

(** C34: dayofweek, computed in int, gives the weekday of every date of the
    Gregorian calendar from Monday, 1 January 1 up to the year 1700000000 (some
    years later its sum leaves the range of int): [n] days after that Monday it is the
    [n]-th weekday after Monday (0 is Sunday). *)
Theorem dayofweek_calendar n y m d :
  Nat.iter n next_day (1, 1, 1) = (y, m, d) → y ≤ MAXYEAR → dayofweek y m d = (1 + Z.of_nat n) mod 7.
Proof.
  intros E Hmax. assert (let t := Nat.iter n next_day (1, 1, 1) in
    valid_date t ∧ let '(y, m, d) := t in day_sum y m d mod 7 = (1 + Z.of_nat n) mod 7) as [Hv Hs].
  { clear E Hmax. induction n as [|n [Hv Hs]]; [done|]. cbn [Nat.iter nat_rect]. pose proof (day_sum_next _ Hv) as Hn.
    split; [by apply next_day_valid|]. unfold Nat.iter in *. destruct (nat_rect _ _ _ n) as [[y' m'] d'].
    destruct (next_day (y', m', d')) as [[y'' m''] d'']. rewrite Hn, <- Zplus_mod_idemp_l, Hs, Zplus_mod_idemp_l. f_equal. lia. }
  rewrite E in *. destruct Hv as (Hy & Hm & Hd). rewrite dayofweek_sum; [done|lia|lia|].
  unfold month_length in Hd. repeat case_match; lia.
Qed.

(** The first day of March of the year 4. *)
Lemma dayofweek_calendar_witness : dayofweek 4 3 1 = (1 + Z.of_nat 1155) mod 7.
Proof. apply (dayofweek_calendar 1155 4 3 1); [vm_compute; reflexivity|unfold MAXYEAR; lia]. Defined.
