(* ===== verification/Umalloc.v ===== *)
(** * The user memory allocator (umalloc.c)

    malloc and free of Kernighan and Ritchie on the memory of the process: the
    free blocks are a circular list in address order through the header words,
    starting at the static header [base]; sizes count units of one header, 8
    bytes.  [avail] says whether the kernel grants the memory sbrk asks for.

    [heap_inv] describes a heap: the circular list of the free blocks, the
    blocks in use, and that they are disjoint.  The lemmas follow free through
    the search and the joining with the neighbours; [UmallocSpec] has malloc and
    the theorems. *)
From stdpp Require Import sorting.
From S2P Require Import Prelude Kernel CString.

Local Open Scope Z_scope.
Local Open Scope kernel_scope.

(** Membership goals: by the shape of the lists, or in general. *)
Ltac mem_tac := first [solve [rewrite ?elem_of_app, ?elem_of_cons, ?elem_of_app, ?elem_of_cons; tauto] | set_solver].

Record ust := mk_ust { umem : mem; freep : Z; brk : Z }.

Definition set_umem (v : mem) (x : ust) : ust := mk_ust v (freep x) (brk x).
Definition set_freep (v : Z) (x : ust) : ust := mk_ust (umem x) v (brk x).
Definition set_brk (v : Z) (x : ust) : ust := mk_ust (umem x) (freep x) v.

(** The fields of the header at an address. *)
Definition ptr_of (a : Z) (s : ust) : Z := ld32 (umem s) a.
Definition size_of (a : Z) (s : ust) : Z := ld32 (umem s) (a + 4).
Definition set_ptr (a v : Z) : M ust unit := modify (λ s, set_umem (st32 (umem s) a v) s).
Definition set_size (a v : Z) : M ust unit := modify (λ s, set_umem (st32 (umem s) (a + 4) v) s).

(** sizeof(Header) *)
Definition HDR : Z := 8.

Section umalloc.
  Variable base : Z.               (* the address of the static header *)
  Variable avail : Z → Z → bool.   (* whether a break may grow by so many bytes *)

(** sbrk, the system call: the old break, or -1. *)
Definition sbrk (n : Z) : M ust Z :=
  b <- gets brk;;
  if avail b n then modify (set_brk (u32 (b + n)));; ret b else ret (u32 (-1)).

(** The search of free for the place in the list. *)
Fixpoint free_find (fuel : nat) (bp p : Z) : M ust Z :=
  match fuel with
  | O => nofuel
  | S fuel =>
      nx <- gets (ptr_of p);;
      if (p <? bp) && (bp <? nx) then ret p
      else if (nx <=? p) && ((p <? bp) || (bp <? nx)) then ret p
      else free_find fuel bp nx
  end.

Definition free (fuel : nat) (ap : Z) : M ust unit :=
  let bp := ap - HDR in
  f <- gets freep;;
  p <- free_find fuel bp f;;
  bs <- gets (size_of bp);;
  nx <- gets (ptr_of p);;
  (if bp + HDR * bs =? nx then
     ns <- gets (size_of nx);;
     set_size bp (u32 (bs + ns));;
     nn <- gets (ptr_of nx);;
     set_ptr bp nn
   else set_ptr bp nx);;
  ps <- gets (size_of p);;
  (if p + HDR * ps =? bp then
     bs <- gets (size_of bp);;
     set_size p (u32 (ps + bs));;
     bn <- gets (ptr_of bp);;
     set_ptr p bn
   else set_ptr p bp);;
  modify (set_freep p).

Definition morecore (fuel : nat) (nu : Z) : M ust Z :=
  let nu := if nu <? 4096 then 4096 else nu in
  p <- sbrk (s32 (nu * HDR));;
  if p =? u32 (-1) then ret 0
  else
    set_size p nu;;
    free fuel (p + HDR);;
    gets freep.

(** The loop of malloc. *)
Fixpoint malloc_loop (fuel : nat) (nunits prevp p : Z) : M ust Z :=
  match fuel with
  | O => nofuel
  | S fuel =>
      sz <- gets (size_of p);;
      if nunits <=? sz then
        r <- (if sz =? nunits then
                nx <- gets (ptr_of p);;
                set_ptr prevp nx;;
                ret p
              else
                set_size p (sz - nunits);;
                let q := p + HDR * (sz - nunits) in
                set_size q nunits;;
                ret q);;
        modify (set_freep prevp);;
        ret (r + HDR)
      else
        f <- gets freep;;
        p' <- (if p =? f then morecore fuel nunits else ret p);;
        if p' =? 0 then ret 0
        else
          nx <- gets (ptr_of p');;
          malloc_loop fuel nunits p' nx
  end.

Definition units (nbytes : Z) : Z := u32 (u32 (nbytes + HDR - 1) / HDR + 1).

Definition malloc (fuel : nat) (nbytes : Z) : M ust Z :=
  f <- gets freep;;
  prevp <- (if f =? 0 then
              set_ptr base base;;
              modify (set_freep base);;
              set_size base 0;;
              ret base
            else ret f);;
  p <- gets (ptr_of prevp);;
  malloc_loop fuel (units nbytes) prevp p.

End umalloc.

(** ** Linked lists in memory *)

(** The links inside a list that starts with [a], and a list that ends with a
    link to [e]. *)
Fixpoint links (m : mem) (a : Z) (l : list Z) : Prop :=
  match l with
  | [] => True
  | b :: l => ld32 m a = b ∧ links m b l
  end.

Fixpoint chain (m : mem) (a : Z) (l : list Z) (e : Z) : Prop :=
  match l with
  | [] => ld32 m a = e
  | b :: l => ld32 m a = b ∧ chain m b l e
  end.

Definition lastz (a : Z) (l : list Z) : Z := default a (last l).

Lemma lastz_cons a b l : lastz a (b :: l) = lastz b l.
Proof. unfold lastz. rewrite last_cons. by destruct (last l). Qed.

Lemma lastz_in a l : lastz a l ∈ a :: l.
Proof. revert a. induction l as [|b l IH]; intros a; [by left|]. rewrite lastz_cons. right. apply IH. Qed.

Lemma chain_split m a l1 l2 e : chain m a (l1 ++ l2) e ↔ links m a l1 ∧ chain m (lastz a l1) l2 e.
Proof.
  revert a. induction l1 as [|b l1 IH]; intros a; cbn [app links chain]; [tauto|]. rewrite lastz_cons, IH. tauto.
Qed.

Lemma chain_join m a l1 b l2 e : chain m a l1 b → chain m b l2 e → chain m a (l1 ++ b :: l2) e.
Proof. rewrite <- (app_nil_r l1) at 1. rewrite !chain_split. cbn [chain]. tauto. Qed.

Lemma uchain_frame m m' a l e : (∀ x, x ∈ a :: l → ld32 m' x = ld32 m x) → chain m a l e → chain m' a l e.
Proof.
  revert a. induction l as [|b l IH]; intros a H; cbn [chain]; [by rewrite H by left|].
  intros [H1 H2]. rewrite H by left. split; [done|]. apply IH; [|done]. intros x Hx. apply H. by right.
Qed.

(** The same list after another header with the same link. *)
Lemma chain_move m m' a b l e :
  ld32 m' b = ld32 m a → (∀ x, x ∈ l → ld32 m' x = ld32 m x) → chain m a l e → chain m' b l e.
Proof.
  destruct l as [|c l]; cbn [chain]; intros Hb H; rewrite Hb; [done|]. intros [H1 H2]. split; [done|]. by apply (uchain_frame m).
Qed.

Lemma links_frame m m' a l : NoDup (a :: l) →
  (∀ x, x ∈ a :: l → x ≠ lastz a l → ld32 m' x = ld32 m x) → links m a l → links m' a l.
Proof.
  revert a. induction l as [|b l IH]; intros a; cbn [links]; [done|]. intros [Ha Hn]%NoDup_cons H [H1 H2].
  rewrite lastz_cons in H. split.
  - rewrite H; [done|by left|]. intros ->. apply Ha, lastz_in.
  - apply IH; [done| |done]. intros x Hx Hl. apply H; [by right|done].
Qed.

Lemma chain_range m a l e x : chain m a l e → x ∈ a :: l → ld32 m x ∈ l ++ [e].
Proof.
  revert a. induction l as [|b l IH]; intros a; cbn [chain]; [intros <- ->%list_elem_of_singleton; by left|].
  intros [H1 H2] [->|Hx]%elem_of_cons; [rewrite H1; by left|]. right. by apply (IH b).
Qed.

(** ** Heaps *)

Section heap.
  Variable base : Z.

Definition bsize (m : mem) (a : Z) : Z := ld32 m (a + 4).

(** Blocks: not empty, below [hi] and above [base], and disjoint. *)
Record blocks_ok (m : mem) (hi : Z) (B : list Z) : Prop := {
  bo_nodup : NoDup B;
  bo_range a : a ∈ B → base + HDR ≤ a ∧ 1 ≤ bsize m a ∧ a + HDR * bsize m a ≤ hi;
  bo_disjoint a b : a ∈ B → b ∈ B → a ≠ b → a + HDR * bsize m a ≤ b ∨ b + HDR * bsize m b ≤ a
}.

(** The free blocks [fl] in the circular list and the blocks [A] in use. *)
Record heap_inv (s : ust) (fl A : list Z) : Prop := {
  hi_blocks : blocks_ok (umem s) (brk s) (fl ++ A);
  hi_sorted : StronglySorted Z.lt (base :: fl);
  hi_chain : chain (umem s) base fl base;
  hi_base : bsize (umem s) base = 0;
  hi_freep : freep s ∈ base :: fl;
  hi_range : 0 < base ∧ base + HDR ≤ brk s < W32
}.

(** The sizes and contents of the blocks [A] are kept. *)
Definition kept (m m' : mem) (A : list Z) : Prop :=
  ∀ a x, a ∈ A → a + 4 ≤ x < a + HDR * bsize m a → m' x = m x.

(** The units in a list of blocks. *)
Definition total (m : mem) (l : list Z) : Z := foldr (λ a t, bsize m a + t) 0 l.

Lemma total_app m l1 l2 : total m (l1 ++ l2) = total m l1 + total m l2.
Proof. unfold total. induction l1 as [|a l1 IH]; cbn; [done|]. rewrite IH. lia. Qed.

Lemma total_cons m a l : total m (a :: l) = bsize m a + total m l.
Proof. done. Qed.

Lemma total_ext m m' l : (∀ a, a ∈ l → bsize m' a = bsize m a) → total m' l = total m l.
Proof.
  induction l as [|a l IH]; intros H; [done|]. rewrite !total_cons, H, IH; [done| |by left]. intros; apply H. by right.
Qed.

Lemma blocks_perm m hi B B' : B ≡ₚ B' → blocks_ok m hi B → blocks_ok m hi B'.
Proof.
  intros HB [H1 H2 H3]. split.
  - by rewrite <- HB.
  - intros a Ha. apply H2. by rewrite HB.
  - intros a b Ha Hb. apply H3; by rewrite HB.
Qed.

Lemma blocks_ext m m' hi B : (∀ a, a ∈ B → bsize m' a = bsize m a) → blocks_ok m hi B → blocks_ok m' hi B.
Proof.
  intros He [H1 H2 H3]. split; [done| |].
  - intros a Ha. rewrite He by done. auto.
  - intros a b Ha Hb. rewrite !He by done. auto.
Qed.

(** Joining two neighbours. *)
Lemma blocks_join m m' hi a b B :
  blocks_ok m hi (a :: b :: B) → a + HDR * bsize m a = b → bsize m' a = bsize m a + bsize m b →
  (∀ x, x ∈ B → bsize m' x = bsize m x) → blocks_ok m' hi (a :: B).
Proof.
  intros [H1 H2 H3] Hab Ha HB. apply NoDup_cons in H1 as [N1 [N2 N3]%NoDup_cons].
  assert (a ∈ a :: b :: B ∧ b ∈ a :: b :: B ∧ ∀ x, x ∈ B → x ∈ a :: b :: B) as (Ia & Ib & IB) by mem_tac.
  pose proof (H2 a Ia). pose proof (H2 b Ib). unfold HDR in *.
  assert (∀ x, x ∈ B → x + 8 * bsize m x ≤ a ∨ b + 8 * bsize m b ≤ x) as Hx.
  { intros x Hx. pose proof (H3 x a (IB x Hx) Ia ltac:(mem_tac)). pose proof (H3 x b (IB x Hx) Ib ltac:(mem_tac)).
    pose proof (H2 x (IB x Hx)). lia. }
  split; unfold HDR.
  - apply NoDup_cons. mem_tac.
  - intros x [->|Hx']%elem_of_cons; [lia|]. rewrite HB by done. auto.
  - intros x y [->|Hx']%elem_of_cons [->|Hy']%elem_of_cons Hne; try done.
    + rewrite (HB y) by done. destruct (Hx y Hy'); lia.
    + rewrite (HB x) by done. destruct (Hx x Hx'); lia.
    + rewrite !HB by done. auto.
Qed.

(** Cutting the end off a block. *)
Lemma blocks_cut m m' hi p n B :
  blocks_ok m hi (p :: B) → 0 < n < bsize m p → let q := p + HDR * (bsize m p - n) in
  bsize m' p = bsize m p - n → bsize m' q = n → (∀ x, x ∈ B → bsize m' x = bsize m x) →
  blocks_ok m' hi (q :: p :: B).
Proof.
  intros [H1 H2 H3] Hn q Hp Hq HB. apply NoDup_cons in H1 as [N1 N2]. unfold HDR in *.
  assert (p ∈ p :: B ∧ ∀ x, x ∈ B → x ∈ p :: B) as (Ip & IB) by mem_tac. pose proof (H2 p Ip).
  assert (∀ x, x ∈ B → x + 8 * bsize m x ≤ p ∨ p + 8 * bsize m p ≤ x) as Hx.
  { intros x Hx. pose proof (H3 x p (IB x Hx) Ip ltac:(mem_tac)). lia. }
  assert (q ∉ B) as Nq. { intros Hin. pose proof (Hx q Hin). pose proof (H2 q (IB q Hin)). lia. }
  split; unfold HDR.
  - rewrite !NoDup_cons, not_elem_of_cons. split_and!; try done. lia.
  - intros x [->|[->|Hx']%elem_of_cons]%elem_of_cons; [lia..|]. rewrite HB by done. auto.
  - intros x y [->|[->|Hx']%elem_of_cons]%elem_of_cons [->|[->|Hy']%elem_of_cons]%elem_of_cons Hne; try done.
    all: try lia; try (rewrite (HB x) by done; destruct (Hx _ Hx'); lia); try (rewrite (HB y) by done; destruct (Hx _ Hy'); lia).
    rewrite !HB by done. auto.
Qed.

(** New memory at the end. *)
Lemma blocks_new m m' hi hi' n B :
  blocks_ok m hi B → base + HDR ≤ hi → 1 ≤ n → hi' = hi + HDR * n → bsize m' hi = n →
  (∀ x, x ∈ B → bsize m' x = bsize m x) → blocks_ok m' hi' (hi :: B).
Proof.
  intros [H1 H2 H3] Hb Hn -> Hs HB. unfold HDR in *.
  assert (hi ∉ B) as Nh. { intros Hin. pose proof (H2 hi Hin). lia. }
  split; unfold HDR.
  - by apply NoDup_cons.
  - intros x [->|Hx]%elem_of_cons; [lia|]. rewrite HB by done. pose proof (H2 x Hx). lia.
  - intros x y [->|Hx]%elem_of_cons [->|Hy]%elem_of_cons Hne; try done.
    + right. rewrite (HB y) by done. apply H2 in Hy. lia.
    + left. rewrite (HB x) by done. apply H2 in Hx. lia.
    + rewrite !HB by done. auto.
Qed.

(** ** free *)

(** The place of an address in the sorted list. *)
Lemma sorted_place l b : StronglySorted Z.lt l → b ∉ l →
  ∃ l1 l2, l = l1 ++ l2 ∧ Forall (λ x, x < b) l1 ∧ Forall (λ x, b < x) l2.
Proof.
  induction 1 as [|a l Hs IH Ha]; intros Hb; [by exists [], []|].
  apply not_elem_of_cons in Hb as [Hab Hb]. destruct (IH Hb) as (l1 & l2 & -> & H1 & H2).
  destruct (decide (a < b)) as [Hlt|Hge].
  - exists (a :: l1), l2. split_and!; try done. by constructor.
  - exists [], (a :: l1 ++ l2). split_and!; try done. constructor; [lia|].
    eapply Forall_impl; [exact Ha|]. cbn. lia.
Qed.

Lemma free_find_low s bp l x f :
  links (umem s) x l → StronglySorted Z.lt (x :: l) → x < bp → Forall (λ y, y < bp) l →
  free_find (length l + f) bp x s = free_find f bp (lastz x l) s.
Proof.
  revert x. induction l as [|y l IH]; intros x Hl [Hs Hx]%StronglySorted_inv Hb Hf; [done|].
  destruct Hl as [Hxy Hl]. apply Forall_cons in Hx as [Hx _], Hf as [Hy Hf]. cbn [length Nat.add free_find].
  unfold bind at 1, gets at 1. cbn [obind]. change (ptr_of x s) with (ld32 (umem s) x). rewrite Hxy, lastz_cons.
  rewrite (proj2 (Z.ltb_lt x bp)), (proj2 (Z.ltb_ge bp y)), (proj2 (Z.leb_gt y x)) by lia. cbn [andb]. by apply IH.
Qed.

Lemma free_find_high s bp l x f :
  chain (umem s) x l base → StronglySorted Z.lt (x :: l) → bp < x → Forall (λ y, bp < y) l → base < bp →
  free_find (S (length l) + f) bp x s = free_find f bp base s.
Proof.
  revert x. induction l as [|y l IH]; intros x Hl [Hs Hx]%StronglySorted_inv Hb Hf Hbase.
  - cbn [length Nat.add free_find]. unfold bind at 1, gets at 1. cbn [obind]. change (ptr_of x s) with (ld32 (umem s) x).
    cbn in Hl. rewrite Hl, (proj2 (Z.ltb_ge x bp)), (proj2 (Z.ltb_ge bp base)) by lia. cbn [andb orb]. by rewrite andb_false_r.
  - destruct Hl as [Hxy Hl]. apply Forall_cons in Hx as [Hx _], Hf as [Hy Hf]. cbn [length Nat.add free_find].
    unfold bind at 1, gets at 1. cbn [obind]. change (ptr_of x s) with (ld32 (umem s) x). rewrite Hxy.
    rewrite (proj2 (Z.ltb_ge x bp)), (proj2 (Z.leb_gt y x)) by lia. cbn [andb]. by apply IH.
Qed.

Lemma free_find_stop s bp l1 l2 f :
  chain (umem s) (lastz base l1) l2 base → StronglySorted Z.lt (base :: l1 ++ l2) →
  base < bp → Forall (λ y, y < bp) l1 → Forall (λ y, bp < y) l2 →
  free_find (S f) bp (lastz base l1) s = Ret (lastz base l1) s.
Proof.
  intros Hc Hs Hb H1 H2. cbn [free_find]. unfold bind at 1, gets at 1. cbn [obind].
  change (ptr_of (lastz base l1) s) with (ld32 (umem s) (lastz base l1)).
  assert (lastz base l1 < bp ∧ base ≤ lastz base l1) as [Hp Hpb].
  { apply StronglySorted_inv in Hs as [_ Hs]. rewrite Forall_forall in Hs, H1.
    pose proof (lastz_in base l1) as Hin. apply elem_of_cons in Hin as [Hin|Hin]; [lia|].
    pose proof (Hs _ (proj2 (elem_of_app _ _ _) (or_introl Hin))). specialize (H1 _ Hin). lia. }
  rewrite (proj2 (Z.ltb_lt (lastz base l1) bp)) by lia. destruct l2 as [|y l2]; cbn in Hc.
  - rewrite Hc, (proj2 (Z.leb_le base _)) by lia. cbn. by destruct (bp <? base).
  - destruct Hc as [-> _]. apply Forall_cons in H2 as [Hy _]. by rewrite (proj2 (Z.ltb_lt bp y)).
Qed.

Lemma free_find_run s bp l1 l2 fuel :
  chain (umem s) base (l1 ++ l2) base → StronglySorted Z.lt (base :: l1 ++ l2) → freep s ∈ base :: l1 ++ l2 →
  base < bp → Forall (λ y, y < bp) l1 → Forall (λ y, bp < y) l2 → (length (l1 ++ l2) + 2 ≤ fuel)%nat →
  free_find fuel bp (freep s) s = Ret (lastz base l1) s.
Proof.
  intros Hc Hs Hf Hb H1 H2 Hfuel. rewrite length_app in Hfuel. pose proof Hc as [Hl Hc2]%chain_split.
  assert (∀ f, free_find (length l1 + S f) bp base s = Ret (lastz base l1) s) as Hbase.
  { intros f. rewrite free_find_low; try done; [by apply (free_find_stop _ _ l1 l2)|]. by apply (StronglySorted_app_1_l _ (base :: l1) l2). }
  rewrite app_comm_cons in Hf. apply elem_of_app in Hf as [Hf|Hf].
  - apply list_elem_of_split in Hf as (X & Y & EX).
    assert (links (umem s) (freep s) Y ∧ lastz (freep s) Y = lastz base l1 ∧ freep s < bp ∧ Forall (λ y, y < bp) Y ∧
      StronglySorted Z.lt (freep s :: Y)) as (HY & Hlast & Hfb & HYb & HYs).
    { rewrite app_comm_cons, EX in Hs. rewrite <- app_assoc in Hs. apply StronglySorted_app_1_r in Hs. cbn in Hs.
      rewrite app_comm_cons in Hs. apply StronglySorted_app_1_l in Hs.
      destruct X as [|b X]; injection EX as E1 E2; [rewrite <- E1, <- E2 in *; done|]. rewrite E2 in *.
      rewrite <- app_assoc in Hc. cbn in Hc. apply chain_split in Hc as [_ [_ Hc]]. apply chain_split in Hc as [HY _].
      apply Forall_app in H1 as [_ [Hq H1]%Forall_cons]. split_and!; try done.
      unfold lastz. rewrite last_app_cons, last_cons. by destruct (last Y). }
    replace fuel with (length Y + S (fuel - length Y - 1))%nat.
    + rewrite free_find_low by done. rewrite Hlast. by apply (free_find_stop _ _ l1 l2).
    + apply (f_equal length) in EX. rewrite length_app in EX. cbn in EX. lia.
  - apply list_elem_of_split in Hf as (X & Y & ->). apply chain_split in Hc2 as [_ [_ HY]]. cbn in HY.
    rewrite app_comm_cons, app_assoc in Hs. apply StronglySorted_app_1_r in Hs.
    apply Forall_app in H2 as [_ [Hq H2]%Forall_cons]. rewrite length_app in Hfuel. cbn in Hfuel.
    replace fuel with (S (length Y) + (length l1 + S (fuel - length Y - length l1 - 2)))%nat by lia.
    rewrite free_find_high by done. apply Hbase.
Qed.

(** What free does to the memory once the place is found: the links and joins
    with the next and with the previous block. *)
Definition link_next (m : mem) (bp nx : Z) : mem :=
  if bp + HDR * bsize m bp =? nx then
    let m1 := st32 m (bp + 4) (u32 (bsize m bp + bsize m nx)) in st32 m1 bp (ld32 m1 nx)
  else st32 m bp nx.

Definition link_prev (m : mem) (p bp : Z) : mem :=
  if p + HDR * bsize m p =? bp then
    let m1 := st32 m (p + 4) (u32 (bsize m p + bsize m bp)) in st32 m1 p (ld32 m1 bp)
  else st32 m p bp.

Lemma free_run fuel ap s p :
  free_find fuel (ap - HDR) (freep s) s = Ret p s →
  free fuel ap s = Ret tt (mk_ust (link_prev (link_next (umem s) (ap - HDR) (ld32 (umem s) p)) p (ap - HDR)) p (brk s)).
Proof.
  intros E. unfold free. unfold bind at 1, gets at 1. cbn [obind]. rewrite (bind_Ret _ _ _ _ _ E). clear E.
  unfold link_prev, link_next, set_size, set_ptr, size_of, ptr_of, bsize, bind, gets, ret, modify. cbn [obind].
  destruct (_ =? _); cbn [obind umem set_umem]; destruct (_ =? _); done.
Qed.

Definition only_hdr (m m' : mem) (c : Z) : Prop := ∀ x, x < c ∨ c + HDR ≤ x → m' x = m x.

Lemma only_hdr_st32 m c d v : d = 0 ∨ d = 4 → only_hdr m (st32 m (c + d) v) c.
Proof. intros Hd x Hx. unfold HDR in Hx. apply st32_other. lia. Qed.

Lemma only_hdr_trans m m1 m2 c : only_hdr m m1 c → only_hdr m1 m2 c → only_hdr m m2 c.
Proof. intros H1 H2 x Hx. by rewrite H2, H1. Qed.

Lemma only_hdr_fields m m' c a : only_hdr m m' c → a + HDR ≤ c ∨ c + HDR ≤ a → ld32 m' a = ld32 m a ∧ bsize m' a = bsize m a.
Proof. unfold HDR, bsize. intros H Ha. unfold ld32. rewrite !H by (unfold HDR; lia). done. Qed.

Lemma only_hdr_link_next m bp nx : only_hdr m (link_next m bp nx) bp.
Proof.
  assert (∀ m v, only_hdr m (st32 m bp v) bp) as H by (intros; rewrite <- (Z.add_0_r bp) at 1; apply only_hdr_st32; lia).
  unfold link_next. destruct (_ =? _); [|apply H]. eapply only_hdr_trans; [apply only_hdr_st32; by right|apply H].
Qed.

Lemma only_hdr_link_prev m p bp : only_hdr m (link_prev m p bp) p.
Proof.
  assert (∀ m v, only_hdr m (st32 m p v) p) as H by (intros; rewrite <- (Z.add_0_r p) at 1; apply only_hdr_st32; lia).
  unfold link_prev. destruct (_ =? _); [|apply H]. eapply only_hdr_trans; [apply only_hdr_st32; by right|apply H].
Qed.

(** Headers of blocks do not overlap. *)
Lemma headers_apart m hi B a b : blocks_ok m hi B → a ∈ B → b ∈ B → a ≠ b → a + HDR ≤ b ∨ b + HDR ≤ a.
Proof.
  intros [_ H2 H3] Ha Hb Hne. pose proof (H2 a Ha). pose proof (H2 b Hb). pose proof (H3 a b Ha Hb Hne). unfold HDR in *. lia.
Qed.

Lemma link_next_ok m hi bp p F2 R :
  blocks_ok m hi (bp :: F2 ++ R) → 0 < base → hi < W32 → chain m p F2 base →
  let m1 := link_next m bp (ld32 m p) in
  ∃ F2', (F2' = F2 ∨ ∃ n, F2 = n :: F2') ∧ chain m1 bp F2' base ∧ blocks_ok m1 hi (bp :: F2' ++ R) ∧
    total m1 (bp :: F2') = bsize m bp + total m F2 ∧ bsize m bp ≤ bsize m1 bp.
Proof.
  intros Hb Hbase Hhi Hc m1. pose proof Hb as [_ Hr _]. pose proof (only_hdr_link_next m bp (ld32 m p)) as Ho.
  assert (∀ x, x ∈ F2 ++ R → ld32 m1 x = ld32 m x ∧ bsize m1 x = bsize m x) as Hf.
  { intros x Hx. apply (only_hdr_fields _ _ bp); [done|]. apply (headers_apart m hi _ x bp Hb); [by right|by left|].
    intros ->. by apply bo_nodup, NoDup_cons in Hb as [? _]. }
  pose proof (Hr bp ltac:(by left)) as (Hr1 & Hr2 & Hr3). unfold HDR in Hr1, Hr3.
  assert (∀ x, x ∈ F2 ++ [base] → 0 ≤ x < W32) as Hw.
  { intros x [Hx| ->%list_elem_of_singleton]%elem_of_app; [|lia]. destruct (Hr x ltac:(mem_tac)). unfold HDR in *. lia. }
  subst m1. unfold link_next in *. destruct F2 as [|n F2].
  - cbn in Hc. rewrite Hc in *. rewrite (proj2 (Z.eqb_neq _ _)) in * by (unfold HDR; lia). exists []. split_and!; [by left|..].
    + cbn. rewrite ld32_st32. apply u32_small, Hw. mem_tac.
    + apply (blocks_ext m); [|done]. intros a [->|Ha]%elem_of_cons; [unfold bsize; rewrite ld32_st32_ne by lia; done|by apply Hf].
    + rewrite total_cons. unfold bsize at 1. by rewrite ld32_st32_ne by lia.
    + unfold bsize. by rewrite ld32_st32_ne by lia.
  - destruct Hc as [Hn Hc]. rewrite Hn in *. destruct (_ =? _) eqn:E; bools.
    + exists F2. split; [eauto|]. cbn zeta in *. set (m0 := st32 m (bp + 4) _) in *.
      assert (ld32 m0 n = ld32 m n) as En.
      { unfold m0. rewrite ld32_st32_ne; [done|]. destruct (headers_apart m hi _ n bp Hb ltac:(mem_tac) ltac:(mem_tac)); unfold HDR in *; [|lia..].
        intros ->. by apply bo_nodup, NoDup_cons in Hb as [? _]; mem_tac. }
      assert (bsize (st32 m0 bp (ld32 m0 n)) bp = bsize m bp + bsize m n) as Es.
      { unfold bsize. rewrite ld32_st32_ne by lia. unfold m0. rewrite ld32_st32, u32_idemp. apply u32_small.
        fold (bsize m bp) (bsize m n). pose proof (Hr n ltac:(mem_tac)). unfold HDR in *. lia. }
      split_and!.
      * apply (chain_move m _ n bp); [|mem_tac|done]. rewrite ld32_st32, En. apply u32_small, Hw.
        pose proof (chain_range _ _ _ _ n Hc ltac:(by left)). mem_tac.
      * apply (blocks_join m _ hi bp n); try done. mem_tac.
      * rewrite !total_cons, Es, (total_ext m); [lia|mem_tac].
      * pose proof (Hr n ltac:(mem_tac)). lia.
    + exists (n :: F2). split; [by left|]. split_and!.
      * cbn [chain]. rewrite ld32_st32. split; [apply u32_small, Hw; mem_tac|]. apply (uchain_frame m); [|done]. mem_tac.
      * apply (blocks_ext m); [|done]. intros a [->|Ha]%elem_of_cons; [unfold bsize; rewrite ld32_st32_ne by lia; done|by apply Hf].
      * rewrite (total_cons _ bp). unfold bsize at 1. rewrite ld32_st32_ne by lia. rewrite (total_ext m); [done|mem_tac].
      * unfold bsize. by rewrite ld32_st32_ne by lia.
Qed.

Lemma link_prev_ok m hi bp F1 F2 A :
  blocks_ok m hi (bp :: F1 ++ F2 ++ A) → 0 < base → hi < W32 → NoDup (base :: F1) → bsize m base = 0 →
  links m base F1 → chain m bp F2 base →
  let p := lastz base F1 in let m2 := link_prev m p bp in
  ∃ fl, (fl = F1 ++ bp :: F2 ∨ fl = F1 ++ F2) ∧ chain m2 base fl base ∧ blocks_ok m2 hi (fl ++ A) ∧ bsize m2 base = 0 ∧
    total m2 fl = total m F1 + bsize m bp + total m F2 ∧ ∃ b, b ∈ fl ∧ bsize m bp ≤ bsize m2 b.
Proof.
  intros Hb Hbase Hhi Hnd H0 Hl Hc p m2. pose proof Hb as [Hn Hr _]. pose proof (only_hdr_link_prev m p bp) as Ho. fold m2 in Ho.
  apply NoDup_cons in Hn as [Hbp Hn].
  assert (p = base ∨ p ∈ F1) as Hp by (pose proof (lastz_in base F1) as Hin; by apply elem_of_cons in Hin).
  assert (∀ x, x ∈ bp :: F1 ++ F2 ++ A → base + HDR ≤ x) as Hlow by (intros x Hx; by apply Hr).
  assert (∀ x, x ∈ base :: bp :: F1 ++ F2 ++ A → x ≠ p → ld32 m2 x = ld32 m x ∧ bsize m2 x = bsize m x) as Hf.
  { intros x Hx Hne. apply (only_hdr_fields _ _ p); [done|]. destruct Hp as [Hp|Hp].
    - rewrite Hp in *. right. apply Hlow. mem_tac.
    - apply elem_of_cons in Hx as [->|Hx]; [left; apply Hlow; mem_tac|]. apply (headers_apart m hi _ x p Hb); [done|mem_tac|done]. }
  assert (links m2 base F1) as Hl2.
  { apply (links_frame m); try done. intros x Hx Hne. apply Hf; [mem_tac|done]. }
  assert (∀ x, x ∈ bp :: F2 ++ A → x ≠ p) as Hnp.
  { intros x Hx ->. destruct Hp as [Hp|Hp]; [rewrite Hp in Hx; pose proof (Hlow base ltac:(mem_tac)); unfold HDR in *; lia|].
    apply elem_of_cons in Hx as [->|Hx]; [mem_tac|]. apply NoDup_app in Hn as (_ & Hn & _). by apply (Hn p). }
  assert (bp ≠ p ∧ 0 ≤ bp < W32) as [Hne Hw].
  { split; [apply Hnp; by left|]. pose proof (Hr bp ltac:(by left)). unfold HDR in *. lia. }
  unfold m2, link_prev in *. destruct (_ =? _) eqn:E; bools.
  - destruct Hp as [Hp|Hp]; [rewrite Hp in E; pose proof (Hlow bp ltac:(by left)); unfold HDR in *; lia|].
    exists (F1 ++ F2). split; [by right|]. cbn zeta in *. set (m0 := st32 m (p + 4) _) in *.
    assert (ld32 m0 bp = ld32 m bp) as En.
    { unfold m0. apply ld32_st32_ne. destruct (headers_apart m hi _ bp p Hb ltac:(mem_tac) ltac:(mem_tac) Hne); unfold HDR in *; lia. }
    assert (bsize (st32 m0 p (ld32 m0 bp)) p = bsize m p + bsize m bp) as Es.
    { unfold bsize. rewrite ld32_st32_ne by lia. unfold m0. rewrite ld32_st32, u32_idemp. apply u32_small.
      fold (bsize m bp) (bsize m p). pose proof (Hr p ltac:(mem_tac)). pose proof (Hr bp ltac:(by left)). unfold HDR in *. lia. }
    assert (base ≠ p) as Hbp0. { intros Eb. apply NoDup_cons in Hnd as [Hnd _]. by rewrite <- Eb in Hp. }
    apply list_elem_of_split in Hp as (X & Y & EX).
    assert (∀ x, x ∈ (X ++ Y) ++ F2 ++ A → x ≠ p) as Hxy.
    { intros x Hx ->. rewrite EX, <- !app_assoc in Hn. cbn in Hn. rewrite <- (Permutation_middle X) in Hn.
      apply NoDup_cons in Hn as [Hn _]. by rewrite <- !app_assoc in Hx. }
    split_and!.
    + apply chain_split. split; [done|]. apply (chain_move m _ bp p); [|mem_tac|done]. fold p. rewrite ld32_st32, En. apply u32_small.
      pose proof (chain_range _ _ _ _ bp Hc ltac:(by left)) as Hin.
      apply elem_of_app in Hin as [Hin| ->%list_elem_of_singleton]; [|pose proof (Hr bp ltac:(by left)); unfold HDR in *; lia].
      pose proof (Hr (ld32 m bp) ltac:(mem_tac)). unfold HDR in *. lia.
    + rewrite EX in *. apply (blocks_perm _ _ (p :: (X ++ Y) ++ F2 ++ A)); [by rewrite <- !app_assoc, Permutation_middle|].
      apply (blocks_join m _ hi p bp); try done.
      * eapply blocks_perm; [|exact Hb]. rewrite <- !app_assoc. cbn. rewrite <- (Permutation_middle X). apply Permutation_swap.
      * intros x Hx. apply Hf; [mem_tac|by apply Hxy].
    + destruct (Hf base) as [_ ->]; [by left|done|done].
    + rewrite EX in *. rewrite !total_app, !total_cons, Es.
      rewrite (total_ext m _ X), (total_ext m _ Y), (total_ext m _ F2) by (intros; apply Hf; [mem_tac|apply Hxy; mem_tac]). lia.
    + exists p. split; [rewrite EX; mem_tac|]. rewrite Es. pose proof (Hr p ltac:(rewrite EX; mem_tac)). lia.
  - assert (∀ x, x ∈ bp :: F1 ++ F2 ++ A → bsize (st32 m p bp) x = bsize m x) as Hsz.
    { intros x Hx. destruct (decide (x = p)) as [Ex|]; [|by apply Hf; [right|]]. rewrite Ex. unfold bsize. by rewrite ld32_st32_ne by lia. }
    exists (F1 ++ bp :: F2). split; [by left|]. split_and!.
    + apply chain_split. split; [done|]. fold p. cbn [chain]. rewrite ld32_st32. split; [by apply u32_small|].
      apply (uchain_frame m); [|done]. intros x Hx. apply Hf; [mem_tac|]. apply Hnp. mem_tac.
    + apply (blocks_perm _ _ (bp :: F1 ++ F2 ++ A)); [by rewrite <- !app_assoc, Permutation_middle|]. by apply (blocks_ext m).
    + destruct (decide (base = p)) as [Ex|]; [unfold bsize in *; by rewrite <- Ex, ld32_st32_ne by lia|]. destruct (Hf base) as [_ ->]; [by left|done..].
    + rewrite total_app, total_cons, Hsz by (by left). rewrite (total_ext m _ F1), (total_ext m _ F2) by (intros; apply Hsz; mem_tac). lia.
    + exists bp. split; [mem_tac|]. by rewrite Hsz by (by left).
Qed.

Lemma kept_only m m' c A : only_hdr m m' c → (∀ a, a ∈ A → a + HDR * bsize m a ≤ c ∨ c + HDR ≤ a) → kept m m' A.
Proof. intros Ho Ha a x Hin Hx. apply Ho. destruct (Ha a Hin); unfold HDR in *; lia. Qed.

Lemma kept_bsize m m' A a : kept m m' A → a ∈ A → 1 ≤ bsize m a → bsize m' a = bsize m a.
Proof. intros Hk Ha Hs. unfold HDR, bsize in *. unfold ld32. rewrite !(Hk a) by (try done; unfold HDR, bsize; lia). done. Qed.

Lemma kept_trans m m1 m2 A : kept m m1 A → kept m1 m2 A → (∀ a, a ∈ A → 1 ≤ bsize m a) → kept m m2 A.
Proof. intros H1 H2 Hs a x Ha Hx. rewrite (H2 a), (H1 a); [done..|]. rewrite (kept_bsize m m1 A a); auto. Qed.

Lemma sorted_remove l1 x l2 : StronglySorted Z.lt (l1 ++ x :: l2) → StronglySorted Z.lt (l1 ++ l2).
Proof.
  rewrite !StronglySorted_app. intros (H1 & H2 & [H3 _]%StronglySorted_inv). split_and!; try done. intros. apply H1; [done|by right].
Qed.

Lemma sorted_insert l1 x l2 : StronglySorted Z.lt (l1 ++ l2) → Forall (λ y, y < x) l1 → Forall (λ y, x < y) l2 →
  StronglySorted Z.lt (l1 ++ x :: l2).
Proof.
  rewrite !StronglySorted_app, !Forall_forall. intros (H1 & H2 & H3) Hl Hr. split_and!; [|done|by constructor; [|apply Forall_forall]].
  intros a b Ha [->|Hb]%elem_of_cons; [by apply Hl|by apply H1].
Qed.

Lemma sorted_nodup l : StronglySorted Z.lt l → NoDup l.
Proof.
  induction 1 as [|a l Hs IH Ha]; constructor; [|done]. intros Hin. rewrite Forall_forall in Ha. specialize (Ha a Hin). lia.
Qed.

(** The list after a place was filled, with or without the next element. *)
Lemma sorted_link F1 bp F2 F2' :
  StronglySorted Z.lt (base :: F1 ++ F2) → base < bp → Forall (λ y, y < bp) F1 → Forall (λ y, bp < y) F2 →
  F2' = F2 ∨ (∃ n, F2 = n :: F2') →
  StronglySorted Z.lt (base :: F1 ++ bp :: F2') ∧ StronglySorted Z.lt (base :: F1 ++ F2').
Proof.
  intros Hs Hb H1 H2 H. rewrite !app_comm_cons in *.
  assert (StronglySorted Z.lt ((base :: F1) ++ F2') ∧ Forall (λ y, bp < y) F2') as [Hs' H2'].
  { destruct H as [->|[n ->]]; [done|]. split; [by eapply sorted_remove|by apply Forall_cons in H2 as [_ ?]]. }
  split; [|done]. apply sorted_insert; [done|by constructor|done].
Qed.

(** free with the invariant, and the largest free block it leaves. *)
Lemma free_ok fuel s fl bp A A0 :
  heap_inv s fl A0 → A0 ≡ₚ bp :: A → (length fl + 2 ≤ fuel)%nat →
  ∃ fl' s', free fuel (bp + HDR) s = Ret tt s' ∧ heap_inv s' fl' A ∧ brk s' = brk s ∧ kept (umem s) (umem s') A ∧
    total (umem s') fl' = total (umem s) fl + bsize (umem s) bp ∧ (length fl' ≤ S (length fl))%nat ∧
    ∃ b, b ∈ fl' ∧ bsize (umem s) bp ≤ bsize (umem s') b.
Proof.
  intros [Hb Hs Hc H0 Hf Hr] HA Hfuel.
  assert (blocks_ok (umem s) (brk s) (bp :: fl ++ A)) as Hb1.
  { eapply blocks_perm; [|exact Hb]. by rewrite HA, Permutation_middle. }
  pose proof Hb1 as [Hn Hrg Hd]. apply NoDup_cons in Hn as [Hbp Hn].
  destruct (sorted_place (fl) bp) as (F1 & F2 & -> & H1 & H2); [by apply StronglySorted_inv in Hs as [? _]|mem_tac|].
  assert (base < bp) as Hbase by (pose proof (Hrg bp ltac:(by left)); unfold HDR in *; lia).
  pose proof (free_find_run s bp F1 F2 fuel Hc Hs Hf Hbase H1 H2 Hfuel) as E.
  replace bp with (bp + HDR - HDR) in E at 1 by lia. apply free_run in E. replace (bp + HDR - HDR) with bp in E by lia.
  apply chain_split in Hc as [Hl Hc]. set (p := lastz base F1) in *. set (m1 := link_next _ _ _) in E.
  destruct (link_next_ok (umem s) (brk s) bp p F2 (F1 ++ A)) as (F2' & HF2 & Hc1 & Hb2 & Ht1 & Hz1); [|lia|lia|done|].
  { eapply blocks_perm; [|exact Hb1]. f_equiv. rewrite <- app_assoc. apply Permutation_app_swap_app. }
  fold m1 in Hc1, Hb2, Ht1, Hz1. pose proof (only_hdr_link_next (umem s) bp (ld32 (umem s) p)) as Ho1. fold m1 in Ho1.
  assert (∀ x, x ∈ base :: (F1 ++ F2) ++ A → ld32 m1 x = ld32 (umem s) x ∧ bsize m1 x = bsize (umem s) x) as Hf1.
  { intros x [->|Hx]%elem_of_cons; apply (only_hdr_fields _ _ bp); try done; [left; apply Hrg; by left|].
    apply (headers_apart _ _ _ x bp Hb1); [by right|by left|]. by intros ->. }
  assert (NoDup (base :: F1)) as Hnd by (apply sorted_nodup; by apply (StronglySorted_app_1_l _ (base :: F1) F2)).
  destruct (link_prev_ok m1 (brk s) bp F1 F2' A) as (fl & Hfl & Hc2 & Hb3 & Hz & Ht & Hbig); [|lia|lia|done| | |done|].
  { eapply blocks_perm; [|exact Hb2]. f_equiv. apply Permutation_app_swap_app. }
  { destruct (Hf1 base) as [_ ->]; [by left|done]. }
  { apply (links_frame (umem s)); try done. intros x Hx _. apply Hf1. mem_tac. }
  fold p in Hc2, Hb3, Hz, Ht, Hbig. set (m2 := link_prev m1 p bp) in *.
  destruct (sorted_link F1 bp F2 F2' Hs Hbase H1 H2 HF2) as [Hs1 Hs2].
  assert (p ∈ base :: fl) as Hp. { pose proof (lastz_in base F1). fold p in H. destruct Hfl as [-> | ->]; mem_tac. }
  exists fl, (mk_ust m2 p (brk s)). split; [exact E|]. clear E. split_and!.
  - split; try done. by destruct Hfl as [-> | ->].
  - done.
  - apply (kept_trans _ m1); [| |intros a Ha; apply Hrg; mem_tac].
    + apply (kept_only _ _ bp); [done|]. intros a Ha. destruct (Hd a bp ltac:(mem_tac) ltac:(by left)) as [?|?]; [by intros ->; mem_tac|by left|].
      right. pose proof (Hrg bp ltac:(by left)). unfold HDR in *. lia.
    + apply (kept_only _ _ p); [apply only_hdr_link_prev|]. intros a Ha. destruct (Hf1 a) as [_ ->]; [mem_tac|].
      pose proof (lastz_in base F1) as Hin. fold p in Hin. apply elem_of_cons in Hin as [->|Hin]; [right; apply Hrg; mem_tac|].
      destruct (Hd a p ltac:(mem_tac) ltac:(mem_tac)) as [?|?]; [|by left|right; pose proof (Hrg p ltac:(mem_tac)); unfold HDR in *; lia].
      intros ->. apply NoDup_app in Hn as (_ & Hn & _). apply (Hn p); mem_tac.
  - cbn [umem]. rewrite Ht, total_app, (total_ext (umem s) m1 F1) by (intros; apply Hf1; mem_tac). rewrite total_cons in Ht1. lia.
  - rewrite !length_app in *. destruct Hfl as [-> | ->]; rewrite length_app; cbn [length]; destruct HF2 as [->|[n ->]]; cbn [length]; lia.
  - destruct Hbig as (b & Hin & Hsz). exists b. split; [done|]. cbn [umem]. lia.
Qed.

End heap.
