(* ===== verification/UmallocSpec.v ===== *)
(** * malloc and free keep the heap (umalloc.c)

    The theorems about the allocator of [Umalloc]: malloc returns and hands out
    a block that is large enough and disjoint from every block in use, or null
    when sbrk fails; free returns, puts the block back and loses nothing; both
    leave the contents of the blocks in use alone. *)
From stdpp Require Import sorting.
From S2P Require Import Prelude Kernel CString Umalloc.

Local Open Scope Z_scope.
Local Open Scope kernel_scope.

Section heap.
  Variable base : Z.
  Variable avail : Z → Z → bool.

#[local] Notation heap_inv := (heap_inv base).
#[local] Notation blocks_ok := (blocks_ok base).

(** ** malloc *)

(** The circle seen from [freep]. *)
Lemma circle_from s fl A : heap_inv s fl A →
  ∃ c, chain (umem s) (freep s) c (freep s) ∧ freep s :: c ≡ₚ base :: fl.
Proof.
  intros [_ _ Hc _ Hf _]. destruct (decide (freep s = base)) as [->|Hne]; [by exists fl|].
  apply elem_of_cons in Hf as [?|Hf]; [done|]. apply list_elem_of_split in Hf as (X & Y & ->).
  apply chain_split in Hc as [HX [HXf HY]]. exists (Y ++ base :: X). split.
  - apply chain_join; [done|]. rewrite <- (app_nil_r X). by apply chain_split.
  - rewrite Permutation_app_comm. cbn. rewrite Permutation_swap. f_equiv. by rewrite Permutation_middle.
Qed.

(** What malloc does with a block that is large enough. *)
Definition take_block (n prevp p : Z) : M ust Z :=
  sz <- gets (size_of p);;
  r <- (if sz =? n then nx <- gets (ptr_of p);; set_ptr prevp nx;; ret p
        else set_size p (sz - n);; let q := p + HDR * (sz - n) in set_size q n;; ret q);;
  modify (set_freep prevp);;
  ret (r + HDR).

(** And when it came around without finding one. *)
Definition grow (fuel : nat) (n : Z) : M ust Z :=
  p <- morecore avail fuel n;;
  if p =? 0 then ret 0 else nx <- gets (ptr_of p);; malloc_loop avail fuel n p nx.

(** The two branches of one round. *)
Lemma malloc_fits f n prevp p s :
  n ≤ bsize (umem s) p → malloc_loop avail (S f) n prevp p s = take_block n prevp p s.
Proof.
  intros H. cbn [malloc_loop]. unfold take_block, bind at 1 3, gets at 1 3. cbn [obind].
  change (size_of p s) with (bsize (umem s) p). by rewrite (proj2 (Z.leb_le _ _)).
Qed.

Lemma malloc_small f n prevp p s :
  bsize (umem s) p < n → malloc_loop avail (S f) n prevp p s =
  (f0 <- gets freep;; p' <- (if p =? f0 then morecore avail f n else ret p);;
   if p' =? 0 then ret 0 else nx <- gets (ptr_of p');; malloc_loop avail f n p' nx) s.
Proof.
  intros H. cbn [malloc_loop]. unfold bind at 1, gets at 1. cbn [obind].
  change (size_of p s) with (bsize (umem s) p). by rewrite (proj2 (Z.leb_gt _ _)).
Qed.

Lemma malloc_scan s n l prevp f :
  chain (umem s) prevp l (freep s) → freep s ∉ l → 0 ∉ l →
  let r := malloc_loop avail (S (length l) + f) n prevp (ld32 (umem s) prevp) s in
  (∃ l1 q l2, l ++ [freep s] = l1 ++ q :: l2 ∧ n ≤ bsize (umem s) q ∧ r = take_block n (lastz prevp l1) q s) ∨
  (Forall (λ x, bsize (umem s) x < n) (l ++ [freep s]) ∧ r = grow f n s).
Proof.
  revert prevp. induction l as [|b l IH]; intros prevp Hc Hf H0; cbn [length Nat.add chain] in *.
  - rewrite Hc. destruct (Z.le_gt_cases n (bsize (umem s) (freep s))) as [Hle|Hgt].
    + left. exists [], (freep s), []. split_and!; [done..|]. by apply malloc_fits.
    + right. split; [by constructor|]. rewrite malloc_small by done. unfold bind at 1, gets at 1. cbn [obind]. by rewrite Z.eqb_refl.
  - destruct Hc as [-> Hc]. apply not_elem_of_cons in Hf as [Hfb Hf], H0 as [H0b H0].
    destruct (Z.le_gt_cases n (bsize (umem s) b)) as [Hle|Hgt].
    + left. exists [], b, (l ++ [freep s]). split_and!; [done..|]. by apply malloc_fits.
    + assert (malloc_loop avail (S (S (length l + f))) n prevp b s = malloc_loop avail (S (length l + f)) n b (ld32 (umem s) b) s) as ->.
      { rewrite malloc_small by done. unfold bind at 1, gets at 1. cbn [obind]. rewrite (proj2 (Z.eqb_neq b (freep s))) by done.
        unfold bind at 1, ret at 1. cbn [obind]. by rewrite (proj2 (Z.eqb_neq b 0)) by done. }
      destruct (IH b Hc Hf H0) as [(l1 & q & l2 & E1 & Hq & Er)|[HF Er]].
      * left. exists (b :: l1), q, l2. rewrite lastz_cons. cbn [app]. rewrite E1. done.
      * right. split; [by constructor|exact Er].
Qed.

Lemma links_range m a l x : links m a l → x ∈ a :: l → x ≠ lastz a l → ld32 m x ∈ l.
Proof.
  revert a. induction l as [|b l IH]; intros a; cbn [links].
  - intros _ ->%list_elem_of_singleton. done.
  - rewrite lastz_cons. intros [H1 H2] [->|Hx]%elem_of_cons Hne; [rewrite H1; by left|]. right. by apply (IH b).
Qed.

(** The header before a block is the only one that points to it. *)
Lemma pred_unique m X q Y pr :
  chain m base (X ++ q :: Y) base → NoDup (base :: X ++ q :: Y) → pr ∈ base :: X ++ q :: Y → ld32 m pr = q → pr = lastz base X.
Proof.
  intros [HX HY]%chain_split Hn Hp Hq. destruct (decide (pr = lastz base X)) as [|Hne]; [done|exfalso].
  apply NoDup_cons in Hn as [Hb (HnX & HXY & [HqY _]%NoDup_cons)%NoDup_app]. rewrite app_comm_cons in Hp. apply elem_of_app in Hp as [Hp|Hp].
  - pose proof (links_range _ _ _ _ HX Hp Hne) as Hin. rewrite Hq in Hin. apply (HXY q Hin). by left.
  - destruct HY as [_ HY]. pose proof (chain_range _ _ _ _ _ HY Hp) as Hin. rewrite Hq in Hin.
    apply elem_of_app in Hin as [Hin| ->%list_elem_of_singleton]; [done|]. apply Hb. mem_tac.
Qed.

Lemma only_hdr_ptr m c v : only_hdr m (st32 m c v) c.
Proof. intros x Hx. unfold HDR in Hx. apply st32_other. lia. Qed.

(** A write to one header leaves the others. *)
Lemma other_headers m m' hi B c x :
  blocks_ok m hi B → only_hdr m m' c → c ∈ base :: B → x ∈ base :: B → x ≠ c → ld32 m' x = ld32 m x ∧ bsize m' x = bsize m x.
Proof.
  intros Hb Ho Hc Hx Hne. apply (only_hdr_fields _ _ c); [done|].
  apply elem_of_cons in Hc as [->|Hc], Hx as [->|Hx]; [done|right; by apply Hb|left; by apply Hb|]. by apply (headers_apart base m hi B).
Qed.

Lemma apart_from m hi B c a :
  blocks_ok m hi B → c ∈ base :: B → a ∈ B → a ≠ c → a + HDR * bsize m a ≤ c ∨ c + HDR ≤ a.
Proof.
  intros [_ H2 H3] [->|Hc]%elem_of_cons Ha Hne; [right; by apply H2|].
  pose proof (H2 c Hc). destruct (H3 a c Ha Hc Hne); [by left|]. right. unfold HDR in *. lia.
Qed.

(** The addresses in the circle are words. *)
Lemma circle_word m hi B x : blocks_ok m hi B → 0 < base ∧ base + HDR ≤ hi < W32 → x ∈ base :: B → 0 ≤ x < W32.
Proof.
  intros [_ H2 _] Hr [->|Hx]%elem_of_cons; unfold HDR in *; [lia|]. specialize (H2 x Hx). lia.
Qed.

(** A block taken from the heap: [a] was cut from or was the block [q]. *)
Definition taken (s s' : ust) (fl' A : list Z) (n a : Z) : Prop :=
  heap_inv s' fl' (a :: A) ∧ bsize (umem s') a = n ∧ brk s' = brk s ∧ kept (umem s) (umem s') A.

Lemma take_exact s X q Y A n :
  heap_inv s (X ++ q :: Y) A → bsize (umem s) q = n →
  ∃ s', take_block n (lastz base X) q s = Ret (q + HDR) s' ∧ taken s s' (X ++ Y) A n q.
Proof.
  intros [Hb Hs Hc H0 Hf Hr] Hn. set (p := lastz base X). exists (mk_ust (st32 (umem s) p (ld32 (umem s) q)) p (brk s)). split.
  { unfold take_block, bind at 1, gets at 1. cbn [obind]. change (size_of q s) with (bsize (umem s) q). by rewrite Hn, Z.eqb_refl. }
  apply chain_split in Hc as [HX [Hpq HY]]. fold p in Hpq. pose proof (sorted_nodup _ Hs) as Hnd.
  assert (p = base ∨ p ∈ X) as Hp by (pose proof (lastz_in base X) as Hin; by apply elem_of_cons in Hin).
  assert (base ∉ X ++ q :: Y ∧ (∀ x, x ∈ q :: Y → x ≠ p) ∧ NoDup (base :: X)) as (HbX & Hqp & HndX).
  { apply NoDup_cons in Hnd as [Hb0 Hnd]. apply NoDup_app in Hnd as (Hn1 & Hn2 & Hn3). split_and!; [done| |constructor; [mem_tac|done]].
    intros x Hx ->. destruct Hp as [->|Hp]; [mem_tac|by apply (Hn2 p)]. }
  pose proof (only_hdr_ptr (umem s) p (ld32 (umem s) q)) as Ho. set (m' := st32 _ _ _) in *.
  assert (p ∈ base :: (X ++ q :: Y) ++ A) as Hpin by (destruct Hp as [->|Hp]; mem_tac).
  assert (∀ x, x ∈ base :: (X ++ q :: Y) ++ A → bsize m' x = bsize (umem s) x) as Hsz.
  { intros x Hx. destruct (decide (x = p)) as [Ex|Hne]; [rewrite Ex; unfold bsize, m'; by rewrite ld32_st32_ne by lia|].
    by apply (other_headers (umem s) _ (brk s) ((X ++ q :: Y) ++ A) p). }
  assert (∀ x, x ∈ base :: (X ++ q :: Y) ++ A → x ≠ p → ld32 m' x = ld32 (umem s) x) as Hlx.
  { intros x Hx Hne. by apply (other_headers (umem s) _ (brk s) ((X ++ q :: Y) ++ A) p). }
  split_and!; [split|..]; cbn [umem freep brk].
  - apply (blocks_ext base (umem s)); [intros x Hx; apply Hsz; mem_tac|]. eapply blocks_perm; [|exact Hb].
    rewrite <- !app_assoc. f_equiv. cbn. by rewrite Permutation_middle.
  - rewrite app_comm_cons in *. by eapply sorted_remove.
  - apply chain_split. split; [apply (links_frame (umem s)); [done| |done]; intros x Hx Hne; apply Hlx; [mem_tac|done]|].
    fold p. apply (chain_move (umem s) _ q); [|intros x Hx; apply Hlx; [mem_tac|apply Hqp; mem_tac]|done].
    unfold m'. rewrite ld32_st32. apply u32_small. pose proof (chain_range _ _ _ _ q HY ltac:(by left)) as Hin.
    apply (circle_word _ _ _ _ Hb Hr). mem_tac.
  - rewrite Hsz; [done|by left].
  - destruct Hp as [->|Hp]; mem_tac.
  - done.
  - rewrite Hsz; [done|mem_tac].
  - done.
  - apply (kept_only _ _ p); [done|]. intros a Ha. apply (apart_from (umem s) (brk s) ((X ++ q :: Y) ++ A)); [done|done|mem_tac|].
    intros ->. destruct Hp as [Hp|Hp]; [pose proof (bo_range _ _ _ _ Hb p ltac:(mem_tac)); unfold HDR in *; lia|].
    apply bo_nodup, NoDup_app in Hb as (_ & Hd & _). apply (Hd p); mem_tac.
Qed.

Lemma take_cut s fl A n q pr :
  heap_inv s fl A → q ∈ fl → pr ∈ base :: fl → 0 < n < bsize (umem s) q →
  let a := q + HDR * (bsize (umem s) q - n) in
  ∃ s', take_block n pr q s = Ret (a + HDR) s' ∧ taken s s' fl A n a.
Proof.
  intros [Hb Hs Hc H0 Hf Hr] Hq Hpr Hn a. pose proof Hb as [_ Hrg Hd].
  set (m' := st32 (st32 (umem s) (q + 4) (bsize (umem s) q - n)) (a + 4) n). exists (mk_ust m' pr (brk s)). split.
  { unfold take_block, bind at 1, gets at 1. cbn [obind]. change (size_of q s) with (bsize (umem s) q).
    rewrite (proj2 (Z.eqb_neq _ _)) by lia. done. }
  pose proof (Hrg q ltac:(mem_tac)) as (Hq1 & Hq2 & Hq3). unfold HDR in *.
  assert (∀ x, x < q + 4 ∨ q + 8 * bsize (umem s) q ≤ x → m' x = umem s x) as Ho.
  { intros x Hx. unfold m'. rewrite !st32_other by lia. done. }
  assert (∀ x, x ∈ fl ++ A → x ≠ q → x + 8 * bsize (umem s) x ≤ q ∨ q + 8 * bsize (umem s) q ≤ x) as Hap.
  { intros x Hx Hne. apply Hd; [done|mem_tac|done]. }
  assert (∀ x, x ∈ base :: fl ++ A → x ≠ q → ld32 m' x = ld32 (umem s) x ∧ bsize m' x = bsize (umem s) x) as Hx.
  { intros x [->|Hx]%elem_of_cons Hne; unfold bsize, ld32; [rewrite !Ho by lia; done|].
    pose proof (Hrg x Hx). destruct (Hap x Hx Hne); rewrite !Ho by lia; done. }
  assert (ld32 m' q = ld32 (umem s) q ∧ bsize m' q = bsize (umem s) q - n ∧ bsize m' a = n) as (Hlq & Hsq & Hsa).
  { unfold m'. split_and!.
    - rewrite !ld32_st32_ne by lia. done.
    - unfold bsize at 1. rewrite ld32_st32_ne, ld32_st32 by lia. apply u32_small. lia.
    - unfold bsize at 1. rewrite ld32_st32. apply u32_small. lia. }
  assert (∀ x, x ∈ base :: fl ++ A → ld32 m' x = ld32 (umem s) x) as Hlx.
  { intros x Hin. destruct (decide (x = q)) as [->|]; [done|by apply Hx]. }
  assert (base ≠ q) as Hbq by lia.
  split_and!; [split|..]; cbn [umem freep brk].
  - apply list_elem_of_split in Hq as (X & Y & ->). apply (blocks_perm base _ _ (a :: q :: X ++ Y ++ A)).
    { rewrite <- !app_assoc. cbn. rewrite <- (Permutation_middle X _ q), <- (Permutation_middle Y A a), <- (Permutation_middle X _ a).
      apply Permutation_swap. }
    apply (blocks_cut base (umem s)); try done.
    + eapply blocks_perm; [|exact Hb]. rewrite <- !app_assoc. symmetry. apply Permutation_middle.
    + intros x Hin. apply Hx; [mem_tac|]. intros ->. apply bo_nodup in Hb. rewrite <- app_assoc in Hb. cbn in Hb.
      rewrite <- Permutation_middle in Hb. apply NoDup_cons in Hb as [Hb _]. mem_tac.
  - done.
  - apply (uchain_frame (umem s)); [|done]. intros x Hin. apply Hlx. mem_tac.
  - destruct (Hx base) as [_ ->]; [by left|done..].
  - done.
  - done.
  - done.
  - done.
  - intros x y Hin Hy. apply Ho. unfold HDR in Hy. assert (x ≠ q) as Hne.
    { intros ->. apply bo_nodup, NoDup_app in Hb as (_ & Hd' & _). by apply (Hd' q). }
    destruct (Hap x ltac:(mem_tac) Hne); lia.
Qed.

(** The block before the one that fits. *)
Lemma take_ok s fl A n q pr :
  heap_inv s fl A → q ∈ base :: fl → pr ∈ base :: fl → ld32 (umem s) pr = q → 0 < n ≤ bsize (umem s) q →
  ∃ a fl' s', take_block n pr q s = Ret (a + HDR) s' ∧ taken s s' fl' A n a ∧ (length fl' ≤ length fl)%nat.
Proof.
  intros Hi Hq Hpr Hl Hn. apply elem_of_cons in Hq as [->|Hq]; [rewrite (hi_base _ _ _ _ Hi) in Hn; lia|].
  destruct (decide (bsize (umem s) q = n)) as [He|Hne].
  - apply list_elem_of_split in Hq as (X & Y & ->). pose proof Hi as [_ Hs Hc _ _ _].
    rewrite (pred_unique (umem s) X q Y pr Hc (sorted_nodup _ Hs) Hpr Hl).
    destruct (take_exact s X q Y A n Hi He) as (s' & E & Ht). exists q, (X ++ Y), s'. split_and!; try done. rewrite !length_app. cbn. lia.
  - destruct (take_cut s fl A n q pr Hi Hq Hpr) as (s' & E & Ht); [lia|]. eexists _, fl, s'. split_and!; [exact E|done|lia].
Qed.

(** The kernel keeps processes below KERNBASE (allocuvm in vm.c). *)
Hypothesis avail_limit : ∀ b n, avail b n = true → 0 < n → b + n < 2147483648.

(** Largest request for which no size computation wraps around. *)
Definition MAXALLOC : Z := 2147483584.

Lemma morecore_ok fuel s fl A n :
  heap_inv s fl A → 0 < n → n * HDR < 2147483648 → (length fl + 2 ≤ fuel)%nat →
  morecore avail fuel n s = Ret 0 s ∨
  ∃ fl' s', morecore avail fuel n s = Ret (freep s') s' ∧ heap_inv s' fl' A ∧ kept (umem s) (umem s') A ∧
    (length fl' ≤ S (length fl))%nat ∧ ∃ b, b ∈ fl' ∧ n ≤ bsize (umem s') b.
Proof.
  intros Hi Hn Hw Hfuel. pose proof Hi as [Hb Hs Hc H0 Hf Hr]. unfold HDR in Hr, Hw.
  unfold morecore. set (nu := if n <? 4096 then 4096 else n).
  assert (n ≤ nu ∧ 0 < nu ∧ nu * 8 < 2147483648) as (Hnu1 & Hnu2 & Hnu3) by (unfold nu; destruct (n <? 4096) eqn:E; bools; lia).
  assert (sbrk avail (s32 (nu * HDR)) s =
    if avail (brk s) (nu * 8) then Ret (brk s) (set_brk (u32 (brk s + nu * 8)) s) else Ret (u32 (-1)) s) as Eb.
  { unfold HDR. rewrite s32_small by lia. unfold sbrk, bind, gets, modify, ret. cbn [obind]. by destruct (avail _ _). }
  destruct (avail (brk s) (nu * 8)) eqn:Ea; [right|left; by rewrite (bind_Ret _ _ _ _ _ Eb)].
  pose proof (avail_limit _ _ Ea ltac:(lia)) as Hlim. rewrite (bind_Ret _ _ _ _ _ Eb), (u32_small (brk s + nu * 8)) by (unfold W32; lia).
  rewrite (proj2 (Z.eqb_neq (brk s) _)) by (change (u32 (-1)) with 4294967295; lia). clear Eb.
  unfold bind at 1, set_size at 1, modify at 1. cbn [obind umem set_brk]. set (m1 := st32 _ _ _). set (s1 := set_umem m1 _).
  assert (∀ x, x < brk s → m1 x = umem s x) as Ho by (intros x Hx; apply st32_other; lia).
  assert (∀ x, x ∈ base :: fl ++ A → ld32 m1 x = ld32 (umem s) x ∧ bsize m1 x = bsize (umem s) x) as Hx.
  { intros x Hx. assert (x + 8 ≤ brk s) as Hlt.
    { apply elem_of_cons in Hx as [->|Hx]; [lia|]. pose proof (bo_range _ _ _ _ Hb x Hx). unfold HDR in *. lia. }
    unfold bsize, ld32. rewrite !Ho by lia. done. }
  assert (bsize m1 (brk s) = nu) as Hnew by (unfold bsize, m1; rewrite ld32_st32; apply u32_small; unfold W32; lia).
  assert (heap_inv s1 fl (brk s :: A)) as Hi1.
  { split; cbn [s1 umem brk freep set_umem set_brk]; try done.
    - apply (blocks_perm base _ _ (brk s :: fl ++ A)); [by rewrite Permutation_middle|].
      apply (blocks_new base (umem s) m1 (brk s) _ nu); try done; [unfold HDR; lia..|]. intros x Hin. apply Hx. by right.
    - apply (uchain_frame (umem s)); [|done]. intros x Hin. apply Hx. mem_tac.
    - destruct (Hx base) as [_ ->]; [by left|done].
    - unfold HDR, W32. lia. }
  destruct (free_ok base fuel s1 fl (brk s) A (brk s :: A) Hi1) as (fl' & s2 & E & Hi2 & _ & Hk & _ & Hl & b & Hb2 & Hsz); [done|done|].
  exists fl', s2. rewrite (bind_Ret _ _ _ _ _ E). split_and!; try done.
  - apply (kept_trans _ m1); [|done|].
    + intros a x Ha Hax. apply Ho. pose proof (bo_range _ _ _ _ Hb a ltac:(mem_tac)). lia.
    + intros a Ha. apply (bo_range _ _ _ _ Hb a). mem_tac.
  - exists b. split; [done|]. change (umem s1) with m1 in Hsz. lia.
Qed.

Lemma circle_ready s fl A : heap_inv s fl A →
  ∃ c, chain (umem s) (freep s) c (freep s) ∧ freep s :: c ≡ₚ base :: fl ∧ freep s ∉ c ∧ 0 ∉ c.
Proof.
  intros Hi. destruct (circle_from s fl A Hi) as (c & Hc & Hp). exists c. split_and!; try done.
  - pose proof (sorted_nodup _ (hi_sorted _ _ _ _ Hi)) as Hnd. rewrite <- Hp in Hnd. by apply NoDup_cons in Hnd as [? _].
  - intros H0. assert (0 ∈ base :: fl) as Hin by (rewrite <- Hp; by right). destruct Hi as [Hb _ _ _ _ Hr].
    apply elem_of_cons in Hin as [<-|Hin]; [lia|]. pose proof (bo_range _ _ _ _ Hb 0 ltac:(mem_tac)). unfold HDR in *. lia.
Qed.

(** Where a scan of the circle stops. *)
Lemma scan_place m a c l1 q l2 :
  chain m a c a → c ++ [a] = l1 ++ q :: l2 → q ∈ a :: c ∧ lastz a l1 ∈ a :: c ∧ ld32 m (lastz a l1) = q.
Proof.
  intros Hc E. assert (chain m a (c ++ [a]) (ld32 m a)) as Hc' by (by apply chain_join).
  assert (q ∈ c ++ [a] ∧ ∀ x, x ∈ l1 → x ∈ c ++ [a]) as [Hq Hl1] by (rewrite E; mem_tac).
  rewrite E in Hc'. apply chain_split in Hc' as [_ [Hl _]]. pose proof (lastz_in a l1). mem_tac.
Qed.

(** The search when a block is known to be large enough. *)
Lemma malloc_found s fl A n f b :
  heap_inv s fl A → 0 < n → b ∈ fl → n ≤ bsize (umem s) b → (S (length fl) ≤ f)%nat →
  ∃ a fl' s', malloc_loop avail f n (freep s) (ld32 (umem s) (freep s)) s = Ret (a + HDR) s' ∧ taken s s' fl' A n a ∧
    (length fl' ≤ length fl)%nat.
Proof.
  intros Hi Hn Hb Hsz Hf. destruct (circle_ready s fl A Hi) as (c & Hc & Hp & Hfc & H0c).
  assert (length c = length fl) as Hlen by (apply Permutation_length in Hp; cbn in Hp; lia).
  destruct (malloc_scan s n c (freep s) (f - S (length c)) Hc Hfc H0c) as [(l1 & q & l2 & El & Hq & Er)|[HF _]].
  - replace (S (length c) + (f - S (length c)))%nat with f in Er by lia. rewrite Er.
    assert (∀ x, x ∈ freep s :: c → x ∈ base :: fl) as Hin by (intros x; by rewrite Hp).
    assert (q ∈ freep s :: c ∧ lastz (freep s) l1 ∈ freep s :: c ∧ ld32 (umem s) (lastz (freep s) l1) = q) as (Hqc & Hpr & Hlq).
    { apply (scan_place _ _ _ _ _ l2); done. }
    apply take_ok; [done|by apply Hin|by apply Hin|done|lia].
  - exfalso. rewrite Forall_forall in HF. specialize (HF b). assert (b ∈ freep s :: c) as Hbc by (rewrite Hp; by right).
    assert (b ∈ c ++ [freep s]) as Hbc' by mem_tac. specialize (HF Hbc'). lia.
Qed.

Lemma units_enough nbytes : 0 ≤ nbytes ≤ MAXALLOC →
  let n := units nbytes in 0 < n ∧ n * HDR < 2147483648 ∧ nbytes ≤ HDR * (n - 1).
Proof.
  unfold MAXALLOC, units, HDR. intros H. rewrite (u32_small (nbytes + 8 - 1)) by (unfold W32; lia).
  rewrite u32_small by (unfold W32; Z.div_mod_to_equations; lia). Z.div_mod_to_equations. lia.
Qed.

(** A heap, or the state before the first call. *)
Definition heap (s : ust) (fl A : list Z) : Prop :=
  heap_inv s fl A ∨ (freep s = 0 ∧ fl = [] ∧ A = [] ∧ 0 < base ∧ base + HDR ≤ brk s < W32).

Lemma freep_nonzero s fl A : heap_inv s fl A → freep s ≠ 0.
Proof.
  intros [Hb _ _ _ Hf Hr] E. rewrite E in Hf. apply elem_of_cons in Hf as [<-|Hf]; [lia|].
  pose proof (bo_range _ _ _ _ Hb 0 ltac:(mem_tac)). unfold HDR in *. lia.
Qed.

Lemma malloc_from s fl A n f :
  heap_inv s fl A → 0 < n → n * HDR < 2147483648 → (2 * length fl + 3 ≤ f)%nat →
  let r := malloc_loop avail f n (freep s) (ld32 (umem s) (freep s)) s in
  r = Ret 0 s ∨ ∃ a fl' s', r = Ret (a + HDR) s' ∧ heap_inv s' fl' (a :: A) ∧ bsize (umem s') a = n ∧
    kept (umem s) (umem s') A ∧ (length fl' ≤ S (length fl))%nat.
Proof.
  intros Hi Hn Hw Hf r. destruct (circle_ready s fl A Hi) as (c & Hc & Hp & Hfc & H0c).
  assert (length c = length fl) as Hlen by (apply Permutation_length in Hp; cbn in Hp; lia).
  pose proof (malloc_scan s n c (freep s) (f - S (length c)) Hc Hfc H0c) as Hscan. cbn zeta in Hscan.
  replace (S (length c) + (f - S (length c)))%nat with f in Hscan by lia. fold r in Hscan.
  destruct (decide (Exists (λ x, n ≤ bsize (umem s) x) fl)) as [(b & Hb & Hsz)%Exists_exists|Hno].
  - right. destruct (malloc_found s fl A n f b Hi Hn Hb Hsz ltac:(lia)) as (a & fl' & s' & E & (Hi' & Ha & _ & Hk) & Hl).
    exists a, fl', s'. split_and!; try done. lia.
  - destruct Hscan as [(l1 & q & l2 & El & Hq & _)|[_ Er]].
    + exfalso. destruct (scan_place _ _ _ _ _ _ Hc El) as (Hqc & _). rewrite Hp in Hqc. apply elem_of_cons in Hqc as [->|Hqc].
      * rewrite (hi_base _ _ _ _ Hi) in Hq. lia.
      * apply Hno, Exists_exists. eauto.
    + rewrite Er. unfold grow. destruct (morecore_ok (f - S (length c)) s fl A n Hi Hn Hw) as [E|(fl1 & s1 & E & Hi1 & Hk1 & Hl1 & b & Hb & Hsz)]; [lia| |];
        rewrite (bind_Ret _ _ _ _ _ E); [by left|right].
      rewrite (proj2 (Z.eqb_neq _ _)) by (by apply (freep_nonzero s1 fl1 A)). unfold bind at 1, gets at 1. cbn [obind].
      change (ptr_of (freep s1) s1) with (ld32 (umem s1) (freep s1)).
      destruct (malloc_found s1 fl1 A n (f - S (length c)) b Hi1 Hn Hb Hsz ltac:(lia)) as (a & fl' & s' & E' & (Hi' & Ha & _ & Hk) & Hl).
      exists a, fl', s'. split_and!; try done; [|lia]. apply (kept_trans _ (umem s1)); try done.
      intros x Hx. apply (bo_range _ _ _ _ (hi_blocks _ _ _ _ Hi)). mem_tac.
Qed.

(** The first call makes a heap of nothing but [base]. *)
Lemma malloc_start fuel nbytes s fl A : heap s fl A →
  ∃ s1, heap_inv s1 fl A ∧ kept (umem s) (umem s1) A ∧
    malloc base avail fuel nbytes s = malloc_loop avail fuel (units nbytes) (freep s1) (ld32 (umem s1) (freep s1)) s1.
Proof.
  intros [Hi|(Hf & -> & -> & Hb & Hr)].
  - exists s. split_and!; try done. unfold malloc. unfold bind at 1, gets at 1. cbn [obind].
    by rewrite (proj2 (Z.eqb_neq _ _)) by (by apply (freep_nonzero s fl A)).
  - set (m1 := st32 (st32 (umem s) base base) (base + 4) 0). exists (mk_ust m1 base (brk s)). unfold HDR, W32 in Hr.
    split_and!; [|by intros ? ? ?%elem_of_nil|unfold malloc; unfold bind at 1, gets at 1; cbn [obind]; by rewrite Hf].
    split; cbn [umem freep brk].
    + split; [apply NoDup_nil_2|by intros ? ?%elem_of_nil|by intros ? ? ?%elem_of_nil].
    + repeat constructor.
    + cbn. unfold m1. rewrite ld32_st32_ne, ld32_st32 by lia. apply u32_small. unfold W32. lia.
    + unfold bsize, m1. by rewrite ld32_st32.
    + by left.
    + unfold HDR, W32. lia.
Qed.

(** C17: malloc of up to MAXALLOC bytes returns: either null, with the heap as
    it was, or the address after the header of a new block that holds the bytes
    asked for and is disjoint from every block in use; the contents of the blocks
    in use are unchanged. *)
Theorem malloc_fresh fuel nbytes s fl A :
  heap s fl A → 0 ≤ nbytes ≤ MAXALLOC → (2 * length fl + 3 ≤ fuel)%nat →
  ∃ r s', malloc base avail fuel nbytes s = Ret r s' ∧ kept (umem s) (umem s') A ∧
    (r = 0 ∧ heap s' fl A ∨
     ∃ a fl', r = a + HDR ∧ heap s' fl' (a :: A) ∧ nbytes ≤ HDR * (bsize (umem s') a - 1) ∧ a ∉ A ∧
       (∀ b, b ∈ A → a + HDR * bsize (umem s') a ≤ b ∨ b + HDR * bsize (umem s') b ≤ a)).
Proof.
  intros Hh Hnb Hfuel. destruct (units_enough nbytes Hnb) as (Hn & Hw & Hbig).
  destruct (malloc_start fuel nbytes s fl A Hh) as (s1 & Hi & Hk & E). rewrite E.
  destruct (malloc_from s1 fl A (units nbytes) fuel Hi Hn Hw Hfuel) as [Er|(a & fl' & s' & Er & Hi' & Ha & Hk' & _)]; rewrite Er.
  - exists 0, s1. split; [done|]. split; [done|]. left. split; [done|by left].
  - exists (a + HDR), s'. split; [done|]. assert (∀ x, x ∈ A → 1 ≤ bsize (umem s1) x) as Hs1.
    { intros x Hx. apply (bo_range _ _ _ _ (hi_blocks _ _ _ _ Hi)). mem_tac. }
    split.
    + destruct Hh as [Hh|(_ & _ & -> & _)]; [|by intros ? ? ?%elem_of_nil]. apply (kept_trans _ (umem s1)); try done.
      intros x Hx. apply (bo_range _ _ _ _ (hi_blocks _ _ _ _ Hh)). mem_tac.
    + right. exists a, fl'. pose proof (hi_blocks _ _ _ _ Hi') as [Hnd Hrg Hd].
      assert (a ∉ A) as HaA by (apply NoDup_app in Hnd as (_ & _ & [? _]%NoDup_cons); done).
      split_and!; [done|by left|by rewrite Ha|done|]. intros b Hb. apply Hd; [mem_tac..|]. by intros ->.
Qed.

(** C32: free of a block in use returns: the block becomes free memory, joined
    with free neighbours, no free memory is lost, and the contents of the other
    blocks in use are unchanged. *)
Theorem free_returns fuel s fl A1 bp A2 :
  heap_inv s fl (A1 ++ bp :: A2) → (length fl + 2 ≤ fuel)%nat →
  ∃ fl' s', free fuel (bp + HDR) s = Ret tt s' ∧ heap_inv s' fl' (A1 ++ A2) ∧ kept (umem s) (umem s') (A1 ++ A2) ∧
    total (umem s') fl' = total (umem s) fl + bsize (umem s) bp ∧ brk s' = brk s.
Proof.
  intros Hi Hf. destruct (free_ok base fuel s fl bp (A1 ++ A2) (A1 ++ bp :: A2) Hi) as (fl' & s' & E & Hi' & Hb & Hk & Ht & _); [|done|].
  - by rewrite Permutation_middle.
  - exists fl', s'. done.
Qed.

End heap.

Definition ex_avail (b n : Z) : bool := b + n <? 2147483648.
Definition ex_heap0 : ust := mk_ust (λ _, 0) 0 65536.

Lemma malloc_fresh_witness :
  ∃ r s', malloc 4096 ex_avail 10 100 ex_heap0 = Ret r s' ∧ r ≠ 0 ∧ r + 100 ≤ brk s'.
Proof.
  assert (∀ b n, ex_avail b n = true → 0 < n → b + n < 2147483648) as Ha by (intros b n H _; by apply Z.ltb_lt).
  destruct (malloc_fresh 4096 ex_avail Ha 10 100 ex_heap0 [] []) as (r & s' & E & _ & H).
  - right. split_and!; reflexivity || (cbn; unfold HDR, W32; lia).
  - unfold MAXALLOC. lia.
  - cbn. lia.
  - exists r, s'. split; [exact E|]. assert (r = 98200) as Hr.
    { assert (match malloc 4096 ex_avail 10 100 ex_heap0 with Ret r _ => r | _ => 0 end = r) as <- by (by rewrite E). vm_cast_no_check (eq_refl 98200). }
    clear E. split; [by rewrite Hr|]. destruct H as [[-> _]|(a & fl & -> & [Hi|(_ & _ & ? & _)] & Hsz & _)]; [done| |done].
    assert (a ∈ fl ++ [a]) as Hin by in_list. pose proof (bo_range _ _ _ _ (hi_blocks _ _ _ _ Hi) a Hin). unfold HDR in *. lia.
Defined.

Definition ex_heap1 : ust := mk_ust (st32 (st32 (λ _, 0) 4096 4096) 8196 2) 4096 65536.

Lemma free_returns_witness : ∃ fl s', free 2 8200 ex_heap1 = Ret tt s' ∧ total (umem s') fl = 2.
Proof.
  destruct (free_returns 4096 2 ex_heap1 [] [] 8192 []) as (fl & s' & E & _ & _ & Ht & _).
  - split; cbn [app].
    + split; [repeat constructor; apply not_elem_of_nil| |].
      * intros a ->%list_elem_of_singleton. vm_compute. done.
      * by intros a b ->%list_elem_of_singleton ->%list_elem_of_singleton.
    + repeat constructor.
    + reflexivity.
    + reflexivity.
    + by left.
    + done.
  - cbn. lia.
  - exists fl, s'. split; [exact E|exact Ht].
Defined.
