(* ===== verification/Sh.v ===== *)
(** * The shell (sh.c)

    The parser works on a command line [buf] with offsets for its pointers and
    the position as its state; the shell's panic is the outcome [Panic].  The
    commands it builds hold the offsets of the words, and nulterminate then
    writes a NUL after each of them into the buffer.  [scmd] is a command with
    the strings found in the buffer afterwards, which runcmd executes with the
    system calls of [User].  The execcmd that parseredirs wraps is filled in
    later, so parseexec keeps the words and the redirections apart and puts
    them together at the end.  malloc in the constructors is taken to succeed.

    [ShSpec] has the theorems. *)
From S2P Require Import Prelude Kernel Format User Utils.

Local Open Scope Z_scope.
Local Open Scope kernel_scope.

Definition MAXARGS : nat := 10.

(** struct cmd and its variants; a word is the pair of offsets [q], [eq]. *)
Inductive cmd :=
| EXEC (argv : list (nat * nat))
| REDIR (c : cmd) (file efile : nat) (mode fd : Z)
| PIPE (left right : cmd)
| LIST (left right : cmd)
| BACK (c : cmd).

Definition whitespace : list Z := [32; 9; 13; 10; 11].
Definition symbols : list Z := chars "<|>&;()".

Definition is_in (l : list Z) (c : Z) : bool := match strchr l c with Some _ => true | None => false end.

(** The loops of gettoken and peek over a part of the line. *)
Fixpoint ws_len (l : list Z) : nat :=
  match l with
  | c :: l => if is_in whitespace c then S (ws_len l) else O
  | [] => O
  end.

Fixpoint word_len (l : list Z) : nat :=
  match l with
  | c :: l => if is_in whitespace c || is_in symbols c then O else S (word_len l)
  | [] => O
  end.

Section parser.
  Variable buf : list Z.   (* the line, without the NUL *)

Definition char_at (p : nat) : Z := default 0 (buf !! p).
Definition skip (p : nat) : nat := p + ws_len (drop p buf).

(** gettoken: the token, where it begins and ends. *)
Definition gettoken : M nat (Z * nat * nat) :=
  p <- gets id;;
  let q := skip p in
  let c := char_at q in
  let '(tok, eq) :=
    if c =? 0 then (0, q)
    else if is_in (chars "|();&<") c then (c, S q)
    else if c =? 62 then (if char_at (S q) =? 62 then (43, S (S q)) else (62, S q))
    else (97, (q + word_len (drop q buf))%nat) in
  modify (λ _, skip eq);;
  ret (tok, q, eq).

Definition peek (toks : list Z) : M nat bool :=
  p <- gets id;;
  let s := skip p in
  modify (λ _, s);;
  ret (negb (char_at s =? 0) && is_in toks (char_at s)).

Definition redir : Type := nat * nat * Z * Z.   (* file, efile, mode, fd *)

Definition O_CREATE_WRONLY : Z := 513.

(** parseredirs: the redirections in the order they are wrapped around the
    command. *)
Fixpoint parseredirs (fuel : nat) : M nat (list redir) :=
  match fuel with
  | O => nofuel
  | S fuel =>
      b <- peek (chars "<>");;
      if negb b then ret []
      else
        '(tok, _, _) <- gettoken;;
        '(t, q, eq) <- gettoken;;
        when (negb (t =? 97)) do panic "missing file for redirection";;
        let r : list redir :=
          if tok =? 60 then [(q, eq, 0, 0)]
          else if (tok =? 62) || (tok =? 43) then [(q, eq, O_CREATE_WRONLY, 1)]
          else [] in
        l <- parseredirs fuel;;
        ret (r ++ l)
  end.

Definition wrap (c : cmd) (rs : list redir) : cmd :=
  foldl (λ c '(f, ef, mode, fd), REDIR c f ef mode fd) c rs.

(** The loop of parseexec: the words and the redirections found. *)
Fixpoint parseargs (fuel : nat) (argc : nat) : M nat (list (nat * nat) * list redir) :=
  match fuel with
  | O => nofuel
  | S fuel =>
      b <- peek (chars "|)&;");;
      if b then ret ([], [])
      else
        '(tok, q, eq) <- gettoken;;
        if tok =? 0 then ret ([], [])
        else
          when (negb (tok =? 97)) do panic "syntax";;
          when (MAXARGS <=? S argc)%nat do panic "too many args";;
          rs <- parseredirs fuel;;
          '(args, rs') <- parseargs fuel (S argc);;
          ret ((q, eq) :: args, rs ++ rs')
  end.

Fixpoint parseline (fuel : nat) : M nat cmd :=
  match fuel with
  | O => nofuel
  | S fuel =>
      c <- parsepipe fuel;;
      c <- parseback fuel c;;
      b <- peek (chars ";");;
      if b then
        gettoken;;
        r <- parseline fuel;;
        ret (LIST c r)
      else ret c
  end
with parseback (fuel : nat) (c : cmd) : M nat cmd :=
  match fuel with
  | O => nofuel
  | S fuel =>
      b <- peek (chars "&");;
      if b then gettoken;; parseback fuel (BACK c) else ret c
  end
with parsepipe (fuel : nat) : M nat cmd :=
  match fuel with
  | O => nofuel
  | S fuel =>
      c <- parseexec fuel;;
      b <- peek (chars "|");;
      if b then
        gettoken;;
        r <- parsepipe fuel;;
        ret (PIPE c r)
      else ret c
  end
with parseexec (fuel : nat) : M nat cmd :=
  match fuel with
  | O => nofuel
  | S fuel =>
      b <- peek (chars "(");;
      if b then parseblock fuel
      else
        rs <- parseredirs fuel;;
        '(args, rs') <- parseargs fuel 0;;
        ret (wrap (EXEC args) (rs ++ rs'))
  end
with parseblock (fuel : nat) : M nat cmd :=
  match fuel with
  | O => nofuel
  | S fuel =>
      b <- peek (chars "(");;
      when (negb b) do panic "parseblock";;
      gettoken;;
      c <- parseline fuel;;
      b <- peek (chars ")");;
      when (negb b) do panic "syntax - missing )";;
      gettoken;;
      rs <- parseredirs fuel;;
      ret (wrap c rs)
  end.

End parser.

(** nulterminate: the buffer with the NULs. *)
Fixpoint nulterminate (c : cmd) (buf : list Z) : list Z :=
  match c with
  | EXEC argv => foldl (λ b '(_, eq), <[eq := 0]> b) buf argv
  | REDIR c _ ef _ _ => <[ef := 0]> (nulterminate c buf)
  | PIPE l r => nulterminate r (nulterminate l buf)
  | LIST l r => nulterminate r (nulterminate l buf)
  | BACK c => nulterminate c buf
  end.

(** parsecmd: the command and the buffer with the NULs, where the line had
    one more byte for its own NUL.  The message about leftovers and the panic
    that follows it are in [run_line]. *)
Definition parsecmd (fuel : nat) (s : list Z) : M nat (cmd * list Z) :=
  modify (λ _, O);;
  c <- parseline s fuel;;
  peek s [];;
  p <- gets id;;
  when (negb (p =? length s)%nat) do panic "leftovers";;
  ret (c, nulterminate c (s ++ [0])).

(** ** Running commands *)

Inductive scmd :=
| SEXEC (argv : list (list Z))
| SREDIR (c : scmd) (file : list Z) (mode fd : Z)
| SPIPE (left right : scmd)
| SLIST (left right : scmd)
| SBACK (c : scmd).

(** The strings of a command in the buffer. *)
Definition string_at (b : list Z) (q : nat) : list Z := upto0 (drop q b).

Fixpoint strings (b : list Z) (c : cmd) : scmd :=
  match c with
  | EXEC argv => SEXEC ((λ x, string_at b x.1) <$> argv)
  | REDIR c f _ mode fd => SREDIR (strings b c) (string_at b f) mode fd
  | PIPE l r => SPIPE (strings b l) (strings b r)
  | LIST l r => SLIST (strings b l) (strings b r)
  | BACK c => SBACK (strings b c)
  end.

Section run.
  Context {S : Type} {Sy : Sys S}.

Definition upanic {A} (s : string) : M S A := printf 2 (nl "%s") [AStr (Some (chars s))];; u_exit.

Definition fork1 (child : M S unit) : M S Z :=
  pid <- u_fork child;;
  when (pid =? -1) do upanic "fork";;
  ret pid.

Fixpoint runcmd (c : scmd) : M S unit :=
  match c with
  | SEXEC [] => u_exit
  | SEXEC (a :: args) =>
      u_exec a (a :: args);;
      printf 2 (nl "exec %s failed") [AStr (Some a)];;
      u_exit
  | SREDIR c file mode fd =>
      u_close fd;;
      r <- u_open file mode;;
      if r <? 0 then printf 2 (nl "open %s failed") [AStr (Some file)];; u_exit
      else runcmd c;; u_exit
  | SLIST l r =>
      fork1 (runcmd l);;
      u_wait;;
      runcmd r;;
      u_exit
  | SPIPE l r =>
      p <- u_pipe;;
      match p with
      | None => upanic "pipe"
      | Some (p0, p1) =>
          fork1 (u_close 1;; u_dup p1;; u_close p0;; u_close p1;; runcmd l);;
          fork1 (u_close 0;; u_dup p0;; u_close p0;; u_close p1;; runcmd r);;
          u_close p0;;
          u_close p1;;
          u_wait;;
          u_wait;;
          u_exit
      end
  | SBACK c =>
      fork1 (runcmd c);;
      u_exit
  end.

(** getcmd: None at the end of the input. *)
Definition getcmd (nbuf : Z) : M S (option (list Z)) :=
  printf 2 (chars "$ ") [];;
  l <- ugets nbuf;;
  match upto0 l with
  | [] => ret None
  | l => ret (Some l)
  end.

(** ** Builtins *)

(** strncmp of sh.c on strings. *)
Fixpoint sh_strncmp (n : nat) (p q : list Z) : Z :=
  match n with
  | O => 0
  | Datatypes.S n =>
      match p, q with
      | a :: p', b :: q' => if a =? b then sh_strncmp n p' q' else u8 a - u8 b
      | _, _ => u8 (default 0 (head p)) - u8 (default 0 (head q))
      end
  end.

Fixpoint makeint (val : Z) (p : list Z) : Z :=
  match p with
  | c :: p => if (48 <=? c) && (c <=? 57) then makeint (s32 (10 * val + (c - 48))) p else val
  | [] => val
  end.

Definition setbuiltin (p : list Z) : M S Z :=
  let p := skip_blanks (drop 4 p) in
  if sh_strncmp 3 (chars "uid") p =? 0 then u_setuid (makeint 0 (skip_blanks (drop 3 p)))
  else if sh_strncmp 3 (chars "gid") p =? 0 then u_setgid (makeint 0 (skip_blanks (drop 3 p)))
  else printf 2 (nl "Invalid _set parameter") [];; ret (-1).

Definition getbuiltin (p : list Z) : M S Z :=
  let p := skip_blanks (drop 4 p) in
  if sh_strncmp 3 (chars "uid") p =? 0 then u <- u_getuid;; printf 2 (nl "%d") [AInt u];; ret 0
  else if sh_strncmp 3 (chars "gid") p =? 0 then g <- u_getgid;; printf 2 (nl "%d") [AInt g];; ret 0
  else printf 2 (nl "Invalid _get parameter") [];; ret (-1).

Definition dobuiltin (c : list Z) : M S unit :=
  when (sh_strncmp 4 c (chars "_set") =? 0) do (setbuiltin c;; ret tt);;
  when (sh_strncmp 4 c (chars "_get") =? 0) do (getbuiltin c;; ret tt).

(** ** main *)

Fixpoint open_console (fuel : nat) : M S unit :=
  match fuel with
  | O => nofuel
  | Datatypes.S fuel =>
      fd <- u_open (chars "console") 2;;
      if fd <? 0 then ret tt
      else if 3 <=? fd then u_close fd;; ret tt
      else open_console fuel
  end.

(** The child that parses and runs a line; the parser's panic is the shell's. *)
Definition run_line (fuel : nat) (line : list Z) : M S unit :=
  match parsecmd fuel line O with
  | Ret (c, b) _ => runcmd (strings b c)
  | Panic msg p =>
      if bool_decide (msg = "leftovers") then
        printf 2 (nl "leftovers: %s") [AStr (Some (drop p line))];;
        upanic "syntax"
      else upanic msg
  | _ => nofuel
  end.

Fixpoint sh_loop (fuel pfuel : nat) : M S unit :=
  match fuel with
  | O => nofuel
  | Datatypes.S fuel =>
      l <- getcmd 100;;
      match l with
      | None => ret tt
      | Some line =>
          (if bool_decide (take 3 line = chars "cd ") then
             let dir := drop 3 (removelast line) in
             r <- u_chdir dir;;
             when (r <? 0) do printf 2 (nl "cannot cd %s") [AStr (Some dir)]
           else if bool_decide (head line = Some 95) then dobuiltin line
           else
             fork1 (run_line pfuel line);;
             u_wait;;
             ret tt);;
          sh_loop fuel pfuel
      end
  end.

Definition sh_main (fuel pfuel : nat) : M S unit :=
  open_console fuel;;
  sh_loop fuel pfuel;;
  u_exit.

End run.
