(* ===== verification/ShPrint.v ===== *)
(** * Printing and parsing commands (sh.c)

    [pr] prints a command in the syntax of the shell, a word followed by one
    blank, with parentheses where the grammar needs them.  The theorem: the
    parser reads every printed command back, and after nulterminate the strings
    in the buffer are the words of the command. *)
From S2P Require Import Prelude Kernel Format User Utils Sh ShSpec.

Local Open Scope Z_scope.
Local Open Scope kernel_scope.

(** ** Printing *)

Definition word_char (c : Z) : Prop := c ≠ 0 ∧ is_in whitespace c = false ∧ is_in symbols c = false.
Definition word (w : list Z) : Prop := w ≠ [] ∧ Forall word_char w.

Fixpoint well_formed (c : scmd) : Prop :=
  match c with
  | SEXEC argv => Forall word argv ∧ (length argv < MAXARGS)%nat
  | SREDIR c f mode fd => well_formed c ∧ word f ∧ (mode = 0 ∧ fd = 0 ∨ mode = O_CREATE_WRONLY ∧ fd = 1)
  | SPIPE l r => well_formed l ∧ well_formed r
  | SLIST l r => well_formed l ∧ well_formed r
  | SBACK c => well_formed c
  end.

Definition pr_word (w : list Z) : list Z := w ++ [32].
Definition pr_redir (f : list Z) (mode : Z) : list Z := (if mode =? 0 then 60 else 62) :: pr_word f.
Definition paren (b : bool) (l : list Z) : list Z := if b then 40 :: l ++ [41] else l.

(** Levels: 0 a line, 1 before &, 2 a pipeline, 3 a part of a pipeline. *)
Fixpoint pr (lev : nat) (c : scmd) : list Z :=
  match c with
  | SEXEC argv => concat (pr_word <$> argv)
  | SREDIR c f mode _ => pr 3 c ++ pr_redir f mode
  | SPIPE l r => paren (2 <? lev)%nat (pr 3 l ++ 124 :: pr 2 r)
  | SLIST l r => paren (0 <? lev)%nat (pr 1 l ++ 59 :: pr 0 r)
  | SBACK c => paren (1 <? lev)%nat (pr 1 c ++ [38])
  end.

Section roundtrip.
  Variable buf : list Z.

(** The word [w] between the offsets, and a separator after it. *)
Definition spells (x : nat * nat) (w : list Z) : Prop :=
  ∃ post, drop x.1 buf = w ++ 32 :: post ∧ x.2 = (x.1 + length w)%nat ∧ word w.

Fixpoint denotes (c : cmd) (sc : scmd) : Prop :=
  match c, sc with
  | EXEC l, SEXEC ws => Forall2 spells l ws
  | REDIR c f ef m fd, SREDIR sc w m' fd' => denotes c sc ∧ spells (f, ef) w ∧ m = m' ∧ fd = fd'
  | PIPE l r, SPIPE sl sr => denotes l sl ∧ denotes r sr
  | LIST l r, SLIST sl sr => denotes l sl ∧ denotes r sr
  | BACK c, SBACK sc => denotes c sc
  | _, _ => False
  end.

Definition clean (l : list Z) : Prop := ws_len l = O.

Lemma drop_text p t post : drop p buf = t ++ post → drop (p + length t) buf = post.
Proof. intros E. rewrite <- drop_drop, E. by rewrite drop_app_length. Qed.

Lemma drop_char p c post : drop p buf = c :: post → char_at buf p = c ∧ drop (S p) buf = post.
Proof.
  intros E. split; [|rewrite <- (drop_text p [c] post E); f_equal; cbn; lia].
  unfold char_at. rewrite <- (Nat.add_0_r p), <- lookup_drop, E. done.
Qed.

Lemma char_at_head p post : drop p buf = post → char_at buf p = default 0 (head post).
Proof.
  intros E. destruct post as [|d post]; [|by destruct (drop_char p d post E)]. apply (f_equal length) in E.
  rewrite length_drop in E. cbn in E. unfold char_at. rewrite lookup_ge_None_2 by lia. done.
Qed.

Lemma skip_clean p : clean (drop p buf) → skip buf p = p.
Proof. unfold skip, clean. intros ->. lia. Qed.

Lemma skip_blank p post : drop p buf = 32 :: post → clean post → skip buf p = S p.
Proof. unfold skip, clean. intros -> H. cbn. rewrite H. lia. Qed.

(** peek at a clean position. *)
Lemma peek_run toks p : clean (drop p buf) →
  peek buf toks p = Ret (match drop p buf with c :: _ => negb (c =? 0) && is_in toks c | [] => false end) p.
Proof.
  intros H. unfold peek, bind, gets, modify, ret. cbn [obind id]. rewrite skip_clean by done.
  rewrite (char_at_head p _ eq_refl). by destruct (drop p buf).
Qed.

(** The tokens. *)
Lemma gettoken_end p : drop p buf = [] → gettoken buf p = Ret (0, p, p) p.
Proof.
  intros E. unfold gettoken, bind, gets, modify, ret. cbn [obind id].
  assert (skip buf p = p) as -> by (apply skip_clean; by rewrite E).
  rewrite (char_at_head p _ E). cbn -[skip]. rewrite skip_clean; [done|]. by rewrite E.
Qed.

Lemma gettoken_symbol p c post :
  drop p buf = c :: post → c ∈ chars "|();&<" → clean post → gettoken buf p = Ret (c, p, S p) (S p).
Proof.
  intros E Hc Hp. destruct (drop_char p c post E) as [E1 E2]. unfold gettoken, bind, gets, modify, ret. cbn [obind id].
  assert (is_in whitespace c = false ∧ c ≠ 0) as [Hw H0].
  { cbn in Hc. rewrite !elem_of_cons in Hc. destruct_or! Hc; subst; try done. by apply elem_of_nil in Hc. }
  rewrite skip_clean by (unfold clean; rewrite E; cbn [ws_len]; by rewrite Hw). rewrite E1, (proj2 (Z.eqb_neq c 0)) by done.
  rewrite (proj2 (is_in_spec _ _) Hc). rewrite skip_clean; [done|]. by rewrite E2.
Qed.

Lemma gettoken_gt p post :
  drop p buf = 62 :: post → clean post → head post ≠ Some 62 → gettoken buf p = Ret (62, p, S p) (S p).
Proof.
  intros E Hp Hh. destruct (drop_char p _ post E) as [E1 E2]. unfold gettoken, bind, gets, modify, ret. cbn [obind id].
  rewrite skip_clean by (unfold clean; by rewrite E). rewrite E1, (char_at_head (S p) post E2).
  assert (default 0 (head post) =? 62 = false) as ->.
  { apply Z.eqb_neq. by destruct (head post) as [d|]; cbn; [congruence|]. }
  change (is_in _ 62) with false. change (62 =? 0) with false. change (62 =? 62) with true. cbv iota beta.
  rewrite skip_clean; [done|]. by rewrite E2.
Qed.

Lemma word_len_word w post : Forall word_char w → word_len (w ++ 32 :: post) = length w.
Proof.
  induction 1 as [|c w (H0 & H1 & H2) Hw IH]; [done|]. cbn [app word_len length]. rewrite H1, H2. cbn. by rewrite IH.
Qed.

Lemma gettoken_word p w post :
  drop p buf = w ++ 32 :: post → word w → clean post →
  gettoken buf p = Ret (97, p, (p + length w)%nat) (p + length (pr_word w))%nat.
Proof.
  intros E [Hn Hw] Hp. unfold gettoken, bind, gets, modify, ret. cbn [obind id].
  pose proof (drop_text p w (32 :: post) E) as E2. pose proof (word_len_word w post Hw) as Hlen.
  destruct w as [|c w]; [done|]. apply Forall_cons in Hw as [(H0 & H1 & H2) Hw].
  rewrite skip_clean by (unfold clean; rewrite E; cbn; by rewrite H1). destruct (drop_char p c _ E) as [-> _].
  rewrite (proj2 (Z.eqb_neq c 0)) by done. rewrite symbols_split in H2. apply orb_false_elim in H2 as [-> ->].
  rewrite E, Hlen, (skip_blank _ post E2 Hp). unfold pr_word. rewrite length_app. cbn. f_equal. lia.
Qed.

(** ** Redirections and words *)

Definition redirect : Type := list Z * Z * Z.
Definition redirect_ok (r : redirect) : Prop :=
  word r.1.1 ∧ (r.1.2 = 0 ∧ r.2 = 0 ∨ r.1.2 = O_CREATE_WRONLY ∧ r.2 = 1).
Definition pr_redirs (rs : list redirect) : list Z := concat ((λ r, pr_redir r.1.1 r.1.2) <$> rs).
Definition spells_redir (x : redir) (r : redirect) : Prop :=
  spells (x.1.1.1, x.1.1.2) r.1.1 ∧ x.1.2 = r.1.2 ∧ x.2 = r.2.

Definition starts (l : list Z) (post : list Z) : Prop :=
  match post with [] => True | c :: _ => c ∈ l end.

Lemma clean_word w post : word w → clean (w ++ post).
Proof. intros [Hn Hw]. destruct w as [|c w]; [done|]. apply Forall_cons in Hw as [(_ & H & _) _]. unfold clean. cbn. by rewrite H. Qed.

Lemma clean_symbols post : starts symbols post → clean post.
Proof.
  destruct post as [|c post]; [done|]. cbn [starts]. intros H. unfold clean. cbn [ws_len].
  assert (is_in whitespace c = false) as ->; [|done]. cbn in H. rewrite !elem_of_cons in H. destruct_or! H; subst; try done. by apply elem_of_nil in H.
Qed.

Lemma starts_mono l l' post : l ⊆ l' → starts l post → starts l' post.
Proof. destruct post; cbn; auto. Qed.

Lemma is_in_all l l' : forallb (is_in l') l = true → l ⊆ l'.
Proof. rewrite forallb_forall. intros H c Hc. apply is_in_spec, H, list_elem_of_In, Hc. Qed.

Lemma is_in_none l toks c : forallb (λ c, negb (is_in toks c)) l = true → c ∈ l → c ∉ toks.
Proof.
  rewrite forallb_forall. intros H Hc Ht%is_in_spec. specialize (H c (proj1 (list_elem_of_In _ _) Hc)). by rewrite Ht in H.
Qed.

(** peek finds no token of [toks] before a word or at one of the other tokens. *)
Lemma peek_word toks p w post : forallb (is_in symbols) toks = true → drop p buf = w ++ post → word w → peek buf toks p = Ret false p.
Proof.
  intros Ht E Hw. rewrite peek_run by (rewrite E; by apply clean_word). rewrite E. destruct Hw as [Hn Hw].
  destruct w as [|c w]; [done|]. apply Forall_cons in Hw as [(_ & _ & H) _]. cbn [app].
  destruct (is_in toks c) eqn:Ei; [|by rewrite andb_false_r]. apply is_in_spec, (is_in_all _ _ Ht), is_in_spec in Ei. congruence.
Qed.

Lemma peek_other toks l p post :
  forallb (is_in symbols) l = true → forallb (λ c, negb (is_in toks c)) l = true →
  drop p buf = post → starts l post → peek buf toks p = Ret false p.
Proof.
  intros Hl Hd E Hs. rewrite peek_run by (rewrite E; apply clean_symbols; eapply starts_mono, Hs; by apply is_in_all). rewrite E.
  destruct post as [|c post]; [done|]. destruct (is_in toks c) eqn:Ei; [|by rewrite andb_false_r].
  apply is_in_spec in Ei. by destruct (is_in_none l toks c Hd Hs).
Qed.

Lemma peek_symbol toks c p post : c ∈ symbols → c ∈ toks → drop p buf = c :: post → peek buf toks p = Ret true p.
Proof.
  intros Hs Ht E. rewrite peek_run by (rewrite E; by apply clean_symbols). rewrite E.
  rewrite (proj2 (is_in_spec _ _) Ht). destruct (c =? 0) eqn:E0; [|done]. bools. subst. by apply is_in_spec in Hs.
Qed.

Lemma gettoken_redir p f m post : redirect_ok (f, m, (if m =? 0 then 0 else 1)) →
  drop p buf = pr_redir f m ++ post →
  gettoken buf p = Ret (if m =? 0 then 60 else 62, p, S p) (S p) ∧ drop (S p) buf = f ++ 32 :: post.
Proof.
  intros [Hw Hm] E. cbn in Hw, Hm. unfold pr_redir, pr_word in E. cbn [app] in E. rewrite <- app_assoc in E. cbn [app] in E.
  split; [|by destruct (drop_char p _ _ E)]. pose proof (clean_word f (32 :: post) Hw) as Hc. destruct (m =? 0).
  - apply (gettoken_symbol p _ _ E); [by apply is_in_spec|done].
  - apply (gettoken_gt p _ E Hc). destruct Hw as [Hn Hw]. destruct f as [|c f]; [done|]. apply Forall_cons in Hw as [(_ & _ & H) _].
    cbn. intros [= ->]. done.
Qed.

Lemma clean_redirs rs post : clean post → clean (pr_redirs rs ++ post).
Proof. destruct rs as [|r rs]; [done|]. intros _. unfold pr_redirs, pr_redir, clean. cbn. by destruct (_ =? 0). Qed.

Lemma drop_shorter p p2 c post : drop p buf = c :: post → (p < p2)%nat → (length (drop p2 buf) < length (drop p buf))%nat.
Proof. intros E Hp. apply (f_equal length) in E. rewrite !length_drop in *. cbn in E. lia. Qed.

(** parseredirs reads printed redirections. *)
Lemma parseredirs_reads rs : ∀ p post fuel,
  drop p buf = pr_redirs rs ++ post → Forall redirect_ok rs → clean post →
  peek buf (chars "<>") (p + length (pr_redirs rs))%nat = Ret false (p + length (pr_redirs rs))%nat →
  (length (drop p buf) < fuel)%nat →
  ∃ crs, parseredirs buf fuel p = Ret crs (p + length (pr_redirs rs))%nat ∧ Forall2 spells_redir crs rs.
Proof.
  induction rs as [|[[f m] fd] rs IH]; intros p post fuel E Hrs Hp Hpeek Hf; destruct fuel as [|fuel]; [lia| |lia|]; cbn [parseredirs].
  - cbn [pr_redirs concat fmap list_fmap length] in *. rewrite Nat.add_0_r in *. rewrite (bind_Ret _ _ _ _ _ Hpeek). exists []. split; [done|constructor].
  - apply Forall_cons in Hrs as [Hr Hrs]. unfold pr_redirs in *. cbn [fmap list_fmap concat] in *. cbn [fst snd] in *. fold (pr_redirs rs) in *.
    assert (fd = if m =? 0 then 0 else 1) as Efd by (destruct Hr as [_ Hm]; cbn in Hm; destruct Hm as [[-> ->]|[-> ->]]; done).
    rewrite <- app_assoc in E. destruct (gettoken_redir p f m (pr_redirs rs ++ post)) as [T1 E1]; [by rewrite <- Efd|done|].
    assert (peek buf (chars "<>") p = Ret true p) as T0.
    { eapply (peek_symbol _ (if m =? 0 then 60 else 62)); [destruct (m =? 0); by apply is_in_spec..|exact E]. }
    rewrite (bind_Ret _ _ _ _ _ T0). cbn [negb]. rewrite (bind_Ret _ _ _ _ _ T1).
    pose proof (gettoken_word (S p) f (pr_redirs rs ++ post) E1 (proj1 Hr) (clean_redirs rs post Hp)) as T2.
    rewrite (bind_Ret _ _ _ _ _ T2). change (negb (97 =? 97)) with false. cbv iota zeta.
    set (p2 := (S p + length (pr_word f))%nat).
    assert (drop p2 buf = pr_redirs rs ++ post) as E2.
    { apply drop_text. rewrite E1. unfold pr_word. by rewrite <- app_assoc. }
    assert (p2 + length (pr_redirs rs) = p + length (pr_redir f m ++ pr_redirs rs))%nat as Elen.
    { subst p2. unfold pr_redir. rewrite length_app. cbn. lia. }
    destruct (IH p2 post fuel) as (crs & T3 & H3); [done|done|done|by rewrite Elen| |].
    { pose proof (drop_shorter p p2 _ _ E). subst p2. lia. }
    change (bind (ret ()) ?k ?s) with (k () s). cbv beta. rewrite (bind_Ret _ _ _ _ _ T3), Elen. eexists. split; [done|]. destruct Hr as [Hw Hm]. cbn [fst snd] in *.
    assert (spells (S p, (S p + length f)%nat) f) by (eexists; eauto).
    destruct Hm as [[-> ->]|[-> ->]]; cbn; constructor; done.
Qed.

(** What may follow a part of a pipeline, a pipeline and a line. *)
Definition after_exec : list Z := chars "|)&;".
Definition after_pipe : list Z := chars ")&;".
Definition after_line : list Z := chars ")".

Definition pr_words (ws : list (list Z)) : list Z := concat (pr_word <$> ws).

Lemma clean_words ws post : Forall word ws → clean post → clean (pr_words ws ++ post).
Proof.
  destruct 1 as [|w ws Hw Hws]; [done|]. intros _. unfold pr_words, pr_word. cbn. rewrite <- !app_assoc. by apply clean_word.
Qed.

(** peek finds no redirection where printed words come. *)
Lemma no_redir_after p ws post : drop p buf = pr_words ws ++ post → Forall word ws → (ws = [] → starts after_exec post) →
  peek buf (chars "<>") p = Ret false p.
Proof.
  intros E Hws Hp. destruct Hws as [|w ws Hw Hws].
  - by eapply (peek_other _ after_exec); [..|apply Hp].
  - eapply (peek_word _ p w); [done| |done]. rewrite E. unfold pr_words, pr_word. cbn. by rewrite <- !app_assoc.
Qed.

(** The redirections stand before the words that follow, when none do. *)
Lemma split_redirs ws rs : ∃ rs1 rs2, rs = rs1 ++ rs2 ∧ (ws = [] → rs2 = []) ∧
  pr_words ws ++ pr_redirs rs = pr_redirs rs1 ++ pr_words ws ++ pr_redirs rs2.
Proof. destruct ws; [exists rs, []|exists [], rs]; split_and!; try done. - by rewrite app_nil_r. - cbn. by rewrite app_nil_r. Qed.

(** What the loop of parseexec reads. *)
Definition args_read (ws : list (list Z)) : Prop := ∀ rs argc p post fuel,
  drop p buf = pr_words ws ++ pr_redirs rs ++ post → Forall word ws → Forall redirect_ok rs → (ws = [] → rs = []) →
  starts after_exec post → (argc + length ws < MAXARGS)%nat → (length (drop p buf) < fuel)%nat →
  ∃ args crs, parseargs buf fuel argc p = Ret (args, crs) (p + length (pr_words ws ++ pr_redirs rs))%nat ∧
    Forall2 spells args ws ∧ Forall2 spells_redir crs rs.

Lemma redirs_then_args ws rs argc p post fuel : args_read ws →
  drop p buf = pr_words ws ++ pr_redirs rs ++ post → Forall word ws → Forall redirect_ok rs →
  starts after_exec post → (argc + length ws < MAXARGS)%nat → (length (drop p buf) < fuel)%nat →
  ∃ crs1 p1 args crs2, parseredirs buf fuel p = Ret crs1 p1 ∧
    parseargs buf fuel argc p1 = Ret (args, crs2) (p + length (pr_words ws ++ pr_redirs rs))%nat ∧
    Forall2 spells args ws ∧ Forall2 spells_redir (crs1 ++ crs2) rs.
Proof.
  intros Hread E Hws Hrs Hpost Hargc Hf. destruct (split_redirs ws rs) as (rs1 & rs2 & Ers & Hnil & Ew).
  rewrite app_assoc, Ew, <- !app_assoc in E. rewrite Ew. subst rs. apply Forall_app in Hrs as [Hrs1 Hrs2].
  pose proof (drop_text _ _ _ E) as E1.
  assert (clean (pr_words ws ++ pr_redirs rs2 ++ post)) as Hc.
  { apply clean_words; [done|]. apply clean_redirs, clean_symbols. by eapply starts_mono, Hpost; apply is_in_all. }
  destruct (parseredirs_reads rs1 p _ fuel E Hrs1 Hc) as (crs1 & T1 & H1); [|done|].
  { eapply no_redir_after; [exact E1|done|]. intros ->. by rewrite Hnil. }
  destruct (Hread rs2 argc _ post fuel E1) as (args & crs2 & T2 & Ha & H2); try done.
  { rewrite length_drop in *. lia. }
  exists crs1, (p + length (pr_redirs rs1))%nat, args, crs2. split_and!; [done| |done|by apply Forall2_app].
  rewrite T2, !length_app. f_equal. lia.
Qed.

Lemma parseargs_reads ws : args_read ws.
Proof.
  induction ws as [|w ws IH]; intros rs argc p post fuel E Hws Hrs Hnil Hpost Hargc Hf; destruct fuel as [|fuel]; [lia| |lia|]; cbn [parseargs].
  - rewrite (Hnil eq_refl) in *. cbn [pr_words pr_redirs concat fmap list_fmap app length] in *. rewrite Nat.add_0_r.
    exists [], []. split; [|split; constructor]. destruct post as [|c post].
    + rewrite (bind_Ret _ _ _ false p) by (rewrite peek_run by (by rewrite E); by rewrite E).
      by rewrite (bind_Ret _ _ _ _ _ (gettoken_end p E)).
    + assert (c ∈ symbols) as H by (by eapply is_in_all, Hpost).
      by rewrite (bind_Ret _ _ _ _ _ (peek_symbol _ c p post H Hpost E)).
  - apply Forall_cons in Hws as [Hw Hws]. unfold pr_words in *. cbn [fmap list_fmap concat] in *. fold (pr_words ws) in *.
    unfold pr_word in E at 1. rewrite <- !app_assoc in E. cbn [app] in E.
    rewrite (bind_Ret _ _ _ false p) by (by eapply peek_word).
    assert (clean (pr_words ws ++ pr_redirs rs ++ post)) as Hc.
    { apply clean_words; [done|]. apply clean_redirs, clean_symbols. by eapply starts_mono, Hpost; apply is_in_all. }
    rewrite (bind_Ret _ _ _ _ _ (gettoken_word p w _ E Hw Hc)). change (97 =? 0) with false. change (negb (97 =? 97)) with false.
    cbn [length] in Hargc. rewrite (proj2 (Nat.leb_gt MAXARGS (S argc))) by lia. cbv iota beta. change (bind (ret ()) ?k ?s) with (k () s). cbv beta.
    change (bind (ret ()) ?k ?s) with (k () s). cbv beta.
    set (p1 := (p + length (pr_word w))%nat).
    assert (drop p1 buf = pr_words ws ++ pr_redirs rs ++ post) as E1.
    { apply drop_text. rewrite E. unfold pr_word. by rewrite <- app_assoc. }
    destruct (redirs_then_args ws rs (S argc) p1 post fuel IH E1) as (crs1 & p2 & args & crs2 & T1 & T2 & Ha & H2); try done; [lia| |].
    { destruct w as [|c w]; [by destruct Hw|]. pose proof (drop_shorter p p1 _ _ E). subst p1. unfold pr_word in *. rewrite length_app in *. cbn in *. lia. }
    rewrite (bind_Ret _ _ _ _ _ T1), (bind_Ret _ _ _ _ _ T2). eexists _, _. split; [|split; [constructor; [|exact Ha]|exact H2]].
    + subst p1. unfold ret. rewrite !length_app. f_equal. lia.
    + by exists (pr_words ws ++ pr_redirs rs ++ post).
Qed.

(** ** Commands *)

Definition swrap (sc : scmd) (rs : list redirect) : scmd := foldl (λ c r, SREDIR c r.1.1 r.1.2 r.2) sc rs.

Lemma wrap_denotes crs rs c sc : Forall2 spells_redir crs rs → denotes c sc → denotes (wrap c crs) (swrap sc rs).
Proof.
  intros H. revert c sc. induction H as [|[[[f ef] m] fd] r crs rs (H1 & H2 & H3) _ IH]; intros c sc Hd; [done|]. by apply IH.
Qed.

(** Each level of the parser reads what is printed for it. *)
Definition reads_exec (sc : scmd) : Prop := ∀ rs p post fuel,
  drop p buf = pr 3 sc ++ pr_redirs rs ++ post → Forall redirect_ok rs → starts after_exec post →
  (5 * length (drop p buf) + 3 ≤ fuel)%nat →
  ∃ c, parseexec buf fuel p = Ret c (p + length (pr 3 sc ++ pr_redirs rs))%nat ∧ denotes c (swrap sc rs).

Definition reads_pipe (sc : scmd) : Prop := ∀ p post fuel,
  drop p buf = pr 2 sc ++ post → starts after_pipe post → (5 * length (drop p buf) + 4 ≤ fuel)%nat →
  ∃ c, parsepipe buf fuel p = Ret c (p + length (pr 2 sc))%nat ∧ denotes c sc.

Definition reads_back (sc : scmd) : Prop := ∀ p post fuel fb,
  drop p buf = pr 1 sc ++ post → starts after_pipe post →
  (5 * length (drop p buf) + 4 ≤ fuel)%nat → (length (drop p buf) < fb)%nat →
  ∃ c p1 fb', bind (parsepipe buf fuel) (parseback buf fb) p = parseback buf fb' c p1 ∧
    p1 = (p + length (pr 1 sc))%nat ∧ denotes c sc ∧ (length post < fb')%nat.

Definition reads_line (sc : scmd) : Prop := ∀ p post fuel,
  drop p buf = pr 0 sc ++ post → starts after_line post → (5 * length (drop p buf) + 5 ≤ fuel)%nat →
  ∃ c, parseline buf fuel p = Ret c (p + length (pr 0 sc))%nat ∧ denotes c sc.

Lemma starts_in l l' post : forallb (is_in l') l = true → starts l post → starts l' post.
Proof. intros H. by apply starts_mono, is_in_all. Qed.

(** Text after which no level sees one of its own tokens. *)
Lemma exec_to_pipe sc : pr 2 sc = pr 3 sc → reads_exec sc → reads_pipe sc.
Proof.
  intros Epr H p post fuel E Hpost Hf. destruct fuel as [|fuel]; [lia|]. cbn [parsepipe]. rewrite Epr in *.
  destruct (H [] p post fuel) as (c & T & Hd); [done|constructor|by eapply starts_in, Hpost|lia|].
  unfold pr_redirs in T. cbn [fmap list_fmap concat] in T. rewrite app_nil_r in T. rewrite (bind_Ret _ _ _ _ _ T).
  rewrite (bind_Ret _ _ _ false (p + length (pr 3 sc))%nat); [by exists c|].
  by eapply (peek_other _ after_pipe); [..|by eapply drop_text|].
Qed.

Lemma pipe_to_back sc : pr 1 sc = pr 2 sc → reads_pipe sc → reads_back sc.
Proof.
  intros Epr H p post fuel fb E Hpost Hf Hfb. rewrite Epr in *. destruct (H p post fuel E Hpost Hf) as (c & T & Hd).
  rewrite (bind_Ret _ _ _ _ _ T). eexists c, _, fb. split_and!; try done. rewrite E, length_app in Hfb. lia.
Qed.

(** Before another token than & the command of a line is complete. *)
Lemma back_complete sc p post fuel : reads_back sc →
  drop p buf = pr 1 sc ++ post → starts (chars ");") post → (5 * length (drop p buf) + 4 ≤ fuel)%nat →
  ∃ c c1 p1, parsepipe buf fuel p = Ret c1 p1 ∧ parseback buf fuel c1 p1 = Ret c (p + length (pr 1 sc))%nat ∧ denotes c sc.
Proof.
  intros H E Hpost Hf. destruct (H p post fuel fuel E) as (c & p1 & fb' & T & -> & Hd & Hfb); [by eapply starts_in, Hpost|lia..|].
  assert (parseback buf fb' c (p + length (pr 1 sc))%nat = Ret c (p + length (pr 1 sc))%nat) as T1.
  { destruct fb' as [|fb']; [lia|]. cbn [parseback]. rewrite (bind_Ret _ _ _ false (p + length (pr 1 sc))%nat); [done|].
    by eapply (peek_other _ (chars ");")); [..|by eapply drop_text|]. }
  rewrite T1 in T. apply bind_Ret_inv in T as (c1 & p1 & T & T2). eauto 6.
Qed.

Lemma back_to_line sc : pr 0 sc = pr 1 sc → reads_back sc → reads_line sc.
Proof.
  intros Epr H p post fuel E Hpost Hf. destruct fuel as [|fuel]; [lia|]. cbn [parseline]. rewrite Epr in *.
  destruct (back_complete sc p post fuel H E) as (c & c1 & p1 & T1 & T2 & Hd); [by eapply starts_in, Hpost|lia|].
  rewrite (bind_Ret _ _ _ _ _ T1), (bind_Ret _ _ _ _ _ T2).
  rewrite (bind_Ret _ _ _ false (p + length (pr 1 sc))%nat); [by exists c|].
  by eapply (peek_other _ after_line); [..|by eapply drop_text|].
Qed.

(** Words with redirections. *)
Lemma reads_SEXEC ws : well_formed (SEXEC ws) → reads_exec (SEXEC ws).
Proof.
  intros [Hws Hlen] rs p post fuel E Hrs Hpost Hf. destruct fuel as [|fuel]; [lia|]. cbn [parseexec]. cbn [pr] in *.
  fold (pr_words ws) in *. rewrite (bind_Ret _ _ _ false p).
  - destruct (redirs_then_args ws rs 0 p post fuel (parseargs_reads ws) E) as (crs1 & p1 & args & crs2 & T1 & T2 & Ha & Hr); try done; [lia|].
    rewrite (bind_Ret _ _ _ _ _ T1), (bind_Ret _ _ _ _ _ T2). eexists. split; [done|]. by apply wrap_denotes.
  - destruct Hws as [|w ws Hw Hws]; [|eapply (peek_word _ p w); [done| |done]; rewrite E; unfold pr_words, pr_word; cbn; by rewrite <- !app_assoc].
    apply (peek_other (chars "(") (chars "|)&;<>") p _ eq_refl eq_refl E). destruct rs as [|r rs]; [by eapply (starts_in after_exec)|].
    unfold pr_redirs, pr_redir. cbn. destruct (_ =? 0); by apply is_in_spec.
Qed.

(** A command in parentheses. *)
Lemma clean_pr sc lev post : well_formed sc → clean post → clean (pr lev sc ++ post).
Proof.
  revert lev post. induction sc as [ws|sc IH f m fd|l IHl r IHr|l IHl r IHr|sc IH]; intros lev post; cbn [well_formed pr].
  - intros [H _]. by apply clean_words.
  - intros (H & Hf & Hm) Hp. rewrite <- app_assoc. apply IH; [done|]. unfold pr_redir, clean. cbn. by destruct (m =? 0).
  - intros [Hl Hr] Hp. destruct (2 <? lev)%nat; [done|]. cbn [paren]. rewrite <- app_assoc. by apply IHl.
  - intros [Hl Hr] Hp. destruct (0 <? lev)%nat; [done|]. cbn [paren]. rewrite <- app_assoc. by apply IHl.
  - intros H Hp. destruct (1 <? lev)%nat; [done|]. cbn [paren]. rewrite <- app_assoc. by apply IH.
Qed.

Lemma line_to_exec sc : well_formed sc → pr 3 sc = 40 :: pr 0 sc ++ [41] → reads_line sc → reads_exec sc.
Proof.
  intros Hwf Epr H rs p post fuel E Hrs Hpost Hf. destruct fuel as [|[|fuel]]; [lia..|]. cbn [parseexec parseblock]. rewrite Epr in *.
  cbn [app] in E. rewrite <- !app_assoc in E. cbn [app] in E. set (rest := 41 :: pr_redirs rs ++ post) in *.
  assert (starts after_exec post → clean post) as Hcl by (intros; apply clean_symbols; by eapply starts_in, Hpost).
  assert (peek buf (chars "(") p = Ret true p) as T0 by (eapply peek_symbol, E; by apply is_in_spec).
  assert (gettoken buf p = Ret (40, p, S p) (S p)) as T1.
  { eapply gettoken_symbol; [exact E|by apply is_in_spec|by apply clean_pr]. }
  destruct (drop_char p _ _ E) as [_ E1]. set (p2 := (S p + length (pr 0 sc))%nat).
  pose proof (drop_text _ _ _ E1) as E2. fold p2 in E2. destruct (drop_char p2 _ _ E2) as [_ E3].
  rewrite !(bind_Ret _ _ _ _ _ T0). cbn [negb]. change (bind (ret ()) ?k ?s) with (k () s). cbv beta. rewrite (bind_Ret _ _ _ _ _ T1).
  pose proof (drop_shorter p (S p) _ _ E) as Hs. pose proof (drop_shorter p (S p2) _ _ E) as Hs2.
  destruct (H (S p) rest fuel E1) as (c & T2 & Hd); [by apply is_in_spec|lia|]. fold p2 in T2. rewrite (bind_Ret _ _ _ _ _ T2).
  assert (peek buf (chars ")") p2 = Ret true p2) as T3 by (eapply peek_symbol, E2; by apply is_in_spec).
  rewrite (bind_Ret _ _ _ _ _ T3). cbn [negb]. change (bind (ret ()) ?k ?s) with (k () s). cbv beta.
  rewrite (bind_Ret _ _ _ (41, p2, S p2) (S p2)).
  2: { eapply gettoken_symbol; [exact E2|by apply is_in_spec|]. apply clean_redirs. auto. }
  destruct (parseredirs_reads rs (S p2) post fuel E3 Hrs) as (crs & T4 & Hr); [auto| |subst p2; lia|].
  { by eapply (peek_other _ after_exec); [..|by eapply drop_text|]. }
  rewrite (bind_Ret _ _ _ _ _ T4). eexists. split; [|by apply wrap_denotes]. unfold ret. f_equal. subst p2.
  rewrite !length_app. cbn. rewrite length_app. cbn. lia.
Qed.

(** The compound commands at their own levels. *)
Lemma reads_SPIPE l r : well_formed r → reads_exec l → reads_pipe r → reads_pipe (SPIPE l r).
Proof.
  intros Hwf Hl Hr p post fuel E Hpost Hf. destruct fuel as [|fuel]; [lia|]. cbn [parsepipe]. cbn [pr paren Nat.ltb Nat.leb] in *.
  rewrite <- app_assoc in E. cbn [app] in E. destruct (Hl [] p _ fuel E) as (c & T1 & Hd1); [constructor|by apply is_in_spec|lia|].
  unfold pr_redirs in T1. cbn [fmap list_fmap concat] in T1. rewrite app_nil_r in T1. rewrite (bind_Ret _ _ _ _ _ T1).
  set (p1 := (p + length (pr 3 l))%nat). pose proof (drop_text _ _ _ E) as E1. fold p1 in E1.
  assert (peek buf (chars "|") p1 = Ret true p1) as T2 by (eapply peek_symbol, E1; by apply is_in_spec).
  rewrite (bind_Ret _ _ _ _ _ T2), (bind_Ret _ _ _ (124, p1, S p1) (S p1)).
  2: { eapply gettoken_symbol; [exact E1|by apply is_in_spec|]. apply clean_pr; [done|]. apply clean_symbols. by eapply starts_in, Hpost. }
  destruct (drop_char p1 _ _ E1) as [_ E2]. pose proof (drop_shorter p1 (S p1) _ _ E1). assert (length (drop p1 buf) ≤ length (drop p buf))%nat by (rewrite !length_drop; lia).
  destruct (Hr (S p1) post fuel E2 Hpost) as (c2 & T3 & Hd2); [lia|]. rewrite (bind_Ret _ _ _ _ _ T3).
  exists (PIPE c c2). split; [|done]. unfold ret. f_equal. subst p1. rewrite length_app. cbn. lia.
Qed.

Lemma reads_SBACK sc : reads_back sc → reads_back (SBACK sc).
Proof.
  intros H p post fuel fb E Hpost Hf Hfb. cbn [pr paren Nat.ltb Nat.leb] in *. rewrite <- app_assoc in E. cbn [app] in E.
  destruct (H p _ fuel fb E) as (c & p1 & fb' & T & -> & Hd & Hfb'); [by apply is_in_spec|lia..|].
  destruct fb' as [|fb']; [lia|]. set (p1 := (p + length (pr 1 sc))%nat) in *. pose proof (drop_text _ _ _ E) as E1. fold p1 in E1.
  exists (BACK c), (S p1), fb'. split_and!; [|subst p1; rewrite length_app; cbn; lia|done|cbn in Hfb'; lia]. rewrite T. cbn [parseback].
  assert (peek buf (chars "&") p1 = Ret true p1) as T2 by (eapply peek_symbol, E1; by apply is_in_spec).
  rewrite (bind_Ret _ _ _ _ _ T2), (bind_Ret _ _ _ (38, p1, S p1) (S p1)); [done|].
  eapply gettoken_symbol; [exact E1|by apply is_in_spec|]. apply clean_symbols. by eapply starts_in, Hpost.
Qed.

Lemma reads_SLIST l r : well_formed r → reads_back l → reads_line r → reads_line (SLIST l r).
Proof.
  intros Hwf Hl Hr p post fuel E Hpost Hf. destruct fuel as [|fuel]; [lia|]. cbn [parseline]. cbn [pr paren Nat.ltb Nat.leb] in *.
  rewrite <- app_assoc in E. cbn [app] in E. destruct (back_complete l p _ fuel Hl E) as (c & c0 & p0 & T0 & T1 & Hd1); [by apply is_in_spec|lia|].
  rewrite (bind_Ret _ _ _ _ _ T0), (bind_Ret _ _ _ _ _ T1).
  set (p1 := (p + length (pr 1 l))%nat). pose proof (drop_text _ _ _ E) as E1. fold p1 in E1.
  assert (peek buf (chars ";") p1 = Ret true p1) as T2 by (eapply peek_symbol, E1; by apply is_in_spec).
  rewrite (bind_Ret _ _ _ _ _ T2), (bind_Ret _ _ _ (59, p1, S p1) (S p1)).
  2: { eapply gettoken_symbol; [exact E1|by apply is_in_spec|]. apply clean_pr; [done|]. apply clean_symbols. by eapply starts_in, Hpost. }
  destruct (drop_char p1 _ _ E1) as [_ E2]. pose proof (drop_shorter p1 (S p1) _ _ E1). assert (length (drop p1 buf) ≤ length (drop p buf))%nat by (rewrite !length_drop; lia).
  destruct (Hr (S p1) post fuel E2 Hpost) as (c2 & T3 & Hd2); [lia|]. rewrite (bind_Ret _ _ _ _ _ T3).
  exists (LIST c c2). split; [|done]. unfold ret. f_equal. subst p1. rewrite length_app. cbn. lia.
Qed.

Lemma reads_SREDIR sc f m fd : redirect_ok (f, m, fd) → reads_exec sc → reads_exec (SREDIR sc f m fd).
Proof.
  intros Hr H rs p post fuel E Hrs Hpost Hf. cbn [pr] in *. rewrite <- app_assoc in *.
  destruct (H ((f, m, fd) :: rs) p post fuel) as (c & T & Hd); [|by constructor|done|done|by exists c].
  rewrite E. unfold pr_redirs. cbn [fmap list_fmap concat fst snd]. by rewrite <- !app_assoc.
Qed.

Lemma reads_all sc : well_formed sc → reads_exec sc ∧ reads_pipe sc ∧ reads_back sc ∧ reads_line sc.
Proof.
  induction sc as [ws|sc IH f m fd|l IHl r IHr|l IHl r IHr|sc IH]; intros Hwf.
  - pose proof (reads_SEXEC ws Hwf) as H3. pose proof (exec_to_pipe (SEXEC ws) eq_refl H3) as H2.
    pose proof (pipe_to_back (SEXEC ws) eq_refl H2) as H1. pose proof (back_to_line (SEXEC ws) eq_refl H1). done.
  - destruct Hwf as (Hwf & Hf & Hm). pose proof (reads_SREDIR sc f m fd (conj Hf Hm) (proj1 (IH Hwf))) as H3.
    pose proof (exec_to_pipe (SREDIR sc f m fd) eq_refl H3) as H2. pose proof (pipe_to_back (SREDIR sc f m fd) eq_refl H2) as H1. pose proof (back_to_line (SREDIR sc f m fd) eq_refl H1). done.
  - pose proof Hwf as [Hl Hr]. pose proof (reads_SPIPE l r Hr (proj1 (IHl Hl)) (proj1 (proj2 (IHr Hr)))) as H2.
    pose proof (pipe_to_back (SPIPE l r) eq_refl H2) as H1. pose proof (back_to_line (SPIPE l r) eq_refl H1) as H0. pose proof (line_to_exec (SPIPE l r) Hwf eq_refl H0). done.
  - pose proof Hwf as [Hl Hr]. destruct (IHl Hl) as (_ & _ & Hb & _), (IHr Hr) as (_ & _ & _ & Hli).
    pose proof (reads_SLIST l r Hr Hb Hli) as H0. pose proof (line_to_exec (SLIST l r) Hwf eq_refl H0) as H3.
    pose proof (exec_to_pipe (SLIST l r) eq_refl H3) as H2. pose proof (pipe_to_back (SLIST l r) eq_refl H2). done.
  - pose proof (reads_SBACK sc (proj1 (proj2 (proj2 (IH Hwf))))) as H1. pose proof (back_to_line (SBACK sc) eq_refl H1) as H0.
    pose proof (line_to_exec (SBACK sc) Hwf eq_refl H0) as H3. pose proof (exec_to_pipe (SBACK sc) eq_refl H3). done.
Qed.

(** ** The strings after nulterminate *)

Fixpoint word_ends (c : cmd) : list nat :=
  match c with
  | EXEC l => l.*2
  | REDIR c _ ef _ _ => word_ends c ++ [ef]
  | PIPE l r | LIST l r => word_ends l ++ word_ends r
  | BACK c => word_ends c
  end.

Definition zero_at (es : list nat) (b : list Z) : list Z := foldl (λ b e, <[e := 0]> b) b es.

Lemma nulterminate_zero_at c b : nulterminate c b = zero_at (word_ends c) b.
Proof.
  revert b. induction c as [l|c IH ? ef ? ?|l IHl r IHr|l IHl r IHr|c IH]; intros b; cbn [nulterminate word_ends].
  - revert b. induction l as [|[q e] l IH]; intros b; [done|]. apply IH.
  - rewrite IH. unfold zero_at. by rewrite foldl_snoc.
  - rewrite IHl, IHr. unfold zero_at. by rewrite foldl_app.
  - rewrite IHl, IHr. unfold zero_at. by rewrite foldl_app.
  - apply IH.
Qed.

Lemma zero_at_in es b i : i ∈ es → (i < length b)%nat → zero_at es b !! i = Some 0.
Proof.
  unfold zero_at. revert b. induction es as [|e es IH] using rev_ind; intros b Hi Hl; [by apply elem_of_nil in Hi|].
  rewrite foldl_snoc. assert (length (foldl (λ b e, <[e := 0]> b) b es) = length b) as Elen.
  { clear. revert b. induction es as [|e es IH]; intros b; [done|]. cbn. by rewrite IH, length_insert. }
  destruct (decide (i = e)) as [->|Hne]; [apply list_lookup_insert_eq; lia|]. rewrite list_lookup_insert_ne by done.
  apply IH; [|done]. apply elem_of_app in Hi as [Hi|Hi%list_elem_of_singleton]; done.
Qed.

Lemma zero_at_out es b i : i ∉ es → zero_at es b !! i = b !! i.
Proof.
  unfold zero_at. revert b. induction es as [|e es IH]; intros b Hi; [done|]. cbn. apply not_elem_of_cons in Hi as [Hne Hi].
  rewrite IH by done. by apply list_lookup_insert_ne.
Qed.

(** The words end at blanks of the line. *)
Lemma spells_end q e w : spells (q, e) w → buf !! e = Some 32.
Proof. intros (post & E & Ee & _). cbn in *. subst e. rewrite <- lookup_drop, E, lookup_app_r, Nat.sub_diag by done. done. Qed.

Lemma denotes_ends c sc : denotes c sc → ∀ e, e ∈ word_ends c → buf !! e = Some 32.
Proof.
  revert sc. induction c as [l|c IH f ef m fd|l IHl r IHr|l IHl r IHr|c IH]; intros [ws|sc w m' fd'|sl sr|sl sr|sc]; cbn [denotes word_ends]; try done.
  - intros H e He. apply list_elem_of_fmap in He as ([q e'] & -> & He). cbn. apply list_elem_of_lookup in He as [i Hi].
    destruct (Forall2_lookup_l _ _ _ _ _ H Hi) as (w & _ & Hw). by eapply spells_end.
  - intros (Hd & Hs & _) e [He|He%list_elem_of_singleton]%elem_of_app; [by eapply IH|subst; by eapply spells_end].
  - intros [Hl Hr] e [He|He]%elem_of_app; [by eapply IHl|by eapply IHr].
  - intros [Hl Hr] e [He|He]%elem_of_app; [by eapply IHl|by eapply IHr].
  - eapply IH.
Qed.

(** A word whose end is a NUL now is a string of the buffer. *)
Lemma string_at_word b q e w : spells (q, e) w → b !! e = Some 0 → (∀ i c, buf !! i = Some c → b !! i = Some c ∨ c = 32) → string_at b q = w.
Proof.
  intros (post & E & Ee & [_ Hw]) He Hb. cbn in *. unfold string_at. subst e. revert q E He.
  induction Hw as [|c w (H0 & H1 & _) Hw IH]; intros q E He; cbn [length] in *.
  - rewrite Nat.add_0_r in He. by rewrite (drop_S _ 0).
  - assert (buf !! q = Some c) as Ec by (rewrite <- (Nat.add_0_r q), <- lookup_drop, E; done).
    destruct (Hb q c Ec) as [Eb| ->]; [|done]. rewrite (drop_S _ c) by done.
    cbn [upto0]. rewrite (proj2 (Z.eqb_neq c 0)) by done. f_equal. apply IH; [|by rewrite Nat.add_succ_comm].
    by destruct (drop_char q c _ E).
Qed.

Lemma denotes_strings b c sc : denotes c sc → (∀ e, e ∈ word_ends c → b !! e = Some 0) →
  (∀ i c, buf !! i = Some c → b !! i = Some c ∨ c = 32) → strings b c = sc.
Proof.
  intros Hd He Hb. revert sc Hd He. induction c as [l|c IH f ef m fd|l IHl r IHr|l IHl r IHr|c IH];
    intros [ws|sc w m' fd'|sl sr|sl sr|sc]; cbn [denotes word_ends strings]; try done.
  - intros H He. f_equal. induction H as [|[q e] w l ws Hw H IH]; [done|]. cbn. f_equal.
    + eapply string_at_word; [done| |done]. apply He. by left.
    + apply IH. intros e' He'. apply He. by right.
  - intros (Hd & Hs & -> & ->) He. rewrite (IH sc) by (auto; intros; apply He, elem_of_app; by left).
    rewrite (string_at_word b f ef w); [done|done| |done]. apply He, elem_of_app. right. by left.
  - intros [Hl Hr] He. rewrite (IHl sl), (IHr sr); [done|done|intros; apply He, elem_of_app; by right|done|intros; apply He, elem_of_app; by left].
  - intros [Hl Hr] He. rewrite (IHl sl), (IHr sr); [done|done|intros; apply He, elem_of_app; by right|done|intros; apply He, elem_of_app; by left].
  - intros Hd He. by rewrite (IH sc).
Qed.

End roundtrip.

(** C16: Printing and parsing.  The parser reads every printed command, and the
    strings of the command in the buffer, after nulterminate, are the words that
    were printed: runcmd is given the command. *)
Theorem parsecmd_reads sc fuel :
  well_formed sc → (5 * length (pr 0 sc) + 5 ≤ fuel)%nat →
  ∃ c b, parsecmd fuel (pr 0 sc) O = Ret (c, b) (length (pr 0 sc)) ∧ strings b c = sc.
Proof.
  intros Hwf Hf. set (line := pr 0 sc) in *. destruct (reads_all line sc Hwf) as (_ & _ & _ & H).
  destruct (H 0%nat [] fuel) as (c & T & Hd); [by rewrite app_nil_r|done|done|]. fold line in T. cbn [Nat.add] in T.
  exists c, (nulterminate c (line ++ [0])). split.
  - unfold parsecmd. unfold bind at 1, modify at 1. cbn [obind]. rewrite (bind_Ret _ _ _ _ _ T).
    rewrite (bind_Ret _ _ _ false (length line)); [by unfold bind, gets, ret; cbn [obind id]; rewrite Nat.eqb_refl|].
    rewrite peek_run; rewrite drop_all; done.
  - rewrite nulterminate_zero_at. apply (denotes_strings line _ _ _ Hd).
    + intros e He. pose proof (denotes_ends line c sc Hd e He) as Hl%lookup_lt_Some. apply zero_at_in; [done|]. rewrite length_app. lia.
    + intros i x Hi. destruct (decide (i ∈ word_ends c)) as [Hin|Hout]; [right|left].
      * pose proof (denotes_ends line c sc Hd i Hin). congruence.
      * rewrite zero_at_out by done. by apply lookup_app_l_Some.
Qed.

Lemma parsecmd_reads_witness :
  let sc := SLIST (SBACK (SPIPE (SEXEC [chars "ls"]) (SREDIR (SLIST (SEXEC [chars "wc"; chars "-l"]) (SEXEC [])) (chars "out") 513 1)))
                  (SEXEC [chars "echo"; chars "done"]) in
  pr 0 sc = chars "ls |(wc -l ;)>out &;echo done " ∧
  ∃ c b, parsecmd 200 (pr 0 sc) O = Ret (c, b) (length (pr 0 sc)) ∧ strings b c = sc.
Proof.
  cbv zeta. split; [reflexivity|]. apply (parsecmd_reads _ 200); [|cbn; lia].
  assert (∀ w, forallb (λ c, negb (c =? 0) && negb (is_in whitespace c) && negb (is_in symbols c)) w = true → w ≠ [] → word w) as Hword.
  { intros w H Hn. split; [done|]. apply Forall_forall. intros c Hc%list_elem_of_In. rewrite forallb_forall in H. specialize (H c Hc).
    apply andb_prop in H as [[H1 H2]%andb_prop H3]. apply negb_true_iff in H1, H2, H3. apply Z.eqb_neq in H1. done. }
  cbn [well_formed]. split_and!; repeat first [apply Forall_nil; exact I | apply Forall_cons; split | apply Hword; [reflexivity|done]]; try (unfold MAXARGS; cbn; lia). by right.
Defined.
