(* ===== verification/Mkfs.v ===== *)
(** * Building a file system (mkfs.c)

    mkfs runs on the host and writes the image that the kernel mounts.  [mkst]
    is its global variables and the blocks of the image file; the host is
    little-endian, as the x86 it targets.  The files of the host are a parameter:
    [host name] is [None] when open fails and otherwise the results of the reads
    until the one that returns 0.  A failed assert and exit(1) are panics; host
    errors other than a short read at the end of the image are not modelled. *)
From S2P Require Import Prelude Kernel Format Proc Bytes Bio Log BlockIO Fs.

Local Open Scope Z_scope.
Local Open Scope kernel_scope.

Definition NINODES : Z := 200.
Definition FSSIZE : Z := 2000.
Definition nbitmap : Z := FSSIZE / (Z.of_nat BSIZE * 8) + 1.
Definition ninodeblocks : Z := NINODES / IPB + 1.
Definition mk_nlog : Z := LOGSIZE.
Definition nmeta : Z := 2 + mk_nlog + ninodeblocks + nbitmap.
Definition mk_nblocks : Z := FSSIZE - nmeta.
Definition zeroes : list Z := replicate BSIZE 0.

Record mkst := mk_mkst {
  image : list (list Z);
  freeinode : Z;
  freeblock : Z;
  mk_superblock : superblock;
  mk_out : list (string * list Z)      (* the calls of printf *)
}.

Definition set_image (v : list (list Z)) (x : mkst) : mkst :=
  mk_mkst v (freeinode x) (freeblock x) (mk_superblock x) (mk_out x).
Definition set_freeinode (v : Z) (x : mkst) : mkst :=
  mk_mkst (image x) v (freeblock x) (mk_superblock x) (mk_out x).
Definition set_freeblock (v : Z) (x : mkst) : mkst :=
  mk_mkst (image x) (freeinode x) v (mk_superblock x) (mk_out x).
Definition set_mk_superblock (v : superblock) (x : mkst) : mkst :=
  mk_mkst (image x) (freeinode x) (freeblock x) v (mk_out x).
Definition set_mk_out (v : list (string * list Z)) (x : mkst) : mkst :=
  mk_mkst (image x) (freeinode x) (freeblock x) (mk_superblock x) v.

(** printf of the host; the newline that ends every message is left out. *)
Definition host_printf (fmt : string) (args : list Z) : M mkst unit :=
  modify (λ s, set_mk_out (mk_out s ++ [(fmt, args)]) s).

Definition host_assert (b : bool) : M mkst unit := when (negb b) do panic "assert".

(** convert to intel byte order *)
Definition xshort (x : Z) : Z := le_combine [u8 x; u8 (Z.shiftr x 8)].
Definition xint (x : Z) : Z := le_combine [u8 x; u8 (Z.shiftr x 8); u8 (Z.shiftr x 16); u8 (Z.shiftr x 24)].

(** ** Sectors *)

(** The sector at the offset lseek is given. *)
Definition sector (sec : Z) : nat := Z.to_nat (u32 (sec * Z.of_nat BSIZE) / Z.of_nat BSIZE).

(** A write past the end of the file leaves a hole of zeros. *)
Definition write_block (k : nat) (b : list Z) (img : list (list Z)) : list (list Z) :=
  if (k <? length img)%nat then <[k := b]> img else img ++ replicate (k - length img) zeroes ++ [b].

Definition wsect (sec : Z) (buf : list Z) : M mkst unit :=
  modify (λ s, set_image (write_block (sector sec) buf (image s)) s).

Definition rsect (sec : Z) : M mkst (list Z) :=
  b <- gets (λ s, image s !! sector sec);;
  match b with
  | Some b => ret b
  | None => panic "read"
  end.

(** ** Inodes *)

Definition winode (inum : Z) (ip : inode) : M mkst unit :=
  bn <- gets (λ s, IBLOCK inum (mk_superblock s));;
  buf <- rsect bn;;
  wsect bn (write_dinode (dinode_at inum) ip buf).

Definition rinode (inum : Z) : M mkst inode :=
  bn <- gets (λ s, IBLOCK inum (mk_superblock s));;
  buf <- rsect bn;;
  ret (read_dinode (dinode_at inum) buf inode0).

Definition mkfs_ialloc (type : Z) : M mkst Z :=
  inum <- gets freeinode;;
  modify (set_freeinode (u32 (inum + 1)));;
  winode inum (mk_inode 0 0 0 0 (s16 (xshort type)) 0 0 (s16 (xshort 1)) (xint 0) (replicate (S NDIRECT) 0));;
  ret inum.

(** freeblock++ *)
Definition next_block : M mkst Z :=
  b <- gets freeblock;;
  modify (set_freeblock (u32 (b + 1)));;
  ret b.

Definition set_addr (k : nat) (b : Z) (din : inode) : inode := set_addrs (<[k := b]> (addrs din)) din.

(** The block number in slot [k] of the inode, allocated when it is 0. *)
Definition slot_block (k : nat) (din : inode) : M mkst inode :=
  if xint (addr_of k din) =? 0 then b <- next_block;; ret (set_addr k (xint b) din) else ret din.

(** The body of iappend's loop up to the block number [x]. *)
Definition append_block (fbn : Z) (din : inode) : M mkst (inode * Z) :=
  if fbn <? Z.of_nat NDIRECT then
    din <- slot_block (Z.to_nat fbn) din;;
    ret (din, xint (addr_of (Z.to_nat fbn) din))
  else
    din <- slot_block NDIRECT din;;
    let ib := xint (addr_of NDIRECT din) in
    let o := (4 * Z.to_nat (fbn - Z.of_nat NDIRECT))%nat in
    indirect <- rsect ib;;
    if rd32 o indirect =? 0 then
      b <- next_block;;
      let indirect := wr32 o (xint b) indirect in
      wsect ib indirect;;
      ret (din, xint (rd32 o indirect))
    else ret (din, xint (rd32 o indirect)).

Fixpoint iappend_loop (fuel : nat) (din : inode) (off : Z) (p : list Z) : M mkst (inode * Z) :=
  match fuel with
  | O => nofuel
  | S fuel =>
      match p with
      | [] => ret (din, off)
      | _ =>
          let fbn := off / Z.of_nat BSIZE in
          host_assert (fbn <? MAXFILE);;
          '(din, x) <- append_block fbn din;;
          let n1 := Z.to_nat (Z.min (Z.of_nat (length p)) ((fbn + 1) * Z.of_nat BSIZE - off)) in
          buf <- rsect x;;
          wsect x (list_inserts (Z.to_nat (off - fbn * Z.of_nat BSIZE)) (take n1 p) buf);;
          iappend_loop fuel din (u32 (off + Z.of_nat n1)) (drop n1 p)
      end
  end.

Definition iappend (inum : Z) (xp : list Z) : M mkst unit :=
  din <- rinode inum;;
  '(din, off) <- iappend_loop (S (length xp)) din (xint (isize din)) xp;;
  winode inum (set_isize (xint off) din).

(** ** The bitmap *)

Fixpoint used_bits (n : nat) (buf : list Z) : list Z :=
  match n with
  | O => buf
  | S n => bit_set (Z.of_nat n) (used_bits n buf)
  end.

Definition mkfs_balloc (used : Z) : M mkst unit :=
  host_printf "balloc: first %d blocks have been allocated" [used];;
  host_assert (used <? Z.of_nat BSIZE * 8);;
  bm <- gets (λ s, bmapstart (mk_superblock s));;
  host_printf "balloc: write bitmap block at sector %d" [bm];;
  wsect bm (used_bits (Z.to_nat used) zeroes).

(** ** main *)

Definition mkfs_dirent (inum : Z) (name : list Z) : list Z :=
  list_inserts 2 name (wr16 0 (xshort inum) (replicate (Z.to_nat DIRENT_SIZE) 0)).

Fixpoint zero_image (i : Z) (n : nat) : M mkst unit :=
  match n with
  | O => ret tt
  | S n => wsect i zeroes;; zero_image (i + 1) n
  end.

Definition sb_bytes (sb : superblock) : list Z :=
  le_split 4 (sb_size sb) ++ le_split 4 (nblocks sb) ++ le_split 4 (ninodes sb) ++ le_split 4 (nlog sb) ++
  le_split 4 (logstart sb) ++ le_split 4 (inodestart sb) ++ le_split 4 (bmapstart sb).

Section main.
  Variable host : list Z → option (list (list Z)).

Fixpoint append_reads (inum : Z) (chunks : list (list Z)) : M mkst unit :=
  match chunks with
  | [] => ret tt
  | c :: chunks => iappend inum c;; append_reads inum chunks
  end.

Definition strip (name : list Z) : list Z := if default 0 (head name) =? 95 then tail name else name.

Fixpoint add_files (rootino : Z) (names : list (list Z)) : M mkst unit :=
  match names with
  | [] => ret tt
  | name :: names =>
      host_assert (negb (bool_decide (SLASH ∈ name)));;
      match host name with
      | None => panic "open"
      | Some chunks =>
          let name := strip name in
          inum <- mkfs_ialloc T_FILE;;
          iappend rootino (mkfs_dirent inum (strncpy_bytes DIRSIZ name));;
          append_reads inum chunks;;
          add_files rootino names
      end
  end.

Definition mkfs_main (argv : list (list Z)) : M mkst unit :=
  match argv with
  | _ :: _ :: names =>
      let sb := mk_sb (xint FSSIZE) (xint mk_nblocks) (xint NINODES) (xint mk_nlog) (xint 2) (xint (2 + mk_nlog))
                  (xint (2 + mk_nlog + ninodeblocks)) in
      modify (λ s, set_mk_superblock sb (set_image [] s));;
      host_printf "nmeta %d (boot, super, log blocks %u inode blocks %u, bitmap blocks %u) blocks %d total %d"
        [nmeta; mk_nlog; ninodeblocks; nbitmap; mk_nblocks; FSSIZE];;
      modify (set_freeblock nmeta);;
      zero_image 0 (Z.to_nat FSSIZE);;
      wsect 1 (list_inserts 0 (sb_bytes sb) zeroes);;
      rootino <- mkfs_ialloc T_DIR;;
      host_assert (rootino =? ROOTINO);;
      iappend rootino (mkfs_dirent rootino (chars "." ++ [0]));;
      iappend rootino (mkfs_dirent rootino (chars ".." ++ [0]));;
      add_files rootino names;;
      din <- rinode rootino;;
      let off := xint (isize din) in
      let off := u32 ((off / Z.of_nat BSIZE + 1) * Z.of_nat BSIZE) in
      winode rootino (set_isize (xint off) din);;
      used <- gets freeblock;;
      mkfs_balloc used
  | _ => panic "usage"
  end.

End main.

(** The variables of the program at its start. *)
Definition mkfs_start : mkst := mk_mkst [] 1 0 (mk_sb 0 0 0 0 0 0 0) [].
