(* ===== verification/MkfsSpec.v ===== *)
(** * What mkfs builds

    The blocks of the image as a layout of files: which inode owns which block,
    what the files hold, and that the rest is free.  The operations of [Mkfs]
    keep the layout, and the image of the whole program is a directory tree in
    the sense of [FsSpec]: the theorems about the kernel's file system apply to
    it. *)
From S2P Require Import Prelude Kernel Format Proc Bytes Bio Log BlockIO Fs FsSpec Mkfs.

Local Open Scope Z_scope.
Local Open Scope kernel_scope.

(** ** Byte order and sectors *)

Lemma xint_id x : 0 ≤ x < W32 → xint x = x.
Proof.
  intros Hx. unfold xint, u8, W32 in *. rewrite !Z.shiftr_div_pow2 by lia. cbn [le_combine Z.pow Z.pow_pos Pos.iter Z.mul].
  Z.div_mod_to_equations. lia.
Qed.

Lemma xshort_id x : 0 ≤ x < 65536 → xshort x = x.
Proof.
  intros Hx. unfold xshort, u8 in *. rewrite !Z.shiftr_div_pow2 by lia. cbn [le_combine Z.pow Z.pow_pos Pos.iter Z.mul].
  Z.div_mod_to_equations. lia.
Qed.

Lemma sector_id b : 0 ≤ b < FSSIZE → sector b = Z.to_nat b.
Proof.
  unfold sector, FSSIZE, u32, W32, BSIZE. intros Hb. rewrite Z.mod_small by lia. f_equal. change (Z.of_nat 512) with 512.
  by rewrite Z.div_mul.
Qed.

(** An image of the right size. *)
Definition image_ok (img : list (list Z)) : Prop := length img = Z.to_nat FSSIZE ∧ Forall (λ b, length b = BSIZE) img.

Lemma blk_length img b : image_ok img → 0 ≤ b < FSSIZE → length (blk img b) = BSIZE.
Proof.
  intros [Hl Hf] Hb. unfold blk. destruct (lookup_lt_is_Some_2 img (Z.to_nat b)) as [x Ex]; [lia|]. rewrite Ex. cbn.
  by eapply Forall_lookup_1 in Hf.
Qed.

Definition put (b : Z) (l : list Z) (img : list (list Z)) : list (list Z) := <[Z.to_nat b := l]> img.

Lemma put_ok b l img : image_ok img → length l = BSIZE → image_ok (put b l img).
Proof. intros [Hl Hf] Hb. split; [by unfold put; rewrite length_insert|]. by apply Forall_insert. Qed.

Lemma blk_put b l img x : image_ok img → 0 ≤ b < FSSIZE → 0 ≤ x → blk (put b l img) x = if decide (x = b) then l else blk img x.
Proof.
  intros [Hl _] Hb Hx. unfold blk, put. destruct (decide (x = b)) as [->|Hne].
  - by rewrite list_lookup_insert_eq by lia.
  - by rewrite list_lookup_insert_ne by lia.
Qed.

Lemma rsect_ok b s : image_ok (image s) → 0 ≤ b < FSSIZE → rsect b s = Ret (blk (image s) b) s.
Proof.
  intros [Hl _] Hb. unfold rsect, bind, gets, blk. cbn [obind]. rewrite sector_id by done.
  destruct (lookup_lt_is_Some_2 (image s) (Z.to_nat b)) as [x ->]; [lia|done].
Qed.

Lemma wsect_ok b l s : image_ok (image s) → 0 ≤ b < FSSIZE → wsect b l s = Ret tt (set_image (put b l (image s)) s).
Proof.
  intros [Hl _] Hb. unfold wsect, modify, write_block. rewrite sector_id by done.
  by rewrite (proj2 (Nat.ltb_lt _ _)) by lia.
Qed.

(** ** Layouts *)

(** A file in the making: its inode, its bytes, the number of its data blocks
    and whether it has an indirect block. *)
Record fent := mk_fent { fi : inode; fd : list Z; fcap : Z; find : bool }.

Definition BS : Z := Z.of_nat BSIZE.
Definition ND : Z := Z.of_nat NDIRECT.

(** Arithmetic with the sizes of the file system. *)
Ltac sizes := change nmeta with 59 in *; unfold FSSIZE, W32, MAXFILE, NINDIRECT, ND, BS, NDIRECT, BSIZE in *.

(** File [i] in the blocks [V]; [own b] is the file and the place of block [b],
    with place -1 for an indirect block. *)
Record fholds (V : Z → list Z) (own : Z → option (nat * Z)) (i : nat) (f : fent) : Prop := {
  fh_wf : inode_wf (fi f);
  fh_len : Z.of_nat (length (fd f)) ≤ fcap f * BS;
  fh_cap : 0 ≤ fcap f ≤ MAXFILE;
  fh_ind : if find f then own (addr_of NDIRECT (fi f)) = Some (i, -1)
           else addr_of NDIRECT (fi f) = 0 ∧ fcap f ≤ ND;
  fh_used k : 0 ≤ k < fcap f → own (file_block V (fi f) k) = Some (i, k);
  fh_unused k : fcap f ≤ k < MAXFILE → k < ND ∨ find f = true → file_block V (fi f) k = 0;
  fh_data k j : 0 ≤ k < fcap f → (j < BSIZE)%nat →
    V (file_block V (fi f) k) !! j = Some (default 0 (fd f !! (Z.to_nat k * BSIZE + j)%nat))
}.

(** The blocks a file takes, and all of them. *)
Definition weight (f : fent) : Z := fcap f + (if find f then 1 else 0).
Definition total (F : list fent) : Z := foldr (λ f a, weight f + a) 0 F.

Record layout (V : Z → list Z) (own : Z → option (nat * Z)) (fb : Z) (F : list fent) : Prop := {
  ly_own b o : own b = Some o → nmeta ≤ b < fb;
  ly_files i f : F !! i = Some f → fholds V own i f;
  ly_free b : fb ≤ b < FSSIZE → V b = zeroes;
  ly_fb : fb = nmeta + total F;
  ly_max : fb ≤ FSSIZE
}.

Lemma total_insert F i f f' : F !! i = Some f → total (<[i := f']> F) = total F - weight f + weight f'.
Proof.
  revert i. induction F as [|g F IH]; intros [|i] Hi; try done.
  - cbn in *. injection Hi as ->. lia.
  - change (weight g + total (<[i := f']> F) = weight g + total F - weight f + weight f'). rewrite (IH i Hi). lia.
Qed.

(** The number of a block of file depends on the inode's slots and the indirect
    block. *)
Lemma file_block_ext V V' ip k : (ND ≤ k → V' (addr_of NDIRECT ip) = V (addr_of NDIRECT ip)) → file_block V' ip k = file_block V ip k.
Proof. intros H. unfold file_block. fold ND. destruct (k <? ND) eqn:E; bools; [done|]. by rewrite H. Qed.

(** A file stays as it is when its own blocks do. *)
Lemma fholds_frame V V' own own' i f :
  fholds V own i f → (∀ b k, own b = Some (i, k) → V' b = V b ∧ own' b = own b) → fholds V' own' i f.
Proof.
  intros H Hown. assert (∀ k, k < ND ∨ find f = true → file_block V' (fi f) k = file_block V (fi f) k) as Hb.
  { intros k Hk. apply file_block_ext. intros Hge. destruct Hk as [Hk|Hk]; [lia|]. pose proof (fh_ind _ _ _ _ H) as Hi. rewrite Hk in Hi.
    by apply Hown in Hi as [? _]. }
  assert (∀ k, k < fcap f → k < ND ∨ find f = true) as Hc.
  { intros k Hk. pose proof (fh_ind _ _ _ _ H) as Hi. destruct (find f); [by right|]. left. lia. }
  split; try apply H.
  - pose proof (fh_ind _ _ _ _ H) as Hi. destruct (find f); [|done]. destruct (Hown _ _ Hi) as [_ ->]. done.
  - intros k Hk. rewrite Hb by (apply Hc; lia). pose proof (fh_used _ _ _ _ H k Hk) as Hu. by destruct (Hown _ _ Hu) as [_ ->].
  - intros k Hk Hk2. rewrite Hb by done. by apply (fh_unused _ _ _ _ H).
  - intros k j Hk Hj. rewrite Hb by (apply Hc; lia). destruct (Hown _ _ (fh_used _ _ _ _ H k Hk)) as [-> _]. by apply (fh_data _ _ _ _ H).
Qed.

(** A layout with another state of file [i]: the other files' blocks are kept. *)
Lemma layout_update V V' own own' fb fb' F i f f' :
  layout V own fb F → F !! i = Some f → fholds V' own' i f' →
  (∀ b j k, j ≠ i → own b = Some (j, k) → V' b = V b ∧ own' b = own b) →
  (∀ b o, own' b = Some o → nmeta ≤ b < fb') → (∀ b, fb' ≤ b < FSSIZE → V' b = zeroes) →
  fb' = fb - weight f + weight f' → fb' ≤ FSSIZE →
  layout V' own' fb' (<[i := f']> F).
Proof.
  intros HL Hi Hf Hoth Hown Hfree Hw Hmax. split; try done.
  - intros j g Hj. destruct (decide (j = i)) as [->|Hne].
    + rewrite list_lookup_insert_eq in Hj by (by eapply lookup_lt_Some). by injection Hj as <-.
    + rewrite list_lookup_insert_ne in Hj by done. eapply fholds_frame; [by eapply ly_files|]. intros b k Hb. by eapply Hoth.
  - rewrite (total_insert F i f f' Hi), Hw, (ly_fb _ _ _ _ HL). lia.
Qed.

Definition give (b : Z) (o : nat * Z) (own : Z → option (nat * Z)) : Z → option (nat * Z) :=
  λ x, if decide (x = b) then Some o else own x.

Lemma give_eq b o own : give b o own b = Some o.
Proof. unfold give. by rewrite decide_True. Qed.

Lemma give_ne b o own x : x ≠ b → give b o own x = own x.
Proof. intros. unfold give. by rewrite decide_False. Qed.

(** The next free block has no owner. *)
Lemma give_kept V own fb F o b x : layout V own fb F → own b = Some x → b ≠ fb ∧ give fb o own b = Some x.
Proof. intros HL Hb. pose proof (ly_own _ _ _ _ HL _ _ Hb). split; [lia|]. by rewrite give_ne by lia. Qed.

Lemma give_range V own fb F o b x : layout V own fb F → nmeta ≤ fb → give fb o own b = Some x → nmeta ≤ b < fb + 1.
Proof.
  intros HL Hn. unfold give. destruct (decide (b = fb)) as [->|]; [lia|]. intros Hb. pose proof (ly_own _ _ _ _ HL _ _ Hb). lia.
Qed.

Lemma total_pos V own fb F : layout V own fb F → nmeta ≤ fb.
Proof.
  intros HL. rewrite (ly_fb _ _ _ _ HL). assert (∀ f, f ∈ F → 0 ≤ weight f) as H.
  { intros f [i Hi]%list_elem_of_lookup. pose proof (fh_cap _ _ _ _ (ly_files _ _ _ _ HL i f Hi)). unfold weight. destruct (find f); lia. }
  clear HL. induction F as [|f F IH]; cbn; [lia|]. pose proof (H f (list_elem_of_here _ _)).
  assert (nmeta ≤ nmeta + total F) by (apply IH; intros; apply H; by right). fold (total F). lia.
Qed.

Lemma addr_of_set k j b ip : length (addrs ip) = S NDIRECT → (j < S NDIRECT)%nat →
  addr_of k (set_addr j b ip) = if decide (k = j) then b else addr_of k ip.
Proof.
  intros Hl Hj. unfold addr_of, set_addr. cbn [addrs set_addrs]. destruct (decide (k = j)) as [->|Hne].
  - by rewrite list_lookup_insert_eq by lia.
  - by rewrite list_lookup_insert_ne.
Qed.

Lemma set_addr_wf j b ip : inode_wf ip → 0 ≤ b < W32 → inode_wf (set_addr j b ip).
Proof.
  intros (H1 & H2 & H3 & H4 & H5 & Hl & Ha) Hb. unfold inode_wf, set_addr. cbn.
  split_and!; try lia.
  - by rewrite length_insert.
  - by apply Forall_insert.
Qed.

Lemma past_end f k j : Z.of_nat (length (fd f)) ≤ k * BS → 0 ≤ k → default 0 (fd f !! (Z.to_nat k * BSIZE + j)%nat) = 0.
Proof. intros Hl Hk. rewrite lookup_ge_None_2; [done|]. unfold BS in *. lia. Qed.

Lemma zeroes_lookup j : (j < BSIZE)%nat → zeroes !! j = Some 0.
Proof. intros. by apply lookup_replicate_2. Qed.

(** A new direct block. *)
Lemma layout_direct V own fb F i f :
  layout V own fb F → F !! i = Some f → fcap f < ND → fb < FSSIZE →
  layout V (give fb (i, fcap f) own) (fb + 1)
    (<[i := mk_fent (set_addr (Z.to_nat (fcap f)) fb (fi f)) (fd f) (fcap f + 1) (find f)]> F).
Proof.
  intros HL Hi Hc Hfb. pose proof (ly_files _ _ _ _ HL i f Hi) as H. pose proof (total_pos _ _ _ _ HL) as Hn.
  pose proof (fh_cap _ _ _ _ H) as Hcap. destruct (fh_wf _ _ _ _ H) as (_ & _ & _ & _ & _ & Hl & _).
  unfold ND in *. eapply (layout_update V V own _ fb); try done.
  - set (ip' := set_addr _ _ _).
    assert (∀ k, 0 ≤ k → file_block V ip' k = if decide (k = fcap f) then fb else file_block V (fi f) k) as Hb.
    { intros k Hk. unfold file_block, ip'. rewrite !addr_of_set by (try done; unfold NDIRECT in *; lia).
      destruct (k <? Z.of_nat NDIRECT) eqn:E; bools; destruct (decide (k = fcap f)); [subst; by rewrite decide_True|by rewrite decide_False by lia|lia|].
      by rewrite decide_False by lia. }
    split; cbn [fi fd fcap find].
    + apply set_addr_wf; [apply H|]. sizes. lia.
    + pose proof (fh_len _ _ _ _ H). sizes. lia.
    + sizes. lia.
    + pose proof (fh_ind _ _ _ _ H) as Hd. unfold ip'. rewrite addr_of_set, decide_False by (try done; lia).
      destruct (find f); [by eapply give_kept|]. split; [apply Hd|unfold ND; lia].
    + intros k Hk. rewrite Hb by lia. destruct (decide (k = fcap f)) as [->|Hne]; [apply give_eq|].
      eapply give_kept; [done|]. apply (fh_used _ _ _ _ H). lia.
    + intros k Hk Hk2. rewrite Hb, decide_False by lia. apply (fh_unused _ _ _ _ H); [lia|done].
    + intros k j Hk Hj. rewrite Hb by lia. destruct (decide (k = fcap f)) as [->|Hne]; [|apply (fh_data _ _ _ _ H); lia || done].
      rewrite (ly_free _ _ _ _ HL), zeroes_lookup, past_end by (try apply H; lia). done.
  - intros b j k _ Hb. split; [done|]. rewrite Hb. by eapply give_kept.
  - intros b o Hb. by eapply give_range.
  - intros b Hb. apply (ly_free _ _ _ _ HL). lia.
  - unfold weight. cbn. lia.
  - lia.
Qed.

Lemma rd32_zeroes o : rd32 o zeroes = 0.
Proof.
  unfold rd, peek, zeroes. rewrite drop_replicate, take_replicate. generalize (4 `min` (BSIZE - o))%nat.
  intros n. induction n as [|n IH]; cbn; [done|]. by rewrite IH.
Qed.

(** A new indirect block. *)
Lemma layout_indirect V own fb F i f :
  layout V own fb F → F !! i = Some f → find f = false → fb < FSSIZE →
  layout V (give fb (i, -1) own) (fb + 1) (<[i := mk_fent (set_addr NDIRECT fb (fi f)) (fd f) (fcap f) true]> F).
Proof.
  intros HL Hi Hind Hfb. pose proof (ly_files _ _ _ _ HL i f Hi) as H. pose proof (total_pos _ _ _ _ HL) as Hn.
  pose proof (fh_cap _ _ _ _ H) as Hcap. destruct (fh_wf _ _ _ _ H) as (_ & _ & _ & _ & _ & Hl & _).
  pose proof (fh_ind _ _ _ _ H) as Hd. rewrite Hind in Hd. destruct Hd as [Ha Hc].
  eapply (layout_update V V own _ fb); try done.
  - set (ip' := set_addr _ _ _).
    assert (∀ k, 0 ≤ k → file_block V ip' k = if decide (k < ND) then file_block V (fi f) k else 0) as Hb.
    { intros k Hk. unfold file_block, ip'. rewrite !addr_of_set by (try done; lia). fold ND.
      destruct (k <? ND) eqn:E; bools; [rewrite decide_False by (sizes; lia); by rewrite decide_True|].
      rewrite decide_True by done. rewrite decide_False by lia. rewrite (ly_free _ _ _ _ HL) by lia. apply rd32_zeroes. }
    split; cbn [fi fd fcap find].
    + apply set_addr_wf; [apply H|]. sizes. lia.
    + apply H.
    + done.
    + unfold ip'. rewrite addr_of_set, decide_True by (try done; lia). apply give_eq.
    + intros k Hk. rewrite Hb, decide_True by lia. eapply give_kept; [done|]. by apply (fh_used _ _ _ _ H).
    + intros k Hk Hk2. rewrite Hb by lia. destruct (decide (k < ND)); [|done]. apply (fh_unused _ _ _ _ H); [done|by left].
    + intros k j Hk Hj. rewrite Hb, decide_True by lia. by apply (fh_data _ _ _ _ H).
  - intros b j k _ Hb. split; [done|]. rewrite Hb. by eapply give_kept.
  - intros b o Hb. by eapply give_range.
  - intros b Hb. apply (ly_free _ _ _ _ HL). lia.
  - unfold weight. rewrite Hind. cbn. lia.
  - lia.
Qed.

(** Changes of one block. *)
Definition upd1 (V : Z → list Z) (b : Z) (l : list Z) : Z → list Z := λ x, if decide (x = b) then l else V x.

Lemma upd1_eq V b l : upd1 V b l b = l.
Proof. unfold upd1. by rewrite decide_True. Qed.

Lemma upd1_ne V b l x : x ≠ b → upd1 V b l x = V x.
Proof. intros. unfold upd1. by rewrite decide_False. Qed.

(** Two blocks of files are the same only at the same place. *)
Lemma owner_ne (own : Z → option (nat * Z)) b c x y : own b = Some x → own c = Some y → x ≠ y → b ≠ c.
Proof. congruence. Qed.

Definition slot (k : Z) : nat := 4 * Z.to_nat (k - ND).

(** A new entry of the indirect block. *)
Lemma layout_entry V own fb F i f :
  layout V own fb F → F !! i = Some f → find f = true → ND ≤ fcap f < MAXFILE → fb < FSSIZE →
  length (V (addr_of NDIRECT (fi f))) = BSIZE →
  let ib := addr_of NDIRECT (fi f) in
  layout (upd1 V ib (wr32 (slot (fcap f)) fb (V ib))) (give fb (i, fcap f) own) (fb + 1)
    (<[i := mk_fent (fi f) (fd f) (fcap f + 1) true]> F).
Proof.
  intros HL Hi Hind Hcap Hfb Hlen ib. pose proof (ly_files _ _ _ _ HL i f Hi) as H. pose proof (total_pos _ _ _ _ HL) as Hn.
  pose proof (fh_ind _ _ _ _ H) as Hd. rewrite Hind in Hd. fold ib in Hd, Hlen. set (V' := upd1 _ _ _).
  destruct (ly_own _ _ _ _ HL _ _ Hd) as [Hib1 Hib2].
  assert (∀ k, 0 ≤ k < MAXFILE → file_block V' (fi f) k = if decide (k = fcap f) then fb else file_block V (fi f) k) as Hb.
  { intros k Hk. unfold file_block. fold ND ib (slot k). unfold V'. rewrite upd1_eq. destruct (k <? ND) eqn:E; bools.
    - by rewrite decide_False by lia.
    - unfold slot. destruct (decide (k = fcap f)) as [->|Hne].
      + apply rd_wr; [rewrite Hlen; sizes; lia|sizes; cbn; lia].
      + apply rd_wr_ne. sizes. lia. }
  assert (∀ b, b ≠ ib → V' b = V b) as Hne by (intros b Hbn; by apply upd1_ne).
  eapply (layout_update V V' own _ fb); try done.
  - split; cbn [fi fd fcap find].
    + apply H.
    + pose proof (fh_len _ _ _ _ H). sizes. lia.
    + sizes. lia.
    + by eapply give_kept.
    + intros k Hk. rewrite Hb by lia. destruct (decide (k = fcap f)) as [->|Hk2]; [apply give_eq|].
      eapply give_kept; [done|]. apply (fh_used _ _ _ _ H). lia.
    + intros k Hk _. rewrite Hb, decide_False by (sizes; lia). apply (fh_unused _ _ _ _ H); [lia|by right].
    + intros k j Hk Hj. rewrite Hb by lia. destruct (decide (k = fcap f)) as [->|Hk2].
      * rewrite Hne, (ly_free _ _ _ _ HL), zeroes_lookup, past_end by (try apply H; sizes; lia). done.
      * rewrite Hne; [apply (fh_data _ _ _ _ H); lia || done|].
        eapply owner_ne; [apply (fh_used _ _ _ _ H); lia|exact Hd|]. intros [= ->]. lia.
  - intros b j k Hj Hbo. rewrite Hne by (eapply owner_ne; [done..|congruence]). split; [done|]. rewrite Hbo. by eapply give_kept.
  - intros b o Hbo. by eapply give_range.
  - intros b Hbo. rewrite Hne by lia. apply (ly_free _ _ _ _ HL). lia.
  - unfold weight. rewrite Hind. cbn. lia.
  - lia.
Qed.

Lemma appended_block (c d l : list Z) k j :
  l !! j = Some (default 0 (c !! (Z.to_nat k * BSIZE + j)%nat)) → length l = BSIZE → 0 ≤ k → (j < BSIZE)%nat →
  k * BS ≤ Z.of_nat (length c) → Z.of_nat (length c + length d) ≤ (k + 1) * BS →
  list_inserts (Z.to_nat (Z.of_nat (length c) - k * BS)) d l !! j = Some (default 0 ((c ++ d) !! (Z.to_nat k * BSIZE + j)%nat)).
Proof.
  intros Hl Hlen Hk Hj Hle Hd. set (o := Z.to_nat _). assert (length c = Z.to_nat k * BSIZE + o)%nat as Hc by (sizes; lia).
  destruct (decide (j < o)%nat) as [Hlt|Hge].
  - rewrite list_lookup_inserts_lt by done. by rewrite lookup_app_l by lia.
  - rewrite lookup_app_r by lia. replace (Z.to_nat k * BSIZE + j - length c)%nat with (j - o)%nat by lia.
    destruct (decide (j < o + length d)%nat) as [Hin|Hout].
    + rewrite list_lookup_inserts by lia. destruct (lookup_lt_is_Some_2 d (j - o)) as [y ->]; [lia|done].
    + rewrite list_lookup_inserts_ge, Hl by lia. rewrite !lookup_ge_None_2; [done|lia..].
Qed.

(** New bytes at the end of the file, in a block it has. *)
Lemma layout_write V own fb F i f k d :
  layout V own fb F → F !! i = Some f → 0 ≤ k < fcap f → k * BS ≤ Z.of_nat (length (fd f)) →
  Z.of_nat (length (fd f ++ d)) ≤ (k + 1) * BS → length (V (file_block V (fi f) k)) = BSIZE →
  let x := file_block V (fi f) k in
  layout (upd1 V x (list_inserts (Z.to_nat (Z.of_nat (length (fd f)) - k * BS)) d (V x))) own fb
    (<[i := mk_fent (fi f) (fd f ++ d) (fcap f) (find f)]> F).
Proof.
  intros HL Hi Hk Hle Hd Hlen x. pose proof (ly_files _ _ _ _ HL i f Hi) as H. set (V' := upd1 _ _ _).
  pose proof (fh_used _ _ _ _ H k Hk) as Hx. fold x in Hx, Hlen. destruct (ly_own _ _ _ _ HL _ _ Hx) as [Hx1 Hx2].
  assert (∀ b, b ≠ x → V' b = V b) as Hne by (intros b Hbn; by apply upd1_ne).
  assert (∀ q, q < ND ∨ find f = true → file_block V' (fi f) q = file_block V (fi f) q) as Hb.
  { intros q Hq. apply file_block_ext. intros Hge. apply Hne. pose proof (fh_ind _ _ _ _ H) as Hi2. destruct Hq as [Hq|Hq]; [lia|].
    rewrite Hq in Hi2. eapply owner_ne; [done..|]. intros [= <-]. lia. }
  assert (∀ q, q < fcap f → q < ND ∨ find f = true) as Hc.
  { intros q Hq. pose proof (fh_ind _ _ _ _ H) as Hi2. destruct (find f); [by right|]. left. lia. }
  rewrite length_app in Hd.
  eapply (layout_update V V' own _ fb); try done.
  - split; cbn [fi fd fcap find]; try apply H.
    + rewrite length_app. sizes. nia.
    + intros q Hq. rewrite Hb by (apply Hc; lia). by apply (fh_used _ _ _ _ H).
    + intros q Hq Hq2. rewrite Hb by done. by apply (fh_unused _ _ _ _ H).
    + intros q j Hq Hj. rewrite Hb by (apply Hc; lia). destruct (decide (q = k)) as [->|Hqk].
      * fold x. unfold V'. rewrite upd1_eq. pose proof (fh_data _ _ _ _ H k j Hk Hj) as Hold. fold x in Hold. apply appended_block; lia || done.
      * rewrite Hne. 2: { eapply owner_ne; [by apply (fh_used _ _ _ _ H)|done|]. intros [= ->]. lia. }
        rewrite (fh_data _ _ _ _ H) by done. do 2 f_equal. symmetry. destruct (decide (q < k)); [apply lookup_app_l; sizes; lia|].
        rewrite !lookup_ge_None_2; [done|rewrite ?length_app; sizes; nia..].
  - intros b j q Hj Hbo. split; [|done]. apply Hne. eapply owner_ne; [done..|congruence].
  - intros b o Hbo. by eapply ly_own.
  - intros b Hbo. rewrite Hne by lia. by apply (ly_free _ _ _ _ HL).
  - unfold weight. cbn. lia.
  - apply HL.
Qed.

(** ** Appending *)

Definition mkfs_sb : superblock := mk_sb FSSIZE mk_nblocks NINODES LOGSIZE 2 (2 + LOGSIZE) (2 + LOGSIZE + ninodeblocks).

(** The files [F] are laid out in the image. *)
Record laid (s : mkst) (F : list fent) : Prop := {
  ld_image : image_ok (image s);
  ld_sb : mk_superblock s = mkfs_sb;
  ld_layout : ∃ own, layout (blk (image s)) own (freeblock s) F
}.

(** The blocks before the data blocks and the next inode are the same. *)
Definition same_meta (s s' : mkst) : Prop :=
  (∀ b, 0 ≤ b < nmeta → blk (image s') b = blk (image s) b) ∧ freeinode s' = freeinode s.

Lemma same_meta_trans s1 s2 s3 : same_meta s1 s2 → same_meta s2 s3 → same_meta s1 s3.
Proof. intros [H1 H2] [H3 H4]. split; [|congruence]. intros b Hb. by rewrite H3, H1. Qed.

Lemma layout_ext V V' own fb F : layout V own fb F → (∀ b, nmeta ≤ b < FSSIZE → V' b = V b) → layout V' own fb F.
Proof.
  intros HL HV. pose proof (total_pos _ _ _ _ HL). split; try apply HL.
  - intros i f Hi. eapply fholds_frame; [by eapply ly_files|]. intros b k Hb. split; [|done].
    apply HV. pose proof (ly_own _ _ _ _ HL _ _ Hb). pose proof (ly_max _ _ _ _ HL). lia.
  - intros b Hb. rewrite HV by lia. by apply (ly_free _ _ _ _ HL).
Qed.

Lemma blk_upd1 b l img x : image_ok img → 0 ≤ b < FSSIZE → 0 ≤ x → blk (put b l img) x = upd1 (blk img) b l x.
Proof. intros. by apply blk_put. Qed.

(** One sector of a file written: the layout of [upd1] is that of the new image. *)
Lemma laid_put s own fb F b l :
  image_ok (image s) → mk_superblock s = mkfs_sb → nmeta ≤ b < FSSIZE → length l = BSIZE →
  layout (upd1 (blk (image s)) b l) own fb F →
  laid (set_freeblock fb (set_image (put b l (image s)) s)) F ∧
  same_meta s (set_freeblock fb (set_image (put b l (image s)) s)).
Proof.
  intros Him Hsb Hb Hl HL. assert (0 ≤ nmeta) by done. split; [split|split]; cbn.
  - by apply put_ok.
  - done.
  - exists own. eapply layout_ext; [done|]. intros x Hx. apply blk_upd1; lia || done.
  - intros x Hx. rewrite blk_upd1 by (lia || done). apply upd1_ne. lia.
  - done.
Qed.

Lemma next_block_ok s : 0 ≤ freeblock s < FSSIZE → next_block s = Ret (freeblock s) (set_freeblock (freeblock s + 1) s).
Proof. intros H. unfold next_block, bind, gets, modify, ret. cbn [obind]. unfold u32. rewrite Z.mod_small by (sizes; lia). done. Qed.

(** The inode with other slots. *)
Definition readdressed (ip ip' : inode) : Prop := ip' = set_addrs (addrs ip') ip.

Lemma owned_range V own fb F b o : layout V own fb F → own b = Some o → 59 ≤ b < FSSIZE.
Proof. intros HL Hb. pose proof (ly_own _ _ _ _ HL _ _ Hb). pose proof (ly_max _ _ _ _ HL). sizes. lia. Qed.

(** A slot of the inode: taken already, or the next block. *)
Lemma slot_block_taken k din s : 59 ≤ addr_of k din < FSSIZE → slot_block k din s = Ret din s.
Proof. intros H. unfold slot_block. rewrite xint_id by (sizes; lia). by rewrite (proj2 (Z.eqb_neq _ _)) by lia. Qed.

Lemma slot_block_new k din s : addr_of k din = 0 → 0 ≤ freeblock s < FSSIZE →
  slot_block k din s = Ret (set_addr k (freeblock s) din) (set_freeblock (freeblock s + 1) s).
Proof.
  intros Ha Hfb. unfold slot_block. rewrite Ha. change (xint 0 =? 0) with true. cbv iota.
  rewrite (bind_Ret _ _ _ _ _ (next_block_ok s Hfb)). by rewrite xint_id by (sizes; lia).
Qed.

(** What append_block does to file [i]. *)
Definition block_added (s : mkst) (F : list fent) (i : nat) (f : fent) (k : Z) (o : outcome mkst (inode * Z)) : Prop :=
  ∃ din' s', o = Ret (din', file_block (blk (image s')) din' k) s' ∧ readdressed (fi f) din' ∧ same_meta s s' ∧
    laid s' (<[i := mk_fent din' (fd f) (Z.max (fcap f) (k + 1)) (find f || (ND <=? k))]> F).

Lemma set_freeblock_laid s own F fb :
  image_ok (image s) → mk_superblock s = mkfs_sb → layout (blk (image s)) own fb F →
  laid (set_freeblock fb s) F ∧ same_meta s (set_freeblock fb s).
Proof. intros H1 H2 H3. split; [by split; cbn; [..|by exists own]|done]. Qed.

Lemma append_direct s F i f k :
  laid s F → F !! i = Some f → 0 ≤ k < ND → k ≤ fcap f → (k = fcap f → freeblock s < FSSIZE) →
  block_added s F i f k (append_block k (fi f) s).
Proof.
  intros [Him Hsb [own HL]] Hi Hk Hcap Hfb. pose proof (ly_files _ _ _ _ HL i f Hi) as H. pose proof (total_pos _ _ _ _ HL) as Hn.
  pose proof (fh_wf _ _ _ _ H) as (_ & _ & _ & _ & _ & Hl & _).
  unfold append_block. fold ND. rewrite (proj2 (Z.ltb_lt _ _)) by lia.
  assert (∀ V ip, file_block V ip k = addr_of (Z.to_nat k) ip) as Hb.
  { intros V ip. unfold file_block. fold ND. by rewrite (proj2 (Z.ltb_lt _ _)) by lia. }
  assert (ND <=? k = false) as Ek by (apply Z.leb_gt; lia). unfold block_added. rewrite Ek, orb_false_r.
  destruct (decide (k = fcap f)) as [->|Hne].
  - assert (addr_of (Z.to_nat (fcap f)) (fi f) = 0) as Ha.
    { rewrite <- (Hb (blk (image s))). apply (fh_unused _ _ _ _ H); [sizes; lia|left; lia]. }
    rewrite (bind_Ret _ _ _ _ _ (slot_block_new _ _ s Ha ltac:(sizes; lia))).
    set (s' := set_freeblock (freeblock s + 1) s). exists (set_addr (Z.to_nat (fcap f)) (freeblock s) (fi f)), s'.
    assert (layout (blk (image s)) (give (freeblock s) (i, fcap f) own) (freeblock s + 1) (<[i := mk_fent (set_addr (Z.to_nat (fcap f)) (freeblock s) (fi f)) (fd f) (fcap f + 1) (find f)]> F)) as HL'.
    { apply layout_direct; auto; lia. }
    destruct (set_freeblock_laid s _ _ _ Him Hsb HL') as [H1 H2]. split_and!; [|done|done|by rewrite Z.max_r by lia].
    rewrite Hb, addr_of_set, decide_True by (try done; sizes; lia). rewrite xint_id by (sizes; lia). done.
  - pose proof (fh_used _ _ _ _ H k ltac:(lia)) as Hu. pose proof (owned_range _ _ _ _ _ _ HL Hu) as Hr. rewrite Hb in Hr.
    rewrite (bind_Ret _ _ _ _ _ (slot_block_taken _ _ s Hr)). exists (fi f), s. split_and!; [|by destruct (fi f)|done|].
    + rewrite Hb, xint_id by (sizes; lia). done.
    + rewrite Z.max_l by lia. destruct f as [ip d c b]. cbn [fi fd fcap find]. rewrite list_insert_id by done. by split; [..|exists own].
Qed.

Lemma slot_indirect s F i f :
  laid s F → F !! i = Some f → (find f = false → freeblock s < FSSIZE) →
  ∃ din' s', slot_block NDIRECT (fi f) s = Ret din' s' ∧ readdressed (fi f) din' ∧ same_meta s s' ∧
    laid s' (<[i := mk_fent din' (fd f) (fcap f) true]> F) ∧ freeblock s' = freeblock s + (if find f then 0 else 1).
Proof.
  intros [Him Hsb [own HL]] Hi Hfb. pose proof (ly_files _ _ _ _ HL i f Hi) as H. pose proof (total_pos _ _ _ _ HL) as Hn.
  pose proof (fh_ind _ _ _ _ H) as Hd. destruct (find f) eqn:Ef.
  - pose proof (owned_range _ _ _ _ _ _ HL Hd) as Hr. exists (fi f), s. rewrite slot_block_taken by done.
    split_and!; [done|by destruct (fi f)|done| |lia]. destruct f as [ip d c b]. cbn [fi fd fcap find] in *. subst b.
    rewrite list_insert_id by done. by split; [..|exists own].
  - destruct Hd as [Ha Hc]. rewrite slot_block_new by (try done; sizes; lia). eexists _, _. split; [done|].
    destruct (set_freeblock_laid s _ _ _ Him Hsb (layout_indirect _ _ _ _ i f HL Hi Ef ltac:(lia))) as [H1 H2]. done.
Qed.

(** The entry in the indirect block. *)
Lemma entry_block s F i f k :
  laid s F → F !! i = Some f → find f = true → ND ≤ k < MAXFILE → k ≤ fcap f → (k = fcap f → freeblock s < FSSIZE) →
  let ib := xint (addr_of NDIRECT (fi f)) in
  block_added s F i f k
    ((indirect <- rsect ib;;
      if rd32 (slot k) indirect =? 0 then
        b <- next_block;;
        let indirect := wr32 (slot k) (xint b) indirect in
        wsect ib indirect;;
        ret (fi f, xint (rd32 (slot k) indirect))
      else ret (fi f, xint (rd32 (slot k) indirect))) s).
Proof.
  intros [Him Hsb [own HL]] Hi Hind Hk Hcap Hfb ib. pose proof (ly_files _ _ _ _ HL i f Hi) as H. pose proof (total_pos _ _ _ _ HL) as Hn.
  pose proof (fh_ind _ _ _ _ H) as Hd. rewrite Hind in Hd. pose proof (owned_range _ _ _ _ _ _ HL Hd) as Hib.
  assert (ib = addr_of NDIRECT (fi f)) as Eib by (apply xint_id; sizes; lia). rewrite <- Eib in Hd, Hib.
  assert (∀ V, file_block V (fi f) k = rd32 (slot k) (V ib)) as Hb.
  { intros V. unfold file_block. fold ND. rewrite (proj2 (Z.ltb_ge _ _)) by lia. by rewrite Eib. }
  rewrite (bind_Ret _ _ _ _ _ (rsect_ok ib s Him ltac:(lia))). unfold block_added. rewrite Hind. cbn [orb].
  rewrite <- (Hb (blk (image s))). destruct (decide (k = fcap f)) as [->|Hne].
  - rewrite (fh_unused _ _ _ _ H) by (lia || by right). change (0 =? 0) with true. cbv iota.
    rewrite (bind_Ret _ _ _ _ _ (next_block_ok s ltac:(sizes; lia))). cbv zeta. rewrite !(xint_id (freeblock s)) by (sizes; lia).
    pose proof (blk_length _ ib Him ltac:(lia)) as Hlen. set (s1 := set_freeblock _ s). rewrite (bind_Ret _ _ _ _ _ (wsect_ok ib _ s1 Him ltac:(lia))).
    change (image s1) with (image s). set (l := wr32 (slot (fcap f)) (freeblock s) (blk (image s) ib)).
    assert (rd32 (slot (fcap f)) l = freeblock s) as El.
    { apply rd_wr; [rewrite Hlen; unfold slot; sizes; lia|sizes; cbn; lia]. }
    rewrite El, xint_id by (sizes; lia). exists (fi f), (set_image (put ib l (image s)) s1).
    assert (length l = BSIZE) as Hll by (by unfold l; rewrite length_wr).
    rewrite Eib in Hlen. pose proof (layout_entry _ _ _ _ i f HL Hi Hind ltac:(lia) ltac:(lia) Hlen) as HL'. cbv zeta in HL'. rewrite <- Eib in HL'. fold l in HL'.
    destruct (laid_put s _ _ _ ib l Him Hsb ltac:(sizes; lia) Hll HL') as [H1 H2].
    split_and!; [|by destruct (fi f)|done|by rewrite Z.max_r by lia].
    rewrite Hb. cbn [image set_image]. rewrite blk_upd1, upd1_eq by (lia || done). by rewrite El.
  - pose proof (fh_used _ _ _ _ H k ltac:(sizes; lia)) as Hu. pose proof (owned_range _ _ _ _ _ _ HL Hu) as Hr.
    rewrite (proj2 (Z.eqb_neq _ _)) by lia. rewrite xint_id by (sizes; lia). exists (fi f), s. split_and!; [done|by destruct (fi f)|done|].
    rewrite Z.max_l by lia. destruct f as [ip d c b]. cbn [fi fd fcap find] in *. subst b. rewrite list_insert_id by done. by split; [..|exists own].
Qed.

Lemma readdressed_trans a b c : readdressed a b → readdressed b c → readdressed a c.
Proof. unfold readdressed. intros -> ->. by destruct a. Qed.

(** append_block gives the file block [k]. *)
Lemma append_block_ok s F i f k :
  laid s F → F !! i = Some f → 0 ≤ k < MAXFILE → k ≤ fcap f →
  freeblock s + (if decide (k = fcap f) then 1 else 0) + (if decide (ND ≤ k ∧ find f = false) then 1 else 0) ≤ FSSIZE →
  block_added s F i f k (append_block k (fi f) s).
Proof.
  intros HL Hi Hk Hcap Hfb. destruct (decide (k < ND)) as [Hlt|Hge].
  - apply append_direct; [done|done|lia|done|]. intros ->. rewrite decide_True in Hfb by done. destruct (decide (_ ∧ _)); lia.
  - unfold append_block. fold ND. rewrite (proj2 (Z.ltb_ge _ _)) by lia.
    destruct (slot_indirect s F i f HL Hi) as (din1 & s1 & E1 & Hr1 & Hs1 & HL1 & Hfb1).
    { intros Ef. rewrite (decide_True (P := ND ≤ k ∧ _)) in Hfb by (split; [lia|done]). destruct (decide (k = fcap f)); lia. }
    rewrite (bind_Ret _ _ _ _ _ E1). set (f1 := mk_fent din1 (fd f) (fcap f) true) in *.
    assert (i < length F)%nat as Hil by (by eapply lookup_lt_Some).
    destruct (entry_block s1 _ i f1 k HL1) as (din2 & s2 & E2 & Hr2 & Hs2 & HL2); try done; [by apply list_lookup_insert_eq|lia| |].
    { cbn. intros ->. rewrite decide_True in Hfb by done. rewrite Hfb1. destruct (decide (ND ≤ fcap f ∧ find f = false)) as [|Hn]; [destruct (find f); lia|].
      destruct (find f); [lia|]. destruct Hn. split; [lia|done]. }
    exists din2, s2. split_and!; [exact E2|by eapply readdressed_trans|by eapply same_meta_trans|].
    rewrite list_insert_insert_eq in HL2. rewrite (proj2 (Z.leb_le ND k)), orb_true_r by lia. exact HL2.
Qed.

(** The blocks for [n] bytes. *)
Definition data_blocks (n : Z) : Z := (n + (BS - 1)) / BS.
Definition all_blocks (n : Z) : Z := data_blocks n + (if ND <? data_blocks n then 1 else 0).

(** Between two appends a file has the blocks it needs. *)
Definition at_rest (f : fent) : Prop :=
  fcap f = data_blocks (Z.of_nat (length (fd f))) ∧ find f = (ND <? fcap f).

Definition rest_of (ip : inode) (c : list Z) : fent :=
  mk_fent ip c (data_blocks (Z.of_nat (length c))) (ND <? data_blocks (Z.of_nat (length c))).

Lemma at_rest_eq f : at_rest f → f = rest_of (fi f) (fd f).
Proof. intros [H1 H2]. unfold rest_of. rewrite <- H1, <- H2. by destruct f. Qed.

Lemma weight_rest ip c : weight (rest_of ip c) = all_blocks (Z.of_nat (length c)).
Proof. done. Qed.

Lemma all_blocks_mono a b : a ≤ b → all_blocks a ≤ all_blocks b.
Proof.
  intros H. unfold all_blocks. assert (data_blocks a ≤ data_blocks b) by (apply Z.div_le_mono; sizes; lia).
  destruct (ND <? data_blocks a) eqn:E1, (ND <? data_blocks b) eqn:E2; bools; lia.
Qed.

Lemma laid_fb s F : laid s F → freeblock s = nmeta + total F ∧ freeblock s ≤ FSSIZE ∧ nmeta ≤ freeblock s.
Proof. intros [_ _ [own HL]]. split_and!; [apply HL|apply HL|by eapply total_pos]. Qed.

(** The chunk that goes to the block of the end of the file. *)
Lemma chunk_blocks len n :
  0 ≤ len → 0 < n → let k := len / BS in n ≤ (k + 1) * BS - len → data_blocks (len + n) = k + 1 ∧ data_blocks len ≤ k + 1 ∧ k ≤ data_blocks len.
Proof. intros H1 H2 k H3. unfold data_blocks, k in *. sizes. Z.div_mod_to_equations. lia. Qed.

Lemma chunk_room t q k :
  q ≤ k + 1 → k ≤ q → t - (q + (if ND <? q then 1 else 0)) + (k + 1 + (if ND <? k + 1 then 1 else 0)) ≤ FSSIZE →
  t + (if decide (k = q) then 1 else 0) + (if decide (ND ≤ k ∧ (ND <? q) = false) then 1 else 0) ≤ FSSIZE.
Proof.
  intros H1 H2 H3. destruct (ND <? q) eqn:E1, (ND <? k + 1) eqn:E2; bools; destruct (decide (k = q)), (decide (_ ∧ _)) as [[? ?]|]; try done; lia.
Qed.

Lemma append_chunk s F i ip c d :
  let len := Z.of_nat (length c) in let k := len / BS in
  laid s F → F !! i = Some (rest_of ip c) → d ≠ [] → Z.of_nat (length d) ≤ (k + 1) * BS - len → k < MAXFILE →
  nmeta + total F - all_blocks len + all_blocks (Z.of_nat (length (c ++ d))) ≤ FSSIZE →
  ∃ din' s1 s2 x, append_block k ip s = Ret (din', x) s1 ∧ rsect x s1 = Ret (blk (image s1) x) s1 ∧
    wsect x (list_inserts (Z.to_nat (len - k * BS)) d (blk (image s1) x)) s1 = Ret tt s2 ∧
    readdressed ip din' ∧ same_meta s s2 ∧ laid s2 (<[i := rest_of din' (c ++ d)]> F).
Proof.
  intros len k HL Hi Hd Hn Hk Hfit. assert (0 < length d)%nat by (destruct d; cbn; [done|lia]). rewrite length_app in Hfit.
  destruct (chunk_blocks len (Z.of_nat (length d))) as (B1 & B2 & B3); [lia|lia|done|]. fold k in B1, B2, B3.
  destruct (laid_fb s F HL) as (Efb & _). assert (0 ≤ k) by (apply Z.div_pos; sizes; lia).
  set (f := rest_of ip c) in *. assert (fcap f = data_blocks len) as Ecap by done. assert (find f = (ND <? data_blocks len)) as Ef by done.
  rewrite Nat2Z.inj_add in Hfit. fold len in Hfit. unfold all_blocks in Hfit. rewrite B1 in Hfit.
  assert (Z.max (fcap f) (k + 1) = k + 1) as Emax by (rewrite Ecap; lia).
  assert (find f || (ND <=? k) = (ND <? k + 1)) as Efind.
  { rewrite Ef. destruct (ND <? data_blocks len) eqn:E1, (ND <=? k) eqn:E2, (ND <? k + 1) eqn:E3; bools; try done; lia. }
  destruct (append_block_ok s F i f k HL Hi) as (din' & s1 & E1 & Hr & Hs1 & HL1); [lia|lia| |].
  { rewrite Efb, Ecap, Ef. by apply chunk_room. }
  rewrite Emax, Efind in HL1. set (f1 := mk_fent din' (fd f) (k + 1) (ND <? k + 1)) in *. set (F1 := <[i := f1]> F) in *.
  assert (F1 !! i = Some f1) as Hi1 by (apply list_lookup_insert_eq; by eapply lookup_lt_Some).
  destruct HL1 as [Him1 Hsb1 [own1 HL1]]. pose proof (ly_files _ _ _ _ HL1 i f1 Hi1) as H1.
  set (x := file_block (blk (image s1)) din' k) in *. pose proof (fh_used _ _ _ _ H1 k ltac:(cbn; lia)) as Hx.
  pose proof (owned_range _ _ _ _ _ _ HL1 Hx) as Hxr. change (file_block (blk (image s1)) (fi f1) k) with x in Hxr.
  pose proof (blk_length _ x Him1 ltac:(lia)) as Hlen.
  pose proof (layout_write _ _ _ _ i f1 k d HL1 Hi1 ltac:(cbn; lia)) as HL2. cbn [fi fd fcap find f1 f rest_of] in HL2. fold x len in HL2.
  set (l := list_inserts _ d _) in *.
  destruct (laid_put s1 own1 (freeblock s1) (<[i := rest_of din' (c ++ d)]> F1) x l Him1 Hsb1) as [H2 H3].
  { sizes. lia. }
  { unfold l. by rewrite length_inserts. }
  { unfold rest_of. rewrite length_app, Nat2Z.inj_add. fold len. rewrite B1. apply HL2; [unfold k; sizes; Z.div_mod_to_equations; lia| |done].
    rewrite length_app. lia. }
  exists din', s1, (set_image (put x l (image s1)) s1), x. split_and!; [done|by apply rsect_ok; [|lia]|by apply wsect_ok; [|lia]|done| |].
  - eapply same_meta_trans; [done|]. by destruct s1.
  - unfold F1 in H2. rewrite list_insert_insert_eq in H2. by destruct s1.
Qed.

Lemma iappend_loop_ok fuel : ∀ p s F i ip c,
  laid s F → F !! i = Some (rest_of ip c) → (length p < fuel)%nat →
  Z.of_nat (length (c ++ p)) ≤ MAXFILE * BS →
  nmeta + total F - all_blocks (Z.of_nat (length c)) + all_blocks (Z.of_nat (length (c ++ p))) ≤ FSSIZE →
  ∃ din' s', iappend_loop fuel ip (Z.of_nat (length c)) p s = Ret (din', Z.of_nat (length (c ++ p))) s' ∧
    readdressed ip din' ∧ same_meta s s' ∧ laid s' (<[i := rest_of din' (c ++ p)]> F).
Proof.
  induction fuel as [|fuel IH]; intros p s F i ip c HL Hi Hf Hmax Hfit; [lia|]. cbn [iappend_loop]. destruct p as [|y p].
  { rewrite app_nil_r. exists ip, s. rewrite list_insert_id by done. split_and!; try done. by destruct ip. }
  set (d := y :: p) in *. fold BS. set (len := Z.of_nat (length c)) in *. set (k := len / BS).
  assert (0 < length d)%nat by (cbn; lia). rewrite length_app in Hmax.
  assert (0 ≤ k ∧ k * BS ≤ len < (k + 1) * BS) as [Hk0 Hk] by (unfold k; sizes; Z.div_mod_to_equations; lia).
  assert (k < MAXFILE) as Hk2 by (sizes; lia). rewrite (proj2 (Z.ltb_lt _ _)) by done. cbn [host_assert negb].
  set (n1 := Z.to_nat (Z.min (Z.of_nat (length d)) ((k + 1) * BS - len))). assert (0 < n1 ≤ length d)%nat as Hn1 by lia.
  assert (length (take n1 d) = n1) as Etake by (rewrite length_take; lia).
  assert (c ++ d = (c ++ take n1 d) ++ drop n1 d) as Ecd by (by rewrite <- app_assoc, take_drop).
  destruct (append_chunk s F i ip c (take n1 d) HL Hi) as (din1 & s1 & s2 & x & E1 & E2 & E3 & Hr & Hs & HL2); fold len k.
  - intros En. rewrite En in Etake. cbn in Etake. lia.
  - lia.
  - done.
  - eapply Z.le_trans; [|exact Hfit]. apply Z.add_le_mono_l, all_blocks_mono. rewrite !length_app. lia.
  - unfold host_assert. cbn [negb]. change (bind (ret ()) ?k ?s) with (k () s). cbv beta.
    rewrite (bind_Ret _ _ _ _ _ E1), (bind_Ret _ _ _ _ _ E2), (bind_Ret _ _ _ _ _ E3).
    assert (u32 (len + Z.of_nat n1) = Z.of_nat (length (c ++ take n1 d))) as ->.
    { rewrite length_app, Etake. unfold u32. rewrite Z.mod_small; sizes; lia. }
    destruct (IH (drop n1 d) s2 (<[i := rest_of din1 (c ++ take n1 d)]> F) i din1 (c ++ take n1 d)) as (din2 & s3 & E4 & Hr2 & Hs2 & HL3); try done.
    + apply list_lookup_insert_eq. by eapply lookup_lt_Some.
    + rewrite length_drop. lia.
    + rewrite <- Ecd, length_app. done.
    + rewrite <- Ecd. erewrite total_insert by done. rewrite !weight_rest. fold len. lia.
    + exists din2, s3. rewrite <- Ecd in E4, HL3. rewrite list_insert_insert_eq in HL3.
      split_and!; [done|by eapply readdressed_trans|by eapply same_meta_trans|done].
Qed.

(** ** Inodes *)

(** The inode of file [i], inode number [i + 1], as the image has it. *)
Definition slot_inode (img : list (list Z)) (i : nat) : inode :=
  let n := Z.of_nat i + 1 in read_dinode (dinode_at n) (blk img (IBLOCK n mkfs_sb)) inode0.

Definition NFILES : nat := 199.

Lemma iblock_range i : (i < NFILES)%nat → 32 ≤ IBLOCK (Z.of_nat i + 1) mkfs_sb < 57 ∧ (dinode_at (Z.of_nat i + 1) + DINODE_SIZE ≤ BSIZE)%nat.
Proof.
  intros Hi. unfold IBLOCK, NFILES, dinode_at, DINODE_SIZE in *. change (inodestart mkfs_sb) with 32. unfold u32, IPB. sizes.
  rewrite (Z.mod_small (_ + 32)); Z.div_mod_to_equations; lia.
Qed.

(** Inodes are in different places. *)
Lemma inode_apart i j : (i < NFILES)%nat → (j < NFILES)%nat → i ≠ j →
  IBLOCK (Z.of_nat i + 1) mkfs_sb = IBLOCK (Z.of_nat j + 1) mkfs_sb →
  (dinode_at (Z.of_nat j + 1) + DINODE_SIZE ≤ dinode_at (Z.of_nat i + 1) ∨ dinode_at (Z.of_nat i + 1) + DINODE_SIZE ≤ dinode_at (Z.of_nat j + 1))%nat.
Proof.
  intros Hi Hj Hne. unfold IBLOCK, NFILES, dinode_at, DINODE_SIZE in *. change (inodestart mkfs_sb) with 32. unfold u32, IPB. sizes.
  rewrite !(Z.mod_small (_ + 32)) by (Z.div_mod_to_equations; lia). intros E. Z.div_mod_to_equations. lia.
Qed.

Lemma rinode_ok s F i : laid s F → (i < NFILES)%nat → rinode (Z.of_nat i + 1) s = Ret (slot_inode (image s) i) s.
Proof.
  intros HL Hi. unfold rinode. unfold bind at 1, gets at 1. cbn [obind]. rewrite (ld_sb _ _ HL). destruct (iblock_range i Hi).
  rewrite (bind_Ret _ _ _ _ _ (rsect_ok (IBLOCK (Z.of_nat i + 1) mkfs_sb) s (ld_image _ _ HL) ltac:(sizes; lia))). done.
Qed.

Lemma winode_ok s F i ip : laid s F → (i < NFILES)%nat → inode_wf ip →
  idev ip = 0 → inum ip = 0 → iref ip = 0 → iflags ip = 0 →
  ∃ s', winode (Z.of_nat i + 1) ip s = Ret tt s' ∧ laid s' F ∧ freeinode s' = freeinode s ∧
    slot_inode (image s') i = ip ∧ (∀ j, (j < NFILES)%nat → j ≠ i → slot_inode (image s') j = slot_inode (image s) j) ∧
    blk (image s') 1 = blk (image s) 1.
Proof.
  intros [Him Hsb [own HL]] Hi Hwf I1 I2 I3 I4. unfold winode. unfold bind at 1, gets at 1. cbn [obind]. rewrite Hsb.
  destruct (iblock_range i Hi) as [Hr1 Hr2]. set (bn := IBLOCK _ _) in *.
  rewrite (bind_Ret _ _ _ _ _ (rsect_ok bn s Him ltac:(sizes; lia))), wsect_ok by (done || (sizes; lia)).
  pose proof (blk_length _ bn Him ltac:(sizes; lia)) as Hlen. set (l := write_dinode _ _ _). eexists. split; [done|].
  assert (∀ x, 0 ≤ x → blk (put bn l (image s)) x = upd1 (blk (image s)) bn l x) as Hb by (intros; apply blk_upd1; try done; sizes; lia).
  split_and!; cbn [image set_image freeinode].
  - split; cbn [image set_image mk_superblock freeblock]; [|done|].
    + apply put_ok; [done|]. unfold l. by rewrite length_write_dinode.
    + exists own. eapply layout_ext; [done|]. intros x Hx. rewrite Hb by (sizes; lia). apply upd1_ne. sizes. lia.
  - done.
  - unfold slot_inode. fold bn. rewrite Hb, upd1_eq by lia. unfold l. rewrite read_write_dinode by (done || lia). destruct ip; cbn in *. by subst.
  - intros j Hj Hne. unfold slot_inode. destruct (iblock_range j Hj). rewrite Hb by lia.
    destruct (decide (IBLOCK (Z.of_nat j + 1) mkfs_sb = bn)) as [E|E]; [|by rewrite upd1_ne].
    rewrite E, upd1_eq. unfold l. apply read_write_dinode_ne; [apply Hwf|]. by apply inode_apart.
  - rewrite Hb by lia. apply upd1_ne. lia.
Qed.

(** ** The files so far *)

(** Inode number [i + 1] has the type and the bytes of [T !! i]. *)
Definition files_of (img : list (list Z)) (T : list (Z * list Z)) : list fent :=
  imap (λ i tc, rest_of (slot_inode img i) tc.2) T.

Definition sb_block : list Z := list_inserts 0 (sb_bytes mkfs_sb) zeroes.

Record made (s : mkst) (T : list (Z * list Z)) : Prop := {
  md_laid : laid s (files_of (image s) T);
  md_next : freeinode s = Z.of_nat (length T) + 1;
  md_len : (length T ≤ NFILES)%nat;
  md_ino i t c : T !! i = Some (t, c) →
    let ip := slot_inode (image s) i in itype ip = t ∧ nlink ip = 1 ∧ isize ip = Z.of_nat (length c);
  md_sb : blk (image s) 1 = sb_block
}.

Definition need (T : list (Z * list Z)) : Z := foldr (λ tc a, all_blocks (Z.of_nat (length tc.2)) + a) 0 T.

Lemma total_files img T : total (files_of img T) = need T.
Proof.
  unfold files_of. generalize (slot_inode img). induction T as [|tc T IH]; intros g; [done|].
  cbn [imap total need foldr]. fold (total (imap ((λ i tc, rest_of (g i) tc.2) ∘ S) T)) (need T).
  rewrite weight_rest. f_equal. apply (IH (g ∘ S)).
Qed.

Lemma files_of_lookup img T i t c : T !! i = Some (t, c) → files_of img T !! i = Some (rest_of (slot_inode img i) c).
Proof. intros Hi. unfold files_of. by rewrite list_lookup_imap, Hi. Qed.

Lemma length_files_of img T : length (files_of img T) = length T.
Proof. apply length_imap. Qed.

Lemma files_of_insert img img' T i t c :
  (i < length T)%nat → (∀ j, (j < length T)%nat → j ≠ i → slot_inode img' j = slot_inode img j) →
  files_of img' (<[i := (t, c)]> T) = <[i := rest_of (slot_inode img' i) c]> (files_of img T).
Proof.
  intros Hi Hs. apply list_eq. intros j. unfold files_of. rewrite list_lookup_imap. destruct (decide (j = i)) as [->|Hne].
  - rewrite !list_lookup_insert_eq by (rewrite ?length_imap; done). done.
  - rewrite !list_lookup_insert_ne, list_lookup_imap by done. destruct (T !! j) as [tc|] eqn:E; [|done]. cbn.
    rewrite Hs; [done|by eapply lookup_lt_Some|done].
Qed.

Lemma need_insert T i t c c' : T !! i = Some (t, c) →
  need (<[i := (t, c')]> T) = need T - all_blocks (Z.of_nat (length c)) + all_blocks (Z.of_nat (length c')).
Proof.
  revert i. induction T as [|tc T IH]; intros [|i] Hi; try done.
  - cbn in *. injection Hi as ->. cbn. lia.
  - change (need (<[S i := (t, c')]> (tc :: T))) with (all_blocks (Z.of_nat (length tc.2)) + need (<[i := (t, c')]> T)).
    rewrite (IH i Hi). cbn. fold (need T). lia.
Qed.

(** The size in the inode does not matter to the layout. *)
Lemma laid_resize s F i ip ip' c :
  laid s F → F !! i = Some (rest_of ip c) → addrs ip' = addrs ip → inode_wf ip' → laid s (<[i := rest_of ip' c]> F).
Proof.
  intros [Him Hsb [own HL]] Hi Ha Hwf. split; [done..|]. exists own. pose proof (ly_files _ _ _ _ HL i _ Hi) as H.
  assert (∀ k, addr_of k ip' = addr_of k ip) as Had by (intros; unfold addr_of; by rewrite Ha).
  assert (∀ V k, file_block V ip' k = file_block V ip k) as Hb by (intros; unfold file_block; by rewrite !Had).
  apply (layout_update (blk (image s)) (blk (image s)) own own (freeblock s) (freeblock s) F i (rest_of ip c)); try done.
  - destruct H as [_ H2 H3 H4 H5 H6 H7]. cbn [rest_of fi fd fcap find] in *. split; cbn [rest_of fi fd fcap find]; try done; [by rewrite Had|..];
      setoid_rewrite Hb; done.
  - apply (ly_own _ _ _ _ HL).
  - apply (ly_free _ _ _ _ HL).
  - rewrite !weight_rest. lia.
  - apply (ly_max _ _ _ _ HL).
Qed.

Lemma same_meta_slots s s' i : same_meta s s' → (i < NFILES)%nat → slot_inode (image s') i = slot_inode (image s) i.
Proof. intros [H _] Hi. unfold slot_inode. destruct (iblock_range i Hi). by rewrite H by (sizes; lia). Qed.

Lemma iappend_ok s T i t c p :
  made s T → T !! i = Some (t, c) → Z.of_nat (length (c ++ p)) ≤ MAXFILE * BS →
  nmeta + need (<[i := (t, c ++ p)]> T) ≤ FSSIZE →
  ∃ s', iappend (Z.of_nat i + 1) p s = Ret tt s' ∧ made s' (<[i := (t, c ++ p)]> T).
Proof.
  intros HM Hi Hmax Hfit. pose proof (lookup_lt_Some _ _ _ Hi) as Hlt. pose proof (md_len _ _ HM) as Hlen.
  assert (i < NFILES)%nat as Hin by lia. destruct (md_ino _ _ HM _ _ _ Hi) as (Ht & Hn & Hsz). pose proof (md_laid _ _ HM) as HL.
  unfold iappend. rewrite (bind_Ret _ _ _ _ _ (rinode_ok s _ i HL Hin)). set (ip := slot_inode (image s) i) in *.
  rewrite Hsz, xint_id by (rewrite length_app in Hmax; sizes; lia).
  pose proof (files_of_lookup (image s) T i t c Hi) as HFi. fold ip in HFi.
  destruct (iappend_loop_ok (S (length p)) p s _ i ip c HL HFi) as (din & s1 & E1 & Hr & Hs1 & HL1); [lia|done| |].
  { rewrite total_files. rewrite (need_insert T i t c) in Hfit by done. lia. }
  rewrite (bind_Ret _ _ _ _ _ E1). clear E1. set (n := Z.of_nat (length (c ++ p))) in *.
  rewrite xint_id by (sizes; lia). set (F1 := <[i := rest_of din (c ++ p)]> (files_of (image s) T)) in *.
  assert (F1 !! i = Some (rest_of din (c ++ p))) as Hi1 by (apply list_lookup_insert_eq; by rewrite length_files_of).
  assert (inode_wf (set_isize n din)) as Hwf.
  { destruct HL1 as [_ _ [own HL1]]. destruct (fh_wf _ _ _ _ (ly_files _ _ _ _ HL1 i _ Hi1)) as (W1 & W2 & W3 & W4 & W5 & W6 & W7).
    unfold inode_wf. cbn in *. split_and!; try lia; try done. unfold MAXFILE, NINDIRECT in Hmax. sizes. lia. }
  pose proof (laid_resize s1 F1 i din (set_isize n din) (c ++ p) HL1 Hi1 eq_refl Hwf) as HL2.
  unfold readdressed in Hr.
  destruct (winode_ok s1 _ i (set_isize n din) HL2 Hin Hwf) as (s2 & E2 & HL3 & Hfi & Hslot & Hoth & Hb1); [by rewrite Hr..|].
  exists s2. split; [exact E2|].
  assert (∀ j, (j < length T)%nat → j ≠ i → slot_inode (image s2) j = slot_inode (image s) j) as Hslots.
  { intros j Hj Hne. rewrite Hoth by lia. apply same_meta_slots; [done|lia]. }
  split.
  - rewrite (files_of_insert (image s)) by done. rewrite Hslot. unfold F1 in HL3. by rewrite list_insert_insert_eq in HL3.
  - rewrite length_insert, Hfi. destruct Hs1 as [_ ->]. apply HM.
  - by rewrite length_insert.
  - intros j t' c' Hj. destruct (decide (j = i)) as [->|Hne].
    + rewrite list_lookup_insert_eq in Hj by done. injection Hj as <- <-. cbn zeta. rewrite Hslot, Hr. done.
    + rewrite list_lookup_insert_ne in Hj by done. cbn zeta. rewrite Hslots by (try done; by eapply lookup_lt_Some). by apply HM.
  - rewrite Hb1. destruct Hs1 as [-> _]; [apply HM|sizes; lia].
Qed.

Definition new_inode (t : Z) : inode := mk_inode 0 0 0 0 t 0 0 1 0 (replicate (S NDIRECT) 0).

Lemma new_inode_wf t : 0 ≤ t < 4 → inode_wf (new_inode t).
Proof. intros Ht. unfold inode_wf, new_inode. cbn. split_and!; try (sizes; lia). repeat constructor; sizes; lia. Qed.

Lemma new_inode_addr t k : addr_of k (new_inode t) = 0.
Proof. unfold addr_of, new_inode. cbn [addrs]. destruct (replicate _ _ !! k) eqn:E; [|done]. by apply lookup_replicate in E as [-> _]. Qed.

Lemma laid_new s F t : laid s F → 0 ≤ t < 4 → laid s (F ++ [rest_of (new_inode t) []]).
Proof.
  intros [Him Hsb [own HL]] Ht. split; [done..|]. exists own. split; try apply HL.
  - intros i f Hi. apply lookup_app_Some in Hi as [Hi|[_ Hi]]; [by apply (ly_files _ _ _ _ HL)|].
    apply list_lookup_singleton_Some in Hi as [_ <-]. split; cbn.
    + by apply new_inode_wf.
    + done.
    + change (data_blocks (Z.of_nat 0)) with 0. sizes. lia.
    + split; done.
    + change (data_blocks (Z.of_nat 0)) with 0. lia.
    + intros k Hk [Hk2|?]; [|done]. unfold file_block. fold ND. rewrite (proj2 (Z.ltb_lt _ _)) by done. apply new_inode_addr.
    + change (data_blocks (Z.of_nat 0)) with 0. lia.
  - rewrite (ly_fb _ _ _ _ HL). unfold total. rewrite foldr_app. done.
Qed.

Lemma laid_next s F v : laid s F → laid (set_freeinode v s) F.
Proof. intros [H1 H2 H3]. by split. Qed.

Lemma mkfs_ialloc_ok s T t :
  made s T → (length T < NFILES)%nat → t = T_DIR ∨ t = T_FILE →
  ∃ s', mkfs_ialloc t s = Ret (Z.of_nat (length T) + 1) s' ∧ made s' (T ++ [(t, [])]).
Proof.
  intros HM Hlen Ht. unfold mkfs_ialloc. unfold bind at 1, gets at 1. cbn [obind]. unfold bind at 1, modify at 1. cbn [obind].
  rewrite (md_next _ _ HM). set (s1 := set_freeinode _ s).
  assert (mk_inode 0 0 0 0 (s16 (xshort t)) 0 0 (s16 (xshort 1)) (xint 0) (replicate (S NDIRECT) 0) = new_inode t ∧ 0 ≤ t < 4) as [-> Hr]
    by (destruct Ht as [->| ->]; done).
  destruct (winode_ok s1 _ (length T) (new_inode t) (laid_next _ _ _ (md_laid _ _ HM)) Hlen (new_inode_wf t Hr)) as (s2 & E2 & HL2 & Hfi & Hslot & Hoth & Hb1); try done.
  rewrite (bind_Ret _ _ _ _ _ E2). exists s2. split; [done|].
  assert (∀ j, (j < length T)%nat → slot_inode (image s2) j = slot_inode (image s) j) as Hs by (intros; apply Hoth; lia).
  assert (files_of (image s2) (T ++ [(t, [])]) = files_of (image s) T ++ [rest_of (new_inode t) []]) as EF.
  { unfold files_of. rewrite imap_app. f_equal.
    - apply imap_ext. intros j tc Hj. by rewrite Hs by (by eapply lookup_lt_Some).
    - cbn. rewrite Nat.add_0_r. by rewrite Hslot. }
  split.
  - rewrite EF. by apply laid_new.
  - rewrite Hfi, length_app. cbn. unfold u32. rewrite Z.mod_small; [lia|]. unfold NFILES, W32 in *. lia.
  - rewrite length_app. cbn. lia.
  - intros j t' c' Hj. apply lookup_app_Some in Hj as [Hj|[Hge Hj]]; cbn zeta.
    + rewrite Hs by (by eapply lookup_lt_Some). by apply HM.
    + apply list_lookup_singleton_Some in Hj as [Hj0 [= <- <-]]. replace j with (length T) by lia. by rewrite Hslot.
  - rewrite Hb1. apply HM.
Qed.

(** ** The empty image *)

Lemma zero_image_ok n : ∀ i s, image s = replicate i zeroes → (i + n ≤ Z.to_nat FSSIZE)%nat →
  zero_image (Z.of_nat i) n s = Ret tt (set_image (replicate (i + n) zeroes) s).
Proof.
  induction n as [|n IH]; intros i s Him Hle; cbn [zero_image].
  - rewrite Nat.add_0_r, <- Him. by destruct s.
  - unfold bind, wsect, modify. cbn [obind]. rewrite sector_id by (sizes; lia). unfold write_block. rewrite Nat2Z.id, Him, length_replicate, Nat.ltb_irrefl, Nat.sub_diag.
    cbn [replicate app]. replace (Z.of_nat i + 1) with (Z.of_nat (S i)) by lia. rewrite (IH (S i)).
    + by rewrite <- Nat.add_succ_comm.
    + cbn [image set_image]. change [zeroes] with (replicate 1 zeroes). rewrite <- replicate_add. f_equal. lia.
    + lia.
Qed.

(** The state before the root inode is made. *)
Definition formatted (s : mkst) : mkst := set_image (put 1 sb_block (replicate (Z.to_nat FSSIZE) zeroes)) s.

Lemma formatted_made s : mk_superblock s = mkfs_sb → freeblock s = nmeta → freeinode s = 1 → made (formatted s) [].
Proof.
  intros Hsb Hfb Hfi. assert (image_ok (replicate (Z.to_nat FSSIZE) zeroes)) as Him.
  { split; [apply length_replicate|]. by apply Forall_replicate. }
  assert (∀ b, 0 ≤ b < FSSIZE → b ≠ 1 → blk (put 1 sb_block (replicate (Z.to_nat FSSIZE) zeroes)) b = zeroes) as Hb.
  { intros b Hb Hne. rewrite blk_put, decide_False by (done || lia). unfold blk. by rewrite lookup_replicate_2 by (sizes; lia). }
  split; cbn; try done.
  - split; cbn; [by apply put_ok|done|]. exists (λ _, None). split; try done; try (rewrite Hfb; done).
    intros b Hfree. rewrite Hfb in Hfree. apply Hb; sizes; lia.
  - unfold NFILES. lia.
Qed.

(** ** Adding the files *)

Lemma need_app T T' : need (T ++ T') = need T + need T'.
Proof. unfold need. rewrite foldr_app. induction T as [|tc T IH]; cbn; [done|]. rewrite IH. lia. Qed.

Lemma need_cons t c T : need ((t, c) :: T) = all_blocks (Z.of_nat (length c)) + need T.
Proof. done. Qed.

Lemma need_one t c : need [(t, c)] = all_blocks (Z.of_nat (length c)).
Proof. rewrite need_cons. change (need []) with 0. lia. Qed.

Lemma all_blocks_pos n : 0 ≤ n → 0 ≤ all_blocks n.
Proof. intros Hn. apply (all_blocks_mono 0 n Hn). Qed.

Lemma need_pos T : 0 ≤ need T.
Proof. induction T as [|tc T IH]; cbn; [lia|]. fold (need T). pose proof (all_blocks_pos (Z.of_nat (length tc.2))). lia. Qed.

Lemma append_reads_ok chunks : ∀ s T i t c,
  made s T → T !! i = Some (t, c) → Z.of_nat (length (c ++ concat chunks)) ≤ MAXFILE * BS →
  nmeta + need (<[i := (t, c ++ concat chunks)]> T) ≤ FSSIZE →
  ∃ s', append_reads (Z.of_nat i + 1) chunks s = Ret tt s' ∧ made s' (<[i := (t, c ++ concat chunks)]> T).
Proof.
  induction chunks as [|p chunks IH]; intros s T i t c HM Hi Hmax Hfit; cbn [append_reads concat] in *.
  - rewrite app_nil_r, list_insert_id in * by done. by exists s.
  - rewrite app_assoc in Hmax, Hfit. assert (length (c ++ p) ≤ length ((c ++ p) ++ concat chunks))%nat as Hle by (rewrite (length_app (c ++ p)); lia).
    rewrite (need_insert T i t c) in Hfit by done.
    destruct (iappend_ok s T i t c p HM Hi) as (s1 & E1 & HM1); [lia| |].
    { rewrite (need_insert T i t c) by done. pose proof (all_blocks_mono (Z.of_nat (length (c ++ p))) (Z.of_nat (length ((c ++ p) ++ concat chunks)))). lia. }
    rewrite (bind_Ret _ _ _ _ _ E1).
    assert ((<[i := (t, c ++ p)]> T) !! i = Some (t, c ++ p)) as Hi1 by (apply list_lookup_insert_eq; by eapply lookup_lt_Some).
    destruct (IH s1 _ i t (c ++ p) HM1 Hi1 Hmax) as (s2 & E2 & HM2).
    { rewrite list_insert_insert_eq, (need_insert T i t c) by done. done. }
    exists s2. rewrite app_assoc. split; [done|]. by rewrite list_insert_insert_eq in HM2.
Qed.

(** The directory entries of the files, from inode number [k] on. *)
Fixpoint dir_bytes (k : Z) (names : list (list Z)) : list Z :=
  match names with
  | [] => []
  | name :: names => mkfs_dirent k (strncpy_bytes DIRSIZ (strip name)) ++ dir_bytes (k + 1) names
  end.

Definition contents (reads : list (list (list Z))) : list (Z * list Z) := (λ r, (T_FILE, concat r)) <$> reads.

Section files.
  Variable host : list Z → option (list (list Z)).

(** The files of the command line can be read and have a size xv6 can hold. *)
Definition readable (name : list Z) (r : list (list Z)) : Prop :=
  host name = Some r ∧ SLASH ∉ name ∧ Z.of_nat (length (concat r)) ≤ MAXFILE * BS.

Lemma add_files_ok names reads : Forall2 readable names reads → ∀ s rc fs,
  made s ((T_DIR, rc) :: fs) → (length fs + 1 + length names ≤ NFILES)%nat →
  let rc' := rc ++ dir_bytes (Z.of_nat (length fs) + 2) names in
  Z.of_nat (length rc') ≤ MAXFILE * BS → nmeta + need ((T_DIR, rc') :: fs ++ contents reads) ≤ FSSIZE →
  ∃ s', add_files host ROOTINO names s = Ret tt s' ∧ made s' ((T_DIR, rc') :: fs ++ contents reads).
Proof.
  induction 1 as [|name r names reads (Hh & Hsl & Hr) _ IH]; intros s rc fs HM Hlen rc' Hmax Hfit; cbn [add_files dir_bytes length] in *.
  { subst rc'. rewrite !app_nil_r in *. by exists s. }
  rewrite bool_decide_false by done. unfold host_assert. cbn [negb]. change (bind (ret ()) ?k ?s) with (k () s). cbv beta. rewrite Hh.
  set (k := Z.of_nat (length fs) + 2) in *. set (de := mkfs_dirent k (strncpy_bytes DIRSIZ (strip name))) in *.
  change (contents (r :: reads)) with ([(T_FILE, concat r)] ++ contents reads) in *.
  assert (rc' = (rc ++ de) ++ dir_bytes (k + 1) names) as Erc by (unfold rc'; by rewrite app_assoc).
  assert (length (rc ++ de) ≤ length rc')%nat as Hle1 by (rewrite Erc, (length_app (rc ++ de)); lia).
  assert (nmeta + all_blocks (Z.of_nat (length rc')) + need fs + all_blocks (Z.of_nat (length (concat r))) + need (contents reads) ≤ FSSIZE) as Hfit2.
  { rewrite need_cons, !need_app, need_one in Hfit. lia. }
  pose proof (need_pos (contents reads)) as Hnp. pose proof (all_blocks_pos (Z.of_nat (length (concat r))) ltac:(lia)) as Hcp.
  pose proof (all_blocks_mono (Z.of_nat (length (rc ++ de))) (Z.of_nat (length rc')) ltac:(lia)) as Hrm.
  destruct (mkfs_ialloc_ok s _ T_FILE HM) as (s1 & E1 & HM1); [cbn; lia|by right|]. rewrite (bind_Ret _ _ _ _ _ E1). clear E1.
  replace (Z.of_nat (length ((T_DIR, rc) :: fs)) + 1) with k by (cbn [length]; lia).
  destruct (iappend_ok s1 (((T_DIR, rc) :: fs) ++ [(T_FILE, [])]) 0 T_DIR rc de HM1 eq_refl) as (s2 & E2 & HM2); [lia| |].
  { cbn [insert list_insert app]. rewrite need_cons, need_app, need_one. change (all_blocks (Z.of_nat (length []))) with 0. lia. }
  change (Z.of_nat 0 + 1) with ROOTINO in E2. fold de. rewrite (bind_Ret _ _ _ _ _ E2). clear E2. cbn [insert list_insert app] in HM2.
  set (T2 := (T_DIR, rc ++ de) :: fs ++ [(T_FILE, [])]) in *.
  assert (T2 !! S (length fs) = Some (T_FILE, [])) as Hi2.
  { change ((fs ++ [(T_FILE, [])]) !! length fs = Some (T_FILE, [])). by rewrite lookup_app_r, Nat.sub_diag by lia. }
  assert (<[S (length fs) := (T_FILE, concat r)]> T2 = (T_DIR, rc ++ de) :: fs ++ [(T_FILE, concat r)]) as ET2.
  { change ((T_DIR, rc ++ de) :: <[length fs := (T_FILE, concat r)]> (fs ++ [(T_FILE, [])]) = (T_DIR, rc ++ de) :: fs ++ [(T_FILE, concat r)]).
    f_equal. by rewrite insert_app_r_alt, Nat.sub_diag by lia. }
  destruct (append_reads_ok r s2 T2 (S (length fs)) T_FILE [] HM2 Hi2) as (s3 & E3 & HM3); [done| |].
  { cbn [app]. rewrite ET2, need_cons, need_app, need_one. lia. }
  replace (Z.of_nat (S (length fs)) + 1) with k in E3 by lia. rewrite (bind_Ret _ _ _ _ _ E3). clear E3. cbn [app] in HM3. rewrite ET2 in HM3.
  assert (Z.of_nat (length (fs ++ [(T_FILE, concat r)])) + 2 = k + 1) as Ek by (rewrite length_app; cbn; lia).
  specialize (IH s3 (rc ++ de) (fs ++ [(T_FILE, concat r)]) HM3). cbv zeta in IH. rewrite Ek, <- Erc, <- app_assoc in IH.
  apply IH; [rewrite length_app; cbn; lia|done|done].
Qed.

End files.
