(* ===== verification/MkfsTree.v ===== *)
(** * The image of mkfs as a directory tree

    The run of mkfs's main and the directory tree in the blocks it leaves: the
    superblock, the root directory with the names of the files, the files with
    their contents and the bitmap of the blocks in use, as the kernel reads
    them. *)
From S2P Require Import Prelude Kernel Format Proc Bytes Bio Log BlockIO Fs FsSpec Mkfs MkfsSpec.

Local Open Scope Z_scope.
Local Open Scope kernel_scope.

(** ** Directory entries *)

(** An entry with a name that is shorter than the array or fills it. *)
Definition dirent_ok (de : list Z) (n : Z) (name : list Z) : Prop :=
  length de = 16%nat ∧ de_inum de = n ∧ cname (de_name de) = name.

Lemma length_strncpy n t : length (strncpy_bytes n t) = n.
Proof.
  revert t. induction n as [|n IH]; intros t; [done|]. destruct t as [|c t]; cbn; [by rewrite length_replicate|].
  destruct (c =? 0); cbn; [by rewrite length_replicate|by rewrite IH].
Qed.

Lemma cname_zeros n : cname (replicate n 0) = [].
Proof. by destruct n. Qed.

Lemma cname_strncpy n t : 0 ∉ t → cname (strncpy_bytes n t) = take n t.
Proof.
  revert t. induction n as [|n IH]; intros t H0; [done|]. destruct t as [|c t]; [apply (cname_zeros (S n))|].
  apply not_elem_of_cons in H0 as [Hc H0]. cbn [strncpy_bytes]. rewrite (proj2 (Z.eqb_neq c 0)) by congruence. cbn.
  rewrite (proj2 (Z.eqb_neq c 0)) by congruence. by rewrite IH.
Qed.

Lemma mkfs_dirent_name n name : (length name ≤ DIRSIZ)%nat → 0 ≤ n < 65536 →
  length (mkfs_dirent n name) = 16%nat ∧ de_inum (mkfs_dirent n name) = n ∧
  de_name (mkfs_dirent n name) = name ++ replicate (DIRSIZ - length name) 0.
Proof.
  intros Hl Hn. unfold mkfs_dirent, DIRSIZ in *. split_and!.
  - rewrite length_inserts, length_wr. apply length_replicate.
  - unfold de_inum, rd. rewrite peek_inserts_ne by lia. rewrite xshort_id by done. apply rd_wr; [rewrite length_replicate; unfold DIRENT_SIZE; lia|done].
  - unfold de_name. apply list_eq. intros j. rewrite lookup_drop. destruct (decide (j < length name)%nat) as [Hj|Hj].
    + rewrite lookup_app_l, list_lookup_inserts by (rewrite ?length_wr, ?length_replicate; unfold DIRENT_SIZE; lia). f_equal. lia.
    + rewrite lookup_app_r, list_lookup_inserts_ge by lia. unfold wr. rewrite list_lookup_inserts_ge by (cbn; lia).
      destruct (decide (2 + j < 16)%nat); [rewrite !lookup_replicate_2 by (unfold DIRENT_SIZE; lia); done|].
      rewrite !lookup_ge_None_2; [done|rewrite length_replicate; lia|rewrite length_replicate; unfold DIRENT_SIZE; lia].
Qed.

Lemma dirent_file n name : 0 ≤ n < 65536 → 0 ∉ name → dirent_ok (mkfs_dirent n (strncpy_bytes DIRSIZ name)) n (take DIRSIZ name).
Proof.
  intros Hn H0. destruct (mkfs_dirent_name n (strncpy_bytes DIRSIZ name)) as (E1 & E2 & E3); [by rewrite length_strncpy|done|].
  split_and!; [done|done|]. rewrite E3, length_strncpy, Nat.sub_diag, app_nil_r. by apply cname_strncpy.
Qed.

Definition dot : list Z := mkfs_dirent ROOTINO (chars "." ++ [0]).
Definition dotdot : list Z := mkfs_dirent ROOTINO (chars ".." ++ [0]).

Lemma dirent_dots : dirent_ok dot ROOTINO (chars ".") ∧ dirent_ok dotdot ROOTINO (chars "..").
Proof. by split. Qed.

(** The entries of the root directory and the names in them. *)
Fixpoint file_entries (k : Z) (names : list (list Z)) : list (list Z) :=
  match names with
  | [] => []
  | name :: names => mkfs_dirent k (strncpy_bytes DIRSIZ (strip name)) :: file_entries (k + 1) names
  end.

Definition root_entries (names : list (list Z)) : list (list Z) := dot :: dotdot :: file_entries 2 names.
Definition stored_name (name : list Z) : list Z := take DIRSIZ (strip name).
Definition root_names (names : list (list Z)) : list (list Z) := chars "." :: chars ".." :: (stored_name <$> names).
Definition root_inum (i : nat) : Z := match i with 0%nat | 1%nat => 1 | _ => Z.of_nat i end.

Lemma file_entries_bytes k names : concat (file_entries k names) = dir_bytes k names.
Proof. revert k. induction names as [|name names IH]; intros k; cbn; [done|]. by rewrite IH. Qed.

Lemma strip_nonzero name : 0 ∉ name → 0 ∉ strip name.
Proof. intros H. unfold strip. destruct (_ =? 95); [|done]. destruct name; [done|]. cbn. by apply not_elem_of_cons in H as [_ H]. Qed.

Lemma file_entries_ok names : ∀ k i name, Forall (λ n, 0 ∉ n) names → 0 ≤ k → k + Z.of_nat (length names) < 65536 → names !! i = Some name →
  ∃ de, file_entries k names !! i = Some de ∧ dirent_ok de (k + Z.of_nat i) (stored_name name).
Proof.
  induction names as [|x names IH]; intros k i name Hn Hk Hl Hi; [done|]. apply Forall_cons in Hn as [Hx Hn]. cbn [length] in Hl.
  destruct i as [|i]; cbn in Hi; cbn [file_entries].
  - injection Hi as ->. exists (mkfs_dirent k (strncpy_bytes DIRSIZ (strip name))). split; [done|]. rewrite Z.add_0_r. apply dirent_file; [lia|]. by apply strip_nonzero.
  - destruct (IH (k + 1) i name) as (de & E & H); [done|lia|lia|done|]. exists de. split; [done|]. by replace (k + Z.of_nat (S i)) with (k + 1 + Z.of_nat i) by lia.
Qed.

Lemma length_file_entries k names : length (file_entries k names) = length names.
Proof. revert k. induction names as [|name names IH]; intros k; cbn; [done|]. by rewrite IH. Qed.

Lemma root_entries_ok names i name : Forall (λ n, 0 ∉ n) names → (length names < 1000)%nat → root_names names !! i = Some name →
  ∃ de, root_entries names !! i = Some de ∧ dirent_ok de (root_inum i) name.
Proof.
  intros Hn Hl Hi. destruct dirent_dots as [D1 D2]. destruct i as [|[|i]].
  - injection Hi as <-. by exists dot.
  - injection Hi as <-. by exists dotdot.
  - change ((stored_name <$> names) !! i = Some name) in Hi. rewrite list_lookup_fmap in Hi. destruct (names !! i) as [x|] eqn:E; [|done]. injection Hi as <-.
    destruct (file_entries_ok names 2 i x Hn) as (de & E2 & H); [lia|lia|done|]. exists de. split; [done|]. cbn [root_inum].
    by replace (Z.of_nat (S (S i))) with (2 + Z.of_nat i) by lia.
Qed.

(** The first entry with a name. *)
Lemma first_entry_index es : ∀ (names : list (list Z)) off i name n,
  (∀ j x, names !! j = Some x → ∃ de m, es !! j = Some de ∧ dirent_ok de m x ∧ m ≠ 0 ∧ (j = i → m = n)) →
  NoDup names → names !! i = Some name → first_entry name es off = Some (n, off + DIRENT_SIZE * Z.of_nat i).
Proof.
  induction es as [|de es IH]; intros names off i name n Hes Hnd Hi.
  { by destruct (Hes i name Hi) as (de & m & E & _). }
  destruct names as [|x names]; [done|]. destruct (Hes 0%nat x eq_refl) as (de' & m & [= <-] & (_ & En & Ec) & Hm & Hmi). cbn [first_entry].
  rewrite En, Ec, (proj2 (Z.eqb_neq m 0)) by done. cbn [orb]. apply NoDup_cons in Hnd as [Hx Hnd]. destruct i as [|i]; cbn in Hi.
  - injection Hi as ->. rewrite bool_decide_true by done. cbn. rewrite Hmi by done. do 2 f_equal. lia.
  - assert (name ≠ x) as Hne by (intros ->; apply Hx; by eapply list_elem_of_lookup_2). rewrite bool_decide_false by done. cbn.
    rewrite (IH names (off + DIRENT_SIZE) i name n); [do 2 f_equal; lia| |done|done].
    intros j y Hj. destruct (Hes (S j) y Hj) as (de2 & m2 & E2 & H2 & H3 & H4). exists de2, m2. split_and!; try done. intros ->. auto.
Qed.

Lemma first_entry_app name es es' off r : first_entry name es off = Some r → first_entry name (es ++ es') off = Some r.
Proof. revert off. induction es as [|de es IH]; intros off; [done|]. cbn. destruct (_ || _); auto. Qed.

(** ** Files of a layout as the kernel reads them *)

Section layout.
  Context (V : Z → list Z) (own : Z → option (nat * Z)) (fb : Z) (F : list fent).
  Context (i : nat) (ip jp : inode) (c : list Z).
  Hypothesis HL : layout V own fb F.
  Hypothesis Hi : F !! i = Some (rest_of ip c).
  Hypothesis Hj : addrs jp = addrs ip.

Let cap := data_blocks (Z.of_nat (length c)).

Lemma layout_block k : file_block V jp k = file_block V ip k.
Proof. unfold file_block, addr_of. by rewrite Hj. Qed.

Lemma layout_mapped n : idev jp = DEV → 0 ≤ n ≤ cap * BS → file_mapped V (Z.to_nat FSSIZE) jp n.
Proof.
  intros Hd Hn. pose proof (ly_files _ _ _ _ HL i _ Hi) as H. pose proof (fh_cap _ _ _ _ H) as Hcap. cbn [fcap rest_of] in Hcap. fold cap in Hcap.
  split.
  - done.
  - fold BS. sizes. lia.
  - intros k Hk Hlt. fold BS in Hlt. rewrite layout_block. pose proof (fh_used _ _ _ _ H k) as Hu. cbn [fcap rest_of fi] in Hu. fold cap in Hu.
    pose proof (owned_range _ _ _ _ _ _ HL (Hu ltac:(sizes; lia))). sizes. lia.
  - intros Hlt. fold BS ND in Hlt. pose proof (fh_ind _ _ _ _ H) as Hd2. cbn [find rest_of fi fcap] in Hd2. fold cap in Hd2.
    rewrite (proj2 (Z.ltb_lt ND cap)) in Hd2 by (sizes; lia). pose proof (owned_range _ _ _ _ _ _ HL Hd2) as Hr.
    unfold addr_of in *. rewrite Hj. sizes. lia.
Qed.

Lemma layout_byte p : 0 ≤ p < cap * BS → file_byte V jp p = default 0 (c !! Z.to_nat p).
Proof.
  intros Hp. unfold file_byte. rewrite layout_block. fold BS. pose proof (ly_files _ _ _ _ HL i _ Hi) as H.
  pose proof (fh_data _ _ _ _ H (p / BS) (Z.to_nat (p mod BS))) as Hd. cbn [fcap rest_of fi fd] in Hd. fold cap in Hd.
  assert (0 ≤ p / BS < cap) as Hk by (split; [apply Z.div_pos; sizes; lia|apply Z.div_lt_upper_bound; sizes; lia]).
  assert (0 ≤ p mod BS < BS) as Hm by (apply Z.mod_pos_bound; sizes; lia).
  rewrite Hd by (sizes; lia). unfold id. cbn. do 2 f_equal. pose proof (Z.div_mod p BS ltac:(sizes; lia)) as Hdm.
  revert Hk Hm Hdm. generalize (p / BS), (p mod BS). sizes. lia.
Qed.

Lemma layout_slice off n : 0 ≤ off → off + Z.of_nat n ≤ cap * BS →
  file_slice V jp off n = (λ k, default 0 (c !! (Z.to_nat off + k)%nat)) <$> seq 0 n.
Proof.
  intros H0 Hn. unfold file_slice. apply list_fmap_ext. intros j k Hk%lookup_seq. rewrite layout_byte by lia. do 2 f_equal. lia.
Qed.

Lemma layout_contents : file_slice V jp 0 (length c) = c.
Proof.
  rewrite layout_slice; [|lia|apply (fh_len _ _ _ _ (ly_files _ _ _ _ HL i _ Hi))].
  apply list_eq. intros k. rewrite list_lookup_fmap. destruct (decide (k < length c)%nat) as [Hk|Hk].
  - rewrite lookup_seq_lt by done. cbn [fmap option_fmap option_map]. change (Z.to_nat 0 + (0 + k))%nat with k. destruct (lookup_lt_is_Some_2 c k Hk) as [x ->]. done.
  - rewrite !lookup_ge_None_2; [done|lia|rewrite length_seq; lia].
Qed.

End layout.

(** The entry at its place in the bytes of a directory. *)
Lemma concat_entry (es : list (list Z)) (k j : nat) : Forall (λ e, length e = 16%nat) es → (j < 16)%nat →
  concat es !! (16 * k + j)%nat = (e ← es !! k; e !! j).
Proof.
  intros He Hj. revert k. induction He as [|e es Hl He IH]; intros k; [done|]. destruct k as [|k]; cbn [concat].
  - rewrite lookup_app_l by lia. done.
  - rewrite lookup_app_r by lia. change ((e :: es) !! S k) with (es !! k). rewrite <- IH. f_equal. lia.
Qed.

Lemma length_concat16 es : Forall (λ e : list Z, length e = 16%nat) es → length (concat es) = (16 * length es)%nat.
Proof. induction 1 as [|e es Hl He IH]; [done|]. cbn [concat length]. rewrite length_app, IH. lia. Qed.

Lemma layout_entries V own fb F i ip jp es m :
  layout V own fb F → F !! i = Some (rest_of ip (concat es)) → addrs jp = addrs ip → Forall (λ e, length e = 16%nat) es →
  isize jp = 16 * Z.of_nat m → (length es ≤ m)%nat → isize jp ≤ data_blocks (Z.of_nat (length (concat es))) * BS →
  dir_entries V jp 0 = es ++ replicate (m - length es) (replicate 16 0).
Proof.
  intros HL Hi Ha He Hsz Hm Hcap. unfold dir_entries. rewrite Hsz. unfold DIRENT_SIZE. rewrite Z.sub_0_r, (Z.mul_comm 16), Z.div_mul, Nat2Z.id by done.
  apply list_eq. intros k. rewrite list_lookup_fmap. destruct (decide (k < m)%nat) as [Hk|Hk].
  - rewrite lookup_seq_lt by done. cbn [fmap option_fmap option_map]. rewrite Nat.add_0_l.
    rewrite (layout_slice V own fb F i ip jp (concat es) HL Hi Ha) by (change (Z.to_nat 16) with 16%nat; lia).
    replace (Z.to_nat (0 + 16 * Z.of_nat k)) with (16 * k)%nat by lia. change (Z.to_nat 16) with 16%nat.
    destruct (decide (k < length es)%nat) as [Hes|Hes].
    + rewrite lookup_app_l by done. destruct (lookup_lt_is_Some_2 es k Hes) as [e Ee]. rewrite Ee. f_equal.
      pose proof (Forall_lookup_1 _ _ _ _ He Ee) as Hl. cbn beta in Hl. apply list_eq. intros j. rewrite list_lookup_fmap.
      destruct (decide (j < 16)%nat) as [Hj|Hj]; [|rewrite !lookup_ge_None_2; [done|lia|rewrite length_seq; lia]].
      rewrite lookup_seq_lt by done. cbn [fmap option_fmap option_map]. rewrite Nat.add_0_l, concat_entry, Ee by done. cbn [mbind option_bind].
      destruct (lookup_lt_is_Some_2 e j) as [x ->]; [lia|done].
    + rewrite lookup_app_r, lookup_replicate_2 by lia. f_equal. change (replicate 16 0) with ((λ _ : nat, 0) <$> seq 0 16).
      apply list_fmap_ext. intros j x Hx%lookup_seq. rewrite lookup_ge_None_2; [done|]. rewrite length_concat16 by done. lia.
  - rewrite !lookup_ge_None_2; [done|rewrite length_app, length_replicate; lia|rewrite length_seq; lia].
Qed.

(** ** The bitmap *)

Lemma land_bit x b : 0 ≤ b → (Z.land x (Z.shiftl 1 b) =? 0) = negb (Z.testbit x b).
Proof.
  intros Hb. rewrite Z.shiftl_1_l. destruct (Z.testbit x b) eqn:E; cbn [negb].
  - apply Z.eqb_neq. intros H. apply (f_equal (λ y, Z.testbit y b)) in H. rewrite Z.land_spec, E, Z.pow2_bits_true, Z.bits_0 in H by done. done.
  - apply Z.eqb_eq, Z.bits_inj'. intros k Hk. rewrite Z.land_spec, Z.pow2_bits_eqb, Z.bits_0 by done.
    destruct (Z.eqb_spec b k) as [->|]; [by rewrite E|apply andb_false_r].
Qed.

Lemma bit_free_set bi bj data : 0 ≤ bi → 0 ≤ bj → (Z.to_nat (bj / 8) < length data)%nat →
  bit_free bi (bit_set bj data) = if decide (bi = bj) then false else bit_free bi data.
Proof.
  intros Hi Hj Hl. unfold bit_free, bit_mask. assert (∀ z, 0 ≤ z mod 8 < 8) as Hm by (intros; by apply Z.mod_pos_bound).
  rewrite !land_bit by apply Hm. assert (0 ≤ bi / 8 ∧ 0 ≤ bj / 8) as [Hd1 Hd2] by (split; apply Z.div_pos; lia).
  unfold bit_set, bit_byte at 1. destruct (decide (bi / 8 = bj / 8)) as [E|E].
  - rewrite E, list_lookup_insert_eq by done. cbn [default]. unfold id. rewrite Z.lor_spec. unfold bit_mask. rewrite Z.shiftl_1_l, Z.pow2_bits_eqb by apply Hm.
    unfold bit_byte. destruct (decide (bi = bj)) as [->|Hne]; [by rewrite Z.eqb_refl, orb_true_r|].
    assert (bj mod 8 =? bi mod 8 = false) as -> by (apply Z.eqb_neq; Z.div_mod_to_equations; lia). by rewrite E, orb_false_r.
  - rewrite list_lookup_insert_ne by lia. rewrite decide_False by congruence. done.
Qed.

Lemma length_used_bits n buf : length (used_bits n buf) = length buf.
Proof. induction n as [|n IH]; cbn [used_bits]; [done|]. unfold bit_set. by rewrite length_insert. Qed.

Lemma used_bits_free n bi : (n ≤ 8 * BSIZE)%nat → 0 ≤ bi → bit_free bi (used_bits n zeroes) = (Z.of_nat n <=? bi).
Proof.
  intros Hn Hb. induction n as [|n IH]; cbn [used_bits].
  - unfold bit_free, bit_byte, zeroes. destruct (replicate BSIZE 0 !! Z.to_nat (bi / 8)) eqn:E; cbn; [apply lookup_replicate in E as [-> _]|];
      cbn; symmetry; apply Z.leb_le; lia.
  - rewrite bit_free_set, IH; [|lia|lia|lia|].
    + destruct (decide (bi = Z.of_nat n)) as [->|Hne]; [symmetry; apply Z.leb_gt; lia|].
      destruct (Z.of_nat n <=? bi) eqn:E1, (Z.of_nat (S n) <=? bi) eqn:E2; bools; try done; lia.
    + rewrite length_used_bits. unfold zeroes. rewrite length_replicate. unfold BSIZE in *. Z.div_mod_to_equations. lia.
Qed.

(** ** The run of main *)

Definition root_bytes (names : list (list Z)) : list Z := concat (root_entries names).
Definition all_files (names : list (list Z)) (reads : list (list (list Z))) : list (Z * list Z) :=
  (T_DIR, root_bytes names) :: contents reads.

(** The last step of main rounds the size of the root directory up. *)
Definition root_size (names : list (list Z)) : Z := (Z.of_nat (length (root_bytes names)) / BS + 1) * BS.

Record built (s : mkst) (names : list (list Z)) (reads : list (list (list Z))) : Prop := {
  bt_laid : laid s (files_of (image s) (all_files names reads));
  bt_sb : blk (image s) 1 = sb_block;
  bt_root : let ip := slot_inode (image s) 0 in itype ip = T_DIR ∧ nlink ip = 1 ∧ isize ip = root_size names;
  bt_file i t c : (0 < i)%nat → all_files names reads !! i = Some (t, c) →
    let ip := slot_inode (image s) i in itype ip = t ∧ nlink ip = 1 ∧ isize ip = Z.of_nat (length c);
  bt_map : blk (image s) (bmapstart mkfs_sb) = used_bits (Z.to_nat (freeblock s)) zeroes
}.

Lemma length_root_bytes names : Forall (λ n, 0 ∉ n) names → (length names < 1000)%nat →
  Forall (λ e, length e = 16%nat) (root_entries names) ∧ length (root_bytes names) = (16 * (length names + 2))%nat.
Proof.
  intros Hn Hl. assert (Forall (λ e, length e = 16%nat) (root_entries names)) as HF.
  { apply Forall_lookup_2. intros i e He. assert (i < length (root_names names))%nat as Hi.
    { apply lookup_lt_Some in He. unfold root_entries, root_names in *. cbn in *. rewrite length_file_entries in He. by rewrite length_fmap. }
    destruct (lookup_lt_is_Some_2 _ _ Hi) as [name En]. destruct (root_entries_ok names i name Hn Hl En) as (de & Ed & Hd & _). congruence. }
  split; [done|]. unfold root_bytes. rewrite length_concat16 by done. unfold root_entries. cbn [length]. rewrite length_file_entries. lia.
Qed.

Section main.
  Variable host : list Z → option (list (list Z)).

(** What the command line has to fulfil. *)
Record fits (names : list (list Z)) (reads : list (list (list Z))) : Prop := {
  fit_reads : Forall2 (readable host) names reads;
  fit_names : Forall (λ n, 0 ∉ n) names;
  fit_inodes : (length names < NFILES)%nat;
  fit_blocks : nmeta + need (all_files names reads) ≤ FSSIZE
}.

(** The root directory before the files are added. *)
Lemma make_root s : made s [] →
  ∃ s1 s2 s3, mkfs_ialloc T_DIR s = Ret ROOTINO s1 ∧ iappend ROOTINO dot s1 = Ret tt s2 ∧ iappend ROOTINO dotdot s2 = Ret tt s3 ∧
    made s3 [(T_DIR, dot ++ dotdot)].
Proof.
  intros HM. destruct (mkfs_ialloc_ok s [] T_DIR HM) as (s1 & E1 & HM1); [unfold NFILES; cbn; lia|by left|].
  destruct (iappend_ok s1 _ 0 T_DIR [] dot HM1 eq_refl) as (s2 & E2 & HM2); [by vm_compute|by vm_compute|].
  destruct (iappend_ok s2 _ 0 T_DIR dot dotdot HM2 eq_refl) as (s3 & E3 & HM3); [by vm_compute|by vm_compute|].
  exists s1, s2, s3. done.
Qed.

(** The bitmap block is not part of a file. *)
Lemma laid_bitmap s F l : laid s F → length l = BSIZE →
  laid (set_image (put (bmapstart mkfs_sb) l (image s)) s) F ∧
  ∀ b, 0 ≤ b → b ≠ bmapstart mkfs_sb → blk (put (bmapstart mkfs_sb) l (image s)) b = blk (image s) b.
Proof.
  intros [Him Hsb [own HL]] Hl. assert (0 ≤ bmapstart mkfs_sb < FSSIZE) as Hr by done.
  assert (∀ b, 0 ≤ b → b ≠ bmapstart mkfs_sb → blk (put (bmapstart mkfs_sb) l (image s)) b = blk (image s) b) as Hb.
  { intros b H0 Hne. by rewrite blk_put, decide_False by done. }
  split; [|done]. split; cbn [image set_image mk_superblock freeblock].
  - by apply put_ok.
  - done.
  - exists own. eapply layout_ext; [done|]. change (bmapstart mkfs_sb) with 58 in *. intros b Hb2. apply Hb; sizes; lia.
Qed.

(** The state mkfs formats the image from. *)
Definition mkfs_ready : mkst :=
  set_freeblock nmeta (set_mk_out
    [("nmeta %d (boot, super, log blocks %u inode blocks %u, bitmap blocks %u) blocks %d total %d"%string,
      [nmeta; mk_nlog; ninodeblocks; nbitmap; mk_nblocks; FSSIZE])]
    (set_mk_superblock mkfs_sb (set_image [] mkfs_start))).

(** The end of main: the size of the root directory and the bitmap. *)
Definition mkfs_finish (rootino : Z) : M mkst unit :=
  din <- rinode rootino;;
  let off := xint (isize din) in
  let off := u32 ((off / Z.of_nat BSIZE + 1) * Z.of_nat BSIZE) in
  winode rootino (set_isize (xint off) din);;
  used <- gets freeblock;;
  mkfs_balloc used.

Lemma mkfs_main_steps prog img names s3 s4 o :
  (∃ s1 s2, mkfs_ialloc T_DIR (formatted mkfs_ready) = Ret ROOTINO s1 ∧ iappend ROOTINO dot s1 = Ret tt s2 ∧ iappend ROOTINO dotdot s2 = Ret tt s3) →
  add_files host ROOTINO names s3 = Ret tt s4 → mkfs_finish ROOTINO s4 = o →
  mkfs_main host (prog :: img :: names) mkfs_start = o.
Proof.
  intros (s1 & s2 & E1 & E2 & E3) E4 <-. unfold mkfs_main. set (sb := mk_sb _ _ _ _ _ _ _).
  assert (sb = mkfs_sb) as -> by reflexivity. unfold host_printf. do 3 (unfold bind at 1, modify at 1; cbn [obind]).
  set (s0 := set_freeblock nmeta _). change s0 with mkfs_ready.
  rewrite (bind_Ret _ _ _ _ _ (zero_image_ok (Z.to_nat FSSIZE) 0 mkfs_ready eq_refl (Nat.le_refl _))). rewrite Nat.add_0_l.
  set (s' := set_image (replicate _ _) mkfs_ready).
  assert (image_ok (image s')) as Him by (split; [apply length_replicate|by apply Forall_replicate]).
  rewrite (bind_Ret _ _ _ _ _ (wsect_ok 1 _ s' Him ltac:(done))). change (set_image _ s') with (formatted mkfs_ready).
  rewrite (bind_Ret _ _ _ _ _ E1). change (ROOTINO =? ROOTINO) with true. unfold host_assert. cbn [negb]. change (bind (ret ()) ?k ?s) with (k () s). cbv beta.
  fold dot dotdot. rewrite (bind_Ret _ _ _ _ _ E2), (bind_Ret _ _ _ _ _ E3), (bind_Ret _ _ _ _ _ E4). done.
Qed.

Lemma mkfs_finish_ok s names reads : fits names reads → made s (all_files names reads) →
  ∃ s', mkfs_finish ROOTINO s = Ret tt s' ∧ built s' names reads.
Proof.
  intros Hfit HM. pose proof (fit_inodes _ _ Hfit) as Hin. unfold NFILES in Hin.
  destruct (length_root_bytes names (fit_names _ _ Hfit) ltac:(lia)) as [_ Hlr].
  destruct (md_ino _ _ HM 0 T_DIR (root_bytes names) eq_refl) as (Ht & Hn & Hsz). pose proof (md_laid _ _ HM) as HL.
  unfold mkfs_finish. change ROOTINO with (Z.of_nat 0 + 1). rewrite (bind_Ret _ _ _ _ _ (rinode_ok s _ 0 HL ltac:(unfold NFILES; lia))).
  set (ip := slot_inode (image s) 0) in *. rewrite Hsz, (xint_id (Z.of_nat (length (root_bytes names)))) by (sizes; lia). fold BS (root_size names). cbv zeta.
  assert (0 ≤ root_size names < 4000) as Hrs.
  { unfold root_size. rewrite Hlr. sizes. Z.div_mod_to_equations. lia. }
  assert (u32 (root_size names) = root_size names) as -> by (apply Z.mod_small; sizes; lia). rewrite xint_id by (sizes; lia).
  set (ip' := set_isize (root_size names) ip).
  pose proof (files_of_lookup (image s) (all_files names reads) 0 _ _ eq_refl) as HF0. fold ip in HF0.
  assert (inode_wf ip') as Hwf.
  { destruct HL as [_ _ [own HL]]. destruct (fh_wf _ _ _ _ (ly_files _ _ _ _ HL 0 _ HF0)) as (W1 & W2 & W3 & W4 & W5 & W6 & W7).
    unfold inode_wf. cbn in *. split_and!; try lia; try done. sizes. lia. }
  pose proof (laid_resize s _ 0 ip ip' _ HL HF0 eq_refl Hwf) as HL1.
  destruct (winode_ok s _ 0 ip' HL1 ltac:(unfold NFILES; lia) Hwf) as (s1 & E1 & HL2 & Hfi & Hslot & Hoth & Hb1); try done.
  rewrite (bind_Ret _ _ _ _ _ E1). clear E1. unfold bind at 1, gets at 1. cbn [obind]. destruct (laid_fb _ _ HL2) as (_ & Hmax & Hmin).
  unfold mkfs_balloc, host_printf. unfold bind at 1, modify at 1. cbn [obind]. rewrite (proj2 (Z.ltb_lt _ _)) by (sizes; lia).
  unfold host_assert. cbn [negb]. change (bind (ret ()) ?k ?s) with (k () s). cbv beta. unfold bind at 1, gets at 1. cbn [obind mk_superblock set_mk_out].
  rewrite (ld_sb _ _ HL2). unfold bind at 1, modify at 1. cbn [obind]. set (s2 := set_mk_out _ (set_mk_out _ s1)).
  assert (length (used_bits (Z.to_nat (freeblock s1)) zeroes) = BSIZE) as Hlen by (rewrite length_used_bits; apply length_replicate).
  assert (laid s2 (<[0%nat := rest_of ip' (root_bytes names)]> (files_of (image s) (all_files names reads)))) as HL3 by (destruct HL2; by split).
  destruct (laid_bitmap s2 _ _ HL3 Hlen) as [HL4 Hb4]. rewrite wsect_ok by (done || apply HL2).
  eexists. split; [done|]. set (s3 := set_image _ s2) in *. change (image s2) with (image s1) in *.
  assert (∀ j, (j < NFILES)%nat → slot_inode (image s3) j = slot_inode (image s1) j) as Hs3.
  { intros j Hj. unfold slot_inode. destruct (iblock_range j Hj). cbn [image set_image s3]. rewrite Hb4; [done|lia|]. change (bmapstart mkfs_sb) with 58. lia. }
  pose proof (md_len _ _ HM) as Hml. assert (0 < NFILES)%nat by (unfold NFILES; lia). split.
  - replace (files_of (image s3) (all_files names reads)) with (<[0%nat := rest_of ip' (root_bytes names)]> (files_of (image s) (all_files names reads))); [done|].
    rewrite <- Hslot, <- (Hs3 0%nat) by done. symmetry. rewrite <- (list_insert_id (all_files names reads) 0 (T_DIR, root_bytes names) eq_refl) at 1.
    apply files_of_insert; [cbn; lia|]. intros j Hj Hne. rewrite Hs3, Hoth by lia. done.
  - cbn [image set_image s3]. rewrite Hb4, Hb1 by done. apply HM.
  - cbv zeta. rewrite Hs3, Hslot by done. done.
  - intros i t c Hi Hic. cbv zeta. pose proof (lookup_lt_Some _ _ _ Hic). rewrite Hs3, Hoth by lia. by apply HM.
  - cbn [image set_image s3 freeblock]. rewrite blk_put by (done || apply HL2). done.
Qed.

Lemma mkfs_main_run prog img names reads : fits names reads →
  ∃ s, mkfs_main host (prog :: img :: names) mkfs_start = Ret tt s ∧ built s names reads.
Proof.
  intros Hfit. destruct (make_root (formatted mkfs_ready)) as (s1 & s2 & s3 & E1 & E2 & E3 & HM3); [by apply formatted_made|].
  pose proof (fit_inodes _ _ Hfit) as Hin. destruct (length_root_bytes names (fit_names _ _ Hfit) ltac:(unfold NFILES in *; lia)) as [_ Hlr].
  assert ((dot ++ dotdot) ++ dir_bytes 2 names = root_bytes names) as Er.
  { unfold root_bytes, root_entries. cbn [concat]. by rewrite file_entries_bytes, <- app_assoc. }
  destruct (add_files_ok host names reads (fit_reads _ _ Hfit) s3 (dot ++ dotdot) [] HM3) as (s4 & E4 & HM4).
  - cbn [length]. unfold NFILES in *. lia.
  - change (Z.of_nat (length []) + 2) with 2. rewrite Er, Hlr. unfold NFILES in *. sizes. lia.
  - change (Z.of_nat (length []) + 2) with 2. rewrite Er. apply Hfit.
  - change (Z.of_nat (length []) + 2) with 2 in HM4. rewrite Er in HM4.
    destruct (mkfs_finish_ok s4 names reads Hfit HM4) as (s5 & E5 & HB). exists s5. split; [|done].
    eapply mkfs_main_steps; [by exists s1, s2|done|done].
Qed.

End main.

(** ** The tree *)

Definition inodes (n : nat) : gset Z := list_to_set (Z.of_nat <$> seq 1 (S n)).

Lemma elem_of_inodes m n : m ∈ inodes n ↔ 1 ≤ m ≤ Z.of_nat n + 1.
Proof.
  unfold inodes. rewrite elem_of_list_to_set, list_elem_of_fmap. setoid_rewrite elem_of_seq. split.
  - intros (k & -> & Hk). lia.
  - intros Hm. exists (Z.to_nat m). lia.
Qed.

Lemma decode_sb_block : decode_sb sb_block = mkfs_sb.
Proof. vm_compute. reflexivity. Qed.

Section tree.
  Context (host : list Z → option (list (list Z))) (s : mkst) (names : list (list Z)) (reads : list (list (list Z))).
  Hypothesis Hfit : fits host names reads.
  Hypothesis HB : built s names reads.

Let V := blk (image s).
Let ino (i : nat) : inode := disk_inode V mkfs_sb (Z.of_nat i + 1).

Lemma few_names : (length names < 199)%nat.
Proof. apply (fit_inodes _ _ _ Hfit). Qed.

Lemma root_length : Forall (λ e, length e = 16%nat) (root_entries names) ∧ length (root_bytes names) = (16 * (length names + 2))%nat.
Proof. pose proof few_names. apply length_root_bytes; [apply Hfit|lia]. Qed.

Lemma ino_addrs i : addrs (ino i) = addrs (slot_inode (image s) i).
Proof. done. Qed.

Lemma built_file i name r : names !! i = Some name → reads !! i = Some r →
  let ip := ino (S i) in
  itype ip = T_FILE ∧ nlink ip = 1 ∧ isize ip = Z.of_nat (length (concat r)) ∧
  file_mapped V (Z.to_nat FSSIZE) ip (isize ip) ∧ file_slice V ip 0 (length (concat r)) = concat r.
Proof.
  intros Hn Hr ip. assert (all_files names reads !! S i = Some (T_FILE, concat r)) as Hi.
  { change (contents reads !! i = Some (T_FILE, concat r)). unfold contents. by rewrite list_lookup_fmap, Hr. }
  destruct (bt_file _ _ _ HB (S i) _ _ ltac:(lia) Hi) as (Ht & Hl & Hs). destruct (bt_laid _ _ _ HB) as [_ _ [own HL]].
  pose proof (files_of_lookup (image s) _ _ _ _ Hi) as HF. fold V in HL.
  split_and!; [done|done|done| |].
  - change (isize ip) with (isize (slot_inode (image s) (S i))). rewrite Hs.
    apply (layout_mapped V own _ _ (S i) _ ip (concat r) HL HF eq_refl); [done|].
    pose proof (fh_len _ _ _ _ (ly_files _ _ _ _ HL _ _ HF)) as Hlen. cbn [fd fcap rest_of] in Hlen. lia.
  - apply (layout_contents V own _ _ (S i) _ ip (concat r) HL HF eq_refl).
Qed.

Lemma root_inode : itype (ino 0) = T_DIR ∧ nlink (ino 0) = 1 ∧ isize (ino 0) = root_size names.
Proof. apply (bt_root _ _ _ HB). Qed.

(** The root directory, when its last block is not full. *)
Hypothesis Hroom : ((length names + 2) mod 32 ≠ 0)%nat.

Lemma root_blocks : root_size names = data_blocks (Z.of_nat (length (root_bytes names))) * BS ∧ 0 ≤ root_size names ∧
  ∃ m : nat, root_size names = 16 * Z.of_nat m ∧ (length (root_entries names) ≤ m)%nat.
Proof.
  destruct root_length as [_ Hl]. unfold root_size, data_blocks. rewrite Hl. sizes.
  assert (length (root_entries names) = length names + 2)%nat as -> by (unfold root_entries; cbn; rewrite length_file_entries; lia).
  assert (Z.of_nat (length names + 2) mod 32 ≠ 0) as Hr by (rewrite <- (Nat2Z.inj_mod _ 32); lia).
  split_and!.
  - Z.div_mod_to_equations. lia.
  - Z.div_mod_to_equations. lia.
  - exists (32 * Z.to_nat (Z.of_nat (16 * (length names + 2)) / 512 + 1))%nat. Z.div_mod_to_equations. lia.
Qed.

Lemma root_dir : file_mapped V (Z.to_nat FSSIZE) (ino 0) (isize (ino 0)) ∧ isize (ino 0) mod DIRENT_SIZE = 0 ∧
  ∃ z, dir_entries V (ino 0) 0 = root_entries names ++ replicate z (replicate 16 0).
Proof.
  destruct root_inode as (_ & _ & Hs). destruct root_length as [HF16 _], root_blocks as (Hb & H0 & m & Hm & Hle). rewrite Hs.
  destruct (bt_laid _ _ _ HB) as [_ _ [own HL]]. fold V in HL.
  pose proof (files_of_lookup (image s) (all_files names reads) 0 _ _ eq_refl) as HF. split_and!.
  - apply (layout_mapped V own _ _ 0 _ (ino 0) (root_bytes names) HL HF eq_refl); [done|]. lia.
  - rewrite Hm. unfold DIRENT_SIZE. rewrite Z.mul_comm. by apply Z.mod_mul.
  - exists (m - length (root_entries names))%nat. apply (layout_entries V own _ _ 0 _ (ino 0) _ m HL HF eq_refl); try done; rewrite ?Hs; try done.
    rewrite Hb. done.
Qed.

Lemma root_finds i name : NoDup (root_names names) → root_names names !! i = Some name →
  dir_find V (ino 0) name = Some (root_inum i, DIRENT_SIZE * Z.of_nat i).
Proof.
  intros Hnd Hi. pose proof few_names. destruct root_dir as (_ & _ & z & Ez). unfold dir_find. rewrite Ez. apply first_entry_app.
  rewrite <- (Z.add_0_l (DIRENT_SIZE * _)). eapply (first_entry_index _ (root_names names)); try done.
  intros j x Hj. destruct (root_entries_ok names j x (fit_names _ _ _ Hfit) ltac:(lia) Hj) as (de & Ed & Hd).
  exists de, (root_inum j). split_and!; [done|done|destruct j as [|[|]]; cbn; lia|by intros ->].
Qed.

Lemma built_tree : fs_tree V mkfs_sb (Z.to_nat FSSIZE) (inodes (length names)).
Proof.
  pose proof few_names as Hfew. pose proof (Forall2_length _ _ _ (fit_reads _ _ _ Hfit)) as Hlen.
  assert (∀ n, n ∈ inodes (length names) → n = 1 ∨ ∃ i name r, n = Z.of_nat (S i) + 1 ∧ names !! i = Some name ∧ reads !! i = Some r) as Hcase.
  { intros n Hn%elem_of_inodes. destruct (decide (n = 1)) as [->|]; [by left|]. right. exists (Z.to_nat (n - 2)).
    destruct (lookup_lt_is_Some_2 names (Z.to_nat (n - 2))) as [x Hx]; [lia|]. destruct (lookup_lt_is_Some_2 reads (Z.to_nat (n - 2))) as [y Hy]; [lia|].
    exists x, y. split; [lia|done]. }
  destruct root_inode as (R1 & R2 & R3). split.
  - intros b Hb. apply blk_length; [apply HB|]. sizes. lia.
  - intros n [->|(i & name & r & -> & Hn & Hr)]%Hcase; [change 1 with (Z.of_nat 0 + 1); fold (ino 0); by rewrite R1|].
    fold (ino (S i)). destruct (built_file i name r Hn Hr) as (-> & _). done.
  - intros n [->|(i & name & r & -> & Hn & Hr)]%Hcase; [change 1 with (Z.of_nat 0 + 1); fold (ino 0); by rewrite R2|].
    fold (ino (S i)). destruct (built_file i name r Hn Hr) as (_ & -> & _). done.
  - intros n Hn%elem_of_inodes. destruct (iblock_range (Z.to_nat (n - 1))) as [Hr _]; [unfold NFILES; lia|].
    replace (Z.of_nat (Z.to_nat (n - 1)) + 1) with n in Hr by lia. sizes. lia.
  - intros n [->|(i & name & r & -> & Hn & Hr)]%Hcase Hdir.
    + change 1 with (Z.of_nat 0 + 1) in *. fold (ino 0) in *. destruct root_dir as (M1 & M2 & z & Ez). split_and!; [done|done|].
      intros de Hde Hnz. change (de ∈ dir_entries V (ino 0) 0) in Hde. rewrite Ez in Hde. apply elem_of_app in Hde as [Hde|Hde].
      * apply list_elem_of_lookup in Hde as [j Hj]. assert (j < length (root_names names))%nat as Hjl.
        { apply lookup_lt_Some in Hj. unfold root_entries, root_names in *. cbn in *. rewrite length_file_entries in Hj. by rewrite length_fmap. }
        destruct (lookup_lt_is_Some_2 _ _ Hjl) as [x Hx]. destruct (root_entries_ok names j x (fit_names _ _ _ Hfit) ltac:(lia) Hx) as (de' & E' & _ & E2 & _).
        replace de' with de in * by congruence. rewrite E2. apply elem_of_inodes. unfold root_names in Hjl. cbn in Hjl. rewrite length_fmap in Hjl.
        destruct j as [|[|j]]; cbn [root_inum]; lia.
      * apply elem_of_replicate in Hde as [-> _]. done.
    + fold (ino (S i)) in Hdir. destruct (built_file i name r Hn Hr) as (E & _). by rewrite E in Hdir.
Qed.

Lemma built_bitmap bi : 0 ≤ bi < FSSIZE → bit_free bi (V (BBLOCK bi mkfs_sb)) = (freeblock s <=? bi).
Proof.
  intros Hb. destruct (laid_fb _ _ (bt_laid _ _ _ HB)) as (_ & Hmax & Hmin).
  assert (BBLOCK bi mkfs_sb = bmapstart mkfs_sb) as ->.
  { unfold BBLOCK. change (bmapstart mkfs_sb) with 58. unfold BPB, u32. sizes. rewrite (Z.div_small bi) by lia. done. }
  unfold V. rewrite (bt_map _ _ _ HB), used_bits_free by (sizes; lia). by rewrite Z2Nat.id by (sizes; lia).
Qed.
End tree.

(** C8: The image mkfs writes is a file system the kernel can use.  When the
    files on the command line can be read and fit, the names stored for them (cut
    to 14 characters) are distinct, and the root directory does not end at the end
    of a block, mkfs succeeds; the image is a directory tree
    whose root gives, for the name of each file without its leading underscore,
    an inode of type T_FILE whose size and bytes are those of the file, in
    allocated blocks of the disk; and a block is free in the bitmap exactly when
    mkfs has not used it. *)
Theorem mkfs_builds_tree host prog img names reads :
  fits host names reads → ((length names + 2) mod 32 ≠ 0)%nat → NoDup (root_names names) →
  ∃ s, mkfs_main host (prog :: img :: names) mkfs_start = Ret tt s ∧
    let V := blk (image s) in let b := decode_sb (V 1) in
    fs_tree V b (Z.to_nat FSSIZE) (inodes (length names)) ∧
    (∀ i name r, names !! i = Some name → reads !! i = Some r →
      let ip := disk_inode V b (Z.of_nat i + 2) in
      resolve V b false ROOTINO [strip name] = Some (Z.of_nat i + 2) ∧
      itype ip = T_FILE ∧ isize ip = Z.of_nat (length (concat r)) ∧ file_mapped V (Z.to_nat FSSIZE) ip (isize ip) ∧
      file_slice V ip 0 (length (concat r)) = concat r) ∧
    ∀ bi, 0 ≤ bi < FSSIZE → bit_free bi (V (BBLOCK bi b)) = (freeblock s <=? bi).
Proof.
  intros Hfit Hroom Hnd. destruct (mkfs_main_run host prog img names reads Hfit) as (s & E & HB). exists s. split; [done|].
  cbv zeta. rewrite (bt_sb _ _ _ HB), decode_sb_block. split; [by eapply built_tree|split; [|by eapply built_bitmap]].
  intros i name r Hn Hr. destruct (built_file s names reads HB i name r Hn Hr) as (H1 & H2 & H3 & H4 & H5).
  replace (Z.of_nat (S i) + 1) with (Z.of_nat i + 2) in * by lia. clear E. split; [|exact (conj H1 (conj H3 (conj H4 H5)))].
  destruct (root_inode s names reads HB) as (R1 & _). cbn [resolve]. change ROOTINO with (Z.of_nat 0 + 1). rewrite R1. cbn [andb]. fold (stored_name name).
  rewrite (root_finds host s names reads Hfit HB Hroom (S (S i)) (stored_name name) Hnd).
  - change (T_DIR =? T_DIR) with true. cbv iota. f_equal. cbn [root_inum]. lia.
  - change ((stored_name <$> names) !! i = Some (stored_name name)). by rewrite list_lookup_fmap, Hn.
Qed.

Definition ex_host (name : list Z) : option (list (list Z)) :=
  if bool_decide (name = chars "README") then Some [chars "read me"]
  else if bool_decide (name = chars "_cat") then Some [replicate 512 7; chars "tail"] else None.

Definition ex_reads : list (list (list Z)) := [[chars "read me"]; [replicate 512 7; chars "tail"]].

Lemma ex_fits : fits ex_host [chars "README"; chars "_cat"] ex_reads.
Proof.
  assert (∀ (l : list Z) x, forallb (λ y, negb (y =? x)) l = true → x ∉ l) as Hout.
  { intros l x H Hx%list_elem_of_In. rewrite forallb_forall in H. specialize (H x Hx). by rewrite Z.eqb_refl in H. }
  split.
  - repeat constructor; try (by apply Hout); vm_compute; done.
  - repeat constructor; by apply Hout.
  - unfold NFILES. cbn. lia.
  - vm_compute. done.
Qed.

Lemma mkfs_builds_tree_witness :
  ∃ s, mkfs_main ex_host [chars "mkfs"; chars "fs.img"; chars "README"; chars "_cat"] mkfs_start = Ret tt s ∧
    let V := blk (image s) in let b := decode_sb (V 1) in
    fs_tree V b (Z.to_nat FSSIZE) (inodes 2) ∧ resolve V b false ROOTINO [chars "cat"] = Some 3 ∧
    file_slice V (disk_inode V b 3) 0 516 = replicate 512 7 ++ chars "tail".
Proof.
  destruct (mkfs_builds_tree ex_host (chars "mkfs") (chars "fs.img") [chars "README"; chars "_cat"] ex_reads) as (s & E & H1 & H2 & _).
  - exact ex_fits.
  - cbn. lia.
  - apply (bool_decide_unpack _). vm_compute. exact I.
  - exists s. split; [exact E|]. clear E. cbv zeta in *. split; [exact H1|].
    destruct (H2 1%nat (chars "_cat") [replicate 512 7; chars "tail"] eq_refl eq_refl) as (H3 & _ & _ & _ & H4). split; [exact H3|exact H4].
Defined.

(** When the entries fill the last block of the root directory, its rounded size
    covers a block that was never allocated. *)
Lemma mkfs_root_unmapped host prog img names reads :
  fits host names reads → ((length names + 2) mod 32 = 0)%nat →
  ∃ s, mkfs_main host (prog :: img :: names) mkfs_start = Ret tt s ∧
    let V := blk (image s) in let ip := disk_inode V (decode_sb (V 1)) ROOTINO in
    file_block V ip (isize ip / BS - 1) = 0.
Proof.
  intros Hfit Hfull. destruct (mkfs_main_run host prog img names reads Hfit) as (s & E & HB). exists s. split; [done|]. clear E.
  cbv zeta. rewrite (bt_sb _ _ _ HB), decode_sb_block. destruct (root_inode s names reads HB) as (_ & _ & Hs).
  change ROOTINO with (Z.of_nat 0 + 1). rewrite Hs. destruct (root_length host names reads Hfit) as [_ Hl]. pose proof (few_names host names reads Hfit).
  destruct (bt_laid _ _ _ HB) as [_ _ [own HL]]. pose proof (files_of_lookup (image s) (all_files names reads) 0 _ _ eq_refl) as HF.
  apply (fh_unused _ _ _ _ (ly_files _ _ _ _ HL 0 _ HF)); cbn [fcap rest_of]; unfold root_size, data_blocks; rewrite Hl;
    assert (Z.of_nat (length names + 2) mod 32 = 0) as Hr by (rewrite <- (Nat2Z.inj_mod _ 32); lia);
    sizes; rewrite Z.div_mul by done; [|left]; Z.div_mod_to_equations; lia.
Qed.
