(* ===== verification/Segments.v ===== *)
(** * Segments and gates (mmu.h, seginit of vm.c, tvinit of trap.c, lgdt and lidt of x86.h)

    The descriptors as the C bit fields lay them out in 64 bits, and as the
    processor takes them apart.  [seginit] fills the descriptor table of a CPU,
    [tvinit] the interrupt table; the entry points of vectors.S are a
    parameter.

    The theorem: where a trap takes the processor, and who may cause it. *)
From S2P Require Import Prelude Kernel Proc Sysproc.

Local Open Scope Z_scope.

(** ** Bit fields *)

(** The fields of a structure, the first in the lowest bits. *)
Fixpoint pack (fs : list (Z * Z)) : Z :=
  match fs with
  | [] => 0
  | (w, v) :: fs => v mod 2 ^ w + 2 ^ w * pack fs
  end.

(** [w] bits of [x] from bit [o] on. *)
Definition bits (o w x : Z) : Z := (x / 2 ^ o) mod 2 ^ w.

Abbreviation STA_X := (8).
Abbreviation STA_W := (2).
Abbreviation STA_R := (2).
Abbreviation STS_IG32 := (14).
Abbreviation STS_TG32 := (15).
Abbreviation SEG_KCODE := (1).
Abbreviation SEG_KDATA := (2).
Abbreviation SEG_KCPU := (3).
Definition NSEGS : nat := 7.

Record segdesc := mk_segdesc {
  lim_15_0 : Z;
  base_15_0 : Z;
  base_23_16 : Z;
  seg_type : Z;
  seg_s : Z;
  seg_dpl : Z;
  seg_p : Z;
  lim_19_16 : Z;
  avl : Z;
  seg_rsv1 : Z;
  db : Z;
  seg_g : Z;
  base_31_24 : Z
}.

Definition segdesc_bits (d : segdesc) : Z :=
  pack [(16, lim_15_0 d); (16, base_15_0 d); (8, base_23_16 d); (4, seg_type d); (1, seg_s d); (2, seg_dpl d); (1, seg_p d);
        (4, lim_19_16 d); (1, avl d); (1, seg_rsv1 d); (1, db d); (1, seg_g d); (8, base_31_24 d)].

Definition SEG (type base lim dpl : Z) : segdesc :=
  mk_segdesc (Z.land (Z.shiftr lim 12) 65535) (Z.land (u32 base) 65535) (Z.land (Z.shiftr (u32 base) 16) 255) type 1 dpl 1
    (Z.shiftr (u32 lim) 28) 0 0 1 1 (Z.shiftr (u32 base) 24).

Record gatedesc := mk_gatedesc {
  off_15_0 : Z;
  gate_cs : Z;
  gate_args : Z;
  gate_rsv1 : Z;
  gate_type : Z;
  gate_s : Z;
  gate_dpl : Z;
  gate_p : Z;
  off_31_16 : Z
}.

Definition gatedesc_bits (g : gatedesc) : Z :=
  pack [(16, off_15_0 g); (16, gate_cs g); (5, gate_args g); (3, gate_rsv1 g); (4, gate_type g); (1, gate_s g);
        (2, gate_dpl g); (1, gate_p g); (16, off_31_16 g)].

Definition SETGATE (istrap : bool) (sel off d : Z) : gatedesc :=
  mk_gatedesc (Z.land (u32 off) 65535) sel 0 0 (if istrap then STS_TG32 else STS_IG32) 0 d 1 (Z.shiftr (u32 off) 16).

(** ** The tables *)

Definition segdesc0 : segdesc := mk_segdesc 0 0 0 0 0 0 0 0 0 0 0 0 0.
Definition gatedesc0 : gatedesc := mk_gatedesc 0 0 0 0 0 0 0 0 0.

(** The three halfwords lgdt and lidt give to the processor. *)
Definition table_operand (p size : Z) : list Z := [u16 (size - 1); u16 p; u16 (Z.shiftr p 16)].

(** What seginit leaves: the table, its operand of lgdt, the selector in gs and
    the variables cpu and proc of the processor; [c], [cgdt] and [ccpu] are the
    addresses of the CPU's structure, of its table and of its field cpu. *)
Record segments := mk_segments { gdt : list segdesc; gdtr : list Z; gs_sel : Z; cpu_var : Z; proc_var : Z }.

Definition seginit (c cgdt ccpu : Z) (g : list segdesc) : segments :=
  let g := <[Z.to_nat SEG_KCODE := SEG (Z.lor STA_X STA_R) 0 4294967295 0]> g in
  let g := <[Z.to_nat SEG_KDATA := SEG STA_W 0 4294967295 0]> g in
  let g := <[Z.to_nat SEG_UCODE := SEG (Z.lor STA_X STA_R) 0 4294967295 DPL_USER]> g in
  let g := <[Z.to_nat SEG_UDATA := SEG STA_W 0 4294967295 DPL_USER]> g in
  let g := <[Z.to_nat SEG_KCPU := SEG STA_W ccpu 8 0]> g in
  mk_segments g (table_operand cgdt (8 * Z.of_nat (length g))) (Z.shiftl SEG_KCPU 3) c 0.

(** The loop of tvinit over the first [n] entries. *)
Fixpoint set_gates (vectors : nat → Z) (n : nat) (idt : list gatedesc) : list gatedesc :=
  match n with
  | O => idt
  | S n => <[n := SETGATE false (Z.shiftl SEG_KCODE 3) (vectors n) 0]> (set_gates vectors n idt)
  end.

Definition tvinit (vectors : nat → Z) (idt : list gatedesc) : list gatedesc :=
  let idt := set_gates vectors 256 idt in
  <[Z.to_nat T_SYSCALL := SETGATE true (Z.shiftl SEG_KCODE 3) (vectors (Z.to_nat T_SYSCALL)) DPL_USER]> idt.

Definition idtinit (p : Z) : list Z := table_operand p (8 * 256).

(** ** What the processor reads *)

Definition cpu_base (x : Z) : Z := bits 16 24 x + Z.shiftl (bits 56 8 x) 24.
Definition cpu_limit (x : Z) : Z :=
  let lim := bits 0 16 x + Z.shiftl (bits 48 4 x) 16 in
  if bits 55 1 x =? 1 then Z.lor (Z.shiftl lim 12) 4095 else lim.
Definition cpu_type (x : Z) : Z := bits 40 4 x.
Definition cpu_dpl (x : Z) : Z := bits 45 2 x.
Definition cpu_present (x : Z) : bool := bits 47 1 x =? 1.
Definition cpu_entry (x : Z) : Z := bits 0 16 x + Z.shiftl (bits 48 16 x) 16.
Definition cpu_selector (x : Z) : Z := bits 16 16 x.

(** An interrupt gate clears the interrupt flag, a trap gate does not. *)
Definition clears_if (x : Z) : bool := cpu_type x =? 14.

(** The int instruction at privilege level [cpl] may use the gate. *)
Definition may_invoke (cpl x : Z) : bool := cpu_present x && (cpl <=? cpu_dpl x).

Definition widths (fs : list (Z * Z)) : Z := foldr (λ f a, f.1 + a) 0 fs.

Lemma pack_range fs : Forall (λ f, 0 ≤ f.1) fs → 0 ≤ widths fs ∧ 0 ≤ pack fs < 2 ^ widths fs.
Proof.
  induction 1 as [|[w v] fs Hw _ [IH1 IH2]]; cbn [pack widths foldr fst]; [done|]. fold (widths fs). cbn [fst] in Hw.
  pose proof (Z.pow_pos_nonneg 2 w eq_refl Hw). pose proof (Z.mod_pos_bound v (2 ^ w) ltac:(lia)). rewrite Z.pow_add_r by lia. split; [lia|]. nia.
Qed.

(** A field is read at the sum of the widths before it. *)
Lemma bits_pack pre w v post : Forall (λ f, 0 ≤ f.1) pre → 0 ≤ w →
  bits (widths pre) w (pack (pre ++ (w, v) :: post)) = v mod 2 ^ w.
Proof.
  intros Hpre Hw. pose proof (Z.pow_pos_nonneg 2 w eq_refl Hw). unfold bits. induction Hpre as [|[w' v'] pre Hw' Hpre IH]; cbn [app pack widths foldr fst].
  - rewrite Z.div_1_r, (Z.mul_comm (2 ^ w)), Z.mod_add by lia. apply Z.mod_mod. lia.
  - fold (widths pre). cbn [fst] in Hw'. destruct (pack_range pre Hpre) as [Hp _]. pose proof (Z.pow_pos_nonneg 2 w' eq_refl Hw'). pose proof (Z.pow_pos_nonneg 2 (widths pre) eq_refl Hp).
    pose proof (Z.mod_pos_bound v' (2 ^ w') ltac:(lia)). rewrite Z.pow_add_r, <- Z.div_div by lia.
    rewrite (Z.mul_comm (2 ^ w')), Z.div_add, (Z.div_small (v' mod 2 ^ w')), Z.add_0_l by lia. exact IH.
Qed.

Ltac field pre := apply (bits_pack pre); [repeat constructor; cbn; lia|lia].

Lemma gate_fields g :
  let x := gatedesc_bits g in
  cpu_entry x = off_15_0 g mod 65536 + 65536 * (off_31_16 g mod 65536) ∧ cpu_selector x = gate_cs g mod 65536 ∧
  cpu_type x = gate_type g mod 16 ∧ cpu_dpl x = gate_dpl g mod 4 ∧ bits 47 1 x = gate_p g mod 2.
Proof.
  intros x. unfold cpu_entry, cpu_selector, cpu_type, cpu_dpl. split_and!.
  - rewrite Z.shiftl_mul_pow2, Z.mul_comm by lia. f_equal; [field (@nil (Z * Z))|]. f_equal.
    field [(16, off_15_0 g); (16, gate_cs g); (5, gate_args g); (3, gate_rsv1 g); (4, gate_type g); (1, gate_s g); (2, gate_dpl g); (1, gate_p g)].
  - field [(16, off_15_0 g)].
  - field [(16, off_15_0 g); (16, gate_cs g); (5, gate_args g); (3, gate_rsv1 g)].
  - field [(16, off_15_0 g); (16, gate_cs g); (5, gate_args g); (3, gate_rsv1 g); (4, gate_type g); (1, gate_s g)].
  - field [(16, off_15_0 g); (16, gate_cs g); (5, gate_args g); (3, gate_rsv1 g); (4, gate_type g); (1, gate_s g); (2, gate_dpl g)].
Qed.

Lemma halves off : 0 ≤ off < W32 → Z.land (u32 off) 65535 mod 65536 + 65536 * (Z.shiftr (u32 off) 16 mod 65536) = off.
Proof.
  intros H. rewrite u32_small by done. change 65535 with (Z.ones 16). rewrite Z.land_ones, Z.shiftr_div_pow2 by lia.
  change (2 ^ 16) with 65536. unfold W32 in H. Z.div_mod_to_equations. lia.
Qed.

Lemma length_set_gates vectors n idt : length (set_gates vectors n idt) = length idt.
Proof. induction n as [|n IH]; cbn [set_gates]; [done|]. by rewrite length_insert. Qed.

Lemma set_gates_lookup vectors n idt i : (n ≤ length idt)%nat → (i < n)%nat →
  set_gates vectors n idt !! i = Some (SETGATE false (Z.shiftl SEG_KCODE 3) (vectors i) 0).
Proof.
  induction n as [|n IH]; intros Hn Hi; [lia|]. cbn [set_gates]. destruct (decide (i = n)) as [->|Hne].
  - apply list_lookup_insert_eq. rewrite length_set_gates. lia.
  - rewrite list_lookup_insert_ne by done. apply IH; lia.
Qed.

Lemma seg_fields d :
  let x := segdesc_bits d in
  cpu_base x = base_15_0 d mod 65536 + 65536 * (base_23_16 d mod 256) + 16777216 * (base_31_24 d mod 256) ∧
  bits 0 16 x = lim_15_0 d mod 65536 ∧ bits 48 4 x = lim_19_16 d mod 16 ∧ bits 55 1 x = seg_g d mod 2 ∧
  cpu_type x = seg_type d mod 16 ∧ cpu_dpl x = seg_dpl d mod 4 ∧ bits 47 1 x = seg_p d mod 2.
Proof.
  intros x. unfold cpu_base, cpu_type, cpu_dpl. split_and!.
  - assert (bits 16 24 x = bits 16 16 x + 65536 * bits 32 8 x) as ->.
    { unfold bits. set (y := x / 2 ^ 16). replace (x / 2 ^ 32) with (y / 2 ^ 16) by (unfold y; rewrite Z.div_div by done; done).
      change 24 with (16 + 8). rewrite Z.pow_add_r, Z.rem_mul_r by done. done. }
    rewrite Z.shiftl_mul_pow2, (Z.mul_comm _ (2 ^ 24)) by lia. f_equal; [f_equal; [field [(16, lim_15_0 d)]|f_equal; field [(16, lim_15_0 d); (16, base_15_0 d)]]|].
    f_equal. field [(16, lim_15_0 d); (16, base_15_0 d); (8, base_23_16 d); (4, seg_type d); (1, seg_s d); (2, seg_dpl d); (1, seg_p d);
        (4, lim_19_16 d); (1, avl d); (1, seg_rsv1 d); (1, db d); (1, seg_g d)].
  - field (@nil (Z * Z)).
  - field [(16, lim_15_0 d); (16, base_15_0 d); (8, base_23_16 d); (4, seg_type d); (1, seg_s d); (2, seg_dpl d); (1, seg_p d)].
  - field [(16, lim_15_0 d); (16, base_15_0 d); (8, base_23_16 d); (4, seg_type d); (1, seg_s d); (2, seg_dpl d); (1, seg_p d);
        (4, lim_19_16 d); (1, avl d); (1, seg_rsv1 d); (1, db d)].
  - field [(16, lim_15_0 d); (16, base_15_0 d); (8, base_23_16 d)].
  - field [(16, lim_15_0 d); (16, base_15_0 d); (8, base_23_16 d); (4, seg_type d); (1, seg_s d)].
  - field [(16, lim_15_0 d); (16, base_15_0 d); (8, base_23_16 d); (4, seg_type d); (1, seg_s d); (2, seg_dpl d)].
Qed.

Lemma byte_parts base : 0 ≤ base < W32 →
  Z.land (u32 base) 65535 mod 65536 + 65536 * (Z.land (Z.shiftr (u32 base) 16) 255 mod 256) + 16777216 * (Z.shiftr (u32 base) 24 mod 256) = base.
Proof.
  intros H. rewrite u32_small by done. change 65535 with (Z.ones 16). change 255 with (Z.ones 8). rewrite !Z.land_ones, !Z.shiftr_div_pow2 by lia.
  change (2 ^ 16) with 65536. change (2 ^ 24) with 16777216. change (2 ^ 8) with 256. unfold W32 in H. Z.div_mod_to_equations. lia.
Qed.

(** A descriptor made with SEG has the base, the type and the privilege level
    it was given, and its limit rounded up to the end of a page. *)
Lemma SEG_decodes type base lim dpl :
  0 ≤ base < W32 → 0 ≤ lim < W32 → 0 ≤ type < 16 → 0 ≤ dpl < 4 →
  let x := segdesc_bits (SEG type base lim dpl) in
  cpu_base x = base ∧ cpu_limit x = Z.lor (Z.shiftl (Z.shiftr lim 12) 12) 4095 ∧ cpu_type x = type ∧ cpu_dpl x = dpl ∧ cpu_present x = true.
Proof.
  intros Hb Hl Ht Hd x. destruct (seg_fields (SEG type base lim dpl)) as (E1 & E2 & E3 & E4 & E5 & E6 & E7). fold x in E1, E2, E3, E4, E5, E6, E7.
  cbn [SEG base_15_0 base_23_16 base_31_24 lim_15_0 lim_19_16 seg_g seg_type seg_dpl seg_p] in *. split_and!.
  - rewrite E1. by apply byte_parts.
  - unfold cpu_limit. rewrite E4, E2, E3. change (1 mod 2 =? 1) with true. cbv iota zeta. do 2 f_equal. rewrite Z.shiftl_mul_pow2 by lia.
    rewrite u32_small by done. change 65535 with (Z.ones 16). rewrite Z.land_ones, !Z.shiftr_div_pow2 by lia.
    change (2 ^ 16) with 65536. change (2 ^ 12) with 4096. change (2 ^ 28) with 268435456. unfold W32 in *. Z.div_mod_to_equations. lia.
  - rewrite E5. by apply Z.mod_small.
  - rewrite E6. by apply Z.mod_small.
  - unfold cpu_present. by rewrite E7.
Qed.

(** A segment that covers the whole address space. *)
Definition flat (x : Z) : Prop := cpu_base x = 0 ∧ cpu_limit x = 4294967295 ∧ cpu_present x = true.

Lemma SEG_flat type dpl : 0 ≤ type < 16 → 0 ≤ dpl < 4 →
  let x := segdesc_bits (SEG type 0 4294967295 dpl) in flat x ∧ cpu_type x = type ∧ cpu_dpl x = dpl.
Proof.
  intros Ht Hd. destruct (SEG_decodes type 0 4294967295 dpl) as (E1 & E2 & E3 & E4 & E5); [done|done|done|done|]. done.
Qed.

(** The table of seginit: flat code and data segments for the kernel and for
    user programs, and the segment of the processor's variables. *)
Lemma seginit_table c cgdt ccpu g : length g = NSEGS → 0 ≤ ccpu < W32 →
  let t := gdt (seginit c cgdt ccpu g) in
  (∀ k type dpl, (k, type, dpl) ∈ [(1, 10, 0); (2, 2, 0); (4, 10, 3); (5, 2, 3)]%Z →
     ∃ d, t !! Z.to_nat k = Some d ∧ flat (segdesc_bits d) ∧ cpu_type (segdesc_bits d) = type ∧ cpu_dpl (segdesc_bits d) = dpl) ∧
  ∃ d, t !! Z.to_nat SEG_KCPU = Some d ∧ cpu_base (segdesc_bits d) = ccpu ∧ cpu_dpl (segdesc_bits d) = 0.
Proof.
  intros Hl Hc t. destruct g as [|d0 [|d1 [|d2 [|d3 [|d4 [|d5 [|d6 [|]]]]]]]]; try discriminate Hl. split.
  - intros k type dpl Hin. rewrite !elem_of_cons, elem_of_nil in Hin.
    destruct Hin as [[= -> -> ->]|[[= -> -> ->]|[[= -> -> ->]|[[= -> -> ->]|[]]]]]; eexists; (split; [reflexivity|]); by apply SEG_flat.
  - eexists. split; [reflexivity|]. by destruct (SEG_decodes STA_W ccpu 8 0) as (E1 & _ & _ & E4 & _).
Qed.

(** C12: Traps.  With the interrupt table of tvinit and the segments of seginit,
    every vector takes the processor to its own entry point, in a flat code
    segment of privilege level 0.  A user program (level 3) can use the system
    call entry with an int instruction and no other, and every entry but that one
    turns interrupts off. *)
Theorem tvinit_protects vectors idt i c cgdt ccpu g :
  length idt = 256%nat → (i < 256)%nat → 0 ≤ vectors i < W32 → length g = NSEGS → 0 ≤ ccpu < W32 →
  ∃ e d, tvinit vectors idt !! i = Some e ∧ let x := gatedesc_bits e in
    gdt (seginit c cgdt ccpu g) !! Z.to_nat (cpu_selector x / 8) = Some d ∧ let y := segdesc_bits d in
    cpu_entry x = vectors i ∧ cpu_present x = true ∧ flat y ∧ cpu_dpl y = 0 ∧ Z.testbit (cpu_type y) 3 = true ∧
    may_invoke DPL_USER x = bool_decide (i = Z.to_nat T_SYSCALL) ∧
    clears_if x = negb (bool_decide (i = Z.to_nat T_SYSCALL)).
Proof.
  intros Hl Hi Hv Hg Hc. destruct (proj1 (seginit_table c cgdt ccpu g Hg Hc) 1 10 0 ltac:(set_solver)) as (d & Ed & Hflat & Htype & Hdpl).
  unfold tvinit. set (j := Z.to_nat T_SYSCALL). destruct (decide (i = j)) as [->|Hne].
  - eexists _, d. split; [apply list_lookup_insert_eq; rewrite length_set_gates; unfold j; cbn; lia|].
    set (e := SETGATE _ _ _ _). destruct (gate_fields e) as (E1 & E2 & E3 & E4 & E5). cbv zeta. unfold may_invoke, clears_if, cpu_present.
    rewrite E1, E2, E3, E4, E5, Htype, bool_decide_true by done. split_and!; try done. by apply halves.
  - eexists _, d. split; [rewrite list_lookup_insert_ne by done; apply set_gates_lookup; lia|].
    set (e := SETGATE _ _ _ _). destruct (gate_fields e) as (E1 & E2 & E3 & E4 & E5). cbv zeta. unfold may_invoke, clears_if, cpu_present.
    rewrite E1, E2, E3, E4, E5, Htype, bool_decide_false by done. split_and!; try done. by apply halves.
Qed.

Lemma tvinit_protects_witness :
  ∃ e d, tvinit (λ n, 2148532224 + 10 * Z.of_nat n) (replicate 256 gatedesc0) !! 14%nat = Some e ∧ let x := gatedesc_bits e in
    gdt (seginit 2148600000 2148600100 2148600200 (replicate NSEGS segdesc0)) !! Z.to_nat (cpu_selector x / 8) = Some d ∧ let y := segdesc_bits d in
    cpu_entry x = 2148532364 ∧ cpu_present x = true ∧ flat y ∧ cpu_dpl y = 0 ∧ Z.testbit (cpu_type y) 3 = true ∧
    may_invoke DPL_USER x = false ∧ clears_if x = true.
Proof.
  apply (tvinit_protects (λ n, 2148532224 + 10 * Z.of_nat n) (replicate 256 gatedesc0) 14 2148600000 2148600100 2148600200 (replicate NSEGS segdesc0));
    [reflexivity|lia|unfold W32; lia|reflexivity|unfold W32; lia].
Defined.
