(* ===== verification/Mp.v ===== *)
(** * Multiprocessor tables (mp.c)

    The tables the BIOS leaves in memory, which mpinit reads to find the
    processors: the floating pointer structure, the configuration table and its
    entries.  [mpst] is the variables mp.c sets; the memory is only read.  The
    value of port 0x23 is a parameter.

    The theorem: mpinit numbers the processors of the table in order; a lemma
    shows that an entry of an unknown type stops it for ever. *)
From S2P Require Import Prelude Kernel CString Format Bytes Spinlock.

Local Open Scope Z_scope.
Local Open Scope kernel_scope.

Definition NCPU : nat := 8.
Definition MP_SIZE : Z := 16.         (* sizeof(struct mp) *)
Definition MPCONF_SIZE : Z := 44.
Definition MPPROC_SIZE : Z := 20.
Definition MPIOAPIC_SIZE : Z := 8.
Abbreviation MPBOOT := (2).
Abbreviation MPPROC := (0).
Abbreviation MPBUS := (1).
Abbreviation MPIOAPIC := (2).
Abbreviation MPIOINTR := (3).
Abbreviation MPLINTR := (4).

Record mpst := mk_mpst {
  cpu_ids : list Z;                   (* cpus[].id *)
  bcpu : Z;                           (* index of the boot processor *)
  ismp : Z;
  ncpu : Z;
  ioapicid : Z;
  lapic : Z;
  mp_out : list Z;                    (* the text cprintf printed *)
  mp_ports : list (Z * Z)             (* the bytes written to ports *)
}.

Definition set_cpu_ids (v : list Z) (x : mpst) : mpst :=
  mk_mpst v (bcpu x) (ismp x) (ncpu x) (ioapicid x) (lapic x) (mp_out x) (mp_ports x).
Definition set_bcpu (v : Z) (x : mpst) : mpst :=
  mk_mpst (cpu_ids x) v (ismp x) (ncpu x) (ioapicid x) (lapic x) (mp_out x) (mp_ports x).
Definition set_ismp (v : Z) (x : mpst) : mpst :=
  mk_mpst (cpu_ids x) (bcpu x) v (ncpu x) (ioapicid x) (lapic x) (mp_out x) (mp_ports x).
Definition set_ncpu (v : Z) (x : mpst) : mpst :=
  mk_mpst (cpu_ids x) (bcpu x) (ismp x) v (ioapicid x) (lapic x) (mp_out x) (mp_ports x).
Definition set_ioapicid (v : Z) (x : mpst) : mpst :=
  mk_mpst (cpu_ids x) (bcpu x) (ismp x) (ncpu x) v (lapic x) (mp_out x) (mp_ports x).
Definition set_lapic (v : Z) (x : mpst) : mpst :=
  mk_mpst (cpu_ids x) (bcpu x) (ismp x) (ncpu x) (ioapicid x) v (mp_out x) (mp_ports x).
Definition set_mp_out (v : list Z) (x : mpst) : mpst :=
  mk_mpst (cpu_ids x) (bcpu x) (ismp x) (ncpu x) (ioapicid x) (lapic x) v (mp_ports x).
Definition set_mp_ports (v : list (Z * Z)) (x : mpst) : mpst :=
  mk_mpst (cpu_ids x) (bcpu x) (ismp x) (ncpu x) (ioapicid x) (lapic x) (mp_out x) v.

Definition mpst0 : mpst := mk_mpst (replicate NCPU 0) 0 0 0 0 0 [] [].

Definition mpbcpu (s : mpst) : Z := bcpu s.

Section mp.
  Variable m : mem.
  Variable inb23 : Z.

Definition bytes_at (p : Z) (n : nat) : list Z := (λ i, m (p + Z.of_nat i)) <$> seq 0 n.
Definition half_at (p : Z) : Z := le_combine (bytes_at p 2).
Definition word_at (p : Z) : Z := le_combine (bytes_at p 4).

Definition sum (addr : Z) (len : nat) : Z := u8 (foldr Z.add 0 (bytes_at addr len)).

(** memcmp(p, sig, 4) == 0 *)
Definition sig_at (p : Z) (sig : string) : bool := bool_decide (bytes_at p 4 = chars sig).

Definition mp_at (p : Z) : bool := sig_at p "_MP_" && (sum p (Z.to_nat MP_SIZE) =? 0).

(** The loop of mpsearch1: [n] bounds the number of candidates. *)
Fixpoint mpsearch1_loop (n : nat) (p e : Z) : option Z :=
  match n with
  | O => None
  | S n => if p <? e then if mp_at p then Some p else mpsearch1_loop n (p + MP_SIZE) e else None
  end.

Definition mpsearch1 (a len : Z) : option Z :=
  let addr := u32 (a + KERNBASE) in
  mpsearch1_loop (S (Z.to_nat (len / MP_SIZE))) addr (addr + len).

Definition mpsearch : option Z :=
  let bda := KERNBASE + 1024 in
  let p := Z.shiftl (Z.lor (Z.shiftl (m (bda + 15)) 8) (m (bda + 14))) 4 in
  let last := mpsearch1 983040 65536 in
  if negb (p =? 0) then
    match mpsearch1 p 1024 with
    | Some mp => Some mp
    | None => last
    end
  else
    let p := Z.lor (Z.shiftl (m (bda + 20)) 8) (m (bda + 19)) * 1024 in
    match mpsearch1 (u32 (p - 1024)) 1024 with
    | Some mp => Some mp
    | None => last
    end.

(** The floating pointer structure and the configuration table. *)
Definition mpconfig : option (Z * Z) :=
  match mpsearch with
  | None => None
  | Some mp =>
      let physaddr := word_at (mp + 4) in
      if physaddr =? 0 then None
      else
        let conf := u32 (physaddr + KERNBASE) in
        let version := m (conf + 6) in
        if negb (sig_at conf "PCMP") then None
        else if negb (version =? 1) && negb (version =? 4) then None
        else if negb (sum conf (Z.to_nat (half_at (conf + 4))) =? 0) then None
        else Some (mp, conf)
  end.

Definition mp_printf (fmt : string) (args : list Z) : M mpst unit :=
  modify (λ s, set_mp_out (mp_out s ++ format (λ _, []) (λ k, default 0 (args !! k)) 0 (chars fmt ++ [10])) s).

Definition mp_outb (port data : Z) : M mpst unit :=
  modify (λ s, set_mp_ports (mp_ports s ++ [(port, u8 data)]) s).

(** The entry of a processor; an index past the end of cpus is a panic, as
    what the write changes in memory is not modelled. *)
Definition mpproc (apicid flags : Z) : M mpst unit :=
  n <- gets ncpu;;
  when (negb (n =? apicid)) do
    (mp_printf "mpinit: ncpu=%d apicid=%d" [n; apicid];; modify (set_ismp 0));;
  when (negb (Z.land flags MPBOOT =? 0)) do modify (set_bcpu n);;
  when (Z.of_nat NCPU <=? n) do panic "cpus";;
  modify (λ s, set_cpu_ids (<[Z.to_nat n := n]> (cpu_ids s)) s);;
  modify (set_ncpu (n + 1)).

Fixpoint mpinit_loop (fuel : nat) (p e : Z) : M mpst unit :=
  match fuel with
  | O => nofuel
  | S fuel =>
      if p <? e then
        let t := m p in
        if t =? MPPROC then mpproc (m (p + 1)) (m (p + 3));; mpinit_loop fuel (p + MPPROC_SIZE) e
        else if t =? MPIOAPIC then modify (set_ioapicid (m (p + 1)));; mpinit_loop fuel (p + MPIOAPIC_SIZE) e
        else if (t =? MPBUS) || (t =? MPIOINTR) || (t =? MPLINTR) then mpinit_loop fuel (p + 8) e
        else mp_printf "mpinit: unknown config type %x" [t];; modify (set_ismp 0);; mpinit_loop fuel p e
      else ret tt
  end.

Definition mpinit (fuel : nat) : M mpst unit :=
  modify (set_bcpu 0);;
  match mpconfig with
  | None => ret tt
  | Some (mp, conf) =>
      modify (set_ismp 1);;
      modify (set_lapic (word_at (conf + 36)));;
      mpinit_loop fuel (conf + MPCONF_SIZE) (conf + half_at (conf + 4));;
      b <- gets ismp;;
      if b =? 0 then
        modify (set_ncpu 1);;
        modify (set_lapic 0);;
        modify (set_ioapicid 0)
      else
        when (negb (m (mp + 12) =? 0)) do
          (mp_outb 34 112;; mp_outb 35 (Z.lor inb23 1))
  end.

(** ** The search *)

(** The candidates of mpsearch1: every 16 bytes from [addr] on. *)
Lemma mpsearch1_loop_spec n p e : e ≤ p + MP_SIZE * Z.of_nat n →
  match mpsearch1_loop n p e with
  | Some q => ∃ k, 0 ≤ k ∧ q = p + MP_SIZE * k ∧ q < e ∧ mp_at q = true ∧ ∀ j, 0 ≤ j < k → mp_at (p + MP_SIZE * j) = false
  | None => ∀ j, 0 ≤ j → p + MP_SIZE * j < e → mp_at (p + MP_SIZE * j) = false
  end.
Proof.
  unfold MP_SIZE. revert p. induction n as [|n IH]; intros p He; cbn [mpsearch1_loop]; [intros; lia|].
  destruct (p <? e) eqn:Ep; bools; [|intros; lia]. destruct (mp_at p) eqn:Em.
  { exists 0. split_and!; try done; lia. }
  specialize (IH (p + 16) ltac:(lia)). unfold MP_SIZE. destruct (mpsearch1_loop n (p + 16) e) as [q|].
  - destruct IH as (k & Hk & -> & Hq & Hm & Hn). exists (k + 1). split_and!; [lia|lia|lia|done|]. intros j Hj.
    destruct (decide (j = 0)) as [->|]; [by rewrite Z.add_0_r|]. replace (p + 16 * j) with (p + 16 + 16 * (j - 1)) by lia. apply Hn. lia.
  - intros j Hj Hlt. destruct (decide (j = 0)) as [->|]; [by rewrite Z.add_0_r|]. replace (p + 16 * j) with (p + 16 + 16 * (j - 1)) by lia. apply IH; lia.
Qed.

(** ** Tables *)

Inductive entry :=
| EProc (apicid flags : Z)
| EIoapic (apicno : Z)
| EOther (t : Z).

(** The entries between two addresses. *)
Fixpoint entries_at (p : Z) (es : list entry) (e : Z) : Prop :=
  match es with
  | [] => p = e
  | EProc a f :: es => p < e ∧ m p = MPPROC ∧ m (p + 1) = a ∧ m (p + 3) = f ∧ entries_at (p + MPPROC_SIZE) es e
  | EIoapic a :: es => p < e ∧ m p = MPIOAPIC ∧ m (p + 1) = a ∧ entries_at (p + MPIOAPIC_SIZE) es e
  | EOther t :: es => p < e ∧ m p = t ∧ t ∈ [MPBUS; MPIOINTR; MPLINTR] ∧ entries_at (p + 8) es e
  end.

(** The processors of a table, in order. *)
Definition procs (es : list entry) : list (Z * Z) :=
  omap (λ x, match x with EProc a f => Some (a, f) | _ => None end) es.

Definition last_ioapic (es : list entry) (d : Z) : Z :=
  foldl (λ d x, match x with EIoapic a => a | _ => d end) d es.

(** The last processor with the boot flag. *)
Definition boot_cpu (n : Z) (ps : list (Z * Z)) (d : Z) : Z :=
  (foldl (λ '(n, d) p, (n + 1, if Z.land p.2 MPBOOT =? 0 then d else n)) (n, d) ps).2.

(** The APIC ids are the numbers from [n] on. *)
Definition numbered (n : Z) (ps : list (Z * Z)) : bool :=
  bool_decide (ps.*1 = (λ k, n + Z.of_nat k) <$> seq 0 (length ps)).

Definition mark (n : nat) (ids : list Z) (c : nat) : list Z :=
  foldl (λ ids k, <[k := Z.of_nat k]> ids) ids (seq n c).

(** The state after the entries, apart from the messages. *)
Record scanned (s s' : mpst) (es : list entry) : Prop := {
  sc_ncpu : ncpu s' = ncpu s + Z.of_nat (length (procs es));
  sc_ismp : ismp s' = if numbered (ncpu s) (procs es) then ismp s else 0;
  sc_bcpu : bcpu s' = boot_cpu (ncpu s) (procs es) (bcpu s);
  sc_ids : cpu_ids s' = mark (Z.to_nat (ncpu s)) (cpu_ids s) (length (procs es));
  sc_ioapic : ioapicid s' = last_ioapic es (ioapicid s);
  sc_lapic : lapic s' = lapic s;
  sc_ports : mp_ports s' = mp_ports s
}.

Lemma numbered_cons n a f ps : numbered n ((a, f) :: ps) = (n =? a) && numbered (n + 1) ps.
Proof.
  unfold numbered. cbn [fmap list_fmap fst length seq]. rewrite <- fmap_S_seq, <- list_fmap_compose.
  apply eq_bool_prop_intro. rewrite bool_decide_spec, andb_True, bool_decide_spec, Is_true_true, Z.eqb_eq.
  assert (((λ k, n + Z.of_nat k) ∘ S <$> seq 0 (length ps)) = ((λ k, n + 1 + Z.of_nat k) <$> seq 0 (length ps))) as ->
    by (apply list_fmap_ext; intros ? k _; cbn; lia).
  rewrite Z.add_0_r. split; [intros [= -> ->]; done|intros [-> ->]; done].
Qed.

Lemma scanned_refl s : scanned s s [].
Proof. split; cbn; try done; lia. Qed.

Lemma mpproc_run a f s : 0 ≤ ncpu s < Z.of_nat NCPU →
  ∃ s1, mpproc a f s = Ret tt s1 ∧ ncpu s1 = ncpu s + 1 ∧ ismp s1 = (if ncpu s =? a then ismp s else 0) ∧
    bcpu s1 = (if Z.land f MPBOOT =? 0 then bcpu s else ncpu s) ∧ cpu_ids s1 = <[Z.to_nat (ncpu s) := ncpu s]> (cpu_ids s) ∧
    ioapicid s1 = ioapicid s ∧ lapic s1 = lapic s ∧ mp_ports s1 = mp_ports s.
Proof.
  intros Hn. unfold mpproc, bind, gets, mp_printf, modify, ret, panic. cbn [obind].
  rewrite (proj2 (Z.leb_gt (Z.of_nat NCPU) (ncpu s))) by lia. destruct (ncpu s =? a), (Z.land f MPBOOT =? 0); cbn [negb obind]; eexists; (split; [reflexivity|]); by split_and!.
Qed.

Lemma scanned_proc s s1 s2 a f es :
  ncpu s1 = ncpu s + 1 → ismp s1 = (if ncpu s =? a then ismp s else 0) → bcpu s1 = (if Z.land f MPBOOT =? 0 then bcpu s else ncpu s) →
  cpu_ids s1 = <[Z.to_nat (ncpu s) := ncpu s]> (cpu_ids s) → ioapicid s1 = ioapicid s → lapic s1 = lapic s → mp_ports s1 = mp_ports s → 0 ≤ ncpu s →
  scanned s1 s2 es → scanned s s2 (EProc a f :: es).
Proof.
  intros E1 E2 E3 E4 E5 E6 E7 Hn [H1 H2 H3 H4 H5 H6 H7]. split; cbn [procs omap list_omap last_ioapic foldl]; fold (procs es); cbn [length].
  - lia.
  - rewrite numbered_cons, H2, E1, E2. destruct (ncpu s =? a); cbn [andb]; [done|]. by destruct (numbered (ncpu s + 1) (procs es)).
  - rewrite H3, E1, E3. done.
  - rewrite H4, E1, E4. unfold mark. cbn [seq foldl]. rewrite Z2Nat.id by lia. do 2 f_equal. lia.
  - by rewrite H5, E5.
  - congruence.
  - congruence.
Qed.

Lemma mpinit_loop_run es : ∀ fuel p e s,
  entries_at p es e → (length es < fuel)%nat → 0 ≤ ncpu s → ncpu s + Z.of_nat (length (procs es)) ≤ Z.of_nat NCPU →
  ∃ s', mpinit_loop fuel p e s = Ret tt s' ∧ scanned s s' es.
Proof.
  induction es as [|x es IH]; intros fuel p e s Hes Hf Hn Hc; destruct fuel as [|fuel]; [cbn in Hf; lia| |cbn in Hf; lia|]; cbn [mpinit_loop length] in *.
  { cbn in Hes. subst e. rewrite Z.ltb_irrefl. exists s. split; [done|apply scanned_refl]. }
  destruct x as [a f|a|t]; cbn [entries_at procs omap list_omap] in Hes, Hc; fold (procs es) in Hc; cbn [length] in Hc.
  - destruct Hes as (Hlt & Ht & Ha & Hfl & Hes). rewrite (proj2 (Z.ltb_lt p e)), Ht, Ha, Hfl by done. change (MPPROC =? MPPROC) with true. cbv iota zeta.
    destruct (mpproc_run a f s) as (s1 & E & E1 & E2 & E3 & E4 & E5 & E6 & E7); [lia|]. rewrite (bind_Ret _ _ _ _ _ E).
    destruct (IH fuel _ e s1 Hes) as (s2 & R & Hs); [lia|lia|lia|]. exists s2. split; [done|]. by eapply scanned_proc.
  - destruct Hes as (Hlt & Ht & Ha & Hes). rewrite (proj2 (Z.ltb_lt p e)), Ht, Ha by done. change (MPIOAPIC =? MPPROC) with false.
    change (MPIOAPIC =? MPIOAPIC) with true. cbv iota zeta. unfold bind at 1, modify at 1. cbn [obind].
    destruct (IH fuel _ e (set_ioapicid a s) Hes) as (s2 & R & [H1 H2 H3 H4 H5 H6 H7]); [lia|done|done|]. exists s2. split; [done|]. by split.
  - destruct Hes as (Hlt & Ht & Hin & Hes). rewrite (proj2 (Z.ltb_lt p e)), Ht by done.
    assert (t =? MPPROC = false ∧ t =? MPIOAPIC = false ∧ (t =? MPBUS) || (t =? MPIOINTR) || (t =? MPLINTR) = true) as (-> & -> & ->).
    { rewrite !elem_of_cons, elem_of_nil in Hin. destruct Hin as [->|[->|[->|[]]]]; split_and!; reflexivity. }
    cbv iota zeta. destruct (IH fuel _ e s Hes) as (s2 & R & [H1 H2 H3 H4 H5 H6 H7]); [lia|done|done|]. exists s2. split; [done|]. by split.
Qed.

(** C29: mpinit reads the configuration table.  When the table is a sequence of
    known entries with at most NCPU processors, mpinit ends; the machine is taken
    as a multiprocessor exactly when the APIC ids of the processors are 0, 1, 2
    and so on, and then ncpu is their number, the i-th CPU has id i, the boot
    processor is the last one flagged so and the I/O APIC the last one listed;
    otherwise it falls back to one processor without APICs. *)
Theorem mpinit_counts es fuel mp conf :
  mpconfig = Some (mp, conf) → entries_at (conf + MPCONF_SIZE) es (conf + half_at (conf + 4)) →
  (length (procs es) ≤ NCPU)%nat → (length es < fuel)%nat →
  ∃ s, mpinit fuel mpst0 = Ret tt s ∧
    if numbered 0 (procs es)
    then ismp s = 1 ∧ ncpu s = Z.of_nat (length (procs es)) ∧ lapic s = word_at (conf + 36) ∧ ioapicid s = last_ioapic es 0 ∧
      mpbcpu s = boot_cpu 0 (procs es) 0 ∧ cpu_ids s = mark 0 (replicate NCPU 0) (length (procs es))
    else ismp s = 0 ∧ ncpu s = 1 ∧ lapic s = 0 ∧ ioapicid s = 0.
Proof.
  intros Hc Hes Hn Hf. unfold mpinit. unfold bind at 1, modify at 1. cbn [obind]. rewrite Hc.
  unfold bind at 1, modify at 1. cbn [obind]. unfold bind at 1, modify at 1. cbn [obind]. set (s1 := set_lapic _ _).
  destruct (mpinit_loop_run es fuel _ _ s1 Hes Hf) as (s2 & E & [H1 H2 H3 H4 H5 H6 H7]); [done|cbn; lia|]. rewrite (bind_Ret _ _ _ _ _ E). clear E.
  cbn [ncpu ismp bcpu cpu_ids ioapicid lapic s1 set_lapic set_ismp set_bcpu mpst0] in H1, H2, H3, H4, H5, H6.
  unfold bind at 1, gets at 1. cbn [obind]. rewrite H2. destruct (numbered 0 (procs es)).
  - change (1 =? 0) with false. cbv iota. destruct (negb (m (mp + 12) =? 0)); unfold bind, mp_outb, modify, ret; cbn [obind]; eexists; (split; [done|]);
      unfold mpbcpu; cbn; rewrite ?H1, ?H2, ?H3, ?H4, ?H5, ?H6; done.
  - change (0 =? 0) with true. cbv iota. unfold bind, modify. cbn [obind]. eexists. split; [done|]. cbn. by rewrite H2.
Qed.

(** An entry of another type: mpinit prints its message for ever. *)
Lemma mpinit_loop_stuck fuel p e s : p < e → m p ∉ [MPPROC; MPBUS; MPIOAPIC; MPIOINTR; MPLINTR] → ∃ s', mpinit_loop fuel p e s = NoFuel s'.
Proof.
  intros Hlt Hm. revert s. induction fuel as [|fuel IH]; intros s; cbn [mpinit_loop]; [by eexists|]. rewrite (proj2 (Z.ltb_lt p e)) by done.
  rewrite !not_elem_of_cons in Hm. destruct Hm as (H1 & H2 & H3 & H4 & H5 & _).
  rewrite !(proj2 (Z.eqb_neq (m p) _)) by done. cbn [orb]. unfold bind, mp_printf, modify. cbn [obind]. apply IH.
Qed.
End mp.

(** ** An example: two processors *)

Definition with_checksum (o : nat) (l : list Z) : list Z := <[o := u8 (- foldr Z.add 0 l)]> l.

Definition ex_float : list Z :=
  with_checksum 10 (chars "_MP_" ++ le_split 4 1003520 ++ [1; 4; 0; 0; 0; 0; 0; 0]).

Definition ex_entries : list entry := [EProc 0 3; EProc 1 1; EOther MPBUS; EIoapic 2].

Definition ex_table : list Z :=
  with_checksum 7 (chars "PCMP" ++ le_split 2 100 ++ [4; 0] ++ replicate 20 32 ++ le_split 4 0 ++ le_split 2 0 ++ le_split 2 4 ++
    le_split 4 4276092928 ++ replicate 4 0 ++
    ([0; 0; 20; 3] ++ replicate 16 0) ++ ([0; 1; 20; 1] ++ replicate 16 0) ++ (1 :: replicate 7 0) ++ ([2; 2; 17; 1] ++ replicate 4 0)).

Definition place (a : Z) (l : list Z) (m : mem) : mem := λ x,
  if (a <=? x) && (x <? a + Z.of_nat (length l)) then default 0 (l !! Z.to_nat (x - a)) else m x.

Definition ex_mp_mem : mem :=
  place (KERNBASE + 1038) [192; 159] (place (KERNBASE + 654336) ex_float (place (KERNBASE + 1003520) ex_table (λ _, 0))).

Lemma mpinit_counts_witness :
  ∃ s, mpinit ex_mp_mem 0 10 mpst0 = Ret tt s ∧ ismp s = 1 ∧ ncpu s = 2 ∧ lapic s = 4276092928 ∧ ioapicid s = 2 ∧
    mpbcpu s = 0 ∧ cpu_ids s = [0; 1; 0; 0; 0; 0; 0; 0].
Proof.
  apply (mpinit_counts ex_mp_mem 0 ex_entries 10 (KERNBASE + 654336) (KERNBASE + 1003520)).
  - vm_compute. reflexivity.
  - vm_compute. repeat (split; [reflexivity|]). split_and!; try reflexivity. by left.
  - vm_compute. lia.
  - cbn. lia.
Defined.
