(* ===== verification/Devices.v ===== *)
(** * Interrupt controllers, timer and serial port (picirq.c, ioapic.c, timer.c,
      lapic.c, uartinit of uart.c)

    [devst] holds the variables of the drivers, the registers of the I/O APIC
    and, in order, the bytes written to ports and the words written to the local
    APIC.  Reads of ports and of the local APIC are parameters, functions of the
    number of reads so far.

    The theorem: which interrupts the I/O APIC delivers where; a lemma has the
    masks of the 8259A. *)
From S2P Require Import Prelude Kernel Format Spinlock Sysproc.

Local Open Scope Z_scope.
Local Open Scope kernel_scope.

Record devst := mk_devst {
  irqmask : Z;
  outs : list (Z * Z);                (* outb *)
  ioreg : Z;                          (* ioapic->reg *)
  iodata : Z → Z;                     (* the registers behind ioapic->data *)
  lwrites : list (Z * Z);             (* lapic[index] = value *)
  reads : nat;
  uart : Z;
  dev_out : list Z;                   (* cprintf *)
  wrv : list Z;                       (* the warm reset vector *)
  warned : Z                          (* static n of cpunum *)
}.

Definition set_irqmask (v : Z) (x : devst) : devst :=
  mk_devst v (outs x) (ioreg x) (iodata x) (lwrites x) (reads x) (uart x) (dev_out x) (wrv x) (warned x).
Definition set_outs (v : list (Z * Z)) (x : devst) : devst :=
  mk_devst (irqmask x) v (ioreg x) (iodata x) (lwrites x) (reads x) (uart x) (dev_out x) (wrv x) (warned x).
Definition set_ioreg (v : Z) (x : devst) : devst :=
  mk_devst (irqmask x) (outs x) v (iodata x) (lwrites x) (reads x) (uart x) (dev_out x) (wrv x) (warned x).
Definition set_iodata (v : Z → Z) (x : devst) : devst :=
  mk_devst (irqmask x) (outs x) (ioreg x) v (lwrites x) (reads x) (uart x) (dev_out x) (wrv x) (warned x).
Definition set_lwrites (v : list (Z * Z)) (x : devst) : devst :=
  mk_devst (irqmask x) (outs x) (ioreg x) (iodata x) v (reads x) (uart x) (dev_out x) (wrv x) (warned x).
Definition set_reads (v : nat) (x : devst) : devst :=
  mk_devst (irqmask x) (outs x) (ioreg x) (iodata x) (lwrites x) v (uart x) (dev_out x) (wrv x) (warned x).
Definition set_uart (v : Z) (x : devst) : devst :=
  mk_devst (irqmask x) (outs x) (ioreg x) (iodata x) (lwrites x) (reads x) v (dev_out x) (wrv x) (warned x).
Definition set_dev_out (v : list Z) (x : devst) : devst :=
  mk_devst (irqmask x) (outs x) (ioreg x) (iodata x) (lwrites x) (reads x) (uart x) v (wrv x) (warned x).
Definition set_wrv (v : list Z) (x : devst) : devst :=
  mk_devst (irqmask x) (outs x) (ioreg x) (iodata x) (lwrites x) (reads x) (uart x) (dev_out x) v (warned x).
Definition set_warned (v : Z) (x : devst) : devst :=
  mk_devst (irqmask x) (outs x) (ioreg x) (iodata x) (lwrites x) (reads x) (uart x) (dev_out x) (wrv x) v.

Definition outb (port data : Z) : M devst unit := modify (λ s, set_outs (outs s ++ [(port, u8 data)]) s).

(** ** The 8259A controllers (picirq.c) *)

Abbreviation IO_PIC1 := (32).
Abbreviation IO_PIC2 := (160).
Abbreviation IRQ_SLAVE := (2).
Definition irqmask0 : Z := Z.land 65535 (Z.lnot (Z.shiftl 1 IRQ_SLAVE)).

Definition picsetmask (mask : Z) : M devst unit :=
  modify (set_irqmask mask);;
  outb (IO_PIC1 + 1) mask;;
  outb (IO_PIC2 + 1) (Z.shiftr mask 8).

Definition picenable (irq : Z) : M devst unit :=
  mask <- gets irqmask;;
  picsetmask (u16 (Z.land mask (Z.lnot (Z.shiftl 1 irq)))).

Definition picinit : M devst unit :=
  outb (IO_PIC1 + 1) 255;;
  outb (IO_PIC2 + 1) 255;;
  outb IO_PIC1 17;;
  outb (IO_PIC1 + 1) T_IRQ0;;
  outb (IO_PIC1 + 1) (Z.shiftl 1 IRQ_SLAVE);;
  outb (IO_PIC1 + 1) 3;;
  outb IO_PIC2 17;;
  outb (IO_PIC2 + 1) (T_IRQ0 + 8);;
  outb (IO_PIC2 + 1) IRQ_SLAVE;;
  outb (IO_PIC2 + 1) 3;;
  outb IO_PIC1 104;;
  outb IO_PIC1 10;;
  outb IO_PIC2 104;;
  outb IO_PIC2 10;;
  mask <- gets irqmask;;
  when (negb (mask =? 65535)) do picsetmask mask.

(** ** The timer (timer.c) *)

Abbreviation IO_TIMER1 := (64).
Abbreviation TIMER_FREQ := (1193182).
Definition TIMER_DIV (x : Z) : Z := (TIMER_FREQ + x / 2) / x.
Abbreviation TIMER_MODE := (IO_TIMER1 + 3).
Abbreviation TIMER_SEL0 := (0).
Abbreviation TIMER_RATEGEN := (4).
Abbreviation TIMER_16BIT := (48).

Definition timerinit : M devst unit :=
  outb TIMER_MODE (Z.lor (Z.lor TIMER_SEL0 TIMER_RATEGEN) TIMER_16BIT);;
  outb IO_TIMER1 (TIMER_DIV TPS mod 256);;
  outb IO_TIMER1 (TIMER_DIV TPS / 256);;
  picenable IRQ_TIMER.

(** ** The I/O APIC (ioapic.c) *)

Abbreviation REG_ID := (0).
Abbreviation REG_VER := (1).
Abbreviation REG_TABLE := (16).
Abbreviation INT_DISABLED := (65536).

Definition ioapicread (reg : Z) : M devst Z :=
  modify (set_ioreg reg);;
  gets (λ s, iodata s (ioreg s)).

Definition ioapicwrite (reg data : Z) : M devst unit :=
  modify (set_ioreg reg);;
  modify (λ s, set_iodata (<[ioreg s := u32 data]> (iodata s)) s).

Fixpoint ioapic_disable (n : nat) (i : Z) : M devst unit :=
  match n with
  | O => ret tt
  | S n =>
      ioapicwrite (REG_TABLE + 2 * i) (Z.lor INT_DISABLED (T_IRQ0 + i));;
      ioapicwrite (REG_TABLE + 2 * i + 1) 0;;
      ioapic_disable n (i + 1)
  end.

Definition ioapicinit (ismp ioapicid : Z) : M devst unit :=
  if ismp =? 0 then ret tt
  else
    v <- ioapicread REG_VER;;
    let maxintr := Z.land (Z.shiftr v 16) 255 in
    w <- ioapicread REG_ID;;
    when (negb (Z.shiftr w 24 =? ioapicid)) do
      modify (λ s, set_dev_out (dev_out s ++ chars "ioapicinit: id isn't equal to ioapicid; not a MP" ++ [10]) s);;
    ioapic_disable (Z.to_nat (maxintr + 1)) 0.

Definition ioapicenable (ismp irq cpunum : Z) : M devst unit :=
  if ismp =? 0 then ret tt
  else
    ioapicwrite (REG_TABLE + 2 * irq) (T_IRQ0 + irq);;
    ioapicwrite (REG_TABLE + 2 * irq + 1) (Z.shiftl cpunum 24).

(** ** The local APIC (lapic.c) *)

Abbreviation LID := (32 / 4).
Abbreviation LVER := (48 / 4).
Abbreviation LTPR := (128 / 4).
Abbreviation LEOI := (176 / 4).
Abbreviation LSVR := (240 / 4).
Abbreviation LENABLE := (256).
Abbreviation LESR := (640 / 4).
Abbreviation ICRLO := (768 / 4).
Abbreviation LINIT := (1280).
Abbreviation STARTUP := (1536).
Abbreviation DELIVS := (4096).
Abbreviation LASSERT := (16384).
Abbreviation LEVEL := (32768).
Abbreviation BCAST := (524288).
Abbreviation ICRHI := (784 / 4).
Abbreviation LTIMER := (800 / 4).
Abbreviation X1 := (11).
Abbreviation PERIODIC := (131072).
Abbreviation PCINT := (832 / 4).
Abbreviation LINT0 := (848 / 4).
Abbreviation LINT1 := (864 / 4).
Abbreviation LERROR := (880 / 4).
Abbreviation MASKED := (65536).
Abbreviation TICR := (896 / 4).
Abbreviation TDCR := (992 / 4).
Abbreviation IRQ_ERROR := (19).
Abbreviation CMOS_PORT := (112).

Section devices.
  Variable lread : Z → nat → Z.       (* reads of the local APIC *)
  Variable inb : Z → nat → Z.         (* reads of ports *)

Definition read_reg (f : Z → nat → Z) (i : Z) : M devst Z :=
  n <- gets reads;;
  modify (set_reads (S n));;
  ret (f i n).

Definition lapicw (index value : Z) : M devst unit :=
  modify (λ s, set_lwrites (lwrites s ++ [(index, u32 value)]) s);;
  read_reg lread LID;;
  ret tt.

Fixpoint wait_delivery (fuel : nat) : M devst unit :=
  match fuel with
  | O => nofuel
  | S fuel =>
      v <- read_reg lread ICRLO;;
      if Z.land v DELIVS =? 0 then ret tt else wait_delivery fuel
  end.

Definition lapicinit (fuel : nat) (lapic : Z) : M devst unit :=
  if lapic =? 0 then ret tt
  else
    lapicw LSVR (Z.lor LENABLE (T_IRQ0 + IRQ_SPURIOUS));;
    lapicw TDCR X1;;
    lapicw LTIMER (Z.lor PERIODIC (T_IRQ0 + IRQ_TIMER));;
    lapicw TICR (1000000000 / TPS);;
    lapicw LINT0 MASKED;;
    lapicw LINT1 MASKED;;
    v <- read_reg lread LVER;;
    when (4 <=? Z.land (Z.shiftr v 16) 255) do lapicw PCINT MASKED;;
    lapicw LERROR (T_IRQ0 + IRQ_ERROR);;
    lapicw LESR 0;;
    lapicw LESR 0;;
    lapicw LEOI 0;;
    lapicw ICRHI 0;;
    lapicw ICRLO (Z.lor (Z.lor BCAST LINIT) LEVEL);;
    wait_delivery fuel;;
    lapicw LTPR 0.

(** [eflags] is the flags register and [ra] the return address. *)
Definition cpunum (eflags ra lapic : Z) : M devst Z :=
  when (negb (Z.land eflags FL_IF =? 0)) do
    (n <- gets warned;;
     modify (set_warned (s32 (n + 1)));;
     when (n =? 0) do
       modify (λ s, set_dev_out (dev_out s ++ format (λ _, []) (λ _, ra) 0 (chars "cpu called from %x with interrupts enabled" ++ [10])) s));;
  if lapic =? 0 then ret 0
  else
    v <- read_reg lread LID;;
    ret (Z.shiftr v 24).

Definition lapiceoi (lapic : Z) : M devst unit := if lapic =? 0 then ret tt else lapicw LEOI 0.

Fixpoint startup_ipis (n : nat) (apicid addr : Z) : M devst unit :=
  match n with
  | O => ret tt
  | S n =>
      lapicw ICRHI (Z.shiftl apicid 24);;
      lapicw ICRLO (Z.lor STARTUP (Z.shiftr addr 12));;
      startup_ipis n apicid addr
  end.

Definition lapicstartap (apicid addr : Z) : M devst unit :=
  outb CMOS_PORT 15;;
  outb (CMOS_PORT + 1) 10;;
  modify (set_wrv [0; u16 (Z.shiftr addr 4)]);;
  lapicw ICRHI (Z.shiftl apicid 24);;
  lapicw ICRLO (Z.lor (Z.lor LINIT LEVEL) LASSERT);;
  lapicw ICRLO (Z.lor LINIT LEVEL);;
  startup_ipis 2 apicid addr.

(** ** The serial port (uart.c) *)

Abbreviation COM1 := (1016).

Fixpoint uart_ready (n : nat) : M devst unit :=
  match n with
  | O => ret tt
  | S n =>
      v <- read_reg inb (COM1 + 5);;
      if Z.land v 32 =? 0 then uart_ready n else ret tt
  end.

Definition dev_uartputc (c : Z) : M devst unit :=
  u <- gets uart;;
  if u =? 0 then ret tt
  else
    uart_ready 128;;
    outb (COM1 + 0) c.

Fixpoint uart_puts (l : list Z) : M devst unit :=
  match l with
  | [] => ret tt
  | c :: l => dev_uartputc c;; uart_puts l
  end.

Definition uartinit (ismp : Z) : M devst unit :=
  outb (COM1 + 2) 0;;
  outb (COM1 + 3) 128;;
  outb (COM1 + 0) (115200 / 9600);;
  outb (COM1 + 1) 0;;
  outb (COM1 + 3) 3;;
  outb (COM1 + 4) 0;;
  outb (COM1 + 1) 1;;
  v <- read_reg inb (COM1 + 5);;
  if v =? 255 then ret tt
  else
    modify (set_uart 1);;
    read_reg inb (COM1 + 2);;
    read_reg inb (COM1 + 0);;
    picenable IRQ_COM1;;
    ioapicenable ismp IRQ_COM1 0;;
    uart_puts (chars "xv6..." ++ [10]).

End devices.

(** ** Routing of interrupts *)

(** The redirection entry of interrupt [i]. *)
Definition entry_low (s : devst) (i : Z) : Z := iodata s (REG_TABLE + 2 * i).
Definition entry_high (s : devst) (i : Z) : Z := iodata s (REG_TABLE + 2 * i + 1).

(** Interrupt [i] is masked, or goes to vector [v] of processor [cpu]. *)
Definition masked (s : devst) (i : Z) : Prop :=
  Z.testbit (entry_low s i) 16 = true ∧ Z.land (entry_low s i) 255 = T_IRQ0 + i ∧ entry_high s i = 0.
Definition routed (s : devst) (i cpu : Z) : Prop :=
  Z.testbit (entry_low s i) 16 = false ∧ Z.land (entry_low s i) 255 = T_IRQ0 + i ∧ Z.shiftr (entry_high s i) 24 = cpu.

Lemma ioapicwrite_run reg data s :
  ioapicwrite reg data s = Ret tt (set_iodata (<[reg := u32 data]> (iodata s)) (set_ioreg reg s)).
Proof. done. Qed.

Lemma ioapic_disable_run n i s : ∃ s', ioapic_disable n i s = Ret tt s' ∧
  (∀ r, r < REG_TABLE + 2 * i ∨ REG_TABLE + 2 * (i + Z.of_nat n) ≤ r → iodata s' r = iodata s r) ∧
  ∀ j, i ≤ j < i + Z.of_nat n → entry_low s' j = u32 (Z.lor INT_DISABLED (T_IRQ0 + j)) ∧ entry_high s' j = 0.
Proof.
  revert i s. induction n as [|n IH]; intros i s; cbn [ioapic_disable].
  { exists s. split_and!; [done|done|]. intros; lia. }
  rewrite (bind_Ret _ _ _ _ _ (ioapicwrite_run _ _ s)). set (s1 := set_iodata _ _). rewrite (bind_Ret _ _ _ _ _ (ioapicwrite_run _ _ s1)).
  set (s2 := set_iodata _ _). destruct (IH (i + 1) s2) as (s3 & E & Hother & Hset). exists s3. split; [done|].
  assert (∀ r, r ≠ REG_TABLE + 2 * i → r ≠ REG_TABLE + 2 * i + 1 → iodata s2 r = iodata s r) as Hframe.
  { intros r H1 H2. unfold s2, s1. cbn. by rewrite !fn_lookup_insert_ne by congruence. }
  split.
  - intros r Hr. rewrite Hother by lia. apply Hframe; lia.
  - intros j Hj. destruct (decide (j = i)) as [->|Hne]; [|apply Hset; lia].
    unfold entry_low, entry_high. rewrite !Hother by lia. unfold s2, s1. cbn [iodata set_iodata set_ioreg].
    rewrite fn_lookup_insert_ne by lia. by rewrite !fn_lookup_insert.
Qed.

Lemma masked_word i : 0 ≤ i < 224 → let x := u32 (Z.lor INT_DISABLED (T_IRQ0 + i)) in Z.testbit x 16 = true ∧ Z.land x 255 = T_IRQ0 + i.
Proof.
  intros Hi. assert (Z.lor 65536 (32 + i) = 65536 + (32 + i)) as ->.
  { rewrite <- Z.lxor_lor, <- Z.add_nocarry_lxor; [done|..]; change 65536 with (2 ^ 16); rewrite Z.land_comm; apply Z.bits_inj'; intros k Hk;
      rewrite Z.land_spec, Z.pow2_bits_eqb, Z.bits_0 by lia; destruct (Z.eqb_spec 16 k) as [<-|]; rewrite ?andb_false_r; try done;
      rewrite andb_true_r, Z.testbit_false, Z.div_small by lia; done. }
  cbv zeta. rewrite u32_small by (unfold W32; lia). split.
  - rewrite Z.testbit_true by lia. change (2 ^ 16) with 65536. replace ((65536 + (32 + i)) / 65536) with 1 by (Z.div_mod_to_equations; lia). done.
  - change 255 with (Z.ones 8). rewrite Z.land_ones by lia. change (2 ^ 8) with 256. Z.div_mod_to_equations. lia.
Qed.

Lemma routed_word i : 0 ≤ i < 224 → let x := u32 (T_IRQ0 + i) in Z.testbit x 16 = false ∧ Z.land x 255 = T_IRQ0 + i.
Proof.
  intros Hi. cbv zeta. rewrite u32_small by (unfold W32; lia). split.
  - rewrite Z.testbit_false, Z.div_small by lia. done.
  - change 255 with (Z.ones 8). rewrite Z.land_ones by lia. apply Z.mod_small. lia.
Qed.

(** C30: On a multiprocessor ioapicinit masks every interrupt of the I/O APIC,
    with its own vector; ioapicenable then routes the one interrupt to the one
    processor and leaves all the others masked. *)
Theorem ioapic_routes s ismp id irq cpu :
  ismp ≠ 0 → let maxintr := Z.land (Z.shiftr (iodata s REG_VER) 16) 255 in
  maxintr < 224 → 0 ≤ irq ≤ maxintr → 0 ≤ cpu < 256 →
  ∃ s1 s2, ioapicinit ismp id s = Ret tt s1 ∧ ioapicenable ismp irq cpu s1 = Ret tt s2 ∧
    (∀ i, 0 ≤ i ≤ maxintr → masked s1 i) ∧ routed s2 irq cpu ∧ ∀ i, 0 ≤ i ≤ maxintr → i ≠ irq → masked s2 i.
Proof.
  intros Hmp maxintr Hmax Hirq Hcpu. unfold ioapicinit, ioapicenable. rewrite (proj2 (Z.eqb_neq ismp 0)) by done.
  unfold ioapicread at 1. unfold bind at 1 2, modify at 1, gets at 1. cbn [obind]. cbn [iodata ioreg set_ioreg]. fold maxintr.
  unfold ioapicread at 1. unfold bind at 1 2, modify at 1, gets at 1. cbn [obind]. set (s0 := set_ioreg _ _). set (w := iodata _ _).
  assert (∃ t, (when (negb (Z.shiftr w 24 =? id)) do
      modify (λ s, set_dev_out (dev_out s ++ chars "ioapicinit: id isn't equal to ioapicid; not a MP" ++ [10]) s)) s0 = Ret tt t) as [t Et]
    by (destruct (negb _); by eexists).
  rewrite (bind_Ret _ _ _ _ _ Et). clear Et. destruct (ioapic_disable_run (Z.to_nat (maxintr + 1)) 0 t) as (s1 & E1 & _ & H1).
  assert (∀ i, 0 ≤ i ≤ maxintr → masked s1 i) as Hm.
  { intros i Hi. destruct (H1 i) as [E2 E3]; [lia|]. unfold masked. rewrite E2, E3. destruct (masked_word i); [lia|done]. }
  eexists s1, _. split; [exact E1|]. rewrite (bind_Ret _ _ _ _ _ (ioapicwrite_run _ _ s1)). split; [apply ioapicwrite_run|]. split; [done|].
  unfold routed, masked, entry_low, entry_high in *. cbn [iodata set_iodata set_ioreg ioreg]. split.
  - rewrite fn_lookup_insert_ne by lia. rewrite !fn_lookup_insert. destruct (routed_word irq) as [-> ->]; [lia|]. split_and!; [done|done|].
    rewrite u32_small by (unfold W32; rewrite Z.shiftl_mul_pow2 by lia; lia). rewrite Z.shiftr_shiftl_l by lia. by rewrite Z.sub_diag, Z.shiftl_0_r.
  - intros i Hi Hne. rewrite !fn_lookup_insert_ne by lia. by apply Hm.
Qed.

Definition ex_dev : devst := mk_devst irqmask0 [] 0 (<[REG_VER := 1507345]> (λ _, 0)) [] 0 0 [] [] 0.

Lemma ioapic_routes_witness :
  ∃ s1 s2, ioapicinit 1 0 ex_dev = Ret tt s1 ∧ ioapicenable 1 14 1 s1 = Ret tt s2 ∧
    (∀ i, 0 ≤ i ≤ 23 → masked s1 i) ∧ routed s2 14 1 ∧ ∀ i, 0 ≤ i ≤ 23 → i ≠ 14 → masked s2 i.
Proof. apply (ioapic_routes ex_dev 1 0 14 1); by vm_compute. Defined.

(** picenable clears the bit of the interrupt in the mask, and the last bytes it
    writes to the controllers are the two halves of the mask. *)
Lemma picenable_unmasks irq s : 0 ≤ irqmask s < 65536 → 0 ≤ irq < 16 →
  ∃ s', picenable irq s = Ret tt s' ∧
    (∀ k, 0 ≤ k < 16 → Z.testbit (irqmask s') k = Z.testbit (irqmask s) k && negb (k =? irq)) ∧
    outs s' = outs s ++ [(IO_PIC1 + 1, u8 (irqmask s')); (IO_PIC2 + 1, u8 (Z.shiftr (irqmask s') 8))].
Proof.
  intros Hm Hi. unfold picenable, picsetmask, outb, bind, gets, modify. cbn [obind]. eexists. split; [done|]. cbn. split.
  - intros k Hk. unfold u16. change 65536 with (2 ^ 16). rewrite Z.mod_pow2_bits_low by lia. rewrite Z.land_spec, Z.lnot_spec by lia.
    rewrite Z.shiftl_1_l, Z.pow2_bits_eqb by lia. by rewrite Z.eqb_sym.
  - by rewrite <- app_assoc.
Qed.
