(* ===== verification/Ide.v ===== *)
(** * The disk driver (ide.c)

    The driver for a real controller: requests wait in a queue, the first one
    is with the controller, and the interrupt handler finishes it and starts
    the next.  [ist] adds the queue and the controller to the buffers of [Bio].
    The driver reads the status register, whose values are given by [status], and
    writes the command registers; [ide_perform] is what the controller does with a
    command, from the registers alone, before it raises its interrupt.  A sector is
    transferred as a whole by insl and outsl.

    [dstep] lets any number of processes make requests while the controller works,
    interrupts arrive and the rest of the kernel uses the buffers nobody waits for.
    [astep] is what the driver is for: a queue of requests, served one after the
    other by the memory disk of memide.c, the disk the file system layers are
    built on.  The theorem says that the driver implements it and never stops. *)
From S2P Require Import Prelude Kernel CString Spinlock Kalloc Vm Proc ProcSpec Bio Devices.

Local Open Scope Z_scope.
Local Open Scope kernel_scope.

Definition FSSIZE : Z := 2000.
Definition SECTOR_SIZE : Z := 512.
Definition IDE_BSY : Z := 128.
Definition IDE_DRDY : Z := 64.
Definition IDE_DF : Z := 32.
Definition IDE_ERR : Z := 1.
Definition IDE_CMD_READ : Z := 32.
Definition IDE_CMD_WRITE : Z := 48.
Definition IRQ_IDE : Z := 14.

(** The buffers and the disk; the queue; the last byte written to each port, the
    data after the last command and the data to be read; whether the controller
    has a command, and whether it has finished one and interrupts; how often the
    status was read. *)
Record ist := mk_ist {
  ib : bst;
  idequeue : list nat;
  havedisk1 : Z;
  iregs : Z → Z;
  iout : list Z;
  iport : list Z;
  icmd : bool;
  idone : bool;
  ipolls : nat
}.

Definition set_ib (v : bst) (x : ist) : ist :=
  mk_ist v (idequeue x) (havedisk1 x) (iregs x) (iout x) (iport x) (icmd x) (idone x) (ipolls x).
Definition set_idequeue (v : list nat) (x : ist) : ist :=
  mk_ist (ib x) v (havedisk1 x) (iregs x) (iout x) (iport x) (icmd x) (idone x) (ipolls x).
Definition set_havedisk1 (v : Z) (x : ist) : ist :=
  mk_ist (ib x) (idequeue x) v (iregs x) (iout x) (iport x) (icmd x) (idone x) (ipolls x).
Definition set_iregs (v : Z → Z) (x : ist) : ist :=
  mk_ist (ib x) (idequeue x) (havedisk1 x) v (iout x) (iport x) (icmd x) (idone x) (ipolls x).
Definition set_iout (v : list Z) (x : ist) : ist :=
  mk_ist (ib x) (idequeue x) (havedisk1 x) (iregs x) v (iport x) (icmd x) (idone x) (ipolls x).
Definition set_iport (v : list Z) (x : ist) : ist :=
  mk_ist (ib x) (idequeue x) (havedisk1 x) (iregs x) (iout x) v (icmd x) (idone x) (ipolls x).
Definition set_icmd (v : bool) (x : ist) : ist :=
  mk_ist (ib x) (idequeue x) (havedisk1 x) (iregs x) (iout x) (iport x) v (idone x) (ipolls x).
Definition set_idone (v : bool) (x : ist) : ist :=
  mk_ist (ib x) (idequeue x) (havedisk1 x) (iregs x) (iout x) (iport x) (icmd x) v (ipolls x).
Definition set_ipolls (v : nat) (x : ist) : ist :=
  mk_ist (ib x) (idequeue x) (havedisk1 x) (iregs x) (iout x) (iport x) (icmd x) (idone x) v.

Definition ii {A} (m : M bst A) : M ist A := zoom ib set_ib m.
Definition ic {A} (m : M core A) : M ist A := ii (bb m).

(** The driver with the interrupt controllers and the locks, for ideinit. *)
Record idesys := mk_idesys { id_st : ist; id_dev : devst; id_locks : mach }.
Definition set_id_st (v : ist) (x : idesys) : idesys := mk_idesys v (id_dev x) (id_locks x).
Definition set_id_dev (v : devst) (x : idesys) : idesys := mk_idesys (id_st x) v (id_locks x).
Definition set_id_locks (v : mach) (x : idesys) : idesys := mk_idesys (id_st x) (id_dev x) v.

Section ide.
  Variable status : nat → Z.     (* what the reads of port 0x1f7 give *)
  Variable polls : nat.

(** inb(0x1f7) *)
Definition inb_status : M ist Z := λ s, Ret (status (ipolls s)) (set_ipolls (S (ipolls s)) s).

(** outb: a byte written to port 0x1f7 is a command. *)
Definition port_write (port v : Z) (s : ist) : ist :=
  let s := set_iregs (<[port := u8 v]> (iregs s)) s in if port =? 503 then set_icmd true (set_iout [] s) else s.
Definition ide_outb (port v : Z) : M ist unit := modify (port_write port v).

Fixpoint idewait_loop (fuel : nat) : M ist Z :=
  match fuel with
  | O => nofuel
  | S fuel =>
      r <- inb_status;;
      if negb (Z.land r (Z.lor IDE_BSY IDE_DRDY) =? IDE_DRDY) then idewait_loop fuel else ret r
  end.

Definition idewait (checkerr : bool) : M ist Z :=
  r <- idewait_loop polls;;
  ret (if checkerr && negb (Z.land r (Z.lor IDE_DF IDE_ERR) =? 0) then -1 else 0).

(** The loop of ideinit that looks for disk 1. *)
Fixpoint ide_probe (n : nat) : M ist unit :=
  match n with
  | O => ret tt
  | S n => r <- inb_status;; if negb (r =? 0) then modify (set_havedisk1 1) else ide_probe n
  end.

Definition ideinit (ismp ncpu : Z) : M idesys unit :=
  zoom id_locks set_id_locks (initlock Lide "ide");;
  zoom id_dev set_id_dev (picenable IRQ_IDE);;
  zoom id_dev set_id_dev (ioapicenable ismp IRQ_IDE (ncpu - 1));;
  zoom id_st set_id_st (
    idewait false;;
    ide_outb 502 (Z.lor 224 (Z.shiftl 1 4));;
    ide_probe 1000;;
    ide_outb 502 (Z.lor 224 (Z.shiftl 0 4))).

(** None is a null pointer. *)
Definition idestart (b : option nat) : M ist unit :=
  match b with
  | None => panic "idestart"
  | Some b =>
      x <- ii (gets (getb b));;
      when (FSSIZE <=? blockno x) do panic "incorrect blockno";;
      let sector_per_block := Z.of_nat BSIZE / SECTOR_SIZE in
      let sector := s32 (u32 (blockno x * sector_per_block)) in
      when (7 <? sector_per_block) do panic "idestart";;
      idewait false;;
      ide_outb 1014 0;;
      ide_outb 498 sector_per_block;;
      ide_outb 499 (Z.land sector 255);;
      ide_outb 500 (Z.land (Z.shiftr sector 8) 255);;
      ide_outb 501 (Z.land (Z.shiftr sector 16) 255);;
      ide_outb 502 (Z.lor (Z.lor 224 (Z.shiftl (Z.land (dev x) 1) 4)) (Z.land (Z.shiftr sector 24) 15));;
      if dirty x then ide_outb 503 IDE_CMD_WRITE;; modify (set_iout (bdata x))
      else ide_outb 503 IDE_CMD_READ
  end.

Definition ideintr : M ist unit :=
  ic (pacquire Lide);;
  q <- gets idequeue;;
  match q with
  | [] => ic (prelease Lide)
  | b :: q =>
      modify (set_idequeue q);;
      x <- ii (gets (getb b));;
      (if negb (dirty x) then
         r <- idewait true;;
         when (0 <=? r) do (d <- gets iport;; ii (bupd b (set_bdata d)))
       else ret tt);;
      ii (bupd b (λ x, set_flags (Z.lor (flags x) B_VALID) x));;
      ii (bupd b (λ x, set_flags (Z.land (flags x) (Z.lnot B_DIRTY)) x));;
      ic (wakeup (ChBuf b));;
      when (negb (bool_decide (q = []))) do idestart (head q);;
      ic (prelease Lide)
  end.

Fixpoint ide_wait (fuel : nat) (b : nat) : M ist unit :=
  match fuel with
  | O => nofuel
  | S fuel =>
      x <- ii (gets (getb b));;
      if negb (Z.land (flags x) (Z.lor B_VALID B_DIRTY) =? B_VALID) then ic (sleep (ChBuf b) (Some Lide));; ide_wait fuel b
      else ret tt
  end.

(** iderw of ide.c; [b] is not in the queue yet. *)
Definition ide_iderw (waits : nat) (b : nat) : M ist unit :=
  x <- ii (gets (getb b));;
  when (negb (busy x)) do panic "iderw: buf not busy";;
  when (Z.land (flags x) (Z.lor B_VALID B_DIRTY) =? B_VALID) do panic "iderw: nothing to do";;
  h <- gets havedisk1;;
  when (negb (dev x =? 0) && (h =? 0)) do panic "iderw: ide disk 1 not present";;
  ic (pacquire Lide);;
  modify (λ s, set_idequeue (idequeue s ++ [b]) s);;
  q <- gets idequeue;;
  when (bool_decide (head q = Some b)) do idestart (Some b);;
  ide_wait waits b;;
  ic (prelease Lide).

(** ** The controller *)

(** What the registers say. *)
Definition reg_drive (s : ist) : Z := Z.land (Z.shiftr (iregs s 502) 4) 1.
Definition reg_sector (s : ist) : Z :=
  iregs s 499 + 256 * iregs s 500 + 65536 * iregs s 501 + 16777216 * Z.land (iregs s 502) 15.

(** A write goes to the disk, a read to the data port; disk 0 is not the file
    system's. *)
Definition ide_perform (s : ist) : ist :=
  let n := Z.to_nat (reg_sector s) in
  let s' :=
    if negb (reg_drive s =? 1) then s
    else if iregs s 503 =? IDE_CMD_WRITE then
      set_ib (set_disk (<[n := iout s]> (disk (ib s))) (set_hist (disk (ib s) :: hist (ib s)) (ib s))) s
    else if iregs s 503 =? IDE_CMD_READ then set_iport (default [] (disk (ib s) !! n)) s
    else s in
  set_idone true (set_icmd false s').

(** ** The driver at work *)

Definition icore (s : ist) : core := bc (ib s).
Definition set_icore (c : core) (s : ist) : ist := set_ib (set_bc c (ib s)) s.

(** A process that waits in iderw for its buffer, with the number of further times
    it can find it not ready, and how it goes on. *)
Record waiting := mk_waiting { wt_me : nat; wt_left : nat; wt_k : ist → outcome ist unit }.

(** A buffer that iderw can be called with. *)
Definition requestable (s : bst) (b : nat) : Prop :=
  let x := getb b s in
  (b < length (bufs s))%nat ∧ busy x = true ∧ valid x && negb (dirty x) = false ∧ dev x = 1 ∧
  0 ≤ blockno x < FSSIZE ∧ blockno x < Z.of_nat (length (disk s)).

Definition ready (x : buf) : bool := valid x && negb (dirty x).

(** The rest of the kernel: it may do anything but touch the disk, the controller,
    the queue and the buffers [P]. *)
Definition elsewhere (P : nat → Prop) (t t' : bst) : Prop :=
  disk t' = disk t ∧ hist t' = hist t ∧ length (bufs t') = length (bufs t) ∧
  ∀ b, P b → bufs t' !! b = bufs t !! b.

Definition dstate : Type := ist * gmap nat waiting.
Definition awaited (W : gmap nat waiting) (b : nat) : Prop := is_Some (W !! b).

(** A processor runs [me] and has no locks; a processor runs [me] again after a
    sleep. *)
Definition runs (me : nat) (c : core) : Prop := cur c = Some me ∧ (me < length (ptable c))%nat ∧ held c = [].
Definition resumes (me : nat) (c : core) : Prop := cur c = Some me ∧ (me < length (ptable c))%nat ∧ held c = [Lptable].

Inductive dstep : dstate → dstate → Prop :=
| d_request s W me w b s1 k :
    runs me (icore s) → ¬ awaited W b → requestable (ib s) b →
    ide_iderw (S w) b s = Swtch s1 k → dstep (s, W) (s1, <[b := mk_waiting me w k]> W)
| d_perform s W : icmd s = true → dstep (s, W) (ide_perform s, W)
| d_interrupt s W s1 :
    idone s = true → held (icore s) = [] → ideintr (set_idone false s) = Ret tt s1 → dstep (s, W) (s1, W)
| d_return s W b x s1 :
    W !! b = Some x → resumes (wt_me x) (icore s) → wt_k x s = Ret tt s1 → dstep (s, W) (s1, delete b W)
| d_again s W b x s1 k :
    W !! b = Some x → resumes (wt_me x) (icore s) → wt_k x s = Swtch s1 k →
    dstep (s, W) (s1, <[b := mk_waiting (wt_me x) (pred (wt_left x)) k]> W)
| d_other s W t : elsewhere (awaited W) (ib s) t → dstep (s, W) (set_ib t s, W).

(** ** What it is for *)

(** The buffers and the disk, the requests to be served, and those that have not
    returned. *)
Record ast := mk_ast { a_mem : bst; a_queue : list nat; a_waiting : gset nat }.

Inductive astep : ast → ast → Prop :=
| a_request t q P b : b ∉ P → requestable t b → astep (mk_ast t q P) (mk_ast t (q ++ [b]) ({[b]} ∪ P))
| a_serve t q P b t' : iderw b t = Ret tt t' → astep (mk_ast t (b :: q) P) (mk_ast t' q P)
| a_return t q P b : b ∈ P → b ∉ q → ready (getb b t) = true → astep (mk_ast t q P) (mk_ast t q (P ∖ {[b]}))
| a_other t q P t' : elsewhere (λ b, b ∈ P) t t' → astep (mk_ast t q P) (mk_ast t' q P).

(** ** Starting a request *)

Hypothesis drive_ready : ∀ n, ∃ k, (k < polls)%nat ∧ Z.land (status (n + k)) (Z.lor IDE_BSY IDE_DRDY) = IDE_DRDY.
Hypothesis no_error : ∀ n, Z.land (status n) (Z.lor IDE_DF IDE_ERR) = 0.

Lemma ii_Ret {A} (m : M bst A) s a t : m (ib s) = Ret a t → ii m s = Ret a (set_ib t s).
Proof. apply zoom_Ret. Qed.

Lemma ic_Ret {A} (m : M core A) s a c : m (icore s) = Ret a c → ic m s = Ret a (set_icore c s).
Proof. intros E. apply ii_Ret. unfold bb. by apply zoom_Ret. Qed.

Lemma ii_get b s : ii (gets (getb b)) s = Ret (getb b (ib s)) s.
Proof. by destruct s. Qed.

Lemma idewait_loop_run k fuel s :
  (k < fuel)%nat → Z.land (status (ipolls s + k)) (Z.lor IDE_BSY IDE_DRDY) = IDE_DRDY →
  ∃ n n', idewait_loop fuel s = Ret (status n) (set_ipolls n' s).
Proof.
  revert k s. induction fuel as [|fuel IH]; intros k s Hk Hs; [lia|]. cbn [idewait_loop].
  unfold bind at 1, inb_status at 1. cbn [obind]. destruct (Z.eqb_spec (Z.land (status (ipolls s)) (Z.lor IDE_BSY IDE_DRDY)) IDE_DRDY) as [E|E]; cbn [negb].
  - by eexists _, _.
  - destruct k as [|k]; [by rewrite Nat.add_0_r in Hs|].
    destruct (IH k (set_ipolls (S (ipolls s)) s)) as (n & n' & El); [lia|cbn; by rewrite <- Nat.add_succ_r|]. by eexists n, n'.
Qed.

Lemma idewait_run c s : ∃ n, idewait c s = Ret 0 (set_ipolls n s).
Proof.
  destruct (drive_ready (ipolls s)) as (k & Hk & Hs). destruct (idewait_loop_run k polls s Hk Hs) as (n & n' & E).
  exists n'. unfold idewait. rewrite (bind_Ret _ _ _ _ _ E), no_error. by rewrite andb_false_r.
Qed.

(** The registers name the buffer's block and what to do with it. *)
Definition programmed (x : buf) (s : ist) : Prop :=
  reg_drive s = 1 ∧ reg_sector s = blockno x ∧ iregs s 503 = (if dirty x then IDE_CMD_WRITE else IDE_CMD_READ) ∧
  (dirty x = true → iout s = bdata x).

(** The bytes of a sector number and of the drive register. *)
Lemma sector_bytes n :
  0 ≤ n < 268435456 →
  u8 (Z.land n 255) + 256 * u8 (Z.land (Z.shiftr n 8) 255) + 65536 * u8 (Z.land (Z.shiftr n 16) 255) +
    16777216 * Z.land (Z.shiftr n 24) 15 = n.
Proof.
  intros Hn. change 255 with (Z.ones 8). change 15 with (Z.ones 4). rewrite !Z.land_ones, !Z.shiftr_div_pow2 by lia. unfold u8.
  change (2 ^ 8) with 256. change (2 ^ 16) with 65536. change (2 ^ 24) with 16777216. change (2 ^ 4) with 16. Z.div_mod_to_equations. lia.
Qed.

Lemma drive_byte y : 0 ≤ y < 16 →
  let v := u8 (Z.lor (Z.lor 224 (Z.shiftl 1 4)) y) in Z.land (Z.shiftr v 4) 1 = 1 ∧ Z.land v 15 = y.
Proof.
  intros Hy. assert (In y (map Z.of_nat (seq 0 16))) as Hin.
  { apply in_map_iff. exists (Z.to_nat y). split; [lia|]. apply in_seq. lia. }
  cbn in Hin. repeat destruct Hin as [<-|Hin]; try done.
Qed.

Lemma port_regs p v s : iregs (port_write p v s) = <[p := u8 v]> (iregs s).
Proof. unfold port_write. by destruct (p =? 503). Qed.
Lemma port_same p v s :
  ib (port_write p v s) = ib s ∧ idequeue (port_write p v s) = idequeue s ∧ havedisk1 (port_write p v s) = havedisk1 s ∧
  iport (port_write p v s) = iport s ∧ idone (port_write p v s) = idone s.
Proof. unfold port_write. by destruct (p =? 503). Qed.

Lemma idestart_run b s :
  requestable (ib s) b →
  ∃ s', idestart (Some b) s = Ret tt s' ∧ ib s' = ib s ∧ idequeue s' = idequeue s ∧ havedisk1 s' = havedisk1 s ∧
    iport s' = iport s ∧ idone s' = idone s ∧ icmd s' = true ∧ programmed (getb b (ib s)) s'.
Proof.
  intros (_ & _ & _ & Hd & Hb & _). unfold idestart. rewrite (bind_Ret _ _ _ _ _ (ii_get b s)). set (x := getb b (ib s)) in *.
  rewrite (proj2 (Z.leb_gt _ _)) by lia. unfold bind at 1, ret at 1. cbn [obind].
  change (Z.of_nat BSIZE / SECTOR_SIZE) with 1. cbv zeta. rewrite Z.mul_1_r, u32_small, s32_small by (unfold FSSIZE, W32 in *; lia).
  change (7 <? 1) with false. unfold bind at 1, ret at 1. cbn [obind].
  destruct (idewait_run false s) as (n & E). rewrite (bind_Ret _ _ _ _ _ E). clear E.
  destruct (drive_byte (Z.land (Z.shiftr (blockno x) 24) 15)) as [D1 D2].
  { change 15 with (Z.ones 4). rewrite Z.land_ones by lia. apply Z.mod_pos_bound. lia. }
  rewrite Hd. change (Z.land 1 1) with 1.
  do 6 (erewrite bind_Ret; [|unfold ide_outb, modify; reflexivity]).
  set (s1 := port_write 502 _ _).
  assert (ib s1 = ib s ∧ idequeue s1 = idequeue s ∧ havedisk1 s1 = havedisk1 s ∧ iport s1 = iport s ∧ idone s1 = idone s) as (I1 & I2 & I3 & I4 & I5).
  { unfold s1. do 6 match goal with |- context [port_write ?p ?v ?s] => destruct (port_same p v s) as (-> & -> & -> & -> & ->) end. done. }
  assert (reg_drive s1 = 1 ∧ reg_sector s1 = blockno x) as [J1 J2].
  { unfold s1, reg_drive, reg_sector. rewrite !port_regs. repeat (rewrite fn_lookup_insert || rewrite fn_lookup_insert_ne by done).
    rewrite D1, D2. split; [done|]. apply sector_bytes. unfold FSSIZE in *. lia. }
  clearbody s1. clear D1 D2.
  destruct (dirty x) eqn:Ed; (eexists; split; [reflexivity|]); unfold programmed, reg_drive, reg_sector in *; rewrite Ed;
    cbn [ib idequeue havedisk1 iport idone icmd iregs iout set_iout port_write set_icmd set_iregs Z.eqb Pos.eqb];
    rewrite ?fn_lookup_insert, ?fn_lookup_insert_ne by done; done.
Qed.

(** ** Waiting *)

(** sleep with idelock held, and how the process goes on. *)
Lemma ic_sleep s me ch :
  cur (icore s) = Some me → (me < length (ptable (icore s)))%nat → held (icore s) = [Lide] →
  ∃ c1 K, ic (sleep ch (Some Lide)) s = Swtch (set_icore c1 s) K ∧
    ∀ s2, resumes me (icore s2) →
      ∃ c3, K s2 = Ret tt (set_icore c3 s2) ∧ held c3 = [Lide] ∧ cur c3 = Some me ∧ (me < length (ptable c3))%nat.
Proof.
  intros Hc Hlt Hh. destruct (sleep_run (icore s) me ch Lide Hc Hlt Hh) as (c1 & k & E & _ & _ & _ & _ & _ & Hk); [done|].
  exists c1. eexists. split.
  { unfold ic, ii, bb, zoom. unfold icore in E. rewrite E. cbn [ozoom]. reflexivity. }
  intros s2 (Hc2 & Hlt2 & Hh2). cbn beta. unfold icore in *. rewrite (Hk _ Hc2 Hlt2 Hh2). cbn [ozoom]. eexists. split; [reflexivity|].
  split_and!; [done|done|]. cbn. by rewrite length_alter.
Qed.

(** What a waiting process does when it runs again: it holds idelock and tests the
    buffer. *)
Definition waiter (b : nat) (x : waiting) : Prop :=
  ∀ s2, resumes (wt_me x) (icore s2) →
    ∃ c3, wt_k x s2 = (ide_wait (wt_left x) b;; ic (prelease Lide))%K (set_icore c3 s2) ∧
      held c3 = [Lide] ∧ cur c3 = Some (wt_me x) ∧ (wt_me x < length (ptable c3))%nat.

(** The test fails: the process sleeps. *)
Lemma ide_wait_sleeps me n b s :
  cur (icore s) = Some me → (me < length (ptable (icore s)))%nat → held (icore s) = [Lide] → ready (getb b (ib s)) = false →
  ∃ c k, (ide_wait (S n) b;; ic (prelease Lide))%K s = Swtch (set_icore c s) k ∧ waiter b (mk_waiting me n k).
Proof.
  intros Hc Hlt Hh Hr. cbn [ide_wait]. unfold bind at 1. unfold bind at 1. rewrite ii_get. cbn [obind]. unfold ready in Hr. rewrite rw_check, Hr. cbn [negb].
  destruct (ic_sleep s me (ChBuf b)) as (c1 & K & E & HK); try done.
  unfold bind at 1. rewrite E. cbn [obind]. exists c1. eexists. split; [reflexivity|].
  intros s2 Hs2. destruct (HK s2 Hs2) as (c3 & E3 & H3). exists c3. split; [|done]. cbn [wt_k wt_left]. by rewrite E3.
Qed.

(** It holds: the process returns. *)
Lemma ide_wait_returns n b s :
  held (icore s) = [Lide] → ready (getb b (ib s)) = true →
  ∃ c, (ide_wait (S n) b;; ic (prelease Lide))%K s = Ret tt (set_icore c s).
Proof.
  intros Hh Hr. cbn [ide_wait]. unfold bind at 1. unfold bind at 1. rewrite ii_get. cbn [obind]. unfold ready in Hr. rewrite rw_check, Hr. cbn [negb obind ret].
  erewrite ic_Ret; [|apply (prelease_ok _ _ []); exact Hh]. eexists. reflexivity.
Qed.

(** ** Requests *)

(** The new request is queued, and started when it is the first. *)
Lemma ide_iderw_waits w me b s :
  runs me (icore s) → requestable (ib s) b → b ∉ idequeue s → havedisk1 s ≠ 0 →
  ∃ s1 c k, ide_iderw (S w) b s = Swtch (set_icore c s1) k ∧ waiter b (mk_waiting me w k) ∧
    elsewhere (λ _, True) (ib s) (ib s1) ∧ idequeue s1 = idequeue s ++ [b] ∧ havedisk1 s1 = havedisk1 s ∧ iport s1 = iport s ∧ idone s1 = idone s ∧
    if bool_decide (idequeue s = []) then icmd s1 = true ∧ programmed (getb b (ib s)) s1
    else icmd s1 = icmd s ∧ ∀ x, programmed x s → programmed x s1.
Proof.
  intros (Hc & Hlt & Hh) Hreq Hnin Hd1. pose proof Hreq as (_ & Hb & Hv & Hd & _). unfold ide_iderw.
  rewrite (bind_Ret _ _ _ _ _ (ii_get b s)). rewrite Hb, rw_check, Hv. cbn [negb].
  do 2 (unfold bind at 1, ret at 1; cbn [obind]). unfold bind at 1, gets at 1. cbn [obind].
  rewrite (proj2 (Z.eqb_neq (havedisk1 s) 0)), andb_false_r by done. unfold bind at 1, ret at 1. cbn [obind].
  erewrite bind_Ret; [|apply ic_Ret, pacquire_ok; rewrite Hh; apply not_elem_of_nil]. rewrite Hh.
  erewrite bind_Ret; [|reflexivity]. set (s0 := set_idequeue _ _).
  erewrite bind_Ret; [|reflexivity].
  assert (∃ s1, (when (bool_decide (head (idequeue s0) = Some b)) do idestart (Some b))%K s0 = Ret tt s1 ∧
    ib s1 = ib s0 ∧ idequeue s1 = idequeue s0 ∧ havedisk1 s1 = havedisk1 s ∧ iport s1 = iport s ∧ idone s1 = idone s ∧
    if bool_decide (idequeue s = []) then icmd s1 = true ∧ programmed (getb b (ib s)) s1 else icmd s1 = icmd s ∧ ∀ x, programmed x s → programmed x s1)
    as (s1 & E1 & I1 & I2 & I3 & I4 & I5 & I6).
  { change (idequeue s0) with (idequeue s ++ [b]). destruct (idequeue s) as [|a q] eqn:Eq.
    - rewrite !bool_decide_eq_true_2 by done. destruct (idestart_run b s0) as (s1 & E1 & H1 & H2 & H3 & H4 & H5 & H6 & H7); [done|].
      exists s1. rewrite H1, H2, H3, H4, H5, H6. split_and!; try done. unfold s0. cbn [idequeue set_idequeue set_icore set_ib]. by rewrite Eq.
    - rewrite !bool_decide_eq_false_2; [|done|cbn; intros [= ->]; set_solver]. exists s0. unfold s0. cbn [idequeue set_idequeue set_icore set_ib]. rewrite Eq. split_and!; done. }
  rewrite (bind_Ret _ _ _ _ _ E1). clear E1.
  assert (icore s1 = set_held [Lide] (icore s)) as Hcore by (unfold icore in *; by rewrite I1).
  assert (getb b (ib s1) = getb b (ib s)) as Hgb by (by rewrite I1).
  destruct (ide_wait_sleeps me w b s1) as (c & k & E & HK); rewrite ?Hcore, ?Hgb; try done.
  rewrite E. exists s1, c, k. split_and!; try done; rewrite I1; try done.
Qed.

(** ** Interrupts *)

Definition intr_buf (d : list Z) (x : buf) : buf :=
  let x := if dirty x then x else set_bdata d x in
  set_flags (Z.land (Z.lor (flags x) B_VALID) (Z.lnot B_DIRTY)) x.

(** The part of the interrupt handler that finishes the request. *)
Lemma intr_read b x s :
  x = getb b (ib s) →
  ∃ n, (if negb (dirty x) then r <- idewait true;; when (0 <=? r) do (d <- gets iport;; ii (bupd b (set_bdata d))) else ret tt)%K s =
    Ret tt (set_ib (others b (λ y, if dirty x then y else set_bdata (iport s) y) (ib s)) (set_ipolls n s)).
Proof.
  intros Hx. destruct (dirty x); cbn [negb].
  - exists (ipolls s). unfold ret, others. f_equal. destruct s as [[] ]. unfold set_ib, set_ipolls, set_bufs; cbn. do 2 f_equal. by rewrite list_alter_id.
  - destruct (idewait_run true s) as (n & E). exists n. by rewrite (bind_Ret _ _ _ _ _ E).
Qed.

Lemma ideintr_run b q s :
  held (icore s) = [] → idequeue s = b :: q → (∀ b', b' ∈ q → b' ≠ b ∧ requestable (ib s) b') →
  ∃ s1 c, ideintr s = Ret tt (set_icore c s1) ∧ held c = [] ∧
    elsewhere (λ _, True) (others b (intr_buf (iport s)) (ib s)) (ib s1) ∧ idequeue s1 = q ∧ havedisk1 s1 = havedisk1 s ∧ idone s1 = idone s ∧
    match q with [] => icmd s1 = icmd s | b' :: _ => icmd s1 = true ∧ programmed (getb b' (ib s)) s1 end.
Proof.
  intros Hh Hq Hreq. unfold ideintr.
  erewrite bind_Ret; [|apply ic_Ret, pacquire_ok; rewrite Hh; apply not_elem_of_nil]. rewrite Hh. set (s0 := set_icore _ s).
  erewrite bind_Ret; [|reflexivity]. change (idequeue s0) with (idequeue s). rewrite Hq.
  erewrite bind_Ret; [|reflexivity]. set (s1 := set_idequeue q s0).
  rewrite (bind_Ret _ _ _ _ _ (ii_get b s1)). destruct (intr_read b _ s1 eq_refl) as (n & E). rewrite (bind_Ret _ _ _ _ _ E). clear E.
  set (g := λ y : buf, if dirty (getb b (ib s1)) then y else set_bdata (iport s1) y).
  do 2 (erewrite bind_Ret; [|apply ii_Ret; unfold bupd, modify; reflexivity]).
  erewrite bind_Ret; [|apply ic_Ret, wakeup_run; cbn; set_solver].
  set (s2 := set_icore _ _).
  assert (bufs (ib s2) = alter (intr_buf (iport s)) b (bufs (ib s))) as Eb.
  { cbn -[alter]. rewrite !list_alter_alter_eq. apply list_alter_ext; [|done]. intros y Hy. cbn [compose]. unfold g.
    replace (getb b (ib s1)) with y; [|unfold getb; change (bufs (ib s1)) with (bufs (ib s)); by rewrite Hy].
    unfold intr_buf. by destruct (dirty y). }
  assert (∃ s3, (when (negb (bool_decide (q = []))) do idestart (head q))%K s2 = Ret tt s3 ∧ ib s3 = ib s2 ∧ idequeue s3 = q ∧ havedisk1 s3 = havedisk1 s ∧
    idone s3 = idone s ∧ match q with [] => icmd s3 = icmd s | b' :: _ => icmd s3 = true ∧ programmed (getb b' (ib s)) s3 end)
    as (s3 & E3 & I1 & I2 & I3 & I4 & I5).
  { destruct q as [|b' q]; cbn [bool_decide negb head]; [by exists s2|]. destruct (Hreq b') as [Hne Hrb]; [set_solver|].
    assert (getb b' (ib s2) = getb b' (ib s)) as Hg by (unfold getb; rewrite Eb; by rewrite list_lookup_alter_ne by congruence).
    destruct (idestart_run b' s2) as (s3 & E3 & H1 & H2 & H3 & _ & H5 & H6 & H7).
    { unfold requestable in *. rewrite Hg, Eb, length_alter. exact Hrb. }
    exists s3. rewrite <- Hg. done. }
  rewrite (bind_Ret _ _ _ _ _ E3). clear E3.
  erewrite ic_Ret; [|apply (prelease_ok _ _ []); unfold icore; rewrite I1; reflexivity].
  eexists s3, _. split; [reflexivity|]. split; [done|]. split; [|done]. unfold elsewhere. rewrite I1, Eb. done.
Qed.

(** ** The memory disk *)

(** The buffer after a request was served. *)
Definition served (d : list (list Z)) (x : buf) : buf :=
  let x := if dirty x then x else set_bdata (default [] (d !! Z.to_nat (blockno x))) x in
  set_flags (Z.lor (Z.land (flags x) (Z.lnot B_DIRTY)) B_VALID) x.

Lemma served_flags (f : Z) : Z.land (Z.lor f B_VALID) (Z.lnot B_DIRTY) = Z.lor (Z.land f (Z.lnot B_DIRTY)) B_VALID.
Proof.
  rewrite Z.land_lor_distr_l. f_equal.
Qed.

Lemma served_done d x : Z.land (flags (served d x)) (Z.lor B_VALID B_DIRTY) =? B_VALID = true.
Proof.
  rewrite rw_check. unfold served. destruct (dirty x); flag_bits; done.
Qed.

(** What the memory disk does, in one shape for reads and writes. *)
Lemma memide_run b s :
  let x := getb b s in
  busy x = true → valid x && negb (dirty x) = false → dev x = 1 → blockno x < Z.of_nat (length (disk s)) →
  iderw b s = Ret tt (set_bufs (alter (served (disk s)) b (bufs s))
    (if dirty x then set_disk (<[Z.to_nat (blockno x) := bdata x]> (disk s)) (set_hist (disk s :: hist s) s) else s)).
Proof.
  intros x Hb Hv Hd Hn. destruct (dirty x) eqn:Ed.
  - rewrite iderw_write by done. f_equal. unfold set_bufs, set_disk, set_hist; cbn. f_equal.
    apply list_alter_ext; [|done]. intros y Hy. unfold served. replace y with x by (unfold x, getb; by rewrite Hy). by rewrite Ed.
  - rewrite andb_true_r in Hv. rewrite iderw_read by done. f_equal. unfold others, set_bufs; cbn. f_equal.
    apply list_alter_ext; [|done]. intros y Hy. unfold served. replace y with x by (unfold x, getb; by rewrite Hy). rewrite Ed.
    assert (Z.land (flags x) (Z.lnot B_DIRTY) = flags x) as E.
    { unfold dirty, has in Ed. apply negb_false_iff, Z.eqb_eq in Ed. apply Z.bits_inj'. intros n Hn0.
      rewrite Z.land_spec, Z.lnot_spec by done. pose proof (f_equal (λ z, Z.testbit z n) Ed) as E. cbn beta in E.
      rewrite Z.land_spec, Z.bits_0 in E. by destruct (Z.testbit (flags x) n), (Z.testbit B_DIRTY n). }
    cbn [flags set_bdata]. rewrite E. done.
Qed.

(** ** The refinement *)

(** The buffers and the disk when the controller has finished with the first
    request: as if its interrupt had been handled. *)
Definition finish (done : bool) (q : list nat) (d : list Z) (t : bst) : bst :=
  match q with b :: _ => if done then others b (intr_buf d) t else t | [] => t end.
Definition abs (s : ist) : bst := finish (idone s) (idequeue s) (iport s) (ib s).
Definition unserved (s : ist) : list nat := if idone s then tail (idequeue s) else idequeue s.
Definition rep (s : ist) (W : gmap nat waiting) : ast := mk_ast (abs s) (unserved s) (dom W).

Record dinv (s : ist) (W : gmap nat waiting) : Prop := {
  di_nodup : NoDup (idequeue s);
  di_queue b : b ∈ idequeue s → awaited W b ∧ requestable (ib s) b;
  di_served b : awaited W b → b ∉ idequeue s → (b < length (bufs (ib s)))%nat ∧ ready (getb b (ib s)) = true;
  di_disk1 : havedisk1 s ≠ 0;
  di_ctl : match idequeue s with
    | [] => icmd s = false ∧ idone s = false
    | b :: _ => (icmd s = true ∧ idone s = false ∧ programmed (getb b (ib s)) s) ∨ (icmd s = false ∧ idone s = true)
    end;
  di_waiter b x : W !! b = Some x → waiter b x
}.

Lemma elsewhere_getb P t t' b : elsewhere P t t' → P b → getb b t' = getb b t.
Proof. intros (_ & _ & _ & H) Hb. unfold getb. by rewrite H. Qed.

Lemma elsewhere_requestable P t t' b : elsewhere P t t' → P b → requestable t b → requestable t' b.
Proof.
  intros He Hb. unfold requestable. rewrite (elsewhere_getb _ _ _ _ He Hb). destruct He as (-> & _ & -> & _). done.
Qed.

Lemma elsewhere_mono (P Q : nat → Prop) t t' : (∀ b, Q b → P b) → elsewhere P t t' → elsewhere Q t t'.
Proof. intros H (H1 & H2 & H3 & H4). split_and!; try done. intros b Hb. by apply H4, H. Qed.

Lemma elsewhere_finish P done q d t t' : elsewhere P t t' → elsewhere P (finish done q d t) (finish done q d t').
Proof.
  intros (H1 & H2 & H3 & H4). destruct q as [|b q]; [done|]. destruct done; [|done]. unfold finish, others. split_and!; cbn; try done.
  - by rewrite !length_alter.
  - intros a Ha. destruct (decide (a = b)) as [->|]; [by rewrite !list_lookup_alter_eq, H4|]. by rewrite !list_lookup_alter_ne, H4 by done.
Qed.

Lemma finish_other done q d t b : b ∉ q → elsewhere (λ a, a = b) t (finish done q d t).
Proof.
  intros Hb. destruct q as [|a q]; [done|]. destruct done; [|done]. unfold finish, others. split_and!; cbn; try done.
  - by rewrite length_alter.
  - intros ? ->. rewrite list_lookup_alter_ne; [done|]. set_solver.
Qed.

Lemma a_elsewhere t t' q P : elsewhere (λ b, b ∈ P) t t' → rtc astep (mk_ast t q P) (mk_ast t' q P).
Proof. intros H. apply rtc_once. by constructor. Qed.

(** Only the core and buffers that nobody waits for change. *)
Lemma dinv_ext s s' W W' :
  dinv s W → elsewhere (awaited W) (ib s) (ib s') → idequeue s' = idequeue s → havedisk1 s' = havedisk1 s →
  icmd s' = icmd s → idone s' = idone s → (∀ x, programmed x s → programmed x s') →
  (∀ b, awaited W' b → awaited W b) → (∀ b, b ∈ idequeue s → awaited W b → awaited W' b) → (∀ b x, W' !! b = Some x → waiter b x) → dinv s' W'.
Proof.
  intros [D1 D2 D3 D4 D5 D6] He Hq Hd Hc Ho Hp HW HW' Hw. constructor; rewrite ?Hq, ?Hd; try done.
  - intros b Hb. destruct (D2 b Hb) as [Ha Hr]. split; [by apply HW'|]. by eapply elsewhere_requestable.
  - intros b Ha Hb. destruct (D3 b (HW _ Ha) Hb) as [Hl Hr]. rewrite (elsewhere_getb _ _ _ _ He (HW _ Ha)). destruct He as (_ & _ & -> & _). done.
  - destruct (idequeue s) as [|b q] eqn:E; [by rewrite Hc, Ho|]. rewrite Hc, Ho.
    destruct (D2 b ltac:(set_solver)) as [Ha _]. rewrite (elsewhere_getb _ _ _ _ He Ha). destruct D5 as [(? & ? & ?)|]; [left|by right]. auto.
Qed.

Lemma awaited_dom W b : awaited W b ↔ b ∈ dom W.
Proof. unfold awaited. by rewrite elem_of_dom. Qed.

(** What the change of the core and of such buffers is in the specification. *)
Lemma rep_ext s s' W :
  elsewhere (awaited W) (ib s) (ib s') → idequeue s' = idequeue s → idone s' = idone s → iport s' = iport s →
  rtc astep (rep s W) (rep s' W).
Proof.
  intros He Hq Ho Hp. unfold rep, abs, unserved. rewrite Hq, Ho, Hp. apply a_elsewhere.
  eapply elsewhere_mono; [|apply elsewhere_finish, He]. intros b Hb. by apply awaited_dom.
Qed.

Lemma elsewhere_core P c t : elsewhere P t (set_bc c t).
Proof. done. Qed.

Lemma elsewhere_trans P t1 t2 t3 : elsewhere P t1 t2 → elsewhere P t2 t3 → elsewhere P t1 t3.
Proof.
  intros (A1 & A2 & A3 & A4) (B1 & B2 & B3 & B4). split_and!; try congruence. intros b Hb. by rewrite B4, A4.
Qed.

Lemma requestable_not_ready t b : requestable t b → ready (getb b t) = false.
Proof. by intros (_ & _ & H & _). Qed.

Lemma awaited_insert W b x a : awaited (<[b := x]> W) a ↔ a = b ∨ awaited W a.
Proof. unfold awaited. destruct (decide (a = b)) as [->|]; [rewrite lookup_insert_eq|rewrite lookup_insert_ne by done]; naive_solver. Qed.

Lemma sim_request s W me w b s1 k :
  dinv s W → runs me (icore s) → ¬ awaited W b → requestable (ib s) b → ide_iderw (S w) b s = Swtch s1 k →
  dinv s1 (<[b := mk_waiting me w k]> W) ∧ rtc astep (rep s W) (rep s1 (<[b := mk_waiting me w k]> W)).
Proof.
  intros Hi Hr Hna Hreq E. assert (b ∉ idequeue s) as Hnq by (intros Hb; by destruct (di_queue _ _ Hi b Hb)).
  destruct (ide_iderw_waits w me b s Hr Hreq Hnq (di_disk1 _ _ Hi)) as (s' & c & k' & E' & HW & He & Hq & Hd & Hp & Ho & Hctl).
  rewrite E in E'. injection E' as -> <-. set (s1 := set_icore c s'). destruct Hi as [D1 D2 D3 D4 D5 D6].
  assert (elsewhere (λ _, True) (ib s) (ib s1)) as He1 by (eapply elsewhere_trans; [exact He|apply elsewhere_core]).
  assert (∀ a, getb a (ib s1) = getb a (ib s)) as Hg by (intros a; by eapply elsewhere_getb; [exact He1|]).
  split.
  - constructor; change (idequeue s1) with (idequeue s'); change (havedisk1 s1) with (havedisk1 s'); rewrite ?Hq, ?Hd; try done.
    + apply NoDup_app. split_and!; [done| |apply NoDup_singleton]. intros a Ha Hb. set_solver.
    + intros a Ha. rewrite awaited_insert. apply elem_of_app in Ha as [Ha|Ha].
      * destruct (D2 a Ha). split; [by right|]. by eapply elsewhere_requestable.
      * apply list_elem_of_singleton in Ha as ->. split; [by left|]. by eapply elsewhere_requestable.
    + intros a Ha Hna'. rewrite not_elem_of_app in Hna'. apply awaited_insert in Ha as [->|Ha]; [set_solver|].
      rewrite Hg. destruct He1 as (_ & _ & -> & _). apply D3; [done|apply Hna'].
    + change (icmd s1) with (icmd s'). change (idone s1) with (idone s'). rewrite Ho. destruct (idequeue s) as [|a q] eqn:Eq; cbn [app] in *.
      * rewrite bool_decide_eq_true_2 in Hctl by done. left. rewrite Hg. naive_solver.
      * rewrite bool_decide_eq_false_2 in Hctl by done. destruct Hctl as [-> Hpr]. rewrite Hg. destruct D5 as [(? & ? & ?%Hpr)|]; [left|by right]. done.
    + intros a x. destruct (decide (a = b)) as [->|]; [rewrite lookup_insert_eq; by intros [= <-]|rewrite lookup_insert_ne by done; apply D6].
  - eapply rtc_l; [apply (a_request _ _ _ b)|].
    + by rewrite <- awaited_dom.
    + eapply elsewhere_requestable; [by apply finish_other|done|done].
    + unfold rep. rewrite dom_insert_L.
      assert (unserved s1 = unserved s ++ [b]) as ->.
      { unfold unserved. change (idone s1) with (idone s'). change (idequeue s1) with (idequeue s'). rewrite Ho, Hq.
        destruct (idone s) eqn:Ed; [|done]. destruct (idequeue s); [|done]. by destruct D5. }
      apply a_elsewhere. assert (abs s1 = finish (idone s) (idequeue s) (iport s) (ib s1)) as ->.
      { unfold abs. change (idone s1) with (idone s'). change (idequeue s1) with (idequeue s'). change (iport s1) with (iport s'). rewrite Ho, Hq, Hp.
        destruct (idequeue s) eqn:Eq; [|done]. cbn. destruct D5 as [_ ->]. done. }
      apply elsewhere_finish. by eapply elsewhere_mono; [|exact He1].
Qed.

(** The command the controller finds is the first request; what it leaves, with the
    interrupt to come, is what the memory disk leaves. *)
Lemma sim_perform s W : dinv s W → icmd s = true → dinv (ide_perform s) W ∧ rtc astep (rep s W) (rep (ide_perform s) W).
Proof.
  intros [D1 D2 D3 D4 D5 D6] Hc. destruct (idequeue s) as [|b q] eqn:Eq; [destruct D5; congruence|].
  destruct D5 as [(_ & Hdn & Hp1 & Hp2 & Hp3 & Hp4)|[]]; [|congruence]. destruct (D2 b) as [Ha Hr]; [set_solver|].
  set (x := getb b (ib s)) in *. unfold ide_perform. rewrite Hp1, Hp2, Hp3. change (negb (1 =? 1)) with false. cbv iota.
  set (s' := if (_ =? IDE_CMD_WRITE) then _ else _).
  assert (bufs (ib s') = bufs (ib s) ∧ idequeue s' = b :: q ∧ havedisk1 s' = havedisk1 s ∧ length (disk (ib s')) = length (disk (ib s))) as (E1 & E2 & E3 & E4).
  { unfold s'. destruct (dirty x); cbn [Z.eqb Pos.eqb IDE_CMD_WRITE IDE_CMD_READ]; cbn; rewrite ?Eq, ?length_insert; done. }
  split.
  - constructor; cbn [idequeue havedisk1 ib icmd idone set_idone set_icmd]; rewrite ?E2, ?E3; try done.
    + intros a Hin. destruct (D2 a Hin) as [? Hra]. split; [done|]. unfold requestable, getb in *. by rewrite E1, E4.
    + intros a Haa Hna. unfold getb. rewrite E1. by apply D3.
    + by right.
  - apply rtc_once. unfold rep, unserved. cbn [idone set_idone idequeue set_icmd]. rewrite E2, Hdn, Eq. cbn [tail].
    constructor. unfold abs at 1. rewrite Hdn. rewrite Eq. cbn [finish]. destruct Hr as (_ & R1 & R2 & R3 & R4 & R5).
    rewrite memide_run by done. fold x. f_equal. unfold abs. cbn [idone set_idone idequeue set_icmd iport ib]. rewrite E2. cbn [finish].
    assert (∀ d, (dirty x = false → d = default [] (disk (ib s) !! Z.to_nat (blockno x))) →
      alter (served (disk (ib s))) b (bufs (ib s)) = alter (intr_buf d) b (bufs (ib s))) as Hal.
    { intros d Hd. apply list_alter_ext; [|done]. intros y Hy. assert (y = x) as -> by (unfold x, getb; by rewrite Hy).
      unfold intr_buf, served. destruct (dirty x); [by rewrite served_flags|]. rewrite Hd by done. by rewrite served_flags. }
    unfold s'. destruct (dirty x) eqn:Ed; cbn [Z.eqb Pos.eqb IDE_CMD_WRITE IDE_CMD_READ]; unfold others; cbn [ib set_ib set_iport iport bufs set_disk set_hist].
    + rewrite Hp4 by done. rewrite <- Hal by done. done.
    + rewrite <- Hal by done. done.
Qed.

Lemma ready_intr d x : ready (intr_buf d x) = true.
Proof. unfold ready, intr_buf. destruct (dirty x); flag_bits; done. Qed.

Lemma sim_interrupt s W s1 :
  dinv s W → idone s = true → held (icore s) = [] → ideintr (set_idone false s) = Ret tt s1 →
  dinv s1 W ∧ rtc astep (rep s W) (rep s1 W).
Proof.
  intros [D1 D2 D3 D4 D5 D6] Hd Hh E. destruct (idequeue s) as [|b q] eqn:Eq; [destruct D5; congruence|].
  destruct D5 as [(_ & ? & _)|[Hc _]]; [congruence|]. apply NoDup_cons in D1 as [Hbq D1].
  assert (∀ b', b' ∈ q → b' ≠ b ∧ requestable (ib s) b') as Hq.
  { intros b' Hb'. split; [by intros ->|]. apply D2. by right. }
  destruct (ideintr_run b q (set_idone false s) Hh Eq Hq) as (s' & c & E' & _ & He & Hq' & Hd1 & Hdn & Hctl).
  rewrite E in E'. injection E' as ->. set (s1 := set_icore c s'). change (iport (set_idone false s)) with (iport s) in He.
  change (ib (set_idone false s)) with (ib s) in He. set (t := others b (intr_buf (iport s)) (ib s)) in *.
  assert (elsewhere (λ _, True) t (ib s1)) as He1 by (eapply elsewhere_trans; [exact He|apply elsewhere_core]).
  assert (∀ a, a ≠ b → elsewhere (λ a', a' = a) (ib s) t) as Hot by (intros a Hab; apply (finish_other true [b] (iport s)); set_solver).
  assert (∀ a, a ≠ b → elsewhere (λ a', a' = a) (ib s) (ib s1)) as Hos
    by (intros a Hab; eapply elsewhere_trans; [by apply Hot|by eapply elsewhere_mono; [|exact He1]]).
  split.
  - constructor; change (idequeue s1) with (idequeue s'); change (havedisk1 s1) with (havedisk1 s'); rewrite ?Hq', ?Hd1; try done.
    + intros a Ha. destruct (Hq a Ha). split; [by apply D2; right|]. by eapply elsewhere_requestable; [by apply Hos|..].
    + intros a Ha Hna. destruct (decide (a = b)) as [->|Hab].
      * destruct (D2 b) as [_ (Hlt & _)]; [set_solver|]. rewrite (elsewhere_getb _ _ _ _ He1) by done. destruct He1 as (_ & _ & -> & _).
        unfold t, others, getb. cbn. rewrite length_alter, list_lookup_alter_eq. destruct (lookup_lt_is_Some_2 _ _ Hlt) as [y ->]. split; [done|]. apply ready_intr.
      * destruct (D3 a Ha) as [Hl Hr]; [rewrite elem_of_cons; naive_solver|]. rewrite (elsewhere_getb _ _ _ a (Hos a Hab)) by done.
        destruct (Hos a Hab) as (_ & _ & -> & _). done.
    + change (icmd s1) with (icmd s'). change (idone s1) with (idone s'). rewrite Hdn. destruct q as [|b' q]; [by rewrite Hctl|].
      destruct Hctl as [-> Hpr]. left. split_and!; try done. rewrite (elsewhere_getb _ _ _ b' (Hos b' ltac:(apply Hq; set_solver))) by done. exact Hpr.
  - unfold rep, unserved, abs. change (idone s1) with (idone s'). change (idequeue s1) with (idequeue s'). rewrite Hdn, Hq', Hd, Eq. cbn [tail].
    assert (finish (idone (set_idone false s)) q (iport s1) (ib s1) = ib s1) as -> by (by destruct q).
    apply a_elsewhere. by eapply elsewhere_mono; [|exact He1].
Qed.

(** A process that runs again returns when its buffer is ready and sleeps when it
    is not. *)
Lemma resume_cases b x s :
  waiter b x → resumes (wt_me x) (icore s) → (0 < wt_left x)%nat →
  if ready (getb b (ib s)) then ∃ c, wt_k x s = Ret tt (set_icore c s)
  else ∃ c k, wt_k x s = Swtch (set_icore c s) k ∧ waiter b (mk_waiting (wt_me x) (pred (wt_left x)) k).
Proof.
  intros Hw Hr Hl. destruct (Hw s Hr) as (c3 & E & H1 & H2 & H3). destruct (wt_left x) as [|n]; [lia|]. rewrite E.
  change (getb b (ib s)) with (getb b (ib (set_icore c3 s))). destruct (ready _) eqn:Ey.
  - destruct (ide_wait_returns n b (set_icore c3 s)) as (c & Er); [done|done|]. by exists c.
  - destruct (ide_wait_sleeps (wt_me x) n b (set_icore c3 s)) as (c & k & Er & Hk); try done. by exists c, k.
Qed.

Lemma resume_left b x s a s1 : waiter b x → resumes (wt_me x) (icore s) → wt_k x s = Ret a s1 ∨ (∃ k, wt_k x s = Swtch s1 k) → (0 < wt_left x)%nat.
Proof.
  intros Hw Hr Hk. destruct (Hw s Hr) as (c3 & E & _). destruct (wt_left x); [|lia]. rewrite E in Hk. cbn in Hk. destruct Hk as [|[]]; done.
Qed.

Lemma sim_return s W b x s1 :
  dinv s W → W !! b = Some x → resumes (wt_me x) (icore s) → wt_k x s = Ret tt s1 →
  dinv s1 (delete b W) ∧ rtc astep (rep s W) (rep s1 (delete b W)).
Proof.
  intros Hi HW Hr E. pose proof (di_waiter _ _ Hi b x HW) as Hw. assert (awaited W b) as Ha by (by eexists).
  pose proof (resume_cases b x s Hw Hr (resume_left b x s tt s1 Hw Hr (or_introl E))) as Hc.
  destruct (ready (getb b (ib s))) eqn:Ey; [|destruct Hc as (? & ? & E' & _); congruence]. destruct Hc as (c & E').
  rewrite E in E'. injection E' as ->. assert (b ∉ idequeue s) as Hnq.
  { intros Hb. destruct (di_queue _ _ Hi b Hb) as [_ Hq%requestable_not_ready]. congruence. }
  split.
  - eapply dinv_ext; [exact Hi|apply elsewhere_core|done..| | |].
    + intros a [y Hy]. apply lookup_delete_Some in Hy as [_ Hy]. by eexists.
    + intros a Hq [y Hy]. exists y. apply lookup_delete_Some. split; [congruence|done].
    + intros a y Hy. apply lookup_delete_Some in Hy as [_ Hy]. by eapply di_waiter.
  - unfold rep. rewrite dom_delete_L. eapply rtc_l; [apply (a_return _ _ _ b)|].
    + by apply awaited_dom.
    + unfold unserved. destruct (idone s); [|done]. destruct (idequeue s); set_solver.
    + unfold abs. rewrite (elsewhere_getb _ _ _ b (finish_other (idone s) (idequeue s) (iport s) (ib s) b Hnq)) by done. done.
    + apply a_elsewhere, elsewhere_finish, elsewhere_core.
Qed.

Lemma sim_again s W b x s1 k :
  dinv s W → W !! b = Some x → resumes (wt_me x) (icore s) → wt_k x s = Swtch s1 k →
  let W' := <[b := mk_waiting (wt_me x) (pred (wt_left x)) k]> W in dinv s1 W' ∧ rtc astep (rep s W) (rep s1 W').
Proof.
  intros Hi HW Hr E W'. pose proof (di_waiter _ _ Hi b x HW) as Hw. assert (awaited W b) as Ha by (by eexists).
  pose proof (resume_cases b x s Hw Hr (resume_left b x s tt s1 Hw Hr (or_intror (ex_intro _ k E)))) as Hc.
  destruct (ready (getb b (ib s))); [destruct Hc as (? & E'); congruence|]. destruct Hc as (c & k' & E' & Hw').
  rewrite E in E'. injection E' as -> <-.
  assert (dom W' = dom W) as Hdom by (unfold W'; rewrite dom_insert_L; apply awaited_dom in Ha; set_solver).
  assert (∀ a, awaited W' a ↔ awaited W a) as HW' by (intros a; by rewrite !awaited_dom, Hdom).
  split.
  - eapply dinv_ext; [exact Hi|apply elsewhere_core|done..| | |].
    + intros a. apply HW'.
    + intros a _. apply HW'.
    + intros a y. unfold W'. destruct (decide (a = b)) as [->|]; [rewrite lookup_insert_eq; by intros [= <-]|rewrite lookup_insert_ne by done; apply (di_waiter _ _ Hi)].
  - unfold rep. rewrite Hdom. apply (rep_ext s (set_icore c s) W); try done.
Qed.

Lemma sim_step d d' : dinv d.1 d.2 → dstep d d' → dinv d'.1 d'.2 ∧ rtc astep (rep d.1 d.2) (rep d'.1 d'.2).
Proof.
  intros Hi Hs. destruct Hs; cbn [fst snd] in *.
  - by eapply sim_request.
  - by eapply sim_perform.
  - by eapply sim_interrupt.
  - by eapply sim_return.
  - by eapply sim_again.
  - split.
    + eapply dinv_ext; [exact Hi|done..|apply (di_waiter _ _ Hi)].
    + by apply rep_ext.
Qed.

(** No request, no command. *)
Definition idle (s : ist) : Prop := idequeue s = [] ∧ icmd s = false ∧ idone s = false ∧ havedisk1 s ≠ 0.

Lemma dinv_idle s : idle s → dinv s ∅.
Proof.
  intros (Hq & Hc & Hd & H1). constructor; rewrite ?Hq; try done.
  - constructor.
  - intros b Hb. by apply elem_of_nil in Hb.
  - intros b [x Hx]. done.
Qed.

Lemma sim_run s0 s W : idle s0 → rtc dstep (s0, ∅) (s, W) → dinv s W ∧ rtc astep (mk_ast (ib s0) [] ∅) (rep s W).
Proof.
  intros Hid Hr. assert (mk_ast (ib s0) [] ∅ = rep s0 ∅) as ->.
  { destruct Hid as (Hq & _ & Hd & _). unfold rep, abs, unserved. by rewrite Hq, Hd, dom_empty_L. }
  assert (∀ d d', rtc dstep d d' → dinv d.1 d.2 → dinv d'.1 d'.2 ∧ rtc astep (rep d.1 d.2) (rep d'.1 d'.2)) as H.
  { intros d d' Hr'. induction Hr' as [|d d1 d2 Hs _ IH]; intros Hi; [done|]. destruct (sim_step _ _ Hi Hs) as [Hi1 Ha1].
    destruct (IH Hi1). split; [done|]. by etrans. }
  apply (H _ _ Hr). by apply dinv_idle.
Qed.

(** C13: the driver implements a queue of requests for the memory disk, and does
    not stop.  Take an idle driver and a drive that becomes ready and reports no
    errors.  Whatever requests processes make for busy buffers of blocks of disk 1
    that have to be read or written, and however the controller, its
    interrupts, the processes that wait and the rest of the kernel, which does not
    touch the buffers being waited for, are interleaved: the state is one the
    specification [astep] reaches, where requests are served in the order they are
    made, each by one call of the memory disk's iderw, and return only after that.
    Here a request is served at the moment the controller performs it, from what
    the driver wrote to its registers; its buffer follows with the interrupt.  And
    at every moment: the controller has work or an interrupt is due while the queue
    is not empty; the handler of a due interrupt returns; a process whose request
    is no longer in the queue returns from iderw when it runs (unless it was woken
    in vain more often than the bound of its loop allows); and a new request is
    accepted.  None of these panics. *)
Theorem ide_refines_memide s0 s W :
  idle s0 → rtc dstep (s0, ∅) (s, W) →
  rtc astep (mk_ast (ib s0) [] ∅) (mk_ast (abs s) (unserved s) (dom W)) ∧
  (idequeue s ≠ [] → icmd s = true ∨ idone s = true) ∧
  (idone s = true → ∀ c, held c = [] → ∃ s1, ideintr (set_idone false (set_icore c s)) = Ret tt s1) ∧
  (∀ b x c, W !! b = Some x → b ∉ idequeue s → (0 < wt_left x)%nat → resumes (wt_me x) c →
    ∃ s1, wt_k x (set_icore c s) = Ret tt s1) ∧
  (∀ me w b, runs me (icore s) → requestable (ib s) b → ¬ awaited W b → ∃ s1 k, ide_iderw (S w) b s = Swtch s1 k).
Proof.
  intros Hid Hr. destruct (sim_run s0 s W Hid Hr) as [Hi Ha]. split; [exact Ha|]. split_and!.
  - pose proof (di_ctl _ _ Hi) as Hc. destruct (idequeue s); [done|]. naive_solver.
  - intros Hd c Hc. pose proof (di_ctl _ _ Hi) as Hctl. destruct (idequeue s) as [|b q] eqn:Eq; [destruct Hctl; congruence|].
    pose proof (di_nodup _ _ Hi) as Hnd. rewrite Eq in Hnd. apply NoDup_cons in Hnd as [Hbq _].
    destruct (ideintr_run b q (set_idone false (set_icore c s))) as (s' & c' & E & _); [done|done| |by eexists].
    intros b' Hb'. split; [by intros ->|]. apply (di_queue _ _ Hi). rewrite Eq. by right.
  - intros b x c HW Hnq Hl Hres. destruct (di_served _ _ Hi b) as [_ Hy]; [by eexists|done|].
    pose proof (resume_cases b x (set_icore c s) (di_waiter _ _ Hi b x HW) Hres Hl) as H.
    change (getb b (ib (set_icore c s))) with (getb b (ib s)) in H. rewrite Hy in H. destruct H as (c' & E). by eexists.
  - intros me w b Hrun Hreq Hna. assert (b ∉ idequeue s) as Hnq by (intros Hb; by destruct (di_queue _ _ Hi b Hb)).
    destruct (ide_iderw_waits w me b s Hrun Hreq Hnq (di_disk1 _ _ Hi)) as (s' & c & k & E & _). by eexists _, _.
Qed.

End ide.

(** One dirty buffer, written to block 1. *)
Definition ex_ide : ist :=
  mk_ist (mk_bst (ex_core 0) [mk_buf (Z.lor B_BUSY B_DIRTY) 1 1 0%nat 0%nat [7]] [[1]; [2]] []) [] 1 (λ _, 0) [] [] false false 0.

Lemma ex_ide_request :
  match ide_iderw (λ _, 64) 1 2 0 ex_ide with
  | Swtch s1 _ => icmd s1 = true ∧ idone (ide_perform s1) = true ∧ disk (ib (ide_perform s1)) = [[1]; [7]]
  | _ => False
  end.
Proof. vm_compute. done. Qed.

Lemma ide_refines_memide_witness :
  ∃ s1 k, ide_iderw (λ _, 64) 1 2 0 ex_ide = Swtch s1 k ∧ disk (ib (ide_perform s1)) = [[1]; [7]] ∧
    ∀ c, held c = [] → ∃ s3, ideintr (λ _, 64) 1 (set_idone false (set_icore c (ide_perform s1))) = Ret tt s3.
Proof.
  pose proof ex_ide_request as Hex.
  destruct (ide_iderw (λ _, 64) 1 2 0 ex_ide) as [| |s1 k|] eqn:E; [done|done| |done]. destruct Hex as (Hc & Hd & Hk).
  exists s1, k. split; [done|]. split; [done|].
  destruct (ide_refines_memide (λ _, 64) 1) with (s0 := ex_ide) (s := ide_perform s1) (W := (<[0%nat := mk_waiting 0 1 k]> ∅ : gmap nat waiting)) as (_ & _ & H2 & _).
  - intros n. exists 0%nat. split; [lia|reflexivity].
  - intros n. reflexivity.
  - split_and!; done.
  - eapply rtc_l; [apply (d_request (λ _, 64) 1 ex_ide ∅ 0 1 0 s1 k); [| | |exact E]|apply rtc_once, d_perform, Hc].
    + split_and!; [done|cbn; lia|done].
    + by intros [x Hx].
    + split_and!; try done; cbn; lia.
  - intros c Hcc. apply H2; [exact Hd|exact Hcc].
Defined.
