(* ===== verification/Boot.v ===== *)
(** * The boot loader and the boot page table (bootmain.c, entrypgdir of main.c)

    [bootst] is the memory, the registers of the disk controller that the loader
    writes and the number of status reads.  The sectors of the disk and the
    values of the status port are parameters: after command 0x20 for one sector
    the controller delivers the one whose number is in its registers.

    The theorems: the loader puts the segments of the kernel file where their
    headers say, and through the boot page table the first 4 MB of memory are
    seen both at 0 and at KERNBASE. *)
From S2P Require Import Prelude Kernel CString Spinlock Kalloc Vm.

Local Open Scope Z_scope.
Local Open Scope kernel_scope.

Abbreviation SECTSIZE := (512).
Definition BOOT_ELF : Z := 65536.            (* 0x10000 *)
Abbreviation BOOT_MAGIC := (1179403647).     (* ELF_MAGIC *)

Record bootst := mk_bootst {
  bmem : mem;
  bports : Z → Z;                     (* the last byte written to each port *)
  bpolls : nat
}.

Definition set_bmem (v : mem) (x : bootst) : bootst := mk_bootst v (bports x) (bpolls x).
Definition set_bports (v : Z → Z) (x : bootst) : bootst := mk_bootst (bmem x) v (bpolls x).
Definition set_bpolls (v : nat) (x : bootst) : bootst := mk_bootst (bmem x) (bports x) v.

Fixpoint store_list (m : mem) (a : Z) (l : list Z) : mem :=
  match l with
  | [] => m
  | b :: l => store_list (<[a := b]> m) (a + 1) l
  end.

Definition ld16 (m : mem) (a : Z) : Z := m a + 256 * m (a + 1).

Section boot.
  Variable disk : Z → list Z.         (* the 512 bytes of each sector *)
  Variable status : nat → Z.          (* what port 0x1F7 gives, read by read *)
  Variable polls : nat.               (* bound on the reads of one wait *)

Definition boot_outb (port data : Z) : M bootst unit :=
  modify (λ s, set_bports (<[port := u8 data]> (bports s)) s).

Fixpoint wait_loop (fuel : nat) : M bootst unit :=
  match fuel with
  | O => nofuel
  | S fuel =>
      n <- gets bpolls;;
      modify (set_bpolls (S n));;
      if Z.land (status n) 192 =? 64 then ret tt else wait_loop fuel
  end.

Definition waitdisk : M bootst unit := wait_loop polls.

(** The sector number in the controller's registers. *)
Definition lba (p : Z → Z) : Z := p 499 + 256 * p 500 + 65536 * p 501 + 16777216 * Z.land (p 502) 15.

(** Command 0x20 for one sector of drive 0, addressed by its number. *)
Definition read_issued (p : Z → Z) : bool := (p 503 =? 32) && (p 498 =? 1) && (Z.land (p 502) 240 =? 224).

Definition insl_sector (dst : Z) : M bootst unit :=
  modify (λ s, if read_issued (bports s) then set_bmem (store_list (bmem s) dst (disk (lba (bports s)))) s else s).

Definition readsect (dst offset : Z) : M bootst unit :=
  waitdisk;;
  boot_outb 498 1;;
  boot_outb 499 offset;;
  boot_outb 500 (Z.shiftr offset 8);;
  boot_outb 501 (Z.shiftr offset 16);;
  boot_outb 502 (Z.lor (Z.shiftr offset 24) 224);;
  boot_outb 503 32;;
  waitdisk;;
  insl_sector dst.

Fixpoint readseg_loop (n : nat) (pa epa offset : Z) : M bootst unit :=
  match n with
  | O => nofuel
  | S n =>
      if pa <? epa then readsect pa offset;; readseg_loop n (u32 (pa + SECTSIZE)) epa (u32 (offset + 1))
      else ret tt
  end.

Definition readseg (pa count offset : Z) : M bootst unit :=
  readseg_loop (Z.to_nat (count / SECTSIZE) + 3) (u32 (pa - offset mod SECTSIZE)) (u32 (pa + count)) (offset / SECTSIZE + 1).

(** The loop over the program headers from [ph] to [eph]. *)
Fixpoint load_segments (n : nat) (ph eph : Z) : M bootst unit :=
  match n with
  | O => nofuel
  | S n =>
      if ph <? eph then
        m <- gets bmem;;
        let pa := ld32 m (ph + 12) in
        readseg pa (ld32 m (ph + 16)) (ld32 m (ph + 4));;
        m <- gets bmem;;
        let memsz := ld32 m (ph + 20) in
        let filesz := ld32 m (ph + 16) in
        when (filesz <? memsz) do
          modify (λ s, set_bmem (stosb (bmem s) (u32 (pa + filesz)) 0 (Z.to_nat (memsz - filesz))) s);;
        load_segments n (u32 (ph + 32)) eph
      else ret tt
  end.

(** The entry point the loader jumps to, or None when it returns. *)
Definition bootmain : M bootst (option Z) :=
  readseg BOOT_ELF 4096 0;;
  m <- gets bmem;;
  if negb (ld32 m BOOT_ELF =? BOOT_MAGIC) then ret None
  else
    let ph := u32 (BOOT_ELF + ld32 m (BOOT_ELF + 28)) in
    let phnum := ld16 m (BOOT_ELF + 44) in
    load_segments (S (Z.to_nat phnum)) ph (u32 (ph + 32 * phnum));;
    m <- gets bmem;;
    ret (Some (ld32 m (BOOT_ELF + 24))).

(** ** Reading sectors *)

(** Byte [i] of the kernel file, which starts at sector 1. *)
Definition kbyte (i : Z) : Z := default 0 (disk (i / SECTSIZE + 1) !! Z.to_nat (i mod SECTSIZE)).

Hypothesis disk_sectors : ∀ k, length (disk k) = 512%nat.
Hypothesis disk_ready : ∀ n, ∃ k, (k < polls)%nat ∧ Z.land (status (n + k)%nat) 192 = 64.

Lemma store_list_spec l m a x :
  store_list m a l x = if (a <=? x) && (x <? a + Z.of_nat (length l)) then default 0 (l !! Z.to_nat (x - a)) else m x.
Proof.
  revert m a. induction l as [|b l IH]; intros m a; cbn [store_list length].
  - destruct (a <=? x) eqn:E1, (x <? a + Z.of_nat 0) eqn:E2; bools; try done; lia.
  - rewrite IH. destruct (decide (x = a)) as [->|Hne].
    + rewrite (proj2 (Z.leb_gt (a + 1) a)), (proj2 (Z.leb_le a a)), (proj2 (Z.ltb_lt a (a + Z.of_nat (S (length l))))) by lia. cbn [andb]. rewrite fn_lookup_insert.
      replace (Z.to_nat (a - a)) with 0%nat by lia. done.
    + rewrite fn_lookup_insert_ne by congruence.
      assert ((a + 1 <=? x) && (x <? a + 1 + Z.of_nat (length l)) = (a <=? x) && (x <? a + Z.of_nat (S (length l)))) as ->.
      { destruct (a + 1 <=? x) eqn:E1, (a <=? x) eqn:E2, (x <? a + 1 + Z.of_nat (length l)) eqn:E3, (x <? a + Z.of_nat (S (length l))) eqn:E4; bools; try done; lia. }
      destruct (_ && _) eqn:E; [|done]. bools. replace (Z.to_nat (x - a)) with (S (Z.to_nat (x - (a + 1)))) by lia. done.
Qed.

Lemma wait_ok fuel s : (∃ k, (k < fuel)%nat ∧ Z.land (status (bpolls s + k)%nat) 192 = 64) → ∃ n, wait_loop fuel s = Ret tt (set_bpolls n s).
Proof.
  revert s. induction fuel as [|fuel IH]; intros s (k & Hk & Hs); [lia|]. cbn [wait_loop]. unfold bind, gets, modify. cbn [obind].
  destruct (Z.land (status (bpolls s)) 192 =? 64) eqn:E; bools; [by eexists|].
  destruct (IH (set_bpolls (S (bpolls s)) s)) as [n En].
  - destruct k as [|k]; [by rewrite Nat.add_0_r in Hs|]. exists k. split; [lia|]. cbn [bpolls set_bpolls]. by rewrite Nat.add_succ_comm.
  - exists n. rewrite En. done.
Qed.

Lemma waitdisk_ok s : ∃ n, waitdisk s = Ret tt (set_bpolls n s).
Proof. apply wait_ok, disk_ready. Qed.

Lemma lba_ports offset : 0 ≤ offset < 268435456 →
  u8 offset + 256 * u8 (Z.shiftr offset 8) + 65536 * u8 (Z.shiftr offset 16) + 16777216 * Z.land (u8 (Z.lor (Z.shiftr offset 24) 224)) 15 = offset.
Proof.
  intros H. rewrite !Z.shiftr_div_pow2 by lia. change 15 with (Z.ones 4). unfold u8. change 256 with (2 ^ 8) at 5.
  rewrite <- Z.land_ones, <- Z.land_assoc by lia. change (Z.land (Z.ones 8) (Z.ones 4)) with (Z.ones 4).
  rewrite Z.land_lor_distr_l. change (Z.land 224 (Z.ones 4)) with 0. rewrite Z.lor_0_r, Z.land_ones by lia.
  change (2 ^ 4) with 16. change (2 ^ 8) with 256. change (2 ^ 16) with 65536. change (2 ^ 24) with 16777216. Z.div_mod_to_equations. lia.
Qed.

Lemma drive_port k : 0 ≤ k < 268435456 → Z.land (u8 (Z.lor (Z.shiftr k 24) 224)) 240 = 224.
Proof.
  intros H. rewrite Z.shiftr_div_pow2 by lia. change (2 ^ 24) with 16777216.
  assert (Forall (λ a, Z.land (u8 (Z.lor a 224)) 240 = 224) (seqZ 0 16)) as Hall by (apply (bool_decide_unpack _); vm_compute; exact I).
  rewrite Forall_forall in Hall. apply Hall, elem_of_seqZ. Z.div_mod_to_equations. lia.
Qed.

Lemma readsect_ok dst k s : 0 ≤ k < 268435456 →
  ∃ s', readsect dst k s = Ret tt s' ∧ bmem s' = store_list (bmem s) dst (disk k).
Proof.
  intros Hk. unfold readsect. destruct (waitdisk_ok s) as [n1 E1]. rewrite (bind_Ret _ _ _ _ _ E1). clear E1.
  do 6 (unfold bind at 1, boot_outb at 1, modify at 1; cbn [obind]). set (s1 := set_bports _ _).
  destruct (waitdisk_ok s1) as [n2 E2]. rewrite (bind_Ret _ _ _ _ _ E2). clear E2. unfold insl_sector, modify. eexists. split; [done|].
  assert (read_issued (bports s1) = true ∧ lba (bports s1) = k) as [Hr Hlba].
  { unfold read_issued, lba. cbn [bports s1 set_bports]. repeat (rewrite fn_lookup_insert || rewrite fn_lookup_insert_ne by done).
    split; [rewrite drive_port by done; done|by apply lba_ports]. }
  cbn [bports set_bpolls]. rewrite Hr, Hlba. done.
Qed.

(** The sectors from [pa] to cover the bytes up to [epa]. *)
Definition sectors (pa epa : Z) : Z := Z.max 0 ((epa - pa + 511) / 512).

Lemma readseg_loop_ok n : ∀ pa epa k s,
  0 ≤ pa → 0 ≤ epa → pa + 512 * sectors pa epa < W32 → 0 ≤ k → k + sectors pa epa ≤ 268435456 → sectors pa epa < Z.of_nat n →
  ∃ s', readseg_loop n pa epa k s = Ret tt s' ∧ ∀ x, bmem s' x =
    if (pa <=? x) && (x <? pa + 512 * sectors pa epa) then default 0 (disk (k + (x - pa) / 512) !! Z.to_nat ((x - pa) mod 512)) else bmem s x.
Proof.
  induction n as [|n IH]; intros pa epa k s Hpa Hepa Hw Hk Hk2 Hn; [unfold sectors in *; lia|]. cbn [readseg_loop].
  destruct (pa <? epa) eqn:Elt; bools.
  2: { exists s. split; [done|]. intros x. assert (sectors pa epa = 0) as -> by (unfold sectors; Z.div_mod_to_equations; lia).
       destruct (pa <=? x) eqn:E1, (x <? pa + 512 * 0) eqn:E2; bools; try done; lia. }
  assert (sectors (pa + 512) epa = sectors pa epa - 1 ∧ 1 ≤ sectors pa epa) as [Es Es1] by (unfold sectors; Z.div_mod_to_equations; lia).
  destruct (readsect_ok pa k s) as (s1 & E1 & M1); [lia|]. rewrite (bind_Ret _ _ _ _ _ E1). unfold u32.
  rewrite (Z.mod_small (pa + 512)), (Z.mod_small (k + 1)) by (unfold W32 in *; lia).
  destruct (IH (pa + 512) epa (k + 1) s1) as (s2 & E2 & M2); [lia..|]. exists s2. split; [done|]. intros x. rewrite M2, M1, store_list_spec, disk_sectors, Es.
  change (Z.of_nat 512) with 512. destruct (decide (pa ≤ x < pa + 512)) as [Hin|Hout].
  - rewrite (proj2 (Z.leb_gt (pa + 512) x)) by lia. cbn [andb]. rewrite !(proj2 (Z.leb_le pa x)), !(proj2 (Z.ltb_lt x _)) by lia. cbn [andb].
    rewrite (Z.div_small (x - pa)), Z.mod_small, Z.add_0_r by lia. done.
  - assert ((pa <=? x) && (x <? pa + 512) = false) as -> by (destruct (pa <=? x) eqn:E3, (x <? pa + 512) eqn:E4; bools; try done; lia).
    assert ((pa + 512 <=? x) && (x <? pa + 512 + 512 * (sectors pa epa - 1)) = (pa <=? x) && (x <? pa + 512 * sectors pa epa)) as ->.
    { destruct (pa + 512 <=? x) eqn:E3, (pa <=? x) eqn:E4, (x <? pa + 512 + 512 * (sectors pa epa - 1)) eqn:E5, (x <? pa + 512 * sectors pa epa) eqn:E6; bools; try done; lia. }
    destruct (_ && _) eqn:E; [|done]. bools. replace (x - pa) with (x - (pa + 512) + 1 * 512) by lia. rewrite Z.div_add, Z.mod_add by lia.
    by replace (k + ((x - (pa + 512)) / 512 + 1)) with (k + 1 + (x - (pa + 512)) / 512) by lia.
Qed.

(** What readseg does to the memory: the file at [offset] appears at [pa], with
    the rest of the first and the last sector around it. *)
Lemma readseg_ok pa count offset s :
  0 ≤ count → 0 ≤ offset < W32 → offset mod 512 ≤ pa → pa + count + 512 < W32 →
  let lo := pa - offset mod 512 in
  ∃ s' hi, readseg pa count offset s = Ret tt s' ∧ pa + count ≤ hi ∧
    ∀ x, bmem s' x = if (lo <=? x) && (x <? hi) then kbyte (offset + (x - pa)) else bmem s x.
Proof.
  intros Hc Ho Hlo Hw lo. assert (0 ≤ offset mod 512 < 512) as Hm by (by apply Z.mod_pos_bound). unfold readseg, u32.
  rewrite (Z.mod_small (pa - offset mod 512)), (Z.mod_small (pa + count)) by (unfold W32 in *; lia). fold lo.
  assert (sectors lo (pa + count) * 512 < pa + count - lo + 512 ∧ pa + count - lo ≤ sectors lo (pa + count) * 512) as [Hs1 Hs2]
    by (unfold sectors, lo; Z.div_mod_to_equations; lia).
  assert (0 ≤ sectors lo (pa + count)) as Hs0 by (unfold sectors; lia).
  destruct (readseg_loop_ok (Z.to_nat (count / 512) + 3) lo (pa + count) (offset / 512 + 1) s) as (s' & E & M); try (unfold lo in *; lia).
  - unfold lo in *. Z.div_mod_to_equations. lia.
  - unfold lo, W32 in *. Z.div_mod_to_equations. lia.
  - unfold lo in *. Z.div_mod_to_equations. lia.
  - exists s', (lo + 512 * sectors lo (pa + count)). split_and!; [done|lia|]. intros x. rewrite M. destruct (_ && _) eqn:E2; [|done].
    unfold kbyte. assert (offset + (x - pa) = x - lo + (offset / 512) * 512) as -> by (unfold lo; pose proof (Z.div_mod offset 512); lia).
    rewrite Z.div_add, Z.mod_add by lia. by replace (offset / 512 + 1 + (x - lo) / 512) with ((x - lo) / 512 + offset / 512 + 1) by lia.
Qed.

(** ** The segments of the kernel *)

Hypothesis disk_bytes : ∀ k, Forall (λ b, 0 ≤ b < 256) (disk k).

Definition kword (a : Z) : Z := ld32 kbyte a.

(** A program header of the file. *)
Record kseg := mk_kseg { g_off : Z; g_pa : Z; g_filesz : Z; g_memsz : Z }.
Definition kseg_at (a : Z) : kseg := mk_kseg (kword (a + 4)) (kword (a + 12)) (kword (a + 16)) (kword (a + 20)).
Fixpoint ksegs (n : nat) (a : Z) : list kseg :=
  match n with
  | O => []
  | S n => kseg_at a :: ksegs n (a + 32)
  end.

(** The segments lie above [lo] in increasing order, with room for the rest of
    the first sector of each. *)
Fixpoint loadable (lo : Z) (gs : list kseg) : Prop :=
  match gs with
  | [] => True
  | g :: gs => lo ≤ g_pa g - g_off g mod 512 ∧ g_filesz g ≤ g_memsz g ∧ g_pa g + g_memsz g + 512 < W32 ∧ loadable (g_pa g + g_memsz g) gs
  end.

Definition loaded (m : mem) (g : kseg) : Prop :=
  ∀ j, 0 ≤ j < g_memsz g → m (g_pa g + j) = if j <? g_filesz g then kbyte (g_off g + j) else 0.

(** The first page of the file in memory. *)
Definition header_in (m : mem) : Prop := ∀ i, 0 ≤ i < 4096 → m (BOOT_ELF + i) = kbyte i.

Lemma kbyte_range i : 0 ≤ kbyte i < 256.
Proof.
  unfold kbyte. destruct (disk _ !! _) as [b|] eqn:E; cbn; [|lia]. by eapply (Forall_lookup_1 _ _ _ _ (disk_bytes _)) in E.
Qed.

Lemma kword_range a : 0 ≤ kword a < W32.
Proof. unfold kword, ld32, W32. pose proof (kbyte_range a). pose proof (kbyte_range (a + 1)). pose proof (kbyte_range (a + 2)). pose proof (kbyte_range (a + 3)). lia. Qed.

Lemma header_word m a : header_in m → 0 ≤ a ≤ 4092 → ld32 m (BOOT_ELF + a) = kword a.
Proof. intros H Ha. unfold kword, ld32. rewrite <- !Z.add_assoc, !H by lia. done. Qed.

Lemma load_segments_ok n : ∀ a lo s,
  header_in (bmem s) → 0 ≤ a → a + 32 * Z.of_nat n ≤ 4096 → BOOT_ELF + 4096 ≤ lo → loadable lo (ksegs n a) →
  ∃ s', load_segments (S n) (BOOT_ELF + a) (BOOT_ELF + a + 32 * Z.of_nat n) s = Ret tt s' ∧ (∀ x, x < lo → bmem s' x = bmem s x) ∧ Forall (loaded (bmem s')) (ksegs n a).
Proof.
  unfold BOOT_ELF. induction n as [|n IH]; intros a lo s Hh Ha Hn Hlo Hl; cbn [ksegs].
  { exists s. cbn [load_segments]. by rewrite Z.add_0_r, Z.ltb_irrefl. }
  set (n0 := S n) at 1. cbn [load_segments]. rewrite (proj2 (Z.ltb_lt _ _)) by lia. subst n0.
  cbn [ksegs loadable] in Hl. set (g := kseg_at a) in *. destruct Hl as (L1 & L2 & L3 & L4).
  pose proof (kword_range (a + 4)) as R1. pose proof (kword_range (a + 12)) as R2. pose proof (kword_range (a + 16)) as R3.
  change (kword (a + 4)) with (g_off g) in R1. change (kword (a + 12)) with (g_pa g) in R2. change (kword (a + 16)) with (g_filesz g) in R3.
  assert (0 ≤ g_off g mod 512 < 512) as Hm by (by apply Z.mod_pos_bound).
  unfold bind at 1, gets at 1. cbn [obind]. rewrite <- !(Z.add_assoc 65536 a).
  rewrite !(header_word (bmem s)) by (done || lia). change (kword (a + 12)) with (g_pa g). change (kword (a + 16)) with (g_filesz g). change (kword (a + 4)) with (g_off g).
  cbv zeta. destruct (readseg_ok (g_pa g) (g_filesz g) (g_off g) s) as (s1 & hi & E1 & Hhi & M1); [lia|lia|lia|lia|].
  rewrite (bind_Ret _ _ _ _ _ E1). clear E1. unfold bind at 1, gets at 1. cbn [obind].
  assert (∀ x, x < lo → bmem s1 x = bmem s x) as F1.
  { intros x Hx. rewrite M1. by rewrite (proj2 (Z.leb_gt (g_pa g - g_off g mod 512) x)) by lia. }
  assert (header_in (bmem s1)) as Hh1 by (intros i Hi; rewrite F1 by (unfold BOOT_ELF; lia); by apply Hh).
  rewrite !(header_word (bmem s1)) by (done || lia). change (kword (a + 20)) with (g_memsz g). change (kword (a + 16)) with (g_filesz g).
  rewrite (u32_small (g_pa g + g_filesz g)) by (unfold W32 in *; lia).
  set (s2 := if g_filesz g <? g_memsz g then set_bmem (stosb (bmem s1) (g_pa g + g_filesz g) 0 (Z.to_nat (g_memsz g - g_filesz g))) s1 else s1).
  rewrite (bind_Ret _ _ s1 tt s2) by (unfold s2; by destruct (g_filesz g <? g_memsz g)).
  assert (∀ x, bmem s2 x = if (g_pa g + g_filesz g <=? x) && (x <? g_pa g + g_memsz g) then 0 else bmem s1 x) as M2.
  { intros x. unfold s2. destruct (g_filesz g <? g_memsz g) eqn:E; bools; cbn [bmem set_bmem].
    - rewrite stosb_spec. rewrite Z2Nat.id by lia. by replace (g_pa g + g_filesz g + (g_memsz g - g_filesz g)) with (g_pa g + g_memsz g) by lia.
    - destruct (_ <=? x) eqn:E2, (x <? _) eqn:E3; bools; try done; lia. }
  assert (∀ x, x < lo → bmem s2 x = bmem s x) as F2.
  { intros x Hx. rewrite M2, (proj2 (Z.leb_gt (g_pa g + g_filesz g) x)) by lia. by apply F1. }
  destruct (IH (a + 32) (g_pa g + g_memsz g) s2) as (s3 & E3 & F3 & H3); [|lia|lia|lia|done|].
  { intros i Hi. rewrite F2 by (unfold BOOT_ELF; lia). by apply Hh. }
  exists s3. rewrite (u32_small (65536 + (a + 32))) by (unfold W32; lia).
  split_and!; [rewrite <- E3; f_equal; lia|intros x Hx; rewrite F3 by lia; by apply F2|]. constructor; [|done].
  intros j Hj. rewrite F3 by lia. rewrite M2. destruct (j <? g_filesz g) eqn:Ej; bools.
  - rewrite (proj2 (Z.leb_gt (g_pa g + g_filesz g) (g_pa g + j))) by lia. cbn [andb]. rewrite M1.
    rewrite (proj2 (Z.leb_le _ (g_pa g + j))), (proj2 (Z.ltb_lt (g_pa g + j) hi)) by lia. cbn [andb]. f_equal. lia.
  - rewrite (proj2 (Z.leb_le _ (g_pa g + j))), (proj2 (Z.ltb_lt (g_pa g + j) _)) by lia. done.
Qed.

(** C20: The boot loader.  When the disk answers and the file that starts at
    sector 1 is an ELF file whose program headers are in its first page and whose
    segments lie in increasing order above the loader's scratch page, bootmain
    jumps to the entry point of the header, and each segment is in memory at its
    physical address: its bytes of the file, followed by zeros up to its size in
    memory.  Without the magic number it returns. *)
Theorem bootmain_loads s :
  let phoff := kword 28 in let phnum := Z.to_nat (ld16 kbyte 44) in
  (kword 0 ≠ BOOT_MAGIC → ∃ s', bootmain s = Ret None s') ∧
  (kword 0 = BOOT_MAGIC → phoff + 32 * Z.of_nat phnum ≤ 4096 → loadable (BOOT_ELF + 4096) (ksegs phnum phoff) →
   ∃ s', bootmain s = Ret (Some (kword 24)) s' ∧ Forall (loaded (bmem s')) (ksegs phnum phoff)).
Proof.
  intros phoff phnum. destruct (readseg_ok BOOT_ELF 4096 0 s) as (s1 & hi & E1 & Hhi & M1); [lia|unfold W32; lia|done|done|].
  assert (header_in (bmem s1)) as Hh.
  { intros i Hi. rewrite M1. change (0 mod 512) with 0. rewrite Z.sub_0_r, (proj2 (Z.leb_le _ _)), (proj2 (Z.ltb_lt _ hi)) by lia. cbn [andb]. f_equal. lia. }
  assert (ld32 (bmem s1) BOOT_ELF = kword 0) as E0 by (rewrite <- (Z.add_0_r BOOT_ELF); apply header_word; [done|lia]).
  unfold bootmain. rewrite (bind_Ret _ _ _ _ _ E1). clear E1. split; unfold bind at 1, gets at 1; cbn [obind]; rewrite E0.
  - intros Hne. rewrite (proj2 (Z.eqb_neq _ _)) by done. by exists s1.
  - intros Hmag Hfit Hload. rewrite Hmag, Z.eqb_refl. cbn [negb]. rewrite !(header_word _ 28) by (done || lia). fold phoff.
    cbv zeta. assert (0 ≤ ld16 kbyte 44) as H16 by (unfold ld16; pose proof (kbyte_range 44); pose proof (kbyte_range (44 + 1)); lia).
    assert (ld16 (bmem s1) (BOOT_ELF + 44) = ld16 kbyte 44) as -> by (unfold ld16; rewrite <- Z.add_assoc, !Hh by lia; done). fold phnum.
    pose proof (kword_range 28) as Hp. fold phoff in Hp.
    rewrite !u32_small by (unfold BOOT_ELF, W32, phnum in *; lia). replace (ld16 kbyte 44) with (Z.of_nat phnum) by (unfold phnum; lia).
    destruct (load_segments_ok phnum phoff (BOOT_ELF + 4096) s1) as (s2 & E2 & F2 & H2); [done|lia|lia|lia|done|].
    rewrite (bind_Ret _ _ _ _ _ E2). unfold bind at 1, gets at 1. cbn [obind]. exists s2. split; [|done]. unfold ret. do 2 f_equal.
    apply header_word; [|lia]. intros i Hi. rewrite F2 by lia. by apply Hh.
Qed.

End boot.

(** A disk with a kernel of one segment: 4 bytes of the file at 4100, 6 in
    memory at 0x100004. *)
Definition disk_ex (k : Z) : list Z :=
  if k =? 1 then
    [127; 69; 76; 70] ++ repeat 0 20 ++ [12; 0; 16; 0] ++ [52; 0; 0; 0] ++ repeat 0 12 ++ [1; 0] ++ repeat 0 6 ++
    [1; 0; 0; 0; 4; 16; 0; 0; 0; 0; 0; 0; 4; 0; 16; 0; 4; 0; 0; 0; 6; 0; 0; 0] ++ repeat 0 436
  else if k =? 9 then [9; 9; 9; 9; 11; 22; 33; 44] ++ repeat 7 504
  else repeat 0 512.

Lemma bootmain_loads_witness : ∃ s',
  bootmain disk_ex (λ _, 64) 1 (mk_bootst (λ _, 5) (λ _, 0) 0) = Ret (Some 1048588) s' ∧
  map (bmem s') [1048580; 1048581; 1048582; 1048583; 1048584; 1048585] = [11; 22; 33; 44; 0; 0].
Proof.
  destruct (proj2 (bootmain_loads disk_ex (λ _, 64) 1
    ltac:(intros k; unfold disk_ex; destruct (k =? 1), (k =? 9); reflexivity)
    ltac:(intros n; exists 0%nat; split; [lia|reflexivity])
    ltac:(intros k; unfold disk_ex; destruct (k =? 1), (k =? 9); apply (bool_decide_unpack _); vm_compute; exact I)
    (mk_bootst (λ _, 5) (λ _, 0) 0))) as (s' & E & H); [reflexivity|vm_compute; congruence|vm_compute; repeat split; congruence|].
  exists s'. split; [exact E|]. change (ksegs disk_ex _ _) with [kseg_at disk_ex 52] in H.
  apply Forall_inv in H. unfold loaded in H. cbn [map].
  change (g_pa (kseg_at disk_ex 52)) with 1048580 in H. change (g_memsz (kseg_at disk_ex 52)) with 6 in H.
  repeat f_equal; [exact (H 0 ltac:(lia))|exact (H 1 ltac:(lia))|exact (H 2 ltac:(lia))|exact (H 3 ltac:(lia))|exact (H 4 ltac:(lia))|exact (H 5 ltac:(lia))].
Defined.

(** ** The boot page table *)

Definition PTE_PS : Z := 128.

Definition entrypgdir (i : Z) : Z :=
  if i =? 0 then Z.lor (Z.lor (Z.lor 0 PTE_P) PTE_W) PTE_PS
  else if i =? Z.shiftr KERNBASE 22 then Z.lor (Z.lor (Z.lor 0 PTE_P) PTE_W) PTE_PS
  else 0.

(** What the processor does with a directory of 4 MB pages. *)
Definition translate_4mb (pgdir : Z → Z) (va : Z) : option Z :=
  let e := pgdir (PDX va) in
  if has PTE_P e && has PTE_PS e then Some (Z.lor (Z.land e (Z.lnot 4194303)) (Z.land va 4194303)) else None.

(** The boot page table maps the first 4 MB at 0 and at KERNBASE, and nothing
    else. *)
Lemma entrypgdir_maps va : 0 ≤ va < W32 →
  translate_4mb entrypgdir va =
  if va <? 4194304 then Some va
  else if (KERNBASE <=? va) && (va <? KERNBASE + 4194304) then Some (va - KERNBASE)
  else None.
Proof.
  intros Hva. unfold translate_4mb, PDX. change 1023 with (Z.ones 10). change 4194303 with (Z.ones 22).
  rewrite !Z.land_ones, Z.shiftr_div_pow2 by lia. change (2 ^ 22) with 4194304. change (2 ^ 10) with 1024.
  assert (va / 4194304 mod 1024 = va / 4194304) as -> by (apply Z.mod_small; unfold W32 in Hva; Z.div_mod_to_equations; lia).
  unfold entrypgdir. change (Z.shiftr KERNBASE 22) with 512. unfold KERNBASE.
  destruct (va / 4194304 =? 0) eqn:E0; [|destruct (va / 4194304 =? 512) eqn:E1]; bools.
  - rewrite (proj2 (Z.ltb_lt _ _)) by (Z.div_mod_to_equations; lia). change (has _ _ && has _ _) with true. cbn [andb].
    f_equal. change (Z.land _ (Z.lnot _)) with 0. rewrite Z.lor_0_l. Z.div_mod_to_equations. lia.
  - rewrite (proj2 (Z.ltb_ge _ _)), (proj2 (Z.leb_le _ _)), (proj2 (Z.ltb_lt _ _)) by (Z.div_mod_to_equations; lia). cbn [andb].
    change (has _ _ && has _ _) with true. cbn [andb].
    f_equal. change (Z.land _ (Z.lnot _)) with 0. rewrite Z.lor_0_l. Z.div_mod_to_equations. lia.
  - change (has _ 0 && has _ 0) with false. cbn [andb]. rewrite (proj2 (Z.ltb_ge _ _)) by (Z.div_mod_to_equations; lia).
    destruct (_ <=? va) eqn:E2, (va <? 2147483648 + _) eqn:E3; bools; try done. exfalso. Z.div_mod_to_equations. lia.
Qed.
