(* ===== verification/Frame.v ===== *)
(** * What the kernel leaves alone

    [keeps sw le m]: from one resumption to the next the run [m] changes the
    state by [le] only, a preorder; it never reaches one of the two panics of the
    open files and, when [sw] is false, never gives up the processor.  The
    preorder used here is [cle] on the processes: the current process and the
    descriptors stay the same, no slot in use is given up, and if memory holds
    bytes it still does.  Nearly every operation of the kernel is of this kind.

    [owp] follows a run interleaved with those of other processes. *)
From S2P Require Import Prelude Kernel CString Spinlock Kalloc Vm Proc ProcSpec Pipe Format Bytes Bio Log BlockIO Fs Syscall.

Local Open Scope Z_scope.
Local Open Scope kernel_scope.

(** The panics of filedup and fileclose. *)
Definition file_panic (msg : string) : bool := bool_decide (msg = "filedup" ∨ msg = "fileclose").

Section keeps.
  Context {S : Type} (sw : bool) (le : S → S → Prop) {PO : PreOrder le}.

(** [b] is the state in which the run last got the processor. *)
Fixpoint okeeps {A} (b : S) (o : outcome S A) : Prop :=
  match o with
  | Ret _ s => le b s
  | Panic msg _ => file_panic msg = false
  | NoFuel _ => True
  | Swtch s k => sw = true ∧ le b s ∧ ∀ s', okeeps s' (k s')
  end.

Definition keeps {A} (m : M S A) : Prop := ∀ s, okeeps s (m s).

Lemma okeeps_le {A} b b' (o : outcome S A) : le b b' → okeeps b' o → okeeps b o.
Proof.
  intros Hb. destruct o as [a s|msg s|s k|s]; cbn; try done; [by etrans|].
  intros (Hsw & Hs & Hk). split_and!; [done|by etrans|done].
Qed.

Lemma okeeps_bind {A B} b s (m : M S A) (f : A → M S B) : okeeps b (m s) → (∀ a, keeps (f a)) → okeeps b (bind m f s).
Proof.
  intros Hm Hf. unfold bind. revert b Hm. generalize (m s).
  intros o. induction o as [a s1|msg s1|s1 k IH|s1]; intros b; cbn; try done.
  - intros Hb. eapply okeeps_le; [exact Hb|]. apply Hf.
  - intros (Hsw & H1 & H2). split_and!; [done|done|]. intros s'. by apply IH.
Qed.

Lemma keeps_bind {A B} (m : M S A) (f : A → M S B) : keeps m → (∀ a, keeps (f a)) → keeps (bind m f).
Proof. intros Hm Hf s. by apply okeeps_bind. Qed.

Lemma keeps_ret {A} (a : A) : keeps (ret a).
Proof. intros s. cbn. reflexivity. Qed.
Lemma keeps_gets {A} (f : S → A) : keeps (gets f).
Proof. intros s. cbn. reflexivity. Qed.
Lemma keeps_nofuel {A} : keeps (nofuel : M S A).
Proof. by intros s. Qed.
Lemma keeps_panic {A} msg : file_panic msg = false → keeps (panic msg : M S A).
Proof. by intros H s. Qed.
Lemma keeps_modify f : (∀ s, le s (f s)) → keeps (modify f).
Proof. intros H s. apply H. Qed.

End keeps.

Lemma keeps_quiet {S A} sw (le : S → S → Prop) (m : M S A) : keeps false le m → keeps sw le m.
Proof. intros Hm s. specialize (Hm s). destruct (m s); cbn in *; try done. by destruct Hm. Qed.

(** What a run that does not give up the processor ends with. *)
Definition quiet {S A} (m : M S A) (s : S) (Q : A → S → Prop) : Prop :=
  match m s with
  | Ret a s' => Q a s'
  | Panic msg _ => file_panic msg = false
  | NoFuel _ => True
  | Swtch _ _ => False
  end.

Lemma quiet_bind {S A B} (m : M S A) (f : A → M S B) s Q : quiet m s (λ a s', quiet (f a) s' Q) → quiet (bind m f) s Q.
Proof. unfold quiet, bind. by destruct (m s). Qed.

Lemma quiet_mono {S A} (m : M S A) s (Q Q' : A → S → Prop) : quiet m s Q → (∀ a s', Q a s' → Q' a s') → quiet m s Q'.
Proof. unfold quiet. destruct (m s); auto. Qed.

Lemma quiet_keeps {S A} (le : S → S → Prop) (m : M S A) s : keeps false le m → quiet m s (λ a s', le s s' ∧ m s = Ret a s').
Proof. intros Hm. specialize (Hm s). unfold quiet. destruct (m s); cbn in *; try done. by destruct Hm. Qed.

Lemma quiet_step {S A B} (le : S → S → Prop) (m : M S A) (f : A → M S B) s Q :
  keeps false le m → (∀ a s', le s s' → m s = Ret a s' → quiet (f a) s' Q) → quiet (bind m f) s Q.
Proof. intros Hm Hf. apply quiet_bind. eapply quiet_mono; [by apply quiet_keeps|]. intros a s' [? ?]. by apply Hf. Qed.

Lemma okeeps_quiet {S A} sw (le : S → S → Prop) b (m : M S A) s : quiet m s (λ _ s', le b s') → okeeps sw le b (m s).
Proof. unfold quiet. by destruct (m s). Qed.

Lemma quiet_zoom {S T A} get set (m : M T A) (s : S) (Q : A → S → Prop) :
  quiet m (get s) (λ a t, Q a (set t s)) → quiet (zoom get set m) s Q.
Proof. unfold quiet, zoom. by destruct (m (get s)). Qed.

(** A computation on a part of the state. *)
Lemma keeps_zoom {S T A} sw (leS : S → S → Prop) (leT : T → T → Prop) get set (m : M T A) :
  (∀ s t, leT (get s) t → leS s (set t s)) → keeps sw leT m → keeps sw leS (zoom get set m).
Proof.
  intros Hset Hm s. unfold zoom. specialize (Hm (get s)).
  assert (∀ (o : outcome T A) s, okeeps sw leT (get s) o → okeeps sw leS s (ozoom get set s o)) as Hz.
  { intros o. induction o as [a t|msg t|t k IH|t]; intros s0; cbn; try done.
    - apply Hset.
    - intros (Hsw & H1 & H2). split_and!; [done|by apply Hset|]. intros s'. by apply IH. }
  by apply Hz.
Qed.

(** A preorder on a part of the state. *)
Definition pull {S T} (get : S → T) (le : T → T → Prop) (s s' : S) : Prop := le (get s) (get s').

#[export] Instance pull_preorder {S T} (get : S → T) le : PreOrder le → PreOrder (pull get le).
Proof. intros H. unfold pull. split; [intros s; reflexivity|intros s1 s2 s3; apply transitivity]. Qed.

(** No promise. *)
Definition any {S} (_ _ : S) : Prop := True.

#[export] Instance any_preorder {S} : PreOrder (@any S).
Proof. by split. Qed.

(** ** Interleaved runs *)

(** Rely-guarantee: [owp G R o b Q] says of a run [o] that got the processor
    in [b] that whenever it gives up the processor the state has changed by [G]
    since, and that if the state changes by [R] while it waits, it ends with
    a result satisfying [Q] (given where it last got the processor).  With the
    states goes a ghost state [T], chosen by the run when it gives up the
    processor and by the others while it waits.  A panic stops the machine;
    the two of the open files are not reached. *)
Fixpoint owp {T S A} (G R : T * S → T * S → Prop) (o : outcome S A) (b : T * S) (Q : T * S → A → S → Prop) : Prop :=
  match o with
  | Ret a s => Q b a s
  | Panic msg _ => file_panic msg = false
  | NoFuel _ => True
  | Swtch s k => ∃ t, G b (t, s) ∧ ∀ t' s', R (t, s) (t', s') → owp G R (k s') (t', s') Q
  end.

Lemma owp_bind {T S A B} (G R : T * S → T * S → Prop) (m : M S A) (f : A → M S B) s b Q :
  owp G R (m s) b (λ b a s', owp G R (f a s') b Q) → owp G R (bind m f s) b Q.
Proof.
  unfold bind. generalize (m s). intros o. revert b. induction o as [a s1|msg s1|s1 k IH|s1]; intros b; cbn; try done.
  intros (t & HG & HR). exists t. split; [done|]. intros t' s' Hs'. apply IH. by apply HR.
Qed.

Lemma owp_mono {T S A} (G R : T * S → T * S → Prop) (o : outcome S A) b (Q Q' : T * S → A → S → Prop) :
  owp G R o b Q → (∀ b a s, Q b a s → Q' b a s) → owp G R o b Q'.
Proof.
  intros H HQ. revert b H. induction o as [a s|msg s|s k IH|s]; intros b; cbn; try by eauto.
  intros (t & HG & HR). exists t. split; [done|]. intros t' s' Hs'. apply IH. by apply HR.
Qed.

(** A run that keeps [le], with an invariant [J] that [le] preserves: [J b s]
    relates the state with the one it last got the processor in. *)
Lemma owp_keeps {T S A} (le : S → S → Prop) (G R : T * S → T * S → Prop) (J : T * S → S → Prop) (m : M S A) s b :
  (∀ b s s', le s s' → J b s → J b s') → (∀ b s, J b s → ∃ t, G b (t, s) ∧ ∀ t' s', R (t, s) (t', s') → J (t', s') s') →
  keeps true le m → J b s → owp G R (m s) b (λ b' _ s', J b' s').
Proof.
  intros Hle HG Hm Hs. specialize (Hm s).
  assert (∀ (o : outcome S A) b s, okeeps true le s o → J b s → owp G R o b (λ b' _ s', J b' s')) as Ho.
  { intros o. induction o as [a t|msg t|t k IH|t]; intros b0 s0; cbn; try done.
    - intros E HJ. by eapply Hle.
    - intros (_ & H1 & H2) HJ. destruct (HG b0 t) as (x & Hx & HR); [by eapply Hle|]. exists x. split; [done|].
      intros t' s' Hs'. eapply (IH s' (t', s') s'); [apply H2|]. by apply HR. }
  by eapply Ho.
Qed.

Lemma owp_quiet {T S A} (G R : T * S → T * S → Prop) (m : M S A) s b (Q : T * S → A → S → Prop) : quiet m s (Q b) → owp G R (m s) b Q.
Proof. unfold quiet. by destruct (m s). Qed.

(** ** Memory holds bytes *)

Definition bytes (m : mem) : Prop := ∀ a, 0 ≤ m a < 256.

Lemma bytes_insert m a v : bytes m → 0 ≤ v < 256 → bytes (<[a := v]> m).
Proof.
  intros Hm Hv x. destruct (decide (x = a)) as [->|Hne]; [by rewrite fn_lookup_insert|by rewrite fn_lookup_insert_ne].
Qed.

Lemma bytes_u8 m a v : bytes m → bytes (<[a := u8 v]> m).
Proof. intros Hm. apply bytes_insert; [done|]. apply Z.mod_pos_bound. lia. Qed.

Lemma bytes_st32 m a v : bytes m → bytes (st32 m a v).
Proof. intros Hm. unfold st32. by repeat apply bytes_u8. Qed.

Lemma bytes_st16 m a v : bytes m → bytes (st16 m a v).
Proof. intros Hm. unfold st16. by repeat apply bytes_u8. Qed.

Lemma bytes_memset m a c n : bytes m → bytes (memset m a c n).
Proof.
  intros Hm. unfold memset. destruct (_ && _).
  - cbv zeta. generalize (Z.lor (Z.lor (Z.lor (Z.shiftl (Z.land c 255) 24) (Z.shiftl (Z.land c 255) 16)) (Z.shiftl (Z.land c 255) 8)) (Z.land c 255)).
    intros v. generalize (Z.to_nat (n / 4)). intros k. revert m a Hm. induction k as [|k IH]; intros m a Hm; cbn [stosl]; [done|]. by apply IH, bytes_st32.
  - generalize (Z.to_nat n). intros k. revert m a Hm. induction k as [|k IH]; intros m a Hm; cbn [stosb]; [done|]. by apply IH, bytes_u8.
Qed.

Lemma bytes_memmove m d a n : bytes m → bytes (memmove m d a n).
Proof.
  intros Hm. unfold memmove. destruct (_ && _); generalize (Z.to_nat n); intros k; revert m Hm.
  - generalize (d + n), (a + n). induction k as [|k IH]; intros x y m Hm; cbn [move_down]; [done|]. apply IH, bytes_insert; [done|apply Hm].
  - revert d a. induction k as [|k IH]; intros x y m Hm; cbn [move_up]; [done|]. apply IH, bytes_insert; [done|apply Hm].
Qed.

(** ** Automation *)

Create HintDb keeps discriminated.
#[export] Hint Constants Opaque : keeps.

(** The allocator's state, and the processes. *)
Definition kle (s s' : kst) : Prop := bytes (kram s) → bytes (kram s').

(** A slot that is not in use has no descriptors to lose. *)
Definition dead (p : proc) : bool := match state p with UNUSED | ZOMBIE => true | _ => false end.

Definition ple (p p' : proc) : Prop := ofile p' = ofile p ∧ (dead p' = true → dead p = true).

Record cle (s s' : core) : Prop := {
  cle_cur : cur s' = cur s;
  cle_ptable : Forall2 ple (ptable s) (ptable s');
  cle_kst : kle (ck s) (ck s')
}.

#[export] Instance kle_preorder : PreOrder kle.
Proof. split; [intros s H; exact H|intros s1 s2 s3 H1 H2 H; auto]. Qed.
#[export] Instance ple_preorder : PreOrder ple.
Proof. split; [by intros p; split|]. intros p1 p2 p3 [H1 H1'] [H2 H2']. split; [congruence|auto]. Qed.
#[export] Instance cle_preorder : PreOrder cle.
Proof.
  split; [intros s; by split|]. intros s1 s2 s3 [H1 H2 H3] [H1' H2' H3'].
  split; [congruence|by etrans|by etrans].
Qed.

Lemma cle_same s s' : cur s' = cur s → ptable s' = ptable s → kram (ck s') = kram (ck s) → cle s s'.
Proof. intros H1 H2 H3. split; [done|by rewrite H2|]. unfold kle. by rewrite H3. Qed.

(** A change that the preorder does not see. *)
Ltac same := unfold pull; cbv beta; first [reflexivity | apply cle_same; reflexivity | exact (λ H, H) | exact I].

Ltac keep_step :=
  lazymatch goal with
  | |- keeps _ _ (ret _) => apply keeps_ret; exact _
  | |- keeps _ _ (gets _) => apply keeps_gets; exact _
  | |- keeps _ _ nofuel => apply keeps_nofuel
  | |- keeps _ _ (panic _) => apply keeps_panic; reflexivity
  | |- keeps _ _ (modify _) => apply keeps_modify; intros; same
  | |- keeps _ _ (bind _ _) => apply keeps_bind; [exact _| |intros ?]
  | |- keeps _ _ (if ?b then _ else _) => destruct b
  | |- keeps _ _ (match ?x with _ => _ end) => destruct x eqn:?
  | |- keeps _ _ (let _ := _ in _) => cbv zeta
  end.
Ltac keep := repeat first [solve [eauto 3 with keeps nocore] | keep_step].

(** ** The allocator *)

Abbreviation kkeeps sw := (keeps sw kle).

Lemma kacquire_keeps sw lk : kkeeps sw (kacquire lk).
Proof. intros s. unfold kacquire, zoom, acquire. case_decide; first [done|intros Hb; exact Hb]. Qed.
Lemma krelease_keeps sw lk : kkeeps sw (krelease lk).
Proof. intros s. unfold krelease, zoom, release. case_decide; first [done|intros Hb; exact Hb]. Qed.
#[export] Hint Resolve kacquire_keeps krelease_keeps : keeps.

Lemma ram_keeps sw g : (∀ m, bytes m → bytes (g m)) → kkeeps sw (modify (λ s, set_kram (g (kram s)) s)).
Proof. intros Hg. apply keeps_modify. intros s Hs. by apply Hg. Qed.

Lemma loadw_keeps sw a : kkeeps sw (loadw a).
Proof. unfold loadw. keep. Qed.
Lemma storew_keeps sw a v : kkeeps sw (storew a v).
Proof. apply (ram_keeps sw (λ m, st32 m a v)). intros m. apply bytes_st32. Qed.
Lemma storeh_keeps sw a v : kkeeps sw (storeh a v).
Proof. apply (ram_keeps sw (λ m, st16 m a v)). intros m. apply bytes_st16. Qed.
Lemma loadb_keeps sw a : kkeeps sw (loadb a).
Proof. unfold loadb. keep. Qed.
Lemma storeb_keeps sw a v : kkeeps sw (storeb a v).
Proof. apply (ram_keeps sw (λ m, <[a := u8 v]> m)). intros m. apply bytes_u8. Qed.
Lemma kmemset_keeps sw a c n : kkeeps sw (kmemset a c n).
Proof. apply (ram_keeps sw (λ m, memset m a c n)). intros m. apply bytes_memset. Qed.
Lemma kmemmove_keeps sw d a n : kkeeps sw (kmemmove d a n).
Proof. apply (ram_keeps sw (λ m, memmove m d a n)). intros m. apply bytes_memmove. Qed.
#[export] Hint Resolve loadw_keeps storew_keeps storeh_keeps loadb_keeps storeb_keeps kmemset_keeps kmemmove_keeps : keeps.
Lemma kfree_keeps sw kend v : kkeeps sw (kfree kend v).
Proof.
  unfold kfree. keep.
  - apply (ram_keeps sw (λ m, memset m v 1 PGSIZE)). intros m. apply bytes_memset.
  - apply keeps_modify. intros s Hs. by apply bytes_st32.
Qed.
Lemma kalloc_keeps sw : kkeeps sw kalloc.
Proof. unfold kalloc. keep. Qed.
Lemma cprintf_keeps sw m : kkeeps sw (cprintf m).
Proof. unfold cprintf. keep. Qed.
#[export] Hint Resolve kfree_keeps kalloc_keeps cprintf_keeps : keeps.

(** ** Page tables *)

Lemma walkpgdir_keeps sw d va alloc : kkeeps sw (walkpgdir d va alloc).
Proof. unfold walkpgdir. keep. Qed.
#[export] Hint Resolve walkpgdir_keeps : keeps.
Lemma mappages_keeps sw d va size pa perm : kkeeps sw (mappages d va size pa perm).
Proof.
  unfold mappages. cbv zeta. generalize (PGROUNDDOWN va), (PGROUNDDOWN (u32 (va + size - 1))), (Z.to_nat (u32 (PGROUNDDOWN (u32 (va + size - 1)) - PGROUNDDOWN va) / PGSIZE + 1)).
  intros a last n. revert a pa. induction n as [|n IH]; intros a pa; cbn [mappages_loop]; keep.
Qed.
#[export] Hint Resolve mappages_keeps : keeps.
Lemma setupkvm_keeps sw data : kkeeps sw (setupkvm data).
Proof. unfold setupkvm. keep. generalize (kmap data). intros ks. induction ks as [|k ks IH]; cbn [setupkvm_loop]; keep. Qed.
Lemma deallocuvm_loop_keeps sw kend fuel d a oldsz : kkeeps sw (deallocuvm_loop kend fuel d a oldsz).
Proof. revert a. induction fuel as [|fuel IH]; intros a; cbn [deallocuvm_loop]; keep. Qed.
#[export] Hint Resolve setupkvm_keeps deallocuvm_loop_keeps : keeps.
Lemma deallocuvm_keeps sw kend d oldsz newsz : kkeeps sw (deallocuvm kend d oldsz newsz).
Proof. unfold deallocuvm. keep. Qed.
#[export] Hint Resolve deallocuvm_keeps : keeps.
Lemma allocuvm_loop_keeps sw kend fuel d a oldsz newsz : kkeeps sw (allocuvm_loop kend fuel d a oldsz newsz).
Proof. revert a. induction fuel as [|fuel IH]; intros a; cbn [allocuvm_loop]; keep. Qed.
#[export] Hint Resolve allocuvm_loop_keeps : keeps.
Lemma allocuvm_keeps sw kend d oldsz newsz : kkeeps sw (allocuvm kend d oldsz newsz).
Proof. unfold allocuvm. keep. Qed.
Lemma freevm_loop_keeps sw kend n d i : kkeeps sw (freevm_loop kend n d i).
Proof. revert i. induction n as [|n IH]; intros i; cbn [freevm_loop]; keep. Qed.
#[export] Hint Resolve allocuvm_keeps freevm_loop_keeps : keeps.
Lemma freevm_keeps sw kend d : kkeeps sw (freevm kend d).
Proof. unfold freevm. keep. Qed.
Lemma clearpteu_keeps sw d va : kkeeps sw (clearpteu d va).
Proof. unfold clearpteu. keep. Qed.
Lemma uva2ka_keeps sw d va : kkeeps sw (uva2ka d va).
Proof. unfold uva2ka. keep. Qed.
#[export] Hint Resolve freevm_keeps clearpteu_keeps uva2ka_keeps : keeps.
Lemma inituvm_keeps sw d init sz : kkeeps sw (inituvm d init sz).
Proof. unfold inituvm. keep. Qed.
Lemma copyuvm_loop_keeps sw fuel pg d i sz : kkeeps sw (copyuvm_loop fuel pg d i sz).
Proof. revert i. induction fuel as [|fuel IH]; intros i; cbn [copyuvm_loop]; keep. Qed.
#[export] Hint Resolve inituvm_keeps copyuvm_loop_keeps : keeps.
Lemma copyuvm_keeps sw kend data pg sz : kkeeps sw (copyuvm kend data pg sz).
Proof. unfold copyuvm. keep. Qed.
#[export] Hint Resolve copyuvm_keeps : keeps.

(** ** Processes *)

Abbreviation ckeeps sw := (keeps sw cle).

Lemma kk_keeps {A} sw (m : M kst A) : kkeeps sw m → ckeeps sw (kk m).
Proof. by apply keeps_zoom. Qed.
#[export] Hint Resolve kk_keeps : keeps.

Lemma pupd_keeps sw i f : (∀ p, ple p (f p)) → ckeeps sw (pupd i f).
Proof.
  intros Hf. apply keeps_modify. intros s. split; [done| |done]. cbn [ptable set_ptable].
  apply Forall2_same_length_lookup. split; [by rewrite length_alter|]. intros j p p' Hp Hp'.
  destruct (decide (i = j)) as [->|Hne].
  - rewrite list_lookup_alter_eq, Hp in Hp'. by injection Hp' as <-.
  - rewrite list_lookup_alter_ne, Hp in Hp' by done. by injection Hp' as <-.
Qed.
#[export] Hint Extern 1 (keeps _ cle (pupd _ _)) => apply pupd_keeps; intros; split; [reflexivity|first [exact (λ H, H)|discriminate]] : keeps.

Lemma pacquire_keeps sw lk : ckeeps sw (pacquire lk).
Proof. unfold pacquire. keep. Qed.
Lemma prelease_keeps sw lk : ckeeps sw (prelease lk).
Proof. unfold prelease. keep. Qed.
Lemma pget_keeps {A} sw i (f : proc → A) : ckeeps sw (pget i f).
Proof. unfold pget. keep. Qed.
#[export] Hint Resolve pacquire_keeps prelease_keeps pget_keeps : keeps.

Lemma myproc_keeps {A} sw (k : nat → M core A) : (∀ i, ckeeps sw (k i)) → ckeeps sw (myproc k).
Proof. intros Hk. unfold myproc. keep. Qed.
#[export] Hint Extern 2 (keeps _ cle (myproc _)) => apply myproc_keeps; intros ?; keep : keeps.

Lemma swtch_keeps : ckeeps true swtch.
Proof. by intros s. Qed.
#[export] Hint Resolve swtch_keeps : keeps.

Lemma sched_keeps : ckeeps true sched.
Proof. unfold sched. keep. Qed.
#[export] Hint Resolve sched_keeps : keeps.

Lemma yield_keeps : ckeeps true yield.
Proof. unfold yield. keep. Qed.
#[export] Hint Resolve yield_keeps : keeps.

Lemma sleep_keeps ch lk : ckeeps true (sleep ch lk).
Proof. unfold sleep. keep. Qed.

Lemma wakeup1_keeps sw ch : ckeeps sw (wakeup1 ch).
Proof.
  apply keeps_modify. intros s. split; [done| |done]. cbn [ptable set_ptable].
  apply Forall2_fmap_r, Forall_Forall2_diag, Forall_true. intros p. unfold compose, wake.
  destruct (_ && _); by split.
Qed.
#[export] Hint Resolve sleep_keeps wakeup1_keeps : keeps.

Lemma wakeup_keeps sw ch : ckeeps sw (wakeup ch).
Proof. unfold wakeup. keep. Qed.
#[export] Hint Resolve wakeup_keeps : keeps.

Lemma switchuvm_keeps sw i : ckeeps sw (switchuvm i).
Proof. unfold switchuvm. keep. Qed.
#[export] Hint Resolve switchuvm_keeps : keeps.
Lemma growproc_keeps sw kend n : ckeeps sw (growproc kend n).
Proof. unfold growproc. keep. Qed.
Lemma kill_keeps sw n : ckeeps sw (kill n).
Proof. unfold kill. keep. Qed.
#[export] Hint Resolve growproc_keeps kill_keeps : keeps.

Lemma kk_ptable {A} (m : M kst A) s a s' : kk m s = Ret a s' → ptable s' = ptable s.
Proof. unfold kk, zoom. destruct (m (ck s)); cbn; try done. by intros [= _ <-]. Qed.

(** Changing a slot that was not in use. *)
Lemma cle_slot b s i f : cle b s → dead (getp i b) = true → (∀ p, ofile (f p) = ofile p) → cle b (set_ptable (alter f i (ptable s)) s).
Proof.
  intros [H1 H2 H3] Hd Hf. split; [done| |done]. cbn [ptable set_ptable].
  apply Forall2_same_length_lookup in H2 as [Hl H2]. apply Forall2_same_length_lookup. split; [by rewrite length_alter|].
  intros j p p' Hp Hp'. destruct (decide (i = j)) as [->|Hne]; cycle 1.
  { rewrite list_lookup_alter_ne in Hp' by done. by eapply H2. }
  rewrite list_lookup_alter_eq in Hp'. destruct (ptable s !! j) as [q|] eqn:Eq; [|done]. injection Hp' as <-.
  destruct (H2 j p q Hp Eq) as [Ho _]. split; [by rewrite Hf|]. unfold getp in Hd. by rewrite Hp in Hd.
Qed.

Lemma wait_scan_keeps sw kend me n i h : ckeeps sw (wait_scan kend me n i h).
Proof.
  revert i h. induction n as [|n IH]; intros i h; cbn [wait_scan]; [keep|].
  apply keeps_bind; [exact _|keep|intros pp]. destruct (negb _); [keep|]. intros s.
  unfold bind at 1, pget at 1, gets at 1. cbn [obind]. case_bool_decide as Hz; [|apply IH].
  assert (dead (getp i s) = true) as Hd by (unfold dead; by rewrite Hz).
  apply okeeps_quiet. do 2 (apply quiet_bind; unfold quiet at 1, pget at 1, gets at 1).
  eapply (quiet_step cle); [keep|]. intros [] s1 L1 _.
  eapply (quiet_step cle); [keep|]. intros [] s2 L2 _.
  eapply (quiet_step cle); [keep|]. intros pg s3 L3 _.
  eapply (quiet_step cle); [keep|]. intros [] s4 L4 _.
  assert (cle s s4) as L by (repeat (etrans; [eassumption|]); reflexivity).
  pose proof (cle_slot s s4 i _ L Hd (λ p, eq_refl : ofile (set_killed 0 (set_pname [] (set_parent None (set_pid 0 (set_state UNUSED p))))) = ofile p)) as L'.
  eapply quiet_bind. cbn. eapply (quiet_step cle); [keep|]. intros [] s5 L5 _. cbn. by etrans.
Qed.
#[export] Hint Resolve wait_scan_keeps : keeps.
Lemma wait_loop_keeps kend fuel me : ckeeps true (wait_loop kend fuel me).
Proof. induction fuel as [|fuel IH]; cbn [wait_loop]; keep. Qed.
#[export] Hint Resolve wait_loop_keeps : keeps.
Lemma wait_keeps kend fuel : ckeeps true (wait kend fuel).
Proof. unfold wait. keep. Qed.
Lemma getproc_keeps sw nu max : ckeeps sw (getproc nu max).
Proof. unfold getproc. keep. Qed.
Lemma exit_children_keeps sw me n i : ckeeps sw (exit_children me n i).
Proof. revert i. induction n as [|n IH]; intros i; cbn [exit_children]; keep. Qed.
#[export] Hint Resolve wait_keeps getproc_keeps exit_children_keeps : keeps.

Lemma cle_dead s s' i : cle s s' → dead (getp i s') = true → dead (getp i s) = true.
Proof.
  intros [_ H _]. apply Forall2_same_length_lookup in H as [Hl H]. unfold getp. intros Hd.
  destruct (ptable s !! i) as [p|] eqn:E; [|done]. destruct (lookup_lt_is_Some_2 (ptable s') i) as [p' E'].
  { rewrite <- Hl. by eapply lookup_lt_Some. }
  rewrite E' in Hd. by apply (H i p p').
Qed.

Lemma cle_alive s s' i : cle s s' → dead (getp i s) = false → dead (getp i s') = false.
Proof. intros H Hd. apply not_true_iff_false. intros H'. by rewrite (cle_dead _ _ _ H H') in Hd. Qed.

Lemma quiet_cle {A B} (m : M core A) (f : A → M core B) b s Q :
  ckeeps false m → cle b s → (∀ a s', cle b s' → quiet (f a) s' Q) → quiet (bind m f) s Q.
Proof. intros Hm Hb Hf. eapply (quiet_step cle); [done|]. intros a s' H _. apply Hf. by etrans. Qed.

(** The run of exit under the lock gives up the processor once, as a zombie,
    and is not to get it back. *)
Definition leaves {A} (m : M core A) (c : core) (Q : core → Prop) (K : core → outcome core A → Prop) : Prop :=
  match m c with
  | Swtch c' k => Q c' ∧ ∀ x, K x (k x)
  | Panic msg _ => file_panic msg = false
  | NoFuel _ => True
  | Ret _ _ => False
  end.

Lemma leaves_quiet {A B} (m : M core A) (f : A → M core B) c Q K :
  quiet m c (λ a c', leaves (f a) c' Q K) → leaves (bind m f) c Q K.
Proof. unfold quiet, leaves, bind. by destruct (m c). Qed.

Lemma leaves_step {A B} (m : M core A) (f : A → M core B) b c Q K :
  ckeeps false m → cle b c → (∀ a c', cle b c' → leaves (f a) c' Q K) → leaves (bind m f) c Q K.
Proof.
  intros Hm Hb Hf. apply leaves_quiet. eapply quiet_mono; [by apply (quiet_keeps cle)|]. intros a c' [H _]. apply Hf. by etrans.
Qed.

Lemma cleaves_bind {A B} (m : M core A) (f : A → M core B) c Q :
  leaves m c Q (λ x o, ∃ a, o = Ret a x) → leaves (bind m f) c Q (λ x o, ∃ a, o = f a x).
Proof.
  unfold leaves, bind. destruct (m c) as [a s|msg s|s k|s]; cbn; try done. intros [HQ HK]. split; [done|].
  intros x. destruct (HK x) as [a ->]. by exists a.
Qed.

Lemma sched_leaves c : leaves sched c (cle c) (λ x o, ∃ a, o = Ret a x).
Proof.
  unfold sched, myproc. apply (leaves_step _ _ c); [keep|reflexivity|]. intros [me|] c1 L1; [|done].
  apply (leaves_step _ _ c); [keep|done|]. intros h c2 L2.
  do 2 (apply (leaves_step _ _ c); [keep|done|]; intros [] ? ?).
  apply (leaves_step _ _ c); [keep|done|]. intros st c3 L3.
  apply (leaves_step _ _ c); [keep|done|]. intros [] ? ?.
  apply (leaves_step _ _ c); [keep|done|]. intros i c4 L4.
  apply (leaves_step _ _ c); [keep|done|]. intros [] ? ?.
  apply (leaves_step _ _ c); [keep|done|]. intros t c5 L5.
  apply (leaves_step _ _ c); [keep|done|]. intros [] c6 L6. cbn. split; [done|]. by exists tt.
Qed.

Lemma exit_zombie_leaves me c : leaves (exit_zombie me) c
  (λ c', ∃ c1, cle c c1 ∧ cle (set_ptable (alter (set_state ZOMBIE) me (ptable c1)) c1) c')
  (λ x o, o = Panic "zombie exit" x).
Proof.
  unfold exit_zombie. apply (leaves_step _ _ c); [keep|reflexivity|]. intros [] c1 L1.
  apply (leaves_step _ _ c); [keep|done|]. intros pp c2 L2.
  apply (leaves_step _ _ c); [keep|done|]. intros [] c3 L3.
  apply (leaves_step _ _ c); [keep|done|]. intros [] c4 L4.
  apply leaves_quiet. cbn. set (z := set_ptable _ c4).
  pose proof (cleaves_bind sched (λ _, panic "zombie exit" : M core unit) _ _ (sched_leaves z)) as Hl.
  unfold leaves in *. destruct (bind _ _ z); try done. destruct Hl as [HQ HK]. split; [by exists c4|].
  intros x. by destruct (HK x) as [? ->].
Qed.

(** allocproc takes a slot that was not in use. *)
Lemma allocproc_quiet fa ta s : quiet (allocproc fa ta) s (λ r s', cle s s' ∧
  ∀ i, r = Some i → (i < length (ptable s))%nat ∧ dead (getp i s) = true ∧ dead (getp i s') = false).
Proof.
  unfold allocproc. eapply (quiet_step cle); [keep|]. intros [] s1 L1 E1%kk_ptable.
  eapply quiet_bind. cbn. destruct (find_proc unused (ptable s1)) as [i|] eqn:Ef; cycle 1.
  { eapply (quiet_cle _ _ s); [keep|done|]. intros [] s2 L2. by cbn. }
  rewrite E1 in Ef. apply find_proc_Some in Ef as (p & Hp & Hu%bool_decide_eq_true & _).
  assert (dead (getp i s) = true) as Hd by (unfold getp, dead; by rewrite Hp; cbn; rewrite Hu).
  eapply quiet_bind. cbn. pose proof (cle_slot s s1 i (set_state EMBRYO) L1 Hd (λ _, eq_refl)) as L2.
  set (s2 := set_ptable _ s1) in *. assert (dead (getp i s2) = false) as Ha.
  { unfold getp. cbn [s2 ptable set_ptable]. by rewrite E1, list_lookup_alter_eq, Hp. }
  assert (∀ s', cle s2 s' → cle s s') as Lt by (intros s' L'; by etrans).
  eapply (quiet_cle _ _ s2); [keep|done|]. intros n s3 L3.
  do 3 (eapply (quiet_cle _ _ s2); [keep|done|]; intros [] ? ?).
  eapply (quiet_cle _ _ s2); [keep|done|]. intros ks s4 L4.
  eapply (quiet_cle _ _ s2); [keep|done|]. intros [] s5 L5. destruct (ks =? 0).
  - cbn. split; [|done]. apply cle_slot; auto.
  - do 5 (eapply (quiet_cle _ _ s2); [keep|done|]; intros [] ? ?).
    eapply (quiet_cle _ _ s2); [keep|done|]. intros t s6 L6.
    eapply (quiet_cle _ _ s2); [keep|done|]. intros [] s7 L7. cbn. split; [auto|]. intros j [= <-].
    split_and!; [by eapply lookup_lt_Some|done|by eapply cle_alive].
Qed.

Lemma allocproc_keeps sw fa ta : ckeeps sw (allocproc fa ta).
Proof. intros s. apply okeeps_quiet. eapply quiet_mono; [apply allocproc_quiet|]. by intros r s' []. Qed.
#[export] Hint Resolve allocproc_keeps : keeps.

(** ** Pipes *)

Lemma pipeclose_keeps sw kend p w : ckeeps sw (pipeclose kend p w).
Proof. unfold pipeclose. keep. Qed.

Lemma pipewrite_room_keeps fuel p : ckeeps true (pipewrite_room fuel p).
Proof. induction fuel as [|fuel IH]; cbn [pipewrite_room]; keep. Qed.
#[export] Hint Resolve pipeclose_keeps pipewrite_room_keeps : keeps.
Lemma pipewrite_loop_keeps waits p src : ckeeps true (pipewrite_loop waits p src).
Proof. induction src as [|c src IH]; cbn [pipewrite_loop]; keep. Qed.
#[export] Hint Resolve pipewrite_loop_keeps : keeps.
Lemma pipewrite_keeps waits p src n : ckeeps true (pipewrite waits p src n).
Proof. unfold pipewrite. keep. Qed.

Lemma piperead_wait_keeps fuel p : ckeeps true (piperead_wait fuel p).
Proof. induction fuel as [|fuel IH]; cbn [piperead_wait]; keep. Qed.
Lemma piperead_loop_keeps sw n p : ckeeps sw (piperead_loop n p).
Proof. induction n as [|n IH]; cbn [piperead_loop]; keep. Qed.
#[export] Hint Resolve piperead_wait_keeps piperead_loop_keeps : keeps.
Lemma piperead_keeps waits p n : ckeeps true (piperead waits p n).
Proof. unfold piperead. keep. Qed.
#[export] Hint Resolve pipewrite_keeps piperead_keeps : keeps.

(** ** Arguments of system calls *)

Lemma uloadb_keeps sw a : ckeeps sw (uloadb a).
Proof. unfold uloadb, mmu. keep. Qed.
Lemma ustoreb_keeps sw a v : ckeeps sw (ustoreb a v).
Proof. unfold ustoreb, mmu. keep. Qed.
#[export] Hint Resolve uloadb_keeps ustoreb_keeps : keeps.
Lemma uload_keeps sw n a : ckeeps sw (uload n a).
Proof. revert a. induction n as [|n IH]; intros a; cbn [uload]; keep. Qed.
Lemma ustore_keeps sw a l : ckeeps sw (ustore a l).
Proof. revert a. induction l as [|c l IH]; intros a; cbn [ustore]; keep. Qed.
Lemma fetchstr_loop_keeps sw n a : ckeeps sw (fetchstr_loop n a).
Proof. revert a. induction n as [|n IH]; intros a; cbn [fetchstr_loop]; keep. Qed.
#[export] Hint Resolve uload_keeps ustore_keeps fetchstr_loop_keeps : keeps.
Lemma fetchint_keeps sw a : ckeeps sw (fetchint a).
Proof. unfold fetchint. keep. Qed.
Lemma fetchstr_keeps sw a : ckeeps sw (fetchstr a).
Proof. unfold fetchstr. keep. Qed.
#[export] Hint Resolve fetchint_keeps fetchstr_keeps : keeps.
Lemma argint_keeps sw n : ckeeps sw (argint n).
Proof. unfold argint. keep. Qed.
#[export] Hint Resolve argint_keeps : keeps.
Lemma argptr_keeps sw n size : ckeeps sw (argptr n size).
Proof. unfold argptr. keep. Qed.
Lemma argstr_keeps sw n : ckeeps sw (argstr n).
Proof. unfold argstr. keep. Qed.
#[export] Hint Resolve argptr_keeps argstr_keeps : keeps.

(** ** The buffer cache *)

Abbreviation bkeeps sw := (keeps sw (pull bc cle)).

Lemma bb_keeps {A} sw (m : M core A) : ckeeps sw m → bkeeps sw (bb m).
Proof. by apply keeps_zoom. Qed.
#[export] Hint Resolve bb_keeps : keeps.

Lemma bupd_keeps sw i f : bkeeps sw (bupd i f).
Proof. unfold bupd. keep. Qed.
Lemma bget_field_keeps {A} sw i (f : buf → A) : bkeeps sw (bget_field i f).
Proof. unfold bget_field. keep. Qed.
#[export] Hint Resolve bupd_keeps bget_field_keeps : keeps.
Lemma iderw_keeps sw i : bkeeps sw (iderw i).
Proof. unfold iderw. keep. Qed.
Lemma bget_loop_keeps fuel d bn : bkeeps true (bget_loop fuel d bn).
Proof. induction fuel as [|fuel IH]; cbn [bget_loop]; keep. Qed.
#[export] Hint Resolve iderw_keeps bget_loop_keeps : keeps.
Lemma bread_keeps waits d bn : bkeeps true (bread waits d bn).
Proof. unfold bread, bget. keep. Qed.
Lemma bwrite_keeps sw i : bkeeps sw (bwrite i).
Proof. unfold bwrite. keep. Qed.
Lemma brelse_keeps sw i : bkeeps sw (brelse i).
Proof. unfold brelse. keep. Qed.
Lemma data_of_keeps sw i : bkeeps sw (data_of i).
Proof. unfold data_of. keep. Qed.
Lemma upd_data_keeps sw i f : bkeeps sw (upd_data i f).
Proof. unfold upd_data. keep. Qed.
#[export] Hint Resolve bread_keeps bwrite_keeps brelse_keeps data_of_keeps upd_data_keeps : keeps.

(** ** The log *)

Abbreviation lkeeps sw := (keeps sw (pull (λ s : lst, bc (lb s)) cle)).

Lemma ll_keeps {A} sw (m : M bst A) : bkeeps sw m → lkeeps sw (ll m).
Proof. by apply keeps_zoom. Qed.
Lemma lc_keeps {A} sw (m : M core A) : ckeeps sw m → lkeeps sw (lc m).
Proof. intros Hm. by apply ll_keeps, bb_keeps. Qed.
#[export] Hint Resolve ll_keeps lc_keeps : keeps.

Lemma for_tail_keeps sw f k tail : (∀ t, lkeeps sw (f t)) → lkeeps sw (for_tail f k tail).
Proof. intros Hf. revert tail. induction k as [|k IH]; intros tail; cbn [for_tail]; keep. Qed.
#[export] Hint Resolve for_tail_keeps : keeps.
Lemma install_one_keeps waits t : lkeeps true (install_one waits t).
Proof. unfold install_one. keep. Qed.
Lemma write_log_one_keeps waits t : lkeeps true (write_log_one waits t).
Proof. unfold write_log_one. keep. Qed.
#[export] Hint Resolve install_one_keeps write_log_one_keeps : keeps.
Lemma install_trans_keeps waits : lkeeps true (install_trans waits).
Proof. unfold install_trans. keep. Qed.
Lemma write_log_keeps waits : lkeeps true (write_log waits).
Proof. unfold write_log. keep. Qed.
Lemma write_head_keeps waits : lkeeps true (write_head waits).
Proof. unfold write_head. keep. Qed.
#[export] Hint Resolve install_trans_keeps write_log_keeps write_head_keeps : keeps.
Lemma commit_keeps waits : lkeeps true (commit waits).
Proof. unfold commit. keep. Qed.
Lemma begin_op_loop_keeps fuel : lkeeps true (begin_op_loop fuel).
Proof. induction fuel as [|fuel IH]; cbn [begin_op_loop]; keep. Qed.
#[export] Hint Resolve commit_keeps begin_op_loop_keeps : keeps.
Lemma begin_op_keeps waits : lkeeps true (begin_op waits).
Proof. unfold begin_op. keep. Qed.
Lemma end_op_keeps waits : lkeeps true (end_op waits).
Proof. unfold end_op. keep. Qed.
Lemma log_write_keeps sw b : lkeeps sw (log_write b).
Proof. unfold log_write. keep. Qed.
#[export] Hint Resolve begin_op_keeps end_op_keeps log_write_keeps : keeps.
Lemma log_readsb_keeps waits d : bkeeps true (Log.readsb waits d).
Proof. unfold Log.readsb. keep. Qed.
Lemma read_head_keeps waits : lkeeps true (read_head waits).
Proof. unfold read_head. keep. Qed.
#[export] Hint Resolve log_readsb_keeps read_head_keeps : keeps.
Lemma initlog_keeps waits d : lkeeps true (initlog waits d).
Proof. unfold initlog, recover_from_log. keep. Qed.

(** ** The interface of the block layer *)

Class BlockFrame (St : Type) `{BlockIO St} := {
  bf_get_set c (s : St) : io_core (io_set_core c s) = c;
  bf_set_get (s : St) : io_set_core (io_core s) s = s;
  bf_set_set c c' (s : St) : io_set_core c (io_set_core c' s) = io_set_core c s;
  bf_read d bn : keeps true (pull io_core cle) (io_read d bn);
  bf_upd i f : keeps true (pull io_core cle) (io_upd i f);
  bf_log i : keeps true (pull io_core cle) (io_log i);
  bf_relse i : keeps true (pull io_core cle) (io_relse i);
  bf_begin : keeps true (pull io_core cle) io_begin;
  bf_end : keeps true (pull io_core cle) io_end
}.

Lemma log_frame waits : @BlockFrame lst (log_io waits).
Proof. split; cbn; intros; [done| |done|keep..]. rewrite set_bc_same. by destruct s. Qed.

(** ** The file system *)

Section fs_keeps.
  Context {St : Type} {HB : BlockIO St} {HF : BlockFrame St}.
  Variable waits : nat.
  Variable dev_read : Z → option (nat → Z → M (fsst St) (Z * list Z)).
  Variable dev_write : Z → option (nat → list Z → Z → M (fsst St) Z).

Definition fsle : fsst St → fsst St → Prop := pull (λ s, io_core (fb s)) cle.

#[export] Instance fsle_preorder : PreOrder fsle.
Proof. unfold fsle. exact _. Qed.

Hypothesis dev_read_keeps : ∀ d rd i n, dev_read d = Some rd → keeps true fsle (rd i n).
Hypothesis dev_write_keeps : ∀ d wr i l n, dev_write d = Some wr → keeps true fsle (wr i l n).

Lemma ff_keeps {A} sw (m : M St A) : keeps sw (pull io_core cle) m → keeps sw fsle (ff m).
Proof. by apply keeps_zoom. Qed.
Hint Resolve ff_keeps : keeps.

Lemma fc_keeps {A} sw (m : M core A) : ckeeps sw m → keeps sw fsle (fc m).
Proof.
  intros Hm. apply ff_keeps. eapply keeps_zoom; [|exact Hm]. intros s t E. unfold pull. by rewrite bf_get_set.
Qed.
Hint Resolve fc_keeps : keeps.

Lemma iset_keeps sw i f : keeps sw fsle (iset i f).
Proof. unfold iset. keep. Qed.
Lemma ifield_keeps {A} sw i (f : inode → A) : keeps sw fsle (ifield i f).
Proof. unfold ifield. keep. Qed.
Lemma ff_read_keeps d bn : keeps true fsle (ff (io_read d bn)).
Proof. apply ff_keeps, bf_read. Qed.
Lemma ff_get_keeps b : keeps true fsle (ff (io_get b)).
Proof. apply ff_keeps. unfold io_get. keep. Qed.
Lemma ff_upd_keeps b f : keeps true fsle (ff (io_upd b f)).
Proof. apply ff_keeps, bf_upd. Qed.
Lemma ff_log_keeps b : keeps true fsle (ff (io_log b)).
Proof. apply ff_keeps, bf_log. Qed.
Lemma ff_relse_keeps b : keeps true fsle (ff (io_relse b)).
Proof. apply ff_keeps, bf_relse. Qed.
Lemma ff_begin_keeps : keeps true fsle (ff io_begin).
Proof. apply ff_keeps, bf_begin. Qed.
Lemma ff_end_keeps : keeps true fsle (ff io_end).
Proof. apply ff_keeps, bf_end. Qed.
Hint Resolve iset_keeps ifield_keeps ff_read_keeps ff_get_keeps ff_upd_keeps ff_log_keeps ff_relse_keeps : keeps.

Lemma readsb_keeps d : keeps true fsle (Fs.readsb d).
Proof. unfold Fs.readsb. keep. Qed.
Lemma bzero_keeps d b : keeps true fsle (bzero d b).
Proof. unfold bzero. keep. Qed.
Hint Resolve readsb_keeps bzero_keeps : keeps.
Lemma iinit_keeps d : keeps true fsle (iinit d).
Proof. unfold iinit. keep. Qed.
Lemma balloc_loop_keeps n d b : keeps true fsle (balloc_loop n d b).
Proof. revert b. induction n as [|n IH]; intros b; cbn [balloc_loop]; keep. Qed.
Hint Resolve balloc_loop_keeps : keeps.
Lemma balloc_keeps d : keeps true fsle (balloc d).
Proof. unfold balloc. keep. Qed.
Lemma bfree_keeps d b : keeps true fsle (bfree d b).
Proof. unfold bfree. keep. Qed.
Lemma iget_keeps d n : keeps true fsle (iget d n).
Proof. unfold iget. keep. Qed.
Hint Resolve balloc_keeps bfree_keeps iget_keeps : keeps.
Lemma ialloc_loop_keeps n d t i : keeps true fsle (ialloc_loop n d t i).
Proof. revert i. induction n as [|n IH]; intros i; cbn [ialloc_loop]; keep. Qed.
Hint Resolve ialloc_loop_keeps : keeps.
Lemma ialloc_keeps d t : keeps true fsle (ialloc d t).
Proof. unfold ialloc. keep. Qed.
Lemma iupdate_keeps i : keeps true fsle (iupdate i).
Proof. unfold iupdate. keep. Qed.
Lemma idup_keeps sw i : keeps sw fsle (idup i).
Proof. unfold idup. keep. Qed.
Lemma ilock_wait_keeps fuel i : keeps true fsle (ilock_wait fuel i).
Proof. induction fuel as [|fuel IH]; cbn [ilock_wait]; keep. Qed.
Hint Resolve ialloc_keeps iupdate_keeps idup_keeps ilock_wait_keeps : keeps.
Lemma ilock_keeps i : keeps true fsle (ilock waits i).
Proof. unfold ilock. keep. Qed.
Lemma iunlock_keeps i : keeps true fsle (iunlock i).
Proof. unfold iunlock. keep. Qed.
Lemma bmap_keeps i bn : keeps true fsle (bmap i bn).
Proof. unfold bmap. keep. Qed.
Lemma itrunc_direct_keeps n i k : keeps true fsle (itrunc_direct n i k).
Proof. revert k. induction n as [|n IH]; intros k; cbn [itrunc_direct]; keep. Qed.
Lemma itrunc_indirect_keeps n d b j : keeps true fsle (itrunc_indirect n d b j).
Proof. revert j. induction n as [|n IH]; intros j; cbn [itrunc_indirect]; keep. Qed.
Hint Resolve ilock_keeps iunlock_keeps bmap_keeps itrunc_direct_keeps itrunc_indirect_keeps : keeps.
Lemma itrunc_keeps i : keeps true fsle (itrunc i).
Proof. unfold itrunc. keep. Qed.
Hint Resolve itrunc_keeps : keeps.
Lemma iput_keeps i : keeps true fsle (iput i).
Proof. unfold iput. keep. Qed.
Hint Resolve iput_keeps : keeps.
Lemma iunlockput_keeps i : keeps true fsle (iunlockput i).
Proof. unfold iunlockput. keep. Qed.
Lemma stati_keeps i : keeps true fsle (stati i).
Proof. unfold stati. keep. Qed.
Lemma readi_loop_keeps fuel i tot off n : keeps true fsle (readi_loop fuel i tot off n).
Proof. revert tot off. induction fuel as [|fuel IH]; intros tot off; cbn [readi_loop]; keep. Qed.
Lemma writei_loop_keeps fuel i src tot off n : keeps true fsle (writei_loop fuel i src tot off n).
Proof. revert tot off. induction fuel as [|fuel IH]; intros tot off; cbn [writei_loop]; keep. Qed.
Hint Resolve iunlockput_keeps stati_keeps readi_loop_keeps writei_loop_keeps : keeps.

Lemma readi_keeps i off n : keeps true fsle (readi dev_read i off n).
Proof. unfold readi. keep. Qed.
Lemma writei_keeps i src off n : keeps true fsle (writei dev_write i src off n).
Proof. unfold writei. keep. Qed.
Hint Resolve readi_keeps writei_keeps : keeps.
Lemma dirlookup_loop_keeps fuel dp name off : keeps true fsle (dirlookup_loop dev_read fuel dp name off).
Proof. revert off. induction fuel as [|fuel IH]; intros off; cbn [dirlookup_loop]; keep. Qed.
Lemma dirlink_scan_keeps fuel dp off : keeps true fsle (dirlink_scan dev_read fuel dp off).
Proof. revert off. induction fuel as [|fuel IH]; intros off; cbn [dirlink_scan]; keep. Qed.
Hint Resolve dirlookup_loop_keeps dirlink_scan_keeps : keeps.
Lemma dirlookup_keeps dp name : keeps true fsle (dirlookup dev_read dp name).
Proof. unfold dirlookup. keep. Qed.
Hint Resolve dirlookup_keeps : keeps.
Lemma dirlink_keeps dp name n : keeps true fsle (dirlink dev_read dev_write dp name n).
Proof. unfold dirlink. keep. Qed.
Lemma namex_loop_keeps fuel ip path parent name : keeps true fsle (namex_loop waits dev_read fuel ip path parent name).
Proof. revert ip path name. induction fuel as [|fuel IH]; intros ip path name; cbn [namex_loop]; keep. Qed.
Hint Resolve dirlink_keeps namex_loop_keeps : keeps.
Lemma namex_keeps path parent name : keeps true fsle (namex waits dev_read path parent name).
Proof. unfold namex. keep. Qed.
Hint Resolve namex_keeps : keeps.
Lemma namei_keeps path : keeps true fsle (namei waits dev_read path).
Proof. unfold namei. keep. Qed.
Lemma nameiparent_keeps path name : keeps true fsle (nameiparent waits dev_read path name).
Proof. unfold nameiparent. keep. Qed.

End fs_keeps.

#[export] Hint Resolve ff_keeps fc_keeps iset_keeps ifield_keeps ff_begin_keeps ff_end_keeps ialloc_keeps iupdate_keeps idup_keeps
  ilock_keeps iunlock_keeps iput_keeps iunlockput_keeps stati_keeps readi_keeps writei_keeps dirlookup_keeps dirlink_keeps
  namei_keeps nameiparent_keeps iinit_keeps : keeps.
