(* ===== verification/FileFrame.v ===== *)
(** * What the file layers and the system calls leave alone

    The relation [fle] puts the entries of the file table next to the processes:
    their counts and types stay the same.  Everything that does not open or
    close a file changes the state by it: the operations on open files, exec,
    and most system calls. *)
From S2P Require Import Prelude Kernel CString Spinlock Kalloc Vm Proc ProcSpec Pipe Bytes Bio Log BlockIO Fs File Syscall Sysfile Exec Sysproc Frame.

Local Open Scope Z_scope.
Local Open Scope kernel_scope.

Section fileframe.
  Context {St : Type} {HB : BlockIO St} {HF : BlockFrame St}.
  Variables kend data : Z.
  Variable waits : nat.
  Variable dev_read : Z → option (nat → Z → M (fsst St) (Z * list Z)).
  Variable dev_write : Z → option (nat → list Z → Z → M (fsst St) Z).
  Variable stack0 : list Z.
  Hypothesis dev_read_keeps : ∀ d rd i n, dev_read d = Some rd → keeps true fsle (rd i n).
  Hypothesis dev_write_keeps : ∀ d wr i l n, dev_write d = Some wr → keeps true fsle (wr i l n).

(** The descriptors of all processes, and the count and the type of a file. *)
Definition fds (s : filest St) : list (list (option nat)) := ofile <$> ptable (core_of s).
Definition file_of (f : nat) (s : filest St) : Z * fdtype := (fref (getf f s), ftype (getf f s)).

Record fle (s s' : filest St) : Prop := {
  fle_files : ((λ x, (fref x, ftype x)) <$> ftable s') = ((λ x, (fref x, ftype x)) <$> ftable s);
  fle_core : cle (core_of s) (core_of s')
}.

#[export] Instance fle_preorder : PreOrder fle.
Proof.
  split; [intros s; by split|]. intros s1 s2 s3 [H1 H2] [H1' H2']. split; [congruence|by etrans].
Qed.

Lemma fle_file s s' f : fle s s' → file_of f s' = file_of f s.
Proof.
  intros [H _]. unfold file_of, getf.
  assert ((λ x, (fref x, ftype x)) <$> ftable s' !! f = (λ x, (fref x, ftype x)) <$> ftable s !! f) as E by (rewrite <- !list_lookup_fmap; by rewrite H).
  destruct (ftable s' !! f), (ftable s !! f); cbn in *; congruence.
Qed.

Lemma cle_fds s s' : cle (core_of s) (core_of s') → fds s' = fds s.
Proof. intros [_ H _]. unfold fds. induction H as [|p p' l l' [Ho _] _ IH]; cbn; congruence. Qed.

Lemma fle_fds s s' : fle s s' → fds s' = fds s.
Proof. intros [_ H]. by apply cle_fds. Qed.

Lemma xf_keeps {A} sw (m : M (fsst St) A) : keeps sw fsle m → keeps sw fle (xf m).
Proof. apply keeps_zoom. intros s t E. split; [done|exact E]. Qed.
Hint Resolve xf_keeps : keeps.

Lemma xc_keeps {A} sw (m : M core A) : keeps sw cle m → keeps sw fle (xc m).
Proof. intros Hm. by apply xf_keeps, fc_keeps. Qed.
Hint Resolve xc_keeps : keeps.

Lemma fset_keeps sw f g : (∀ x, fref (g x) = fref x ∧ ftype (g x) = ftype x) → keeps sw fle (fset f g : M (filest St) unit).
Proof.
  intros Hg. apply keeps_modify. intros s. split; [|reflexivity]. apply list_eq. intros j. cbn. rewrite !list_lookup_fmap.
  destruct (decide (f = j)) as [->|Hne]; [|by rewrite list_lookup_alter_ne].
  rewrite list_lookup_alter_eq. destruct (ftable s !! j); cbn; [|done]. by destruct (Hg f) as [-> ->].
Qed.
Hint Extern 1 (keeps _ fle (fset _ _)) => apply fset_keeps; intros; split; reflexivity : keeps.

Lemma ffield_keeps {A} sw f (g : file → A) : keeps sw fle (ffield f g : M (filest St) A).
Proof. unfold ffield. keep. Qed.
Lemma me_keeps sw : keeps sw fle (me : M (filest St) nat).
Proof. unfold me. keep. Qed.
Lemma xbegin_keeps : keeps true fle (xbegin : M (filest St) unit).
Proof. unfold xbegin. keep. Qed.
Lemma xend_keeps : keeps true fle (xend : M (filest St) unit).
Proof. unfold xend. keep. Qed.
Hint Resolve ffield_keeps me_keeps xbegin_keeps xend_keeps : keeps.

Lemma pipe_initlock_keeps sw p name : keeps sw kle (pipe_initlock p name).
Proof. unfold pipe_initlock. keep. Qed.
Hint Resolve pipe_initlock_keeps : keeps.

Lemma argfd_keeps sw n : keeps sw fle (argfd n : M (filest St) _).
Proof. unfold argfd. keep. Qed.
Lemma filestat_keeps f : keeps true fle (filestat waits f).
Proof. unfold filestat. keep. Qed.
Lemma fileread_keeps f n : keeps true fle (fileread waits dev_read f n).
Proof. unfold fileread. keep. Qed.
Lemma filewrite_loop_keeps fuel f src i n : keeps true fle (filewrite_loop waits dev_write fuel f src i n).
Proof. revert i. induction fuel as [|fuel IH]; intros i; cbn [filewrite_loop]; keep. Qed.
Hint Resolve argfd_keeps filestat_keeps fileread_keeps filewrite_loop_keeps : keeps.
Lemma filewrite_keeps f src n : keeps true fle (filewrite waits dev_write f src n).
Proof. unfold filewrite. keep. Qed.
Lemma namei__keeps path : keeps true fle (namei_ waits dev_read path).
Proof. unfold namei_. keep. Qed.
Lemma nameiparent__keeps path : keeps true fle (nameiparent_ waits dev_read path).
Proof. unfold nameiparent_. keep. Qed.
Lemma add_link_keeps ip d : keeps true fle (add_link ip d : M (filest St) unit).
Proof. unfold add_link. keep. Qed.
Hint Resolve filewrite_keeps namei__keeps nameiparent__keeps add_link_keeps : keeps.
Lemma isdirempty_loop_keeps fuel dp off : keeps true fle (isdirempty_loop dev_read fuel dp off).
Proof. revert off. induction fuel as [|fuel IH]; intros off; cbn [isdirempty_loop]; keep. Qed.
Hint Resolve isdirempty_loop_keeps : keeps.
Lemma isdirempty_keeps dp : keeps true fle (isdirempty dev_read dp).
Proof. unfold isdirempty. keep. Qed.
Lemma link_bad_keeps ip : keeps true fle (link_bad waits ip : M (filest St) Z).
Proof. unfold link_bad. keep. Qed.
Lemma unlink_bad_keeps dp : keeps true fle (unlink_bad dp : M (filest St) Z).
Proof. unfold unlink_bad. keep. Qed.
Lemma create_keeps path t mj mn : keeps true fle (create waits dev_read dev_write path t mj mn).
Proof. unfold create. keep. Qed.
Hint Resolve isdirempty_keeps link_bad_keeps unlink_bad_keeps create_keeps : keeps.
Lemma open_inode_keeps path om : keeps true fle (open_inode waits dev_read dev_write path om).
Proof. unfold open_inode. keep. Qed.
Hint Resolve open_inode_keeps : keeps.

(** The calls that do not change descriptors. *)
Lemma ustore_stat_keeps sw a x : keeps sw cle (ustore_stat a x).
Proof. unfold ustore_stat. keep. Qed.
Hint Resolve ustore_stat_keeps : keeps.
Lemma sys_read_keeps : keeps true fle (sys_read waits dev_read).
Proof. unfold sys_read. keep. Qed.
Lemma sys_write_keeps : keeps true fle (sys_write waits dev_write).
Proof. unfold sys_write. keep. Qed.
Lemma sys_fstat_keeps : keeps true fle (sys_fstat waits : M (filest St) Z).
Proof. unfold sys_fstat. keep. Qed.
Lemma sys_link_keeps : keeps true fle (sys_link waits dev_read dev_write).
Proof. unfold sys_link. keep. Qed.
Lemma sys_unlink_keeps : keeps true fle (sys_unlink waits dev_read dev_write).
Proof. unfold sys_unlink. keep. Qed.
Lemma sys_mkdir_keeps : keeps true fle (sys_mkdir waits dev_read dev_write).
Proof. unfold sys_mkdir. keep. Qed.
Lemma sys_mknod_keeps : keeps true fle (sys_mknod waits dev_read dev_write).
Proof. unfold sys_mknod. keep. Qed.
Lemma sys_chdir_keeps : keeps true fle (sys_chdir waits dev_read).
Proof. unfold sys_chdir. keep. Qed.

(** exec *)
Lemma kstore_keeps sw a l : keeps sw kle (kstore a l).
Proof.
  apply keeps_modify. intros s. unfold kle. cbn [kram set_kram]. generalize (kram s), (zip (seq 0 (length l)) l).
  intros m z. revert m. induction z as [|[i c] z IH]; intros m Hm; cbn [foldl]; [done|]. by apply IH, bytes_u8.
Qed.
Hint Resolve kstore_keeps : keeps.
Lemma copyout_bytes_keeps sw d va l : keeps sw kle (copyout_bytes d va l).
Proof.
  unfold copyout_bytes. generalize (length l). intros n. revert va l. induction n as [|n IH]; intros va l; cbn [copyout_bytes_loop]; keep.
Qed.
Lemma loaduvm_loop_keeps fuel d a ip off sz i : keeps true fle (loaduvm_loop dev_read fuel d a ip off sz i).
Proof. revert i. induction fuel as [|fuel IH]; intros i; cbn [loaduvm_loop]; keep. Qed.
Hint Resolve copyout_bytes_keeps loaduvm_loop_keeps : keeps.
Lemma loaduvm_keeps d a ip off sz : keeps true fle (loaduvm dev_read d a ip off sz).
Proof. unfold loaduvm. keep. Qed.
Hint Resolve loaduvm_keeps : keeps.
Lemma exec_load_keeps n d ip off sz ph : keeps true fle (exec_load kend dev_read n d ip off sz ph).
Proof. revert off sz ph. induction n as [|n IH]; intros off sz ph; cbn [exec_load]; keep. Qed.
Lemma exec_args_keeps sw d sp n us l : keeps sw fle (exec_args d sp n us l : M (filest St) _).
Proof. revert sp n us. induction l as [|x l IH]; intros sp n us; cbn [exec_args]; keep. Qed.
Hint Resolve exec_args_keeps : keeps.
Lemma exec_stack_keeps sw d sp us l : keeps sw fle (exec_stack d sp us l : M (filest St) _).
Proof. unfold exec_stack. keep. Qed.
Lemma exec_bad_keeps d ip : keeps true fle (exec_bad kend d ip : M (filest St) Z).
Proof. unfold exec_bad. keep. Qed.
Hint Resolve exec_load_keeps exec_stack_keeps exec_bad_keeps : keeps.
Lemma exec_commit_keeps path argv d sz elf : keeps true fle (exec_commit kend stack0 path argv d sz elf : M (filest St) Z).
Proof. unfold exec_commit. keep. Qed.
Hint Resolve exec_commit_keeps : keeps.
Lemma exec_keeps path argv : keeps true fle (exec kend data waits dev_read stack0 path argv).
Proof. unfold exec. keep. Qed.
Lemma sys_exec_loop_keeps sw n u i : keeps sw fle (sys_exec_loop n u i : M (filest St) _).
Proof. revert i. induction n as [|n IH]; intros i; cbn [sys_exec_loop]; keep. Qed.
Hint Resolve exec_keeps sys_exec_loop_keeps : keeps.
Lemma sys_exec_keeps : keeps true fle (sys_exec kend data waits dev_read stack0).
Proof. unfold sys_exec. keep. Qed.

(** The calls of sysproc.c. *)
Lemma sleep_loop_keeps fuel t n : keeps true cle (sleep_loop fuel t n).
Proof. induction fuel as [|fuel IH]; cbn [sleep_loop]; keep. Qed.
Lemma ustore_uprocs_keeps sw a l : keeps sw cle (ustore_uprocs a l).
Proof. revert a. induction l as [|u l IH]; intros a; cbn [ustore_uprocs]; unfold ustore_uproc; keep. Qed.
Hint Resolve sleep_loop_keeps ustore_uprocs_keeps : keeps.

Lemma sys_sleep_keeps : keeps true fle (sys_sleep waits : M (filest St) Z).
Proof. unfold sys_sleep. keep. apply xc_keeps. keep. Qed.
Lemma sys_uptime_keeps : keeps true fle (sys_uptime : M (filest St) Z).
Proof. unfold sys_uptime. keep. apply xc_keeps. keep. Qed.
Hint Resolve sys_sleep_keeps sys_uptime_keeps : keeps.

(** ** The processes as fork and exit see them *)

Variable initlog_ : M St unit.
Abbreviation fops := (file_ops kend waits dev_read initlog_).

Lemma core_put c (s : filest St) : core_of (set_core c s) = c.
Proof. apply bf_get_set. Qed.
Lemma put_core (s : filest St) : set_core (core_of s) s = s.
Proof. destruct s as [[fb x y] z]. unfold set_core, core_of. cbn. by rewrite bf_set_get. Qed.

Lemma cc_keeps {A} sw (m : M core A) : keeps sw cle m → keeps sw fle (@cc _ fops _ m).
Proof. apply keeps_zoom. intros s c H. split; [done|]. cbn [fo_set fo_core file_ops]. by rewrite core_put. Qed.
Lemma cc_Ret {A} (m : M core A) s a c : m (core_of s) = Ret a c → @cc _ fops _ m s = Ret a (set_core c s).
Proof. intros E. unfold cc. by apply (zoom_Ret core_of set_core). Qed.

End fileframe.

#[export] Hint Resolve xf_keeps xc_keeps ffield_keeps me_keeps xbegin_keeps xend_keeps argfd_keeps pipe_initlock_keeps open_inode_keeps
  namei__keeps : keeps.
#[export] Hint Extern 1 (keeps _ fle (cc _)) => apply cc_keeps; keep : keeps.
#[export] Hint Extern 3 (keeps _ fle (xc _)) => apply xc_keeps; keep : keeps.
#[export] Hint Extern 1 (keeps _ fle (fset _ _)) => apply fset_keeps; intros; split; reflexivity : keeps.
#[export] Hint Resolve sys_read_keeps sys_write_keeps sys_fstat_keeps sys_link_keeps sys_unlink_keeps sys_mkdir_keeps
  sys_mknod_keeps sys_chdir_keeps sys_exec_keeps sys_sleep_keeps sys_uptime_keeps ustore_uprocs_keeps : keeps.
