(* ===== verification/FileRefs.v ===== *)
(** * The reference counts of open files (file.c, sysfile.c, proc.c)

    [counted t δ s]: the count of every entry of the file table is the number of
    descriptors of all processes that refer to it, plus [δ], the references that
    the call in progress holds; an entry nobody uses has no type.  exit closes a
    file, and may wait, before it clears the descriptor: the ghost state [t] has,
    for a process in exit, the descriptor it has closed and not cleared yet,
    which does not count.

    [typed s]: memory holds bytes, the tables have their sizes, and a slot of the
    process table that is not in use has no descriptors.

    The theorem: every system call keeps both, interleaved with the other
    processes at every point where it waits. *)
From S2P Require Import Prelude Kernel CString Spinlock Kalloc Vm Proc ProcSpec Pipe Bytes Bio Log BlockIO Fs File Syscall Sysfile Exec Sysproc Frame FileFrame.

Local Open Scope Z_scope.
Local Open Scope kernel_scope.

(** ** Counting *)

(** The number of descriptors in [L] that refer to [f]. *)
Definition refs (f : nat) (L : list (list (option nat))) : nat := length (filter (λ x, x = Some f) (concat L)).

Definition is_ref (f : nat) (x : option nat) : nat := if decide (x = Some f) then 1 else 0.

Lemma refs_set f L i o fd old new : L !! i = Some o → o !! fd = Some old →
  (refs f (<[i := <[fd := new]> o]> L) + is_ref f old = refs f L + is_ref f new)%nat.
Proof.
  intros Hi Hfd. unfold refs, is_ref. rewrite insert_take_drop by (by eapply lookup_lt_Some).
  rewrite <- (take_drop_middle L i o Hi) at 3. rewrite !concat_app. cbn [concat].
  rewrite (insert_take_drop o) by (by eapply lookup_lt_Some). rewrite <- (take_drop_middle o fd old Hfd) at 3.
  rewrite !filter_app, !length_app, !filter_cons. repeat case_decide; cbn [length]; lia.
Qed.

Lemma refs_pos f L i o fd : L !! i = Some o → o !! fd = Some (Some f) → (1 ≤ refs f L)%nat.
Proof.
  intros Hi Hfd. pose proof (refs_set f L i o fd (Some f) None Hi Hfd) as H. unfold is_ref in H.
  rewrite decide_True, decide_False in H by done. lia.
Qed.

(** [δ] with [k] more references to [f]. *)
Definition bump (f : nat) (k : Z) (δ : nat → Z) : nat → Z := λ g, if decide (g = f) then δ g + k else δ g.
Definition none : nat → Z := λ _, 0.

Ltac bumps := intros ?; unfold bump, is_ref, none; repeat case_decide; simplify_eq; try done; lia.

(** The descriptors that count. *)
Definition cleared (w : option nat) (o : list (option nat)) : list (option nat) :=
  match w with Some fd => <[fd := None]> o | None => o end.
Definition open_fds (t : nat → option nat) (L : list (list (option nat))) : list (list (option nat)) := imap (λ i, cleared (t i)) L.

Lemma open_fds_lookup t L i : open_fds t L !! i = cleared (t i) <$> L !! i.
Proof. unfold open_fds. by rewrite list_lookup_imap. Qed.

Lemma length_open_fds t L : length (open_fds t L) = length L.
Proof. apply length_imap. Qed.

Lemma open_fds_ext t t' L : (∀ i, t i = t' i) → open_fds t L = open_fds t' L.
Proof. intros E. apply list_eq. intros i. by rewrite !open_fds_lookup, E. Qed.

(** A descriptor of a process that is not closing one. *)
Lemma open_fds_insert t L i o : t i = None → open_fds t (<[i := o]> L) = <[i := o]> (open_fds t L).
Proof.
  intros Ht. apply list_eq. intros j. rewrite open_fds_lookup. destruct (decide (i = j)) as [->|Hne].
  - destruct (decide (j < length L)%nat) as [Hj|Hj].
    + rewrite !list_lookup_insert_eq by (by rewrite ?length_open_fds). cbn. by rewrite Ht.
    + rewrite !lookup_ge_None_2; [done|..]; rewrite ?length_insert, ?length_open_fds; lia.
  - by rewrite !list_lookup_insert_ne, open_fds_lookup by done.
Qed.

(** The descriptor a process is closing. *)
Lemma open_fds_close t L i o fd : L !! i = Some o →
  open_fds (<[i := Some fd]> t) L = <[i := <[fd := None]> o]> (open_fds (<[i := None]> t) L).
Proof.
  intros Hi. apply list_eq. intros j. rewrite open_fds_lookup. destruct (decide (i = j)) as [->|Hne].
  - rewrite fn_lookup_insert, Hi, list_lookup_insert_eq; [done|]. rewrite length_open_fds. by eapply lookup_lt_Some.
  - rewrite fn_lookup_insert_ne, list_lookup_insert_ne, open_fds_lookup, fn_lookup_insert_ne by done. done.
Qed.

Section filerefs.
  Context {St : Type} {HB : BlockIO St} {HF : BlockFrame St}.
  Variables kend data forkret_addr trapret_addr : Z.
  Variable waits : nat.
  Variable dev_read : Z → option (nat → Z → M (fsst St) (Z * list Z)).
  Variable dev_write : Z → option (nat → list Z → Z → M (fsst St) Z).
  Variable pipe_name : Z.
  Variable stack0 : list Z.
  Variable null_uid : Z.
  Variable cmos : nat → Z → Z.
  Variable initlog_ : M St unit.
  Hypothesis dev_read_keeps : ∀ d rd i n, dev_read d = Some rd → keeps true fsle (rd i n).
  Hypothesis dev_write_keeps : ∀ d wr i l n, dev_write d = Some wr → keeps true fsle (wr i l n).

Definition alive (i : nat) (s : filest St) : Prop := dead (getp i (core_of s)) = false.

Record counted (t : nat → option nat) (δ : nat → Z) (s : filest St) : Prop := {
  c_ref f : fref (getf f s) = Z.of_nat (refs f (open_fds t (fds s))) + δ f;
  c_free f : fref (getf f s) = 0 → ftype (getf f s) = FD_NONE;
  c_stale i : ¬ alive i s → t i = None
}.

Record typed (s : filest St) : Prop := {
  ty_bytes : bytes (kram (ck (core_of s)));
  ty_nproc : length (ptable (core_of s)) = NPROC;
  ty_nofile i o : fds s !! i = Some o → length o = NOFILE;
  ty_nfile : length (ftable s) = NFILE;
  ty_dead i o : ¬ alive i s → fds s !! i = Some o → Forall (eq None) o
}.

Record kernel_ok (t : nat → option nat) (s : filest St) : Prop := {
  ok_counted : counted t none s;
  ok_typed : typed s
}.

(** The parts of the state the invariant is about. *)
Lemma kernel_ok_move t s s' :
  ftable s' = ftable s → fds s' = fds s → (∀ i, alive i s' ↔ alive i s) → bytes (kram (ck (core_of s'))) →
  kernel_ok t s → kernel_ok t s'.
Proof.
  intros Ef Ed Ea Hb [[H1 H2 H3] [H4 H5 H6 H7 H8]]. assert (∀ f, getf f s' = getf f s) as Eg by (intros f; unfold getf; by rewrite Ef).
  split; split; try done.
  - intros f. by rewrite Eg, Ed.
  - intros f. rewrite Eg. apply H2.
  - intros i. rewrite Ea. apply H3.
  - apply (f_equal length) in Ed. unfold fds in Ed. rewrite !length_fmap in Ed. congruence.
  - by rewrite Ed.
  - by rewrite Ef.
  - intros i o. rewrite Ea, Ed. apply H8.
Qed.

(** ** One process among the others *)

Section calls.
  Variable pr : nat.                        (* the process *)

Abbreviation gst := ((nat → option nat) * filest St)%type.

(** When it gives up the processor the invariant holds and the descriptors of
    the other processes are as it found them; the others leave its own alone. *)
Definition others (b : gst) (s : filest St) : Prop :=
  ∀ j, j ≠ pr → alive j b.2 → alive j s ∧ fds s !! j = fds b.2 !! j.

Definition gives (b x : gst) : Prop := kernel_ok x.1 x.2 ∧ (∀ j, j ≠ pr → x.1 j = b.1 j) ∧ others b x.2.

Definition relies (x x' : gst) : Prop :=
  kernel_ok x'.1 x'.2 ∧ cur (core_of x'.2) = Some pr ∧ alive pr x'.2 ∧ x'.1 pr = x.1 pr ∧
  (alive pr x.2 → fds x'.2 !! pr = fds x.2 !! pr).

(** In the middle of a call that got the processor in [b]: [o] is the
    descriptors of the process, [w] the one it is closing in exit. *)
Record amidst (w : option nat) (δ : nat → Z) (o : list (option nat)) (b : gst) (s : filest St) : Prop := {
  am_counted : counted (<[pr := w]> b.1) δ s;
  am_typed : typed s;
  am_cur : cur (core_of s) = Some pr;
  am_alive : alive pr s;
  am_mine : fds s !! pr = Some o;
  am_others : others b s
}.

Abbreviation amid := (amidst None).

Lemma counted_ext t t' δ δ' s : (∀ i, t i = t' i) → (∀ f, δ f = δ' f) → counted t δ s → counted t' δ' s.
Proof.
  intros Et E [H1 H2 H3]. split; [|done|].
  - intros f. by rewrite <- E, H1, (open_fds_ext t t').
  - intros i. rewrite <- Et. apply H3.
Qed.

Lemma amid_ext w δ1 δ2 o b s : (∀ f, δ1 f = δ2 f) → amidst w δ1 o b s → amidst w δ2 o b s.
Proof. intros E []. split; try done. by eapply counted_ext. Qed.

(** A step that [fle] allows. *)
Lemma fle_alive s s' i : fle s s' → alive i s → alive i s'.
Proof. intros [_ H]. by apply cle_alive. Qed.

Lemma counted_fle t δ s s' : fle s s' → counted t δ s → counted t δ s'.
Proof.
  intros H [H1 H2 H3]. split.
  - intros f. pose proof (fle_file _ _ f H) as [= -> _]. by rewrite (fle_fds _ _ H).
  - intros f. pose proof (fle_file _ _ f H) as [= -> ->]. apply H2.
  - intros i Hi. apply H3. intros Ha. by apply Hi, (fle_alive s).
Qed.

Lemma typed_fle s s' : fle s s' → typed s → typed s'.
Proof.
  intros H [H1 H2 H3 H4 H5]. pose proof (fle_fds _ _ H) as E. split.
  - destruct H as [_ [_ _ Hk]]. by apply Hk.
  - destruct H as [_ [_ Hp _]]. by rewrite <- (Forall2_length _ _ _ Hp).
  - by rewrite E.
  - destruct H as [Hf _]. apply (f_equal length) in Hf. by rewrite !length_fmap in Hf; rewrite Hf.
  - intros i o Hi. rewrite E. apply H5. intros Ha. by apply Hi, (fle_alive s).
Qed.

Lemma kernel_ok_fle t s s' : fle s s' → kernel_ok t s → kernel_ok t s'.
Proof. intros H [H1 H2]. split; [by eapply counted_fle|by eapply typed_fle]. Qed.

Lemma others_fle b s s' : fle s s' → others b s → others b s'.
Proof. intros H Ho j Hj Ha. rewrite (fle_fds _ _ H). destruct (Ho j Hj Ha) as [H1 H2]. split; [by eapply fle_alive|done]. Qed.

Lemma amid_fle w δ o b s s' : fle s s' → amidst w δ o b s → amidst w δ o b s'.
Proof.
  intros H [H1 H2 H3 H4 H5 H6]. split.
  - by eapply counted_fle.
  - by eapply typed_fle.
  - destruct H as [_ [Hc _ _]]. congruence.
  - by eapply fle_alive.
  - by rewrite (fle_fds _ _ H).
  - by eapply others_fle.
Qed.

(** ** Running *)

(** It gives up the processor, and gets it again. *)
Lemma amid_gives w o b s : amidst w none o b s → gives b (<[pr := w]> b.1, s).
Proof. intros []. split_and!; [by split|by intros j Hj; apply fn_lookup_insert_ne|done]. Qed.

Lemma amid_relies w o b s t' s' : amidst w none o b s → relies (<[pr := w]> b.1, s) (t', s') → amidst w none o (t', s') s'.
Proof.
  intros [] ([Hc Ht] & H2 & H3 & H4 & H5). cbn in *. rewrite fn_lookup_insert in H4. split; try done.
  - eapply counted_ext; [|done|exact Hc]. intros i. destruct (decide (i = pr)) as [->|Hne]; [by rewrite fn_lookup_insert|by rewrite fn_lookup_insert_ne].
  - by rewrite H5.
Qed.

Lemma owp_step {A} (m : M (filest St) A) w o b s :
  keeps true fle m → amidst w none o b s → owp gives relies (m s) b (λ b' _ s', amidst w none o b' s').
Proof.
  apply (owp_keeps fle).
  - intros b0 s0 s'. apply amid_fle.
  - intros b0 s0 Ha. exists (<[pr := w]> b0.1). split; [by eapply amid_gives|]. intros t' s'. by apply amid_relies.
Qed.

(** What a call ends with. *)
Definition over (b : gst) (s : filest St) : Prop := gives b (<[pr := None]> b.1, s) ∧ cur (core_of s) = Some pr ∧ alive pr s.

Definition call_ok {A} (m : M (filest St) A) (b : gst) (s : filest St) : Prop := owp gives relies (m s) b (λ b' _ s', over b' s').

Lemma amid_over δ o b s : (∀ f, δ f = 0) → amid δ o b s → over b s.
Proof. intros E Ha. apply (amid_ext _ _ none) in Ha; [|done]. split_and!; [by eapply amid_gives|by destruct Ha..]. Qed.

Lemma over_amid b s : over b s → ∃ o, amid none o b s.
Proof.
  intros ([[Hc Ht] [_ Ho]] & Hcur & Ha). destruct (fds s !! pr) as [o|] eqn:E.
  - exists o. by split.
  - exfalso. unfold fds in E. rewrite list_lookup_fmap in E. revert Ha. unfold alive, getp. by destruct (ptable (core_of s) !! pr).
Qed.

(** At the start of a call. *)
Lemma start_amid t s : kernel_ok t s → t pr = None → cur (core_of s) = Some pr → alive pr s → ∃ o, amid none o (t, s) s.
Proof.
  intros [Hk1 Hk2] Ht Hc Ha. apply over_amid. split_and!; try done. split_and!; cbn; try done.
  - split; [|done]. eapply counted_ext; [|done|exact Hk1]. intros j.
    destruct (decide (j = pr)) as [->|Hne]; [rewrite fn_lookup_insert; congruence|by rewrite fn_lookup_insert_ne].
  - intros j Hj. by apply fn_lookup_insert_ne.
Qed.

Lemma owp_call {A} (m : M (filest St) A) o b s : keeps true fle m → amid none o b s → call_ok m b s.
Proof. intros Hm Ha. eapply owp_mono; [by eapply owp_step|]. intros b' a s' Ha'. exact (amid_over none o b' s' (λ _, eq_refl) Ha'). Qed.

Lemma owp_calm {A} (m : M (filest St) A) w δ o b s :
  keeps false fle m → amidst w δ o b s → owp gives relies (m s) b (λ b' _ s', b' = b ∧ fle s s' ∧ amidst w δ o b s').
Proof.
  intros Hm Ha. apply owp_quiet. eapply quiet_mono; [by apply (quiet_keeps fle)|]. intros a s' [E _]. split_and!; [done|done|]. by eapply amid_fle.
Qed.

(** One step of a run, quiet or not. *)
Ltac calm Ha := apply owp_bind; eapply owp_mono; [apply owp_calm; [keep|exact Ha]|].
Ltac wait Ha := apply owp_bind; eapply owp_mono; [apply owp_step; [keep|exact Ha]|].
Ltac over Ha := exact (amid_over _ _ _ _ (λ _, eq_refl) Ha).

(** ** Descriptors *)

Lemma me_run s : cur (core_of s) = Some pr → (me : M (filest St) nat) s = Ret pr s.
Proof. intros H. unfold me. erewrite xc_Ret; [|by apply (myproc_ok _ _ pr)]. by rewrite put_core. Qed.

Lemma ofile_run i o s : fds s !! i = Some o → xc (pget i ofile) s = Ret o s.
Proof.
  intros H. erewrite xc_Ret; [|reflexivity]. rewrite put_core. f_equal. unfold fds in H.
  rewrite list_lookup_fmap in H. unfold getp. by destruct (ptable (core_of s) !! i); simplify_eq/=.
Qed.

(** Descriptor [fd] of a process changed. *)
Definition put_fd (i fd : nat) (v : option nat) (s : filest St) : filest St :=
  set_core (set_ptable (alter (λ p, set_ofile (<[fd := v]> (ofile p)) p) i (ptable (core_of s))) (core_of s)) s.

Lemma put_fd_run i fd v s : xc (pupd i (λ p, set_ofile (<[fd := v]> (ofile p)) p)) s = Ret tt (put_fd i fd v s).
Proof. by apply xc_Ret. Qed.

Lemma put_fd_fds i fd v s o : fds s !! i = Some o → fds (put_fd i fd v s) = <[i := <[fd := v]> o]> (fds s).
Proof.
  intros H. unfold fds, put_fd. rewrite core_put. cbn [ptable set_ptable]. unfold fds in H. rewrite list_lookup_fmap in H.
  destruct (ptable (core_of s) !! i) as [p|] eqn:Ep; [|done]. injection H as <-.
  apply list_eq. intros j. rewrite list_lookup_fmap. destruct (decide (i = j)) as [<-|Hne].
  - rewrite list_lookup_alter_eq, Ep, list_lookup_insert_eq by (rewrite length_fmap; by eapply lookup_lt_Some). done.
  - by rewrite list_lookup_alter_ne, list_lookup_insert_ne, list_lookup_fmap.
Qed.

Lemma put_fd_alive i fd v s j : alive j (put_fd i fd v s) ↔ alive j s.
Proof.
  unfold alive, put_fd. rewrite core_put. unfold getp. cbn [ptable set_ptable]. destruct (decide (i = j)) as [<-|Hne].
  - rewrite list_lookup_alter_eq. by destruct (ptable (core_of s) !! i).
  - by rewrite list_lookup_alter_ne.
Qed.

Lemma put_fd_typed i fd v s o : fds s !! i = Some o → alive i s ∨ v = None → typed s → typed (put_fd i fd v s).
Proof.
  intros Hi Ha [H1 H2 H3 H4 H5]. pose proof (put_fd_fds i fd v s o Hi) as E.
  assert (∀ j o', fds (put_fd i fd v s) !! j = Some o' → (j = i ∧ o' = <[fd := v]> o) ∨ fds s !! j = Some o') as Hj.
  { intros j o'. rewrite E, list_lookup_insert_Some. naive_solver. }
  split.
  - unfold put_fd. by rewrite core_put.
  - unfold put_fd. rewrite core_put. cbn [ptable set_ptable]. by rewrite length_alter.
  - intros j o' [[-> ->]|Ho']%Hj; [rewrite length_insert|]; by eapply H3.
  - done.
  - intros j o'. rewrite put_fd_alive. intros Hd [[-> ->]|Ho']%Hj; [|by eapply H5].
    destruct Ha as [Ha| ->]; [done|]. apply Forall_insert; [by eapply H5|done].
Qed.

Lemma others_put b s i fd v o : fds s !! i = Some o → i = pr ∨ ¬ alive i b.2 → others b s → others b (put_fd i fd v s).
Proof.
  intros Hi Hcase Ho j Hj Ha. rewrite put_fd_alive, (put_fd_fds _ _ _ _ _ Hi). destruct (Ho j Hj Ha) as [H1 H2].
  split; [done|]. rewrite list_lookup_insert_ne; [done|]. intros ->. by destruct Hcase.
Qed.

Lemma counted_put t δ s i fd v o old : counted t δ s → fds s !! i = Some o → o !! fd = Some old → t i = None →
  counted t (λ f, δ f + Z.of_nat (is_ref f old) - Z.of_nat (is_ref f v)) (put_fd i fd v s).
Proof.
  intros [H1 H2 H3] Hi Hfd Ht. split.
  - intros f. change (getf f (put_fd i fd v s)) with (getf f s). rewrite H1, (put_fd_fds _ _ _ _ _ Hi), open_fds_insert by done.
    assert (open_fds t (fds s) !! i = Some o) as Hi' by (by rewrite open_fds_lookup, Hi, Ht).
    pose proof (refs_set f _ _ _ _ _ v Hi' Hfd). lia.
  - exact H2.
  - intros j. rewrite put_fd_alive. apply H3.
Qed.

Lemma set_fd_amid δ o b s fd old v : amid δ o b s → o !! fd = Some old →
  amid (λ f, δ f + Z.of_nat (is_ref f old) - Z.of_nat (is_ref f v)) (<[fd := v]> o) b (put_fd pr fd v s).
Proof.
  intros [H1 H2 H3 H4 H5 H6] Hfd. split.
  - eapply counted_put; [done..|]. apply fn_lookup_insert.
  - eapply put_fd_typed; eauto.
  - unfold put_fd. by rewrite core_put.
  - by apply put_fd_alive.
  - rewrite (put_fd_fds _ _ _ _ _ H5). apply list_lookup_insert_eq. by eapply lookup_lt_Some.
  - eapply others_put; eauto.
Qed.

Lemma set_fd_run fd v s : cur (core_of s) = Some pr → set_fd fd v s = Ret tt (put_fd pr fd v s).
Proof. intros H. unfold set_fd. rewrite (bind_Ret _ _ _ _ _ (me_run s H)). apply put_fd_run. Qed.

Lemma free_fd_spec o n fd : free_fd o n = Some fd → (n ≤ fd)%nat ∧ o !! (fd - n)%nat = Some None.
Proof.
  revert n. induction o as [|[f|] o IH]; intros n; cbn [free_fd]; [done|..].
  - intros [H1 H2]%IH. split; [lia|]. by replace (fd - n)%nat with (S (fd - S n)) by lia.
  - intros [= ->]. split; [lia|]. by rewrite Nat.sub_diag.
Qed.

Lemma fdalloc_run o b s δ f : amid δ o b s →
  ∃ r s', fdalloc f s = Ret r s' ∧ ftable s' = ftable s ∧
    ((r = -1 ∧ s' = s) ∨ ∃ fd, r = Z.of_nat fd ∧ o !! fd = Some None ∧ amid (bump f (-1) δ) (<[fd := Some f]> o) b s').
Proof.
  intros Ha. pose proof (am_cur _ _ _ _ _ Ha) as Hcur. unfold fdalloc.
  rewrite (bind_Ret _ _ _ _ _ (me_run s Hcur)), (bind_Ret _ _ _ _ _ (ofile_run _ _ _ (am_mine _ _ _ _ _ Ha))).
  destruct (free_fd _ 0) as [fd|] eqn:E; [|by exists (-1), s; eauto].
  apply free_fd_spec in E as [_ E]. rewrite Nat.sub_0_r in E. apply lookup_take_Some in E as [E _].
  rewrite (bind_Ret _ _ _ _ _ (set_fd_run fd (Some f) s Hcur)).
  exists (Z.of_nat fd), (put_fd pr fd (Some f) s). split_and!; [done|done|]. right. exists fd. split_and!; [done|done|].
  eapply amid_ext; [|eapply set_fd_amid; [exact Ha|exact E]]. bumps.
Qed.

(** ** Files *)

(** Entry [f] changed by [g]. *)
Lemma fset_amid w δ' o b s f g :
  amidst w δ' o b s → (f < length (ftable s))%nat → (fref (g (getf f s)) = 0 → ftype (g (getf f s)) = FD_NONE) →
  let s' := set_ftable (alter g f (ftable s)) s in
  amidst w (bump f (fref (g (getf f s)) - fref (getf f s)) δ') o b s' ∧ getf f s' = g (getf f s) ∧ ∀ j, j ≠ f → getf j s' = getf j s.
Proof.
  intros Ha Hf Hfree s'. assert (∀ j, getf j s' = if decide (j = f) then g (getf f s) else getf j s) as Hget by (by apply getf_alter).
  split_and!; [|by rewrite Hget, decide_True|intros j Hj; by rewrite Hget, decide_False].
  destruct Ha as [[H1 H1' H1''] [] H3 H4 H5 H6]. split; try done; split; try done.
  - intros j. rewrite Hget. unfold bump. change (fds s') with (fds s). case_decide; [subst j|by apply H1]. pose proof (H1 f). lia.
  - intros j. rewrite Hget. case_decide; [done|apply H1'].
  - cbn. by rewrite length_alter.
Qed.

Lemma getf_range f (s : filest St) : 1 ≤ fref (getf f s) → (f < length (ftable s))%nat.
Proof. intros H. apply lookup_lt_is_Some. unfold getf in H. destruct (ftable s !! f); [eauto|]. cbn in H. lia. Qed.

Lemma find_file_Some g l f : find_file g l = Some f → ∃ x, l !! f = Some x ∧ g x = true.
Proof.
  revert f. induction l as [|x l IH]; intros f; cbn [find_file]; [done|]. destruct (g x) eqn:E; [intros [= <-]; eauto|].
  destruct (find_file g l) as [k|]; [|done]. intros [= <-]. by apply IH.
Qed.

Lemma filealloc_amid δ' o b s : amid δ' o b s →
  owp gives relies (filealloc s) b (λ b' r s', b' = b ∧
    match r with
    | None => amid δ' o b s'
    | Some f => amid (bump f 1 δ') o b s' ∧ fref (getf f s) = 0 ∧ file_of f s' = (1, FD_NONE) ∧ ∀ g, g ≠ f → file_of g s' = file_of g s
    end).
Proof.
  intros Ha. unfold filealloc. calm Ha. intros b1 [] s1 (-> & E1 & Ha1).
  pose proof (λ g, fle_file _ _ g E1) as Ef1. unfold bind at 1, gets at 1. cbn [obind].
  destruct (find_file _ (ftable s1)) as [f|] eqn:E.
  - apply find_file_Some in E as (x & Hx & Href). bools.
    assert (getf f s1 = x) as Hgx by (unfold getf; by rewrite Hx). pose proof (Ef1 f) as [= Er Et]. rewrite Hgx in Er, Et.
    pose proof (c_free _ _ _ (am_counted _ _ _ _ _ Ha1) f) as Hnone. rewrite Hgx in Hnone. specialize (Hnone Href).
    unfold bind at 1, fset at 1, modify at 1. cbn [obind].
    destruct (fset_amid None δ' o b s1 f (set_fref 1) Ha1) as (Ha2 & Hg2 & Ho2); [by eapply lookup_lt_Some|done|].
    rewrite Hgx in Ha2, Hg2. cbn [fref set_fref] in Ha2. rewrite Href in Ha2.
    set (s2 := set_ftable _ _) in *. calm Ha2. intros b3 [] s3 (-> & E3 & Ha3).
    pose proof (λ g, fle_file _ _ g E3) as Ef3. split; [done|]. split_and!; [done|congruence|..].
    + rewrite Ef3. unfold file_of. by rewrite Hg2, Hnone || (rewrite Hg2; cbn; by rewrite Hnone).
    + intros g Hg. rewrite Ef3, <- Ef1. unfold file_of. by rewrite Ho2.
  - calm Ha1. by intros b3 [] s3 (-> & E3 & Ha3).
Qed.

Lemma filedup_amid δ' o b s f : amid (bump f (-1) δ') o b s → 1 ≤ fref (getf f s) →
  owp gives relies (filedup f s) b (λ b' r s', b' = b ∧ r = f ∧ cle (core_of s) (core_of s') ∧ amid δ' o b s').
Proof.
  intros Ha Hr. unfold filedup. calm Ha. intros b1 [] s1 (-> & E1 & Ha1).
  pose proof (λ g, fle_file _ _ g E1) as Ef1. pose proof (Ef1 f) as [= Er _]. unfold bind at 1, ffield at 1, gets at 1. cbn [obind].
  rewrite Er, (proj2 (Z.ltb_ge _ _)) by lia. change (bind (ret ()) ?k ?t) with (k () t). cbv beta.
  assert (f < length (ftable s1))%nat as Hf by (apply getf_range; lia).
  unfold bind at 1, fset at 1, modify at 1. cbn [obind].
  destruct (fset_amid _ _ o b s1 f (λ x, set_fref (fref x + 1) x) Ha1 Hf) as (Ha2 & _); [intros Hz; exfalso; cbn [fref set_fref] in Hz; lia|]. cbn [fref set_fref] in Ha2.
  set (s2 := set_ftable _ _) in *. calm Ha2. intros b3 [] s3 (-> & E3 & Ha3).
  split_and!; [done|done|by etrans; [apply E1|apply E3]|]. eapply amid_ext; [|exact Ha3]. bumps.
Qed.

(** Closing waits only for a file, not for a pipe. *)
Lemma fileclose_amid w δ' o b s f :
  amidst w (bump f 1 δ') o b s → 0 ≤ δ' f → δ' = none ∨ ftype (getf f s) ≠ FD_INODE →
  owp gives relies (fileclose kend f s) b (λ b' _ s', amidst w δ' o b' s' ∧
    (ftype (getf f s) ≠ FD_INODE → b' = b ∧ ∀ g, g ≠ f → file_of g s' = file_of g s)).
Proof.
  intros Ha Hd Hcase. pose proof (c_ref _ _ _ (am_counted _ _ _ _ _ Ha) f) as Hr. unfold bump in Hr. rewrite decide_True in Hr by done.
  unfold fileclose. calm Ha. intros b1 [] s1 (-> & E1 & Ha1).
  pose proof (λ g, fle_file _ _ g E1) as Ef1. pose proof (Ef1 f) as [= Er Et]. unfold bind at 1, ffield at 1, gets at 1. cbn [obind].
  rewrite Er, (proj2 (Z.ltb_ge _ _)) by lia. change (bind (ret ()) ?k ?t) with (k () t). cbv beta.
  assert (f < length (ftable s1))%nat as Hf by (apply getf_range; lia).
  unfold bind at 1, fset at 1, modify at 1. cbn [obind]. unfold bind at 1, ffield at 1, gets at 1. cbn [obind].
  pose proof (getf_alter f (λ x, set_fref (fref x - 1) x) s1 _ eq_refl Hf) as Hget.
  set (s2 := set_ftable (alter (λ x, set_fref (fref x - 1) x) f (ftable s1)) s1) in *.
  rewrite (Hget f), decide_True by done. cbn [fref set_fref]. rewrite Er. destruct (0 <? fref (getf f s) - 1) eqn:Epos; bools.
  - destruct (fset_amid _ _ o b s1 f (λ x, set_fref (fref x - 1) x) Ha1 Hf) as (Ha2 & _ & Ho2); [intros Hz; exfalso; cbn [fref set_fref] in Hz; lia|].
    fold s2 in Ha2, Ho2. cbn [fref set_fref] in Ha2. eapply owp_mono; [apply owp_calm; [keep|exact Ha2]|]. intros b3 [] s3 (-> & E3 & Ha3).
    pose proof (λ g, fle_file _ _ g E3) as Ef3. split; [eapply amid_ext; [|exact Ha3]; intros g; unfold bump; case_decide; lia|].
    intros _. split; [done|]. intros g Hg. rewrite Ef3, <- Ef1. unfold file_of. by rewrite Ho2.
  - unfold bind at 1, gets at 1. cbn [obind]. unfold bind at 1, fset at 1, modify at 1. cbn [obind ftable set_ftable].
    assert (getf f s2 = set_fref (fref (getf f s1) - 1) (getf f s1)) as Hg2 by (by rewrite Hget, decide_True).
    rewrite Hg2. cbn [ftype set_fref fpipe writable fip]. change (ftable s2) with (alter (λ x, set_fref (fref x - 1) x) f (ftable s1)).
    rewrite list_alter_alter_eq. destruct (fset_amid _ _ o b s1 f (set_ftype FD_NONE ∘ set_fref 0 ∘ (λ x, set_fref (fref x - 1) x)) Ha1 Hf) as (Ha3 & _ & Ho3); [done|].
    change (set_ftable _ s2) with (set_ftable (alter (set_ftype FD_NONE ∘ set_fref 0 ∘ (λ x, set_fref (fref x - 1) x)) f (ftable s1)) s1).
    cbn [fref set_fref set_ftype compose] in Ha3.
    calm Ha3. intros b4 [] s4 (-> & E4 & Ha4). pose proof (λ g, fle_file _ _ g E4) as Ef4.
    assert (amidst w δ' o b s4) as Ha5 by (eapply amid_ext; [|exact Ha4]; intros g; unfold bump; case_decide; subst; lia).
    assert (∀ g, g ≠ f → file_of g s4 = file_of g s) as Ho4 by (intros g Hg; rewrite Ef4, <- Ef1; unfold file_of; by rewrite Ho3).
    rewrite Et. destruct (ftype (getf f s)) eqn:Ety.
    + by split.
    + eapply owp_mono; [apply owp_calm; [keep|exact Ha5]|]. intros b5 [] s5 (-> & E5 & Ha6). pose proof (λ g, fle_file _ _ g E5) as Ef5.
      split; [done|]. intros _. split; [done|]. intros g Hg. rewrite Ef5. by apply Ho4.
    + destruct Hcase as [->|]; [|done]. eapply owp_mono; [apply owp_step; [keep|exact Ha5]|]. by intros b5 [] s5 Ha6.
Qed.

(** ** The calls *)

Lemma argfd_amid o b s n : amid none o b s →
  owp gives relies (argfd n s) b (λ b' r s', b' = b ∧ amid none o b s' ∧
    match r with Some (fd, f) => o !! Z.to_nat fd = Some (Some f) | None => True end).
Proof.
  intros Ha. unfold argfd. calm Ha. intros b1 [fd|] s1 (-> & E1 & Ha1); [|done].
  rewrite (bind_Ret _ _ _ _ _ (me_run s1 (am_cur _ _ _ _ _ Ha1))), (bind_Ret _ _ _ _ _ (ofile_run _ _ _ (am_mine _ _ _ _ _ Ha1))).
  destruct (_ || _); [done|]. split_and!; [done|done|]. by destruct (o !! Z.to_nat fd) as [[f|]|] eqn:Ef.
Qed.

(** A descriptor counts. *)
Lemma amid_ref o b s fd f : amid none o b s → o !! fd = Some (Some f) → 1 ≤ fref (getf f s).
Proof.
  intros Ha Hfd. rewrite (c_ref _ _ _ (am_counted _ _ _ _ _ Ha) f). unfold none.
  assert (open_fds (<[pr := None]> b.1) (fds s) !! pr = Some o) as Hi by (by rewrite open_fds_lookup, (am_mine _ _ _ _ _ Ha), fn_lookup_insert).
  pose proof (refs_pos f _ _ _ _ Hi Hfd). lia.
Qed.

Lemma sys_dup_ok o b s : amid none o b s → call_ok sys_dup b s.
Proof.
  intros Ha. unfold call_ok, sys_dup. apply owp_bind. eapply owp_mono; [by apply argfd_amid|]. intros b1 [[fd f]|] s1 (-> & Ha1 & Hfd); [|over Ha1].
  destruct (fdalloc_run _ _ _ _ f Ha1) as (r & s2 & E2 & Ht & [[-> ->]|(fd' & -> & Hn & Ha2)]); rewrite (bind_Ret _ _ _ _ _ E2).
  - over Ha1.
  - rewrite (proj2 (Z.ltb_ge _ _)) by lia. apply owp_bind. eapply owp_mono; [apply filedup_amid; [exact Ha2|]|].
    + unfold getf. rewrite Ht. by eapply (amid_ref o b).
    + intros b3 a s3 (-> & -> & _ & Ha3). over Ha3.
Qed.

Lemma sys_close_ok o b s : amid none o b s → call_ok (sys_close kend) b s.
Proof.
  intros Ha. unfold call_ok, sys_close. apply owp_bind. eapply owp_mono; [by apply argfd_amid|]. intros b1 [[fd f]|] s1 (-> & Ha1 & Hfd); [|over Ha1].
  rewrite (bind_Ret _ _ _ _ _ (set_fd_run (Z.to_nat fd) None s1 (am_cur _ _ _ _ _ Ha1))). apply owp_bind.
  eapply owp_mono; [apply (fileclose_amid None none); [|done|by left]|].
  - eapply amid_ext; [|eapply set_fd_amid; [exact Ha1|exact Hfd]]. bumps.
  - intros b3 [] s3 [Ha3 _]. over Ha3.
Qed.

Lemma sys_open_ok o b s : amid none o b s → call_ok (sys_open kend waits dev_read dev_write) b s.
Proof.
  intros Ha. unfold call_ok, sys_open. wait Ha. intros b1 [path|] s1 Ha1; [|over Ha1].
  wait Ha1. intros b2 [om|] s2 Ha2; [|over Ha2].
  wait Ha2. intros b3 [] s3 Ha3.
  wait Ha3. intros b4 [ip|] s4 Ha4; [|over Ha4].
  apply owp_bind. eapply owp_mono; [apply filealloc_amid; exact Ha4|]. intros b5 [f|] s5 (-> & H5); cycle 1.
  { change (bind (ret (-1)) ?k ?t) with (k (-1) t). cbv beta. eapply owp_mono; [apply owp_step; [keep|exact H5]|]. intros b6 r s6 Ha6. over Ha6. }
  destruct H5 as (Ha5 & _ & Hf5 & _).
  destruct (fdalloc_run _ _ _ _ f Ha5) as (r & s6 & E6 & Ht & [[-> ->]|(fd & -> & Hn & Ha6)]); rewrite (bind_Ret _ _ _ _ _ E6).
  - cbn [Z.ltb Z.compare]. apply owp_bind. eapply owp_mono; [apply (fileclose_amid None none); [exact Ha5|done|by left]|]. intros b7 [] s7 [Ha7 _].
    eapply owp_mono; [apply owp_step; [keep|exact Ha7]|]. intros b8 r s8 Ha8. over Ha8.
  - rewrite (proj2 (Z.ltb_ge _ _)) by lia. apply (amid_ext _ _ none) in Ha6; [|bumps].
    wait Ha6. intros b7 [] s7 Ha7.
    wait Ha7. intros b8 [] s8 Ha8.
    assert (1 ≤ fref (getf f s8)) as Hr by (eapply amid_ref; [exact Ha8|apply list_lookup_insert_eq; by eapply lookup_lt_Some]).
    unfold bind at 1, fset at 1, modify at 1. cbn [obind].
    match goal with |- context [alter ?g f _] => destruct (fset_amid None none _ b8 s8 f g Ha8) as (Ha9 & _) end; [by apply getf_range|intros Hz; exfalso; cbn [fref] in Hz; lia|].
    cbn [fref] in Ha9. eapply amid_over; [|exact Ha9]. bumps.
Qed.

(** Two files, of which the first is not an inode's. *)
Lemma close_two {A} o b s f0 f1 (k : M (filest St) A) Q :
  amid (bump f1 1 (bump f0 1 none)) o b s → ftype (getf f0 s) ≠ FD_INODE → f0 ≠ f1 →
  (∀ b' s', amid none o b' s' → owp gives relies (k s') b' Q) →
  owp gives relies (bind (fileclose kend f0) (λ _, bind (fileclose kend f1) (λ _, k)) s) b Q.
Proof.
  intros Ha Ht Hne HQ. apply owp_bind. eapply owp_mono.
  - apply (fileclose_amid None (bump f1 1 none)); [eapply amid_ext; [|exact Ha]; bumps| |by right].
    unfold bump. by rewrite decide_False.
  - intros b1 [] s1 [Ha1 _]. apply owp_bind. eapply owp_mono; [apply (fileclose_amid None none); [exact Ha1|done|by left]|]. intros b2 [] s2 [Ha2 _]. by apply HQ.
Qed.

Lemma pipealloc_amid o b s : amid none o b s →
  owp gives relies (pipealloc kend pipe_name s) b (λ b' r s',
    match r with
    | None => amid none o b' s'
    | Some (f0, f1) => amid (bump f1 1 (bump f0 1 none)) o b' s' ∧ f0 ≠ f1 ∧ ftype (getf f0 s') = FD_PIPE
    end).
Proof.
  intros Ha. unfold pipealloc. apply owp_bind. eapply owp_mono; [apply filealloc_amid; exact Ha|]. intros b1 [f0|] s1 (-> & H1); [|exact H1].
  destruct H1 as (Ha1 & _ & Hf1 & _). apply owp_bind. eapply owp_mono; [apply filealloc_amid; exact Ha1|]. intros b2 [f1|] s2 (-> & H2); cycle 1.
  { unfold pipe_bad. cbn [Z.eqb negb]. change (bind (ret ()) ?k ?t) with (k () t). cbv beta. apply owp_bind.
    eapply owp_mono; [apply (fileclose_amid None none); [exact H2|done|by left]|]. by intros b3 [] s3 [Ha3 _]. }
  destruct H2 as (Ha2 & Hz & Hf2 & Ho2). assert (f0 ≠ f1) as Hne by (intros ->; unfold file_of in Hf1; congruence).
  rewrite <- (Ho2 f0) in Hf1 by done. calm Ha2. intros b3 p s3 (-> & E3 & Ha3). pose proof (λ g, fle_file _ _ g E3) as Ef3.
  rewrite <- Ef3 in Hf1, Hf2. destruct (p =? 0).
  { unfold pipe_bad. cbn [Z.eqb negb]. change (bind (ret ()) ?k ?t) with (k () t). cbv beta.
    apply (close_two o); [done| |done|by intros b4 s4 Ha4]. unfold file_of in Hf1. congruence. }
  calm Ha3. intros b4 [] s4 (-> & E4 & Ha4). calm Ha4. intros b5 [] s5 (-> & E5 & Ha5). calm Ha5. intros b6 [] s6 (-> & E6 & Ha6).
  calm Ha6. intros b7 [] s7 (-> & E7 & Ha7). calm Ha7. intros b8 [] s8 (-> & E8 & Ha8).
  rewrite <- E7, <- E6, <- E5, <- E4 in E8. pose proof (λ g, fle_file _ _ g E8) as Ef8. rewrite <- Ef8 in Hf1, Hf2. injection Hf1 as Hr0 Ht0. injection Hf2 as Hr1 Ht1.
  unfold bind at 1, fset at 1, modify at 1. cbn [obind].
  match goal with |- context [alter ?g f0 (ftable s8)] => destruct (fset_amid _ _ o b s8 f0 g Ha8) as (Ha9 & Hg9 & Ho9) end; [apply getf_range; lia|cbn; lia|].
  set (s9 := set_ftable _ s8) in *. cbn [fref set_ftype set_readable set_writable set_fpipe] in Ha9.
  unfold bind at 1, fset at 1, modify at 1. cbn [obind]. rewrite <- (Ho9 f1) in Hr1, Ht1 by done.
  match goal with |- context [alter ?g f1 (ftable s9)] => destruct (fset_amid _ _ o b s9 f1 g Ha9) as (Ha10 & Hg10 & Ho10) end; [apply getf_range; lia|cbn; lia|].
  set (s10 := set_ftable _ s9) in *. cbn [fref set_ftype set_readable set_writable set_fpipe] in Ha10.
  split_and!; [eapply amid_ext; [|exact Ha10]; bumps|done|]. rewrite Ho10, Hg9 by done. done.
Qed.

Lemma sys_pipe_ok o b s : amid none o b s → call_ok (sys_pipe kend pipe_name) b s.
Proof.
  intros Ha. unfold call_ok, sys_pipe. calm Ha. intros b1 [p|] s1 (-> & _ & Ha1); [|over Ha1].
  apply owp_bind. eapply owp_mono; [apply pipealloc_amid; exact Ha1|]. intros b2 [[rf wf]|] s2; [|intros Ha2; over Ha2].
  intros (Ha2 & Hne & Ht). destruct (fdalloc_run _ _ _ _ rf Ha2) as (r0 & s3 & E3 & Ht3 & [[-> ->]|(fd0 & -> & Hn3 & Ha3)]); rewrite (bind_Ret _ _ _ _ _ E3).
  - cbn [Z.ltb Z.compare]. change (bind (ret (-1)) ?k ?t) with (k (-1) t). cbv beta. cbn [Z.ltb Z.leb Z.compare orb].
    change (bind (ret ()) ?k ?t) with (k () t). cbv beta. apply (close_two o); [done|congruence|done|]. intros b4 s4 Ha4. over Ha4.
  - rewrite (proj2 (Z.ltb_ge (Z.of_nat fd0) 0)) by lia.
    destruct (fdalloc_run _ _ _ _ wf Ha3) as (r1 & s4 & E4 & Ht4 & [[-> ->]|(fd1 & -> & Hn4 & Ha4)]); rewrite (bind_Ret _ _ _ _ _ E4).
    + cbn [Z.ltb Z.compare orb]. rewrite (proj2 (Z.leb_le 0 (Z.of_nat fd0))), Nat2Z.id by lia.
      rewrite (bind_Ret _ _ _ _ _ (set_fd_run fd0 None _ (am_cur _ _ _ _ _ Ha3))).
      eapply (close_two _ _ _ rf wf); [eapply amid_ext; [|eapply (set_fd_amid _ _ _ _ fd0 (Some rf) None); [exact Ha3|]]| |done|].
      * bumps.
      * apply list_lookup_insert_eq. by eapply lookup_lt_Some.
      * change (getf rf (put_fd pr fd0 None s3)) with (getf rf s3). unfold getf in *. rewrite Ht3. congruence.
      * intros b6 s6 Ha6. over Ha6.
    + rewrite (proj2 (Z.ltb_ge (Z.of_nat fd1) 0)) by lia. cbn [orb].
      apply (amid_ext _ _ none) in Ha4; [|bumps].
      calm Ha4. intros b5 [] s5 (-> & _ & Ha5). calm Ha5. intros b6 [] s6 (-> & _ & Ha6). over Ha6.
Qed.

(** ** exit *)

(** From here on the descriptor [fd] does not count. *)
Lemma amid_close o b s fd f : amid none o b s → o !! fd = Some (Some f) → amidst (Some fd) (bump f 1 none) o b s.
Proof.
  intros [[H1 H2 H3] Ht Hc Ha Hm Ho] Hfd. split; try done. split; [|done|].
  - intros g. rewrite H1, (open_fds_close _ _ _ _ _ Hm).
    assert (open_fds (<[pr := None]> b.1) (fds s) !! pr = Some o) as Hi by (by rewrite open_fds_lookup, Hm, fn_lookup_insert).
    pose proof (refs_set g _ _ _ _ _ None Hi Hfd) as E. revert E. unfold bump, none, is_ref. repeat case_decide; simplify_eq; lia.
  - intros i Hi. destruct (decide (i = pr)) as [->|Hne]; [done|]. specialize (H3 i Hi). by rewrite fn_lookup_insert_ne in H3 |- *.
Qed.

Lemma amid_clear o b s fd : amidst (Some fd) none o b s → amid none (<[fd := None]> o) b (put_fd pr fd None s).
Proof.
  intros [[H1 H2 H3] Ht Hc Ha Hm Ho]. split.
  - split; [|exact H2|].
    + intros g. change (getf g (put_fd pr fd None s)) with (getf g s).
      rewrite H1, (open_fds_close _ _ _ _ _ Hm), (put_fd_fds _ _ _ _ _ Hm), open_fds_insert by apply fn_lookup_insert. done.
    + intros i. rewrite put_fd_alive. intros Hi. destruct (decide (i = pr)) as [->|Hne]; [done|]. specialize (H3 i Hi).
      by rewrite fn_lookup_insert_ne in H3 |- *.
  - eapply put_fd_typed; eauto.
  - unfold put_fd. by rewrite core_put.
  - by apply put_fd_alive.
  - rewrite (put_fd_fds _ _ _ _ _ Hm). apply list_lookup_insert_eq. by eapply lookup_lt_Some.
  - eapply others_put; eauto.
Qed.

Abbreviation fops := (file_ops kend waits dev_read initlog_).

Lemma cc_ofile i o s : fds s !! i = Some o → @cc _ fops _ (pget i ofile) s = Ret o s.
Proof.
  intros H. erewrite cc_Ret; [|reflexivity]. rewrite put_core. f_equal. unfold fds in H.
  rewrite list_lookup_fmap in H. unfold getp. by destruct (ptable (core_of s) !! i); simplify_eq/=.
Qed.

Lemma cc_put_fd i fd v s : @cc _ fops _ (pupd i (λ p, set_ofile (<[fd := v]> (ofile p)) p)) s = Ret tt (put_fd i fd v s).
Proof. by apply cc_Ret. Qed.

Lemma exit_files_amid n fd o b s :
  amid none o b s → (∀ k, (k < fd)%nat → o !! k = Some None) → (fd + n = NOFILE)%nat →
  owp gives relies (@exit_files _ fops pr n fd s) b (λ b' _ s', amid none (replicate NOFILE None) b' s').
Proof.
  revert fd o b s. induction n as [|n IH]; intros fd o b s Ha Hk Hn.
  - change (amid none (replicate NOFILE None) b s). assert (o = replicate NOFILE None) as <-; [|done]. apply list_eq. intros k.
    pose proof (ty_nofile _ (am_typed _ _ _ _ _ Ha) _ _ (am_mine _ _ _ _ _ Ha)) as Hl.
    destruct (decide (k < NOFILE)%nat) as [H|H].
    + rewrite Hk by lia. symmetry. by apply lookup_replicate.
    + rewrite !lookup_ge_None_2; [done|rewrite length_replicate; lia|lia].
  - assert (∀ k, (k < S fd)%nat → k ≠ fd → o !! k = Some None) as Hk' by (intros k H1 H2; apply Hk; lia).
    assert (fd < length o)%nat as [x Hx]%lookup_lt_is_Some_2.
    { rewrite (ty_nofile _ (am_typed _ _ _ _ _ Ha) _ _ (am_mine _ _ _ _ _ Ha)). lia. }
    cbn [exit_files]. rewrite (bind_Ret _ _ _ _ _ (cc_ofile _ _ _ (am_mine _ _ _ _ _ Ha))), Hx.
    apply owp_bind. destruct x as [f|]; cbn [default from_option id].
    + apply owp_bind. eapply owp_mono; [apply (fileclose_amid (Some fd) none); [by apply amid_close|done|by left]|].
      intros b1 [] s1 [Ha1 _]. rewrite cc_put_fd. apply amid_clear in Ha1. cbn [owp]. eapply IH; [exact Ha1| |lia].
      intros k H. destruct (decide (k = fd)) as [->|Hne]; [|rewrite list_lookup_insert_ne; auto].
      apply list_lookup_insert_eq. by eapply lookup_lt_Some.
    + cbn [owp ret]. eapply IH; [exact Ha| |lia]. intros k H. destruct (decide (k = fd)) as [->|Hne]; auto.
Qed.

(** Slot [i] given another state. *)
Definition put_state (i : nat) (st : procstate) (s : filest St) : filest St :=
  set_core (set_ptable (alter (set_state st) i (ptable (core_of s))) (core_of s)) s.

Lemma put_state_fds i st s : fds (put_state i st s) = fds s.
Proof.
  unfold fds, put_state. rewrite core_put. cbn [ptable set_ptable]. apply list_eq. intros j. rewrite !list_lookup_fmap.
  destruct (decide (i = j)) as [<-|Hne]; [|by rewrite list_lookup_alter_ne].
  rewrite list_lookup_alter_eq. by destruct (ptable (core_of s) !! i).
Qed.

Lemma put_state_alive i st s j : j ≠ i → alive j (put_state i st s) ↔ alive j s.
Proof. intros Hj. unfold alive, put_state, getp. rewrite core_put. cbn [ptable set_ptable]. by rewrite list_lookup_alter_ne. Qed.

(** A process without descriptors. *)
Lemma put_state_counted t δ i st s : t i = None → counted t δ s → counted t δ (put_state i st s).
Proof.
  intros Ht [H1 H2 H3]. split; [intros f; rewrite put_state_fds; apply H1|exact H2|].
  intros j. destruct (decide (j = i)) as [->|Hne]; [done|]. rewrite put_state_alive by done. apply H3.
Qed.

Lemma put_state_typed i st s : (∀ o, fds s !! i = Some o → Forall (eq None) o) → typed s → typed (put_state i st s).
Proof.
  intros Hi [H1 H2 H3 H4 H5]. split; [..|done|].
  - unfold put_state. by rewrite core_put.
  - unfold put_state. rewrite core_put. cbn [ptable set_ptable]. by rewrite length_alter.
  - by rewrite put_state_fds.
  - intros j o. rewrite put_state_fds. destruct (decide (j = i)) as [->|Hne]; [by intros _ ?; apply Hi|].
    rewrite put_state_alive by done. apply H5.
Qed.

Lemma others_state b s i st : i = pr ∨ ¬ alive i b.2 → others b s → others b (put_state i st s).
Proof.
  intros Hi Ho j Hj Ha. rewrite put_state_fds, put_state_alive; [by apply Ho|]. intros ->. by destruct Hi.
Qed.

Lemma zombie_gives b s c1 c' : amid none (replicate NOFILE None) b s → cle (core_of s) c1 →
  cle (set_ptable (alter (set_state ZOMBIE) pr (ptable c1)) c1) c' → gives b (<[pr := None]> b.1, set_core c' s).
Proof.
  intros Ha L1 L2. assert (fle s (set_core c1 s)) as F1 by (split; [done|by rewrite core_put]).
  apply (amid_fle _ _ _ _ _ _ F1) in Ha. set (s1 := set_core c1 s) in *.
  assert (fle (put_state pr ZOMBIE s1) (set_core c' s)) as F2.
  { split; [done|]. unfold put_state, s1. by rewrite !core_put. }
  destruct Ha as [Hc Ht _ _ Hm Ho]. split_and!.
  - eapply kernel_ok_fle; [exact F2|]. split; [apply put_state_counted; [apply fn_lookup_insert|exact Hc]|].
    apply put_state_typed; [|exact Ht]. intros o. rewrite Hm. intros E. apply (inj Some) in E as <-. by apply Forall_replicate.
  - intros j Hj. by apply fn_lookup_insert_ne.
  - eapply others_fle; [exact F2|]. apply others_state; eauto.
Qed.

(** exit does not return. *)
Lemma exit_amid o b s : amid none o b s → owp gives relies (@exit _ fops s) b (λ _ _ _, False).
Proof.
  intros Ha. unfold exit. cbn [fo_begin_op fo_iput fo_end_op file_ops].
  rewrite (bind_Ret _ _ _ _ _ (cc_Ret _ _ _ _ (gets cur) _ _ _ eq_refl)), put_core, (am_cur _ _ _ _ _ Ha).
  calm Ha. intros b1 ip s1 (-> & _ & Ha1). calm Ha1. intros b2 [] s2 (-> & _ & Ha2).
  apply owp_bind. eapply owp_mono; [eapply exit_files_amid; [exact Ha2|lia|done]|]. intros b3 [] s3 Ha3.
  wait Ha3. intros b4 [] s4 Ha4.
  wait Ha4. intros b5 w s5 Ha5.
  wait Ha5. intros b6 [] s6 Ha6.
  wait Ha6. intros b7 [] s7 Ha7.
  wait Ha7. intros b8 [] s8 Ha8.
  pose proof (exit_zombie_leaves pr (core_of s8)) as Hz. unfold leaves in Hz. unfold cc, zoom. cbn [fo_core fo_set file_ops].
  destruct (exit_zombie pr (core_of s8)) as [a c|msg c|c k|c]; cbn [ozoom owp]; try done.
  destruct Hz as [(c1 & L1 & L2) Hk]. exists (<[pr := None]> b8.1). split; [by eapply zombie_gives|].
  intros t' s' _. by rewrite Hk.
Qed.

(** ** fork *)

(** The slot of a new process, with descriptors [co]. *)
Record child (np : nat) (co : list (option nat)) (b : gst) (s : filest St) : Prop := {
  ch_ne : np ≠ pr;
  ch_new : ¬ alive np b.2;
  ch_ghost : b.1 np = None;
  ch_alive : alive np s;
  ch_fds : fds s !! np = Some co
}.

Lemma child_cle np co b s s' : cle (core_of s) (core_of s') → child np co b s → child np co b s'.
Proof. intros H []. split; try done; [by eapply cle_alive|by rewrite (cle_fds _ _ H)]. Qed.

Lemma child_fd np co δ o b s fd f : amid δ o b s → child np co b s → co !! fd = Some None →
  amid (bump f (-1) δ) o b (put_fd np fd (Some f) s) ∧ child np (<[fd := Some f]> co) b (put_fd np fd (Some f) s).
Proof.
  intros [H1 H2 H3 H4 H5 H6] [Hne Hnew Hg Hal Hc] Hfd. pose proof (put_fd_fds _ fd (Some f) _ _ Hc) as E. split; split; try done.
  - eapply counted_ext; [done| |eapply (counted_put _ _ _ np fd (Some f)); [exact H1|exact Hc|exact Hfd|by rewrite fn_lookup_insert_ne]]. bumps.
  - eapply put_fd_typed; eauto.
  - unfold put_fd. by rewrite core_put.
  - by apply put_fd_alive.
  - by rewrite E, list_lookup_insert_ne.
  - eapply others_put; eauto.
  - by apply put_fd_alive.
  - rewrite E. apply list_lookup_insert_eq. by eapply lookup_lt_Some.
Qed.

Lemma fork_files_amid np n i co o b s :
  amid none o b s → child np co b s → (∀ k, (i ≤ k < NOFILE)%nat → co !! k = Some None) → (i + n = NOFILE)%nat →
  owp gives relies (@fork_files _ fops pr np n i s) b (λ b' _ s', b' = b ∧ amid none o b s' ∧ ∃ co', child np co' b s').
Proof.
  revert i co s. induction n as [|n IH]; intros i co s Ha Hc Hk Hn; [cbn; eauto|].
  cbn [fork_files]. rewrite (bind_Ret _ _ _ _ _ (cc_ofile _ _ _ (am_mine _ _ _ _ _ Ha))). apply owp_bind.
  destruct (default None (o !! i)) as [f|] eqn:Ef; [|cbn [owp ret]; eapply IH; eauto with lia].
  assert (o !! i = Some (Some f)) as Hi by (destruct (o !! i); by simplify_eq/=). apply owp_bind.
  eapply owp_mono; [apply (filedup_amid (bump f 1 none) o); [eapply amid_ext; [|exact Ha]; bumps|by eapply amid_ref]|].
  intros b1 r s1 (-> & -> & Hle & Ha1). rewrite cc_put_fd. cbn [owp].
  destruct (child_fd np co (bump f 1 none) o b s1 i f Ha1) as [Ha2 Hc2]; [by eapply child_cle|apply Hk; lia|].
  eapply IH; [eapply amid_ext; [|exact Ha2]; bumps|exact Hc2| |lia].
  intros k Hik. rewrite list_lookup_insert_ne by lia. apply Hk. lia.
Qed.

(** The slot is given back. *)
Lemma child_free np co o b s : amid none o b s → child np co b s → Forall (eq None) co → amid none o b (put_state np UNUSED s).
Proof.
  intros [H1 H2 H3 H4 H5 H6] [Hne Hnew Hg Hal Hc] Hco. split.
  - apply put_state_counted; [by rewrite fn_lookup_insert_ne|done].
  - apply put_state_typed; [|done]. intros o'. rewrite Hc. by intros [= <-].
  - unfold put_state. by rewrite core_put.
  - by rewrite put_state_alive.
  - by rewrite put_state_fds.
  - apply others_state; eauto.
Qed.

Lemma allocproc_amid o b s : amid none o b s →
  owp gives relies (@cc _ fops _ (allocproc forkret_addr trapret_addr) s) b (λ b' r s', b' = b ∧ amid none o b s' ∧
    ∀ np, r = Some np → ∃ co, child np co b s' ∧ Forall (eq None) co ∧ length co = NOFILE).
Proof.
  intros Ha. apply owp_quiet, quiet_zoom. eapply quiet_mono; [apply allocproc_quiet|]. cbn [fo_set fo_core file_ops].
  intros r c [Hle Hr]. assert (fle s (set_core c s)) as F by (split; [done|by rewrite core_put]).
  split_and!; [done|by eapply amid_fle|]. intros np ->. destruct (Hr np eq_refl) as (Hl & Hd & Hn).
  destruct Ha as [Hc Ht _ Hal Hm Ho]. assert (¬ alive np s) as Hna by (unfold alive; by rewrite Hd).
  assert (np ≠ pr) as Hne by (by intros ->). destruct (lookup_lt_is_Some_2 (fds s) np) as [co Hco]; [by unfold fds; rewrite length_fmap|].
  exists co. split_and!; [split|by eapply (ty_dead _ Ht)|by eapply (ty_nofile _ Ht)]; try done.
  - intros Hb. destruct (Ho np Hne Hb) as [H _]. done.
  - pose proof (c_stale _ _ _ Hc np Hna) as E. by rewrite fn_lookup_insert_ne in E.
  - unfold alive. by rewrite core_put.
  - by rewrite (fle_fds _ _ F).
Qed.


Lemma owp_child {A} (m : M (filest St) A) np co o b s : keeps false fle m → amid none o b s → child np co b s →
  owp gives relies (m s) b (λ b' _ s', b' = b ∧ amid none o b s' ∧ child np co b s').
Proof.
  intros Hm Ha Hc. eapply owp_mono; [by apply owp_calm|]. intros b' a s' (-> & F & Ha'). split_and!; [done|done|].
  eapply child_cle; [apply F|done].
Qed.

Ltac next Ha Hc := apply owp_bind; eapply owp_mono; [apply owp_child; [keep|exact Ha|exact Hc]|].

Lemma fork_amid o b s : amid none o b s →
  owp gives relies (@fork _ fops kend data forkret_addr trapret_addr s) b (λ b' _ s', b' = b ∧ amid none o b s').
Proof.
  intros Ha. unfold fork. cbn [fo_idup file_ops]. apply owp_bind. eapply owp_mono; [by apply allocproc_amid|].
  intros b1 [np|] s1 (-> & Ha1 & Hr); [|by cbn]. destruct (Hr np eq_refl) as (co & Hc1 & Hnone & Hlen). clear Hr.
  rewrite (bind_Ret _ _ _ _ _ (cc_Ret _ _ _ _ (gets cur) _ _ _ eq_refl)), put_core, (am_cur _ _ _ _ _ Ha1).
  next Ha1 Hc1. intros b2 d s2 (-> & Ha2 & Hc2). next Ha2 Hc2. intros b3 size s3 (-> & Ha3 & Hc3).
  next Ha3 Hc3. intros b4 pg s4 (-> & Ha4 & Hc4). next Ha4 Hc4. intros b5 [] s5 (-> & Ha5 & Hc5). destruct (pg =? 0).
  { next Ha5 Hc5. intros b6 ks s6 (-> & Ha6 & Hc6). next Ha6 Hc6. intros b7 [] s7 (-> & Ha7 & Hc7).
    next Ha7 Hc7. intros b8 [] s8 (-> & Ha8 & Hc8).
    rewrite (bind_Ret _ _ _ _ _ (cc_Ret _ _ _ _ (pupd np (set_state UNUSED)) _ _ _ eq_refl)). cbn. split; [done|]. by eapply child_free. }
  next Ha5 Hc5. intros b6 [] s6 (-> & Ha6 & Hc6). next Ha6 Hc6. intros b7 [] s7 (-> & Ha7 & Hc7).
  next Ha7 Hc7. intros b8 t s8 (-> & Ha8 & Hc8). next Ha8 Hc8. intros b9 t' s9 (-> & Ha9 & Hc9).
  next Ha9 Hc9. intros b10 [] s10 (-> & Ha10 & Hc10). next Ha10 Hc10. intros b11 u s11 (-> & Ha11 & Hc11).
  next Ha11 Hc11. intros b12 g s12 (-> & Ha12 & Hc12). next Ha12 Hc12. intros b13 [] s13 (-> & Ha13 & Hc13).
  next Ha13 Hc13. intros b14 [] s14 (-> & Ha14 & Hc14).
  apply owp_bind. eapply owp_mono; [eapply fork_files_amid; [exact Ha14|exact Hc14| |done]|].
  { intros k Hk. destruct (lookup_lt_is_Some_2 co k) as [x Hx]; [lia|]. rewrite Forall_lookup in Hnone. by rewrite Hx, <- (Hnone k x Hx). }
  intros b15 [] s15 (-> & Ha15 & co' & Hc15). next Ha15 Hc15. intros b16 [ip|] s16 (-> & Ha16 & Hc16); [|done].
  next Ha16 Hc16. intros b17 w' s17 (-> & Ha17 & Hc17). next Ha17 Hc17. intros b18 [] s18 (-> & Ha18 & Hc18).
  next Ha18 Hc18. intros b19 nm s19 (-> & Ha19 & Hc19). next Ha19 Hc19. intros b20 [] s20 (-> & Ha20 & Hc20).
  next Ha20 Hc20. intros b21 id s21 (-> & Ha21 & Hc21). next Ha21 Hc21. intros b22 [] s22 (-> & Ha22 & Hc22).
  next Ha22 Hc22. intros b23 [] s23 (-> & Ha23 & Hc23). next Ha23 Hc23. intros b24 [] s24 (-> & Ha24 & Hc24). by cbn.
Qed.

(** ** Every system call *)

Lemma syscalls_ok num f o b s :
  syscalls kend data forkret_addr trapret_addr waits dev_read dev_write pipe_name stack0 null_uid cmos initlog_ num = Some f →
  amid none o b s → call_ok f b s.
Proof.
  intros Hf Ha. unfold syscalls in Hf.
  repeat match type of Hf with (if ?c then _ else _) = _ => destruct c; [injection Hf as <-|] end; [..|done];
    first [by eapply sys_dup_ok|by eapply sys_close_ok|by eapply sys_open_ok|by eapply sys_pipe_ok|idtac].
  1: { eapply owp_mono; [apply fork_amid; exact Ha|]. intros b' a s' [-> Ha']. over Ha'. }
  1: { apply owp_bind. eapply owp_mono; [eapply exit_amid; exact Ha|]. done. }
  all: eapply owp_call; [|exact Ha].
  all: solve [eauto with keeps nocore
    | unfold sys_wait, sys_kill, sys_getpid, sys_sbrk, sys_halt, sys_date, sys_getuid, sys_getgid, sys_getppid,
      sys_setuid, sys_setgid, sys_getprocs; keep].
Qed.

Lemma syscall_ok o b s : amid none o b s →
  call_ok (syscall kend data forkret_addr trapret_addr waits dev_read dev_write pipe_name stack0 null_uid cmos initlog_) b s.
Proof.
  intros Ha. unfold call_ok, syscall. calm Ha. intros b1 me' s1 (-> & _ & Ha1). calm Ha1. intros b2 tf s2 (-> & _ & Ha2).
  calm Ha2. intros b3 num s3 (-> & _ & Ha3). destruct (syscalls _ _ _ _ _ _ _ _ _ _ _ _ (s32 num)) as [f|] eqn:Ef.
  - apply owp_bind. eapply owp_mono; [eapply syscalls_ok; [exact Ef|exact Ha3]|]. intros b4 r s4 [o' Ha4]%over_amid.
    eapply owp_call; [|exact Ha4]. keep.
  - eapply owp_call; [|exact Ha3]. keep.
Qed.

(** ** The traps *)

Variables (cpu_id cr2 : Z) (kbdintr ideintr uartintr : M (filest St) unit).
Hypotheses (kbdintr_keeps : keeps true fle kbdintr) (ideintr_keeps : keeps true fle ideintr) (uartintr_keeps : keeps true fle uartintr).

(** An exit that may not be taken. *)
Lemma when_exit_ok (c : bool) o b s : amid none o b s →
  owp gives relies ((when c do @exit _ fops) s) b (λ b' _ s', b' = b ∧ s' = s).
Proof. intros Ha. destruct c; [|done]. eapply owp_mono; [by eapply exit_amid|]. done. Qed.

Lemma exit_if_killed_ok cs o b s : amid none o b s →
  owp gives relies (exit_if_killed kend waits dev_read initlog_ cs s) b (λ b' _ s', b' = b ∧ amid none o b s').
Proof.
  intros Ha. unfold exit_if_killed. calm Ha. intros b1 [me'|] s1 (-> & _ & Ha1); [|done].
  calm Ha1. intros b2 kd s2 (-> & _ & Ha2). eapply owp_mono; [eapply when_exit_ok; exact Ha2|]. by intros ? [] ? [-> ->].
Qed.

Lemma trap_default_keeps sw tf no cs eip : keeps sw fle (trap_default cpu_id cr2 tf no cs eip : M (filest St) unit).
Proof. unfold trap_default. keep. Qed.
Hint Resolve trap_default_keeps : keeps.

Lemma trap_ok o b s tf : amid none o b s →
  call_ok (trap kend data forkret_addr trapret_addr waits dev_read dev_write pipe_name stack0 null_uid cmos initlog_ cpu_id cr2 kbdintr ideintr uartintr tf) b s.
Proof.
  intros Ha. unfold call_ok, trap. calm Ha. intros b1 no s1 (-> & _ & Ha1). destruct (no =? T_SYSCALL).
  - calm Ha1. intros b2 me' s2 (-> & _ & Ha2). calm Ha2. intros b3 kd s3 (-> & _ & Ha3). apply owp_bind.
    eapply owp_mono; [eapply when_exit_ok; exact Ha3|]. intros ? [] ? [-> ->]. calm Ha3. intros b4 [] s4 (-> & _ & Ha4). apply owp_bind. eapply owp_mono; [eapply syscall_ok; exact Ha4|].
    intros b5 [] s5 [o' Ha5]%over_amid. calm Ha5. intros b6 kd' s6 (-> & _ & Ha6).
    eapply owp_mono; [eapply when_exit_ok; exact Ha6|]. intros ? [] ? [-> ->]. over Ha6.
  - calm Ha1. intros b2 cs s2 (-> & _ & Ha2). calm Ha2. intros b3 eip s3 (-> & _ & Ha3).
    wait Ha3. intros b4 [] s4 Ha4. apply owp_bind. eapply owp_mono; [eapply exit_if_killed_ok; exact Ha4|]. intros ? [] s5 [-> Ha5].
    wait Ha5. intros b6 c s6 Ha6. wait Ha6. intros b7 [] s7 Ha7.
    eapply owp_mono; [eapply exit_if_killed_ok; exact Ha7|]. intros ? [] s8 [-> Ha8]. over Ha8.
Qed.

End calls.

(** C6: The counts of open files.  Let the count of every file be the number of
    descriptors that refer to it, let memory hold bytes and let the process and
    file tables be well formed.  Then every system call, fork and exit included,
    has all of this again whenever it gives up the processor at a swtch of its
    own and when it returns, and has changed the descriptors of no other process,
    provided the others do the same while it waits; it never reaches the panics of
    filedup and fileclose.  (A clock tick that preempts the call in between is not
    considered.) *)
Theorem syscalls_count_files pr num f t s :
  syscalls kend data forkret_addr trapret_addr waits dev_read dev_write pipe_name stack0 null_uid cmos initlog_ num = Some f →
  kernel_ok t s → t pr = None → cur (core_of s) = Some pr → alive pr s →
  owp (gives pr) (relies pr) (f s) (t, s) (λ b _ s', over pr b s').
Proof.
  intros Hf Hk Ht Hc Ha. destruct (start_amid pr t s Hk Ht Hc Ha) as [o Ham]. by eapply syscalls_ok.
Qed.

End filerefs.

#[export] Hint Resolve trap_default_keeps : keeps.

(** ** Witness *)

(** Process 0 has one open file as descriptor 0; its arguments are zero. *)
Definition ex_fd_mem : mem := λ a,
  if a =? 2147483648 + 4096 then 7 else if a =? 2147483648 + 4097 then 32
  else if a =? 2147483648 + 8192 then 7 else if a =? 2147483648 + 8193 then 48 else 0.

Definition ex_fd_core : core :=
  set_cr3 4096 (set_ptable (alter (λ p, set_ofile (Some 0%nat :: replicate 15 None) (set_tf 2147500032 (set_sz 4096 p))) 0%nat (ptable (ex_core 0)))
    (set_kmem ex_fd_mem (ex_core 0))).

Definition ex_files : filest lst :=
  mk_fst (mk_fs (set_lb (set_bc ex_fd_core (lb ex_boot)) ex_boot) (mk_sb 0 0 0 0 0 0 0) [])
    (mk_file FD_INODE 1 1 1 0 0 0 :: replicate 99 file0).

Lemma ex_zero i o : @fds lst (log_io 1) ex_files !! S i = Some o → o = replicate NOFILE None.
Proof. change (replicate 63 (replicate NOFILE None) !! i = Some o → o = replicate NOFILE None). by intros [-> _]%lookup_replicate. Qed.

Lemma ex_getf f : getf (S f) ex_files = file0.
Proof.
  unfold getf. cbn [ftable ex_files]. change ((_ :: ?l) !! S f) with (l !! f).
  destruct (replicate 99 file0 !! f) as [x|] eqn:E; [|done]. by apply lookup_replicate in E as [-> _].
Qed.

Lemma ex_ok : @kernel_ok lst (log_io 1) (λ _, None) ex_files.
Proof.
  split; split.
  - intros [|f]; [vm_compute; reflexivity|]. rewrite ex_getf. vm_compute. reflexivity.
  - intros [|f]; [done|]. by rewrite ex_getf.
  - done.
  - intros a. change (0 ≤ ex_fd_mem a < 256). unfold ex_fd_mem. repeat case_match; lia.
  - reflexivity.
  - intros [|i] o; [by intros [= <-]|]. by intros ->%ex_zero.
  - reflexivity.
  - intros [|i] o Hd; [by destruct Hd|]. intros ->%ex_zero. by apply Forall_replicate.
Qed.

(** dup gives descriptor 1, and the count of the file is 2. *)
Lemma syscalls_count_files_witness : ∃ s',
  @sys_dup lst (log_io 1) ex_files = Ret 1 s' ∧ @kernel_ok lst (log_io 1) (λ _, None) s' ∧ map fref (take 2 (ftable s')) = [2; 0].
Proof.
  assert (∃ s', @sys_dup lst (log_io 1) ex_files = Ret 1 s' ∧ map fref (take 2 (ftable s')) = [2; 0]) as (s' & E & Ht)
    by (eexists; split; [vm_compute; reflexivity|vm_compute; reflexivity]).
  pose proof (@syscalls_count_files lst (log_io 1) (log_frame 1) 0 0 0 0 1 (λ _, None) (λ _, None) 0 [] 0 (λ _ _, 0) (ret tt)
    ltac:(discriminate) ltac:(discriminate) 0 10 sys_dup (λ _, None) ex_files
    eq_refl ex_ok eq_refl eq_refl eq_refl) as H.
  rewrite E in H. exists s'. split; [exact E|]. split; [|exact Ht]. destruct H as [[[Hc Hty] _] _]. split; [|exact Hty].
  eapply counted_ext; [|done|exact Hc]. intros [|i]; reflexivity.
Defined.
