(* ===== verification/Machine.v ===== *)
(** * The kernel as a machine (proc.c's scheduler, trap.c, swtch.S)

    One processor that runs the scheduler, a process in user mode, or a process
    in the kernel up to the point where it gives up the processor.  A process
    that waits is represented by what remains of its run.  A step is one stretch
    between two such points: the scheduler picks a process and its run goes on;
    the process in user mode changes memory; it traps; a device interrupts the
    scheduler.  A process made by fork starts in forkret.  The machine takes
    interrupts in user mode and in the idle scheduler.  While a process runs in the
    kernel it takes none, unlike the real one, whose trap handles interrupts there
    too and yields at a clock tick.

    The theorem: in every state the machine reaches from the start, the counts
    of open files are right and the tables are well formed, and the panics of
    filedup and fileclose are not reached.  The file system runs on the log, with
    the console as its device. *)
From S2P Require Import Prelude Kernel CString Spinlock Kalloc Vm Proc ProcSpec Pipe Format Bytes Bio Log BlockIO Fs File Syscall Sysfile Exec Sysproc Console Frame FileFrame FileRefs.

Local Open Scope Z_scope.
Local Open Scope kernel_scope.

Section machine.
  Context {St : Type} {HB : BlockIO St} {HF : BlockFrame St}.
  Variables kend data forkret_addr trapret_addr : Z.
  Variables initcode_start initcode_size : Z.
  Variable waits : nat.
  Variable dev_read : Z → option (nat → Z → M (fsst St) (Z * list Z)).
  Variable dev_write : Z → option (nat → list Z → Z → M (fsst St) Z).
  Variable pipe_name : Z.
  Variable stack0 : list Z.
  Variable null_uid : Z.
  Variable cmos : nat → Z → Z.
  Variable initlog_ : M St unit.
  Variables kbdintr uartintr : list Z → M (filest St) unit.   (* on the bytes received *)
  Variable ideintr : M (filest St) unit.

Abbreviation fops := (file_ops kend waits dev_read initlog_).
Abbreviation kont := (filest St → outcome (filest St) unit).

Record machine := mk_machine {
  m_st : filest St;
  m_kont : nat → option kont;          (* the rest of the run of a process that waits *)
  m_halt : option string               (* the panic that stopped it *)
}.

(** Slots taken between [s0] and [s]: their processes start in forkret. *)
Definition spawn (s0 s : filest St) (K : nat → option kont) (j : nat) : option kont :=
  if dead (getp j (core_of s0)) && negb (dead (getp j (core_of s))) then Some (@forkret _ fops) else K j.

(** The run of process [i], which started in [s0], up to the point where it
    returns to user mode or gives up the processor to the scheduler. *)
Definition resume (i : nat) (s0 : filest St) (K : nat → option kont) (o : outcome (filest St) unit) : option machine :=
  match o with
  | Ret _ s => Some (mk_machine s (<[i := None]> (spawn s0 s K)) None)
  | Swtch s k =>
      match xc scheduler_back s with
      | Ret _ s' => Some (mk_machine s' (<[i := Some k]> (spawn s0 s K)) None)
      | _ => None
      end
  | Panic msg s => Some (mk_machine s K (Some msg))
  | NoFuel _ => None
  end.

(** A trap on processor [cpu], with [codes] in the keyboard's buffer and [bytes]
    received on the serial line. *)
Definition ktrap (cpu cr2 : Z) (codes bs : list Z) (tf : Z) : M (filest St) unit :=
  trap kend data forkret_addr trapret_addr waits dev_read dev_write pipe_name stack0 null_uid cmos initlog_
    cpu cr2 (kbdintr codes) ideintr (uartintr bs) tf.

(** What the scheduler does between two processes: it takes and releases the
    lock, and devices interrupt it. *)
Inductive idle : M (filest St) unit → Prop :=
  | idle_acquire : idle (xc (pacquire Lptable))
  | idle_release : idle (xc (prelease Lptable))
  | idle_interrupt cpu cr2 codes bs tf : idle (ktrap cpu cr2 codes bs tf).

Inductive mstep : machine → machine → Prop :=
  | mstep_idle s K m s' : cur (core_of s) = None → idle m → m s = Ret tt s' →
      mstep (mk_machine s K None) (mk_machine s' (spawn s s' K) None)
  | mstep_panic s K m msg s' : cur (core_of s) = None → idle m → m s = Panic msg s' →
      mstep (mk_machine s K None) (mk_machine s' K (Some msg))
  | mstep_pick s K i k s1 M' : cur (core_of s) = None → xc (scheduler_pick i) s = Ret true s1 → K i = Some k →
      resume i s1 K (k s1) = Some M' → mstep (mk_machine s K None) M'
  | mstep_pick_panic s K i msg s' : cur (core_of s) = None → xc (scheduler_pick i) s = Panic msg s' →
      mstep (mk_machine s K None) (mk_machine s' K (Some msg))
  | mstep_user s K i m : cur (core_of s) = Some i → bytes m →
      mstep (mk_machine s K None) (mk_machine (set_core (set_kmem m (core_of s)) s) K None)
  | mstep_trap s K i cpu cr2 codes bs tf M' : cur (core_of s) = Some i → resume i s K (ktrap cpu cr2 codes bs tf s) = Some M' →
      mstep (mk_machine s K None) M'.

(** ** The invariant *)

Hypothesis dev_read_keeps : ∀ d rd i n, dev_read d = Some rd → keeps true fsle (rd i n).
Hypothesis dev_write_keeps : ∀ d wr i l n, dev_write d = Some wr → keeps true fsle (wr i l n).
Hypothesis initlog_keeps : keeps true (pull io_core cle) initlog_.
Hypothesis kbdintr_keeps : ∀ codes, keeps false fle (kbdintr codes).
Hypothesis uartintr_keeps : ∀ bs, keeps false fle (uartintr bs).
Hypothesis ideintr_keeps : keeps false fle ideintr.

(** The rest of a run is right from any state the others may leave. *)
Definition waits_ok (t : nat → option nat) (s : filest St) (i : nat) (k : kont) : Prop :=
  ∀ t' s', relies i (t, s) (t', s') → owp (gives i) (relies i) (k s') (t', s') (λ b _ s'', over i b s'').

Definition others_ok (t : nat → option nat) (s : filest St) (K : nat → option kont) (i : nat) : Prop :=
  ∀ j, j ≠ i → alive j s → ∃ k, K j = Some k ∧ waits_ok t s j k.

(** The scheduler runs, or a process in user mode. *)
Definition machine_ok (M : machine) : Prop :=
  match m_halt M with
  | Some msg => file_panic msg = false
  | None => ∃ t, kernel_ok t (m_st M) ∧
      match cur (core_of (m_st M)) with
      | Some i => alive i (m_st M) ∧ t i = None ∧ others_ok t (m_st M) (m_kont M) i
      | None => ∀ j, alive j (m_st M) → ∃ k, m_kont M j = Some k ∧ waits_ok t (m_st M) j k
      end
  end.

Lemma waits_move t s t' s' i k : waits_ok t s i k → t' i = t i → alive i s' → fds s' !! i = fds s !! i → waits_ok t' s' i k.
Proof.
  intros H Ht Ha E t2 s2 (H1 & H2 & H3 & H4 & H5). apply H. split_and!; [done|done|done|by cbn in *; congruence|].
  intros _. cbn in *. rewrite <- E. by apply H5.
Qed.

(** A new process. *)
Lemma forkret_keeps : keeps true fle (@forkret _ fops).
Proof. unfold forkret. cbn [fo_iinit fo_initlog file_ops]. keep. Qed.

Lemma forkret_waits t s i : t i = None → waits_ok t s i (@forkret _ fops).
Proof.
  intros Ht t' s' (H1 & H2 & H3 & H4 & _). destruct (start_amid i t' s') as [o Ha]; [done|by cbn in H4; rewrite H4|done|done|]. eapply owp_call; [apply forkret_keeps|exact Ha].
Qed.

(** ** One stretch *)

(** The others after process [i] went from [s] to [s']. *)
Lemma others_after i t s K t' s' : kernel_ok t s → others_ok t s K i → gives i (t, s) (t', s') → others_ok t' s' (spawn s s' K) i.
Proof.
  intros Hk Hw (_ & Ht & Ho) j Hj Ha. cbn in *. unfold spawn. destruct (dead (getp j (core_of s))) eqn:Ed.
  - unfold alive in Ha. rewrite Ha. cbn. eexists. split; [done|]. apply forkret_waits. rewrite Ht by done.
    apply (c_stale _ _ _ (ok_counted _ _ Hk)). unfold alive. by rewrite Ed.
  - destruct (Ho j Hj Ed) as [_ E]. destruct (Hw j Hj Ed) as (k & HK & Hk'). exists k. split; [done|]. by eapply waits_move; [|apply Ht| |].
Qed.

(** Back in the scheduler: only the current process changed. *)
Lemma back_run s : ∃ s', xc scheduler_back s = Ret tt s' ∧ cur (core_of s') = None ∧ (∀ t, kernel_ok t s → kernel_ok t s') ∧
  fds s' = fds s ∧ ∀ j, alive j s' ↔ alive j s.
Proof.
  eexists. split; [by apply xc_Ret|]. set (s' := set_core _ s).
  assert (core_of s' = set_cur None (set_cr3 (v2p (kpgdir (core_of s))) (core_of s))) as E by (unfold s'; by rewrite core_put).
  assert (fds s' = fds s) as Ef by (unfold fds; by rewrite E). assert (∀ j, alive j s' ↔ alive j s) as Ea by (intros j; unfold alive; by rewrite E).
  split_and!; [by rewrite E| |done|done]. intros t Hk. apply (kernel_ok_move t s); [done..| |exact Hk]. rewrite E. apply Hk.
Qed.

Lemma slice_ok i t s K o M' : kernel_ok t s → others_ok t s K i →
  owp (gives i) (relies i) o (t, s) (λ b _ s', over i b s') → resume i s K o = Some M' → machine_ok M'.
Proof.
  intros Hk Hw Ho HM. unfold resume in HM. destruct o as [[] s'|msg s'|s' k|s']; cbn [owp] in Ho; [..|done].
  - injection HM as <-. destruct Ho as (Hg & Hc & Ha). pose proof (others_after _ _ _ _ _ _ Hk Hw Hg) as Hw'.
    unfold machine_ok. cbn [m_halt m_st m_kont]. rewrite Hc. exists (<[i := None]> t). split_and!; [apply Hg|done|apply fn_lookup_insert|].
    intros j Hj Haj. destruct (Hw' j Hj Haj) as (k & HK & Hk'). exists k. by rewrite fn_lookup_insert_ne.
  - by injection HM as <-.
  - destruct Ho as (t1 & Hg & Hr). destruct (back_run s') as (s2 & E & Hc & Hk2 & Ef & Ea). rewrite E in HM. injection HM as <-.
    pose proof (others_after _ _ _ _ _ _ Hk Hw Hg) as Hw'. unfold machine_ok. cbn [m_halt m_st m_kont]. rewrite Hc.
    exists t1. split; [apply Hk2, Hg|]. intros j Haj. destruct (decide (j = i)) as [->|Hne].
    + exists k. rewrite fn_lookup_insert. split; [done|]. eapply (waits_move t1 s'); [exact Hr|done|done|by rewrite Ef].
    + destruct (Hw' j Hne) as (k' & HK & Hk'); [by apply Ea|]. exists k'. rewrite fn_lookup_insert_ne by done. split; [done|].
      eapply waits_move; [exact Hk'|done|done|by rewrite Ef].
Qed.

(** The scheduler gives the processor to [i]. *)
Lemma xc_inv {A} (m : M core A) s a s1 : xc m s = Ret a s1 → ∃ c, m (core_of s) = Ret a c ∧ s1 = set_core c s.
Proof.
  unfold xc, xf, fc, ff, io, zoom. change (io_core (fb (fsys s))) with (core_of s).
  destruct (m (core_of s)) as [x c|msg c|c k|c]; cbn; try done. intros [= -> <-]. by exists c.
Qed.

Lemma scheduler_pick_inv i c c' : scheduler_pick i c = Ret true c' →
  state (getp i c) = RUNNABLE ∧ cur c' = Some i ∧ kram (ck c') = kram (ck c) ∧
  ∃ t, ptable c' = alter (λ p, set_cpu_ticks_in t (set_state RUNNING p)) i (ptable c).
Proof.
  unfold scheduler_pick. unfold bind at 1, pget at 1, gets at 1. cbn [obind]. case_bool_decide as Hst; cbn [negb]; [|done].
  unfold switchuvm, myproc, pupd, modify, gets, pget, ret, bind. cbn.
  destruct (pgdir _ =? 0); cbn; [done|]. intros [= <-]. cbn. split_and!; try done.
  eexists. by rewrite list_alter_alter_eq.
Qed.

Lemma pick_run s i s1 : xc (scheduler_pick i) s = Ret true s1 →
  ftable s1 = ftable s ∧ fds s1 = fds s ∧ (∀ j, alive j s1 ↔ alive j s) ∧ alive i s ∧ cur (core_of s1) = Some i ∧
  kram (ck (core_of s1)) = kram (ck (core_of s)).
Proof.
  intros (c & (Hst & Hc & Hm & t & Hp)%scheduler_pick_inv & ->)%xc_inv. rewrite !core_put.
  assert (∀ j, ptable c !! j = (if decide (j = i) then λ p, set_cpu_ticks_in t (set_state RUNNING p) else id) <$> ptable (core_of s) !! j) as Hj.
  { intros j. rewrite Hp. case_decide as E; [subst j; by rewrite list_lookup_alter_eq|]. rewrite list_lookup_alter_ne by done. by rewrite option_fmap_id. }
  split_and!; try done.
  - unfold fds. rewrite core_put. apply list_eq. intros j. rewrite !list_lookup_fmap, Hj. destruct (ptable (core_of s) !! j); [|done]. cbn. by case_decide.
  - intros j. unfold alive, getp. rewrite core_put, Hj. unfold getp in Hst. destruct (ptable (core_of s) !! j) eqn:E; [|done]. cbn. case_decide as Ej; [|done].
    subst j. rewrite E in Hst. cbn in *. unfold dead. by rewrite Hst.
  - unfold alive, dead. by rewrite Hst.
Qed.

(** ** The scheduler *)

Lemma quiet_fle {A B} (m : M (filest St) A) (f : A → M (filest St) B) b s Q :
  keeps false fle m → fle b s → (∀ a s', fle b s' → quiet (f a) s' Q) → quiet (bind m f) s Q.
Proof. intros Hm Hb Hf. eapply (quiet_step fle); [done|]. intros a s' H _. apply Hf. by etrans. Qed.

Lemma fle_idle b s : fle b s → cur (core_of b) = None → cur (core_of s) = None.
Proof. intros [_ [H _ _]]. congruence. Qed.

Lemma cur_idle s : cur (core_of s) = None → xc (gets cur) s = Ret None s.
Proof. intros Hc. by rewrite (xc_Ret (gets cur) s (cur (core_of s)) (core_of s) eq_refl), put_core, Hc. Qed.

Lemma exit_idle cs s : cur (core_of s) = None → exit_if_killed kend waits dev_read initlog_ cs s = Ret tt s.
Proof. intros Hc. unfold exit_if_killed. by rewrite (bind_Ret _ _ _ _ _ (cur_idle s Hc)). Qed.

(** A trap when no process runs. *)
Lemma ktrap_idle cpu cr2 codes bs tf s : cur (core_of s) = None → quiet (ktrap cpu cr2 codes bs tf) s (λ _ s', fle s s').
Proof.
  intros Hc. unfold ktrap, trap. apply (quiet_fle _ _ s); [keep|reflexivity|]. intros no s1 L1. destruct (no =? T_SYSCALL).
  { apply quiet_bind. unfold quiet at 1, me, xc, xf, fc, ff, io, zoom. change (io_core (fb (fsys s1))) with (core_of s1).
    unfold myproc, bind, gets. cbn [obind]. by rewrite (fle_idle _ _ L1 Hc). }
  apply (quiet_fle _ _ s); [keep|done|]. intros cs s2 L2. apply (quiet_fle _ _ s); [keep|done|]. intros eip s3 L3.
  apply (quiet_fle _ _ s); [keep|done|]. intros [] s4 L4. pose proof (fle_idle _ _ L4 Hc) as Hc4.
  unfold quiet. rewrite (bind_Ret _ _ _ _ _ (exit_idle _ _ Hc4)), (bind_Ret _ _ _ _ _ (cur_idle _ Hc4)).
  change (bind (ret ()) ?k ?t) with (k () t). cbv beta. by rewrite (exit_idle _ _ Hc4).
Qed.

Lemma idle_quiet m s : cur (core_of s) = None → idle m → quiet m s (λ _ s', fle s s').
Proof.
  intros Hc Hm. destruct Hm; [..|by apply ktrap_idle]; (eapply quiet_mono; [apply (quiet_keeps fle); keep|by intros ? ? []]).
Qed.

Lemma idle_ok s K m s' : machine_ok (mk_machine s K None) → cur (core_of s) = None → idle m → m s = Ret tt s' →
  machine_ok (mk_machine s' (spawn s s' K) None).
Proof.
  intros (t & Hk & Hw) Hc Hm E. cbn [m_st m_kont] in *. rewrite Hc in Hw. pose proof (idle_quiet m s Hc Hm) as L. unfold quiet in L. rewrite E in L.
  exists t. cbn [m_st m_kont]. rewrite (fle_idle _ _ L Hc). split; [by eapply kernel_ok_fle|].
  intros j Ha. unfold spawn. destruct (dead (getp j (core_of s))) eqn:Ed.
  - unfold alive in Ha. rewrite Ha. eexists. split; [done|]. apply forkret_waits, (c_stale _ _ _ (ok_counted _ _ Hk)). unfold alive. by rewrite Ed.
  - destruct (Hw j Ed) as (k & HK & Hk'). exists k. split; [done|]. eapply waits_move; [exact Hk'|done|done|by rewrite (fle_fds _ _ L)].
Qed.

Lemma pick_panic i s msg s' : xc (scheduler_pick i) s = Panic msg s' → file_panic msg = false.
Proof.
  unfold xc, xf, fc, ff, io, zoom. change (io_core (fb (fsys s))) with (core_of s). generalize (core_of s). intros c.
  unfold scheduler_pick. unfold bind at 1, pget at 1, gets at 1. cbn [obind]. destruct (negb _); [done|].
  unfold switchuvm, myproc, pupd, modify, gets, pget, ret, bind. cbn. destruct (pgdir _ =? 0); cbn; [|done]. by intros [= <- _].
Qed.

Lemma pick_ok s K i k s1 M' : machine_ok (mk_machine s K None) → cur (core_of s) = None → xc (scheduler_pick i) s = Ret true s1 → K i = Some k →
  resume i s1 K (k s1) = Some M' → machine_ok M'.
Proof.
  intros (t & Hk & Hw) Hc E HK HM. cbn [m_st m_kont] in *. rewrite Hc in Hw. apply pick_run in E as (Ef & Ed & Ea & Hi & Hc1 & Em).
  assert (kernel_ok t s1) as Hk1 by (apply (kernel_ok_move t s); [done..| |done]; rewrite Em; apply Hk).
  destruct (Hw i Hi) as (k' & HK' & Hk'). rewrite HK in HK'. injection HK' as <-.
  eapply (slice_ok i t s1); [done| | |exact HM].
  - intros j Hj Ha. destruct (Hw j) as (k'' & HK'' & Hk''); [by apply Ea|]. exists k''. split; [done|]. eapply waits_move; [exact Hk''|done|done|by rewrite Ed].
  - apply Hk'. split_and!; cbn; [done|done|by apply Ea|done|by rewrite Ed].
Qed.

Lemma user_ok s K i m : machine_ok (mk_machine s K None) → cur (core_of s) = Some i → bytes m →
  machine_ok (mk_machine (set_core (set_kmem m (core_of s)) s) K None).
Proof.
  intros (t & Hk & Hw) Hc Hm. cbn [m_st m_kont] in *. rewrite Hc in Hw. set (s' := set_core _ s).
  assert (fds s' = fds s) as Ef by (unfold fds, s'; by rewrite core_put).
  assert (∀ j, alive j s' ↔ alive j s) as Ea by (intros j; unfold alive, s'; by rewrite core_put).
  exists t. cbn [m_st m_kont]. assert (cur (core_of s') = Some i) as -> by (unfold s'; by rewrite core_put).
  destruct Hw as (Ha & Ht & Ho). split_and!; [|by apply Ea|done|].
  - apply (kernel_ok_move t s); [done..| |done]. unfold s'. by rewrite core_put.
  - intros j Hj Haj. destruct (Ho j Hj) as (k & HK & Hk'); [by apply Ea|]. exists k. split; [done|]. eapply waits_move; [exact Hk'|done|done|by rewrite Ef].
Qed.

Lemma trap_step_ok s K i cpu cr2 codes bs tf M' : machine_ok (mk_machine s K None) → cur (core_of s) = Some i →
  resume i s K (ktrap cpu cr2 codes bs tf s) = Some M' → machine_ok M'.
Proof.
  intros (t & Hk & Hw) Hc HM. cbn [m_st m_kont] in *. rewrite Hc in Hw. destruct Hw as (Ha & Ht & Ho).
  eapply (slice_ok i t s); [done|done| |exact HM]. destruct (start_amid i t s) as [o Ham]; [done..|].
  unfold ktrap. refine (trap_ok _ _ _ _ _ _ _ _ _ _ _ _ dev_read_keeps dev_write_keeps _ _ _ _ _ _ _ _ _ _ _ _ _ Ham); by apply keeps_quiet.
Qed.

Lemma mstep_ok M M' : machine_ok M → mstep M M' → machine_ok M'.
Proof.
  intros HM Hs. destruct Hs as [s K m s' Hc Hm E|s K m msg s' Hc Hm E|s K i k s1 M' Hc E HK HR|s K i msg s' Hc E|s K i m Hc Hm|s K i cpu cr2 codes bs tf M' Hc HR].
  - by eapply idle_ok.
  - pose proof (idle_quiet m s Hc Hm) as L. unfold quiet in L. by rewrite E in L.
  - by eapply pick_ok.
  - by eapply pick_panic.
  - by eapply user_ok.
  - by eapply trap_step_ok.
Qed.

(** ** The start *)

(** The processes that main leaves to the scheduler. *)
Definition booted (M : machine) : Prop :=
  m_halt M = None ∧ cur (core_of (m_st M)) = None ∧ kernel_ok (λ _, None) (m_st M) ∧
  ∀ i, alive i (m_st M) → m_kont M i = Some (@forkret _ fops).

Lemma booted_ok M : booted M → machine_ok M.
Proof.
  intros (Hh & Hc & Hk & Hf). unfold machine_ok. rewrite Hh, Hc. exists (λ _, None). split; [done|].
  intros j Ha. eexists. split; [by apply Hf|]. by apply forkret_waits.
Qed.

Lemma reachable_ok M M' : booted M → rtc mstep M M' → machine_ok M'.
Proof. intros Hb%booted_ok Hs. induction Hs as [|M M1 M2 H1 _ IH]; [done|]. by apply IH, (mstep_ok M). Qed.

(** The tables of a kernel that was just loaded. *)
Record bss (s : filest St) : Prop := {
  bss_procs : ptable (core_of s) = replicate NPROC proc0;
  bss_files : ftable s = replicate NFILE file0;
  bss_mem : bytes (kram (ck (core_of s)));
  bss_cur : cur (core_of s) = None
}.

Lemma userinit_keeps : keeps true fle (@userinit _ fops data forkret_addr trapret_addr initcode_start initcode_size).
Proof.
  unfold userinit. cbn [fo_namei file_ops]. keep.
Qed.

Lemma bss_ok s : bss s → kernel_ok (λ _, None) s.
Proof.
  intros [Hp Hf Hb _]. assert (fds s = replicate NPROC (replicate NOFILE None)) as Ed by (unfold fds; by rewrite Hp).
  assert (∀ f, getf f s = file0) as Eg.
  { intros f. unfold getf. rewrite Hf. destruct (replicate NFILE file0 !! f) as [x|] eqn:E; [|done]. by apply lookup_replicate in E as [-> _]. }
  assert (∀ i o, fds s !! i = Some o → o = replicate NOFILE None) as Ho by (intros i o; rewrite Ed; by intros [-> _]%lookup_replicate).
  split; split.
  - intros f. rewrite Eg, Ed. reflexivity.
  - intros f. by rewrite Eg.
  - done.
  - done.
  - by rewrite Hp.
  - by intros i o ->%Ho.
  - by rewrite Hf.
  - intros i o _ ->%Ho. by apply Forall_replicate.
Qed.

(** main starts the scheduler with the process that userinit made. *)
Lemma userinit_boots s s' : bss s → @userinit _ fops data forkret_addr trapret_addr initcode_start initcode_size s = Ret tt s' →
  booted (mk_machine s' (λ _, Some (@forkret _ fops)) None).
Proof.
  intros Hs E. pose proof (userinit_keeps s) as L. rewrite E in L. cbn in L. split_and!; cbn; [done| | |done].
  - eapply fle_idle; [exact L|]. apply Hs.
  - eapply kernel_ok_fle; [exact L|]. by apply bss_ok.
Qed.

End machine.

(** ** The parts of the kernel together *)

Section console_frame.
  Context {St : Type} {HB : BlockIO St} {HF : BlockFrame St}.

#[export] Instance con_frame : @BlockFrame (cst St) con_io.
Proof.
  assert (∀ sw A (m : M St A), keeps sw (pull io_core cle) m → keeps sw (pull (λ s : cst St, io_core (cs s)) cle) (zoom cs set_cs m)) as Hz.
  { intros sw A m. by apply keeps_zoom. }
  split; cbn; intros; try (apply Hz; apply HF); [apply bf_get_set| |by rewrite bf_set_set].
  unfold set_cs. rewrite bf_set_get. by destruct s.
Qed.

Hint Resolve con_frame : keeps.

Lemma consputc_keeps sw c : keeps sw any (consputc c).
Proof. unfold consputc, uartputc, cgaputc, upd_crt. keep. Qed.
Hint Resolve consputc_keeps : keeps.
Lemma consputs_keeps sw l : keeps sw any (consputs l).
Proof. induction l as [|c l IH]; cbn [consputs]; keep. Qed.
Lemma kill_line_keeps sw fuel : keeps sw any (kill_line fuel).
Proof. induction fuel as [|fuel IH]; cbn [kill_line]; keep. Qed.
Hint Resolve consputs_keeps kill_line_keeps : keeps.

Lemma kprintf_keeps sw fmt args strs : ckeeps sw (kprintf fmt args strs).
Proof. unfold kprintf. keep. Qed.
Hint Resolve kprintf_keeps : keeps.
Lemma dump_pcs_keeps sw pcs : ckeeps sw (dump_pcs pcs).
Proof. induction pcs as [|pc pcs IH]; cbn [dump_pcs]; keep. Qed.
Hint Resolve dump_pcs_keeps : keeps.
Lemma dump_proc_keeps sw i : ckeeps sw (dump_proc i).
Proof. unfold dump_proc. keep. Qed.
Hint Resolve dump_proc_keeps : keeps.
Lemma procdump_loop_keeps sw n i : ckeeps sw (procdump_loop n i).
Proof. revert i. induction n as [|n IH]; intros i; cbn [procdump_loop]; keep. Qed.
Hint Resolve procdump_loop_keeps : keeps.
Lemma procdump_keeps sw : ckeeps sw procdump.
Proof. unfold procdump. keep. Qed.
Hint Resolve procdump_keeps : keeps.

Abbreviation cskeeps sw := (keeps sw (pull (@io_core (cst St) con_io) cle)).

Lemma con_keeps {A} sw (m : M con A) : keeps sw any m → cskeeps sw (con_ m).
Proof. apply keeps_zoom. intros s t _. unfold pull. reflexivity. Qed.
Lemma cio_keeps {A} sw (m : M core A) : ckeeps sw m → cskeeps sw (cio m).
Proof.
  intros Hm. unfold cio, io. eapply (keeps_zoom _ _ (pull io_core cle)); [by intros s t|]. eapply keeps_zoom; [|exact Hm].
  intros s t E. unfold pull. by rewrite bf_get_set.
Qed.
Hint Extern 1 (keeps _ _ (con_ _)) => apply con_keeps; keep : keeps.
Hint Extern 1 (keeps _ _ (cio _)) => apply cio_keeps; keep : keeps.

Lemma consoleintr_key_keeps sw c : cskeeps sw (consoleintr_key c).
Proof. unfold consoleintr_key. keep. Qed.
Hint Resolve consoleintr_key_keeps : keeps.
Lemma consoleintr_loop_keeps sw l d : cskeeps sw (consoleintr_loop l d).
Proof. revert d. induction l as [|c l IH]; intros d; cbn [consoleintr_loop]; keep. Qed.
Hint Resolve consoleintr_loop_keeps : keeps.
Lemma consoleintr_keeps sw l : cskeeps sw (consoleintr l).
Proof. unfold consoleintr. keep. Qed.
Hint Resolve consoleintr_keeps : keeps.
Lemma kbdintr_keeps sw codes : cskeeps sw (kbdintr codes).
Proof. unfold kbdintr. keep. Qed.
Lemma uartintr_keeps sw bs : cskeeps sw (uartintr bs).
Proof. unfold uartintr. keep. Qed.

Variable waits : nat.

Lemma xcon_keeps {A} sw (m : M con A) : keeps sw any m → keeps sw (@fsle (cst St) con_io) (xcon m).
Proof. intros Hm. by apply ff_keeps, con_keeps. Qed.
Hint Extern 1 (keeps _ _ (xcon _)) => apply xcon_keeps; keep : keeps.

Lemma consoleread_wait_keeps fuel : keeps true (@fsle (cst St) con_io) (consoleread_wait fuel).
Proof. induction fuel as [|fuel IH]; cbn [consoleread_wait]; keep. Qed.
Hint Resolve consoleread_wait_keeps : keeps.
Lemma consoleread_loop_keeps k n target : keeps true (@fsle (cst St) con_io) (consoleread_loop waits k n target).
Proof. revert n. induction k as [|k IH]; intros n; cbn [consoleread_loop]; keep. Qed.
Hint Resolve consoleread_loop_keeps : keeps.
Lemma devsw_read_keeps d rd i n : devsw_read waits d = Some rd → keeps true (@fsle (cst St) con_io) (rd i n).
Proof. unfold devsw_read. destruct (d =? CONSOLE); [|done]. intros [= <-]. unfold consoleread. keep. Qed.
Lemma devsw_write_keeps d wr i l n : devsw_write waits d = Some wr → keeps true (@fsle (cst St) con_io) (wr i l n).
Proof. unfold devsw_write. destruct (d =? CONSOLE); [|done]. intros [= <-]. unfold consolewrite. keep. Qed.

End console_frame.

(** memide.c: the blocks are in memory, and there is nothing to wait for. *)
Definition mem_ideintr {S} : M S unit := ret tt.

Section kernel.
  Variables kend data forkret_addr trapret_addr : Z.
  Variable waits : nat.
  Variable pipe_name : Z.
  Variable stack0 : list Z.
  Variable null_uid : Z.
  Variable cmos : nat → Z → Z.

#[local] Instance kernel_io : BlockIO (cst lst) := @con_io lst (log_io waits).

Definition kernel_initlog : M (cst lst) unit := zoom cs set_cs (initlog waits DEV).

(** The kernel: the file system on the log, the console as its device. *)
Definition kernel_step : machine → machine → Prop :=
  mstep kend data forkret_addr trapret_addr waits (devsw_read (HB := log_io waits) waits) (devsw_write (HB := log_io waits) waits)
    pipe_name stack0 null_uid cmos kernel_initlog
    (λ codes, xf (ff (kbdintr (HB := log_io waits) codes))) (λ bs, xf (ff (uartintr (HB := log_io waits) bs))) mem_ideintr.

Definition kernel_booted : machine → Prop := booted kend waits (devsw_read (HB := log_io waits) waits) kernel_initlog.

Lemma kernel_frame : @BlockFrame (cst lst) kernel_io.
Proof. apply (@con_frame lst (log_io waits) (log_frame waits)). Qed.

Lemma kernel_initlog_keeps : keeps true (pull io_core cle) kernel_initlog.
Proof. eapply keeps_zoom; [|apply initlog_keeps]. by intros s t. Qed.

(** C5: The kernel's state stays well formed on a processor that takes interrupts
    in user mode and in the idle scheduler, and none while a process runs in the
    kernel.  Start the machine with the processes that main leaves to the scheduler,
    and let it run: processes in user mode write to memory, trap and are
    interrupted, the scheduler picks among the runnable ones, and processes in the
    kernel run until they return or give up the processor.  Then in every state at
    the end of such a stretch memory holds bytes, the
    tables have their sizes, slots that are not in use have no descriptors, and
    the count of every open file is the number of descriptors that refer to it
    (not counting one that a process in exit has closed and not cleared yet);
    and it is never stopped by the panics of filedup and fileclose. *)
Theorem kernel_stays_ok M0 M :
  kernel_booted M0 → rtc kernel_step M0 M →
  match m_halt M with
  | Some msg => msg ≠ "filedup" ∧ msg ≠ "fileclose"
  | None => ∃ t, kernel_ok t (m_st M)
  end.
Proof.
  intros Hb Hr. pose proof kernel_frame as HF. assert (machine_ok M) as HM.
  { eapply (reachable_ok (HF := HF)); [..|exact Hb|exact Hr].
    - intros d rd i n. apply (devsw_read_keeps (HF := log_frame waits)).
    - intros d wr i l n. apply (devsw_write_keeps (HF := log_frame waits)).
    - apply kernel_initlog_keeps.
    - intros codes. apply xf_keeps, ff_keeps, (kbdintr_keeps (HF := log_frame waits)).
    - intros bs. apply xf_keeps, ff_keeps, (uartintr_keeps (HF := log_frame waits)).
    - unfold mem_ideintr. keep. }
  unfold machine_ok in HM. destruct (m_halt M) as [msg|]; [|by destruct HM as (t & Hk & _); exists t].
  unfold file_panic in HM. apply bool_decide_eq_false in HM. naive_solver.
Qed.

End kernel.

(** ** Witness *)

(** Process 0 is runnable with one open file; the trap frame in its kernel page
    asks for dup. *)
Definition ex_ram : mem := λ a,
  if a =? 2147483648 + 16384 + tf_trapno then 64 else if a =? 2147483648 + 16384 + tf_eax then 10 else ex_fd_mem a.

Definition ex_idle : core :=
  set_cur None (set_ptable (alter (λ p, set_pgdir 2147487744 (set_state RUNNABLE p)) 0%nat (ptable ex_fd_core)) (set_kmem ex_ram ex_fd_core)).

Definition ex_state : filest (cst lst) :=
  mk_fst (mk_fs (mk_cst (set_lb (set_bc ex_idle (lb ex_boot)) ex_boot) ex_con) (mk_sb 0 0 0 0 0 0 0) [])
    (mk_file FD_INODE 1 1 1 0 0 0 :: replicate 99 file0).

Definition ex_machine : @machine (cst lst) :=
  mk_machine ex_state (λ _, Some (@forkret _ (@file_ops (cst lst) (kernel_io 1) 0 1 (devsw_read (HB := log_io 1) 1) (kernel_initlog 1)))) None.

Lemma ex_state_ok : @kernel_ok (cst lst) (kernel_io 1) (λ _, None) ex_state.
Proof.
  assert (∀ i o, @fds (cst lst) (kernel_io 1) ex_state !! S i = Some o → o = replicate NOFILE None) as Hz.
  { intros i o. change (replicate 63 (replicate NOFILE None) !! i = Some o → o = replicate NOFILE None). by intros [-> _]%lookup_replicate. }
  assert (∀ f, getf (S f) ex_state = file0) as Hf by (intros f; apply ex_getf).
  split; split.
  - intros [|f]; [vm_compute; reflexivity|]. rewrite Hf. vm_compute. reflexivity.
  - intros [|f]; [done|]. by rewrite Hf.
  - done.
  - intros a. change (0 ≤ ex_ram a < 256). unfold ex_ram, ex_fd_mem. repeat case_match; lia.
  - reflexivity.
  - intros [|i] o; [by intros [= <-]|]. by intros ->%Hz.
  - reflexivity.
  - intros [|i] o Hd; [by destruct Hd|]. intros ->%Hz. by apply Forall_replicate.
Qed.

(** The scheduler runs process 0, which returns from forkret and calls dup. *)
Definition result {S A} (o : outcome S A) (s : S) : S := match o with Ret _ s' => s' | _ => s end.

Lemma result_Ret {S} (o : outcome S unit) s : match o with Ret _ _ => true | _ => false end = true → o = Ret tt (result o s).
Proof. by destruct o as [[]| | |]. Qed.

Lemma result_true {S} (o : outcome S bool) s : match o with Ret b _ => b | _ => false end = true → o = Ret true (result o s).
Proof. by destruct o as [[]| | |]. Qed.

Lemma default_Some {A} (o : option A) a : match o with Some _ => true | None => false end = true → o = Some (default a o).
Proof. by destruct o. Qed.

Abbreviation ex_step := (kernel_step 0 0 0 0 1 0 [] 0 (λ _ _, 0)).
Abbreviation ex_trap := (@ktrap (cst lst) (kernel_io 1) 0 0 0 0 1 (devsw_read (HB := log_io 1) 1) (devsw_write (HB := log_io 1) 1) 0 [] 0
  (λ _ _, 0) (kernel_initlog 1) (λ codes, xf (ff (kbdintr (HB := log_io 1) codes))) (λ bs, xf (ff (uartintr (HB := log_io 1) bs))) mem_ideintr).
Abbreviation ex_resume := (@resume (cst lst) (kernel_io 1) 0 1 (devsw_read (HB := log_io 1) 1) (kernel_initlog 1)).
Abbreviation ex_ret := (@forkret _ (@file_ops (cst lst) (kernel_io 1) 0 1 (devsw_read (HB := log_io 1) 1) (kernel_initlog 1))).

Definition ex_locked : filest (cst lst) := result (@xc (cst lst) (kernel_io 1) _ (pacquire Lptable) ex_state) ex_state.
Definition ex_picked : filest (cst lst) := result (@xc (cst lst) (kernel_io 1) _ (scheduler_pick 0) ex_locked) ex_state.
Definition ex_user : @machine (cst lst) :=
  default ex_machine (ex_resume 0%nat ex_picked (spawn (HB := kernel_io 1) 0 1 (devsw_read (HB := log_io 1) 1) (kernel_initlog 1)
    ex_state ex_locked (m_kont ex_machine)) (ex_ret ex_picked)).
Definition ex_dup : @machine (cst lst) :=
  default ex_machine (ex_resume 0%nat (m_st ex_user) (m_kont ex_user) (ex_trap 0 0 [] [] (2147483648 + 16384) (m_st ex_user))).

Lemma ex_run : rtc ex_step ex_machine ex_dup.
Proof.
  assert (ex_user = mk_machine (m_st ex_user) (m_kont ex_user) None) as Eu.
  { assert (m_halt ex_user = None) as E by (vm_compute; reflexivity). revert E. destruct ex_user; cbn. by intros ->. }
  eapply rtc_l; [apply (mstep_idle _ _ _ _ _ _ _ _ _ _ _ _ _ _ _ _ _ (@xc (cst lst) (kernel_io 1) _ (pacquire Lptable)) ex_locked); [reflexivity|apply idle_acquire|]|].
  { apply result_Ret. vm_compute. reflexivity. }
  eapply rtc_l; [eapply (mstep_pick _ _ _ _ _ _ _ _ _ _ _ _ _ _ _ _ _ 0%nat _ ex_picked ex_user); [reflexivity| |reflexivity|]|].
  { apply result_true. vm_compute. reflexivity. }
  { apply default_Some. vm_compute. reflexivity. }
  apply rtc_once. rewrite Eu. apply (mstep_trap _ _ _ _ _ _ _ _ _ _ _ _ _ _ _ _ _ 0%nat 0 0 [] [] (2147483648 + 16384)).
  - vm_compute. reflexivity.
  - apply default_Some. vm_compute. reflexivity.
Qed.

Lemma kernel_stays_ok_witness : ∃ M, rtc ex_step ex_machine M ∧
  map fref (take 2 (ftable (m_st M))) = [2; 0] ∧ ∃ t, @kernel_ok (cst lst) (kernel_io 1) t (m_st M).
Proof.
  exists ex_dup. split; [exact ex_run|]. split; [vm_compute; reflexivity|].
  pose proof (kernel_stays_ok 0 0 0 0 1 0 [] 0 (λ _ _, 0) ex_machine ex_dup) as H.
  assert (m_halt ex_dup = None) as Hh by (vm_compute; reflexivity). rewrite Hh in H. apply H; [|exact ex_run].
  split; [reflexivity|]. split; [reflexivity|]. split; [exact ex_state_ok|]. intros i _. reflexivity.
Defined.
