(* ===== verification/Main.v ===== *)
(** * Start-up (main.c, consoleinit of console.c, pinit of proc.c, fileinit of
      file.c, ideinit of memide.c)

    [sys] puts the parts of the kernel together: the layers from memory up to the
    open files, the multiprocessor tables, the devices, the spin locks of
    spinlock.c, and the segments and interrupt descriptors of the processor.
    main runs the initialisation of each on its part, in the order of the code.
    The other processors are a parameter: startothers reads their started flags.
    Until userinit makes the first process runnable, which is the last thing it
    does, their schedulers find nothing to run.

    The theorem: main reaches the scheduler, with one process that is ready to
    run the initcode. *)
From S2P Require Import Prelude Kernel CString Spinlock Kalloc Vm Kvm Proc ProcSpec Pipe Format Bytes Bio Log BlockIO Fs File Syscall Sysfile Exec Sysproc Console Segments Mp Devices Frame FileFrame FileRefs Machine.

Local Open Scope Z_scope.
Local Open Scope kernel_scope.

Record sys := mk_sys {
  y_files : filest (cst lst);
  y_mp : mpst;
  y_dev : devst;
  y_locks : mach;
  y_seg : segments;                   (* of this processor *)
  y_idt : list gatedesc;
  y_idtr : list Z;
  y_cpu : Z;                          (* cpu, as an index of cpus *)
  y_started : list Z;                 (* cpus[].started *)
  y_polls : nat;                      (* reads of started in startothers *)
  y_devsw : list (bool * bool);       (* the entries of devsw with read and write functions *)
  y_locking : Z                       (* cons.locking *)
}.

Definition set_y_files (v : filest (cst lst)) (x : sys) : sys :=
  mk_sys v (y_mp x) (y_dev x) (y_locks x) (y_seg x) (y_idt x) (y_idtr x) (y_cpu x) (y_started x) (y_polls x) (y_devsw x) (y_locking x).
Definition set_y_mp (v : mpst) (x : sys) : sys :=
  mk_sys (y_files x) v (y_dev x) (y_locks x) (y_seg x) (y_idt x) (y_idtr x) (y_cpu x) (y_started x) (y_polls x) (y_devsw x) (y_locking x).
Definition set_y_dev (v : devst) (x : sys) : sys :=
  mk_sys (y_files x) (y_mp x) v (y_locks x) (y_seg x) (y_idt x) (y_idtr x) (y_cpu x) (y_started x) (y_polls x) (y_devsw x) (y_locking x).
Definition set_y_locks (v : mach) (x : sys) : sys :=
  mk_sys (y_files x) (y_mp x) (y_dev x) v (y_seg x) (y_idt x) (y_idtr x) (y_cpu x) (y_started x) (y_polls x) (y_devsw x) (y_locking x).
Definition set_y_seg (v : segments) (x : sys) : sys :=
  mk_sys (y_files x) (y_mp x) (y_dev x) (y_locks x) v (y_idt x) (y_idtr x) (y_cpu x) (y_started x) (y_polls x) (y_devsw x) (y_locking x).
Definition set_y_idt (v : list gatedesc) (x : sys) : sys :=
  mk_sys (y_files x) (y_mp x) (y_dev x) (y_locks x) (y_seg x) v (y_idtr x) (y_cpu x) (y_started x) (y_polls x) (y_devsw x) (y_locking x).
Definition set_y_idtr (v : list Z) (x : sys) : sys :=
  mk_sys (y_files x) (y_mp x) (y_dev x) (y_locks x) (y_seg x) (y_idt x) v (y_cpu x) (y_started x) (y_polls x) (y_devsw x) (y_locking x).
Definition set_y_cpu (v : Z) (x : sys) : sys :=
  mk_sys (y_files x) (y_mp x) (y_dev x) (y_locks x) (y_seg x) (y_idt x) (y_idtr x) v (y_started x) (y_polls x) (y_devsw x) (y_locking x).
Definition set_y_started (v : list Z) (x : sys) : sys :=
  mk_sys (y_files x) (y_mp x) (y_dev x) (y_locks x) (y_seg x) (y_idt x) (y_idtr x) (y_cpu x) v (y_polls x) (y_devsw x) (y_locking x).
Definition set_y_polls (v : nat) (x : sys) : sys :=
  mk_sys (y_files x) (y_mp x) (y_dev x) (y_locks x) (y_seg x) (y_idt x) (y_idtr x) (y_cpu x) (y_started x) v (y_devsw x) (y_locking x).
Definition set_y_devsw (v : list (bool * bool)) (x : sys) : sys :=
  mk_sys (y_files x) (y_mp x) (y_dev x) (y_locks x) (y_seg x) (y_idt x) (y_idtr x) (y_cpu x) (y_started x) (y_polls x) v (y_locking x).
Definition set_y_locking (v : Z) (x : sys) : sys :=
  mk_sys (y_files x) (y_mp x) (y_dev x) (y_locks x) (y_seg x) (y_idt x) (y_idtr x) (y_cpu x) (y_started x) (y_polls x) (y_devsw x) v.

(** Sizes and offsets in struct cpu (proc.h). *)
Abbreviation CPU_SIZE := (188).
Abbreviation CPU_GDT := (112).
Abbreviation CPU_CPU := (180).

(** ** Initialisation of single parts *)

Definition pinit : M mach unit := initlock Lptable "ptable".
Definition fileinit : M mach unit := initlock Lftable "ftable".

(** [image] is _binary_fs_img_start; its length in blocks is disksize. *)
Definition mem_ideinit (image : list (list Z)) : M bst unit := modify (set_disk image).

Section main.
  Variables kend data forkret_addr trapret_addr : Z.
  Variables initcode_start initcode_size : Z.
  Variables entryother_start entryother_size mpenter_addr entrypgdir_addr : Z.
  Variables cpus_addr idt_addr : Z.
  Variable vectors : nat → Z.
  Variable image : list (list Z).
  Variable waits : nat.
  Variables (lread inb : Z → nat → Z) (inb23 : Z) (mp_fuel polls : nat).
  Variables flags ra : Z.             (* EFLAGS and the return address, for cpunum *)
  Variable ap_started : Z → nat → Z.  (* reads of cpus[c].started *)

#[local] Existing Instance kernel_io.
Abbreviation dev_read := (devsw_read (HB := log_io waits) waits).
Abbreviation fops := (@file_ops (cst lst) (kernel_io waits) kend waits dev_read (kernel_initlog waits)).

Definition yf {A} (m : M (filest (cst lst)) A) : M sys A := zoom y_files set_y_files m.
Definition yc {A} (m : M core A) : M sys A := yf (@xc (cst lst) (kernel_io waits) A m).
Definition yk {A} (m : M kst A) : M sys A := yc (kk m).
Definition yb {A} (m : M bst A) : M sys A := yf (xf (ff (zoom cs set_cs (ll m)))).
Definition yd {A} (m : M devst A) : M sys A := zoom y_dev set_y_dev m.

(** Devices that read a variable of mp.c. *)
Definition with_mp {A B} (f : mpst → A) (k : A → M sys B) : M sys B := bind (gets (λ y, f (y_mp y))) k.

Definition consoleinit : M sys unit :=
  zoom y_locks set_y_locks (initlock Lcons "console");;
  modify (λ y, set_y_devsw (<[Z.to_nat CONSOLE := (true, true)]> (y_devsw y)) y);;
  modify (set_y_locking 1);;
  yd (picenable IRQ_KBD);;
  with_mp ismp (λ mp, yd (ioapicenable mp IRQ_KBD 0)).

Definition y_cpunum : M sys Z := with_mp lapic (λ a, yd (cpunum lread flags ra a)).

Definition y_seginit : M sys unit :=
  n <- y_cpunum;;
  let c := cpus_addr + CPU_SIZE * n in
  modify (λ y, set_y_cpu n (set_y_seg (seginit c (c + CPU_GDT) (c + CPU_CPU) (gdt (y_seg y))) y)).

Definition y_lapicinit : M sys unit := with_mp lapic (λ a, yd (lapicinit lread polls a)).

(** The serial port's driver and its interrupt handler share a variable. *)
Definition y_uartinit : M sys unit :=
  with_mp ismp (λ mp, yd (uartinit inb mp));;
  u <- gets (λ y, uart (y_dev y));;
  yf (xf (ff (zoom cn set_cn (modify (set_have_uart u))))).

(** cpu->id *)
Definition cpu_id (y : sys) : Z := default 0 (cpu_ids (y_mp y) !! Z.to_nat (y_cpu y)).

(** ** The other processors *)

Fixpoint wait_started (fuel : nat) (c : Z) : M sys unit :=
  match fuel with
  | O => nofuel
  | S fuel =>
      n <- gets y_polls;;
      modify (set_y_polls (S n));;
      if ap_started c n =? 0 then wait_started fuel c else ret tt
  end.

Fixpoint startothers_loop (n : nat) (c : Z) : M sys unit :=
  match n with
  | O => ret tt
  | S n =>
      let code := p2v 28672 in
      me <- y_cpunum;;
      if c =? me then startothers_loop n (c + 1)
      else
        stack <- yk kalloc;;
        yk (storew (code - 4) (stack +u KSTACKSIZE));;
        yk (storew (code - 8) mpenter_addr);;
        yk (storew (code - 12) (v2p entrypgdir_addr));;
        id <- gets (λ y, default 0 (cpu_ids (y_mp y) !! Z.to_nat c));;
        yd (lapicstartap lread id (v2p code));;
        wait_started polls c;;
        startothers_loop n (c + 1)
  end.

Definition startothers : M sys unit :=
  let code := p2v 28672 in
  yk (kmemmove code entryother_start entryother_size);;
  with_mp ncpu (λ n, startothers_loop (Z.to_nat n) 0).

(** Up to the call of the scheduler. *)
Definition mpmain : M sys unit :=
  id <- gets cpu_id;;
  yc (kprintf (chars "cpu%d: starting" ++ [10]) [id] (λ _, []));;
  modify (set_y_idtr (idtinit idt_addr));;
  modify (λ y, set_y_started (<[Z.to_nat (y_cpu y) := 1]> (y_started y)) y).

Definition mpenter : M sys unit :=
  yc switchkvm;;
  y_seginit;;
  y_lapicinit;;
  mpmain.

(** ** The boot processor *)

(** [kinit1] and [binit] do not have the spin locks in their state, so that the
    calls of initlock they begin with are here. *)
Definition main : M sys unit :=
  zoom y_locks set_y_locks (initlock Lkmem "kmem");;
  yk (kinit1 kend kend (p2v (4 * 1024 * 1024)));;
  yc (kvmalloc data);;
  m <- gets (λ y, kram (ck (core_of (HB := kernel_io waits) (y_files y))));;
  zoom y_mp set_y_mp (mpinit m inb23 mp_fuel);;
  y_lapicinit;;
  y_seginit;;
  id <- gets cpu_id;;
  yc (kprintf (10 :: chars "cpu%d: starting xv6" ++ [10; 10]) [id] (λ _, []));;
  yd picinit;;
  with_mp ismp (λ mp, with_mp ioapicid (λ i, yd (ioapicinit mp i)));;
  consoleinit;;
  y_uartinit;;
  zoom y_locks set_y_locks pinit;;
  modify (λ y, set_y_idt (tvinit vectors (y_idt y)) y);;
  zoom y_locks set_y_locks (initlock Lbcache "bcache");;
  yb binit;;
  zoom y_locks set_y_locks fileinit;;
  yb (mem_ideinit image);;
  with_mp ismp (λ mp, when (mp =? 0) do yd timerinit);;
  startothers;;
  yk (kinit2 kend (p2v (4 * 1024 * 1024)) (p2v PHYSTOP));;
  yf (@userinit _ fops data forkret_addr trapret_addr initcode_start initcode_size);;
  mpmain.

End main.

(** ** The first address space *)

Section space.
  Variables kend q : Z.
  Hypothesis q_range : 0 < q < 57088.
  Variables fr tr init sz : Z.
  Hypothesis sz_range : 0 ≤ sz < PGSIZE.
  Hypothesis init_range : init + sz ≤ kend.

Abbreviation data := (KERNLINK + PGSIZE * q).

Lemma fresh_stack_page m ks : only_page ks m (fresh_stack m ks fr tr).
Proof.
  intros x Hx. unfold fresh_stack, in_page, PGSIZE, KSTACKSIZE, TF_SIZE, CONTEXT_SIZE in *.
  rewrite st32_other, memset_spec by lia. case_test; try lia; by rewrite st32_other by lia.
Qed.

(** What allocproc, setupkvm and inituvm do to memory in userinit: [ks] is the
    kernel stack, [dir] the page directory and [p] the user's page. *)
Record first_space (k : kst) (ks : Z) (l : list Z) (dir : Z) (k3 : kst) (p : Z) (l' : list Z) (T : gmap Z Z) : Prop := {
  fs_pt : pt_inv kend k3 l' dir T (mapped (E4 q) 0 1 (v2p p) 6);
  fs_pages : l ≡ₚ p :: dir :: vals T ++ l';
  fs_frame : kframe k k3;
  fs_only : only_pages (ks :: l) (kram k) (kram k3);
  fs_stack : ∀ x, in_page ks x → kram k3 x = fresh_stack (kram k) ks fr tr x;
  fs_user : ∀ i, 0 ≤ i < PGSIZE → kram k3 (p + i) = if i <? sz then kram k (init + i) else 0
}.

Lemma first_space_made k ks l :
  kunlocked k → free_rel kend k (ks :: l) → (67 ≤ length l)%nat →
  ∃ k1 dir k2 k3 p l' T, kalloc k = Ret ks k1 ∧ kframe k k1 ∧ kram k1 = kram k ∧
    setupkvm data (set_kram (fresh_stack (kram k1) ks fr tr) k1) = Ret dir k2 ∧ inituvm dir init sz k2 = Ret tt k3 ∧
    first_space k ks l dir k3 p l' T.
Proof.
  intros Hu Hf Hl. destruct (kalloc_run_ok kend k l ks Hu Hf) as (k1 & E1 & Hf1 & Em1 & K1). exists k1. rewrite Em1.
  destruct Hf as (_ & Hnd & Hok). apply NoDup_cons in Hnd as [Hks Hnd]. apply Forall_cons in Hok as [Hokk Hok].
  set (k1' := set_kram _ k1). pose proof (fresh_stack_page (kram k) ks) as M1.
  assert (free_rel kend k1' l) as Hf1' by (eapply free_rel_only_page; [by rewrite Em1|apply Hokk|done|done]).
  pose proof (setupkvm_ok kend q q_range k1' l (kframe_unlocked k k1' K1 Hu) Hf1') as H. rewrite (proj2 (Nat.leb_le _ _)) in H by lia.
  destruct H as (dir & k2 & l2 & T & E2 & K2 & M2 & Hi & HT & HS & HL).
  destruct l2 as [|p l3]; [apply Permutation_length in HL; cbn in HL; rewrite length_app, vals_length in HL; cbn in HL; lia|].
  assert (l3 ≠ []) as Hl3. { intros ->. apply Permutation_length in HL. cbn in HL. rewrite length_app, vals_length in HL. cbn in HL. lia. }
  destruct (inituvm_ok kend q q_range k2 p l3 dir T init sz Hi HT Hl3 sz_range init_range) as (k3 & l' & T' & E3 & Hi3 & P3 & K3 & M3 & U3).
  assert (l ≡ₚ p :: dir :: vals T' ++ l') as HL'. { rewrite <- P3, HL. rewrite <- Permutation_middle. by rewrite Permutation_swap. }
  assert (only_pages l (kram k1') (kram k3)) as M13.
  { eapply only_pages_trans; [exact M2|]. eapply only_pages_mono; [|exact M3]. intros x. by rewrite HL. }
  exists dir, k2, k3, p, l', T'. split_and!; try done. split; [done|done| | | |].
  - eapply kframe_trans; [exact K1|]. by eapply kframe_trans; [|exact K3].
  - eapply only_pages_trans; [eapply only_page_pages; [|exact M1]; set_solver|]. eapply only_pages_mono; [|exact M13]. set_solver.
  - intros x Hx. rewrite M13; [done|]. intros q' Hq. apply (off_page q' ks); [by eapply Forall_forall in Hok as [? _]|apply Hokk|by intros ->|done].
  - intros i Hi'. rewrite U3 by done. destruct (Z.ltb_spec i sz); [|done]. rewrite M2; [apply M1; unfold in_page, page_ok in *; lia|].
    intros q' Hq. eapply Forall_forall in Hok as (_ & Hq' & _); [|exact Hq]. unfold in_page. lia.
Qed.

End space.

(** ** The trap frame of the first process *)

Definition user_frame (m : mem) (t : Z) : mem :=
  let m := memset m t 0 TF_SIZE in
  let m := st16 m (t + tf_cs) (Z.lor (Z.shiftl SEG_UCODE 3) DPL_USER) in
  let m := st16 m (t + tf_ds) (Z.lor (Z.shiftl SEG_UDATA 3) DPL_USER) in
  let m := st16 m (t + tf_es) (Z.lor (Z.shiftl SEG_UDATA 3) DPL_USER) in
  let m := st16 m (t + tf_ss) (Z.lor (Z.shiftl SEG_UDATA 3) DPL_USER) in
  st32 (st32 (st32 m (t + tf_eflags) FL_IF) (t + tf_esp) PGSIZE) (t + tf_eip) 0.

Lemma st16_other m a v x : x < a ∨ a + 2 ≤ x → st16 m a v x = m x.
Proof. intros Hx. unfold st16. by rewrite !fn_lookup_insert_ne by lia. Qed.

Lemma ld32_st16_ne m a b v : b + 4 ≤ a ∨ a + 2 ≤ b → ld32 (st16 m a v) b = ld32 m b.
Proof. intros Hb. apply ld32_ext. intros x Hx. apply st16_other. lia. Qed.

Lemma ld32_st16 m a v : m (a + 2) = 0 → m (a + 3) = 0 → ld32 (st16 m a v) a = u8 v + 256 * u8 (v / 256).
Proof.
  intros H2 H3. unfold ld32. rewrite (st16_other _ _ _ (a + 2)), (st16_other _ _ _ (a + 3)), H2, H3 by lia.
  unfold st16. rewrite fn_lookup_insert, fn_lookup_insert_ne, fn_lookup_insert by lia. lia.
Qed.

(** Offsets and what the processor pops from there. *)
Definition user_regs : list (Z * Z) :=
  [(tf_eip, 0); (tf_esp, PGSIZE); (tf_eflags, FL_IF); (tf_cs, 35); (tf_ds, 43); (tf_es, 43); (tf_ss, 43); (tf_eax, 0)].

Ltac offsets := unfold tf_cs, tf_ds, tf_es, tf_ss, tf_eflags, tf_esp, tf_eip, tf_eax, TF_SIZE in *.

Lemma user_frame_other m t x : x < t ∨ t + TF_SIZE ≤ x → user_frame m t x = m x.
Proof.
  intros Hx. unfold user_frame. offsets. rewrite !st32_other, !st16_other, memset_spec by lia. case_test; lia || done.
Qed.

Lemma user_frame_regs m t : Forall (λ r, ld32 (user_frame m t) (t + r.1) = r.2) user_regs.
Proof.
  assert (∀ x, t ≤ x < t + 76 → memset m t 0 76 x = 0) as Hz.
  { intros x Hx. rewrite memset_spec by lia. rewrite (proj2 (Z.leb_le _ _)), (proj2 (Z.ltb_lt _ _)) by lia. done. }
  unfold user_frame, user_regs. repeat (apply Forall_cons; split); [..|done]; cbn [fst snd]; offsets;
    repeat first [rewrite ld32_st32; reflexivity | rewrite ld32_st32_ne by lia
      | rewrite ld32_st16; [reflexivity|rewrite ?st16_other by lia; apply Hz; lia..] | rewrite ld32_st16_ne by lia].
  unfold ld32. rewrite !Hz by lia. reflexivity.
Qed.

(** ** userinit *)

Section first.
  Variables kend q forkret_addr trapret_addr initcode_start initcode_size : Z.
  Hypothesis q_range : 0 < q < 57088.
  Hypothesis size_range : 0 ≤ initcode_size < PGSIZE.
  Hypothesis start_range : initcode_start + initcode_size ≤ kend.
  Variable waits : nat.

#[local] Existing Instance kernel_io.
Abbreviation dev_read := (devsw_read (HB := log_io waits) waits).
Abbreviation fops := (@file_ops (cst lst) (kernel_io waits) kend waits dev_read (kernel_initlog waits)).
Abbreviation files := (filest (cst lst)).
Abbreviation core_of := (core_of (HB := kernel_io waits)).
Abbreviation set_core := (set_core (HB := kernel_io waits)).

Lemma core_of_set c (s : files) : core_of (set_core c s) = c.
Proof. done. Qed.
Lemma put_twice c c' (s : files) : set_core c (set_core c' s) = set_core c s.
Proof. done. Qed.

Lemma set_core_id (s : files) : set_core (core_of s) s = s.
Proof. by destruct s as [[[[[] ?] ?] ?] ?]. Qed.

Lemma cc_bind {A B} (m : M core A) (k : A → M files B) (s : files) c a c' :
  m c = Ret a c' → bind (@cc _ fops _ m) k (set_core c s) = k a (set_core c' s).
Proof. intros E. apply bind_Ret. unfold cc. rewrite (zoom_Ret _ _ _ _ a c'); [done|exact E]. Qed.

Lemma ck_bind {A B} (m : M kst A) (f : A → M files B) (s : files) c a k :
  m (ck c) = Ret a k → bind (@cc _ fops _ (kk m)) f (set_core c s) = f a (set_core (set_ck k c) s).
Proof. intros E. apply cc_bind. by apply kk_Ret. Qed.

(** What userinit does to the slot and the trap frame. *)
Lemma frame_run {B} (k : kst) (p : proc) (ps : list proc) a n t cu kp cr e f (r : M files B) (s : files) :
  (@cc _ fops _ (pupd 0 (set_sz PGSIZE));;
   t <- @cc _ fops _ (pget 0 tf);;
   @cc _ fops _ (kk (kmemset t 0 TF_SIZE));;
   @cc _ fops _ (kk (storeh (t + tf_cs) (Z.lor (Z.shiftl SEG_UCODE 3) DPL_USER)));;
   @cc _ fops _ (kk (storeh (t + tf_ds) (Z.lor (Z.shiftl SEG_UDATA 3) DPL_USER)));;
   @cc _ fops _ (kk (storeh (t + tf_es) (Z.lor (Z.shiftl SEG_UDATA 3) DPL_USER)));;
   @cc _ fops _ (kk (storeh (t + tf_ss) (Z.lor (Z.shiftl SEG_UDATA 3) DPL_USER)));;
   @cc _ fops _ (kk (storew (t + tf_eflags) FL_IF));;
   @cc _ fops _ (kk (storew (t + tf_esp) PGSIZE));;
   @cc _ fops _ (kk (storew (t + tf_eip) 0));;
   @cc _ fops _ (pupd 0 (λ x, set_gid DEFAULT_GID (set_uid DEFAULT_UID (set_parent (Some 0%nat) x))));;
   @cc _ fops _ (pupd 0 (set_pname (str "initcode")));;
   r) (set_core (mk_core k (p :: ps) a n t cu kp cr e f) s) =
  r (set_core (mk_core (set_kram (user_frame (kram k) (tf p)) k)
    (set_pname (str "initcode") (set_gid DEFAULT_GID (set_uid DEFAULT_UID (set_parent (Some 0%nat) (set_sz PGSIZE p)))) :: ps) a n t cu kp cr e f) s).
Proof. reflexivity. Qed.

(** The first inode of the cache becomes the root. *)
Definition root_icache : list inode := mk_inode DEV ROOTINO 1 0 0 0 0 0 0 (addrs inode0) :: replicate (pred NINODE) inode0.

Lemma namei_root (s : files) c : kheld (ck c) = [] → icache (fsys s) = replicate NINODE inode0 →
  returns (fo_namei (FileOps := fops) (str "/")) (set_core c s) (λ r s', r = Some 0%nat ∧
    s' = set_core c (set_fsys (set_icache root_icache (fsys s)) s)).
Proof.
  intros Hh Hi. destruct s as [[fb0 sb0 ic] ft]. cbn in Hi. subst ic. destruct c as [[h r u f o] ? ? ? ? ? ? ? ? ?]. cbn in Hh. subst h.
  eexists _, _. split; [reflexivity|]. split; reflexivity.
Qed.

(** Process 0 as userinit leaves it. *)
Definition first_proc (ks dir t : Z) : proc :=
  set_state RUNNABLE (set_cwd (Some 0%nat) (set_pname (str "initcode") (set_gid DEFAULT_GID (set_uid DEFAULT_UID (set_parent (Some 0%nat)
    (set_sz PGSIZE (set_pgdir dir (fresh_slot ks 1 t proc0)))))))).

Definition first_core (ks dir : Z) (k3 : kst) (c : core) : core :=
  mk_core (set_kram (user_frame (kram k3) (ks + KSTACKSIZE - TF_SIZE)) k3) (first_proc ks dir (ticks c) :: replicate (pred NPROC) proc0)
    (Some 0%nat) 2 (ticks c) (cur c) (kpgdir c) (cr3 c) (esp0 c) (first_fork c).

Lemma userinit_run (s : files) ks l :
  let c := core_of s in
  ptable c = replicate NPROC proc0 → nextpid c = 1 → kheld (ck c) = [] → icache (fsys s) = replicate NINODE inode0 →
  free_rel kend (ck c) (ks :: l) → (67 ≤ length l)%nat →
  ∃ dir k3 p l' T, first_space kend q forkret_addr trapret_addr initcode_start initcode_size (ck c) ks l dir k3 p l' T ∧
    @userinit _ fops (KERNLINK + PGSIZE * q) forkret_addr trapret_addr initcode_start initcode_size s =
      Ret tt (set_core (first_core ks dir k3 c) (set_fsys (set_icache root_icache (fsys s)) s)).
Proof.
  intros c Hp Hn Hh Hi Hf Hl. assert (kunlocked (ck c)) as Hu by (right; rewrite Hh; apply not_elem_of_nil).
  destruct (first_space_made kend q q_range forkret_addr trapret_addr initcode_start initcode_size size_range start_range (ck c) ks l Hu Hf Hl)
    as (k1 & dir & k2 & k3 & p & l' & T & E1 & K1 & Em1 & E2 & E3 & HF).
  exists dir, k3, p, l', T. split; [done|]. assert (page_ok kend ks) as Hks by (destruct Hf as (_ & _ & Hok); by inversion Hok).
  pose proof (page_ok_nonzero _ _ Hks) as Hks0%Z.eqb_neq.
  assert (page_ok kend dir) as Hd by (eapply pt_inv_dir; apply HF). pose proof (page_ok_nonzero _ _ Hd) as Hd0.
  assert (kheld k3 = []) as Hh3 by (destruct (fs_frame _ _ _ _ _ _ _ _ _ _ _ _ _ _ HF) as [-> _]; done).
  pose proof (allocproc_run forkret_addr trapret_addr c 0%nat ks k1) as EA. cbv zeta in EA. rewrite Hn in EA.
  rewrite <- (set_core_id s) at 1. fold c. unfold userinit.
  rewrite (cc_bind _ _ _ _ _ _ (EA ltac:(unfold held; rewrite Hh; apply not_elem_of_nil) ltac:(by rewrite Hp) E1 Hks0 ltac:(by destruct K1 as [-> _]))).
  rewrite Hp. change (alter _ _ _) with (fresh_slot ks 1 (ticks c) proc0 :: replicate (pred NPROC) proc0). change (s32 (1 + 1)) with 2.
  rewrite (cc_bind (modify _) _ _ _ tt _ eq_refl). cbn [set_initproc ck ptable initproc nextpid ticks cur kpgdir cr3 esp0 first_fork].
  rewrite (ck_bind (setupkvm _) _ _ _ dir k2) by exact E2. cbn [set_ck ck ptable initproc nextpid ticks cur kpgdir cr3 esp0 first_fork].
  rewrite (cc_bind (pupd _ _) _ _ _ tt _ eq_refl), Hd0, (bind_Ret (ret tt) _ _ _ _ eq_refl).
  cbn [set_ptable ck ptable initproc nextpid ticks cur kpgdir cr3 esp0 first_fork]. change (alter _ _ _) with (set_pgdir dir (fresh_slot ks 1 (ticks c) proc0) :: replicate (pred NPROC) proc0).
  rewrite (ck_bind (inituvm _ _ _) _ _ _ tt k3) by exact E3. cbn [set_ck ck ptable initproc nextpid ticks cur kpgdir cr3 esp0 first_fork].
  etrans; [apply frame_run|].
  match goal with |- context [set_core ?c _] => destruct (namei_root s c) as (r & s' & En & -> & ->); [done|done|] end.
  rewrite (bind_Ret _ _ _ _ _ En).
  reflexivity.
Qed.

End first.

(** ** Runs that cannot fail *)

Definition succeeds {S A} (m : M S A) : Prop := ∀ s, ∃ a s', m s = Ret a s'.

Section succeeds.
  Context {S : Type}.

Lemma succeeds_bind {A B} (m : M S A) (f : A → M S B) : succeeds m → (∀ a, succeeds (f a)) → succeeds (bind m f).
Proof. intros Hm Hf s. destruct (Hm s) as (a & s1 & E). rewrite (bind_Ret _ _ _ _ _ E). apply Hf. Qed.
Lemma succeeds_ret {A} (a : A) : succeeds (ret a : M S A).
Proof. by intros s; exists a, s. Qed.
Lemma succeeds_gets {A} (f : S → A) : succeeds (gets f).
Proof. by intros s; exists (f s), s. Qed.
Lemma succeeds_modify (f : S → S) : succeeds (modify f).
Proof. by intros s; exists tt, (f s). Qed.
Lemma succeeds_if {A} (b : bool) (m1 m2 : M S A) : succeeds m1 → succeeds m2 → succeeds (if b then m1 else m2).
Proof. by destruct b. Qed.

End succeeds.

Create HintDb succeeds discriminated.
#[export] Hint Resolve succeeds_bind succeeds_ret succeeds_gets succeeds_modify succeeds_if : succeeds.
Ltac succeed := eauto 50 with succeeds.

Section device_runs.
  Variables (lread inb : Z → nat → Z) (polls : nat).

Lemma outb_succeeds port v : succeeds (outb port v).
Proof. unfold outb. succeed. Qed.
Lemma read_reg_succeeds f i : succeeds (read_reg f i).
Proof. unfold read_reg. succeed. Qed.
#[local] Hint Resolve outb_succeeds read_reg_succeeds : succeeds.
Lemma lapicw_succeeds i v : succeeds (lapicw lread i v).
Proof. unfold lapicw. succeed. Qed.
Lemma picsetmask_succeeds m : succeeds (picsetmask m).
Proof. unfold picsetmask. succeed. Qed.
#[local] Hint Resolve lapicw_succeeds picsetmask_succeeds : succeeds.
Lemma picenable_succeeds irq : succeeds (picenable irq).
Proof. unfold picenable. succeed. Qed.
#[local] Hint Resolve picenable_succeeds : succeeds.
Lemma picinit_succeeds : succeeds picinit.
Proof. unfold picinit. succeed. Qed.
Lemma timerinit_succeeds : succeeds timerinit.
Proof. unfold timerinit. succeed. Qed.
Lemma ioapicwrite_succeeds r v : succeeds (ioapicwrite r v).
Proof. unfold ioapicwrite. succeed. Qed.
#[local] Hint Resolve ioapicwrite_succeeds : succeeds.
Lemma ioapic_disable_succeeds n i : succeeds (ioapic_disable n i).
Proof. revert i. induction n as [|n IH]; intros i; cbn [ioapic_disable]; succeed. Qed.
#[local] Hint Resolve ioapic_disable_succeeds : succeeds.
Lemma ioapicinit_succeeds mp id : succeeds (ioapicinit mp id).
Proof. unfold ioapicinit, ioapicread. succeed. Qed.
Lemma ioapicenable_succeeds mp irq c : succeeds (ioapicenable mp irq c).
Proof. unfold ioapicenable. succeed. Qed.
Lemma cpunum_succeeds fl ra a : succeeds (cpunum lread fl ra a).
Proof. unfold cpunum. succeed. Qed.
Lemma startup_ipis_succeeds n id a : succeeds (startup_ipis lread n id a).
Proof. induction n as [|n IH]; cbn [startup_ipis]; succeed. Qed.
#[local] Hint Resolve startup_ipis_succeeds ioapicenable_succeeds : succeeds.
Lemma lapicstartap_succeeds id a : succeeds (lapicstartap lread id a).
Proof. unfold lapicstartap. succeed. Qed.
Lemma uart_ready_succeeds n : succeeds (uart_ready inb n).
Proof. induction n as [|n IH]; cbn [uart_ready]; succeed. Qed.
#[local] Hint Resolve uart_ready_succeeds : succeeds.
Lemma uart_puts_succeeds l : succeeds (uart_puts inb l).
Proof. induction l as [|c l IH]; cbn [uart_puts]; unfold dev_uartputc; succeed. Qed.
#[local] Hint Resolve uart_puts_succeeds : succeeds.
Lemma uartinit_succeeds mp : succeeds (uartinit inb mp).
Proof. unfold uartinit. succeed. Qed.

(** The local APIC delivers within [polls] reads of the register. *)
Hypothesis delivers : ∀ n, ∃ k, (k < polls)%nat ∧ Z.land (lread ICRLO (n + k)%nat) DELIVS = 0.

Lemma wait_delivery_run fuel k (s : devst) :
  (k < fuel)%nat → Z.land (lread ICRLO (reads s + k)%nat) DELIVS = 0 → ∃ s', wait_delivery lread fuel s = Ret tt s'.
Proof.
  revert k s. induction fuel as [|fuel IH]; intros k s Hk Hd; [lia|]. cbn [wait_delivery]. unfold read_reg, bind, gets, modify, ret. cbn [obind].
  destruct (Z.land (lread ICRLO (reads s)) DELIVS =? 0) eqn:E; [by eexists|].
  destruct k as [|k]; [rewrite Nat.add_0_r in Hd; by rewrite Hd in E|].
  apply (IH k); [lia|]. cbn. by replace (S (reads s + k)) with (reads s + S k)%nat by lia.
Qed.

Lemma lapicinit_succeeds a : succeeds (lapicinit lread polls a).
Proof.
  assert (succeeds (wait_delivery lread polls)) as Hw.
  { intros s. destruct (delivers (reads s)) as (k & Hk & Hd). exists tt. by apply (wait_delivery_run polls k). }
  unfold lapicinit. succeed.
Qed.

End device_runs.
#[export] Hint Resolve picinit_succeeds timerinit_succeeds ioapicinit_succeeds ioapicenable_succeeds cpunum_succeeds lapicstartap_succeeds
  uartinit_succeeds lapicinit_succeeds picenable_succeeds : succeeds.

(** ** Before and after *)

Section states.
  Variables kend data forkret_addr trapret_addr : Z.
  Variables initcode_start initcode_size : Z.
  Variable waits : nat.
  Variable m0 : mem.                  (* the memory the boot loader leaves *)

Abbreviation dev_read := (devsw_read (HB := log_io waits) waits).
Abbreviation fops := (@file_ops (cst lst) (kernel_io waits) kend waits dev_read (kernel_initlog waits)).
Abbreviation C y := (core_of (HB := kernel_io waits) (y_files y)).
Abbreviation K y := (ck (C y)).

(** The kernel as the boot loader leaves it. *)
Record power_on (y : sys) : Prop := {
  po_bss : bss (HB := kernel_io waits) (y_files y);
  po_mem : kram (K y) = m0;
  po_free : freelist (K y) = 0;
  po_held : kheld (K y) = [];
  po_pid : nextpid (C y) = 1;
  po_icache : icache (fsys (y_files y)) = replicate NINODE inode0
}.

(** What main leaves to the scheduler: [ks] is the kernel stack of process 0,
    [dir] its page directory, [p] its only page, [D] the kernel's directory. *)
Record started (y : sys) (ks dir p D : Z) : Prop := {
  st_machine : kernel_booted kend waits (mk_machine (y_files y) (λ _, Some (@forkret _ fops)) None);
  st_procs : ∃ t, ptable (C y) = first_proc ks dir t :: replicate (pred NPROC) proc0;
  st_init : initproc (C y) = Some 0%nat ∧ icache (fsys (y_files y)) = root_icache;
  st_regs : Forall (λ r, ld32 (kram (K y)) (ks + KSTACKSIZE - TF_SIZE + r.1) = r.2) user_regs;
  st_stack : ld32 (kram (K y)) (ks + KSTACKSIZE - TF_SIZE - 4) = u32 trapret_addr ∧
    ld32 (kram (K y)) (ks + KSTACKSIZE - TF_SIZE - 4 - CONTEXT_SIZE + 16) = u32 forkret_addr;
  st_user : ∀ va, 0 ≤ va < W32 → pte_at (kram (K y)) dir va = if va <? PGSIZE then Some (v2p p + 7) else kernel_pte data va;
  st_code : ∀ i, 0 ≤ i < PGSIZE → kram (K y) (p + i) = if i <? initcode_size then m0 (initcode_start + i) else 0;
  st_kernel : cr3 (C y) = v2p D ∧ kpgdir (C y) = D ∧ ∀ va, 0 ≤ va < W32 → pte_at (kram (K y)) D va = kernel_pte data va;
  st_free : ∃ l, free_rel kend (K y) l ∧ NoDup (ks :: p :: dir :: D :: l)
}.

End states.

(** ** The stages of main *)

Section boot.
  Variables kend q forkret_addr trapret_addr : Z.
  Variables initcode_start initcode_size : Z.
  Variables entryother_start entryother_size mpenter_addr entrypgdir_addr : Z.
  Variables cpus_addr idt_addr : Z.
  Variable vectors : nat → Z.
  Variable image : list (list Z).
  Variable waits : nat.
  Variables (lread inb : Z → nat → Z) (inb23 : Z) (mp_fuel polls : nat).
  Variables flags ra : Z.
  Variable ap_started : Z → nat → Z.

Abbreviation LIMIT := (KERNBASE + 4194304).
Abbreviation data := (KERNLINK + PGSIZE * q).
Abbreviation dev_read := (devsw_read (HB := log_io waits) waits).
Abbreviation fops := (@file_ops (cst lst) (kernel_io waits) kend waits dev_read (kernel_initlog waits)).
Abbreviation C y := (core_of (HB := kernel_io waits) (y_files y)).
Abbreviation K y := (ck (C y)).
Abbreviation put_core c y := (set_y_files (set_core (HB := kernel_io waits) c (y_files y)) y).
Abbreviation put_kst k y := (put_core (set_ck k (C y)) y).

Hypothesis q_range : 0 < q.
Hypothesis kend_range : data ≤ kend ∧ kend + PGSIZE * 74 ≤ LIMIT.
Hypothesis size_range : 0 ≤ initcode_size < PGSIZE.
Hypothesis start_range : KERNLINK ≤ initcode_start ∧ initcode_start + initcode_size ≤ kend.
Hypothesis other_range : 0 ≤ entryother_size ≤ PGSIZE.
Hypothesis delivers : ∀ n, ∃ k, (k < polls)%nat ∧ Z.land (lread ICRLO (n + k)%nat) DELIVS = 0.
Hypothesis others_start : ∀ c n, ∃ k, (k < polls)%nat ∧ ap_started c (n + k)%nat ≠ 0.

Lemma q_small : 0 < q < 57088.
Proof. unfold KERNLINK in *. num. lia. Qed.

Lemma yc_Ret {A} (m : M core A) y a c : m (C y) = Ret a c → yc waits m y = Ret a (put_core c y).
Proof. intros E. unfold yc, yf. apply zoom_Ret. exact (xc_Ret (HB := kernel_io waits) m (y_files y) a c E). Qed.

Lemma yk_Ret {A} (m : M kst A) y a k : m (K y) = Ret a k → yk waits m y = Ret a (put_kst k y).
Proof. intros E. apply yc_Ret. by apply kk_Ret. Qed.

(** From kvmalloc to userinit: no process yet, the kernel's page table in use,
    and the loaded image of the kernel, [m0], intact. *)
Variable m0 : mem.

Record early (y : sys) (l : list Z) (D : Z) (T : gmap Z Z) : Prop := {
  e_bss : bss (HB := kernel_io waits) (y_files y);
  e_held : kheld (K y) = [];
  e_pid : nextpid (C y) = 1;
  e_icache : icache (fsys (y_files y)) = replicate NINODE inode0;
  e_kpgdir : kpgdir (C y) = D ∧ cr3 (C y) = v2p D;
  e_pt : pt_inv kend (K y) l D T (E4 q);
  e_image : ∀ a, KERNLINK ≤ a < kend → kram (K y) a = m0 a
}.

Lemma early_put y l D T k l' : early y l D T → kheld k = [] → bytes (kram k) → pt_inv kend k l' D T (E4 q) →
  (∀ a, KERNLINK ≤ a < kend → kram k a = kram (K y) a) → early (put_kst k y) l' D T.
Proof.
  intros [[B1 B2 B3 B4] H2 H3 H4 H5 H6 H7] Hh Hb Hp Hm. split; [split|..]; try done. intros a Ha. cbn. rewrite Hm by done. by apply H7.
Qed.

(** Stages that leave this alone. *)
Definition inert {A} (m : M sys A) : Prop :=
  ∀ y, ∃ a y', m y = Ret a y' ∧ y_mp y' = y_mp y ∧ ∀ l D T, early y l D T → early y' l D T.

Lemma inert_bind {A B} (m : M sys A) (f : A → M sys B) : inert m → (∀ a, inert (f a)) → inert (bind m f).
Proof.
  intros Hm Hf y. destruct (Hm y) as (a & y1 & E1 & M1 & H1). destruct (Hf a y1) as (b & y2 & E2 & M2 & H2).
  exists b, y2. rewrite (bind_Ret _ _ _ _ _ E1). split_and!; [done|congruence|auto].
Qed.

(** What changes neither the layers nor the tables of mp.c. *)
Lemma inert_apart {A} (m : M sys A) :
  (∀ y, ∃ a y', m y = Ret a y' ∧ y_files y' = y_files y ∧ y_mp y' = y_mp y) → inert m.
Proof.
  intros Hm y. destruct (Hm y) as (a & y' & E & Ef & Em). exists a, y'. split_and!; [done|done|].
  intros l D T [H1 H2 H3 H4 H5 H6 H7]. split; rewrite Ef; done.
Qed.

Lemma inert_ret {A} (a : A) : inert (ret a).
Proof. apply inert_apart. intros y. by exists a, y. Qed.
Lemma inert_gets {A} (f : sys → A) : inert (gets f).
Proof. apply inert_apart. intros y. by exists (f y), y. Qed.
Lemma inert_with_mp {A B} (f : mpst → A) (k : A → M sys B) : (∀ a, inert (k a)) → inert (with_mp f k).
Proof. intros Hk. apply inert_bind; [apply inert_gets|done]. Qed.
Lemma inert_if {A} (b : bool) (m1 m2 : M sys A) : inert m1 → inert m2 → inert (if b then m1 else m2).
Proof. by destruct b. Qed.
Lemma inert_modify (f : sys → sys) : (∀ y, y_files (f y) = y_files y ∧ y_mp (f y) = y_mp y) → inert (modify f).
Proof. intros Hf. apply inert_apart. intros y. exists tt, (f y). by destruct (Hf y). Qed.
Lemma inert_dev {A} (m : M devst A) : succeeds m → inert (yd m).
Proof. intros Hm. apply inert_apart. intros y. destruct (Hm (y_dev y)) as (a & s & E). eexists a, _. split; [by apply zoom_Ret|done]. Qed.
Lemma inert_lock lk name : inert (zoom y_locks set_y_locks (initlock lk name)).
Proof. apply inert_apart. intros y. by eexists _, _. Qed.

Lemma inert_printf fmt args strs : inert (yc waits (kprintf fmt args strs)).
Proof.
  intros y. eexists tt, _. split; [by apply yc_Ret|]. split; [done|]. intros l D T [H1 H2 H3 H4 H5 H6 H7]. by split; [destruct H1; split|..].
Qed.

Lemma binit_loop_core n i (s : bst) : ∃ s', binit_loop n i s = Ret tt s' ∧ bc s' = bc s.
Proof.
  revert i s. induction n as [|n IH]; intros i s; cbn [binit_loop]; [by eexists|].
  unfold bind, bget_field, bupd, gets, modify. cbn [obind]. match goal with |- ∃ s', binit_loop _ _ ?t = _ ∧ _ => destruct (IH (S i) t) as (s' & -> & E) end.
  exists s'. split; [done|]. by rewrite E.
Qed.

(** The buffers and the disk are not part of it. *)
Lemma inert_disk {A} (m : M bst A) : (∀ s, ∃ a s', m s = Ret a s' ∧ bc s' = bc s) → inert (yb m).
Proof.
  intros Hm y. destruct (Hm (lb (cs (fb (fsys (y_files y)))))) as (a & s' & E & Ec). unfold yb, yf, xf, ff, ll.
  eexists a, _. split; [repeat (apply zoom_Ret); exact E|]. split; [done|]. intros l D T [[B1 B2 B3 B4] H2 H3 H4 H5 H6 H7].
  split; [split|..]; try done; cbn; rewrite ?Ec; done.
Qed.

Create HintDb inert discriminated.
#[local] Hint Resolve inert_bind inert_ret inert_gets inert_with_mp inert_if inert_dev inert_lock inert_printf : inert.
#[local] Hint Extern 1 (inert (modify _)) => apply inert_modify; done : inert.
#[local] Hint Extern 1 (succeeds _) => succeed : inert.
Ltac inerts := eauto 30 with inert.

Lemma cpunum_inert : inert (y_cpunum lread flags ra).
Proof. unfold y_cpunum. inerts. Qed.
#[local] Hint Resolve cpunum_inert : inert.
Lemma seginit_inert : inert (y_seginit cpus_addr lread flags ra).
Proof. unfold y_seginit. inerts. Qed.
Lemma lapicinit_inert : inert (y_lapicinit lread polls).
Proof. unfold y_lapicinit. inerts. Qed.
Lemma consoleinit_inert : inert consoleinit.
Proof. unfold consoleinit. inerts. Qed.
Lemma mpmain_inert : inert (mpmain idt_addr waits).
Proof. unfold mpmain. inerts. Qed.
Lemma mem_ideinit_inert : inert (yb (mem_ideinit image)).
Proof. apply inert_disk. by intros s; eexists _, _. Qed.
Lemma binit_inert : inert (yb binit).
Proof.
  apply inert_disk. intros s. unfold binit, bind, bupd, modify. cbn [obind].
  match goal with |- context [binit_loop _ _ ?t] => destruct (binit_loop_core NBUF 0 t) as (s' & -> & E) end. exists tt, s'. by rewrite E.
Qed.
Lemma uartinit_inert : inert (y_uartinit inb).
Proof.
  unfold y_uartinit. apply inert_bind; [inerts|]. intros _. apply inert_bind; [inerts|]. intros u y. eexists tt, _. split; [done|]. split; [done|].
  intros l D T [[B1 B2 B3 B4] H2 H3 H4 H5 H6 H7]. split; [split|..]; done.
Qed.

(** *** Memory *)

Lemma freerange_keeps sw p vend : keeps sw kle (freerange kend p vend).
Proof.
  unfold freerange. generalize (Z.to_nat (vend / PGSIZE + 1)) (PGROUNDUP p). intros fuel. induction fuel as [|fuel IH]; intros a; cbn [freerange_loop]; keep.
Qed.

Lemma keeps_Ret {S A} sw (le : S → S → Prop) (m : M S A) s a s' : keeps sw le m → m s = Ret a s' → le s s'.
Proof. intros Hm E. specialize (Hm s). by rewrite E in Hm. Qed.

Abbreviation low l := (Forall (λ p, p + PGSIZE ≤ LIMIT) l).

Lemma kend_page : kend ≤ PGROUNDUP kend < kend + PGSIZE.
Proof.
  rewrite PGROUNDUP_eq by (unfold KERNLINK in *; num; lia). unfold KERNLINK in *. num. Z.div_mod_to_equations. lia.
Qed.

Lemma kinit1_run y : power_on waits m0 y → ∃ k l, kinit1 kend kend LIMIT (K y) = Ret tt k ∧
  kheld k = [] ∧ use_lock k = 0 ∧ bytes (kram k) ∧ (∀ a, a < kend → kram k a = m0 a) ∧ free_rel kend k l ∧ low l ∧ (73 ≤ length l)%nat.
Proof.
  intros [[_ _ Hb _] Hm Hf Hh _ _]. pose proof kend_page as Hp. unfold kinit1. set (k0 := set_use_lock 0 (K y)).
  rewrite (bind_Ret (modify _) _ _ tt k0) by done.
  destruct (freerange_frees_range kend kend LIMIT k0 []) as (k & E & Hr & Hk & Hu & Hx).
  { unfold KERNLINK in *. num. lia. }
  { unfold KERNLINK in *. num. lia. }
  { by left. }
  { split_and!; [done|constructor|constructor]. }
  { intros x Hx. by apply elem_of_nil in Hx. }
  exists k, (reverse (pages_from (PGROUNDUP kend) (Z.to_nat ((LIMIT - PGROUNDUP kend) / PGSIZE)))). rewrite app_nil_r in Hr.
  split_and!; [done|by rewrite Hk|by rewrite Hu| | |done| |].
  - exact (keeps_Ret false kle _ _ _ _ (freerange_keeps false kend LIMIT) E Hb).
  - intros a Ha. rewrite Hx by lia. by rewrite <- Hm.
  - apply Forall_forall. intros x (i & Hi & ->)%elem_of_reverse%elem_of_pages_from. unfold PGSIZE in *. Z.div_mod_to_equations. lia.
  - rewrite length_reverse. unfold pages_from. rewrite length_fmap, length_seq. unfold PGSIZE in *. Z.div_mod_to_equations. lia.
Qed.

Lemma memory_ready y : power_on waits m0 y → ∃ y1 y2 l D T, yk waits (kinit1 kend kend LIMIT) y = Ret tt y1 ∧ yc waits (kvmalloc data) y1 = Ret tt y2 ∧
  early y2 l D T ∧ low (D :: vals T ++ l) ∧ (8 ≤ length l)%nat ∧ (∀ a, a < kend → kram (K y2) a = m0 a) ∧ y_mp y2 = y_mp y.
Proof.
  intros Hy. destruct (kinit1_run y Hy) as (k1 & L & E1 & Hh1 & Hu1 & Hb1 & Hm1 & Hf1 & Hl1 & Hn1).
  pose proof (setupkvm_ok kend q q_small k1 L (or_introl Hu1) Hf1) as H. rewrite (proj2 (Nat.leb_le _ _)) in H by lia.
  destruct H as (D & k2 & l & T & E2 & K2 & M2 & Hi & _ & HS & HL). destruct Hf1 as (_ & _ & Hok1). destruct Hy as [[B1 B2 B3 B4] _ _ _ Hp Hic].
  assert (∀ a, a < kend → kram k2 a = m0 a) as Hm2.
  { intros a Ha. rewrite M2; [by apply Hm1|]. intros p Hin. eapply Forall_forall in Hok1 as (_ & Hp' & _); [|exact Hin]. unfold in_page. lia. }
  eexists _, _, l, D, T. split; [apply yk_Ret, E1|]. split.
  { apply yc_Ret. unfold kvmalloc. rewrite (bind_Ret _ _ _ _ _ (kk_Ret _ (C (put_kst k1 y)) _ _ E2)). done. }
  split_and!; [|by rewrite <- HL| |done|done].
  - split; [split|..]; try done; cbn.
    + exact (keeps_Ret false kle _ _ _ _ (setupkvm_keeps false data) E2 Hb1).
    + by destruct K2 as [-> _].
    + intros a Ha. apply Hm2. lia.
  - apply Permutation_length in HL. cbn in HL. rewrite length_app, vals_length in HL. lia.
Qed.

(** *** The other processors *)

Lemma inert_step {A B} (m : M sys A) (f : A → M sys B) y l D T (R : outcome sys B → Prop) :
  inert m → early y l D T → (∀ a y', y_mp y' = y_mp y → early y' l D T → R (f a y')) → R (bind m f y).
Proof. intros Hm He Hk. destruct (Hm y) as (a & y' & E & Em & H). rewrite (bind_Ret _ _ _ _ _ E). auto. Qed.

(** Writes below the image of the kernel. *)
Lemma inert_low m f : keeps false kle m → (∀ k, m k = Ret tt (set_kram (f (kram k)) k)) → (∀ r a, KERNLINK ≤ a → f r a = r a) → inert (yk waits m).
Proof.
  intros Hm E Hf y. eexists tt, _. split; [apply yk_Ret, E|]. split; [done|]. intros l D T He.
  assert (∀ p x, page_ok kend p → in_page p x → f (kram (K y)) x = kram (K y) x) as Hx.
  { intros p x (_ & Hp & _) Hin. apply Hf. unfold in_page, KERNLINK in *. num. lia. }
  pose proof (e_pt _ _ _ _ He) as Hi. pose proof Hi as (Hu & Hfr & Hn & Hok & _). eapply early_put; [exact He|apply He| | |].
  - exact (keeps_Ret false kle _ _ _ _ Hm (E _) (bss_mem _ (e_bss _ _ _ _ He))).
  - eapply pt_inv_change; [|exact Hu| |exact Hn|exact Hi].
    + intros p x Hp Hin. eapply Forall_forall in Hok; [|exact Hp]. by eapply Hx.
    + apply free_rel_frame; [|done]. intros p x Hp Hin. destruct Hfr as (_ & _ & Hok'). eapply Forall_forall in Hok'; [|exact Hp]. by eapply Hx.
  - intros a Ha. cbn. apply Hf. lia.
Qed.

Lemma store_inert a v : a + 4 ≤ KERNLINK → inert (yk waits (storew a v)).
Proof. intros Ha. apply (inert_low _ (λ r, st32 r a v)); [keep|done|]. intros r x Hx. apply st32_other. lia. Qed.

Lemma entry_code_inert : inert (yk waits (kmemmove (p2v 28672) entryother_start entryother_size)).
Proof.
  apply (inert_low _ (λ r, memmove r (p2v 28672) entryother_start entryother_size)); [keep|done|]. intros r x Hx. rewrite memmove_bytes.
  change (p2v 28672) with (KERNBASE + 28672). unfold KERNLINK in Hx. num. case_test; lia || done.
Qed.

Lemma wait_started_inert c : inert (wait_started ap_started polls c).
Proof.
  apply inert_apart. intros y. destruct (others_start c (y_polls y)) as (k & Hk & Hs). revert k y Hk Hs.
  generalize polls. intros fuel. induction fuel as [|fuel IH]; intros k y Hk Hs; [lia|]. cbn [wait_started]. unfold bind, gets, modify. cbn [obind].
  destruct (ap_started c (y_polls y) =? 0) eqn:E; [|by eexists _, _]. destruct k as [|k]; [rewrite Nat.add_0_r in Hs; bools; done|].
  destruct (IH k (set_y_polls (S (y_polls y)) y)) as (a & y' & -> & Ef & Em); [lia|cbn; by replace (S (y_polls y + k)) with (y_polls y + S k)%nat by lia|].
  by exists a, y'.
Qed.

Lemma stack_run y p l D T : early y (p :: l) D T → ∃ y', yk waits kalloc y = Ret p y' ∧ early y' l D T ∧ y_mp y' = y_mp y.
Proof.
  intros He. pose proof (e_pt _ _ _ _ He) as Hi. pose proof Hi as (Hu & Hf & Hn & _).
  destruct (kalloc_run_ok kend (K y) l p Hu Hf) as (k & E & Hf' & Em & Kf). eexists. split; [apply yk_Ret, E|]. split; [|done].
  eapply early_put; [exact He|by destruct Kf as [-> _]; apply He|rewrite Em; apply He| |by rewrite Em].
  eapply pt_inv_change; [by rewrite Em|by eapply kframe_unlocked|done| |exact Hi].
  rewrite app_comm_cons, <- Permutation_middle, NoDup_cons in Hn. by destruct Hn.
Qed.

Abbreviation others_loop := (startothers_loop mpenter_addr entrypgdir_addr waits lread polls flags ra ap_started).

Lemma startothers_loop_run n c y l D T : early y l D T → (n ≤ length l)%nat →
  ∃ y' l', others_loop n c y = Ret tt y' ∧ early y' l' D T ∧ (∃ ps, l = ps ++ l') ∧ y_mp y' = y_mp y.
Proof.
  revert c y l. induction n as [|n IH]; intros c y l He Hl; cbn [startothers_loop].
  { exists y, l. split_and!; [done|done|by exists []|done]. }
  apply (inert_step _ _ _ _ _ _ (λ o, ∃ y' l', o = _ ∧ _) cpunum_inert He). intros me y1 M1 He1. rewrite <- M1. clear He M1.
  destruct (c =? me); [apply IH; [done|lia]|]. destruct l as [|p l]; [cbn in Hl; lia|].
  destruct (stack_run y1 p l D T He1) as (y2 & E2 & He2 & M2). rewrite (bind_Ret _ _ _ _ _ E2), <- M2. clear He1 E2 M2.
  do 3 (eapply (inert_step _ _ _ _ _ _ (λ o, ∃ y' l', o = _ ∧ _)); [apply store_inert; by vm_compute|eassumption|]; intros ? ? <- ?).
  eapply (inert_step _ _ _ _ _ _ (λ o, ∃ y' l', o = _ ∧ _)); [apply inert_gets|eassumption|]; intros ? ? <- ?.
  eapply (inert_step _ _ _ _ _ _ (λ o, ∃ y' l', o = _ ∧ _)); [apply inert_dev; succeed|eassumption|]; intros ? ? <- ?.
  eapply (inert_step _ _ _ _ _ _ (λ o, ∃ y' l', o = _ ∧ _)); [apply wait_started_inert|eassumption|]; intros ? y3 <- He3.
  destruct (IH (c + 1) y3 l He3) as (y4 & l' & E & He' & [ps ->] & M'); [cbn in Hl; lia|]. exists y4, l'. split_and!; [done|done|by exists (p :: ps)|done].
Qed.

(** *** The rest of memory *)

Lemma kinit2_run y l D T : early y l D T → low (D :: vals T ++ l) →
  ∃ y' l', yk waits (kinit2 kend LIMIT (KERNBASE + PHYSTOP)) y = Ret tt y' ∧ early y' l' D T ∧ (68 ≤ length l')%nat ∧ y_mp y' = y_mp y.
Proof.
  intros He Hlow. pose proof (e_pt _ _ _ _ He) as Hi. pose proof Hi as (Hu & Hf & Hn & _). assert (PGROUNDUP LIMIT = LIMIT) as Ep by reflexivity.
  assert (∀ x, x ∈ D :: vals T ++ l → x + PGSIZE ≤ LIMIT) as Hl by (by apply Forall_forall).
  destruct (freerange_frees_range kend LIMIT (KERNBASE + PHYSTOP) (K y) l) as (k & E & Hr & Hk & Hul & Hx);
    [unfold KERNLINK in *; num; lia|num; lia|done|done| |].
  { intros x Hin. left. rewrite Ep. pose proof (Hl x ltac:(apply elem_of_cons; right; apply elem_of_app; by right)). unfold PGSIZE in *. lia. }
  rewrite Ep in *. set (n := Z.to_nat _) in Hr. set (k' := set_use_lock 1 k).
  assert (n = Z.to_nat 56320) as En by reflexivity. clearbody n.
  exists (put_kst k' y), (reverse (pages_from LIMIT n) ++ l). split_and!.
  - apply yk_Ret. unfold kinit2. by rewrite (bind_Ret _ _ _ _ _ E).
  - eapply early_put; [exact He|by rewrite <- (e_held _ _ _ _ He), <- Hk| | |].
    + exact (keeps_Ret false kle _ _ _ _ (freerange_keeps false _ _) E (bss_mem _ (e_bss _ _ _ _ He))).
    + eapply pt_inv_change; [| |exact Hr| |exact Hi].
      * intros p x Hp Hin. apply Hx. pose proof (Hl p ltac:(rewrite app_comm_cons; apply elem_of_app; by left)). unfold in_page in Hin. lia.
      * right. cbn. rewrite Hk, (e_held _ _ _ _ He). apply not_elem_of_nil.
      * destruct Hr as (_ & Hn' & _). rewrite app_comm_cons, NoDup_app in Hn |- *. destruct Hn as (Hn1 & Hn2 & _). split_and!; [done| |done].
        intros x Hx1. rewrite not_elem_of_app. split; [|by apply Hn2]. rewrite elem_of_reverse, elem_of_pages_from. intros (i & _ & ->).
        pose proof (Hl _ ltac:(rewrite app_comm_cons; apply elem_of_app; by left)). unfold PGSIZE in *. lia.
    + intros a Ha. apply Hx. unfold KERNLINK in *. num. lia.
  - rewrite length_app, length_reverse. unfold pages_from. rewrite length_fmap, length_seq, En. lia.
  - done.
Qed.

Lemma mpmain_run y : ∃ o i b, mpmain idt_addr waits y =
  Ret tt (set_y_started b (set_y_idtr i (put_kst (mk_kst (kheld (K y)) (kram (K y)) (use_lock (K y)) (freelist (K y)) o) y))) ∧ i = idtinit idt_addr.
Proof.
  eexists _, _, _. split; [|reflexivity]. unfold mpmain. rewrite (bind_Ret (gets _) _ _ _ _ eq_refl).
  by erewrite bind_Ret; [|apply yc_Ret; unfold kprintf; apply kk_Ret; reflexivity].
Qed.

(** *** The first process *)

Abbreviation boots := (started kend data forkret_addr trapret_addr initcode_start initcode_size waits m0).

Lemma first_pte p va : page_ok kend p → 0 ≤ va < W32 →
  (let e := mapped (E4 q) 0 1 (v2p p) 6 (va / PGSIZE) in if Z.odd e then Some e else None) =
  if va <? PGSIZE then Some (v2p p + 7) else kernel_pte data va.
Proof.
  intros Hp Hva. cbv zeta. rewrite <- (E4_pte q q_small va Hva). unfold mapped. destruct (Z.ltb_spec va PGSIZE).
  - replace (va / PGSIZE) with 0 by (unfold PGSIZE in *; Z.div_mod_to_equations; lia). change ((0 <=? 0) && (0 <? 0 + 1)) with true. cbv iota.
    rewrite Z.mul_0_r, Z.add_0_r, <- Z.lor_assoc. change (Z.lor 6 PTE_P) with 7.
    rewrite lor_flags by (try lia; apply (v2p_aligned kend _ Hp)). by rewrite (odd_pte kend).
  - destruct ((0 <=? va / PGSIZE) && _) eqn:E; [|done]. bools. unfold PGSIZE in *. Z.div_mod_to_equations. lia.
Qed.

Lemma stack_words m ks : let m' := fresh_stack m ks forkret_addr trapret_addr in let sp := ks + KSTACKSIZE - TF_SIZE - 4 in
  ld32 m' sp = u32 trapret_addr ∧ ld32 m' (sp - CONTEXT_SIZE + 16) = u32 forkret_addr.
Proof.
  cbv zeta. unfold fresh_stack. split; [|by rewrite ld32_st32]. rewrite ld32_st32_ne by (unfold CONTEXT_SIZE; lia).
  rewrite <- (ld32_st32 m (ks + KSTACKSIZE - TF_SIZE - 4) trapret_addr). apply ld32_ext. intros x Hx. rewrite memset_spec by (unfold CONTEXT_SIZE; lia). unfold CONTEXT_SIZE. case_test; lia || done.
Qed.

Abbreviation first_init := (@userinit _ fops data forkret_addr trapret_addr initcode_start initcode_size).

Lemma userinit_booted y s' : bss (HB := kernel_io waits) (y_files y) → first_init (y_files y) = Ret tt s' →
  kernel_booted kend waits (mk_machine s' (λ _, Some (@forkret _ fops)) None).
Proof.
  intros Hb E. refine (userinit_boots (HF := kernel_frame waits) _ _ _ _ _ _ _ _ _ _ _ _ Hb E).
  intros d rd i n. apply (devsw_read_keeps (HF := log_frame waits)).
Qed.

(** The frame of the process is on its own page, which neither directory uses. *)
Lemma user_frame_page m ks : only_page ks m (user_frame m (ks + KSTACKSIZE - TF_SIZE)).
Proof. intros x Hx. apply user_frame_other. unfold in_page, PGSIZE, KSTACKSIZE, TF_SIZE in *. lia. Qed.

Ltac among :=
  repeat match goal with H : _ ∈ _ :: _ |- _ => rewrite elem_of_cons in H | H : _ ∈ _ ++ _ |- _ => rewrite elem_of_app in H end;
  repeat (first [rewrite elem_of_cons | rewrite elem_of_app]); tauto.

(** After userinit both directories are in place. *)
Lemma both_spaces k ks l D T dir k3 p l' T' :
  let k4 := set_kram (user_frame (kram k3) (ks + KSTACKSIZE - TF_SIZE)) k3 in
  pt_inv kend k (ks :: l) D T (E4 q) →
  first_space kend q forkret_addr trapret_addr initcode_start initcode_size k ks l dir k3 p l' T' →
  pt_inv kend k4 l' dir T' (mapped (E4 q) 0 1 (v2p p) 6) ∧ pt_inv kend k4 l' D T (E4 q) ∧
  NoDup (ks :: p :: dir :: D :: l') ∧ page_ok kend p ∧ only_page ks (kram k3) (kram k4) ∧ page_ok kend ks.
Proof.
  intros k4 Hi [F1 F2 F3 F4 _ _]. pose proof (user_frame_page (kram k3) ks) as M4.
  pose proof Hi as (Hu & (_ & Hnl & Hokl) & Hnd & Hok & _). rewrite Forall_cons in Hokl. destruct Hokl as [Hks Hokl].
  pose proof F1 as (Hu3 & Hf3 & Hn3 & _). apply NoDup_cons in Hnl as [Hks' Hnl]. rewrite F2 in Hnl.
  assert (∀ x, x ∈ dir :: vals T' ++ l' → x ∈ l) as Hsub by (intros x Hx; rewrite F2; by apply elem_of_cons; right).
  assert (∀ x, x ∈ D :: vals T → x ∉ ks :: l) as Hdis.
  { rewrite app_comm_cons, NoDup_app in Hnd. intros x Hx. by apply Hnd. }
  assert (p ∈ l) as Hp by (rewrite F2; among).
  assert (free_rel kend k4 l') as Hf4.
  { eapply free_rel_only_page; [exact M4|apply Hks| |done]. intros Hin. apply Hks', Hsub. among. }
  rewrite Forall_forall in Hok, Hokl. assert (page_ok kend p) as Hpp by auto. split_and!; try done.
  - eapply pt_inv_change; [|exact Hu3|done|done|exact F1]. intros x a Hx Ha. apply M4. eapply off_page; [apply Hks| | |exact Ha].
    + apply Hokl, Hsub. among.
    + intros ->. apply Hks', Hsub. among.
  - eapply pt_inv_change; [|exact Hu3|done| |exact Hi].
    + intros x a Hx Ha. assert (∀ z, z ∈ ks :: l → ¬ in_page z a) as Hz.
      { intros z Hz. eapply off_page; [|apply Hok, Hx| |exact Ha]; [|intros ->; by apply (Hdis z)]. apply elem_of_cons in Hz as [->|Hz]; [apply Hks|by apply Hokl]. }
      cbn. rewrite M4 by (apply Hz; among). by apply F4.
    + rewrite app_comm_cons, NoDup_app in Hnd |- *. destruct Hnd as (Hn1 & Hn2 & _). split_and!; [done| |apply Hf3].
      intros x Hx Hin. apply (Hn2 x Hx). apply elem_of_cons. right. apply Hsub. among.
  - assert (D ∉ ks :: l) as HD by (apply Hdis; among). rewrite app_comm_cons, NoDup_cons, NoDup_app in Hnl. destruct Hnl as (N1 & N2 & N3 & N4).
    rewrite elem_of_app in N1. apply NoDup_cons in N2 as [N2 _].
    assert (dir ∈ l) as Hd by (apply Hsub; among). assert (∀ x, x ∈ l' → x ∈ l) as Hl' by (intros x Hx; apply Hsub; among).
    pose proof (N3 dir ltac:(among)) as Hdl. rewrite elem_of_cons in N1, HD. rewrite !NoDup_cons, !not_elem_of_cons.
    clear - Hks' N1 N4 Hdl HD Hd Hl' Hp. naive_solver.
Qed.

Lemma userinit_stage y l D T : early y l D T → (68 ≤ length l)%nat →
  ∃ y' ks dir p, yf first_init y = Ret tt y' ∧ boots y' ks dir p D.
Proof.
  intros He Hl. destruct l as [|ks l]; [cbn in Hl; lia|]. pose proof He as [Hb Hh Hn Hic [Hkp Hcr] Hi Him].
  destruct (userinit_run kend q forkret_addr trapret_addr initcode_start initcode_size q_small size_range (proj2 start_range) waits (y_files y) ks l)
    as (dir & k3 & p & l' & T' & HF & E); [apply Hb|done|done|done|apply Hi|cbn in Hl; lia|].
  pose proof (both_spaces _ _ _ _ _ _ _ _ _ _ Hi HF) as (P1 & P2 & Hnd & Hp & M4 & Hks). destruct HF as [_ _ _ _ F5 F6].
  assert (p ≠ ks) as Hpk by (intros ->; apply NoDup_cons in Hnd as [Hnd _]; set_solver).
  assert (∀ x, in_page ks x → x < ks + KSTACKSIZE - TF_SIZE → user_frame (kram k3) (ks + KSTACKSIZE - TF_SIZE) x = fresh_stack (kram (K y)) ks forkret_addr trapret_addr x) as Hst.
  { intros x Hx Hlt. rewrite user_frame_other by (by left). by apply F5. }
  eexists _, ks, dir, p. split; [apply zoom_Ret, E|]. split.
  - by eapply userinit_booted.
  - by eexists.
  - done.
  - apply user_frame_regs.
  - destruct (stack_words (kram (K y)) ks) as [<- <-].
    split; apply ld32_ext; intros x Hx; apply Hst; unfold in_page, PGSIZE, KSTACKSIZE, TF_SIZE, CONTEXT_SIZE in *; lia.
  - intros va Hva. etrans; [exact (pte_at_entries _ _ _ _ _ _ va P1 Hva)|]. by apply first_pte.
  - intros i Hi'. etrans; [apply M4; eapply off_page; [apply Hks|apply Hp|done|unfold in_page; lia]|]. rewrite F6 by done.
    destruct (Z.ltb_spec i initcode_size); [|done]. apply Him. lia.
  - split_and!; [done|done|]. intros va Hva. etrans; [exact (pte_at_entries _ _ _ _ _ _ va P2 Hva)|]. by apply (E4_pte q q_small).
  - exists l'. split; [apply P1|done].
Qed.

(** *** main *)

#[local] Hint Resolve seginit_inert lapicinit_inert consoleinit_inert uartinit_inert binit_inert mem_ideinit_inert : inert.

(** Printing changes nothing the machine depends on. *)
Lemma booted_printed s K o : kernel_booted kend waits (mk_machine s K None) → let k := ck (core_of (HB := kernel_io waits) s) in
  kernel_booted kend waits (mk_machine (set_core (HB := kernel_io waits)
    (set_ck (mk_kst (kheld k) (kram k) (use_lock k) (freelist k) o) (core_of (HB := kernel_io waits) s)) s) K None).
Proof.
  intros (Hh & Hc & Hk & Hf) k. split; [done|]. split; [done|]. split; [|exact Hf].
  apply (kernel_ok_move (λ _, None) s); [done|done|done|apply Hk|done].
Qed.

(** mpinit does not count more processors than cpus has room for. *)
Lemma mpinit_loop_ncpu m fuel p e s s' : mpinit_loop m fuel p e s = Ret tt s' → ncpu s ≤ 8 → ncpu s' ≤ 8.
Proof.
  revert p s. induction fuel as [|fuel IH]; intros p s; cbn [mpinit_loop]; [done|]. destruct (p <? e); [|by intros [= <-]].
  destruct (m p =? MPPROC); [|destruct (m p =? MPIOAPIC); [|destruct ((_ || _) || _)]].
  - intros ([] & s1 & E1 & E2)%bind_Ret_inv Hn. apply (IH _ _ E2). revert E1. unfold mpproc, bind, gets, modify, panic, ret. cbn [obind].
    destruct (negb _), (negb _); cbn [obind ret mp_printf modify]; (destruct (Z.leb_spec (Z.of_nat NCPU) (ncpu s)); [done|]; intros [= <-]; cbn; unfold NCPU in *; lia).
  - intros ([] & s1 & [= <-] & E2)%bind_Ret_inv Hn. by apply (IH _ _ E2).
  - intros E2. by apply (IH _ _ E2).
  - intros ([] & s1 & [= <-] & E2)%bind_Ret_inv Hn. apply bind_Ret_inv in E2 as ([] & s2 & [= <-] & E2). by apply (IH _ _ E2).
Qed.

Lemma mpinit_ncpu m s s' : mpinit m inb23 mp_fuel s = Ret tt s' → ncpu s ≤ 8 → ncpu s' ≤ 8.
Proof.
  unfold mpinit. intros ([] & s1 & [= <-] & E)%bind_Ret_inv Hn. revert E. destruct (mpconfig m) as [[mp conf]|]; [|by intros [= <-]].
  intros ([] & s2 & [= <-] & E)%bind_Ret_inv. apply bind_Ret_inv in E as ([] & s3 & [= <-] & E). apply bind_Ret_inv in E as ([] & s4 & E4' & E).
  apply mpinit_loop_ncpu in E4'; [|done]. apply bind_Ret_inv in E as (b & s5 & [= <- <-] & E). destruct (ismp s4 =? 0).
  - by injection E as <-.
  - destruct (negb _); [|by injection E as <-]. apply bind_Ret_inv in E as ([] & s6 & [= <-] & E). by injection E as <-.
Qed.

Lemma startothers_run y l D T : early y l D T → low (D :: vals T ++ l) → ncpu (y_mp y) ≤ 8 → (8 ≤ length l)%nat →
  ∃ y' l', startothers entryother_start entryother_size mpenter_addr entrypgdir_addr waits lread polls flags ra ap_started y = Ret tt y' ∧
    early y' l' D T ∧ low (D :: vals T ++ l').
Proof.
  intros He Hlow Hn Hl. unfold startothers. eapply (inert_step _ _ _ _ _ _ (λ o, ∃ y' l', o = _ ∧ _)); [apply entry_code_inert|exact He|].
  intros _ y1 M1 He1. unfold with_mp. rewrite (bind_Ret (gets _) _ _ _ _ eq_refl).
  destruct (startothers_loop_run (Z.to_nat (ncpu (y_mp y1))) 0 y1 l D T He1) as (y2 & l2 & E & He2 & [ps ->] & _); [rewrite M1; lia|].
  exists y2, l2. split_and!; [done|done|]. rewrite !Forall_cons, !Forall_app in *. tauto.
Qed.

Abbreviation the_main := (main kend data forkret_addr trapret_addr initcode_start initcode_size entryother_start entryother_size
  mpenter_addr entrypgdir_addr cpus_addr idt_addr vectors image waits lread inb inb23 mp_fuel polls flags ra ap_started).

Lemma main_run y mp : power_on waits m0 y → ncpu (y_mp y) ≤ 8 →
  (∀ m, (∀ a, a < kend → m a = m0 a) → mpinit m inb23 mp_fuel (y_mp y) = Ret tt mp) →
  ∃ y' ks dir p D, the_main y = Ret tt y' ∧ boots y' ks dir p D ∧ y_idtr y' = idtinit idt_addr.
Proof.
  intros Hy Hn Hmp. unfold main. erewrite bind_Ret; [|reflexivity]. set (y0 := set_y_locks _ y).
  assert (power_on waits m0 y0) as Hy0 by (by destruct Hy; split). destruct (memory_ready y0 Hy0) as (y1 & y2 & l & D & T & E1 & E2 & He & Hlow & Hl & Hm & My).
  change (p2v (4 * 1024 * 1024)) with LIMIT. change (p2v PHYSTOP) with (KERNBASE + PHYSTOP).
  rewrite (bind_Ret _ _ _ _ _ E1), (bind_Ret _ _ _ _ _ E2), (bind_Ret (gets _) _ _ _ _ eq_refl).
  assert (mpinit (kram (K y2)) inb23 mp_fuel (y_mp y2) = Ret tt mp) as E3 by (rewrite My; by apply Hmp).
  rewrite (bind_Ret _ _ _ _ _ (zoom_Ret y_mp set_y_mp _ _ _ _ E3)).
  assert (ncpu mp ≤ 8) as Hn3 by (eapply mpinit_ncpu; [exact E3|by rewrite My]).
  assert (early (set_y_mp mp y2) l D T) as He3 by (destruct He as [[] ? ? ? ? ? ?]; by split; [split|..]).
  change mp with (y_mp (set_y_mp mp y2)) in Hn3. revert He3 Hn3. generalize (set_y_mp mp y2). clear He E1 E2 E3 Hm My y1 y2 Hy0 y0. intros z He Hn3.
  do 15 (eapply (inert_step _ _ _ _ _ _ (λ o, ∃ y' ks dir p D0, o = _ ∧ _)); [solve [inerts]|exact He|]; clear He; intros ? z' Mz He; rewrite <- Mz in Hn3; clear Mz z; rename z' into z).
  destruct (startothers_run z l D T He Hlow Hn3 Hl) as (y2 & l2 & E2 & He2 & Hl2). rewrite (bind_Ret _ _ _ _ _ E2).
  destruct (kinit2_run y2 l2 D T He2 Hl2) as (y3 & l3 & E3 & He3 & Hl3 & _). rewrite (bind_Ret _ _ _ _ _ E3).
  destruct (userinit_stage y3 l3 D T He3 Hl3) as (y4 & ks & dir & p & E4' & Hst). rewrite (bind_Ret _ _ _ _ _ E4').
  destruct (mpmain_run y4) as (o & i & b & E5 & ->). eexists _, ks, dir, p, D. split; [exact E5|]. split; [|done].
  destruct Hst as [S1 S2 S3 S4 S5 S6 S7 S8 S9].
  split; [by apply booted_printed|exact S2|exact S3|exact S4|exact S5|exact S6|exact S7|exact S8|exact S9].
Qed.

End boot.

(** ** The theorem *)

(** Where the linker puts the parts of the kernel: the image ends at [kend], with
    74 pages of room below 4 MB. *)
Record linked (kend data initcode_start initcode_size entryother_size : Z) : Prop := {
  lk_data : data mod PGSIZE = 0 ∧ KERNLINK < data ≤ kend;
  lk_room : kend + PGSIZE * 74 ≤ KERNBASE + 4194304;
  lk_init : 0 ≤ initcode_size < PGSIZE ∧ KERNLINK ≤ initcode_start ∧ initcode_start + initcode_size ≤ kend;
  lk_other : 0 ≤ entryother_size ≤ PGSIZE
}.

(** The local APIC delivers and the other processors start, each within the
    number of polls. *)
Record answers (lread : Z → nat → Z) (ap_started : Z → nat → Z) (polls : nat) : Prop := {
  an_delivers : ∀ n, ∃ k, (k < polls)%nat ∧ Z.land (lread ICRLO (n + k)%nat) DELIVS = 0;
  an_starts : ∀ c n, ∃ k, (k < polls)%nat ∧ ap_started c (n + k)%nat ≠ 0
}.

(** C7: main reaches the scheduler.  From the state the boot loader leaves, on a
    machine whose tables mpinit can read and whose devices answer, the whole
    start-up returns without a panic.  Then the first process, and no other, is
    runnable: its slot is as userinit fills it in, its kernel stack returns through
    forkret and trapret to user mode at address 0 with interrupts on, its page
    directory has the initcode in a writable user page at 0 and otherwise the
    kernel's part, the processor runs on the kernel's page table, the pages in use
    are distinct and not on the free list, and the machine satisfies what the
    theorem about its further runs asks for. *)
Theorem main_boots kend data forkret_addr trapret_addr initcode_start initcode_size entryother_start entryother_size
    mpenter_addr entrypgdir_addr cpus_addr idt_addr vectors image waits lread inb inb23 mp_fuel polls flags ra ap_started m0 y mp :
  linked kend data initcode_start initcode_size entryother_size → answers lread ap_started polls →
  power_on waits m0 y → ncpu (y_mp y) = 0 →
  (∀ m, (∀ a, a < kend → m a = m0 a) → mpinit m inb23 mp_fuel (y_mp y) = Ret tt mp) →
  ∃ y' ks dir p D,
    main kend data forkret_addr trapret_addr initcode_start initcode_size entryother_start entryother_size
      mpenter_addr entrypgdir_addr cpus_addr idt_addr vectors image waits lread inb inb23 mp_fuel polls flags ra ap_started y = Ret tt y' ∧
    started kend data forkret_addr trapret_addr initcode_start initcode_size waits m0 y' ks dir p D ∧
    y_idtr y' = idtinit idt_addr.
Proof.
  intros [[Hd1 Hd2] Hr (Hi1 & Hi2) Ho] [Ha1 Ha2] Hy Hn Hmp.
  assert (∃ q, data = KERNLINK + PGSIZE * q) as [q ->].
  { exists ((data - KERNLINK) / PGSIZE). unfold KERNLINK in *. num. Z.div_mod_to_equations. lia. }
  eapply main_run; try done; [unfold PGSIZE in *; lia|lia|by rewrite Hn].
Qed.

(** ** Witness *)

(** Empty memory, no multiprocessor tables. *)
Lemma no_mp m n p e : (∀ a, a < e → m a = 0) → mpsearch1_loop m n p e = None.
Proof.
  intros Hm. revert p. induction n as [|n IH]; intros p; cbn [mpsearch1_loop]; [done|]. destruct (Z.ltb_spec p e); [|done].
  assert (mp_at m p = false) as ->; [|apply IH]. unfold mp_at, sig_at. rewrite bool_decide_eq_false_2; [done|].
  unfold bytes_at. cbn. rewrite Z.add_0_r, Hm by done. by intros [=].
Qed.

Lemma no_mp_tables m : (∀ a, a < KERNBASE + 2097152 → m a = 0) → mpinit m 0 0 mpst0 = Ret tt mpst0.
Proof.
  intros Hm. assert (mpsearch m = None) as E.
  { unfold mpsearch, mpsearch1. rewrite !Hm by (unfold KERNBASE; lia). cbn -[mpsearch1_loop].
    rewrite !no_mp; [done|intros a Ha; apply Hm; etrans; [exact Ha|by vm_compute]..]. }
  unfold mpinit, mpconfig. by rewrite E.
Qed.

Definition ex_core0 : core := mk_core (mk_kst [] (λ _, 0) 0 0 []) (replicate NPROC proc0) None 1 0 None 0 0 0 1.

Definition ex_sys : sys :=
  mk_sys (mk_fst (mk_fs (mk_cst (set_lb (set_bc ex_core0 (lb ex_boot)) ex_boot) ex_con) (mk_sb 0 0 0 0 0 0 0) (replicate NINODE inode0)) (replicate NFILE file0))
    mpst0 ex_dev mach0 (mk_segments (replicate NSEGS segdesc0) [] 0 0 0) (replicate 256 gatedesc0) [] 0 (replicate NCPU 0) 0 (replicate 10 (false, false)) 0.

Abbreviation ex_main := (main (KERNBASE + 2097152) (KERNLINK + 65536) 0 0 (KERNLINK + 4096) 44 (KERNLINK + 8192) 100 0 0 0 0 (λ _, 0) [] 1
  (λ _ _, 0) (λ _ _, 0) 0 0 1 0 0 (λ _ _, 1)).

Lemma main_boots_witness : ∃ y, ex_main ex_sys = Ret tt y ∧ state (getp 0 (core_of (HB := kernel_io 1) (y_files y))) = RUNNABLE.
Proof.
  destruct (main_boots (KERNBASE + 2097152) (KERNLINK + 65536) 0 0 (KERNLINK + 4096) 44 (KERNLINK + 8192) 100 0 0 0 0 (λ _, 0) [] 1
    (λ _ _, 0) (λ _ _, 0) 0 0 1 0 0 (λ _ _, 1) (λ _, 0) ex_sys mpst0) as (y & ks & dir & p & D & E & Hs & _).
  - split; unfold KERNLINK, KERNBASE, EXTMEM, PGSIZE; [split; [reflexivity|lia]|lia..].
  - split; intros; exists 0%nat; (split; [lia|]); done.
  - split; [split|..]; try reflexivity. intros a. cbn. lia.
  - reflexivity.
  - apply no_mp_tables.
  - exists y. split; [exact E|]. destruct (st_procs _ _ _ _ _ _ _ _ _ _ _ _ _ Hs) as [t Ht]. unfold getp. rewrite Ht. reflexivity.
Defined.
